(* ===== verification/_CoqProject ===== *)
-Q . S2P
Prelude.v
Text.v
Hex.v
Median.v
PriceTimestamp.v
MarketConfig.v
ServerCache.v
ClientCache.v
MutableConfigs.v
PriceMath.v
ExchangeErrors.v
PriceEncoder.v
QueryHandler.v
PriceFetcher.v
PriceUpdater.v
Daemon.v
Health.v
Endpoints.v
Queries.v
TokenBridge.v
Messages.v
Float64.v
TxChannel.v
TxSender.v
EncodePrice.v
CustomNumbers.v
CustomQuery.v
BigFloat.v
Sources.v
LegacyDecimal.v
RemoteSigner.v
PriceGuard.v
ReporterConfig.v
Json.v
ReporterKeyring.v
ReporterTasks.v
SpotReports.v
BridgeReports.v
ResponseCache.v
Durations.v
RpcReader.v
ContractReader.v
ContractHandlers.v
RpcHandlers.v
CombinedHandlers.v
QueryEndpoints.v
Dispute.v
ConfigFiles.v
QueryConfigFile.v
StaticQueries.v
TestMode.v
Startup.v
StaticMarkets.v
ExchangeConfigs.v
DaemonLife.v
BlockMonitor.v
App.v
ReporterStart.v
OperatorCommands.v
ServerLife.v
BridgeLife.v
