(* ===== verification/Prelude.v ===== *)
(** * layer-daemons: a verification library

    The program (src/, Go) is the off-chain part of a Tellor Layer reporter. A
    price daemon asks exchanges for tickers, turns them into index prices and
    sends the prices to a local server; a bridge daemon reads deposits of an
    Ethereum contract; the reporter takes prices and deposits from the server's
    caches, asks the chain which query is due, answers it with a price of the
    cache, of a custom query or of a deposit, and sends transactions through
    whatever nodes answer.

    ** How the parts interact

<<
  exchanges --PriceFetcher--> PriceEncoder --> ClientCache --PriceUpdater--+
                ^                ^                                        |
                +-MutableConfigs-+                                        v
  contract --TokenBridge--> pending deposits, tips                   ServerCache
                                  |                                      |
      CustomQuery -----------+    v                                      v
      (RpcReader, ...)       +-> BridgeReports    SpotReports (PriceGuard) <+
                                  |                    |
                                  +--> TxChannel <-----+   ReporterTasks
                                           |                    |
                                       TxSender <---------------+
                                           |
                                       Endpoints (Queries)
>>

    ** The files, and the code each models (paths under src/)

    Shared: Prelude (this file: results, errors, machine integers, times, orders in
    which a map is ranged), Text (package strings), Hex (encoding/hex), Float64
    and BigFloat (float64 and math/big), LegacyDecimal (the decimals of
    cosmossdk.io/math, a class of laws), Json (decoded JSON values).

    The price daemon: Median (lib/math.go), PriceTimestamp
    (pricefeed/types/price_timestamp.go), MarketConfig, MutableConfigs and
    ClientCache (pricefeed/client/types), PriceMath and EncodePrice
    (lib/prices/utils.go), ExchangeErrors and Sources (pricefeed/client/sources),
    QueryHandler, PriceFetcher and PriceEncoder (the directories of these names),
    PriceUpdater (pricefeed/client/subtask_runner.go with server/pricefeed.go),
    Daemon (pricefeed/client/client.go: its startup) and DaemonLife (its life and
    its shutdown).

    Configuration: ConfigFiles (configs: the two files, their defaults and
    merges), StaticMarkets (constants: the built-in markets and exchanges),
    ExchangeConfigs (the generator of exchange configurations, with the tables of
    testutil/daemons/pricefeed/exchange_config).

    The commands and the application: App (app.go, flags, telemetry.go), Startup
    (cmd/main.go, endpoints.go, chain_id.go), TestMode (cmd/test_mode.go),
    OperatorCommands (cmd/create-reporter, create-validator, edit-validator,
    unjail).

    The server: ServerCache (server/types/pricefeed), Health (types and
    server/types/health_*.go), ServerLife (server/server.go), and the caches of deposits and tips in TokenBridge
    (server/types/token_bridge, server/types/token_bridge_tips).

    The bridge daemon (token_bridge_feed/client): TokenBridge (what it does) and
    BridgeLife (its startup, ticks and stop).

    The reporter (reporter/client): ReporterConfig, RemoteSigner and
    ReporterKeyring (how it is configured and which key it signs with),
    ReporterStart (these and the first connections, in order), Endpoints
    and Queries (nodes with fallback), Messages, TxChannel and TxSender (how
    transactions leave), PriceGuard, SpotReports and BridgeReports (what is
    reported), BlockMonitor (the subscriptions to new blocks that drive the
    reports of the cycle list), ReporterTasks (startup and what runs by the clock).
    Dispute (reporter/dispute): the monitor that stops a reporter.

    Custom queries (custom_query): CustomQuery (request.go, deadline.go),
    CustomNumbers (convert_num.go), Json (the walk along a
    path), Durations (texts of durations), ResponseCache (rpc/rpc_reader/cache.go), RpcReader
    (rpc/rpc_reader/reader.go), ContractReader (contracts/contract_reader), ContractHandlers,
    RpcHandlers and CombinedHandlers (contracts/, rpc/ and combined/ handlers),
    QueryEndpoints (config.go and what builds the readers), QueryConfigFile (the
    configuration file and its merge), StaticQueries (its built-in queries).

    ** How state and operations correspond

    A Go function is a definition of its name: a method takes the state of its
    receiver and returns it changed. [go A] is a result: a value, an error or a
    panic; a Go error is a term ([ErrNew], [ErrWrap], sentinels) on which
    [errors.Is] is computed. Machine integers are [Z] with [wrap] at their width.
    What a goroutine shares with others is a state with a step relation (the health
    checker, the transaction channel, the response cache) or a history of atomic
    steps, one per method that holds the lock. A map of Go is a [gmap]; where a
    loop over one can be observed, the order in which it is ranged is an argument,
    constrained only to be a permutation. Code that is not in the repository
    (HTTP, JSON decoders, nodes, contract bindings, the SDK's keyring, timers) is
    an argument over an arbitrary world, or a class with its documented laws and
    an instance that meets them.

    ** What the theorems show

    - What is started, and when: the command, the application and the reporter
      start their parts in order, and nothing that reports when a check before it
      fails; the test mode and the operator commands do what they promise.
    - Functional behaviour of every branch, errors included: the median, the
      parameters and updates of market configurations, the query handler, the price
      encoder, the price update of the server, custom queries, transactions.
    - Refinement to an abstract specification: both price caches hold the latest
      update of the history of updates; the price guard is a function of the
      reports it was asked about; a price sent by the daemon is a price served.
    - Invariants of concurrent state: no send on a closed channel and at most ten
      senders; no callback of a stopped health checker; deposits are reported in
      their order; no query is reported twice; the coalescing response cache; the
      goroutines, tickers and channels of the price daemon; subscriptions.
    - Termination and progress: shutdown drains the channel, the wait for a
      transaction ends, the daemon registers every exchange and its stop ends unless
      the process panics, the ring reaches every market, startup ends or asks again.
    - Round trips and bounds: reported values, ABI numbers, hexadecimal text, ticker
      prices between the exact price minus two and plus one.

    ** Bounds and fuel

    Recursion is structural nearly everywhere. Loops without a bound in the source
    (the wait for a transaction, startup, shutdown, periodic tasks) are step
    relations or take a fuel, with a theorem that some fuel suffices or that the
    number of rounds is bounded; where the source really can go on for ever (a node
    that never answers) the theorem says so, and what holds of every prefix.
    Digits of numbers are printed with the length of the number as fuel.

    ** What is not modelled, and why

    - Generated code: *.pb.go, *.pb.gw.go, the contract bindings under
      token_bridge_feed/abi, vendor-api.
    - Calls without logic of their own: dialling and registering services
      (types/grpc_*.go, server/token_bridge), appconfig, certificates, subtask runners that
      only start goroutines.
    - Logs and metrics (lib/metrics, pricefeed/metrics, metrics/client,
      price_guard_metrics.go): they change no state that the program reads.
    - Tables of constants that no definition reads, test code (testutil, mocks).
    - Floats beyond binary64 arithmetic: the price of the volatile test exchange, a
      cosine, is an argument.
    - Queries of the SDK, TOML and JSON decoders, HTTP, gRPC and websocket clients, the
      clock and timers: arguments, with their documented behaviour where it matters.

    ** Plan

    What could follow: the periodic loops of the reporter client as steps of one
    relation with its channel, and the flags of appconfig. *)

From Stdlib Require Export ZArith Lia ZifyNat ZifyBool.
From Stdlib Require Strings.String.
From stdpp Require Export base tactics list gmap strings sorting pretty.

Declare Scope go_scope.
Delimit Scope go_scope with go.

#[global] Arguments Nat.div : simpl never.
#[global] Arguments Nat.modulo : simpl never.
#[global] Arguments Z.quot : simpl never.
#[global] Arguments Z.rem : simpl never.

(** The bytes of a string. *)
Notation chars := Stdlib.Strings.String.list_ascii_of_string.

(** ** Errors

    An [error] of the program is one of its sentinels (compared by identity),
    a text error ([errors.New], [fmt.Errorf] without [%w]), an
    [ExchangeError] (which carries the exchange id and has no [Unwrap]), or a
    text that wraps one or two other errors ([fmt.Errorf] with [%w]). *)
Inductive sentinel :=
  | DeadlineExceeded        (** context.DeadlineExceeded *)
  | ConstRateLimiting       (** constants.ErrRateLimiting *)
  | HandlerRateLimiting     (** queryhandler.ErrRateLimiting *)
  | ConnReset               (** syscall.ECONNRESET *)
  | KeyringPasswordFile.    (** client.ErrKeyringPasswordFile *)

Inductive go_error :=
  | ErrSentinel (s : sentinel)
  | ErrNew (msg : string)
  | ErrExchange (exchangeId : string) (msg : string)
  | ErrWrap (pre : string) (inner : go_error) (post : string)
  | ErrWrap2 (pre : string) (first : go_error) (mid : string) (second : go_error).

#[export] Instance sentinel_eq_dec : EqDecision sentinel.
Proof. solve_decision. Defined.
#[export] Instance go_error_eq_dec : EqDecision go_error.
Proof. solve_decision. Defined.

(** [fmt.Errorf("msg: %w", err)], the form in which most errors are wrapped. *)
Notation wrapf msg e := (ErrWrap (String.append msg ": ") e "").

(** [errors.Is(err, target)] for a sentinel, and [errors.As(err, &exchangeError)]:
    both walk the chain of wrapped errors. *)
Fixpoint errors_Is (e : go_error) (s : sentinel) : bool :=
  match e with
  | ErrSentinel s' => bool_decide (s' = s)
  | ErrWrap _ inner _ => errors_Is inner s
  | ErrWrap2 _ e1 _ e2 => errors_Is e1 s || errors_Is e2 s
  | _ => false
  end.

Fixpoint errors_As_exchange (e : go_error) : option (string * string) :=
  match e with
  | ErrExchange id msg => Some (id, msg)
  | ErrWrap _ inner _ => errors_As_exchange inner
  | ErrWrap2 _ e1 _ e2 =>
      match errors_As_exchange e1 with Some x => Some x | None => errors_As_exchange e2 end
  | _ => None
  end.

(** ** Outcomes of a Go call

    A function of type [(T, error)] returns a value, returns an error, or
    panics. *)
Inductive go_panic :=
  | IndexOutOfRange
  | NilDereference
  | DivisionByZero
  | PanicMsg (msg : string).

#[export] Instance go_panic_eq_dec : EqDecision go_panic.
Proof. solve_decision. Defined.

Inductive go (A : Type) :=
  | Ok (a : A)
  | Err (e : go_error)
  | Panic (p : go_panic).
Arguments Ok {A} a.
Arguments Err {A} e.
Arguments Panic {A} p.

#[export] Instance go_eq_dec {A} `{EqDecision A} : EqDecision (go A).
Proof. solve_decision. Defined.

#[export] Instance go_ret : MRet go := fun _ a => Ok a.
#[export] Instance go_bind : MBind go := fun _ _ f m =>
  match m with Ok a => f a | Err e => Err e | Panic p => Panic p end.
#[export] Instance go_fmap : FMap go := fun _ _ f m =>
  match m with Ok a => Ok (f a) | Err e => Err e | Panic p => Panic p end.

Definition is_ok {A} (m : go A) : bool :=
  match m with Ok _ => true | _ => false end.

Lemma go_bind_Ok {A B} (m : go A) (f : A -> go B) b :
  (m ≫= f) = Ok b <-> exists a, m = Ok a /\ f a = Ok b.
Proof. destruct m; simpl; naive_solver. Qed.

(** Reading a slice: out of range panics. *)
Definition index {A} (l : list A) (i : nat) : go A :=
  match l !! i with Some x => Ok x | None => Panic IndexOutOfRange end.

Lemma index_Ok {A} (l : list A) i x : index l i = Ok x <-> l !! i = Some x.
Proof. unfold index. destruct (l !! i); naive_solver. Qed.

Lemma index_total {A} (l : list A) i :
  i < length l -> exists x, l !! i = Some x /\ index l i = Ok x.
Proof.
  intros [x Hx]%lookup_lt_is_Some. exists x. unfold index. by rewrite Hx.
Qed.

(** [for _, x := range l { ... }] with an early return on the first error:
    the loop bodies run in order and the results are collected. *)
Fixpoint mapM_go {A B} (f : A -> go B) (l : list A) : go (list B) :=
  match l with
  | [] => Ok []
  | x :: l => b ← f x; bs ← mapM_go f l; Ok (b :: bs)
  end.

Lemma mapM_go_Ok {A B} (f : A -> go B) l bs :
  mapM_go f l = Ok bs <-> Forall2 (fun a b => f a = Ok b) l bs.
Proof.
  revert bs. induction l as [|a l IH]; intros bs; simpl.
  - split; [intros [= <-]; constructor | inversion 1; done].
  - rewrite go_bind_Ok. setoid_rewrite go_bind_Ok. split.
    + intros (b & Hb & bs' & Hbs & [= <-]). constructor; naive_solver.
    + inversion 1; subst. eexists; split; [done|]. eexists. by rewrite IH.
Qed.

(** A loop that threads a state and may return early, and one that only checks. *)
Fixpoint foldM_go {S A} (f : S -> A -> go S) (s : S) (l : list A) : go S :=
  match l with
  | [] => Ok s
  | x :: l => s' ← f s x; foldM_go f s' l
  end.

Definition forM_go {A} (f : A -> go unit) (l : list A) : go unit :=
  foldM_go (fun _ x => f x) tt l.

Lemma foldM_go_app {S A} (f : S -> A -> go S) s l l' :
  foldM_go f s (l ++ l') = s' ← foldM_go f s l; foldM_go f s' l'.
Proof.
  revert s. induction l as [|x l IH]; intros s; simpl; [done|].
  destruct (f s x); simpl; auto.
Qed.

(** A loop whose body never fails is a fold. *)
Lemma foldM_go_total {S A} (f : S -> A -> go S) (g : S -> A -> S) s l :
  (forall s x, x ∈ l -> f s x = Ok (g s x)) -> foldM_go f s l = Ok (foldl g s l).
Proof.
  revert s. induction l as [|x l IH]; intros s Hf; simpl; [done|].
  rewrite Hf by set_solver. simpl. apply IH. intros. apply Hf. set_solver.
Qed.

Lemma forM_go_Ok {A} (f : A -> go unit) l :
  forM_go f l = Ok tt <-> Forall (fun x => f x = Ok tt) l.
Proof.
  unfold forM_go. induction l as [|x l IH]; simpl; [done|].
  rewrite go_bind_Ok, Forall_cons. setoid_rewrite <- IH. split.
  - by intros ([] & Hx & Hl).
  - intros []. by exists tt.
Qed.

(** The error (or panic) of a checking loop is that of one of its bodies. *)
Lemma forM_go_not_Ok {A} (f : A -> go unit) l r :
  forM_go f l = r -> r <> Ok tt -> exists x, x ∈ l /\ f x = r.
Proof.
  unfold forM_go. induction l as [|x l IH]; simpl; [congruence|].
  destruct (f x) as [[]|e|p] eqn:E; simpl; intros H Hr.
  - destruct (IH H Hr) as (y & Hy & Hfy). exists y. split; [by right|done].
  - exists x. split; [by left|congruence].
  - exists x. split; [by left|congruence].
Qed.

Lemma ex_elem_snoc {A} (P : A -> Prop) l a :
  (exists x, x ∈ l ++ [a] /\ P x) <-> (exists x, x ∈ l /\ P x) \/ P a.
Proof.
  split.
  - intros (x & [Hx| ->%list_elem_of_singleton]%elem_of_app & HP); [left; by exists x|by right].
  - intros [(x & Hx & HP)|HP]; [exists x|exists a]; (split; [|done]); apply elem_of_app;
      [by left|right; by left].
Qed.

Lemma Forall2_elem_of_l {A B} (P : A -> B -> Prop) l k x :
  Forall2 P l k -> x ∈ l -> exists y, y ∈ k /\ P x y.
Proof.
  intros Hf [i Hi]%list_elem_of_lookup. destruct (Forall2_lookup_l P l k i x Hf Hi) as (y & Hy & HP).
  exists y. split; [by eapply list_elem_of_lookup_2|done].
Qed.

Lemma Forall2_elem_of_r {A B} (P : A -> B -> Prop) l k y :
  Forall2 P l k -> y ∈ k -> exists x, x ∈ l /\ P x y.
Proof.
  intros Hf [i Hi]%list_elem_of_lookup. destruct (Forall2_lookup_r P l k i y Hf Hi) as (x & Hx & HP).
  exists x. split; [by eapply list_elem_of_lookup_2|done].
Qed.

Lemma filter_all {A} (P : A -> Prop) `{!forall x, Decision (P x)} (l : list A) :
  Forall P l -> filter P l = l.
Proof. induction 1 as [|x l Hx _ IH]; [done|]. by rewrite filter_cons_True, IH. Qed.

Lemma filter_none {A} (P : A -> Prop) `{!forall x, Decision (P x)} (l : list A) :
  Forall (fun x => ~ P x) l -> filter P l = [].
Proof. induction 1 as [|x l Hx _ IH]; [done|]. by rewrite filter_cons_False. Qed.

Lemma bool_decide_ext_if {A} (P Q : Prop) `{Decision P} `{Decision Q} (a b : A) :
  (P <-> Q) -> (if bool_decide P then a else b) = (if bool_decide Q then a else b).
Proof. intros E. by rewrite (bool_decide_ext P Q E). Qed.

(** The first element of a list with a property is unique. *)
Lemma first_unique {A} (P : A -> Prop) l1 x l2 k1 y k2 :
  l1 ++ x :: l2 = k1 ++ y :: k2 -> Forall (fun a => ~ P a) l1 -> P x ->
  Forall (fun a => ~ P a) k1 -> P y -> l1 = k1 /\ x = y /\ l2 = k2.
Proof.
  revert k1. induction l1 as [|a l1 IH]; intros [|b k1] E Hl Hx Hk Hy; injection E as -> E; try done.
  - by apply Forall_cons in Hk as [[] _].
  - by apply Forall_cons in Hl as [[] _].
  - apply Forall_cons in Hl as [_ Hl]. apply Forall_cons in Hk as [_ Hk].
    destruct (IH k1 E Hl Hx Hk Hy) as (-> & -> & ->). done.
Qed.

(** ** Fixed width integers

    Machine integers are [Z] with the wrap-around written out. *)
Record int_ty := IntTy { bits : Z; signed : bool }.

Definition uint64 := IntTy 64 false.
Definition uint32 := IntTy 32 false.
Definition int64 := IntTy 64 true.
Definition int32 := IntTy 32 true.

Section Ints.
Open Scope Z_scope.

Definition min_int (t : int_ty) : Z :=
  if signed t then - 2 ^ (bits t - 1) else 0.
Definition max_int (t : int_ty) : Z :=
  if signed t then 2 ^ (bits t - 1) - 1 else 2 ^ bits t - 1.
Definition in_range (t : int_ty) (x : Z) : Prop := min_int t <= x <= max_int t.

Definition wrap (t : int_ty) (x : Z) : Z :=
  if signed t then (x + 2 ^ (bits t - 1)) mod 2 ^ bits t - 2 ^ (bits t - 1)
  else x mod 2 ^ bits t.

(** The widths Go has. *)
Definition go_width (t : int_ty) : Prop := 1 < bits t.

Lemma half_width t : go_width t -> 2 ^ bits t = 2 * 2 ^ (bits t - 1).
Proof.
  intros H. unfold go_width in H. rewrite <- Z.pow_succ_r by lia. f_equal. lia.
Qed.

Lemma wrap_small t x : go_width t -> in_range t x -> wrap t x = x.
Proof.
  intros Hw. pose proof (half_width t Hw) as E.
  unfold in_range, wrap, min_int, max_int.
  destruct (signed t); intros.
  - rewrite Z.mod_small; lia.
  - rewrite Z.mod_small; lia.
Qed.

Lemma wrap_in_range t x : go_width t -> in_range t (wrap t x).
Proof.
  intros Hw. pose proof (half_width t Hw) as E.
  assert (0 < 2 ^ (bits t - 1)) by (apply Z.pow_pos_nonneg; unfold go_width in *; lia).
  unfold in_range, wrap, min_int, max_int.
  destruct (signed t).
  - pose proof (Z.mod_pos_bound (x + 2 ^ (bits t - 1)) (2 ^ bits t)). lia.
  - pose proof (Z.mod_pos_bound x (2 ^ bits t)). lia.
Qed.
End Ints.

#[export] Instance in_range_dec t x : Decision (in_range t x).
Proof. unfold in_range. apply _. Defined.
#[export] Instance go_width_dec t : Decision (go_width t).
Proof. unfold go_width. apply _. Defined.

(** ** Time

    A [time.Time] is its number of nanoseconds since the zero time
    ([time.Time{}] is 0), a [time.Duration] its number of nanoseconds. *)
Notation Time := Z (only parsing).
Notation Duration := Z (only parsing).
Definition zeroTime : Time := 0%Z.

Section Time.
Open Scope Z_scope.
Definition Nanosecond : Duration := 1.
Definition Millisecond : Duration := 1000000.
Definition Second : Duration := 1000000000.
Definition Minute : Duration := 60 * Second.
Definition Hour : Duration := 60 * Minute.

Definition time_After (t u : Time) : bool := u <? t.
Definition time_Before (t u : Time) : bool := t <? u.
Definition time_IsZero (t : Time) : bool := t =? 0.
Definition time_Add (t : Time) (d : Duration) : Time := t + d.
(** [Sub] saturates at the ends of the int64 range. *)
Definition time_Sub (t u : Time) : Duration :=
  Z.max (min_int int64) (Z.min (max_int int64) (t - u)).
End Time.

(** ** Map iteration

    The order in which [range] visits a map is unspecified: it is a parameter
    whose only law is that every entry is visited once. *)
Class RangeOrder := {
  range_of : forall {K V : Type} `{Countable K}, gmap K V -> list (K * V);
  range_of_perm : forall {K V : Type} `{Countable K} (m : gmap K V),
    range_of m ≡ₚ map_to_list m
}.

#[export] Program Instance canonical_range : RangeOrder | 100 :=
  {| range_of := fun K V _ _ m => map_to_list m |}.
Next Obligation. done. Qed.

Section RangeOrder.
Context `{RangeOrder} {K V : Type} `{Countable K}.

Lemma elem_of_range_of (m : gmap K V) k v :
  (k, v) ∈ range_of m <-> m !! k = Some v.
Proof. rewrite range_of_perm. apply elem_of_map_to_list. Qed.

Lemma range_of_NoDup_keys (m : gmap K V) : NoDup (range_of m).*1.
Proof. rewrite range_of_perm. apply NoDup_fst_map_to_list. Qed.

Lemma range_of_empty : range_of (∅ : gmap K V) = [].
Proof. apply Permutation_nil_r. by rewrite range_of_perm, map_to_list_empty. Qed.

Lemma range_of_singleton k v : range_of ({[k := v]} : gmap K V) = [(k, v)].
Proof. apply Permutation_singleton_r. rewrite range_of_perm. by rewrite map_to_list_singleton. Qed.
End RangeOrder.

(** ** Automation *)
Create HintDb go discriminated.
#[export] Hint Resolve wrap_in_range wrap_small : go.
#[export] Hint Extern 1 (go_width _) => (unfold go_width; simpl; lia) : go.

(** Splits the outcome of the first monadic call of a hypothesis or goal. *)
Ltac go_case :=
  match goal with
  | |- context [go_bind _ _ _ ?m] => destruct m eqn:?; simpl
  | |- context [match ?m with Ok _ => _ | Err _ => _ | Panic _ => _ end] =>
      destruct m eqn:?; simpl
  end.
Ltac case_dec := repeat (case_decide || case_match); simplify_eq/=.

(** [Error()]: the text of an error. *)
Definition sentinel_text (s : sentinel) : string :=
  match s with
  | DeadlineExceeded => "context deadline exceeded"
  | ConstRateLimiting => "status 429 - rate limit exceeded"
  | HandlerRateLimiting => "status 429 - rate limit exceeded"
  | ConnReset => "connection reset by peer"
  | KeyringPasswordFile => "keyring password file validation failed"
  end.

Fixpoint error_text (e : go_error) : string :=
  match e with
  | ErrSentinel s => sentinel_text s
  | ErrNew msg => msg
  | ErrExchange id msg => id +:+ " exchange error: " +:+ msg
  | ErrWrap pre inner post => pre +:+ error_text inner +:+ post
  | ErrWrap2 pre e1 mid e2 => pre +:+ error_text e1 +:+ mid +:+ error_text e2
  end.

(** Selecting from a flattened list by a key that is unique in it. *)
Lemma filter_bind_key {A B K} (key : A -> K) (f : A -> list B) (P : B -> Prop)
    `{!forall y, Decision (P y)} (l : list A) (k : K) (x : A) :
  NoDup (key <$> l) -> (forall x y, x ∈ l -> y ∈ f x -> P y -> key x = k) ->
  x ∈ l -> key x = k -> filter P (l ≫= f) = filter P (f x).
Proof.
  intros Hnd Hk Hx Hkx. apply list_elem_of_split in Hx as (l1 & l2 & ->).
  rewrite fmap_app, fmap_cons in Hnd. apply NoDup_app in Hnd as (_ & H1 & H2).
  apply NoDup_cons in H2 as [H2 _].
  rewrite bind_app, bind_cons, !filter_app.
  rewrite (filter_none P (l1 ≫= f)), (filter_none P (l2 ≫= f)), app_nil_r; [done|..];
    apply Forall_forall; intros y (x' & Hy & Hx')%list_elem_of_bind HP;
    assert (key x' = k) as E by (apply (Hk x' y); [apply elem_of_app|..]; set_solver).
  - apply H2. rewrite Hkx, <- E. by apply list_elem_of_fmap_2.
  - apply (H1 (key x')); [by apply list_elem_of_fmap_2|rewrite E, <- Hkx; by left].
Qed.

Lemma filter_bind_none {A B} (f : A -> list B) (P : B -> Prop)
    `{!forall y, Decision (P y)} (l : list A) :
  (forall x y, x ∈ l -> y ∈ f x -> ~ P y) -> filter P (l ≫= f) = [].
Proof.
  intros Hn. apply filter_none, Forall_forall. intros y (x & Hy & Hx)%list_elem_of_bind.
  by apply (Hn x).
Qed.

(** [panic(err)] on an error. *)
Definition or_panic {A} (m : go A) : go A :=
  match m with Err e => Panic (PanicMsg (error_text e)) | r => r end.
