(* ===== verification/Text.v ===== *)
(** * The functions of package strings that the program uses

    Substring search, lower case and joining, with the lemmas that describe
    them by concatenation. Strings are their bytes. *)
From Stdlib Require Import Ascii.
From S2P Require Import Prelude.

(** [cut pre s]: what follows the prefix [pre] of [s]. *)
Fixpoint cut (pre s : string) : option string :=
  match pre, s with
  | EmptyString, _ => Some s
  | String a pre, String b s => if Ascii.eqb a b then cut pre s else None
  | _, EmptyString => None
  end.

(** Whether some suffix of [s] starts with [pat] and goes on with [next]. *)
Fixpoint matches (pat : string) (next : string -> bool) (s : string) : bool :=
  match cut pat s with
  | Some rest => next rest
  | None => false
  end ||
  match s with
  | EmptyString => false
  | String _ s => matches pat next s
  end.

(** [strings.Contains]. *)
Definition contains (pat s : string) : bool := matches pat (fun _ => true) s.

(** [strings.ToLower] on ASCII text; other bytes are kept. *)
Definition ascii_to_lower (a : ascii) : ascii :=
  let n := nat_of_ascii a in
  if (65 <=? n)%nat && (n <=? 90)%nat then ascii_of_nat (n + 32) else a.

Fixpoint strings_ToLower (s : string) : string :=
  match s with
  | EmptyString => EmptyString
  | String a s => String (ascii_to_lower a) (strings_ToLower s)
  end.

(** [strings.Join]. *)
Definition strings_Join (l : list string) (sep : string) : string :=
  match l with
  | [] => ""
  | s :: l => foldl (fun acc s => acc +:+ sep +:+ s) s l
  end.

(** [strings.TrimSpace] on ASCII text. *)
Definition is_space (a : ascii) : bool :=
  let n := nat_of_ascii a in ((9 <=? n)%nat && (n <=? 13)%nat) || (n =? 32)%nat.

Fixpoint trim_left (s : string) : string :=
  match s with
  | String a rest => if is_space a then trim_left rest else s
  | EmptyString => EmptyString
  end.

Fixpoint trim_right (s : string) : string :=
  match s with
  | String a rest =>
      match is_space a, trim_right rest with
      | true, EmptyString => EmptyString
      | _, rest => String a rest
      end
  | EmptyString => EmptyString
  end.

Definition strings_TrimSpace (s : string) : string := trim_right (trim_left s).

(** [strings.Split] at a one-byte separator. *)
Fixpoint strings_Split (s : string) (sep : ascii) : list string :=
  match s with
  | EmptyString => [EmptyString]
  | String a s =>
      if Ascii.eqb a sep then EmptyString :: strings_Split s sep
      else match strings_Split s sep with
           | part :: parts => String a part :: parts
           | [] => [String a EmptyString]
           end
  end.

(** [strconv.Quote] of printable text without quotes. *)
Definition quoted (s : string) : string := String (Ascii.ascii_of_nat 34) (s +:+ String (Ascii.ascii_of_nat 34) "").

(** ** Lemmas *)
Lemma cut_app pre s : cut pre (pre +:+ s) = Some s.
Proof. induction pre as [|a pre IH]; simpl; [by destruct s|]. by rewrite Ascii.eqb_refl. Qed.

Lemma cut_Some pre s rest : cut pre s = Some rest -> s = pre +:+ rest.
Proof.
  revert s. induction pre as [|a pre IH]; intros s; simpl; [by destruct s; intros [= <-]|].
  destruct s as [|b s]; [done|]. destruct (Ascii.eqb_spec a b) as [->|]; [|done].
  by intros ->%IH.
Qed.

Lemma matches_here pat next s rest :
  cut pat s = Some rest -> next rest = true -> matches pat next s = true.
Proof. intros E Hn. destruct s; simpl; by rewrite E, Hn. Qed.

Lemma matches_intro pat next s1 s2 :
  next s2 = true -> matches pat next (s1 +:+ pat +:+ s2) = true.
Proof.
  intros Hn. induction s1 as [|a s1 IH]; simpl.
  - apply (matches_here _ _ _ s2); [exact (cut_app pat s2)|done].
  - rewrite IH. apply orb_true_r.
Qed.

Lemma matches_iff pat next s :
  matches pat next s = true <-> exists s1 s2, s = s1 +:+ pat +:+ s2 /\ next s2 = true.
Proof.
  split; [|intros (s1 & s2 & -> & Hn); by apply matches_intro].
  induction s as [|a s IH]; simpl.
  - destruct (cut pat "") as [rest|] eqn:E; rewrite orb_false_r; [|done].
    intros Hn. exists "", rest. split; [|done]. exact (cut_Some _ _ _ E).
  - intros [Hc|Hs]%orb_true_iff.
    + destruct (cut pat (String a s)) as [rest|] eqn:E; [|done].
      exists "", rest. split; [|done]. exact (cut_Some _ _ _ E).
    + destruct (IH Hs) as (s1 & s2 & -> & Hn). by exists (String a s1), s2.
Qed.

Lemma contains_iff pat s : contains pat s = true <-> exists s1 s2, s = s1 +:+ pat +:+ s2.
Proof.
  unfold contains. rewrite matches_iff. split.
  - intros (s1 & s2 & E & _). by exists s1, s2.
  - intros (s1 & s2 & E). by exists s1, s2.
Qed.

Lemma contains_app pat s1 s2 : contains pat (s1 +:+ pat +:+ s2) = true.
Proof. apply contains_iff. by exists s1, s2. Qed.

Lemma string_app_assoc (s1 s2 s3 : string) : (s1 +:+ s2) +:+ s3 = s1 +:+ s2 +:+ s3.
Proof. induction s1 as [|a s1 IH]; [done|]. exact (f_equal (String _) IH). Qed.

Lemma string_app_nil_r (s : string) : s +:+ "" = s.
Proof. induction s as [|a s IH]; [done|]. exact (f_equal (String a) IH). Qed.

Lemma strings_ToLower_app s1 s2 :
  strings_ToLower (s1 +:+ s2) = strings_ToLower s1 +:+ strings_ToLower s2.
Proof. induction s1 as [|a s1 IH]; [done|]. exact (f_equal (String _) IH). Qed.

(** A text still contains what it contained when something is put around it. *)
Lemma contains_middle pat pre s post :
  contains pat s = true -> contains pat (pre +:+ s +:+ post) = true.
Proof.
  rewrite !contains_iff. intros (s1 & s2 & ->).
  exists (pre +:+ s1), (s2 +:+ post). by rewrite !string_app_assoc.
Qed.
