(* ===== verification/Hex.v ===== *)
(** * encoding/hex

    The decoder and the encoder of hexadecimal text, with the texts that decode
    and the round trip. *)
From S2P Require Import Prelude.
Local Open Scope Z_scope.

Definition hex_digit (a : Ascii.ascii) : option Z :=
  let n := Z.of_nat (Ascii.nat_of_ascii a) in
  if (48 <=? n) && (n <=? 57) then Some (n - 48)
  else if (97 <=? n) && (n <=? 102) then Some (n - 87)
  else if (65 <=? n) && (n <=? 70) then Some (n - 55)
  else None.

(** [hex.DecodeString]: the digits are checked from the left, pairwise; a string
    of odd length is an error even when all its characters are digits. *)
Fixpoint hex_DecodeString (s : string) : go (list Z) :=
  match s with
  | EmptyString => Ok []
  | String a EmptyString =>
      match hex_digit a with
      | None => Err (ErrNew "encoding/hex: invalid byte")
      | Some _ => Err (ErrNew "encoding/hex: odd length hex string")
      end
  | String a (String b s) =>
      match hex_digit a, hex_digit b with
      | Some x, Some y => bs ← hex_DecodeString s; Ok (x * 16 + y :: bs)
      | _, _ => Err (ErrNew "encoding/hex: invalid byte")
      end
  end.

Definition hex_char (d : Z) : Ascii.ascii :=
  Ascii.ascii_of_nat (Z.to_nat (if d <? 10 then 48 + d else 87 + d)).

(** [hex.EncodeToString]: two lower case digits per byte. *)
Fixpoint hex_EncodeToString (bs : list Z) : string :=
  match bs with
  | [] => EmptyString
  | b :: bs => String (hex_char (b / 16)) (String (hex_char (b mod 16)) (hex_EncodeToString bs))
  end.

Definition is_byte (b : Z) : Prop := 0 <= b < 256.

(** The texts that decode. *)
Definition valid_hex (s : string) : Prop :=
  Nat.Even (String.length s) /\
  Forall (fun a => is_Some (hex_digit a)) (chars s).

Lemma hex_DecodeString_valid s : is_ok (hex_DecodeString s) = true <-> valid_hex s.
Proof.
  unfold valid_hex.
  enough (forall n s, (String.length s <= n)%nat ->
    is_ok (hex_DecodeString s) = true <->
    Nat.Even (String.length s) /\ Forall (fun a => is_Some (hex_digit a)) (chars s))
    by eauto.
  clear s. induction n as [|n IH]; intros [|a [|b s]] Hl; simpl in *; try lia.
  - split; [|done]. intros _. split; [by exists 0%nat|constructor].
  - split; [|done]. intros _. split; [by exists 0%nat|constructor].
  - split; [by case_match|]. intros [[k Hk] _]. lia.
  - rewrite !Forall_cons. specialize (IH s ltac:(lia)).
    assert (Nat.Even (S (S (String.length s))) <-> Nat.Even (String.length s)) as ->
      by (split; intros [k Hk]; [exists (k - 1)%nat|exists (k + 1)%nat]; lia).
    destruct (hex_digit a) as [x|], (hex_digit b) as [y|];
      try (split; [done|]; intros (_ & H1 & H2 & _);
           (destruct H1; discriminate) || (destruct H2; discriminate)).
    destruct (hex_DecodeString s); simpl in *; split; intros; naive_solver.
Qed.

Lemma hex_DecodeString_no_panic s p : hex_DecodeString s <> Panic p.
Proof.
  enough (forall n s, (String.length s <= n)%nat -> hex_DecodeString s <> Panic p) by eauto.
  clear s. induction n as [|n IH]; intros [|a [|b s]] Hl; simpl in *; try done || lia.
  - by case_match.
  - pose proof (IH s ltac:(lia)). destruct (hex_digit a), (hex_digit b); try done.
    destruct (hex_DecodeString s); simpl; congruence.
Qed.

Lemma hex_digit_char d : 0 <= d < 16 -> hex_digit (hex_char d) = Some d.
Proof.
  intros Hd. assert (d ∈ seqZ 0 16) as Hin by (apply elem_of_seqZ; lia).
  clear Hd. revert d Hin. apply Forall_forall. vm_compute. repeat constructor.
Qed.

Lemma hex_round_trip bs :
  Forall is_byte bs -> hex_DecodeString (hex_EncodeToString bs) = Ok bs.
Proof.
  induction 1 as [|b bs Hb _ IH]; [done|]. unfold is_byte in Hb. cbn [hex_EncodeToString hex_DecodeString].
  pose proof (Z.mod_pos_bound b 16). pose proof (Z.div_pos b 16).
  pose proof (Z.div_lt_upper_bound b 16 16). rewrite !hex_digit_char by lia.
  rewrite IH. cbn. f_equal. f_equal. pose proof (Z.div_mod b 16). lia.
Qed.

(** Bytes are determined by their text. *)
Lemma hex_EncodeToString_inj bs bs' :
  Forall is_byte bs -> Forall is_byte bs' ->
  hex_EncodeToString bs = hex_EncodeToString bs' -> bs = bs'.
Proof.
  intros H H' E. apply hex_round_trip in H, H'. congruence.
Qed.
