(* ===== verification/Median.v ===== *)
(** * lib/math.go: the generic median, absolute value and minimum

    [Median] is instantiated by the program at [uint64] (prices) and is written
    for the four widths of its constraint; every arithmetic operation of the
    source is written with its wrap-around, and the theorems show that none of
    them overflows. *)
From S2P Require Import Prelude.
Local Open Scope Z_scope.

Ltac Zify.zify_post_hook ::= Z.to_euclidean_division_equations.

(** [sort.Slice(inputCopy, <)]: on integers the sorted permutation is unique, so
    any sorting algorithm is the right one. *)
Definition sort_slice (l : list Z) : list Z := merge_sort Z.le l.

(** The average of the two middle numbers, [x <= y], in the arithmetic of [t]. *)
Definition middle (t : int_ty) (x y : Z) : Z :=
  if (x <=? 0) && (0 <=? y) then
    let sum := wrap t (x + y) in
    wrap t (Z.quot sum 2 + Z.rem sum 2)
  else if 0 <? y then
    wrap t (y - Z.quot (wrap t (y - x)) 2)
  else
    wrap t (x + Z.quot (wrap t (y - x)) 2).

Definition Median (t : int_ty) (input : list Z) : go Z :=
  let l := length input in
  if decide (l = 0%nat) then Err (ErrNew "input cannot be empty")
  else
    let inputCopy := sort_slice input in
    let midIdx := Nat.div l 2 in
    if decide (Nat.modulo l 2 = 1%nat) then index inputCopy midIdx
    else
      x ← index inputCopy (midIdx - 1)%nat;
      y ← index inputCopy midIdx;
      Ok (middle t x y).

Definition AbsInt32 (i : Z) : Z :=
  if i <? 0 then wrap uint32 (wrap int32 (0 - i)) else wrap uint32 i.

Definition Min (x y : Z) : Z := if y <? x then y else x.

(** ** Specification

    Over unbounded integers: the middle element, or the average of the two
    middle elements rounded half away from zero. *)
Definition half_away_from_zero (s : Z) : Z :=
  if s <? 0 then - ((1 - s) / 2) else (s + 1) / 2.

Definition median_of_sorted (l : list Z) : option Z :=
  let n := length l in
  if decide (Nat.modulo n 2 = 1%nat) then l !! Nat.div n 2
  else x ← l !! (Nat.div n 2 - 1)%nat; y ← l !! Nat.div n 2;
       Some (half_away_from_zero (x + y)).

Definition count (P : Z -> bool) (l : list Z) : nat := length (filter P l).

(** ** Lemmas *)
#[export] Instance Zle_total_inst : Total Z.le.
Proof. intros x y. lia. Qed.
#[export] Instance Zle_trans_inst : Transitive Z.le.
Proof. intros x y z. lia. Qed.
#[export] Instance Zle_antisymm_inst : AntiSymm (=) Z.le.
Proof. intros x y. lia. Qed.

Lemma sort_slice_perm l : sort_slice l ≡ₚ l.
Proof. apply merge_sort_Permutation. Qed.

Lemma sort_slice_sorted l : StronglySorted Z.le (sort_slice l).
Proof. apply StronglySorted_merge_sort; apply _. Qed.

Lemma sort_slice_length l : length (sort_slice l) = length l.
Proof. by rewrite sort_slice_perm. Qed.

Lemma sort_slice_proper l l' : l ≡ₚ l' -> sort_slice l = sort_slice l'.
Proof.
  intros E. apply (StronglySorted_unique Z.le).
  - apply sort_slice_sorted.
  - apply sort_slice_sorted.
  - by rewrite !sort_slice_perm.
Qed.


Lemma strongly_sorted_lookup l i j x y :
  StronglySorted Z.le l -> (i <= j)%nat -> l !! i = Some x -> l !! j = Some y -> x <= y.
Proof.
  intros Hs Hij Hi Hj. destruct (decide (i = j)) as [->|Hne].
  - simplify_eq. lia.
  - revert i j x y Hij Hne Hi Hj. induction Hs as [|a l Hs IH Ha]; intros; [done|].
    destruct i as [|i], j as [|j]; simplify_eq/=; try lia.
    + rewrite Forall_forall in Ha. apply Ha. by apply list_elem_of_lookup_2 in Hj.
    + apply (IH i j); lia || done.
Qed.

Lemma middle_spec t x y :
  go_width t -> in_range t x -> in_range t y -> x <= y ->
  middle t x y = half_away_from_zero (x + y).
Proof.
  intros Hw Hx Hy Hxy. unfold middle, half_away_from_zero.
  pose proof (half_width t Hw) as E.
  assert (0 < 2 ^ (bits t - 1)) as Hpos
    by (apply Z.pow_pos_nonneg; unfold go_width in *; lia).
  unfold in_range in *.
  assert (Hmm : min_int t <= 0 /\ -1 <= max_int t + min_int t /\ max_int t + min_int t <= max_int t)
    by (unfold min_int, max_int; destruct (signed t); lia).
  destruct ((x <=? 0) && (0 <=? y)) eqn:C1; [|destruct (0 <? y) eqn:C2].
  - assert (in_range t (x + y)) as R by (unfold in_range; lia).
    rewrite (wrap_small t (x + y)) by done.
    destruct (x + y <? 0) eqn:C3.
    + rewrite wrap_small; [|done|]; unfold in_range;
        pose proof (Z.quot_rem' (x + y) 2);
        pose proof (Z.rem_bound_neg_pos (x + y) 2); lia.
    + rewrite wrap_small; [|done|]; unfold in_range;
        pose proof (Z.quot_rem' (x + y) 2);
        pose proof (Z.rem_bound_pos (x + y) 2); lia.
  - rewrite (wrap_small t (y - x)) by (unfold in_range; lia || done).
    rewrite Z.quot_div_nonneg by lia.
    destruct (x + y <? 0) eqn:C3; [lia|].
    rewrite wrap_small; [lia|done|unfold in_range; lia].
  - rewrite (wrap_small t (y - x)) by (unfold in_range; lia || done).
    rewrite Z.quot_div_nonneg by lia.
    destruct (x + y <? 0) eqn:C3; [|lia].
    rewrite wrap_small; [lia|done|unfold in_range; lia].
Qed.

Lemma half_away_between x y : x <= y -> x <= half_away_from_zero (x + y) <= y.
Proof. unfold half_away_from_zero. destruct (Z.ltb_spec (x + y) 0); lia. Qed.

(** The middle elements of a non-empty list exist and are members of it. *)
Lemma middle_elements (input : list Z) :
  length input <> 0%nat -> Nat.modulo (length input) 2 <> 1%nat ->
  exists x y, sort_slice input !! (Nat.div (length input) 2 - 1)%nat = Some x /\
    sort_slice input !! Nat.div (length input) 2 = Some y /\ x <= y /\
    x ∈ input /\ y ∈ input.
Proof.
  intros Hl Hm.
  destruct (lookup_lt_is_Some_2 (sort_slice input) (Nat.div (length input) 2 - 1)) as [x Hx];
    [rewrite sort_slice_length; lia|].
  destruct (lookup_lt_is_Some_2 (sort_slice input) (Nat.div (length input) 2)) as [y Hy];
    [rewrite sort_slice_length; lia|].
  exists x, y. split_and!; try done.
  - eapply strongly_sorted_lookup; [apply sort_slice_sorted| |done|done]. lia.
  - rewrite <- (sort_slice_perm input). by eapply list_elem_of_lookup_2.
  - rewrite <- (sort_slice_perm input). by eapply list_elem_of_lookup_2.
Qed.

Lemma Median_spec_aux t input :
  go_width t -> Forall (in_range t) input -> input <> [] ->
  exists r, Median t input = Ok r /\ median_of_sorted (sort_slice input) = Some r.
Proof.
  intros Hw Hin Hne. unfold Median, median_of_sorted. rewrite sort_slice_length.
  assert (length input <> 0%nat) as Hl by (destruct input; simpl; congruence).
  rewrite (decide_False _ _ Hl). case_decide as Hm.
  - destruct (index_total (sort_slice input) (Nat.div (length input) 2)) as (x & Hx & Hx').
    { rewrite sort_slice_length. lia. }
    exists x. by rewrite Hx'.
  - destruct (middle_elements input Hl Hm) as (x & y & Hx & Hy & Hxy & Ix & Iy).
    unfold index. rewrite Hx, Hy. simpl. eexists; split; [done|].
    rewrite Forall_forall in Hin. rewrite middle_spec; auto.
Qed.

Lemma Median_perm t l l' : l ≡ₚ l' -> Median t l = Median t l'.
Proof.
  intros E. unfold Median. by rewrite (sort_slice_proper l l' E), (Permutation_length E).
Qed.

#[export] Instance Median_Proper t : Proper ((≡ₚ) ==> (=)) (Median t).
Proof. intros l l' E. by apply Median_perm. Qed.

Lemma Median_Ok_inv t l r : Median t l = Ok r -> l <> [].
Proof. intros H ->. done. Qed.

(** A position in a sorted list bounds the number of elements on either side. *)
Lemma count_le_prefix l i x v :
  StronglySorted Z.le l -> l !! i = Some x -> x <= v ->
  (S i <= count (fun z => Z.leb z v) l)%nat.
Proof.
  intros Hs. revert i. induction Hs as [|a l Hs IH Ha]; intros i Hi Hx; [done|].
  unfold count in *. assert (a <= x).
  { destruct i; simplify_eq/=; [lia|]. rewrite Forall_forall in Ha. apply Ha.
    by eapply list_elem_of_lookup_2. }
  rewrite filter_cons_True by (apply Is_true_true, Z.leb_le; lia). simpl.
  destruct i as [|i]; [lia|]. specialize (IH i Hi Hx). lia.
Qed.

Lemma count_ge_suffix l i y v :
  StronglySorted Z.le l -> l !! i = Some y -> v <= y ->
  (length l - i <= count (fun z => Z.leb v z) l)%nat.
Proof.
  intros Hs. revert i. induction Hs as [|a l Hs IH Ha]; intros i Hi Hv; [done|].
  unfold count in *. destruct i as [|i]; simplify_eq/=.
  - rewrite filter_all; [simpl; lia|]. constructor; [apply Is_true_true, Z.leb_le; lia|].
    eapply Forall_impl; [done|]. intros z Hz. apply Is_true_true, Z.leb_le. simpl in Hz. lia.
  - specialize (IH i Hi Hv). rewrite filter_cons. case_decide; simpl; lia.
Qed.

Lemma count_perm P l l' : l ≡ₚ l' -> count P l = count P l'.
Proof. intros E. unfold count. by rewrite E. Qed.

Lemma median_of_sorted_bounds l r :
  StronglySorted Z.le l -> median_of_sorted l = Some r ->
  exists i j x y, l !! i = Some x /\ l !! j = Some y /\ x <= r <= y /\
    (length l <= 2 * S i)%nat /\ (length l <= 2 * (length l - j))%nat.
Proof.
  intros Hs. unfold median_of_sorted. case_decide as Hm.
  - intros Hr. exists (Nat.div (length l) 2), (Nat.div (length l) 2), r, r.
    split_and!; try done; lia.
  - destruct (l !! (Nat.div (length l) 2 - 1)%nat) as [x|] eqn:Hx; [|done]. simpl.
    destruct (l !! Nat.div (length l) 2) as [y|] eqn:Hy; simpl; [|discriminate]. intros [= <-].
    exists (Nat.div (length l) 2 - 1)%nat, (Nat.div (length l) 2), x, y.
    assert (x <= y) by (refine (strongly_sorted_lookup l _ _ x y Hs _ Hx Hy); lia).
    apply lookup_lt_Some in Hx as Hl.
    split_and!; try done; try apply half_away_between; try lia.
Qed.

(** ** Properties *)

(** C1: on values of its width, [Median] is the middle element of the sorted
    input, or the average of the two middle ones rounded half away from zero:
    none of its three arithmetic branches overflows and no index is out of
    range. *)
Theorem Median_correct (t : int_ty) (input : list Z) :
  go_width t -> Forall (in_range t) input -> input <> [] ->
  exists r, Median t input = Ok r /\ median_of_sorted (sort_slice input) = Some r /\
    in_range t r.
Proof.
  intros Hw Hin Hne. destruct (Median_spec_aux t input Hw Hin Hne) as (r & Hr & Hs).
  exists r. split_and!; [done..|].
  destruct (median_of_sorted_bounds _ _ (sort_slice_sorted input) Hs)
    as (i & j & x & y & Hx & Hy & Hb & _).
  apply list_elem_of_lookup_2 in Hx, Hy. rewrite sort_slice_perm in Hx, Hy.
  rewrite Forall_forall in Hin. apply Hin in Hx, Hy. unfold in_range in *. lia.
Qed.

Lemma Median_correct_witness :
  exists r, Median int32 [-2147483648; -2147483647; 7] = Ok r /\
    median_of_sorted (sort_slice [-2147483648; -2147483647; 7]) = Some r /\
    in_range int32 r.
Proof.
  apply (Median_correct int32); [unfold go_width; simpl; lia| |done].
  repeat constructor; vm_compute; congruence.
Defined.

(** the median is a median: at least half of the input is at most it and
    at least half of the input is at least it; and it does not depend on the
    order of the input (the orders in which caches are iterated). *)
Theorem Median_rank (t : int_ty) (input input' : list Z) (r : Z) :
  go_width t -> Forall (in_range t) input -> input ≡ₚ input' ->
  Median t input = Ok r ->
  Median t input' = Ok r /\
  (length input <= 2 * count (fun z => Z.leb z r) input)%nat /\
  (length input <= 2 * count (fun z => Z.leb r z) input)%nat.
Proof.
  intros Hw Hin Hp Hr.
  destruct (Median_spec_aux t input Hw Hin (Median_Ok_inv _ _ _ Hr)) as (r' & Hr' & Hs).
  assert (r' = r) as -> by congruence. split; [by rewrite <- (Median_perm t _ _ Hp)|].
  destruct (median_of_sorted_bounds _ _ (sort_slice_sorted input) Hs)
    as (i & j & x & y & Hx & Hy & Hb & Hi & Hj).
  rewrite sort_slice_length in Hi, Hj.
  pose proof (count_le_prefix _ i x r (sort_slice_sorted input) Hx (proj1 Hb)) as H1.
  pose proof (count_ge_suffix _ j y r (sort_slice_sorted input) Hy (proj2 Hb)) as H2.
  rewrite sort_slice_length in H2.
  rewrite (count_perm _ _ _ (sort_slice_perm input)) in H1.
  rewrite (count_perm _ _ _ (sort_slice_perm input)) in H2. lia.
Qed.

Lemma Median_rank_witness :
  Median uint64 [5; 1; 9; 2] = Ok 4 /\
  (4 <= 2 * count (fun z => Z.leb z 4) [9; 1; 5; 2]%Z)%nat /\
  (4 <= 2 * count (fun z => Z.leb 4 z) [9; 1; 5; 2]%Z)%nat.
Proof.
  apply (Median_rank uint64 [9; 1; 5; 2] [5; 1; 9; 2]);
    [unfold go_width; simpl; lia | repeat constructor; vm_compute; congruence | | reflexivity].
  apply (bool_decide_unpack _). vm_compute. exact I.
Defined.

(** [AbsInt32] never overflows its unsigned result, not even at the minimum. *)
Lemma AbsInt32_abs i : in_range int32 i -> AbsInt32 i = Z.abs i.
Proof.
  unfold in_range, min_int, max_int, AbsInt32, wrap. simpl. intros.
  destruct (Z.ltb_spec i 0); lia.
Qed.

Lemma Min_min x y : Min x y = Z.min x y.
Proof. unfold Min. destruct (Z.ltb_spec y x); lia. Qed.

(** The only error of [Median] is the empty input, and it never panics. *)
Lemma Median_total t input : input <> [] -> exists r, Median t input = Ok r.
Proof.
  intros Hne. unfold Median.
  assert (length input <> 0%nat) as Hl by (destruct input; simpl; congruence).
  rewrite (decide_False _ _ Hl). case_decide as Hm.
  - destruct (index_total (sort_slice input) (Nat.div (length input) 2)) as (x & Hx & Hx').
    { rewrite sort_slice_length. lia. }
    by exists x.
  - destruct (middle_elements input Hl Hm) as (x & y & Hx & Hy & _).
    unfold index. rewrite Hx, Hy. simpl. by eexists.
Qed.
