(* ===== verification/PriceTimestamp.v ===== *)
(** * pricefeed/types/price_timestamp.go: a price and its last update time

    The cell both price caches are made of, the abstract specification of a
    cell (the latest update of its history) and the lemmas on maps of cells
    that the client cache and the server cache share. *)
From S2P Require Import Prelude.
Local Open Scope Z_scope.

Record PriceTimestamp := mkPriceTimestamp {
  LastUpdateTime : Time;
  Price : Z
}.

#[export] Instance PriceTimestamp_eq_dec : EqDecision PriceTimestamp.
Proof. solve_decision. Defined.

Definition NewPriceTimestamp : PriceTimestamp := mkPriceTimestamp zeroTime 0.

(** [newUpdateTime] is a pointer: calling [After] through nil panics. *)
Definition PriceTimestamp_UpdatePrice (pt : PriceTimestamp) (price : Z)
    (newUpdateTime : option Time) : go (PriceTimestamp * bool) :=
  match newUpdateTime with
  | None => Panic NilDereference
  | Some t =>
      if time_After t (LastUpdateTime pt)
      then Ok (mkPriceTimestamp t price, true)
      else Ok (pt, false)
  end.

Definition PriceTimestamp_GetValidPrice (pt : PriceTimestamp) (cutoffTime : Time)
    : Z * bool :=
  if time_Before (LastUpdateTime pt) cutoffTime then (0, false) else (Price pt, true).

(** ** Specification: the latest update of a history

    A history is the list of (time, price) updates in the order they were
    applied. *)
Definition update := (Time * Z)%type.

Definition latest (h : list update) (pt : PriceTimestamp) : Prop :=
  exists h1 h2,
    (zeroTime, 0) :: h = h1 ++ (LastUpdateTime pt, Price pt) :: h2 /\
    Forall (fun u => u.1 < LastUpdateTime pt) h1 /\
    Forall (fun u => u.1 <= LastUpdateTime pt) h2.

(** The cell after one update, ignoring the returned flag. *)
Definition bump (pt : PriceTimestamp) (u : update) : PriceTimestamp :=
  if time_After u.1 (LastUpdateTime pt) then mkPriceTimestamp u.1 u.2 else pt.

Definition replay (h : list update) : PriceTimestamp := foldl bump NewPriceTimestamp h.

Lemma UpdatePrice_bump pt price t :
  exists b, PriceTimestamp_UpdatePrice pt price (Some t) = Ok (bump pt (t, price), b).
Proof. unfold PriceTimestamp_UpdatePrice, bump. simpl. case_match; eauto. Qed.

Lemma replay_snoc h u : replay (h ++ [u]) = bump (replay h) u.
Proof. unfold replay. by rewrite foldl_app. Qed.

Lemma replay_latest h : latest h (replay h).
Proof.
  induction h as [|u h IH] using rev_ind.
  - exists [], []. split_and!; [done|constructor..].
  - rewrite replay_snoc. destruct IH as (h1 & h2 & E & H1 & H2).
    unfold bump, time_After. destruct (Z.ltb_spec (LastUpdateTime (replay h)) u.1).
    + exists ((zeroTime, 0) :: h), []. simpl. split_and!; [by destruct u| |constructor].
      rewrite E. apply Forall_app; split; [|constructor; simpl; [lia|]];
        (eapply Forall_impl; [eassumption|]); simpl; intros; lia.
    + exists h1, (h2 ++ [u]). split_and!; [|done|].
      * change ((zeroTime, 0) :: h ++ [u]) with (((zeroTime, 0) :: h) ++ [u]).
        by rewrite E, <- app_assoc.
      * apply Forall_app. split; [done|]. constructor; [done|constructor].
Qed.

Lemma latest_unique h pt pt' : latest h pt -> latest h pt' -> pt = pt'.
Proof.
  intros (h1 & h2 & E & H1 & H2) (k1 & k2 & E' & K1 & K2).
  rewrite E in E'. clear E. revert k1 E' K1.
  induction h1 as [|a h1 IH]; intros [|b k1] E' K1; simplify_eq/=.
  - destruct pt, pt'; simplify_eq/=. done.
  - rewrite Forall_app, Forall_cons in H2. inversion K1. simplify_eq/=. lia.
  - inversion H1. rewrite Forall_app, Forall_cons in K2. simplify_eq/=. lia.
  - inversion H1; inversion K1. subst. eapply IH; eauto.
Qed.

(** ** Stores of cells

    Both caches keep their cells in maps and create the missing cell before
    updating it. A store is seen through its lookup function. *)
Section Cells.
Context {K : Type} `{EqDecision K}.

(** The updates of a history that concern key [k]. *)
Definition history_of (k : K) (h : list (K * update)) : list update :=
  (filter (fun ku => ku.1 = k) h).*2.

(** The store holds, for every key that was ever updated, the latest update of
    that key, and nothing for the other keys. *)
Definition holds_latest (h : list (K * update)) (cell : K -> option PriceTimestamp) : Prop :=
  forall k, match cell k with
       | Some pt => history_of k h <> [] /\ latest (history_of k h) pt
       | None => history_of k h = []
       end.

(** [cell'] is [cell] after the update of one key. *)
Definition bumped (cell : K -> option PriceTimestamp) (k : K) (u : update)
    (cell' : K -> option PriceTimestamp) : Prop :=
  cell' k = Some (bump (default NewPriceTimestamp (cell k)) u) /\
  forall k', k' <> k -> cell' k' = cell k'.

Lemma history_of_app k h h' : history_of k (h ++ h') = history_of k h ++ history_of k h'.
Proof. unfold history_of. by rewrite filter_app, fmap_app. Qed.

Lemma history_of_eq k u : history_of k [(k, u)] = [u].
Proof. unfold history_of. by rewrite filter_cons_True. Qed.

Lemma history_of_ne k k' u : k <> k' -> history_of k [(k', u)] = [].
Proof. intros. unfold history_of. by rewrite filter_cons_False. Qed.

Lemma holds_latest_empty : holds_latest [] (fun _ => None).
Proof. done. Qed.

Lemma holds_latest_lookup h cell k pt :
  holds_latest h cell -> cell k = Some pt -> pt = replay (history_of k h).
Proof.
  intros Hm E. specialize (Hm k). rewrite E in Hm.
  eapply latest_unique; [apply Hm|apply replay_latest].
Qed.

Lemma holds_latest_bumped h cell cell' k u :
  holds_latest h cell -> bumped cell k u cell' -> holds_latest (h ++ [(k, u)]) cell'.
Proof.
  intros Hm [Heq Hne] k'. rewrite history_of_app. destruct (decide (k' = k)) as [->|Hk].
  - rewrite Heq, history_of_eq. split; [by destruct (history_of k h)|].
    destruct (cell k) as [pt|] eqn:E; simpl.
    + rewrite (holds_latest_lookup h cell k pt Hm E), <- replay_snoc. apply replay_latest.
    + specialize (Hm k). rewrite E in Hm. rewrite Hm. simpl.
      apply (replay_latest [u]).
  - rewrite Hne, history_of_ne, app_nil_r by done. apply Hm.
Qed.

Lemma holds_latest_unique h cell cell' k :
  holds_latest h cell -> holds_latest h cell' -> cell k = cell' k.
Proof.
  intros Hm Hm'. specialize (Hm k). specialize (Hm' k).
  destruct (cell k), (cell' k); try tauto; try (exfalso; tauto).
  f_equal. destruct Hm, Hm'. by eapply latest_unique.
Qed.

Lemma holds_latest_ext h cell cell' :
  (forall k, cell k = cell' k) -> holds_latest h cell -> holds_latest h cell'.
Proof. intros E Hm k. rewrite <- E. apply Hm. Qed.
End Cells.
