(* ===== verification/MarketConfig.v ===== *)
(** * pricefeed/client/types: market parameters and configurations

    [MarketParam] (a configured market), [MutableMarketConfig] (what is common
    to a market across exchanges), [MarketConfig] and
    [MutableExchangeMarketConfig] (how one exchange resolves its markets) and
    the JSON forms they are decoded from, with their validation, comparison and
    copy. The JSON decoder itself is a parameter of the definitions that use
    it, with no hypothesis. *)
From S2P Require Import Prelude Hex.
Local Open Scope Z_scope.

Notation MarketId := Z (only parsing).
Notation ExchangeId := string (only parsing).
Notation Exponent := Z (only parsing).

Record MarketParam := mkMarketParam {
  Id : MarketId;
  Pair : string;
  mp_Exponent : Exponent;
  MinExchanges : Z;
  MinPriceChangePpm : Z;
  ExchangeConfigJson : string;
  QueryData : string
}.

Record MutableMarketConfig := mkMutableMarketConfig {
  mmc_Id : MarketId;
  mmc_Pair : string;
  mmc_Exponent : Exponent;
  mmc_MinExchanges : Z
}.

(** A nil [AdjustByMarket] is [None]. *)
Record MarketConfig := mkMarketConfig {
  Ticker : string;
  AdjustByMarket : option MarketId;
  Invert : bool
}.

Record MutableExchangeMarketConfig := mkMutableExchangeMarketConfig {
  memc_Id : ExchangeId;
  MarketToMarketConfig : gmap MarketId MarketConfig
}.

Record ExchangeMarketConfigJson := mkExchangeMarketConfigJson {
  ExchangeName : string;
  emcj_Ticker : string;
  emcj_AdjustByMarket : string;
  emcj_Invert : bool
}.

Record ExchangeConfigJsonT := mkExchangeConfigJson {
  Exchanges : list ExchangeMarketConfigJson
}.

#[export] Instance MarketParam_eq_dec : EqDecision MarketParam.
Proof. solve_decision. Defined.
#[export] Instance MutableMarketConfig_eq_dec : EqDecision MutableMarketConfig.
Proof. solve_decision. Defined.
#[export] Instance MarketConfig_eq_dec : EqDecision MarketConfig.
Proof. solve_decision. Defined.
#[export] Instance MutableExchangeMarketConfig_eq_dec : EqDecision MutableExchangeMarketConfig.
Proof. solve_decision. Defined.

Definition MaxPriceChangePpm : Z := 10000.

(** ** Operations *)
Definition IsValidJSON (unmarshal_object : string -> option go_error) (str : string) : go unit :=
  match unmarshal_object str with
  | Some err => Err err
  | None => Ok tt
  end.

Definition MarketParam_Validate (unmarshal_object : string -> option go_error)
    (mp : MarketParam) : go unit :=
  if bool_decide (Pair mp = "") then
    Err (ErrNew "invalid input: Pair cannot be empty")
  else if MinExchanges mp =? 0 then
    Err (ErrNew "min exchanges must be greater than zero")
  else if (MinPriceChangePpm mp =? 0) || (MaxPriceChangePpm <=? MinPriceChangePpm mp) then
    Err (ErrNew "invalid input Min price change in parts-per-million must be greater than 0 and less than 10000")
  else match IsValidJSON unmarshal_object (ExchangeConfigJson mp) with
  | Err err =>
      Err (ErrWrap "invalid input: ExchangeConfigJson string is not valid: err=" err
             (", input=" +:+ ExchangeConfigJson mp))
  | Panic p => Panic p
  | Ok _ =>
      if bool_decide (QueryData mp = "") then
        Err (ErrNew "invalid input: QueryData cannot be empty")
      else match hex_DecodeString (QueryData mp) with
      | Err err => Err (wrapf "invalid input: QueryData is not valid hex" err)
      | Panic p => Panic p
      | Ok _ => Ok tt
      end
  end.

Definition MutableMarketConfig_Copy (mmc : MutableMarketConfig) : MutableMarketConfig :=
  mkMutableMarketConfig (mmc_Id mmc) (mmc_Pair mmc) (mmc_Exponent mmc) (mmc_MinExchanges mmc).

Definition MutableMarketConfig_Validate (mmc : MutableMarketConfig) : go unit :=
  if bool_decide (mmc_Pair mmc = "") then Err (ErrNew "pair cannot be empty")
  else if mmc_MinExchanges mmc =? 0 then Err (ErrNew "min exchanges cannot be 0")
  else Ok tt.

Definition MarketConfig_Equal (mc other : MarketConfig) : bool :=
  bool_decide (Ticker mc = Ticker other) &&
  Bool.eqb (Invert mc) (Invert other) &&
  match AdjustByMarket mc, AdjustByMarket other with
  | None, None => true
  | Some a, Some b => a =? b
  | _, _ => false
  end.

Definition MarketConfig_Copy (mc : MarketConfig) : MarketConfig :=
  let adjustByMarket := match AdjustByMarket mc with Some a => Some a | None => None end in
  mkMarketConfig (Ticker mc) adjustByMarket (Invert mc).

Section Ranging.
Context `{RangeOrder}.

(** [Copy] rebuilds the map entry by entry. *)
Definition MutableExchangeMarketConfig_Copy (memc : MutableExchangeMarketConfig)
    : MutableExchangeMarketConfig :=
  let marketToMarketConfig :=
    foldl (fun m mc => <[mc.1 := MarketConfig_Copy mc.2]> m) ∅
      (range_of (MarketToMarketConfig memc)) in
  mkMutableExchangeMarketConfig (memc_Id memc) marketToMarketConfig.

(** [lib.GetSortedKeys]: the keys in iteration order, then sorted. *)
Definition GetSortedKeys {V} (m : gmap Z V) : list Z := merge_sort Z.le (range_of m).*1.

Definition MutableExchangeMarketConfig_GetMarketIds (memc : MutableExchangeMarketConfig)
    : list MarketId := GetSortedKeys (MarketToMarketConfig memc).

(** The index built at the head of [Validate]: a later config with the same id
    replaces an earlier one. *)
Definition marketToMutableConfig (marketConfigs : list MutableMarketConfig)
    : gmap MarketId MutableMarketConfig :=
  foldl (fun m c => <[mmc_Id c := c]> m) ∅ marketConfigs.

Definition MutableExchangeMarketConfig_Validate (memc : MutableExchangeMarketConfig)
    (marketConfigs : list MutableMarketConfig) : go unit :=
  let m := marketToMutableConfig marketConfigs in
  forM_go (fun '(marketId, config) =>
    match m !! marketId with
    | None => Err (ErrNew ("no market config for market " +:+ pretty marketId +:+
                           " on exchange '" +:+ memc_Id memc +:+ "'"))
    | Some mutableMarketConfig =>
        match MutableMarketConfig_Validate mutableMarketConfig with
        | Err err => Err (wrapf ("invalid market config for market " +:+ pretty marketId +:+
                                   " on exchange '" +:+ memc_Id memc +:+ "'") err)
        | Panic p => Panic p
        | Ok _ =>
            match AdjustByMarket config with
            | Some adjust =>
                match m !! adjust with
                | None => Err (ErrNew ("no market config for adjust-by market " +:+
                    pretty adjust +:+ " used to convert market " +:+ pretty marketId +:+
                    " price on exchange '" +:+ memc_Id memc +:+ "'"))
                | Some _ => Ok tt
                end
            | None => Ok tt
            end
        end
    end) (range_of (MarketToMarketConfig memc)).

Definition MutableExchangeMarketConfig_Equal (memc other : MutableExchangeMarketConfig) : bool :=
  if negb (bool_decide (memc_Id memc = memc_Id other)) then false
  else if negb (bool_decide (size (MarketToMarketConfig memc) =
                             size (MarketToMarketConfig other))) then false
  else
    forallb (fun '(market, config) =>
      match MarketToMarketConfig other !! market with
      | None => false
      | Some otherConfig => MarketConfig_Equal config otherConfig
      end) (range_of (MarketToMarketConfig memc)).
End Ranging.

Definition ExchangeMarketConfigJson_Validate (emcj : ExchangeMarketConfigJson)
    (exchangeIds : list ExchangeId) (marketNames : gmap string MarketId) : go unit :=
  let exchangeNameMap : gset ExchangeId := foldl (fun s n => {[n]} ∪ s) ∅ exchangeIds in
  if bool_decide (ExchangeName emcj = "") then
    Err (ErrNew "exchange name cannot be empty")
  else if negb (bool_decide (ExchangeName emcj ∈ exchangeNameMap)) then
    Err (ErrNew ("exchange name '" +:+ ExchangeName emcj +:+ "' is not valid"))
  else if bool_decide (emcj_Ticker emcj = "") then
    Err (ErrNew "ticker cannot be empty")
  else if negb (bool_decide (emcj_AdjustByMarket emcj = "")) then
    match marketNames !! emcj_AdjustByMarket emcj with
    | None => Err (ErrNew ("adjustment market '" +:+ emcj_AdjustByMarket emcj +:+ "' is not valid"))
    | Some _ => Ok tt
    end
  else Ok tt.

Definition ExchangeConfigJson_Validate (ecj : ExchangeConfigJsonT)
    (exchangeNames : list ExchangeId) (marketNames : gmap string MarketId) : go unit :=
  if bool_decide (length (Exchanges ecj) = 0%nat) then
    Err (ErrNew "exchanges cannot be empty")
  else
    forM_go (fun exchange =>
      match ExchangeMarketConfigJson_Validate exchange exchangeNames marketNames with
      | Err err => Err (wrapf "invalid exchange" err)
      | r => r
      end) (Exchanges ecj).

(** ** Specifications *)

Definition valid_MarketParam (unmarshal_object : string -> option go_error)
    (mp : MarketParam) : Prop :=
  Pair mp <> "" /\ MinExchanges mp <> 0 /\
  MinPriceChangePpm mp <> 0 /\ MinPriceChangePpm mp < MaxPriceChangePpm /\
  unmarshal_object (ExchangeConfigJson mp) = None /\
  QueryData mp <> "" /\ valid_hex (QueryData mp).

Definition valid_MutableMarketConfig (mmc : MutableMarketConfig) : Prop :=
  mmc_Pair mmc <> "" /\ mmc_MinExchanges mmc <> 0.

(** Every market of the exchange is configured and valid, and so is, as far as
    its presence goes, the market its price is adjusted by. *)
Definition valid_exchange_config (memc : MutableExchangeMarketConfig)
    (m : gmap MarketId MutableMarketConfig) : Prop :=
  forall marketId config, MarketToMarketConfig memc !! marketId = Some config ->
    (exists mmc, m !! marketId = Some mmc /\ valid_MutableMarketConfig mmc) /\
    (forall adjust, AdjustByMarket config = Some adjust -> is_Some (m !! adjust)).

Definition valid_ExchangeMarketConfigJson (emcj : ExchangeMarketConfigJson)
    (exchangeIds : list ExchangeId) (marketNames : gmap string MarketId) : Prop :=
  ExchangeName emcj <> "" /\ ExchangeName emcj ∈ exchangeIds /\ emcj_Ticker emcj <> "" /\
  (emcj_AdjustByMarket emcj <> "" -> is_Some (marketNames !! emcj_AdjustByMarket emcj)).

(** ** Lemmas *)
Lemma MarketParam_Validate_Ok unmarshal_object mp :
  MarketParam_Validate unmarshal_object mp = Ok tt <-> valid_MarketParam unmarshal_object mp.
Proof.
  unfold MarketParam_Validate, valid_MarketParam, IsValidJSON.
  pose proof (hex_DecodeString_valid (QueryData mp)) as Hx.
  pose proof (hex_DecodeString_no_panic (QueryData mp)) as Hnp.
  case_bool_decide; [naive_solver|].
  destruct (Z.eqb_spec (MinExchanges mp) 0); [naive_solver|].
  destruct (Z.eqb_spec (MinPriceChangePpm mp) 0); simpl; [naive_solver|].
  destruct (Z.leb_spec MaxPriceChangePpm (MinPriceChangePpm mp)); [naive_solver lia|].
  destruct (unmarshal_object (ExchangeConfigJson mp)); [naive_solver|].
  case_bool_decide; [naive_solver|].
  destruct (hex_DecodeString (QueryData mp)) as [|e|pn]; simpl in *; [|split; [done|]|by destruct (Hnp pn)].
  - split; [|done]. intros _. split_and!; [done..|by apply Hx].
  - intros (_ & _ & _ & _ & _ & _ & Hv). apply Hx in Hv. done.
Qed.

Lemma MutableMarketConfig_Validate_Ok mmc :
  MutableMarketConfig_Validate mmc = Ok tt <-> valid_MutableMarketConfig mmc.
Proof.
  unfold MutableMarketConfig_Validate, valid_MutableMarketConfig.
  case_bool_decide; [naive_solver|]. case_match; split; try naive_solver lia.
Qed.

Lemma MutableMarketConfig_Validate_no_panic mmc p :
  MutableMarketConfig_Validate mmc <> Panic p.
Proof. unfold MutableMarketConfig_Validate. repeat case_match; done. Qed.

Lemma MarketConfig_Equal_eq mc other : MarketConfig_Equal mc other = true <-> mc = other.
Proof.
  destruct mc as [t a i], other as [t' a' i']. unfold MarketConfig_Equal. simpl.
  rewrite !andb_true_iff, bool_decide_eq_true, eqb_true_iff.
  destruct a, a'; rewrite ?Z.eqb_eq; naive_solver.
Qed.

Lemma MarketConfig_Copy_id mc : MarketConfig_Copy mc = mc.
Proof. by destruct mc as [? [] ?]. Qed.

Section RangingLemmas.
Context `{RangeOrder}.

Lemma MutableExchangeMarketConfig_Copy_id memc : MutableExchangeMarketConfig_Copy memc = memc.
Proof.
  assert (forall l (m0 : gmap MarketId MarketConfig), NoDup l.*1 ->
    foldl (fun m mc => <[mc.1 := MarketConfig_Copy mc.2]> m) m0 l = list_to_map l ∪ m0) as Hf.
  { induction l as [|[k v] l IH]; intros m0 Hnd; simpl; [by rewrite (left_id_L ∅ (∪))|].
    inversion Hnd; subst. rewrite IH, MarketConfig_Copy_id by done.
    rewrite <- insert_union_l, insert_union_r; [done|]. by apply not_elem_of_list_to_map_1. }
  destruct memc as [i m]. unfold MutableExchangeMarketConfig_Copy. simpl. f_equal.
  rewrite Hf, (right_id_L ∅ (∪)) by apply range_of_NoDup_keys.
  rewrite <- (list_to_map_to_list m) at 2. apply list_to_map_proper.
  - apply range_of_NoDup_keys.
  - apply range_of_perm.
Qed.

Lemma GetSortedKeys_spec {V} (m : gmap Z V) :
  StronglySorted Z.le (GetSortedKeys m) /\ NoDup (GetSortedKeys m) /\
  forall k, k ∈ GetSortedKeys m <-> is_Some (m !! k).
Proof.
  unfold GetSortedKeys. split_and!.
  - apply StronglySorted_merge_sort; intros x y; lia.
  - rewrite merge_sort_Permutation. apply range_of_NoDup_keys.
  - intros k. rewrite merge_sort_Permutation, list_elem_of_fmap. split.
    + intros ([k' v] & -> & Hin). apply elem_of_range_of in Hin. by exists v.
    + intros [v Hv]. exists (k, v). by rewrite elem_of_range_of.
Qed.

Lemma MutableExchangeMarketConfig_Validate_Ok memc marketConfigs :
  MutableExchangeMarketConfig_Validate memc marketConfigs = Ok tt <->
  valid_exchange_config memc (marketToMutableConfig marketConfigs).
Proof.
  unfold MutableExchangeMarketConfig_Validate, valid_exchange_config.
  rewrite forM_go_Ok, Forall_forall. split.
  - intros Hall marketId config E. apply elem_of_range_of in E. specialize (Hall _ E).
    simpl in Hall. destruct (_ !! marketId) as [mmc|] eqn:Em; [|done].
    destruct (MutableMarketConfig_Validate mmc) as [[]| |] eqn:Ev; try done.
    apply MutableMarketConfig_Validate_Ok in Ev. split; [by exists mmc|].
    intros adjust Ea. rewrite Ea in Hall. by case_match.
  - intros Hv [marketId config] E%elem_of_range_of.
    destruct (Hv _ _ E) as [(mmc & -> & Hmmc) Hadj].
    apply MutableMarketConfig_Validate_Ok in Hmmc. rewrite Hmmc.
    destruct (AdjustByMarket config) as [adjust|]; [|done].
    by destruct (Hadj adjust eq_refl) as [? ->].
Qed.

Lemma MutableExchangeMarketConfig_Validate_no_panic memc marketConfigs p :
  MutableExchangeMarketConfig_Validate memc marketConfigs <> Panic p.
Proof.
  intros Hv. apply forM_go_not_Ok in Hv as ([m c] & _ & Hv); [|done].
  destruct (_ !! m) as [mmc|]; [|done].
  destruct (MutableMarketConfig_Validate mmc) as [| |pn] eqn:E; [|done|].
  - by repeat case_match.
  - by apply MutableMarketConfig_Validate_no_panic in E.
Qed.

Lemma MutableExchangeMarketConfig_Equal_eq memc other :
  MutableExchangeMarketConfig_Equal memc other = true <-> memc = other.
Proof.
  destruct memc as [i m], other as [i' m']. unfold MutableExchangeMarketConfig_Equal. simpl.
  destruct (bool_decide_reflect (i = i')); simpl; [subst i'|naive_solver].
  destruct (bool_decide_reflect (size m = size m')) as [Hs|]; simpl; [|naive_solver].
  rewrite forallb_forall. split.
  - intros Hall. f_equal.
    assert (m ⊆ m') as Hsub.
    { apply map_subseteq_spec. intros k c Hk. apply elem_of_range_of, list_elem_of_In in Hk.
      specialize (Hall _ Hk). simpl in Hall. case_match; [|done].
      apply MarketConfig_Equal_eq in Hall. by subst. }
    apply map_subseteq_size_eq; [done|lia].
  - intros [= ->] [k c] Hk. apply list_elem_of_In, elem_of_range_of in Hk. rewrite Hk.
    by apply MarketConfig_Equal_eq.
Qed.
End RangingLemmas.
