(* ===== verification/ServerCache.v ===== *)
(** * server/types/pricefeed: the server's price cache

    [ExchangeToPrice] (the prices of one market, by exchange) and
    [MarketToExchangePrices] (all markets). The cache is shown to hold the
    latest update of the history of requests, and the medians it serves are
    characterised from that history, whatever order its maps are ranged in.
    Its lock makes each method atomic; a history is the sequence of the calls
    in the order in which they took it. *)
From S2P Require Import Prelude Median PriceTimestamp MarketConfig.
Local Open Scope Z_scope.

(** The gRPC messages: [LastUpdateTime] is a pointer and may be nil. *)
Record ExchangePrice := mkExchangePrice {
  ep_ExchangeId : ExchangeId;
  ep_Price : Z;
  ep_LastUpdateTime : option Time
}.
Record MarketPriceUpdate := mkMarketPriceUpdate {
  mpu_MarketId : MarketId;
  mpu_ExchangePrices : list ExchangePrice
}.

Record ExchangeToPrice := mkExchangeToPrice {
  etp_marketId : MarketId;
  exchangeToPriceTimestamp : gmap ExchangeId PriceTimestamp
}.

Record MarketToExchangePrices := mkMarketToExchangePrices {
  marketToExchangePrices : gmap MarketId ExchangeToPrice;
  maxPriceAge : Duration
}.

Record PriceAggregateSnapshot := mkPriceAggregateSnapshot {
  pas_MarketId : MarketId;
  pas_Price : Z;
  pas_NumSources : nat;
  pas_LatestUpdate : Time
}.

Definition NewExchangeToPrice (marketId : MarketId) : ExchangeToPrice :=
  mkExchangeToPrice marketId ∅.

(** One iteration of [UpdatePrices]. *)
Definition ExchangeToPrice_UpdateOne (etp : ExchangeToPrice) (exchangePrice : ExchangePrice)
    : go ExchangeToPrice :=
  let exchangeId := ep_ExchangeId exchangePrice in
  let priceTimestamp := default NewPriceTimestamp (exchangeToPriceTimestamp etp !! exchangeId) in
  r ← PriceTimestamp_UpdatePrice priceTimestamp (ep_Price exchangePrice)
        (ep_LastUpdateTime exchangePrice);
  Ok (mkExchangeToPrice (etp_marketId etp)
        (<[exchangeId := r.1]> (exchangeToPriceTimestamp etp))).

Definition ExchangeToPrice_UpdatePrices (etp : ExchangeToPrice)
    (updates : list ExchangePrice) : go ExchangeToPrice :=
  foldM_go ExchangeToPrice_UpdateOne etp updates.

Section Reads.
Context `{RangeOrder}.

Definition getValidPricesAndLatestUpdate (etp : ExchangeToPrice) (cutoffTime : Time)
    : list Z * Time :=
  foldl (fun '(prices, latestUpdate) '(_, priceTimestamp) =>
    match PriceTimestamp_GetValidPrice priceTimestamp cutoffTime with
    | (price, true) =>
        (prices ++ [price],
         if time_After (LastUpdateTime priceTimestamp) latestUpdate
         then LastUpdateTime priceTimestamp else latestUpdate)
    | (_, false) => (prices, latestUpdate)
    end) ([], zeroTime) (range_of (exchangeToPriceTimestamp etp)).

Definition GetValidPrices (etp : ExchangeToPrice) (cutoffTime : Time) : list Z :=
  (getValidPricesAndLatestUpdate etp cutoffTime).1.

Definition GetValidPricesAndLatestUpdate (etp : ExchangeToPrice) (cutoffTime : Time)
    : list Z * Time := getValidPricesAndLatestUpdate etp cutoffTime.
End Reads.

Definition NewMarketToExchangePrices (maxPriceAge : Duration) : MarketToExchangePrices :=
  mkMarketToExchangePrices ∅ maxPriceAge.

(** One iteration of [UpdatePrices]: the market's entry is created before its
    prices are updated. *)
Definition MarketToExchangePrices_UpdateOne (mte : MarketToExchangePrices)
    (marketPriceUpdate : MarketPriceUpdate) : go MarketToExchangePrices :=
  let marketId := mpu_MarketId marketPriceUpdate in
  let exchangeToPrices :=
    default (NewExchangeToPrice marketId) (marketToExchangePrices mte !! marketId) in
  etp ← ExchangeToPrice_UpdatePrices exchangeToPrices (mpu_ExchangePrices marketPriceUpdate);
  Ok (mkMarketToExchangePrices (<[marketId := etp]> (marketToExchangePrices mte))
        (maxPriceAge mte)).

Definition MarketToExchangePrices_UpdatePrices (mte : MarketToExchangePrices)
    (updates : list MarketPriceUpdate) : go MarketToExchangePrices :=
  foldM_go MarketToExchangePrices_UpdateOne mte updates.

Section Aggregates.
Context `{RangeOrder}.

Definition GetValidPriceAggregates (mte : MarketToExchangePrices) (marketIds : list MarketId)
    (readTime : Time) : list PriceAggregateSnapshot :=
  let cutoffTime := time_Add readTime (- maxPriceAge mte) in
  foldl (fun snapshots marketId =>
    match marketToExchangePrices mte !! marketId with
    | None => snapshots
    | Some exchangeToPrice =>
        let '(validPrices, latestUpdate) :=
          GetValidPricesAndLatestUpdate exchangeToPrice cutoffTime in
        if bool_decide (length validPrices = 0%nat) then snapshots
        else match Median uint64 validPrices with
        | Ok median => snapshots ++ [mkPriceAggregateSnapshot marketId median
                                       (length validPrices) latestUpdate]
        | _ => snapshots
        end
    end) [] marketIds.

(** The body of the loop of [GetValidMedianPrices]: the median of one market,
    when the market has enough valid prices. *)
Definition validMedianPrice (mte : MarketToExchangePrices) (cutoffTime : Time)
    (marketParam : MarketParam) : option Z :=
  match marketToExchangePrices mte !! Id marketParam with
  | None => None
  | Some exchangeToPrice =>
      let validPrices := GetValidPrices exchangeToPrice cutoffTime in
      if MinExchanges marketParam <=? Z.of_nat (length validPrices) then
        match Median uint64 validPrices with
        | Ok median => Some median
        | _ => None
        end
      else None
  end.

Definition GetValidMedianPrices (mte : MarketToExchangePrices)
    (marketParams : list MarketParam) (readTime : Time) : gmap MarketId Z :=
  let cutoffTime := time_Add readTime (- maxPriceAge mte) in
  foldl (fun marketIdToMedianPrice marketParam =>
    match validMedianPrice mte cutoffTime marketParam with
    | Some median => <[Id marketParam := median]> marketIdToMedianPrice
    | None => marketIdToMedianPrice
    end) ∅ marketParams.
End Aggregates.

(** ** Specification

    The history of a sequence of updates: one entry per (market, exchange)
    price, in order. *)
Notation entry := ((MarketId * ExchangeId) * update)%type (only parsing).

Definition entries_of (mpu : MarketPriceUpdate) : list entry :=
  ep ← mpu_ExchangePrices mpu;
  match ep_LastUpdateTime ep with
  | Some t => [((mpu_MarketId mpu, ep_ExchangeId ep), (t, ep_Price ep))]
  | None => []
  end.

Definition entries (updates : list MarketPriceUpdate) : list entry :=
  updates ≫= entries_of.

Definition well_timed (updates : list MarketPriceUpdate) : Prop :=
  Forall (fun mpu => Forall (fun ep => is_Some (ep_LastUpdateTime ep)) (mpu_ExchangePrices mpu))
    updates.

(** The cell of an exchange's price of a market. *)
Definition cell_of (mte : MarketToExchangePrices) (k : MarketId * ExchangeId)
    : option PriceTimestamp :=
  match marketToExchangePrices mte !! k.1 with
  | Some etp => exchangeToPriceTimestamp etp !! k.2
  | None => None
  end.

(** The prices of a market that a history makes valid at a cutoff: one for each
    exchange ever heard of whose latest update is not before the cutoff. *)
Definition exchanges_heard (h : list entry) (m : MarketId) : list ExchangeId :=
  remove_dups ((filter (fun e => e.1.1 = m) h).*1.*2).

Definition valid_prices (h : list entry) (m : MarketId) (cutoffTime : Time) : list Z :=
  ex ← exchanges_heard h m;
  let pt := replay (history_of (m, ex) h) in
  if bool_decide (cutoffTime <= LastUpdateTime pt) then [Price pt] else [].

(** ** Lemmas: updates *)
Definition set_market (mte : MarketToExchangePrices) (m : MarketId) (etp : ExchangeToPrice)
    : MarketToExchangePrices :=
  mkMarketToExchangePrices (<[m := etp]> (marketToExchangePrices mte)) (maxPriceAge mte).

Lemma cell_of_set_default mte m k :
  cell_of (set_market mte m (default (NewExchangeToPrice m) (marketToExchangePrices mte !! m))) k
  = cell_of mte k.
Proof.
  unfold cell_of, set_market. simpl. destruct k as [m' ex]. simpl.
  destruct (decide (m = m')) as [<-|Hne]; [rewrite lookup_insert_eq|by rewrite lookup_insert_ne].
  destruct (marketToExchangePrices mte !! m); simpl; [done|]. by rewrite lookup_empty.
Qed.

Lemma UpdateOne_bumped mte m etp ep t :
  ep_LastUpdateTime ep = Some t ->
  exists etp', ExchangeToPrice_UpdateOne etp ep = Ok etp' /\
    bumped (cell_of (set_market mte m etp)) (m, ep_ExchangeId ep) (t, ep_Price ep)
           (cell_of (set_market mte m etp')).
Proof.
  intros Ht. unfold ExchangeToPrice_UpdateOne. rewrite Ht.
  destruct (UpdatePrice_bump (default NewPriceTimestamp
    (exchangeToPriceTimestamp etp !! ep_ExchangeId ep)) (ep_Price ep) t) as [b ->].
  eexists; split; [reflexivity|]. unfold bumped, cell_of, set_market. simpl.
  rewrite !lookup_insert_eq. simpl. rewrite lookup_insert_eq. split; [done|].
  intros [m' ex] Hne. simpl. destruct (decide (m = m')) as [<-|Hm].
  - rewrite !lookup_insert_eq. simpl. rewrite lookup_insert_ne; [done|congruence].
  - by rewrite !lookup_insert_ne.
Qed.

Lemma ExchangeToPrice_UpdatePrices_latest mte m etp eps h :
  Forall (fun ep => is_Some (ep_LastUpdateTime ep)) eps ->
  holds_latest h (cell_of (set_market mte m etp)) ->
  exists etp', ExchangeToPrice_UpdatePrices etp eps = Ok etp' /\
    holds_latest (h ++ entries_of (mkMarketPriceUpdate m eps)) (cell_of (set_market mte m etp')).
Proof.
  unfold entries_of. simpl. revert etp h.
  induction eps as [|ep eps IH]; intros etp h Hts Hh; simpl.
  { exists etp. by rewrite app_nil_r. }
  inversion Hts as [|? ? [t Ht] Hts']; subst.
  destruct (UpdateOne_bumped mte m etp ep t Ht) as (etp' & He & Hb).
  destruct (IH etp' (h ++ [((m, ep_ExchangeId ep), (t, ep_Price ep))]) Hts') as (etp'' & He' & Hh').
  { by eapply holds_latest_bumped. }
  exists etp''. unfold ExchangeToPrice_UpdatePrices in *. simpl. rewrite He. simpl.
  rewrite Ht. simpl. by rewrite <- app_assoc in Hh'.
Qed.

Lemma MarketToExchangePrices_UpdatePrices_latest mte updates h :
  well_timed updates -> holds_latest h (cell_of mte) ->
  exists mte', MarketToExchangePrices_UpdatePrices mte updates = Ok mte' /\
    maxPriceAge mte' = maxPriceAge mte /\
    holds_latest (h ++ entries updates) (cell_of mte').
Proof.
  unfold entries. revert mte h. induction updates as [|mpu updates IH]; intros mte h Hts Hh; simpl.
  { exists mte. by rewrite app_nil_r. }
  inversion Hts as [|? ? Ht Hts']; subst. destruct mpu as [m eps]. simpl in Ht.
  destruct (ExchangeToPrice_UpdatePrices_latest mte m
    (default (NewExchangeToPrice m) (marketToExchangePrices mte !! m)) eps h Ht)
    as (etp' & He & Hh').
  { eapply holds_latest_ext; [|done]. intros k. symmetry. apply cell_of_set_default. }
  destruct (IH (set_market mte m etp') _ Hts' Hh') as (mte' & Hm & Hage & Hl).
  assert (MarketToExchangePrices_UpdateOne mte (mkMarketPriceUpdate m eps) =
          Ok (set_market mte m etp')) as E1
    by (unfold MarketToExchangePrices_UpdateOne; simpl; by rewrite He).
  exists mte'. unfold MarketToExchangePrices_UpdatePrices in *. simpl. rewrite E1. simpl.
  split_and!; [done|done|]. by rewrite <- app_assoc in Hl.
Qed.

(** Requests that carry a nil time anywhere make the update panic. *)
Lemma MarketToExchangePrices_UpdatePrices_Ok_inv mte updates mte' :
  MarketToExchangePrices_UpdatePrices mte updates = Ok mte' -> well_timed updates.
Proof.
  unfold MarketToExchangePrices_UpdatePrices, well_timed. revert mte.
  induction updates as [|mpu updates IH]; intros mte; simpl; [constructor|].
  rewrite go_bind_Ok. intros (mte1 & H1 & H2). constructor; [|by eapply IH].
  unfold MarketToExchangePrices_UpdateOne in H1. apply go_bind_Ok in H1 as (etp' & H1 & _).
  revert H1. unfold ExchangeToPrice_UpdatePrices.
  generalize (default (NewExchangeToPrice (mpu_MarketId mpu))
    (marketToExchangePrices mte !! mpu_MarketId mpu)).
  induction (mpu_ExchangePrices mpu) as [|ep eps IHe]; intros etp; simpl; [constructor|].
  rewrite go_bind_Ok. intros (etp1 & He1 & He2). constructor; [|by eapply IHe].
  unfold ExchangeToPrice_UpdateOne, PriceTimestamp_UpdatePrice in He1.
  by destruct (ep_LastUpdateTime ep).
Qed.

(** ** Lemmas: reads *)
Definition valid_at (cutoffTime : Time) (e : ExchangeId * PriceTimestamp) : Prop :=
  cutoffTime <= LastUpdateTime e.2.
#[export] Instance valid_at_dec c e : Decision (valid_at c e).
Proof. unfold valid_at. apply _. Defined.

Definition max_time (l : list Time) : Time := foldl Z.max zeroTime l.

Lemma max_time_spec l : forall t, (max_time l <= t <-> zeroTime <= t /\ Forall (fun u => u <= t) l).
Proof.
  unfold max_time. generalize zeroTime. induction l as [|u l IH]; intros z t; simpl.
  - split; [intros; split; [done|constructor]|naive_solver].
  - rewrite IH, Forall_cons. split; intros; destruct_and?; split_and!; try done; lia.
Qed.

Section ReadLemmas.
Context `{RangeOrder}.

Lemma getValidPricesAndLatestUpdate_filter etp c :
  let valid := filter (valid_at c) (range_of (exchangeToPriceTimestamp etp)) in
  getValidPricesAndLatestUpdate etp c =
    (Price ∘ snd <$> valid, max_time (LastUpdateTime ∘ snd <$> valid)).
Proof.
  unfold getValidPricesAndLatestUpdate, max_time. simpl.
  set (l := range_of _).
  enough (forall ps u, foldl (fun '(prices, latestUpdate) '(_, priceTimestamp) =>
    match PriceTimestamp_GetValidPrice priceTimestamp c with
    | (price, true) => (prices ++ [price],
         if time_After (LastUpdateTime priceTimestamp) latestUpdate
         then LastUpdateTime priceTimestamp else latestUpdate)
    | (_, false) => (prices, latestUpdate)
    end) (ps, u) l =
    (ps ++ (Price ∘ snd <$> filter (valid_at c) l),
     foldl Z.max u (LastUpdateTime ∘ snd <$> filter (valid_at c) l))) as E by apply E.
  induction l as [|[ex pt] l IH]; intros ps u; simpl; [by rewrite app_nil_r|].
  unfold PriceTimestamp_GetValidPrice, time_Before, time_After. simpl.
  destruct (Z.ltb_spec (LastUpdateTime pt) c).
  - rewrite filter_cons_False by (unfold valid_at; simpl; lia). apply IH.
  - rewrite filter_cons_True by (unfold valid_at; simpl; lia).
    rewrite IH. simpl. rewrite <- app_assoc. f_equal. f_equal.
    destruct (Z.ltb_spec u (LastUpdateTime pt)); lia.
Qed.

Lemma GetValidPrices_bind etp c :
  GetValidPrices etp c = range_of (exchangeToPriceTimestamp etp) ≫=
    (fun e => if bool_decide (c <= LastUpdateTime e.2) then [Price e.2] else []).
Proof.
  unfold GetValidPrices. rewrite getValidPricesAndLatestUpdate_filter. simpl.
  induction (range_of _) as [|[ex pt] l IH]; [done|]. simpl.
  destruct (Z.leb_spec c (LastUpdateTime pt)).
  - rewrite filter_cons_True, bool_decide_true by done. simpl. f_equal. apply IH.
  - rewrite filter_cons_False, bool_decide_false by (unfold valid_at; simpl; lia). apply IH.
Qed.

Lemma elem_of_exchanges_heard h m ex :
  ex ∈ exchanges_heard h m <-> history_of (m, ex) h <> [].
Proof.
  unfold exchanges_heard, history_of. rewrite elem_of_remove_dups.
  induction h as [|[[m' ex'] u] h IH]; [set_solver|].
  rewrite !filter_cons. simpl. repeat case_decide; simplify_eq/=; try set_solver.
Qed.

Lemma cells_of_market h mte m etp :
  holds_latest h (cell_of mte) -> marketToExchangePrices mte !! m = Some etp ->
  range_of (exchangeToPriceTimestamp etp) ≡ₚ
    (fun ex => (ex, replay (history_of (m, ex) h))) <$> exchanges_heard h m.
Proof.
  intros Hh Hm. apply NoDup_Permutation.
  - eapply NoDup_fmap_1, range_of_NoDup_keys.
  - apply NoDup_fmap_2_strong; [naive_solver|]. apply NoDup_remove_dups.
  - intros [ex pt]. rewrite elem_of_range_of, list_elem_of_fmap.
    setoid_rewrite elem_of_exchanges_heard.
    assert (exchangeToPriceTimestamp etp !! ex = cell_of mte (m, ex)) as ->
      by (unfold cell_of; simpl; by rewrite Hm).
    split.
    + intros E. exists ex. pose proof (Hh (m, ex)) as Hc. rewrite E in Hc.
      destruct Hc. split; [|done]. by rewrite (holds_latest_lookup _ _ _ _ Hh E).
    + intros (ex' & [= <- ->] & Hne). specialize (Hh (m, ex)) as Hc.
      destruct (cell_of mte (m, ex)) as [pt|] eqn:E; [|done].
      by rewrite (holds_latest_lookup _ _ _ _ Hh E).
Qed.

Lemma GetValidPrices_perm h mte m etp c :
  holds_latest h (cell_of mte) -> marketToExchangePrices mte !! m = Some etp ->
  GetValidPrices etp c ≡ₚ valid_prices h m c.
Proof.
  intros Hh Hm. rewrite GetValidPrices_bind, (cells_of_market h mte m etp Hh Hm).
  unfold valid_prices. by rewrite list_fmap_bind.
Qed.

Lemma valid_prices_absent h mte m c :
  holds_latest h (cell_of mte) -> marketToExchangePrices mte !! m = None ->
  valid_prices h m c = [].
Proof.
  intros Hh Hm. unfold valid_prices. destruct (exchanges_heard h m) as [|ex l] eqn:E; [done|].
  assert (ex ∈ exchanges_heard h m) as Hex by (rewrite E; set_solver).
  apply elem_of_exchanges_heard in Hex. specialize (Hh (m, ex)).
  unfold cell_of in Hh. simpl in Hh. by rewrite Hm in Hh.
Qed.

Lemma validMedianPrice_spec h mte c mp :
  holds_latest h (cell_of mte) ->
  forall p, validMedianPrice mte c mp = Some p <->
    MinExchanges mp <= Z.of_nat (length (valid_prices h (Id mp) c)) /\
    Median uint64 (valid_prices h (Id mp) c) = Ok p.
Proof.
  intros Hh p. unfold validMedianPrice.
  destruct (marketToExchangePrices mte !! Id mp) as [etp|] eqn:Hm.
  - rewrite (Permutation_length (GetValidPrices_perm h mte _ etp c Hh Hm)).
    rewrite (Median_perm uint64 _ _ (GetValidPrices_perm h mte _ etp c Hh Hm)).
    destruct (Z.leb_spec (MinExchanges mp) (Z.of_nat (length (valid_prices h (Id mp) c))));
      [|split; [done|lia]].
    destruct (Median uint64 _); naive_solver.
  - rewrite (valid_prices_absent h mte _ c Hh Hm). simpl. naive_solver.
Qed.

Lemma GetValidMedianPrices_lookup mte params t m p :
  (forall mp mp', mp ∈ params -> mp' ∈ params -> Id mp = Id mp' ->
    forall p p', validMedianPrice mte (time_Add t (- maxPriceAge mte)) mp = Some p ->
    validMedianPrice mte (time_Add t (- maxPriceAge mte)) mp' = Some p' -> p = p') ->
  GetValidMedianPrices mte params t !! m = Some p <->
  exists mp, mp ∈ params /\ Id mp = m /\
    validMedianPrice mte (time_Add t (- maxPriceAge mte)) mp = Some p.
Proof.
  unfold GetValidMedianPrices. set (f := validMedianPrice _ _).
  induction params as [|mp params IH] using rev_ind; intros Hf.
  { simpl. rewrite lookup_empty. set_solver. }
  rewrite foldl_app. simpl.
  assert (forall mp mp', mp ∈ params -> mp' ∈ params -> Id mp = Id mp' ->
    forall p p', f mp = Some p -> f mp' = Some p' -> p = p') as Hf'
    by (intros; eapply (Hf mp0 mp'); set_solver).
  destruct (f mp) as [q|] eqn:Eq.
  - destruct (decide (m = Id mp)) as [->|Hne].
    + rewrite lookup_insert_eq. split.
      * intros [= <-]. exists mp. set_solver.
      * intros (mp' & Hin & Hid & Hp). f_equal. eapply (Hf mp mp'); set_solver.
    + rewrite lookup_insert_ne by done. rewrite IH by done. set_solver.
  - rewrite IH by done. split; [set_solver|]. intros (mp' & Hin & Hid & Hp).
    exists mp'. apply elem_of_app in Hin as [Hin|Hin]; [set_solver|].
    apply list_elem_of_singleton in Hin as ->. congruence.
Qed.
End ReadLemmas.

(** ** Reachable caches *)
Section Reachable.
Context `{RangeOrder}.

(** The cache after a sequence of requests. *)
Definition serve (age : Duration) (reqs : list (list MarketPriceUpdate))
    : go MarketToExchangePrices :=
  foldM_go MarketToExchangePrices_UpdatePrices (NewMarketToExchangePrices age) reqs.

Lemma serve_Ok age reqs mte :
  serve age reqs = Ok mte ->
  Forall well_timed reqs /\ maxPriceAge mte = age /\
  holds_latest (entries (concat reqs)) (cell_of mte).
Proof.
  unfold serve. revert mte. induction reqs as [|r reqs IH] using rev_ind; intros mte; simpl.
  - intros [= <-]. split_and!; [constructor|done|].
    eapply holds_latest_ext; [|apply holds_latest_empty].
    intros [m ex]. unfold cell_of. simpl. by rewrite lookup_empty.
  - rewrite foldM_go_app, go_bind_Ok. intros (mte1 & H1 & H2). simpl in H2.
    apply go_bind_Ok in H2 as (mte2 & H2 & [= <-]).
    destruct (IH mte1 H1) as (Hts & Hage & Hl).
    apply MarketToExchangePrices_UpdatePrices_Ok_inv in H2 as Hr.
    destruct (MarketToExchangePrices_UpdatePrices_latest mte1 r _ Hr Hl) as (mte' & H2' & Ha & Hl').
    assert (mte' = mte2) as -> by congruence. split_and!; [|congruence|].
    + apply Forall_app; split; [done|]. by constructor.
    + rewrite concat_app. simpl. rewrite app_nil_r. unfold entries in *.
      by rewrite bind_app.
Qed.

Lemma serve_total age reqs :
  Forall well_timed reqs -> exists mte, serve age reqs = Ok mte.
Proof.
  unfold serve. induction reqs as [|r reqs IH] using rev_ind; [by eexists|].
  rewrite Forall_app. intros [Hreqs Hr]. destruct (IH Hreqs) as [mte Hm].
  rewrite foldM_go_app, Hm. simpl.
  destruct (serve_Ok _ _ _ Hm) as (_ & _ & Hl). inversion Hr; subst.
  destruct (MarketToExchangePrices_UpdatePrices_latest mte r _ ltac:(done) Hl) as (mte' & -> & _).
  by exists mte'.
Qed.

Lemma GetValidPriceAggregates_elem mte ids t s :
  s ∈ GetValidPriceAggregates mte ids t ->
  exists etp, pas_MarketId s ∈ ids /\ marketToExchangePrices mte !! pas_MarketId s = Some etp /\
    let r := GetValidPricesAndLatestUpdate etp (time_Add t (- maxPriceAge mte)) in
    Median uint64 r.1 = Ok (pas_Price s) /\ pas_NumSources s = length r.1 /\
    pas_LatestUpdate s = r.2.
Proof.
  unfold GetValidPriceAggregates. set (c := time_Add _ _).
  induction ids as [|m ids IH] using rev_ind; [set_solver|].
  rewrite foldl_app. simpl. destruct (marketToExchangePrices mte !! m) as [etp|] eqn:Em.
  2:{ intros Hs. destruct (IH Hs) as (etp & Hin & He & Hr). exists etp. set_solver. }
  destruct (GetValidPricesAndLatestUpdate etp c) as [ps u] eqn:Ev.
  destruct (bool_decide_reflect (length ps = 0%nat)).
  { intros Hs. destruct (IH Hs) as (etp' & Hin & He & Hr). exists etp'. set_solver. }
  destruct (Median uint64 ps) as [p| |] eqn:Emed;
    [|intros Hs; destruct (IH Hs) as (etp' & Hin & He & Hr); exists etp'; set_solver..].
  rewrite elem_of_app. intros [Hs| ->%list_elem_of_singleton].
  - destruct (IH Hs) as (etp' & Hin & He & Hr). exists etp'. set_solver.
  - exists etp. simpl. rewrite Ev. simpl. split_and!; [set_solver|done..].
Qed.

(** ** Properties *)

(** C2: the cache implements its specification: after any sequence of
    [UpdatePrices] requests without nil times, no call panics, and the cell of
    every (market, exchange) ever updated holds the latest update of its
    history (the first of those with the greatest time after the zero time,
    else the zero cell); no other cell exists. *)
Theorem server_cache_holds_latest (age : Duration) (reqs : list (list MarketPriceUpdate)) :
  Forall well_timed reqs ->
  exists mte, serve age reqs = Ok mte /\ maxPriceAge mte = age /\
    forall k, match cell_of mte k with
         | Some pt => history_of k (entries (concat reqs)) <> [] /\
                      latest (history_of k (entries (concat reqs))) pt
         | None => history_of k (entries (concat reqs)) = []
         end.
Proof.
  intros Hr. destruct (serve_total age reqs Hr) as [mte Hm]. exists mte.
  destruct (serve_Ok _ _ _ Hm) as (_ & Hage & Hl). split_and!; [done|done|]. apply Hl.
Qed.

(** C3: the medians served. After any sequence of requests, a market of the
    given parameters has median [p] in [GetValidMedianPrices] exactly when its
    exchanges whose latest update is within [age] of the read time number at
    least [MinExchanges] and have median [p]; stale, missing and too few prices
    give no entry. The result does not depend on the order maps are ranged in. *)
Theorem GetValidMedianPrices_correct (age : Duration) (reqs : list (list MarketPriceUpdate))
    (mte : MarketToExchangePrices) (params : list MarketParam) (readTime : Time)
    (m : MarketId) (p : Z) :
  serve age reqs = Ok mte ->
  GetValidMedianPrices mte params readTime !! m = Some p <->
  exists mp, mp ∈ params /\ Id mp = m /\
    let prices := valid_prices (entries (concat reqs)) m (readTime - age) in
    MinExchanges mp <= Z.of_nat (length prices) /\ Median uint64 prices = Ok p.
Proof.
  intros Hs. destruct (serve_Ok _ _ _ Hs) as (_ & Hage & Hl).
  rewrite GetValidMedianPrices_lookup.
  - setoid_rewrite (validMedianPrice_spec _ _ _ _ Hl). rewrite Hage.
    unfold time_Add. naive_solver.
  - intros mp mp' _ _ Hid q q'. rewrite !(validMedianPrice_spec _ _ _ _ Hl), Hid.
    intros [_ Hq] [_ Hq']. congruence.
Qed.

(** every logged aggregate is the median of the valid prices of its
    market, with the number of its sources (at least one) and the time of the
    most recent of them. *)
Theorem GetValidPriceAggregates_correct (age : Duration) (reqs : list (list MarketPriceUpdate))
    (mte : MarketToExchangePrices) (ids : list MarketId) (readTime : Time)
    (s : PriceAggregateSnapshot) :
  serve age reqs = Ok mte -> s ∈ GetValidPriceAggregates mte ids readTime ->
  let prices := valid_prices (entries (concat reqs)) (pas_MarketId s) (readTime - age) in
  pas_MarketId s ∈ ids /\ Median uint64 prices = Ok (pas_Price s) /\
  pas_NumSources s = length prices /\ (0 < pas_NumSources s)%nat /\
  exists etp, marketToExchangePrices mte !! pas_MarketId s = Some etp /\
    pas_LatestUpdate s = max_time (LastUpdateTime ∘ snd <$>
      filter (valid_at (readTime - age)) (range_of (exchangeToPriceTimestamp etp))).
Proof.
  intros Hs Hin. destruct (serve_Ok _ _ _ Hs) as (_ & Hage & Hl).
  destruct (GetValidPriceAggregates_elem _ _ _ _ Hin) as (etp & Hid & Em & Hmed & Hn & Hu).
  pose proof (GetValidPrices_perm _ _ _ _ (time_Add readTime (- maxPriceAge mte)) Hl Em) as Hp.
  unfold GetValidPrices, GetValidPricesAndLatestUpdate in *.
  rewrite Hage in *. change (readTime - age) with (time_Add readTime (- age)).
  rewrite (Median_perm _ _ _ Hp) in Hmed. rewrite (Permutation_length Hp) in Hn.
  split_and!; [done..| |].
  - apply Median_Ok_inv in Hmed. rewrite Hn. destruct (valid_prices _ _ _); [done|simpl; lia].
  - exists etp. split; [done|]. rewrite Hu.
    by rewrite getValidPricesAndLatestUpdate_filter.
Qed.
End Reachable.

Definition example_requests : list (list MarketPriceUpdate) :=
  [ [mkMarketPriceUpdate 1 [mkExchangePrice "Binance" 100 (Some 50);
                            mkExchangePrice "Kraken" 110 (Some 40)]];
    [mkMarketPriceUpdate 1 [mkExchangePrice "Binance" 7 (Some 45);
                            mkExchangePrice "Gate" 5 (Some 1)];
     mkMarketPriceUpdate 2 [mkExchangePrice "Gate" 9 (Some 60)]] ].
Definition example_params : list MarketParam :=
  [mkMarketParam 1 "A-USD" (-5) 2 1 "{}" "00"; mkMarketParam 2 "B-USD" (-5) 2 1 "{}" "00"].
Definition example_cache : MarketToExchangePrices :=
  match serve 30 example_requests with Ok m => m | _ => NewMarketToExchangePrices 0 end.

Lemma server_cache_holds_latest_witness :
  exists mte, serve 30 example_requests = Ok mte /\ maxPriceAge mte = 30 /\
    forall k, match cell_of mte k with
         | Some pt => history_of k (entries (concat example_requests)) <> [] /\
                      latest (history_of k (entries (concat example_requests))) pt
         | None => history_of k (entries (concat example_requests)) = []
         end.
Proof. apply server_cache_holds_latest. repeat constructor; by eexists. Defined.

Lemma GetValidMedianPrices_correct_witness :
  exists mp, mp ∈ example_params /\ Id mp = 1 /\
    let prices := valid_prices (entries (concat example_requests)) 1 (60 - 30) in
    MinExchanges mp <= Z.of_nat (length prices) /\ Median uint64 prices = Ok 105.
Proof.
  apply (GetValidMedianPrices_correct 30 example_requests example_cache example_params 60 1 105);
    reflexivity.
Defined.

Lemma GetValidPriceAggregates_correct_witness :
  let prices := valid_prices (entries (concat example_requests)) 1 (60 - 30) in
  1 ∈ [1; 2] /\ Median uint64 prices = Ok 105 /\ 2%nat = length prices /\ (0 < 2)%nat /\
  exists etp, marketToExchangePrices example_cache !! 1 = Some etp /\
    50 = max_time (LastUpdateTime ∘ snd <$>
      filter (valid_at (60 - 30)) (range_of (exchangeToPriceTimestamp etp))).
Proof.
  apply (GetValidPriceAggregates_correct 30 example_requests example_cache [1; 2] 60
           (mkPriceAggregateSnapshot 1 105 2 50)); [reflexivity|].
  vm_compute. by left.
Defined.
