(* ===== verification/ClientCache.v ===== *)
(** * pricefeed/client/types: the daemon's own price cache

    [MarketToPrice] (one exchange) and [ExchangeToMarketPricesImpl] (a fixed
    set of exchanges), which the price encoders fill and read index prices
    from. The encoder uses the Go interface [ExchangeToMarketPrices]: here it is
    a class of operations with the laws the encoder relies on, and the
    implementation below discharges them. *)
From S2P Require Import Prelude Median PriceTimestamp MarketConfig.
Local Open Scope Z_scope.

Record MarketPriceTimestamp := mkMarketPriceTimestamp {
  mpt_MarketId : MarketId;
  mpt_Price : Z;
  mpt_LastUpdatedAt : Time
}.
#[export] Instance MarketPriceTimestamp_eq_dec : EqDecision MarketPriceTimestamp.
Proof. solve_decision. Defined.

(** pricefeed/types/resolver.go *)
Definition Resolver := list Z -> go Z.

Record MarketToPrice := mkMarketToPrice {
  MarketToPriceTimestamp : gmap MarketId PriceTimestamp
}.

Definition NewMarketToPrice : MarketToPrice := mkMarketToPrice ∅.

Definition MarketToPrice_UpdatePrice (mtp : MarketToPrice) (mpt : MarketPriceTimestamp)
    : go MarketToPrice :=
  let marketId := mpt_MarketId mpt in
  let priceTimestamp := default NewPriceTimestamp (MarketToPriceTimestamp mtp !! marketId) in
  r ← PriceTimestamp_UpdatePrice priceTimestamp (mpt_Price mpt) (Some (mpt_LastUpdatedAt mpt));
  Ok (mkMarketToPrice (<[marketId := r.1]> (MarketToPriceTimestamp mtp))).

Definition MarketToPrice_GetValidPriceForMarket (mtp : MarketToPrice) (marketId : MarketId)
    (cutoffTime : Time) : Z * bool :=
  match MarketToPriceTimestamp mtp !! marketId with
  | None => (0, false)
  | Some price => PriceTimestamp_GetValidPrice price cutoffTime
  end.

(** The map of exchanges is written at creation only. *)
Record ExchangeToMarketPricesImpl := mkExchangeToMarketPrices {
  ExchangeMarketPrices : gmap ExchangeId MarketToPrice
}.

Definition NewExchangeToMarketPrices (exchangeIds : list ExchangeId)
    : go ExchangeToMarketPricesImpl :=
  if bool_decide (length exchangeIds = 0%nat) then
    Err (ErrNew "exchangeIds must not be empty")
  else
    m ← foldM_go (fun (m : gmap ExchangeId MarketToPrice) exchangeId =>
          match m !! exchangeId with
          | Some _ => Err (ErrNew ("exchangeId: '" +:+ exchangeId +:+ "' appears twice in request"))
          | None => Ok (<[exchangeId := NewMarketToPrice]> m)
          end) ∅ exchangeIds;
    Ok (mkExchangeToMarketPrices m).

(** An unknown exchange reads a nil [*MarketToPrice], whose lock panics. *)
Definition ExchangeToMarketPrices_UpdatePrice (etmp : ExchangeToMarketPricesImpl)
    (exchangeId : ExchangeId) (mpt : MarketPriceTimestamp) : go ExchangeToMarketPricesImpl :=
  match ExchangeMarketPrices etmp !! exchangeId with
  | None => Panic NilDereference
  | Some mtp =>
      mtp' ← MarketToPrice_UpdatePrice mtp mpt;
      Ok (mkExchangeToMarketPrices (<[exchangeId := mtp']> (ExchangeMarketPrices etmp)))
  end.

Section Reads.
Context `{RangeOrder}.

Definition MarketToPrice_GetAllPrices (mtp : MarketToPrice) : list MarketPriceTimestamp :=
  foldl (fun marketPricesForExchange '(marketId, priceTimestamp) =>
    marketPricesForExchange ++
      [mkMarketPriceTimestamp marketId (Price priceTimestamp) (LastUpdateTime priceTimestamp)])
    [] (range_of (MarketToPriceTimestamp mtp)).

Definition ExchangeToMarketPrices_GetAllPrices (etmp : ExchangeToMarketPricesImpl)
    : gmap ExchangeId (list MarketPriceTimestamp) :=
  foldl (fun exchangeIdToPrices '(exchangeId, mtp) =>
    <[exchangeId := MarketToPrice_GetAllPrices mtp]> exchangeIdToPrices)
    ∅ (range_of (ExchangeMarketPrices etmp)).

(** The first half of [GetIndexPrice]: the valid prices over the exchanges. *)
Definition indexPrices (etmp : ExchangeToMarketPricesImpl) (marketId : MarketId)
    (cutoffTime : Time) : list Z :=
  foldl (fun prices '(_, mtp) =>
    match MarketToPrice_GetValidPriceForMarket mtp marketId cutoffTime with
    | (price, true) => prices ++ [price]
    | (_, false) => prices
    end) [] (range_of (ExchangeMarketPrices etmp)).

Definition ExchangeToMarketPrices_GetIndexPrice (etmp : ExchangeToMarketPricesImpl)
    (marketId : MarketId) (cutoffTime : Time) (resolver : Resolver) : go (Z * nat) :=
  let prices := indexPrices etmp marketId cutoffTime in
  if bool_decide (length prices = 0%nat) then Ok (0, 0%nat)
  else match resolver prices with
  | Ok median => Ok (median, length prices)
  | Err _ => Ok (0, 0%nat)
  | Panic p => Panic p
  end.
End Reads.

(** ** The interface the encoder relies on

    [etm_cell] is the abstract state; the laws say how [UpdatePrice] changes
    it and that an index price is the resolver's value on the valid cells of
    the market, in some order. *)
Definition valid_cell (cutoffTime : Time) (pt : PriceTimestamp) : bool :=
  cutoffTime <=? LastUpdateTime pt.

Class ExchangeToMarketPrices (S : Type) := {
  etm_exchanges : S -> list ExchangeId;
  etm_cell : S -> ExchangeId * MarketId -> option PriceTimestamp;
  etm_UpdatePrice : S -> ExchangeId -> MarketPriceTimestamp -> go S;
  etm_GetIndexPrice : S -> MarketId -> Time -> Resolver -> go (Z * nat);

  etm_exchanges_NoDup : forall s, NoDup (etm_exchanges s);
  etm_UpdatePrice_known : forall s ex mpt, ex ∈ etm_exchanges s ->
    exists s', etm_UpdatePrice s ex mpt = Ok s' /\ etm_exchanges s' ≡ₚ etm_exchanges s /\
      bumped (etm_cell s) (ex, mpt_MarketId mpt) (mpt_LastUpdatedAt mpt, mpt_Price mpt)
             (etm_cell s');
  etm_UpdatePrice_unknown : forall s ex mpt, ex ∉ etm_exchanges s ->
    etm_UpdatePrice s ex mpt = Panic NilDereference;
  etm_GetIndexPrice_spec : forall s m c resolver,
    exists prices,
      prices ≡ₚ (ex ← etm_exchanges s;
                 match etm_cell s (ex, m) with
                 | Some pt => if valid_cell c pt then [Price pt] else []
                 | None => []
                 end) /\
      etm_GetIndexPrice s m c resolver =
        match prices with
        | [] => Ok (0, 0%nat)
        | _ => match resolver prices with
               | Ok median => Ok (median, length prices)
               | Err _ => Ok (0, 0%nat)
               | Panic p => Panic p
               end
        end
}.

(** ** Lemmas *)
Definition impl_exchanges `{RangeOrder} (etmp : ExchangeToMarketPricesImpl) : list ExchangeId :=
  (range_of (ExchangeMarketPrices etmp)).*1.

Definition impl_cell (etmp : ExchangeToMarketPricesImpl) (k : ExchangeId * MarketId)
    : option PriceTimestamp :=
  mtp ← ExchangeMarketPrices etmp !! k.1; MarketToPriceTimestamp mtp !! k.2.

Section ImplLemmas.
Context `{RangeOrder}.

Lemma elem_of_impl_exchanges etmp ex :
  ex ∈ impl_exchanges etmp <-> is_Some (ExchangeMarketPrices etmp !! ex).
Proof.
  unfold impl_exchanges. rewrite list_elem_of_fmap. split.
  - intros ([ex' mtp] & -> & Hin%elem_of_range_of). by eexists.
  - intros [mtp Hm]. exists (ex, mtp). by rewrite elem_of_range_of.
Qed.

Lemma impl_exchanges_NoDup etmp : NoDup (impl_exchanges etmp).
Proof. apply range_of_NoDup_keys. Qed.

Lemma MarketToPrice_UpdatePrice_Ok mtp mpt :
  MarketToPrice_UpdatePrice mtp mpt =
    Ok (mkMarketToPrice (<[mpt_MarketId mpt :=
      bump (default NewPriceTimestamp (MarketToPriceTimestamp mtp !! mpt_MarketId mpt))
           (mpt_LastUpdatedAt mpt, mpt_Price mpt)]> (MarketToPriceTimestamp mtp))).
Proof.
  unfold MarketToPrice_UpdatePrice.
  by destruct (UpdatePrice_bump (default NewPriceTimestamp
    (MarketToPriceTimestamp mtp !! mpt_MarketId mpt)) (mpt_Price mpt) (mpt_LastUpdatedAt mpt))
    as [b ->].
Qed.

Lemma impl_UpdatePrice_known etmp ex mpt :
  ex ∈ impl_exchanges etmp ->
  exists etmp', ExchangeToMarketPrices_UpdatePrice etmp ex mpt = Ok etmp' /\
    impl_exchanges etmp' ≡ₚ impl_exchanges etmp /\
    bumped (impl_cell etmp) (ex, mpt_MarketId mpt) (mpt_LastUpdatedAt mpt, mpt_Price mpt)
           (impl_cell etmp').
Proof.
  intros [mtp Hm]%elem_of_impl_exchanges. unfold ExchangeToMarketPrices_UpdatePrice.
  rewrite Hm, MarketToPrice_UpdatePrice_Ok. simpl. eexists; split; [done|]. split.
  - apply NoDup_Permutation; [apply impl_exchanges_NoDup..|]. intros ex'.
    rewrite !elem_of_impl_exchanges. simpl. rewrite lookup_insert_is_Some'.
    naive_solver.
  - unfold bumped, impl_cell. simpl. rewrite lookup_insert_eq, Hm. simpl.
    rewrite lookup_insert_eq. split; [done|]. intros [ex' m'] Hne. simpl.
    destruct (decide (ex = ex')) as [<-|Hex].
    + rewrite lookup_insert_eq, Hm. simpl. rewrite lookup_insert_ne; [done|congruence].
    + by rewrite lookup_insert_ne.
Qed.

Lemma impl_UpdatePrice_unknown etmp ex mpt :
  ex ∉ impl_exchanges etmp ->
  ExchangeToMarketPrices_UpdatePrice etmp ex mpt = Panic NilDereference.
Proof.
  rewrite elem_of_impl_exchanges. intros Hn. unfold ExchangeToMarketPrices_UpdatePrice.
  destruct (_ !! ex); [|done]. by destruct Hn.
Qed.

Lemma indexPrices_bind etmp m c :
  indexPrices etmp m c =
    ex ← impl_exchanges etmp;
    match impl_cell etmp (ex, m) with
    | Some pt => if valid_cell c pt then [Price pt] else []
    | None => []
    end.
Proof.
  unfold indexPrices, impl_exchanges.
  assert (forall e, e ∈ range_of (ExchangeMarketPrices etmp) ->
    ExchangeMarketPrices etmp !! e.1 = Some e.2) as Hl
    by (intros [ex mtp]; apply elem_of_range_of).
  revert Hl. generalize (range_of (ExchangeMarketPrices etmp)). intros l.
  enough (forall ps, (forall e, e ∈ l -> ExchangeMarketPrices etmp !! e.1 = Some e.2) ->
    foldl (fun prices '(_, mtp) =>
      match MarketToPrice_GetValidPriceForMarket mtp m c with
      | (price, true) => prices ++ [price]
      | (_, false) => prices
      end) ps l = ps ++ (l.*1 ≫= fun ex =>
        match impl_cell etmp (ex, m) with
        | Some pt => if valid_cell c pt then [Price pt] else []
        | None => []
        end)) as E by apply E.
  induction l as [|[ex mtp] l IH]; intros ps Hl; simpl; [by rewrite app_nil_r|].
  rewrite IH by set_solver.
  pose proof (Hl (ex, mtp) ltac:(set_solver)) as Hex. simpl in Hex.
  unfold impl_cell, MarketToPrice_GetValidPriceForMarket, PriceTimestamp_GetValidPrice,
    valid_cell, time_Before. simpl. rewrite Hex. simpl.
  destruct (MarketToPriceTimestamp mtp !! m) as [pt|]; [|done].
  destruct (Z.ltb_spec (LastUpdateTime pt) c), (Z.leb_spec c (LastUpdateTime pt)); try lia.
  - done.
  - by rewrite <- app_assoc.
Qed.
End ImplLemmas.

#[export] Program Instance ExchangeToMarketPricesImpl_interface `{RangeOrder} :
  ExchangeToMarketPrices ExchangeToMarketPricesImpl := {|
    etm_exchanges := impl_exchanges;
    etm_cell := impl_cell;
    etm_UpdatePrice := ExchangeToMarketPrices_UpdatePrice;
    etm_GetIndexPrice := ExchangeToMarketPrices_GetIndexPrice
  |}.
Next Obligation. intros. apply impl_exchanges_NoDup. Qed.
Next Obligation. intros. by apply impl_UpdatePrice_known. Qed.
Next Obligation. intros. by apply impl_UpdatePrice_unknown. Qed.
Next Obligation.
  intros ? s m c resolver. exists (indexPrices s m c). split; [by rewrite indexPrices_bind|].
  unfold ExchangeToMarketPrices_GetIndexPrice. by destruct (indexPrices s m c).
Qed.

(** ** Creation *)
Lemma NewExchangeToMarketPrices_loop ids m :
  NoDup ids -> (forall ex, ex ∈ ids -> m !! ex = None) ->
  foldM_go (fun (m : gmap ExchangeId MarketToPrice) exchangeId =>
    match m !! exchangeId with
    | Some _ => Err (ErrNew ("exchangeId: '" +:+ exchangeId +:+ "' appears twice in request"))
    | None => Ok (<[exchangeId := NewMarketToPrice]> m)
    end) m ids = Ok (gset_to_gmap NewMarketToPrice (list_to_set ids) ∪ m).
Proof.
  revert m. induction ids as [|ex ids IH]; intros m Hnd Hm; simpl.
  - rewrite gset_to_gmap_empty. by rewrite (left_id_L ∅ (∪)).
  - inversion Hnd; subst. rewrite Hm by set_solver. simpl. rewrite IH; [|done|].
    + f_equal. rewrite gset_to_gmap_union_singleton, <- insert_union_l, insert_union_r; [done|].
      apply lookup_gset_to_gmap_None. set_solver.
    + intros ex' Hex'. rewrite lookup_insert_ne by set_solver. apply Hm. set_solver.
Qed.

Lemma NewExchangeToMarketPrices_loop_dup ids (m : gmap ExchangeId MarketToPrice) m' :
  foldM_go (fun m exchangeId =>
    match m !! exchangeId with
    | Some _ => Err (ErrNew ("exchangeId: '" +:+ exchangeId +:+ "' appears twice in request"))
    | None => Ok (<[exchangeId := NewMarketToPrice]> m)
    end) m ids = Ok m' ->
  NoDup ids /\ forall ex, ex ∈ ids -> m !! ex = None.
Proof.
  revert m. induction ids as [|ex ids IH]; intros m; simpl.
  - split; [constructor|set_solver].
  - destruct (m !! ex) eqn:Em; simpl; [done|]. intros Hf. destruct (IH _ Hf) as [Hnd Hex].
    split.
    + constructor; [|done]. intros Hin%Hex. by rewrite lookup_insert_eq in Hin.
    + intros ex' [->|Hin]%elem_of_cons; [done|]. specialize (Hex _ Hin).
      by apply lookup_insert_None in Hex as [? _].
Qed.

(** [NewExchangeToMarketPrices] succeeds exactly on non-empty lists without
    duplicates, with an empty cell map for each exchange. *)
Lemma NewExchangeToMarketPrices_Ok ids etmp :
  NewExchangeToMarketPrices ids = Ok etmp <->
  ids <> [] /\ NoDup ids /\
  ExchangeMarketPrices etmp = gset_to_gmap NewMarketToPrice (list_to_set ids).
Proof.
  unfold NewExchangeToMarketPrices.
  destruct (bool_decide_reflect (length ids = 0%nat)) as [E|E].
  { destruct ids; [naive_solver|done]. }
  rewrite go_bind_Ok. split.
  - intros (m & Hm & [= <-]). destruct (NewExchangeToMarketPrices_loop_dup _ _ _ Hm) as [Hnd Hn].
    rewrite NewExchangeToMarketPrices_loop in Hm by done.
    rewrite (right_id_L ∅ (∪)) in Hm. simplify_eq/=.
    split_and!; [by intros ->|done..].
  - intros (Hne & Hnd & Hm). rewrite NewExchangeToMarketPrices_loop; [|done|].
    + eexists; split; [done|]. rewrite (right_id_L ∅ (∪)). destruct etmp. simpl in *. by subst.
    + intros. apply lookup_empty.
Qed.

(** ** Client theorems, against the interface *)
Section Interface.
Context {St : Type} `{ExchangeToMarketPrices St}.

Definition entry_of (u : ExchangeId * MarketPriceTimestamp) : (ExchangeId * MarketId) * update :=
  ((u.1, mpt_MarketId u.2), (mpt_LastUpdatedAt u.2, mpt_Price u.2)).

(** A sequence of price updates, in the order in which their locks are taken. *)
Definition etm_updates (s : St) (us : list (ExchangeId * MarketPriceTimestamp)) : go St :=
  foldM_go (fun s u => etm_UpdatePrice s u.1 u.2) s us.

Lemma etm_updates_latest s us h :
  Forall (fun u => u.1 ∈ etm_exchanges s) us -> holds_latest h (etm_cell s) ->
  exists s', etm_updates s us = Ok s' /\ etm_exchanges s' ≡ₚ etm_exchanges s /\
    holds_latest (h ++ (entry_of <$> us)) (etm_cell s').
Proof.
  unfold etm_updates. revert s h. induction us as [|u us IH]; intros s h Hus Hh; simpl.
  { exists s. by rewrite app_nil_r. }
  inversion Hus as [|? ? Hu Hus']; subst.
  destruct (etm_UpdatePrice_known s u.1 u.2 Hu) as (s1 & -> & Hex & Hb). simpl.
  destruct (IH s1 (h ++ [entry_of u])) as (s2 & -> & Hex2 & Hl).
  - eapply Forall_impl; [done|]. intros u'. simpl. by rewrite Hex.
  - eapply holds_latest_bumped; eauto.
  - exists s2. split_and!; [done|by rewrite Hex2|].
    by rewrite <- app_assoc in Hl.
Qed.

(** The valid prices of a market by the history of the updates. *)
Definition index_prices (exs : list ExchangeId) (h : list ((ExchangeId * MarketId) * update))
    (m : MarketId) (c : Time) : list Z :=
  ex ← exs;
  let hist := history_of (ex, m) h in
  if bool_decide (hist <> [] /\ c <= LastUpdateTime (replay hist)) then [Price (replay hist)]
  else [].

Lemma etm_GetIndexPrice_history s h m c :
  holds_latest h (etm_cell s) ->
  exists prices, prices ≡ₚ index_prices (etm_exchanges s) h m c /\
    etm_GetIndexPrice s m c (Median uint64) =
      match Median uint64 prices with Ok p => Ok (p, length prices) | _ => Ok (0, 0%nat) end.
Proof.
  intros Hh. destruct (etm_GetIndexPrice_spec s m c (Median uint64)) as (prices & Hp & ->).
  exists prices. split.
  - rewrite Hp. unfold index_prices. clear Hp.
    induction (etm_exchanges s) as [|ex l IH]; [done|]. simpl. f_equiv; [|done].
    pose proof (Hh (ex, m)) as Hc. destruct (etm_cell s (ex, m)) as [pt|] eqn:E.
    + destruct Hc as [Hne _]. rewrite (holds_latest_lookup _ _ _ _ Hh E).
      unfold valid_cell. case_bool_decide as Hb; [|destruct (Z.leb_spec c (LastUpdateTime
        (replay (history_of (ex, m) h)))); [tauto|done]].
      destruct (Z.leb_spec c (LastUpdateTime (replay (history_of (ex, m) h)))); [done|lia].
    + by rewrite Hc.
  - destruct prices as [|p ps]; [done|].
    by destruct (Median_total uint64 (p :: ps)) as [r ->].
Qed.
End Interface.

(** ** Properties *)

(** index prices. After any interleaving of updates for the configured
    exchanges, none of which panics, [GetIndexPrice] with the median resolver
    is the median, and the number, of the exchanges' latest prices of the
    market not older than the cutoff, and (0, 0) when there is none. *)
Theorem GetIndexPrice_correct `{RangeOrder} (ids : list ExchangeId)
    (us : list (ExchangeId * MarketPriceTimestamp)) (m : MarketId) (c : Time) :
  ids <> [] -> NoDup ids -> Forall (fun u => u.1 ∈ ids) us ->
  exists etmp etmp',
    NewExchangeToMarketPrices ids = Ok etmp /\
    foldM_go (fun s u => ExchangeToMarketPrices_UpdatePrice s u.1 u.2) etmp us = Ok etmp' /\
    let prices := index_prices ids (entry_of <$> us) m c in
    ExchangeToMarketPrices_GetIndexPrice etmp' m c (Median uint64) =
      match Median uint64 prices with Ok p => Ok (p, length prices) | _ => Ok (0, 0%nat) end.
Proof.
  intros Hne Hnd Hus. set (etmp := mkExchangeToMarketPrices
    (gset_to_gmap NewMarketToPrice (list_to_set ids))).
  assert (impl_exchanges etmp ≡ₚ ids) as Hids.
  { apply NoDup_Permutation; [apply impl_exchanges_NoDup|done|]. intros ex.
    rewrite elem_of_impl_exchanges. simpl. rewrite <- elem_of_dom, dom_gset_to_gmap.
    by rewrite elem_of_list_to_set. }
  destruct (etm_updates_latest etmp us []) as (etmp' & Hf & Hex & Hl).
  - eapply Forall_impl; [done|]. intros u Hu. simpl. by rewrite Hids.
  - intros [ex m']. simpl. unfold impl_cell. simpl.
    destruct (gset_to_gmap _ _ !! ex) as [mtp|] eqn:E; simpl; [|done].
    apply lookup_gset_to_gmap_Some in E as [_ <-]. simpl. by rewrite lookup_empty.
  - exists etmp, etmp'. split_and!; [by apply NewExchangeToMarketPrices_Ok|done|].
    destruct (etm_GetIndexPrice_history etmp' _ m c Hl) as (prices & Hp & E).
    simpl in E. rewrite E. simpl in Hex, Hl. simpl.
    assert (prices ≡ₚ index_prices ids (entry_of <$> us) m c) as Hp'.
    { rewrite Hp. unfold index_prices. simpl. by rewrite Hex, Hids. }
    by rewrite (Median_perm _ _ _ Hp'), (Permutation_length Hp').
Qed.

Lemma GetIndexPrice_correct_witness :
  exists etmp etmp',
    NewExchangeToMarketPrices ["Binance"; "Kraken"; "Gate"] = Ok etmp /\
    foldM_go (fun s u => ExchangeToMarketPrices_UpdatePrice s u.1 u.2) etmp
      [("Gate", mkMarketPriceTimestamp 1 7 100); ("Kraken", mkMarketPriceTimestamp 1 9 90);
       ("Gate", mkMarketPriceTimestamp 1 8 99); ("Binance", mkMarketPriceTimestamp 1 50 10)]
      = Ok etmp' /\
    ExchangeToMarketPrices_GetIndexPrice etmp' 1 60 (Median uint64) = Ok (8, 2%nat).
Proof.
  apply (GetIndexPrice_correct ["Binance"; "Kraken"; "Gate"]
    [("Gate", mkMarketPriceTimestamp 1 7 100); ("Kraken", mkMarketPriceTimestamp 1 9 90);
     ("Gate", mkMarketPriceTimestamp 1 8 99); ("Binance", mkMarketPriceTimestamp 1 50 10)] 1 60).
  - done.
  - apply (bool_decide_unpack _). vm_compute. exact I.
  - apply (bool_decide_unpack _). vm_compute. exact I.
Defined.
