(* ===== verification/MutableConfigs.v ===== *)
(** * price_feed_mutable_market_configs.go: the market configuration

    [PricefeedMutableMarketConfigsImpl] keeps the configuration of the markets
    on every exchange and sends the changes to the price fetcher and the price
    encoder of each exchange ([ExchangeConfigUpdater]). An updater is a pointer
    of a countable type; a call of its [UpdateMutableExchangeConfig] is the
    parameter [notify], which acts on a world [W]. The two JSON decoders are
    parameters without hypotheses. *)
From S2P Require Import Prelude Text Hex MarketConfig.
Local Open Scope Z_scope.

Definition expectedUpdatersPerExchange : Z := 2.

Record UpdateParameters := mkUpdateParameters {
  ExchangeConfig : MutableExchangeMarketConfig;
  MarketConfigs : list MutableMarketConfig
}.
#[export] Instance UpdateParameters_eq_dec : EqDecision UpdateParameters.
Proof. solve_decision. Defined.

Record UpdatersForExchange (Updater : Type) := mkUpdatersForExchange {
  PriceFetcher : option Updater;
  PriceEncoder : option Updater
}.
Arguments mkUpdatersForExchange {Updater} _ _.
Arguments PriceFetcher {Updater} _.
Arguments PriceEncoder {Updater} _.

Definition UpdatersForExchange_Validate {Updater} (ufe : UpdatersForExchange Updater) : go unit :=
  match PriceFetcher ufe with
  | None => Err (ErrNew "price fetcher cannot be nil")
  | Some _ =>
      match PriceEncoder ufe with
      | None => Err (ErrNew "price encoder cannot be nil")
      | Some _ => Ok tt
      end
  end.

(** [updatersInitialized] is the counter of the wait group. *)
Record PricefeedMutableMarketConfigsImpl (Updater : Type) := mkPfmmc {
  mutableExchangeToConfigs : gmap ExchangeId MutableExchangeMarketConfig;
  mutableMarketToConfigs : gmap MarketId MutableMarketConfig;
  mutableExchangeConfigUpdaters : gmap ExchangeId (UpdatersForExchange Updater);
  updatersInitialized : Z
}.
Arguments mkPfmmc {Updater} _ _ _ _.
Arguments mutableExchangeToConfigs {Updater} _.
Arguments mutableMarketToConfigs {Updater} _.
Arguments mutableExchangeConfigUpdaters {Updater} _.
Arguments updatersInitialized {Updater} _.

Definition empty_exchange_config (exchangeId : ExchangeId) : MutableExchangeMarketConfig :=
  mkMutableExchangeMarketConfig exchangeId ∅.

(** ** ValidateAndTransformParams *)
Section Transform.
Context `{RangeOrder}.
Variable unmarshal_object : string -> option go_error.
Variable unmarshal_config : string -> go_error + ExchangeConfigJsonT.

(** The three maps under construction. *)
Record transformed := mkTransformed {
  exchangeConfigs : gmap ExchangeId MutableExchangeMarketConfig;
  marketConfigs : gmap MarketId MutableMarketConfig;
  marketParamErrors : gmap MarketId go_error
}.

Definition set_error (t : transformed) (id : MarketId) (err : go_error) : transformed :=
  mkTransformed (exchangeConfigs t) (marketConfigs t) (<[id := err]> (marketParamErrors t)).

Definition set_market_config (memc : MutableExchangeMarketConfig) (id : MarketId)
    (marketConfig : MarketConfig) : MutableExchangeMarketConfig :=
  mkMutableExchangeMarketConfig (memc_Id memc) (<[id := marketConfig]> (MarketToMarketConfig memc)).

(** The body of the loop over the exchanges of one market. *)
Definition apply_exchange (marketParam : MarketParam) (marketNameToId : gmap string MarketId)
    (configs : gmap ExchangeId MutableExchangeMarketConfig) (exchangeConfig : ExchangeMarketConfigJson)
    : go (gmap ExchangeId MutableExchangeMarketConfig) :=
  let exchangeId := ExchangeName exchangeConfig in
  match configs !! exchangeId with
  | None =>
      Err (ErrNew ("unexpected internal error: exchange '" +:+ exchangeId +:+
        "' not found in mutableExchangeConfigs for market " +:+ Pair marketParam))
  | Some mutableExchangeConfig =>
      adjustByMarket ←
        (if bool_decide (emcj_AdjustByMarket exchangeConfig = "") then Ok None
         else match marketNameToId !! emcj_AdjustByMarket exchangeConfig with
         | None => Err (ErrNew ("unexpected internal error: invalid exchange config json for exchange '"
             +:+ ExchangeName exchangeConfig +:+ "' on market param " +:+ pretty (Id marketParam)
             +:+ ": adjustByMarket '" +:+ emcj_AdjustByMarket exchangeConfig +:+ "' not found"))
         | Some adjustByMarketId => Ok (Some adjustByMarketId)
         end);
      let marketConfig :=
        mkMarketConfig (emcj_Ticker exchangeConfig) adjustByMarket (emcj_Invert exchangeConfig) in
      Ok (<[exchangeId := set_market_config mutableExchangeConfig (Id marketParam) marketConfig]>
            configs)
  end.

(** The body of the loop over the market params. *)
Definition transform_param (exchangeNames : list ExchangeId) (marketNameToId : gmap string MarketId)
    (t : transformed) (marketParam : MarketParam) : go transformed :=
  let id := Id marketParam in
  match MarketParam_Validate unmarshal_object marketParam with
  | Panic p => Panic p
  | Err err => Ok (set_error t id (wrapf ("invalid market param " +:+ pretty id) err))
  | Ok _ =>
      match marketConfigs t !! id with
      | Some _ => Err (ErrNew ("invalid market params: duplicate market id " +:+ pretty id))
      | None =>
          match unmarshal_config (ExchangeConfigJson marketParam) with
          | inl err =>
              Ok (set_error t id
                (wrapf ("invalid exchange config json for market param " +:+ pretty id) err))
          | inr exchangeConfigJson =>
              match ExchangeConfigJson_Validate exchangeConfigJson exchangeNames marketNameToId with
              | Panic p => Panic p
              | Err err =>
                  Ok (set_error t id
                    (wrapf ("invalid exchange config json for market param " +:+ pretty id) err))
              | Ok _ =>
                  configs ← foldM_go (apply_exchange marketParam marketNameToId)
                              (exchangeConfigs t) (Exchanges exchangeConfigJson);
                  Ok (mkTransformed configs
                        (<[id := mkMutableMarketConfig id (Pair marketParam)
                                   (mp_Exponent marketParam) (MinExchanges marketParam)]>
                           (marketConfigs t))
                        (marketParamErrors t))
              end
          end
      end
  end.

(** The name index: a later param with the same pair replaces an earlier one. *)
Definition marketNameToId (marketParams : list MarketParam) : gmap string MarketId :=
  foldl (fun m param => <[Pair param := Id param]> m) ∅ marketParams.

(** A nil slice is [None]. *)
Definition ValidateAndTransformParams {Updater} (pfmmc : PricefeedMutableMarketConfigsImpl Updater)
    (marketParams : option (list MarketParam)) : go transformed :=
  match marketParams with
  | None => Err (ErrNew "marketParams cannot be nil")
  | Some marketParams =>
      let mutableExchangeConfigs :=
        foldl (fun m '(exchangeId, _) => <[exchangeId := empty_exchange_config exchangeId]> m) ∅
          (range_of (mutableExchangeToConfigs pfmmc)) in
      let exchangeNames := (range_of (mutableExchangeToConfigs pfmmc)).*1 in
      foldM_go (transform_param exchangeNames (marketNameToId marketParams))
        (mkTransformed mutableExchangeConfigs ∅ ∅) marketParams
  end.

(** ** getUpdateParametersForExchange *)
Definition marketsOnExchange (memc : MutableExchangeMarketConfig) : gmap MarketId unit :=
  foldl (fun m '(marketId, config) =>
    let m := <[marketId := tt]> m in
    match AdjustByMarket config with
    | Some adjustByMarket => <[adjustByMarket := tt]> m
    | None => m
    end) ∅ (range_of (MarketToMarketConfig memc)).

Definition le_Id (c c' : MutableMarketConfig) : Prop := mmc_Id c <= mmc_Id c'.
#[global] Instance le_Id_dec c c' : Decision (le_Id c c').
Proof. unfold le_Id. apply _. Defined.

(** A market missing from [mutableMarketConfigs] reads a nil pointer, and
    [Copy] dereferences it. *)
Definition getUpdateParametersForExchange (mutableExchangeConfig : MutableExchangeMarketConfig)
    (mutableMarketConfigs : gmap MarketId MutableMarketConfig) : go UpdateParameters :=
  marketConfigCopies ←
    mapM_go (fun '(marketId, _) =>
      match mutableMarketConfigs !! marketId with
      | None => Panic NilDereference
      | Some mmc => Ok (MutableMarketConfig_Copy mmc)
      end) (range_of (marketsOnExchange mutableExchangeConfig));
  Ok (mkUpdateParameters (MutableExchangeMarketConfig_Copy mutableExchangeConfig)
        (merge_sort le_Id marketConfigCopies)).
End Transform.

(** ** The configuration service *)
Section Service.
Context `{RangeOrder}.
Variable unmarshal_object : string -> option go_error.
Variable unmarshal_config : string -> go_error + ExchangeConfigJsonT.
Context {Updater : Type} `{Countable Updater}.
Variable GetExchangeId : Updater -> ExchangeId.
Context {W : Type}.
Variable notify : Updater -> UpdateParameters -> W -> W * option go_error.

Abbreviation Pfmmc := (PricefeedMutableMarketConfigsImpl Updater).

Definition NewPriceFeedMutableMarketConfigs (canonicalExchangeIds : list ExchangeId) : Pfmmc :=
  mkPfmmc
    (foldl (fun m exchangeId => <[exchangeId := empty_exchange_config exchangeId]> m)
       ∅ canonicalExchangeIds)
    ∅ ∅
    (expectedUpdatersPerExchange * Z.of_nat (length canonicalExchangeIds)).

(** [Done] panics when the counter goes below zero. *)
Definition addExchangeConfigUpdater (pfmmc : Pfmmc) (updater : Updater) (isPriceFetcher : bool)
    : go Pfmmc :=
  let id := GetExchangeId updater in
  let updatersForExchange :=
    default (mkUpdatersForExchange None None) (mutableExchangeConfigUpdaters pfmmc !! id) in
  updatersForExchange' ←
    (if isPriceFetcher then
       match PriceFetcher updatersForExchange with
       | Some _ => Panic (PanicMsg
           ("internal error: price fetcher already exists for exchange " +:+ id))
       | None => Ok (mkUpdatersForExchange (Some updater) (PriceEncoder updatersForExchange))
       end
     else
       match PriceEncoder updatersForExchange with
       | Some _ => Panic (PanicMsg
           ("internal error: price encoder already exists for exchange " +:+ id))
       | None => Ok (mkUpdatersForExchange (PriceFetcher updatersForExchange) (Some updater))
       end);
  if updatersInitialized pfmmc - 1 <? 0 then Panic (PanicMsg "sync: negative WaitGroup counter")
  else Ok (mkPfmmc (mutableExchangeToConfigs pfmmc) (mutableMarketToConfigs pfmmc)
             (<[id := updatersForExchange']> (mutableExchangeConfigUpdaters pfmmc))
             (updatersInitialized pfmmc - 1)).

Definition AddPriceFetcher (pfmmc : Pfmmc) (priceFetcher : Updater) : go Pfmmc :=
  addExchangeConfigUpdater pfmmc priceFetcher true.
Definition AddPriceEncoder (pfmmc : Pfmmc) (priceEncoder : Updater) : go Pfmmc :=
  addExchangeConfigUpdater pfmmc priceEncoder false.

(** Step 2 of [UpdateMarkets]: every new config has a previous one and updaters. *)
Definition check_updaters (pfmmc : Pfmmc)
    (newConfigs : gmap ExchangeId MutableExchangeMarketConfig) : go unit :=
  forM_go (fun '(exchangeId, _) =>
    match mutableExchangeToConfigs pfmmc !! exchangeId with
    | None => Err (ErrNew ("internal error: exchange " +:+ exchangeId +:+
                           " not found in previousExchangeConfigs"))
    | Some _ =>
        match mutableExchangeConfigUpdaters pfmmc !! exchangeId with
        | None => Err (ErrNew ("internal error: price fetcher not found for exchange " +:+ exchangeId))
        | Some exchangeUpdaters =>
            match UpdatersForExchange_Validate exchangeUpdaters with
            | Err err => Err (wrapf ("internal error for exchange " +:+ exchangeId) err)
            | r => r
            end
        end
    end) (range_of newConfigs).

(** Step 3: the updates to send, keyed by updater (nil is a key like another).
    A missing config is a nil pointer, which [Equal] dereferences. *)
Definition precompute (pfmmc : Pfmmc)
    (newConfigs : gmap ExchangeId MutableExchangeMarketConfig)
    (newMarkets : gmap MarketId MutableMarketConfig)
    : go (gmap (option Updater) UpdateParameters) :=
  foldM_go (fun updaterToUpdateParameters '(exchangeId, updaters) =>
    match mutableExchangeToConfigs pfmmc !! exchangeId, newConfigs !! exchangeId with
    | Some previousConfig, Some mutableExchangeConfig =>
        if negb (MutableExchangeMarketConfig_Equal previousConfig mutableExchangeConfig) then
          p ← getUpdateParametersForExchange mutableExchangeConfig newMarkets;
          let m := <[PriceFetcher updaters := p]> updaterToUpdateParameters in
          p' ← getUpdateParametersForExchange mutableExchangeConfig newMarkets;
          Ok (<[PriceEncoder updaters := p']> m)
        else Ok updaterToUpdateParameters
    | _, _ => Panic NilDereference
    end) ∅ (range_of (mutableExchangeConfigUpdaters pfmmc)).

(** Calls one updater when it has parameters to be sent; calling through a nil
    interface panics. *)
Definition send (params : gmap (option Updater) UpdateParameters) (updater : option Updater)
    (what : string) (exchangeId : ExchangeId) (s : W * list string) : go (W * list string) :=
  match params !! updater with
  | None => Ok s
  | Some updateParams =>
      match updater with
      | None => Panic NilDereference
      | Some u =>
          let '(w, err) := notify u updateParams s.1 in
          match err with
          | None => Ok (w, s.2)
          | Some err =>
              Ok (w, s.2 ++ [error_text (wrapf ("UpdateMarkets: failed to update price " +:+ what
                               +:+ " for exchange " +:+ exchangeId) err)])
          end
      end
  end.

(** Step 6: the encoder of an exchange before its fetcher. *)
Definition broadcast (pfmmc : Pfmmc) (params : gmap (option Updater) UpdateParameters) (w : W)
    : go (W * list string) :=
  foldM_go (fun s '(exchangeId, updaters) =>
    s' ← send params (PriceEncoder updaters) "encoder" exchangeId s;
    send params (PriceFetcher updaters) "fetcher" exchangeId s')
    (w, []) (range_of (mutableExchangeConfigUpdaters pfmmc)).

Definition join_errors (l : list string) : string := strings_Join l ", ".

(** What a call of [UpdateMarkets] leaves: the service, the world, and the two
    results. An error before step 5 changes nothing. *)
Record update_result := mkUpdateResult {
  ur_pfmmc : Pfmmc;
  ur_world : W;
  ur_paramErrors : gmap MarketId go_error;
  ur_err : option go_error
}.

Definition failed (pfmmc : Pfmmc) (w : W) (err : go_error) : update_result :=
  mkUpdateResult pfmmc w ∅ (Some err).

(** [None]: the call is blocked in [updatersInitialized.Wait()]. *)
Definition UpdateMarkets (pfmmc : Pfmmc) (w : W) (marketParams : option (list MarketParam))
    : option (go update_result) :=
  if negb (updatersInitialized pfmmc =? 0) then None
  else Some (
    if bool_decide (marketParams = None) then
      Ok (failed pfmmc w (ErrNew "UpdateMarkets: marketParams cannot be nil"))
    else match ValidateAndTransformParams unmarshal_object unmarshal_config pfmmc marketParams with
    | Panic p => Panic p
    | Err err => Ok (failed pfmmc w (wrapf "UpdateMarkets market param validation failed" err))
    | Ok t =>
        match check_updaters pfmmc (exchangeConfigs t) with
        | Panic p => Panic p
        | Err err => Ok (failed pfmmc w err)
        | Ok _ =>
            updaterToUpdateParameters ← precompute pfmmc (exchangeConfigs t) (marketConfigs t);
            let pfmmc' := mkPfmmc (exchangeConfigs t) (marketConfigs t)
              (mutableExchangeConfigUpdaters pfmmc) (updatersInitialized pfmmc) in
            r ← broadcast pfmmc' updaterToUpdateParameters w;
            let '(w', updaterErrors) := r in
            Ok (mkUpdateResult pfmmc' w' (marketParamErrors t)
                  (match updaterErrors with
                   | [] => None
                   | _ => Some (ErrNew ("UpdateMarkets: failed to update some fetchers or encoders: "
                                  +:+ join_errors updaterErrors))
                   end))
        end
    end).

Definition GetExchangeMarketConfigCopy (pfmmc : Pfmmc) (id : ExchangeId)
    : go MutableExchangeMarketConfig :=
  match mutableExchangeToConfigs pfmmc !! id with
  | None => Err (ErrNew ("mutableExchangeMarketConfig not found for exchange " +:+ id))
  | Some memc => Ok (MutableExchangeMarketConfig_Copy memc)
  end.

Definition GetMarketConfigCopies (pfmmc : Pfmmc) (markets : list MarketId)
    : go (list MutableMarketConfig) :=
  mapM_go (fun market =>
    match mutableMarketToConfigs pfmmc !! market with
    | None => Err (ErrNew ("market " +:+ pretty market +:+ " not found in mutableMarketToConfigs"))
    | Some config => Ok (MutableMarketConfig_Copy config)
    end) markets.
End Service.

(** ** Specification of the transformation *)
Section TransformSpec.
Context `{RangeOrder}.
Variable unmarshal_object : string -> option go_error.
Variable unmarshal_config : string -> go_error + ExchangeConfigJsonT.

(** How an exchange entry configures its market; adjustment names are resolved
    by [names]. *)
Definition entry_config (names : gmap string MarketId) (e : ExchangeMarketConfigJson) : MarketConfig :=
  mkMarketConfig (emcj_Ticker e)
    (if bool_decide (emcj_AdjustByMarket e = "") then None else names !! emcj_AdjustByMarket e)
    (emcj_Invert e).

(** The configuration of a market on exchange [ex]: its last entry for [ex]. *)
Definition market_on (names : gmap string MarketId) (entries : list ExchangeMarketConfigJson)
    (ex : ExchangeId) : option MarketConfig :=
  foldl (fun acc e => if bool_decide (ExchangeName e = ex) then Some (entry_config names e) else acc)
    None entries.

(** A param is accepted when it and its exchange configuration are valid. *)
Definition accepts (exs : list ExchangeId) (names : gmap string MarketId) (p : MarketParam)
    : option ExchangeConfigJsonT :=
  match MarketParam_Validate unmarshal_object p with
  | Ok _ =>
      match unmarshal_config (ExchangeConfigJson p) with
      | inr cfg =>
          match ExchangeConfigJson_Validate cfg exs names with Ok _ => Some cfg | _ => None end
      | inl _ => None
      end
  | _ => None
  end.

Definition market_config_of (p : MarketParam) : MutableMarketConfig :=
  mkMutableMarketConfig (Id p) (Pair p) (mp_Exponent p) (MinExchanges p).

Definition config_at (configs : gmap ExchangeId MutableExchangeMarketConfig) (ex : ExchangeId)
    (m : MarketId) : option MarketConfig :=
  memc ← configs !! ex; MarketToMarketConfig memc !! m.

(** The maps built from the params [l]: each accepted param configures its
    market, on the exchanges it names; each rejected one leaves an error. *)
Record transforms (exs : list ExchangeId) (names : gmap string MarketId) (l : list MarketParam)
    (t : transformed) : Prop := {
  transforms_ids : forall ex, memc_Id <$> exchangeConfigs t !! ex =
    if bool_decide (ex ∈ exs) then Some ex else None;
  transforms_exchange : forall ex m mc, config_at (exchangeConfigs t) ex m = Some mc <->
    exists p, p ∈ l /\ Id p = m /\ exists cfg, accepts exs names p = Some cfg /\
      market_on names (Exchanges cfg) ex = Some mc;
  transforms_market : forall m mmc, marketConfigs t !! m = Some mmc <->
    exists p, p ∈ l /\ Id p = m /\ is_Some (accepts exs names p) /\ mmc = market_config_of p;
  transforms_errors : forall m, is_Some (marketParamErrors t !! m) <->
    exists p, p ∈ l /\ Id p = m /\ accepts exs names p = None
}.

(** A valid param repeats the id of an accepted one before it. *)
Definition duplicates (exs : list ExchangeId) (names : gmap string MarketId)
    (l : list MarketParam) : Prop :=
  exists l1 p l2 q, l = l1 ++ p :: l2 /\ MarketParam_Validate unmarshal_object p = Ok tt /\
    q ∈ l1 /\ is_Some (accepts exs names q) /\ Id q = Id p.

(** ** Lemmas *)
Definition entry_ok (exs : list ExchangeId) (names : gmap string MarketId)
    (e : ExchangeMarketConfigJson) : Prop :=
  valid_ExchangeMarketConfigJson e exs names.

Lemma elem_of_name_set (exs : list ExchangeId) ex :
  ex ∈ foldl (fun (s : gset ExchangeId) n => {[n]} ∪ s) ∅ exs <-> ex ∈ exs.
Proof.
  enough (forall s : gset ExchangeId, ex ∈ foldl (fun s n => {[n]} ∪ s) s exs <->
    ex ∈ s \/ ex ∈ exs) as E by (rewrite E; set_solver).
  induction exs as [|n exs IH]; intros s; simpl; [set_solver|]. rewrite IH. set_solver.
Qed.

Lemma ExchangeMarketConfigJson_Validate_Ok e exs names :
  ExchangeMarketConfigJson_Validate e exs names = Ok tt <-> entry_ok exs names e.
Proof.
  unfold ExchangeMarketConfigJson_Validate, entry_ok, valid_ExchangeMarketConfigJson.
  repeat case_bool_decide; simpl; rewrite ?elem_of_name_set in *; try naive_solver.
  case_match; naive_solver.
Qed.

Lemma ExchangeMarketConfigJson_Validate_no_panic e exs names p :
  ExchangeMarketConfigJson_Validate e exs names <> Panic p.
Proof. unfold ExchangeMarketConfigJson_Validate. repeat case_match; done. Qed.

Lemma ExchangeConfigJson_Validate_Ok cfg exs names :
  ExchangeConfigJson_Validate cfg exs names = Ok tt <->
  Exchanges cfg <> [] /\ Forall (entry_ok exs names) (Exchanges cfg).
Proof.
  unfold ExchangeConfigJson_Validate. destruct (Exchanges cfg) as [|e l] eqn:E.
  { naive_solver. }
  rewrite bool_decide_false by done. rewrite forM_go_Ok. split.
  - intros Hf. split; [done|]. eapply Forall_impl; [exact Hf|]. intros e'. simpl.
    destruct (ExchangeMarketConfigJson_Validate e' exs names) as [[]| |] eqn:E'; try done.
    intros _. by apply ExchangeMarketConfigJson_Validate_Ok.
  - intros [_ Hf]. eapply Forall_impl; [exact Hf|]. intros e' He'. simpl.
    apply ExchangeMarketConfigJson_Validate_Ok in He'. by rewrite He'.
Qed.

Lemma ExchangeConfigJson_Validate_no_panic cfg exs names p :
  ExchangeConfigJson_Validate cfg exs names <> Panic p.
Proof.
  unfold ExchangeConfigJson_Validate. case_bool_decide; [done|]. intros Hf.
  apply forM_go_not_Ok in Hf as (e & _ & He); [|done].
  destruct (ExchangeMarketConfigJson_Validate e exs names) eqn:E; try done.
  by apply ExchangeMarketConfigJson_Validate_no_panic in E.
Qed.

Lemma MarketParam_Validate_no_panic p pn : MarketParam_Validate unmarshal_object p <> Panic pn.
Proof.
  unfold MarketParam_Validate, IsValidJSON. repeat case_match; try done.
  by match goal with Hx : hex_DecodeString _ = Panic _ |- _ =>
    apply hex_DecodeString_no_panic in Hx end.
Qed.

Lemma market_on_snoc names es e ex :
  market_on names (es ++ [e]) ex =
    if bool_decide (ExchangeName e = ex) then Some (entry_config names e)
    else market_on names es ex.
Proof. unfold market_on. by rewrite foldl_app. Qed.

Lemma apply_exchange_Ok p names configs e memc :
  configs !! ExchangeName e = Some memc ->
  (emcj_AdjustByMarket e <> "" -> is_Some (names !! emcj_AdjustByMarket e)) ->
  apply_exchange p names configs e =
    Ok (<[ExchangeName e := set_market_config memc (Id p) (entry_config names e)]> configs).
Proof.
  intros Hc Ha. unfold apply_exchange, entry_config. rewrite Hc.
  case_bool_decide; simpl; [done|]. by destruct (Ha ltac:(done)) as [id ->].
Qed.

Lemma apply_exchanges_Ok exs p names configs es :
  (forall ex, memc_Id <$> configs !! ex = if bool_decide (ex ∈ exs) then Some ex else None) ->
  Forall (entry_ok exs names) es ->
  exists configs', foldM_go (apply_exchange p names) configs es = Ok configs' /\
    (forall ex, memc_Id <$> configs' !! ex = memc_Id <$> configs !! ex) /\
    forall ex m, config_at configs' ex m =
      if bool_decide (m = Id p)
      then match market_on names es ex with Some mc => Some mc | None => config_at configs ex m end
      else config_at configs ex m.
Proof.
  intros Hids. induction es as [|e es IH] using rev_ind; intros Hes.
  { exists configs. split_and!; [done..|]. intros ex m. by case_bool_decide. }
  apply Forall_app in Hes as [Hes He]. apply Forall_singleton in He as (_ & Hex & _ & Hadj).
  destruct (IH Hes) as (configs' & Hf & Hid & Hat). rewrite foldM_go_app, Hf. simpl.
  pose proof (Hids (ExchangeName e)) as Hk. rewrite <- Hid, bool_decide_true in Hk by done.
  apply fmap_Some in Hk as (memc & Hm & Hmid).
  rewrite (apply_exchange_Ok p names configs' e memc Hm Hadj). simpl.
  eexists; split_and!; [done| |].
  - intros ex. rewrite <- Hid. destruct (decide (ex = ExchangeName e)) as [->|Hne].
    + rewrite lookup_insert_eq, Hm. done.
    + by rewrite lookup_insert_ne.
  - intros ex m. rewrite market_on_snoc. specialize (Hat ex m). unfold config_at in *.
    destruct (bool_decide_reflect (ExchangeName e = ex)) as [<-|Hx].
    + rewrite lookup_insert_eq. simpl. rewrite Hm in Hat. simpl in Hat.
      case_bool_decide as Hmid'; [subst m; by rewrite lookup_insert_eq|].
      by rewrite lookup_insert_ne.
    + by rewrite lookup_insert_ne.
Qed.

(** One param, when it does not repeat an accepted id. *)
Lemma transform_param_rejected exs names l t p :
  transforms exs names l t -> accepts exs names p = None ->
  (MarketParam_Validate unmarshal_object p = Ok tt -> marketConfigs t !! Id p = None) ->
  exists t', transform_param unmarshal_object unmarshal_config exs names t p = Ok t' /\
    transforms exs names (l ++ [p]) t'.
Proof.
  intros [Hids Hex Hmk Herr] Hacc Hfresh.
  assert (forall err, transforms exs names (l ++ [p]) (set_error t (Id p) err)) as Hset.
  { intros err. split; simpl; [done| | |].
    - intros ex m mc. rewrite Hex, ex_elem_snoc. split; [by left|].
      intros [?|(_ & cfg & Ha & _)]; [done|congruence].
    - intros m mmc. rewrite Hmk, ex_elem_snoc. split; [by left|].
      intros [?|(_ & [cfg Ha] & _)]; [done|congruence].
    - intros m. rewrite lookup_insert_is_Some', Herr, ex_elem_snoc. naive_solver. }
  unfold accepts in Hacc. unfold transform_param.
  destruct (MarketParam_Validate unmarshal_object p) as [[]|err|pn] eqn:E;
    [|by eexists|by apply MarketParam_Validate_no_panic in E].
  rewrite Hfresh by done.
  destruct (unmarshal_config (ExchangeConfigJson p)) as [err|cfg]; [by eexists|].
  destruct (ExchangeConfigJson_Validate cfg exs names) as [|err|pn] eqn:Ev;
    [done|by eexists|by apply ExchangeConfigJson_Validate_no_panic in Ev].
Qed.

Lemma transform_param_accepted exs names l t p cfg :
  transforms exs names l t -> accepts exs names p = Some cfg -> marketConfigs t !! Id p = None ->
  exists t', transform_param unmarshal_object unmarshal_config exs names t p = Ok t' /\
    transforms exs names (l ++ [p]) t'.
Proof.
  intros [Hids Hex Hmk Herr] Hacc Hfresh.
  pose proof Hacc as Hacc'. unfold accepts in Hacc'. unfold transform_param.
  destruct (MarketParam_Validate unmarshal_object p) as [[]|err|pn]; [|done..].
  rewrite Hfresh. destruct (unmarshal_config (ExchangeConfigJson p)) as [err|cfg']; [done|].
  destruct (ExchangeConfigJson_Validate cfg' exs names) as [[]|err|pn] eqn:Ev; [|done..].
  simplify_eq. apply ExchangeConfigJson_Validate_Ok in Ev as [_ Hes].
  destruct (apply_exchanges_Ok exs p names (exchangeConfigs t) (Exchanges cfg) Hids Hes)
    as (configs' & -> & Hid' & Hat). simpl. eexists; split; [done|].
  assert (forall q, q ∈ l -> Id q = Id p -> accepts exs names q = None) as Hnone.
  { intros q Hq Hqid. apply eq_None_not_Some. intros Hs.
    enough (marketConfigs t !! Id p = Some (market_config_of q)) by congruence.
    apply Hmk. by exists q. }
  assert (forall ex, config_at (exchangeConfigs t) ex (Id p) = None) as Hnc.
  { intros ex. apply eq_None_not_Some. intros [mc (q & Hq & Hqid & c & Ha & _)%Hex]. by rewrite Hnone in Ha. }
  split; simpl.
  - intros ex. by rewrite Hid', Hids.
  - intros ex m mc. rewrite Hat, ex_elem_snoc, <- Hex.
    destruct (bool_decide_reflect (m = Id p)) as [->|Hne].
    + rewrite Hnc. destruct (market_on names (Exchanges cfg) ex) eqn:Em; split.
      * intros [= <-]. right. split; [done|]. by exists cfg.
      * intros [?|(_ & c & Ha & Hm)]; congruence.
      * done.
      * intros [?|(_ & c & Ha & Hm)]; congruence.
    + split; [by left|]. intros [?|[? _]]; congruence.
  - intros m mmc. rewrite ex_elem_snoc, <- Hmk. destruct (decide (m = Id p)) as [->|Hne].
    + rewrite lookup_insert_eq, Hfresh, Hacc. split.
      * intros [= <-]. right. by eauto.
      * by intros [?|(_ & _ & ->)].
    + rewrite lookup_insert_ne by done. split; [by left|]. intros [?|[? _]]; congruence.
  - intros m. rewrite Herr, ex_elem_snoc. split; [by left|]. intros [?|[_ ?]]; [done|congruence].
Qed.

Lemma accepts_valid exs names p :
  is_Some (accepts exs names p) -> MarketParam_Validate unmarshal_object p = Ok tt.
Proof.
  unfold accepts. destruct (MarketParam_Validate unmarshal_object p) as [[]| |];
    [done|intros [? ?]; done..].
Qed.

(** The whole loop: it fails exactly on a duplicate, and no internal error of
    its inner loop is reachable. *)
Lemma transform_params exs names t0 l :
  transforms exs names [] t0 ->
  (duplicates exs names l /\ exists id,
     foldM_go (transform_param unmarshal_object unmarshal_config exs names) t0 l =
       Err (ErrNew ("invalid market params: duplicate market id " +:+ pretty (id : Z)))) \/
  (~ duplicates exs names l /\ exists t,
     foldM_go (transform_param unmarshal_object unmarshal_config exs names) t0 l = Ok t /\
     transforms exs names l t).
Proof.
  intros H0. induction l as [|p l IH] using rev_ind.
  { right. split; [|by exists t0]. by intros ([|] & ? & ? & ? & ? & _). }
  rewrite foldM_go_app. destruct IH as [(Hd & id & ->)|(Hnd & t & -> & Ht)]; simpl.
  { left. split; [|by exists id]. destruct Hd as (l1 & q & l2 & r & -> & Hr).
    exists l1, q, (l2 ++ [p]), r. by rewrite <- app_assoc. }
  destruct (marketConfigs t !! Id p) as [mmc|] eqn:Em;
    [destruct (decide (MarketParam_Validate unmarshal_object p = Ok tt)) as [Hv|Hv]|].
  - left. split.
    + apply (transforms_market _ _ _ _ Ht) in Em as (q & Hq & Hqid & Hs & _).
      by exists l, p, [], q.
    + exists (Id p). unfold transform_param. by rewrite Hv, Em.
  - right. destruct (transform_param_rejected exs names l t p Ht) as (t' & -> & Ht').
    + apply eq_None_not_Some. by intros ?%accepts_valid.
    + done.
    + split; [|by exists t']. intros (l1 & q & l2 & r & E & Hq & Hr).
      destruct l2 as [|x l2 _] using rev_ind.
      * apply app_inj_tail in E as [-> ->]. done.
      * rewrite app_comm_cons, app_assoc in E. apply app_inj_tail in E as [-> ->].
        apply Hnd. by exists l1, q, l2, r.
  - right.
    assert (exists t', transform_param unmarshal_object unmarshal_config exs names t p = Ok t' /\
      transforms exs names (l ++ [p]) t') as (t' & -> & Ht').
    { destruct (accepts exs names p) as [cfg|] eqn:Ea;
        [by eapply transform_param_accepted|by apply transform_param_rejected]. }
    split; [|by exists t']. intros (l1 & q & l2 & r & E & Hq & Hr & Hs & Hid).
    destruct l2 as [|x l2 _] using rev_ind.
    + apply app_inj_tail in E as [-> ->].
      enough (marketConfigs t !! Id q = Some (market_config_of r)) by congruence.
      apply (transforms_market _ _ _ _ Ht). by exists r.
    + rewrite app_comm_cons, app_assoc in E. apply app_inj_tail in E as [-> ->].
      apply Hnd. by exists l1, q, l2, r.
Qed.

Lemma initial_transforms {Updater} (pfmmc : PricefeedMutableMarketConfigsImpl Updater) names :
  transforms (range_of (mutableExchangeToConfigs pfmmc)).*1 names []
    (mkTransformed
      (foldl (fun m '(exchangeId, _) => <[exchangeId := empty_exchange_config exchangeId]> m) ∅
         (range_of (mutableExchangeToConfigs pfmmc))) ∅ ∅).
Proof.
  set (l := range_of _).
  assert (forall ex,
    foldl (fun (m : gmap ExchangeId MutableExchangeMarketConfig) '(exchangeId, _) =>
      <[exchangeId := empty_exchange_config exchangeId]> m) ∅ l !! ex =
    if bool_decide (ex ∈ l.*1) then Some (empty_exchange_config ex) else None) as E.
  { intros ex. induction l as [|[ex' c] l IH] using rev_ind; simpl; [by rewrite lookup_empty|].
    rewrite foldl_app, fmap_app. simpl. destruct (decide (ex = ex')) as [->|Hne].
    - rewrite lookup_insert_eq, bool_decide_true; [done|set_solver].
    - rewrite lookup_insert_ne, IH by done. repeat case_bool_decide; set_solver. }
  split; simpl.
  - intros ex. rewrite E. by case_bool_decide.
  - intros ex m mc. unfold config_at. rewrite E. case_bool_decide; simpl.
    + rewrite lookup_empty. set_solver.
    + set_solver.
  - intros m mmc. rewrite lookup_empty. set_solver.
  - intros m. rewrite lookup_empty. split; [by intros []|set_solver].
Qed.
End TransformSpec.

(** ** Update parameters *)
Section UpdateParams.
Context `{RangeOrder}.

(** The markets an exchange needs: its own and those they are adjusted by. *)
Definition needs (memc : MutableExchangeMarketConfig) (m : MarketId) : Prop :=
  is_Some (MarketToMarketConfig memc !! m) \/
  exists m' mc, MarketToMarketConfig memc !! m' = Some mc /\ AdjustByMarket mc = Some m.

Definition resolved (memc : MutableExchangeMarketConfig)
    (mm : gmap MarketId MutableMarketConfig) : Prop :=
  forall m, needs memc m -> is_Some (mm !! m).

Lemma elem_of_marketsOnExchange memc m :
  is_Some (marketsOnExchange memc !! m) <-> needs memc m.
Proof.
  unfold marketsOnExchange, needs.
  enough (forall l, is_Some (foldl (fun (s : gmap MarketId unit) '(marketId, config) =>
      let s := <[marketId := tt]> s in
      match AdjustByMarket config with
      | Some adjustByMarket => <[adjustByMarket := tt]> s
      | None => s
      end) ∅ l !! m) <->
    exists e : MarketId * MarketConfig, e ∈ l /\ (e.1 = m \/ AdjustByMarket e.2 = Some m)) as E.
  { rewrite E. split.
    - intros ([m' mc] & Hin%elem_of_range_of & [<-|Ha]); [left; by exists mc|right; eauto].
    - intros [[mc Hm]|(m' & mc & Hm & Ha)].
      + exists (m, mc). rewrite elem_of_range_of. auto.
      + exists (m', mc). rewrite elem_of_range_of. auto. }
  induction l as [|[m' mc] l IH] using rev_ind.
  { simpl. rewrite lookup_empty. split; [by intros []|by intros (? & ?%not_elem_of_nil & _)]. }
  rewrite foldl_app, ex_elem_snoc. simpl. rewrite <- IH.
  destruct (AdjustByMarket mc) as [a|]; rewrite ?lookup_insert_is_Some'; naive_solver.
Qed.

Lemma mapM_go_total {A B} (f : A -> go B) (l : list A) :
  (forall x, x ∈ l -> exists y, f x = Ok y) -> exists ys, mapM_go f l = Ok ys.
Proof.
  induction l as [|x l IH]; intros Hf; simpl; [by exists []|].
  destruct (Hf x ltac:(left)) as [y ->]. simpl.
  destruct IH as [ys ->]; [|by eexists]. intros x' Hx'. apply Hf. by right.
Qed.

Lemma mapM_go_Panic {A B} (f : A -> go B) p (l : list A) x :
  (forall x, x ∈ l -> (exists y, f x = Ok y) \/ f x = Panic p) -> x ∈ l -> f x = Panic p ->
  mapM_go f l = Panic p.
Proof.
  intros Hf Hin Hx. induction l as [|x' l IH]; simpl; [by apply not_elem_of_nil in Hin|].
  destruct (Hf x' ltac:(left)) as [[y E]|E]; rewrite E; simpl; [|done].
  apply elem_of_cons in Hin as [->|Hin]; [congruence|].
  rewrite IH; [done| |done]. intros. apply Hf. by right.
Qed.

#[local] Instance le_Id_total : Total le_Id.
Proof. intros c c'. unfold le_Id. lia. Qed.
#[local] Instance le_Id_trans : Transitive le_Id.
Proof. intros c c' c''. unfold le_Id. lia. Qed.

(** When every needed market is configured the parameters are the exchange's
    config and the sorted configs of the needed markets. *)
Lemma getUpdateParameters_resolved memc mm :
  resolved memc mm -> (forall m mmc, mm !! m = Some mmc -> mmc_Id mmc = m) ->
  exists mcs,
    getUpdateParametersForExchange memc mm = Ok (mkUpdateParameters memc mcs) /\
    StronglySorted le_Id mcs /\ NoDup (mmc_Id <$> mcs) /\
    forall mmc, mmc ∈ mcs <-> needs memc (mmc_Id mmc) /\ mm !! mmc_Id mmc = Some mmc.
Proof.
  intros Hr Hid. unfold getUpdateParametersForExchange.
  set (f := fun '(marketId, _) => _).
  assert (forall e, e ∈ range_of (marketsOnExchange memc) -> needs memc e.1) as Hn.
  { intros [m []] Hin%elem_of_range_of. apply elem_of_marketsOnExchange. by eexists. }
  destruct (mapM_go_total f (range_of (marketsOnExchange memc))) as [mcs Hmcs].
  { intros [m u] Hin. destruct (Hr m (Hn _ Hin)) as [mmc E]. unfold f. rewrite E. eauto. }
  rewrite Hmcs. simpl. rewrite MutableExchangeMarketConfig_Copy_id.
  exists (merge_sort le_Id mcs). apply mapM_go_Ok in Hmcs.
  assert (Forall2 (fun e mmc => mm !! e.1 = Some mmc /\ e.1 = mmc_Id mmc)
            (range_of (marketsOnExchange memc)) mcs) as Hf.
  { eapply Forall2_impl; [exact Hmcs|]. intros [m u] mmc. unfold f. simpl.
    destruct (mm !! m) as [c|] eqn:E; [|done]. intros [= <-]. apply Hid in E as E'.
    destruct c. simpl in *. by subst. }
  assert (mmc_Id <$> mcs = (range_of (marketsOnExchange memc)).*1) as Hids.
  { clear -Hf. induction Hf as [|e mmc l l' [_ E] _ IH]; [done|]. by rewrite !fmap_cons, IH, E. }
  split_and!; [done|apply StronglySorted_merge_sort; apply _| |].
  - rewrite merge_sort_Permutation, Hids. apply range_of_NoDup_keys.
  - intros mmc. rewrite merge_sort_Permutation. split.
    + intros Hin. destruct (Forall2_elem_of_r _ _ _ _ Hf Hin) as (e & He & Hm & Hi).
      rewrite <- Hi. split; [by apply Hn|done].
    + intros [Hneed Hm]. apply elem_of_marketsOnExchange in Hneed as [[] Hu].
      apply elem_of_range_of in Hu.
      destruct (Forall2_elem_of_l _ _ _ _ Hf Hu) as (mmc' & Hin & Hm' & _).
      simpl in Hm'. congruence.
Qed.

Lemma getUpdateParameters_unresolved memc mm m :
  needs memc m -> mm !! m = None ->
  getUpdateParametersForExchange memc mm = Panic NilDereference.
Proof.
  intros Hn Hm. unfold getUpdateParametersForExchange.
  apply elem_of_marketsOnExchange in Hn as [[] Hu]. apply elem_of_range_of in Hu.
  erewrite mapM_go_Panic; [done| |exact Hu|simpl; by rewrite Hm].
  intros [m' u] _. destruct (mm !! m'); eauto.
Qed.

(** The parameters pass the validation the updaters apply to them. *)
Lemma update_parameters_valid memc mm mcs :
  resolved memc mm -> (forall m mmc, mm !! m = Some mmc -> mmc_Id mmc = m) ->
  (forall m mmc, mm !! m = Some mmc -> valid_MutableMarketConfig mmc) ->
  NoDup (mmc_Id <$> mcs) ->
  (forall mmc, mmc ∈ mcs <-> needs memc (mmc_Id mmc) /\ mm !! mmc_Id mmc = Some mmc) ->
  MutableExchangeMarketConfig_Validate memc mcs = Ok tt.
Proof.
  intros Hr Hid Hv Hnd Hmcs. apply MutableExchangeMarketConfig_Validate_Ok.
  assert (forall m mmc, needs memc m -> mm !! m = Some mmc ->
    marketToMutableConfig mcs !! m = Some mmc) as Hl.
  { intros m mmc Hn Hm. pose proof (Hid _ _ Hm) as <-.
    assert (mmc ∈ mcs) as Hin by by apply Hmcs. clear -Hnd Hin. unfold marketToMutableConfig.
    induction mcs as [|c mcs IH] using rev_ind; [by apply not_elem_of_nil in Hin|].
    rewrite foldl_app. simpl. rewrite fmap_app in Hnd. apply NoDup_app in Hnd as (Hnd & Hx & _).
    apply elem_of_app in Hin as [Hin| ->%list_elem_of_singleton]; [|by rewrite lookup_insert_eq].
    rewrite lookup_insert_ne; [by apply IH|]. intros E. apply (Hx (mmc_Id mmc)).
    - by apply list_elem_of_fmap_2.
    - rewrite <- E. by left. }
  intros m config Hm. split.
  - assert (needs memc m) as Hn by (left; by eexists).
    destruct (Hr m Hn) as [mmc E]. exists mmc. split; [by apply Hl|]. by eapply Hv.
  - intros a Ha. assert (needs memc a) as Hn by (right; eauto).
    destruct (Hr a Hn) as [mmc E]. exists mmc. by apply Hl.
Qed.
End UpdateParams.

(** ** UpdateMarkets *)
Section UpdateSpec.
Context `{RangeOrder}.
Context {Updater : Type} `{Countable Updater}.
Variable GetExchangeId : Updater -> ExchangeId.

(** Every exchange has its own fetcher and encoder, two different objects. *)
Definition pair_for (ex : ExchangeId) (ufe : UpdatersForExchange Updater) : Prop :=
  exists f e, ufe = mkUpdatersForExchange (Some f) (Some e) /\ f <> e /\
    GetExchangeId f = ex /\ GetExchangeId e = ex.

Record registered (pfmmc : PricefeedMutableMarketConfigsImpl Updater) : Prop := {
  registered_dom : forall ex, is_Some (mutableExchangeConfigUpdaters pfmmc !! ex) <->
    is_Some (mutableExchangeToConfigs pfmmc !! ex);
  registered_pair : forall ex ufe, mutableExchangeConfigUpdaters pfmmc !! ex = Some ufe ->
    pair_for ex ufe
}.

Section Precompute.
Variable pfmmc : PricefeedMutableMarketConfigsImpl Updater.
Variable newConfigs : gmap ExchangeId MutableExchangeMarketConfig.
Variable newMarkets : gmap MarketId MutableMarketConfig.
Hypothesis Hreg : registered pfmmc.
Hypothesis Hdom : forall ex, is_Some (newConfigs !! ex) <->
  is_Some (mutableExchangeToConfigs pfmmc !! ex).
Hypothesis Hkeys : forall m mmc, newMarkets !! m = Some mmc -> mmc_Id mmc = m.

Definition changed (ex : ExchangeId) : Prop :=
  mutableExchangeToConfigs pfmmc !! ex <> newConfigs !! ex.

Definition sendable (ex : ExchangeId) : Prop :=
  forall memc, newConfigs !! ex = Some memc -> resolved memc newMarkets.

(** What is sent to [u]: the parameters of its exchange, when it changed. *)
Definition params_for (l : list (ExchangeId * UpdatersForExchange Updater)) (u : Updater)
    (p : UpdateParameters) : Prop :=
  exists ex ufe memc, (ex, ufe) ∈ l /\ changed ex /\ newConfigs !! ex = Some memc /\
    (PriceFetcher ufe = Some u \/ PriceEncoder ufe = Some u) /\
    getUpdateParametersForExchange memc newMarkets = Ok p.

Definition pre_step (m : gmap (option Updater) UpdateParameters)
    (e : ExchangeId * UpdatersForExchange Updater) : go (gmap (option Updater) UpdateParameters) :=
  let '(exchangeId, updaters) := e in
  match mutableExchangeToConfigs pfmmc !! exchangeId, newConfigs !! exchangeId with
  | Some previousConfig, Some mutableExchangeConfig =>
      if negb (MutableExchangeMarketConfig_Equal previousConfig mutableExchangeConfig) then
        p ← getUpdateParametersForExchange mutableExchangeConfig newMarkets;
        let m := <[PriceFetcher updaters := p]> m in
        p' ← getUpdateParametersForExchange mutableExchangeConfig newMarkets;
        Ok (<[PriceEncoder updaters := p']> m)
      else Ok m
  | _, _ => Panic NilDereference
  end.

#[local] Arguments pre_step : simpl never.

Lemma pre_step_cases m ex ufe :
  mutableExchangeConfigUpdaters pfmmc !! ex = Some ufe ->
  (pre_step m (ex, ufe) = Ok m /\ ~ changed ex) \/
  (pre_step m (ex, ufe) = Panic NilDereference /\ changed ex /\ ~ sendable ex) \/
  exists memc p, changed ex /\ newConfigs !! ex = Some memc /\ resolved memc newMarkets /\
    getUpdateParametersForExchange memc newMarkets = Ok p /\
    pre_step m (ex, ufe) = Ok (<[PriceEncoder ufe := p]> (<[PriceFetcher ufe := p]> m)).
Proof.
  intros Hu. assert (is_Some (mutableExchangeToConfigs pfmmc !! ex)) as [prev Hp]
    by (apply Hreg; by eexists).
  assert (is_Some (newConfigs !! ex)) as [memc Hn] by (apply Hdom; by eexists).
  unfold pre_step, changed, sendable. rewrite Hp, Hn.
  destruct (MutableExchangeMarketConfig_Equal prev memc) eqn:Eq; simpl.
  - left. split; [done|]. apply MutableExchangeMarketConfig_Equal_eq in Eq as ->. tauto.
  - assert (Some prev <> Some memc) as Hne.
    { intros [= ->]. assert (MutableExchangeMarketConfig_Equal memc memc = true)
        by by apply MutableExchangeMarketConfig_Equal_eq. congruence. }
    right. destruct (decide (set_Forall (fun m => is_Some (newMarkets !! m))
      (dom (marketsOnExchange memc)))) as [Hs|Hs].
    + assert (resolved memc newMarkets) as Hr.
      { intros m' Hm'. apply Hs, elem_of_dom. by apply elem_of_marketsOnExchange. }
      right. destruct (getUpdateParameters_resolved memc newMarkets Hr Hkeys) as (mcs & E & _).
      exists memc, (mkUpdateParameters memc mcs). rewrite E. simpl. done.
    + left. apply not_set_Forall_Exists in Hs as (m' & Hm' & Hnone); [|apply _].
      apply elem_of_dom, elem_of_marketsOnExchange in Hm'.
      apply eq_None_not_Some in Hnone.
      rewrite (getUpdateParameters_unresolved memc newMarkets m' Hm' Hnone).
      split_and!; [done|done|]. intros Hr. destruct (Hr memc eq_refl m' Hm').
      congruence.
Qed.

Lemma owner ex ufe u :
  mutableExchangeConfigUpdaters pfmmc !! ex = Some ufe ->
  PriceFetcher ufe = Some u \/ PriceEncoder ufe = Some u -> GetExchangeId u = ex.
Proof. intros (f & e & -> & _ & Hf & He)%Hreg [[= <-]|[= <-]]; done. Qed.

Lemma precompute_steps l :
  (forall e, e ∈ l -> mutableExchangeConfigUpdaters pfmmc !! e.1 = Some e.2) ->
  (exists M, foldM_go pre_step ∅ l = Ok M /\
     (forall e, e ∈ l -> changed e.1 -> sendable e.1) /\
     forall u p, M !! Some u = Some p <-> params_for l u p) \/
  (foldM_go pre_step ∅ l = Panic NilDereference /\
     exists e, e ∈ l /\ changed e.1 /\ ~ sendable e.1).
Proof.
  induction l as [|[ex ufe] l IH] using rev_ind; intros Hl.
  { left. exists ∅. split_and!; [done|by intros ? ?%not_elem_of_nil|].
    intros u p. rewrite lookup_empty. split; [done|].
    by intros (? & ? & ? & ?%not_elem_of_nil & _). }
  rewrite foldM_go_app. destruct IH as [(M & -> & Hs & HM)|(-> & e & He & Hc)].
  { intros e He. apply Hl, elem_of_app. by left. }
  2:{ right. split; [done|]. exists e. rewrite elem_of_app. auto. }
  simpl. pose proof Hl as Hall.
  specialize (Hl (ex, ufe) ltac:(apply elem_of_app; right; by left)). simpl in Hl.
  destruct (pre_step_cases M ex ufe Hl) as [[E Hn]|[(E & Hc & Hns)|(memc & p & Hc & Hm & Hr & Hp & E)]];
    rewrite E; simpl.
  - left. exists M. split_and!; [done| |].
    + intros e [He| ->%list_elem_of_singleton]%elem_of_app; [by apply Hs|done].
    + intros u p. rewrite HM. split; intros (ex' & ufe' & memc' & Hin & Hc & Hrest);
        exists ex', ufe', memc'; (split; [|done]).
      * apply elem_of_app. by left.
      * apply elem_of_app in Hin as [Hin|[= -> ->]%list_elem_of_singleton]; done.
  - right. split; [done|]. exists (ex, ufe). rewrite elem_of_app. split_and!; [right; by left|done..].
  - left. eexists; split_and!; [done| |].
    + intros e [He| ->%list_elem_of_singleton]%elem_of_app; [by apply Hs|].
      intros _ memc' Hm'. simpl in Hm'. assert (memc' = memc) as -> by congruence. done.
    + destruct (registered_pair _ Hreg _ _ Hl) as (f & e & -> & Hne & Hf & He). simpl.
      intros u q. assert (params_for (l ++ [(ex, mkUpdatersForExchange (Some f) (Some e))]) u q <->
        params_for l u q \/ ((f = u \/ e = u) /\ p = q)) as ->.
      { split.
        - intros (ex' & ufe' & memc' & Hin & Hc' & Hm' & Hu & Hq).
          apply elem_of_app in Hin as [Hin|[= -> ->]%list_elem_of_singleton].
          + left. by exists ex', ufe', memc'.
          + right. assert (memc' = memc) as -> by congruence.
            assert (q = p) as -> by congruence. simpl in Hu. naive_solver.
        - intros [(ex' & ufe' & memc' & Hin & Hrest)|[Hu <-]].
          + exists ex', ufe', memc'. rewrite elem_of_app. auto.
          + eexists ex, _, memc. split_and!; [apply elem_of_app; right; by left|done|done| |done].
            simpl. destruct Hu as [->| ->]; auto. }
      rewrite <- HM. destruct (decide (u = e)) as [->|Hue];
        [rewrite lookup_insert_eq|rewrite lookup_insert_ne by congruence;
          destruct (decide (u = f)) as [->|Huf];
          [rewrite lookup_insert_eq|rewrite lookup_insert_ne by congruence]].
      all: split; [naive_solver|].
      all: intros [Hq|[[?|?] ?]]; try congruence.
      all: apply HM in Hq as (ex' & ufe' & memc' & Hin & Hc' & Hm' & Hu & Hq).
      all: pose proof (owner ex' ufe' _ (Hall (ex', ufe') (proj2 (elem_of_app _ _ _) (or_introl Hin))) Hu).
      all: assert (ex' = ex) as -> by congruence; congruence.
Qed.
End Precompute.

Context {W : Type}.
Variable notify : Updater -> UpdateParameters -> W -> W * option go_error.

(** The calls made on the updaters, in order, on the world: the final world and
    the errors. *)
Definition run_calls (w : W) (calls : list (Updater * UpdateParameters)) : W * list go_error :=
  foldl (fun '(w, errs) '(u, p) =>
    let '(w', err) := notify u p w in
    (w', match err with Some err => errs ++ [err] | None => errs end)) (w, []) calls.

(** ** Broadcast *)
Definition call_to (M : gmap (option Updater) UpdateParameters) (u : option Updater)
    : list (Updater * UpdateParameters) :=
  match u, M !! u with
  | Some u, Some p => [(u, p)]
  | _, _ => []
  end.

(** The encoder's call, then the fetcher's. *)
Definition calls_at (M : gmap (option Updater) UpdateParameters)
    (e : ExchangeId * UpdatersForExchange Updater) : list (Updater * UpdateParameters) :=
  call_to M (PriceEncoder e.2) ++ call_to M (PriceFetcher e.2).

Definition tracks (s : W * list string) (r : W * list go_error) : Prop :=
  s.1 = r.1 /\ length s.2 = length r.2.

Lemma send_tracks M u what ex s w cs :
  tracks s (run_calls w cs) ->
  exists s', send notify M (Some u) what ex s = Ok s' /\
    tracks s' (run_calls w (cs ++ call_to M (Some u))).
Proof.
  intros [Hw He]. unfold send, call_to. destruct (M !! Some u) as [p|].
  - unfold run_calls in *. rewrite foldl_app. simpl.
    destruct (foldl _ (w, []) cs) as [w1 errs]. simpl in *. subst w1.
    destruct (notify u p s.1) as [w' [err|]]; eexists; split; try done; split; simpl; try done.
    rewrite !length_app. simpl. lia.
  - exists s. rewrite app_nil_r. done.
Qed.

Lemma broadcast_tracks M l s w cs :
  (forall e, e ∈ l -> pair_for e.1 e.2) -> tracks s (run_calls w cs) ->
  exists s', foldM_go (fun s '(exchangeId, updaters) =>
      s' ← send notify M (PriceEncoder updaters) "encoder" exchangeId s;
      send notify M (PriceFetcher updaters) "fetcher" exchangeId s') s l = Ok s' /\
    tracks s' (run_calls w (cs ++ (l ≫= calls_at M))).
Proof.
  revert s cs. induction l as [|[ex ufe] l IH]; intros s cs Hl Hs; simpl.
  { exists s. by rewrite app_nil_r. }
  destruct (Hl (ex, ufe) ltac:(left)) as (f & e & E & _ & _ & _). simpl in E. subst ufe. simpl.
  destruct (send_tracks M e "encoder" ex s w cs Hs) as (s1 & -> & Hs1). simpl.
  destruct (send_tracks M f "fetcher" ex s1 w _ Hs1) as (s2 & -> & Hs2). simpl.
  destruct (IH s2 _ ltac:(intros; apply Hl; by right) Hs2) as (s3 & -> & Hs3).
  exists s3. split; [done|]. unfold calls_at at 1. simpl. rewrite <- !app_assoc in Hs3. by rewrite <- !app_assoc.
Qed.

(** The calls of one exchange are its own block of the calls. *)
Lemma calls_of_exchange M l ex :
  NoDup l.*1 -> (forall e, e ∈ l -> pair_for e.1 e.2) ->
  (forall ufe, (ex, ufe) ∈ l ->
    filter (fun c => GetExchangeId c.1 = ex) (l ≫= calls_at M) = calls_at M (ex, ufe)).
Proof.
  assert (forall e, pair_for e.1 e.2 -> Forall (fun c => GetExchangeId c.1 = e.1) (calls_at M e))
    as Hown.
  { intros [ex' ufe'] (f & e & E & _ & Hf & He). simpl in *. subst ufe'.
    unfold calls_at, call_to. simpl.
    apply Forall_app; split.
    - destruct (M !! Some e); repeat constructor; done.
    - destruct (M !! Some f); repeat constructor; done. }
  assert (forall l', ex ∉ l'.*1 -> (forall e, e ∈ l' -> pair_for e.1 e.2) ->
    filter (fun c => GetExchangeId c.1 = ex) (l' ≫= calls_at M) = []) as Hnone.
  { intros l' Hn Hp. apply filter_none, Forall_bind, Forall_forall. intros e He.
    eapply Forall_impl; [by apply Hown, Hp|]. intros c Hc Hcx. apply Hn. rewrite <- Hcx, Hc.
    by apply list_elem_of_fmap_2. }
  induction l as [|e l IH]; intros Hnd Hp ufe Hin; [by apply not_elem_of_nil in Hin|].
  rewrite bind_cons, filter_app. rewrite fmap_cons in Hnd. apply NoDup_cons in Hnd as [Hn Hnd].
  apply elem_of_cons in Hin as [<-|Hin].
  - rewrite Hnone, app_nil_r; [|done|intros; apply Hp; by right].
    apply filter_all. apply (Hown (ex, ufe)), Hp. by left.
  - rewrite (IH Hnd (fun e' He' => Hp e' (list_elem_of_further _ _ _ He')) ufe Hin).
    enough (filter (fun c => GetExchangeId c.1 = ex) (calls_at M e) = []) as -> by done.
    apply filter_none. eapply Forall_impl; [apply Hown, Hp; by left|].
    intros c Hc Hcx. apply Hn. rewrite <- Hc, Hcx. by apply (list_elem_of_fmap_2 fst) in Hin.
Qed.
End UpdateSpec.

(** ** Properties *)
Section Properties.
Context `{RangeOrder}.
Variable unmarshal_object : string -> option go_error.
Variable unmarshal_config : string -> go_error + ExchangeConfigJsonT.
Context {Updater : Type} `{Countable Updater}.
Variable GetExchangeId : Updater -> ExchangeId.
Context {W : Type}.
Variable notify : Updater -> UpdateParameters -> W -> W * option go_error.

Abbreviation Pfmmc := (PricefeedMutableMarketConfigsImpl Updater).

(** the transformation of the market params. It fails exactly when a valid
    param repeats the id of an accepted one (none of its "unexpected internal
    errors" is reachable); otherwise params are applied independently: the
    accepted ones configure their market and the exchanges they name, with
    their ticker, inversion and adjustment market, every rejected one leaves
    an error under its id, and every exchange has a config under its own id. *)
Theorem ValidateAndTransformParams_correct (pfmmc : Pfmmc) (params : list MarketParam) :
  let exs := (range_of (mutableExchangeToConfigs pfmmc)).*1 in
  let names := marketNameToId params in
  match ValidateAndTransformParams unmarshal_object unmarshal_config pfmmc (Some params) with
  | Ok t => ~ duplicates unmarshal_object unmarshal_config exs names params /\
            transforms unmarshal_object unmarshal_config exs names params t
  | Err e => duplicates unmarshal_object unmarshal_config exs names params /\
             exists id : Z, e = ErrNew ("invalid market params: duplicate market id " +:+ pretty id)
  | Panic _ => False
  end.
Proof.
  intros exs names. unfold ValidateAndTransformParams. fold exs names.
  destruct (transform_params unmarshal_object unmarshal_config exs names _ params
    (initial_transforms unmarshal_object unmarshal_config pfmmc names)) as [(Hd & id & ->)|(Hnd & t & -> & Ht)].
  - split; [done|by exists id].
  - done.
Qed.

Lemma transforms_keys exs names l t m mmc :
  transforms unmarshal_object unmarshal_config exs names l t ->
  marketConfigs t !! m = Some mmc -> mmc_Id mmc = m /\ valid_MutableMarketConfig mmc.
Proof.
  intros Ht (p & _ & <- & Hs & ->)%(transforms_market _ _ _ _ _ _ Ht). split; [done|].
  apply accepts_valid in Hs. revert Hs. unfold MarketParam_Validate, valid_MutableMarketConfig. simpl.
  case_bool_decide; [done|]. case_match; [done|]. intros _. split; [done|lia].
Qed.

Lemma ValidateAndTransformParams_Ok_transforms (pfmmc : Pfmmc) params t :
  ValidateAndTransformParams unmarshal_object unmarshal_config pfmmc (Some params) = Ok t ->
  transforms unmarshal_object unmarshal_config (range_of (mutableExchangeToConfigs pfmmc)).*1
    (marketNameToId params) params t.
Proof.
  unfold ValidateAndTransformParams. intros Ht.
  destruct (transform_params unmarshal_object unmarshal_config _ (marketNameToId params) _ params
    (initial_transforms unmarshal_object unmarshal_config pfmmc (marketNameToId params)))
    as [(_ & id & E)|(_ & t' & E & Htr)]; rewrite E in Ht; congruence.
Qed.

Lemma transforms_dom (pfmmc : Pfmmc) names l t :
  transforms unmarshal_object unmarshal_config (range_of (mutableExchangeToConfigs pfmmc)).*1 names l t ->
  forall ex, is_Some (exchangeConfigs t !! ex) <-> is_Some (mutableExchangeToConfigs pfmmc !! ex).
Proof.
  intros Ht ex. rewrite <- (fmap_is_Some memc_Id), (transforms_ids _ _ _ _ _ _ Ht).
  assert (ex ∈ (range_of (mutableExchangeToConfigs pfmmc)).*1 <->
    is_Some (mutableExchangeToConfigs pfmmc !! ex)) as E.
  { rewrite list_elem_of_fmap. split.
    - intros ([ex' c] & -> & Hin%elem_of_range_of). by eexists.
    - intros [c Hc]. exists (ex, c). by rewrite elem_of_range_of. }
  rewrite <- E. case_bool_decide; split; done.
Qed.

Lemma check_updaters_registered (pfmmc : Pfmmc) configs :
  registered GetExchangeId pfmmc ->
  (forall ex, is_Some (configs !! ex) <-> is_Some (mutableExchangeToConfigs pfmmc !! ex)) ->
  check_updaters pfmmc configs = Ok tt.
Proof.
  intros Hreg Hdom. apply forM_go_Ok, Forall_forall. intros [ex memc] Hin%elem_of_range_of.
  destruct (proj1 (Hdom ex)) as [prev Hp]; [by eexists|]. simpl. rewrite Hp.
  destruct (proj2 (registered_dom _ _ Hreg ex)) as [ufe Hu]; [apply Hdom; by eexists|].
  rewrite Hu. by destruct (registered_pair _ _ Hreg _ _ Hu) as (f & e & -> & _).
Qed.

(** The call of [UpdateMarkets] on a fully registered service, by cases. *)
Lemma UpdateMarkets_cases (pfmmc : Pfmmc) (w : W) (params : list MarketParam) t :
  updatersInitialized pfmmc = 0 -> registered GetExchangeId pfmmc ->
  ValidateAndTransformParams unmarshal_object unmarshal_config pfmmc (Some params) = Ok t ->
  let affected ex := changed pfmmc (exchangeConfigs t) ex in
  let ok ex := sendable (exchangeConfigs t) (marketConfigs t) ex in
  (exists M r, (forall e, e ∈ range_of (mutableExchangeConfigUpdaters pfmmc) ->
       affected e.1 -> ok e.1) /\
     (forall u p, M !! Some u = Some p <->
       params_for pfmmc (exchangeConfigs t) (marketConfigs t)
         (range_of (mutableExchangeConfigUpdaters pfmmc)) u p) /\
     UpdateMarkets unmarshal_object unmarshal_config notify pfmmc w (Some params) = Some (Ok r) /\
     ur_pfmmc r = mkPfmmc (exchangeConfigs t) (marketConfigs t)
                    (mutableExchangeConfigUpdaters pfmmc) 0 /\
     ur_paramErrors r = marketParamErrors t /\
     let calls := range_of (mutableExchangeConfigUpdaters pfmmc) ≫= calls_at M in
     ur_world r = (run_calls notify w calls).1 /\
     (ur_err r = None <-> (run_calls notify w calls).2 = [])) \/
  (UpdateMarkets unmarshal_object unmarshal_config notify pfmmc w (Some params) =
     Some (Panic NilDereference) /\
   exists ex, affected ex /\ ~ ok ex).
Proof.
  intros Hwg Hreg Ht. cbn zeta.
  pose proof (ValidateAndTransformParams_Ok_transforms pfmmc params t Ht) as Htr.
  pose proof (transforms_dom pfmmc _ _ _ Htr) as Hdom.
  assert (forall e, e ∈ range_of (mutableExchangeConfigUpdaters pfmmc) ->
    mutableExchangeConfigUpdaters pfmmc !! e.1 = Some e.2) as Hl
    by (intros []; apply elem_of_range_of).
  unfold UpdateMarkets. rewrite Hwg, Ht, (check_updaters_registered pfmmc _ Hreg Hdom).
  simpl.
  assert (precompute pfmmc (exchangeConfigs t) (marketConfigs t) =
    foldM_go (pre_step pfmmc (exchangeConfigs t) (marketConfigs t)) ∅
      (range_of (mutableExchangeConfigUpdaters pfmmc))) as Ep by done.
  rewrite Ep.
  destruct (precompute_steps GetExchangeId pfmmc (exchangeConfigs t) (marketConfigs t) Hreg Hdom
    (fun m mmc E => proj1 (transforms_keys _ _ _ _ _ _ Htr E)) _ Hl)
    as [(M & -> & Hok & HM)|(-> & e & He & Hch & Hns)]; simpl; [left|right].
  - unfold broadcast. simpl.
    destruct (broadcast_tracks GetExchangeId notify M
      (range_of (mutableExchangeConfigUpdaters pfmmc)) (w, []) w []) as ([w' errs] & -> & Hw & He).
    { intros e He. by apply (registered_pair _ _ Hreg), Hl. }
    { done. }
    simpl in *. eexists M, _. split_and!; [done|done|done|done|done|done|].
    simpl. destruct errs, (run_calls notify w _).2; simpl in *; split; try done; lia.
  - split; [done|]. by exists e.1.
Qed.

(** The block of one exchange, by whether its config changed. *)
Lemma calls_at_exchange (pfmmc : Pfmmc) t params M ex f e memc :
  registered GetExchangeId pfmmc ->
  ValidateAndTransformParams unmarshal_object unmarshal_config pfmmc (Some params) = Ok t ->
  (forall u p, M !! Some u = Some p <->
     params_for pfmmc (exchangeConfigs t) (marketConfigs t)
       (range_of (mutableExchangeConfigUpdaters pfmmc)) u p) ->
  (changed pfmmc (exchangeConfigs t) ex -> resolved memc (marketConfigs t)) ->
  mutableExchangeConfigUpdaters pfmmc !! ex = Some (mkUpdatersForExchange (Some f) (Some e)) ->
  exchangeConfigs t !! ex = Some memc ->
  let mine := calls_at M (ex, mkUpdatersForExchange (Some f) (Some e)) in
  (mutableExchangeToConfigs pfmmc !! ex = Some memc -> mine = []) /\
  (mutableExchangeToConfigs pfmmc !! ex <> Some memc ->
   exists mcs, mine = [(e, mkUpdateParameters memc mcs); (f, mkUpdateParameters memc mcs)] /\
     StronglySorted le_Id mcs /\
     MutableExchangeMarketConfig_Validate memc mcs = Ok tt).
Proof.
  intros Hreg Ht HM Hres Hufe Hmemc. cbn zeta.
  pose proof (ValidateAndTransformParams_Ok_transforms pfmmc params t Ht) as Htr.
  assert (forall u p, (u = f \/ u = e) -> M !! Some u = Some p ->
    changed pfmmc (exchangeConfigs t) ex /\
    getUpdateParametersForExchange memc (marketConfigs t) = Ok p) as Honly.
  { intros u p Hu (ex' & ufe & memc' & Hin%elem_of_range_of & Hch & Hm & Hu' & Hp)%HM.
    pose proof (owner GetExchangeId pfmmc Hreg _ _ _ Hin Hu') as <-.
    pose proof (owner GetExchangeId pfmmc Hreg _ _ u Hufe
      ltac:(destruct Hu as [->| ->]; simpl; auto)) as Eu.
    rewrite Eu in *. assert (memc' = memc) as -> by congruence. done. }
  unfold calls_at, call_to. simpl. split.
  - intros Hsame. assert (~ changed pfmmc (exchangeConfigs t) ex) as Hnc
      by (unfold changed; rewrite Hsame, Hmemc; tauto).
    destruct (M !! Some e) as [p|] eqn:Ee; [destruct (Honly e p); auto; done|].
    destruct (M !! Some f) as [p|] eqn:Ef; [destruct (Honly f p); auto; done|]. done.
  - intros Hne. assert (changed pfmmc (exchangeConfigs t) ex) as Hch
      by (unfold changed; by rewrite Hmemc).
    pose proof (fun m mmc E => proj1 (transforms_keys _ _ _ _ m mmc Htr E)) as Hkeys.
    destruct (getUpdateParameters_resolved memc (marketConfigs t) (Hres Hch) Hkeys)
      as (mcs & E & Hs & Hnd & Hin).
    assert (forall u, (u = f \/ u = e) -> M !! Some u = Some (mkUpdateParameters memc mcs)) as HMu.
    { intros u Hu. apply HM. eexists ex, _, memc. split_and!; [by apply elem_of_range_of| | | |];
        try done. simpl. destruct Hu as [->| ->]; auto. }
    rewrite !HMu by auto. exists mcs. split_and!; [done|done|].
    apply (update_parameters_valid memc (marketConfigs t)); auto.
    intros m mmc Em. by apply (transforms_keys _ _ _ _ m mmc Htr).
Qed.

(** C4: [UpdateMarkets], once every updater is registered. When the params have
    no duplicate and no changed exchange adjusts a price by a market without
    config, it swaps in the transformed configs, returns the errors of the
    rejected params, and calls exactly the updaters of the exchanges whose
    config changed, the encoder and then the fetcher, both with the new config
    and the sorted configs of the markets it needs, which pass the validation
    the updaters apply. It errs exactly when one of these calls does. *)
Theorem UpdateMarkets_correct (pfmmc : Pfmmc) (w : W) (params : list MarketParam) t :
  updatersInitialized pfmmc = 0 -> registered GetExchangeId pfmmc ->
  ValidateAndTransformParams unmarshal_object unmarshal_config pfmmc (Some params) = Ok t ->
  (forall ex memc, exchangeConfigs t !! ex = Some memc -> changed pfmmc (exchangeConfigs t) ex ->
     resolved memc (marketConfigs t)) ->
  exists calls r,
    UpdateMarkets unmarshal_object unmarshal_config notify pfmmc w (Some params) = Some (Ok r) /\
    ur_pfmmc r = mkPfmmc (exchangeConfigs t) (marketConfigs t)
                   (mutableExchangeConfigUpdaters pfmmc) 0 /\
    ur_paramErrors r = marketParamErrors t /\
    ur_world r = (run_calls notify w calls).1 /\
    (ur_err r = None <-> (run_calls notify w calls).2 = []) /\
    forall ex f e memc,
      mutableExchangeConfigUpdaters pfmmc !! ex = Some (mkUpdatersForExchange (Some f) (Some e)) ->
      exchangeConfigs t !! ex = Some memc ->
      let mine := filter (fun c => GetExchangeId c.1 = ex) calls in
      (mutableExchangeToConfigs pfmmc !! ex = Some memc -> mine = []) /\
      (mutableExchangeToConfigs pfmmc !! ex <> Some memc ->
       exists mcs, mine = [(e, mkUpdateParameters memc mcs); (f, mkUpdateParameters memc mcs)] /\
         StronglySorted le_Id mcs /\
         MutableExchangeMarketConfig_Validate memc mcs = Ok tt).
Proof.
  intros Hwg Hreg Ht Hres.
  destruct (UpdateMarkets_cases pfmmc w params t Hwg Hreg Ht)
    as [(M & r & Hok & HM & Hu & Hp & Hpe & Hw & He)|(_ & ex & Hch & Hns)].
  2:{ destruct Hns. intros memc Hm. by apply (Hres ex). }
  exists (range_of (mutableExchangeConfigUpdaters pfmmc) ≫= calls_at M), r.
  split_and!; [done..|]. intros ex f e memc Hufe Hmemc. cbn zeta.
  rewrite (calls_of_exchange GetExchangeId M _ ex (range_of_NoDup_keys _)
    (fun e' He' => registered_pair _ _ Hreg e'.1 e'.2 ltac:(destruct e'; by apply elem_of_range_of))
    (mkUpdatersForExchange (Some f) (Some e))) by by apply elem_of_range_of.
  apply (calls_at_exchange pfmmc t params M); auto.
  intros Hch. by apply (Hres ex).
Qed.

(** [UpdateMarkets] dereferences a nil market config, under no lock and
    outside any recovery, exactly when some changed exchange has a market, or a
    market it adjusts by, that has no config: this happens when a valid param
    adjusts by a market whose own param was rejected, although the params are
    meant to be applied independently. *)
Theorem UpdateMarkets_panics_iff (pfmmc : Pfmmc) (w : W) (params : list MarketParam) t :
  updatersInitialized pfmmc = 0 -> registered GetExchangeId pfmmc ->
  ValidateAndTransformParams unmarshal_object unmarshal_config pfmmc (Some params) = Ok t ->
  UpdateMarkets unmarshal_object unmarshal_config notify pfmmc w (Some params) =
    Some (Panic NilDereference) <->
  exists ex memc, exchangeConfigs t !! ex = Some memc /\
    mutableExchangeToConfigs pfmmc !! ex <> Some memc /\ ~ resolved memc (marketConfigs t).
Proof.
  intros Hwg Hreg Ht.
  pose proof (ValidateAndTransformParams_Ok_transforms pfmmc params t Ht) as Htr.
  pose proof (transforms_dom pfmmc _ _ _ Htr) as Hdom.
  destruct (UpdateMarkets_cases pfmmc w params t Hwg Hreg Ht)
    as [(M & r & Hok & _ & Hu & _)|(Hu & ex & Hch & Hns)]; rewrite Hu; split; try done.
  - intros (ex & memc & Hm & Hne & Hnr). destruct Hnr.
    destruct (proj2 (registered_dom _ _ Hreg ex)) as [ufe Hufe]; [apply Hdom; by eexists|].
    apply (Hok (ex, ufe)); [by apply elem_of_range_of| |done].
    unfold changed. simpl. by rewrite Hm.
  - intros _. destruct (exchangeConfigs t !! ex) as [memc|] eqn:Em.
    + exists ex, memc. split_and!; [done| |].
      * unfold changed in Hch. by rewrite <- Em.
      * intros Hr. apply Hns. intros memc' E. assert (memc' = memc) as -> by congruence. done.
    + destruct Hns. intros memc E. congruence.
Qed.

(** an exchange is only notified when its own config differs. When the new
    params change no exchange config, nothing is sent, whatever they change in
    the market configs (exponents, numbers of exchanges) that the encoders and
    fetchers were given a copy of. *)
Theorem unchanged_exchanges_not_notified (pfmmc : Pfmmc) (w : W) (params : list MarketParam) t :
  updatersInitialized pfmmc = 0 -> registered GetExchangeId pfmmc ->
  ValidateAndTransformParams unmarshal_object unmarshal_config pfmmc (Some params) = Ok t ->
  exchangeConfigs t = mutableExchangeToConfigs pfmmc ->
  exists r, UpdateMarkets unmarshal_object unmarshal_config notify pfmmc w (Some params) = Some (Ok r) /\
    ur_world r = w /\ ur_err r = None /\
    mutableMarketToConfigs (ur_pfmmc r) = marketConfigs t.
Proof.
  intros Hwg Hreg Ht Hsame.
  assert (forall ex, ~ changed pfmmc (exchangeConfigs t) ex) as Hnc
    by (intros ex; unfold changed; rewrite Hsame; tauto).
  destruct (UpdateMarkets_cases pfmmc w params t Hwg Hreg Ht)
    as [(M & r & Hok & HM & Hu & Hp & Hpe & Hw & He)|(_ & ex & Hch & _)]; [|by destruct (Hnc ex)].
  assert (forall u, M !! Some u = None) as HM'.
  { intros u. apply eq_None_not_Some. intros [p (ex & ufe & memc & _ & Hch & _)%HM].
    by apply (Hnc ex). }
  assert (forall l, l ≫= calls_at M = []) as Hnil.
  { induction l as [|[ex [f e]] l IH]; [done|]. rewrite bind_cons, IH, app_nil_r.
    unfold calls_at, call_to. simpl. destruct e as [e|], f as [f|]; rewrite ?HM'; done. }
  rewrite Hnil in Hw, He. exists r. split_and!; [done|done|by apply He|by rewrite Hp].
Qed.
End Properties.

(** ** Registration *)
Section Registration.
Context `{RangeOrder}.
Context {Updater : Type} `{Countable Updater}.
Variable GetExchangeId : Updater -> ExchangeId.

Abbreviation Pfmmc := (PricefeedMutableMarketConfigsImpl Updater).


(** The fetcher ([true]) or encoder ([false]) that a list of additions gives to
    an exchange. *)
Definition slot (adds : list (Updater * bool)) (ex : ExchangeId) (b : bool) : option Updater :=
  head (filter (fun a => GetExchangeId a.1 = ex /\ a.2 = b) adds).*1.

Definition add (pfmmc : Pfmmc) (a : Updater * bool) : go Pfmmc :=
  if a.2 then AddPriceFetcher GetExchangeId pfmmc a.1 else AddPriceEncoder GetExchangeId pfmmc a.1.

Lemma slot_snoc adds a ex b :
  slot (adds ++ [a]) ex b =
    match slot adds ex b with
    | Some u => Some u
    | None => if bool_decide (GetExchangeId a.1 = ex /\ a.2 = b) then Some a.1 else None
    end.
Proof.
  unfold slot. rewrite filter_app, fmap_app, head_app.
  destruct (head (filter _ adds).*1); [done|]. rewrite (filter_singleton _ a []).
  case_bool_decide; case_decide; done.
Qed.

(** The additions so far give every exchange its slots. *)
Definition added (exchanges : gmap ExchangeId MutableExchangeMarketConfig) (total : Z)
    (adds : list (Updater * bool)) (pfmmc : Pfmmc) : Prop :=
  mutableExchangeToConfigs pfmmc = exchanges /\
  updatersInitialized pfmmc = total - Z.of_nat (length adds) /\
  forall ex, default (mkUpdatersForExchange None None) (mutableExchangeConfigUpdaters pfmmc !! ex) =
    mkUpdatersForExchange (slot adds ex true) (slot adds ex false) /\
    (is_Some (mutableExchangeConfigUpdaters pfmmc !! ex) <-> ex ∈ GetExchangeId ∘ fst <$> adds).

Lemma add_Ok exchanges total adds pfmmc a :
  added exchanges total adds pfmmc -> Z.of_nat (length adds) < total ->
  slot adds (GetExchangeId a.1) a.2 = None ->
  exists pfmmc', add pfmmc a = Ok pfmmc' /\ added exchanges total (adds ++ [a]) pfmmc'.
Proof.
  intros (Hex & Hwg & Hs) Hlt Hnone. destruct a as [u b]. simpl in *.
  assert (add pfmmc (u, b) = Ok (mkPfmmc (mutableExchangeToConfigs pfmmc)
      (mutableMarketToConfigs pfmmc)
      (<[GetExchangeId u := mkUpdatersForExchange
           (if b then Some u else slot adds (GetExchangeId u) true)
           (if b then slot adds (GetExchangeId u) false else Some u)]>
         (mutableExchangeConfigUpdaters pfmmc)) (updatersInitialized pfmmc - 1))) as E.
  { unfold add, AddPriceFetcher, AddPriceEncoder, addExchangeConfigUpdater. cbn [fst snd].
    destruct (Hs (GetExchangeId u)) as [-> _].
    destruct b; simpl; rewrite Hnone; simpl;
      (destruct (Z.ltb_spec (updatersInitialized pfmmc - 1) 0); [lia|done]). }
  eexists; split; [exact E|]. split_and!; simpl; [done|rewrite length_app; simpl; lia|].
  intros ex. rewrite !slot_snoc, fmap_app, elem_of_app. simpl. rewrite list_elem_of_singleton.
  destruct (Hs ex) as [Hd Hi]. destruct (decide (ex = GetExchangeId u)) as [->|Hne].
  - rewrite lookup_insert_eq. simpl. split; [|split; [by right|by eexists]].
    destruct b; rewrite Hnone; f_equal; try (by rewrite bool_decide_true by done);
      match goal with |- ?s = match ?s with _ => _ end => destruct s end; try done.
    all: by rewrite bool_decide_false by (intros [_ ?]; done).
  - rewrite lookup_insert_ne, Hd, !bool_decide_false by naive_solver. split.
    + f_equal; [by destruct (slot adds ex true)|by destruct (slot adds ex false)].
    + rewrite Hi. naive_solver.
Qed.

Definition slot_key (a : Updater * bool) : ExchangeId * bool := (GetExchangeId a.1, a.2).
Definition all_slots (ids : list ExchangeId) : list (ExchangeId * bool) :=
  ids ≫= fun ex => [(ex, true); (ex, false)].

Lemma slot_Some adds ex b u : slot adds ex b = Some u -> (u, b) ∈ adds /\ GetExchangeId u = ex.
Proof.
  unfold slot. intros Hh. assert (u ∈ (filter (fun a => GetExchangeId a.1 = ex /\ a.2 = b) adds).*1)
    as Hin by (destruct (filter _ adds).*1; simplify_eq/=; by left).
  apply list_elem_of_fmap in Hin as ([u' b'] & -> & Hin).
  apply list_elem_of_filter in Hin as [[Hu Hb] Hin]. simpl in *. by subst.
Qed.

Lemma slot_None adds ex b : slot adds ex b = None <-> (ex, b) ∉ slot_key <$> adds.
Proof.
  unfold slot. split.
  - intros Hh Hin. apply list_elem_of_fmap in Hin as ([u b'] & [= -> ->] & Hin).
    assert ((u, b') ∈ filter (fun a => GetExchangeId a.1 = GetExchangeId u /\ a.2 = b') adds) as Hf
      by by apply list_elem_of_filter.
    destruct (filter _ adds); [by apply not_elem_of_nil in Hf|done].
  - intros Hn. rewrite filter_none; [done|]. apply Forall_forall. intros [u b'] Hin [Hu Hb].
    apply Hn. simpl in *. subst. by apply (list_elem_of_fmap_2 slot_key) in Hin.
Qed.

Lemma all_slots_length ids : length (all_slots ids) = (2 * length ids)%nat.
Proof. unfold all_slots. induction ids; [done|]. rewrite bind_cons, length_app. simpl in *. lia. Qed.

Lemma elem_of_all_slots ids ex b : (ex, b) ∈ all_slots ids <-> ex ∈ ids.
Proof.
  unfold all_slots. rewrite list_elem_of_bind. split.
  - intros (ex' & Hin & He). by apply elem_of_cons in Hin as [[= -> _]|[[= -> _]|[]%not_elem_of_nil]%elem_of_cons].
  - intros He. exists ex. split; [|done]. destruct b; [left|right; left].
Qed.

Lemma all_slots_NoDup ids : NoDup ids -> NoDup (all_slots ids).
Proof.
  induction 1 as [|ex ids Hn Hnd IH]; [constructor|]. unfold all_slots in *.
  rewrite bind_cons. simpl. repeat constructor.
  - intros [[=]|Hin]%elem_of_cons. by apply (elem_of_all_slots ids ex true) in Hin.
  - intros Hin. by apply (elem_of_all_slots ids ex false) in Hin.
  - done.
Qed.

Lemma New_exchanges (ids : list ExchangeId) ex :
  foldl (fun m exchangeId => <[exchangeId := empty_exchange_config exchangeId]> m)
    (∅ : gmap ExchangeId MutableExchangeMarketConfig) ids !! ex =
  if bool_decide (ex ∈ ids) then Some (empty_exchange_config ex) else None.
Proof.
  induction ids as [|id ids IH] using rev_ind; simpl; [by rewrite lookup_empty|].
  rewrite foldl_app. simpl. destruct (decide (ex = id)) as [->|Hne].
  - rewrite lookup_insert_eq, bool_decide_true; [done|]. apply elem_of_app. right. by left.
  - rewrite lookup_insert_ne, IH by done. apply bool_decide_ext_if. 
    rewrite elem_of_app, list_elem_of_singleton. naive_solver.
Qed.

(** The additions of a prefix. *)
Lemma adds_prefix (ids : list ExchangeId) (l1 l2 : list (Updater * bool)) :
  NoDup ids -> slot_key <$> l1 ++ l2 ≡ₚ all_slots ids ->
  exists pfmmc, foldM_go add (NewPriceFeedMutableMarketConfigs ids) l1 = Ok pfmmc /\
    added (mutableExchangeToConfigs (Updater := Updater) (NewPriceFeedMutableMarketConfigs ids))
      (2 * Z.of_nat (length ids)) l1 pfmmc.
Proof.
  intros Hnd. revert l2. induction l1 as [|a l1 IH] using rev_ind; intros l2 Hp.
  { eexists; split; [done|]. split_and!; simpl; [done|unfold expectedUpdatersPerExchange; lia|].
    intros ex. rewrite lookup_empty. split; [done|]. split; [by intros []|by intros ?%not_elem_of_nil]. }
  rewrite <- app_assoc in Hp. destruct (IH _ Hp) as (pfmmc & Hf & Ha).
  pose proof (Permutation_length Hp) as Hlen. rewrite length_fmap, length_app, all_slots_length in Hlen.
  simpl in Hlen.
  destruct (add_Ok _ _ l1 pfmmc a Ha) as (pfmmc' & E & Ha').
  - lia.
  - apply slot_None. assert (NoDup (slot_key <$> l1 ++ [a] ++ l2)) as Hnk
      by (rewrite Hp; by apply all_slots_NoDup).
    rewrite fmap_app in Hnk. apply NoDup_app in Hnk as (_ & Hx & _). intros Hin.
    apply (Hx _ Hin). rewrite fmap_app. apply elem_of_app. left. by left.
  - exists pfmmc'. rewrite foldM_go_app, Hf. simpl. rewrite E. done.
Qed.

Lemma registration_done (ids : list ExchangeId) (adds : list (Updater * bool)) :
  NoDup ids -> NoDup adds.*1 -> slot_key <$> adds ≡ₚ all_slots ids ->
  exists pfmmc, foldM_go add (NewPriceFeedMutableMarketConfigs ids) adds = Ok pfmmc /\
     updatersInitialized pfmmc = 0 /\ registered GetExchangeId pfmmc /\
     forall ex, mutableExchangeToConfigs pfmmc !! ex =
       if bool_decide (ex ∈ ids) then Some (empty_exchange_config ex) else None.
Proof.
  intros Hnd Hobj Hp.
  destruct (adds_prefix ids adds [] Hnd) as (pfmmc & Hf & Hex & Hwg & Hs); [by rewrite app_nil_r|].
  pose proof (Permutation_length Hp) as Hlen. rewrite length_fmap, all_slots_length in Hlen.
  assert (forall ex, mutableExchangeToConfigs pfmmc !! ex =
    if bool_decide (ex ∈ ids) then Some (empty_exchange_config ex) else None) as Hc
    by (intros ex; rewrite Hex; apply New_exchanges).
  assert (forall ex, ex ∈ ids <-> ex ∈ GetExchangeId ∘ fst <$> adds) as Hids.
  { intros ex. rewrite <- (elem_of_all_slots ids ex true), <- Hp.
    assert (GetExchangeId ∘ fst <$> adds = (slot_key <$> adds).*1) as -> by by rewrite <- list_fmap_compose.
    rewrite (list_elem_of_fmap fst). split; [intros Hin; by exists (ex, true)|].
    intros ([ex' b] & -> & Hin). rewrite Hp in Hin |- *. by rewrite elem_of_all_slots in *. }
  exists pfmmc. split_and!; [done|lia| |done]. split.
  + intros ex. destruct (Hs ex) as [_ ->]. rewrite Hc, <- Hids. case_bool_decide; split; done.
  + intros ex ufe Hufe. destruct (Hs ex) as [Hd Hi]. rewrite Hufe in Hd. simpl in Hd.
    assert (ex ∈ ids) as Hin by (apply Hids, Hi; by eexists).
    assert (forall b, exists u, slot adds ex b = Some u) as Hu.
    { intros b. destruct (slot adds ex b) as [u|] eqn:E; [by exists u|].
      apply slot_None in E. destruct E. rewrite Hp. by apply elem_of_all_slots. }
    destruct (Hu true) as [f Hf'], (Hu false) as [e He]. rewrite Hf', He in Hd.
    apply slot_Some in Hf' as [Hfin Hfid], He as [Hein Heid].
    exists f, e. split_and!; [done| |done|done]. intros ->.
    apply list_elem_of_lookup in Hfin as [i Hi'], Hein as [j Hj].
    assert (i = j) as -> by (eapply (NoDup_lookup _ i j e Hobj); rewrite list_lookup_fmap;
      [by rewrite Hi'|by rewrite Hj]). congruence.
Qed.

End Registration.

Section RegistrationProperties.
Context `{RangeOrder}.
Variable unmarshal_object : string -> option go_error.
Variable unmarshal_config : string -> go_error + ExchangeConfigJsonT.
Context {Updater : Type} `{Countable Updater}.
Variable GetExchangeId : Updater -> ExchangeId.
Context {W : Type}.
Variable notify : Updater -> UpdateParameters -> W -> W * option go_error.

Abbreviation Pfmmc := (PricefeedMutableMarketConfigsImpl Updater).

(** registration. When every exchange's fetcher and encoder, all different
    objects, are added once, in any order, no addition panics, the wait group
    ends at zero with both updaters of each exchange in place and its config
    empty; and [UpdateMarkets] blocks until the last of them is added. *)
Theorem registration_complete (ids : list ExchangeId) (adds : list (Updater * bool)) :
  NoDup ids -> NoDup adds.*1 -> slot_key GetExchangeId <$> adds ≡ₚ all_slots ids ->
  (exists pfmmc, foldM_go (add GetExchangeId) (NewPriceFeedMutableMarketConfigs ids) adds = Ok pfmmc /\
     updatersInitialized pfmmc = 0 /\ registered GetExchangeId pfmmc /\
     forall ex, mutableExchangeToConfigs pfmmc !! ex =
       if bool_decide (ex ∈ ids) then Some (empty_exchange_config ex) else None) /\
  forall l1 l2, adds = l1 ++ l2 -> l2 <> [] ->
    exists pfmmc, foldM_go (add GetExchangeId) (NewPriceFeedMutableMarketConfigs ids) l1 = Ok pfmmc /\
      forall w params, UpdateMarkets unmarshal_object unmarshal_config notify pfmmc w params = None.
Proof.
  intros Hnd Hobj Hp. split; [by apply registration_done|].
  intros l1 l2 -> Hl2. destruct (adds_prefix GetExchangeId ids l1 l2 Hnd Hp) as (pfmmc & Hf & _ & Hwg & _).
  exists pfmmc. split; [done|]. intros w params. unfold UpdateMarkets.
  pose proof (Permutation_length Hp) as Hlen.
  rewrite length_fmap, length_app, all_slots_length in Hlen.
  destruct l2; [done|]. simpl in Hlen.
  destruct (Z.eqb_spec (updatersInitialized pfmmc) 0); [lia|done].
Qed.

End RegistrationProperties.

(** ** A concrete service: one exchange, two markets, updaters that record their
    calls *)
Definition ex_unmarshal_object (s : string) : option go_error := None.
Definition ex_unmarshal_config (s : string) : go_error + ExchangeConfigJsonT :=
  if bool_decide (s = "btc") then
    inr (mkExchangeConfigJson [mkExchangeMarketConfigJson "Binance" "BTCUSDT" "USDT-USD" false])
  else if bool_decide (s = "usdt") then
    inr (mkExchangeConfigJson [mkExchangeMarketConfigJson "Binance" "USDTUSD" "" true])
  else inl (ErrNew "unexpected end of JSON input").
Notation ex_updater := (string * bool)%type (only parsing).
Definition ex_notify (u : ex_updater) (p : UpdateParameters) (w : list (ex_updater * UpdateParameters))
    : list (ex_updater * UpdateParameters) * option go_error := (w ++ [(u, p)], None).
Definition ex_adds : list (ex_updater * bool) :=
  [(("Binance", false), false); (("Binance", true), true)].
Definition ex_service : PricefeedMutableMarketConfigsImpl ex_updater :=
  match foldM_go (add fst) (NewPriceFeedMutableMarketConfigs ["Binance"]) ex_adds with
  | Ok p => p
  | _ => NewPriceFeedMutableMarketConfigs []
  end.
Definition ex_param (id : Z) (pair json : string) (exponent minExchanges : Z) : MarketParam :=
  mkMarketParam id pair exponent minExchanges 50 json "00ff".
Definition ex_params (usdt_min usdt_exponent : Z) : list MarketParam :=
  [ex_param 0 "BTC-USD" "btc" (-5) 1; ex_param 5 "USDT-USD" "usdt" usdt_exponent usdt_min].
Definition ex_transformed (service : PricefeedMutableMarketConfigsImpl ex_updater)
    (params : list MarketParam) : transformed :=
  match ValidateAndTransformParams ex_unmarshal_object ex_unmarshal_config service (Some params) with
  | Ok t => t
  | _ => mkTransformed ∅ ∅ ∅
  end.
Definition ex_update (service : PricefeedMutableMarketConfigsImpl ex_updater) (params : list MarketParam) :=
  UpdateMarkets ex_unmarshal_object ex_unmarshal_config ex_notify service [] (Some params).
Definition ex_configured : PricefeedMutableMarketConfigsImpl ex_updater :=
  match ex_update ex_service (ex_params 1 (-6)) with
  | Some (Ok r) => ur_pfmmc r
  | _ => ex_service
  end.

Lemma resolved_decide `{RangeOrder} memc mm :
  bool_decide (set_Forall (fun m => is_Some (mm !! m)) (dom (marketsOnExchange memc))) = true <->
  resolved memc mm.
Proof.
  rewrite bool_decide_eq_true. unfold resolved. split.
  - intros Hs m Hm. apply Hs, elem_of_dom. by apply elem_of_marketsOnExchange.
  - intros Hr m Hm. apply Hr. by apply elem_of_marketsOnExchange, elem_of_dom.
Qed.

Lemma ex_registered (s : PricefeedMutableMarketConfigsImpl ex_updater) memc :
  mutableExchangeConfigUpdaters s =
    {["Binance" := mkUpdatersForExchange (Some ("Binance", true)) (Some ("Binance", false))]} ->
  mutableExchangeToConfigs s = {["Binance" := memc]} ->
  registered fst s.
Proof.
  intros Eu Ec. split.
  - intros ex. rewrite Eu, Ec. rewrite !lookup_singleton. by case_decide; split.
  - intros ex ufe. rewrite Eu. intros [<- <-]%lookup_singleton_Some.
    by exists ("Binance", true), ("Binance", false).
Qed.

Lemma registration_complete_witness :
  (exists pfmmc, foldM_go (add fst) (NewPriceFeedMutableMarketConfigs ["Binance"]) ex_adds = Ok pfmmc /\
     updatersInitialized pfmmc = 0 /\ registered fst pfmmc /\
     forall ex, mutableExchangeToConfigs pfmmc !! ex =
       if bool_decide (ex ∈ ["Binance"]) then Some (empty_exchange_config ex) else None) /\
  forall l1 l2, ex_adds = l1 ++ l2 -> l2 <> [] ->
    exists pfmmc, foldM_go (add fst) (NewPriceFeedMutableMarketConfigs ["Binance"]) l1 = Ok pfmmc /\
      forall w params, UpdateMarkets ex_unmarshal_object ex_unmarshal_config ex_notify pfmmc w params
        = None.
Proof.
  apply (registration_complete ex_unmarshal_object ex_unmarshal_config fst ex_notify
    ["Binance"] ex_adds).
  - apply (bool_decide_unpack _). vm_compute. exact I.
  - apply (bool_decide_unpack _). vm_compute. exact I.
  - vm_compute. apply perm_swap.
Defined.

Lemma UpdateMarkets_correct_witness :
  exists calls r, ex_update ex_service (ex_params 1 (-6)) = Some (Ok r) /\
    ur_world r = (run_calls ex_notify [] calls).1 /\ ur_err r = None.
Proof.
  destruct (UpdateMarkets_correct ex_unmarshal_object ex_unmarshal_config fst ex_notify
    ex_service [] (ex_params 1 (-6)) (ex_transformed ex_service (ex_params 1 (-6))))
    as (calls & r & Hu & _ & _ & Hw & _).
  - reflexivity.
  - apply (ex_registered _ (empty_exchange_config "Binance")); reflexivity.
  - reflexivity.
  - intros ex memc Hm _. apply resolved_decide. revert ex memc Hm.
    change (map_Forall (fun (ex : string) memc => bool_decide (set_Forall (fun m =>
      is_Some (marketConfigs (ex_transformed ex_service (ex_params 1 (-6))) !! m))
      (dom (marketsOnExchange memc))) = true)
      (exchangeConfigs (ex_transformed ex_service (ex_params 1 (-6))))).
    apply (bool_decide_unpack _). vm_compute. exact I.
  - exists calls, r. split; [exact Hu|]. split; [exact Hw|].
    assert (ex_update ex_service (ex_params 1 (-6)) = Some (Ok r)) as E by exact Hu.
    vm_compute in E. injection E as <-. reflexivity.
Defined.

Lemma UpdateMarkets_panics_iff_witness :
  ex_update ex_service (ex_params 0 (-6)) = Some (Panic NilDereference).
Proof.
  apply (UpdateMarkets_panics_iff ex_unmarshal_object ex_unmarshal_config fst ex_notify
    ex_service [] (ex_params 0 (-6)) (ex_transformed ex_service (ex_params 0 (-6)))).
  - reflexivity.
  - apply (ex_registered _ (empty_exchange_config "Binance")); reflexivity.
  - reflexivity.
  - exists "Binance". eexists. split; [vm_compute; reflexivity|]. split; [vm_compute; congruence|].
    intros Hr%resolved_decide. vm_compute in Hr. discriminate.
Defined.

Lemma unchanged_exchanges_not_notified_witness :
  exists r, ex_update ex_configured (ex_params 1 (-9)) = Some (Ok r) /\
    ur_world r = [] /\ ur_err r = None /\
    mmc_Exponent <$> mutableMarketToConfigs (ur_pfmmc r) !! 5 = Some (-9) /\
    mmc_Exponent <$> mutableMarketToConfigs ex_configured !! 5 = Some (-6).
Proof.
  destruct (unchanged_exchanges_not_notified ex_unmarshal_object ex_unmarshal_config fst ex_notify
    ex_configured [] (ex_params 1 (-9)) (ex_transformed ex_configured (ex_params 1 (-9))))
    as (r & Hu & Hw & He & Hm).
  - reflexivity.
  - eapply ex_registered; reflexivity.
  - reflexivity.
  - reflexivity.
  - exists r. rewrite Hm. split_and!; [exact Hu|exact Hw|exact He|reflexivity|reflexivity].
Defined.
