(* ===== verification/PriceMath.v ===== *)
(** * lib/prices: inverting, multiplying and dividing prices

    The arithmetic is that of the package [shopspring/decimal], which is not
    part of the repository: it is the class [Decimal] of its documented
    operations, with their documented behaviour as laws (a decimal denotes a
    rational; construction and [Mul] are exact; [Div] is within half a unit of
    the 16th decimal, [DivisionPrecision], and does not change signs; [BigInt]
    truncates). The instance at the end shows the laws can be met. *)
From Stdlib Require Import QArith Qround Qpower Qabs Lqa.
From S2P Require Import Prelude MarketConfig.
Local Open Scope Z_scope.

Definition pow10 (e : Z) : Q := Qpower 10 e.

(** [d.BigInt()] drops the fractional part. *)
Definition Qtrunc (q : Q) : Z := if Qle_bool 0 q then Qfloor q else - Qfloor (- q).

Class Decimal (D : Type) := {
  decimal_value : D -> Q;
  NewFromBigInt : Z -> Z -> D;      (** value, exponent (an int32) *)
  NewFromInt : Z -> D;
  Div : D -> D -> go D;
  Mul : D -> D -> D;
  BigInt : D -> Z;

  NewFromBigInt_value : forall v e, (decimal_value (NewFromBigInt v e) == inject_Z v * pow10 e)%Q;
  NewFromInt_value : forall v, (decimal_value (NewFromInt v) == inject_Z v)%Q;
  Mul_value : forall a b, (decimal_value (Mul a b) == decimal_value a * decimal_value b)%Q;
  Div_zero : forall a b, (decimal_value b == 0)%Q -> exists p, Div a b = Panic p;
  Div_value : forall a b, ~ (decimal_value b == 0)%Q ->
    exists d, Div a b = Ok d /\
      (2 * Qabs (decimal_value d - decimal_value a / decimal_value b) <= pow10 (-16))%Q /\
      (0 <= decimal_value a / decimal_value b -> 0 <= decimal_value d)%Q;
  BigInt_value : forall d, BigInt d = Qtrunc (decimal_value d)
}.

Section PriceMath.
Context {D : Type} `{Decimal D}.

(** [big.Int.Uint64]: the low 64 bits of the absolute value. *)
Definition big_Uint64 (z : Z) : Z := wrap uint64 (Z.abs z).

(** [-exponent] in int32. *)
Definition neg_exponent (e : Exponent) : Exponent := wrap int32 (- e).

Definition prices_Invert (price : Z) (exponent : Exponent) : go Z :=
  if price =? 0 then Ok 0
  else
    let decimalPrice := NewFromBigInt price exponent in
    q ← Div (NewFromInt 1) decimalPrice;
    Ok (big_Uint64 (BigInt (Mul q (NewFromBigInt 1 (neg_exponent exponent))))).

Definition prices_Multiply (price : Z) (exponent : Exponent) (adjustByPrice : Z)
    (adjustByExponent : Exponent) : Z :=
  let decimalPrice := NewFromBigInt price exponent in
  let decimalAdjustByPrice := NewFromBigInt adjustByPrice adjustByExponent in
  big_Uint64 (BigInt (Mul (Mul decimalPrice decimalAdjustByPrice)
                        (NewFromBigInt 1 (neg_exponent exponent)))).

Definition prices_Divide (adjustByPrice : Z) (adjustByExponent : Exponent) (price : Z)
    (exponent : Exponent) : go Z :=
  if price =? 0 then Ok 0
  else
    let decimalPrice := NewFromBigInt price exponent in
    let decimalAdjustByPrice := NewFromBigInt adjustByPrice adjustByExponent in
    q ← Div decimalAdjustByPrice decimalPrice;
    Ok (big_Uint64 (BigInt (Mul q (NewFromBigInt 1 (neg_exponent exponent))))).

(** ** Lemmas *)
Lemma pow10_pos e : (0 < pow10 e)%Q.
Proof. unfold pow10. apply Qpower_0_lt. reflexivity. Qed.

Lemma pow10_plus e e' : (pow10 (e + e') == pow10 e * pow10 e')%Q.
Proof. unfold pow10. apply Qpower_plus. discriminate. Qed.

Lemma pow10_opp e : (pow10 (- e) == / pow10 e)%Q.
Proof. unfold pow10. apply Qpower_opp. Qed.

Lemma pow10_cancel e : (pow10 e * pow10 (- e) == 1)%Q.
Proof. rewrite <- pow10_plus, Z.add_opp_diag_r. reflexivity. Qed.

Lemma Qtrunc_nonneg q : (0 <= q)%Q -> Qtrunc q = Qfloor q.
Proof. intros Hq. unfold Qtrunc. apply Qle_bool_iff in Hq. by rewrite Hq. Qed.

#[export] Instance Qtrunc_proper : Proper (Qeq ==> (=)) Qtrunc.
Proof.
  intros x y E. unfold Qtrunc. rewrite E.
  destruct (Qle_bool 0 y); [by rewrite E|]. by rewrite E.
Qed.

Lemma big_Uint64_small z : 0 <= z < 2 ^ 64 -> big_Uint64 z = z.
Proof. intros. unfold big_Uint64, wrap. simpl. rewrite Z.abs_eq by lia. apply Z.mod_small. lia. Qed.

Lemma neg_exponent_small e : in_range int32 e -> e <> -2147483648 -> neg_exponent e = - e.
Proof.
  unfold in_range, min_int, max_int. simpl. intros Hr Hne. unfold neg_exponent.
  apply wrap_small; [unfold go_width; simpl; lia|unfold in_range, min_int, max_int; simpl; lia].
Qed.

(** The exponents a market can have, on which negation does not overflow. *)
Definition proper_exponent (e : Exponent) : Prop := in_range int32 e /\ e <> -2147483648.

(** The exact quotient that [Divide] approximates, in units of [10 ^ exponent]. *)
Definition exact_quotient (adjustByPrice : Z) (adjustByExponent : Exponent) (price : Z)
    (exponent : Exponent) : Q :=
  (inject_Z adjustByPrice * pow10 adjustByExponent / (inject_Z price * pow10 exponent)
     * pow10 (- exponent))%Q.

Lemma scaled_floor_bounds (x y : Q) (e : Z) :
  (2 * Qabs (x - y) <= pow10 (-16))%Q -> (0 <= x)%Q ->
  let r := Qfloor (x * pow10 e) in
  0 <= r /\
  (inject_Z r <= y * pow10 e + pow10 (e - 16))%Q /\
  (y * pow10 e < inject_Z r + 1 + pow10 (e - 16))%Q.
Proof.
  intros Hd Hx r. pose proof (pow10_pos e) as Hp.
  assert (pow10 (e - 16) == pow10 (-16) * pow10 e)%Q as E16
    by (rewrite <- pow10_plus; f_equiv; lia).
  assert (Qabs (x - y) <= pow10 (-16))%Q as Hd'.
  { eapply Qle_trans; [|exact Hd]. rewrite <- (Qmult_1_l (Qabs (x - y))) at 1.
    apply Qmult_le_compat_r; [discriminate|apply Qabs_nonneg]. }
  apply Qabs_Qle_condition in Hd' as [Hlo Hhi].
  assert (x * pow10 e <= y * pow10 e + pow10 (e - 16))%Q as Hup.
  { rewrite E16, <- Qmult_plus_distr_l. apply Qmult_le_compat_r; [|by apply Qlt_le_weak].
    lra. }
  assert (y * pow10 e <= x * pow10 e + pow10 (e - 16))%Q as Hdn.
  { rewrite E16, <- Qmult_plus_distr_l. apply Qmult_le_compat_r; [|by apply Qlt_le_weak].
    lra. }
  split_and!.
  - unfold r. change 0 with (Qfloor 0). apply Qfloor_resp_le.
    apply Qmult_le_0_compat; [done|by apply Qlt_le_weak].
  - eapply Qle_trans; [apply Qfloor_le|exact Hup].
  - eapply Qle_lt_trans; [exact Hdn|]. apply Qplus_lt_l.
    pose proof (Qlt_floor (x * pow10 e)) as Hf. rewrite inject_Z_plus in Hf. exact Hf.
Qed.

Lemma NewFromBigInt_pos v e : 0 < v -> (0 < decimal_value (NewFromBigInt v e))%Q.
Proof.
  intros Hv. rewrite NewFromBigInt_value. apply Qmult_lt_0_compat; [|apply pow10_pos].
  change 0%Q with (inject_Z 0). by rewrite <- Zlt_Qlt.
Qed.

Lemma NewFromBigInt_nonneg v e : 0 <= v -> (0 <= decimal_value (NewFromBigInt v e))%Q.
Proof.
  intros Hv. rewrite NewFromBigInt_value. apply Qmult_le_0_compat; [|apply Qlt_le_weak, pow10_pos].
  change 0%Q with (inject_Z 0). by rewrite <- Zle_Qle.
Qed.

(** A division by a positive price, rescaled by [10 ^ -exponent] and truncated. *)
Lemma Div_rescaled (a : D) price exponent :
  0 < price -> (0 <= decimal_value a)%Q -> proper_exponent exponent ->
  exists q, Div a (NewFromBigInt price exponent) = Ok q /\
    let r := BigInt (Mul q (NewFromBigInt 1 (neg_exponent exponent))) in
    let exact := (decimal_value a / (inject_Z price * pow10 exponent) * pow10 (- exponent))%Q in
    0 <= r /\ (inject_Z r <= exact + pow10 (- exponent - 16))%Q /\
    (exact < inject_Z r + 1 + pow10 (- exponent - 16))%Q.
Proof.
  intros Hp Ha [Hr Hmin]. pose proof (NewFromBigInt_pos price exponent Hp) as Hb.
  destruct (Div_value a (NewFromBigInt price exponent)) as (q & Hq & Herr & Hsgn).
  { intros E. rewrite E in Hb. by apply Qlt_irrefl in Hb. }
  exists q. split; [done|]. cbn zeta. rewrite BigInt_value, Mul_value, NewFromBigInt_value.
  rewrite neg_exponent_small, Qmult_1_l by done.
  assert (0 <= decimal_value a / decimal_value (NewFromBigInt price exponent))%Q as Hdq
    by (apply Qle_shift_div_l; [done|]; by rewrite Qmult_0_l).
  specialize (Hsgn Hdq). rewrite Qtrunc_nonneg
    by (apply Qmult_le_0_compat; [done|apply Qlt_le_weak, pow10_pos]).
  rewrite NewFromBigInt_value in Herr.
  exact (scaled_floor_bounds _ _ (- exponent) Herr Hsgn).
Qed.

(** Neither panics on the prices of the program. *)
Lemma Div_price_total (a : D) price exponent :
  0 < price -> exists q, Div a (NewFromBigInt price exponent) = Ok q.
Proof.
  intros Hp. pose proof (NewFromBigInt_pos price exponent Hp) as Hb.
  destruct (Div_value a (NewFromBigInt price exponent)) as (q & Hq & _); [|by exists q].
  intros E. rewrite E in Hb. by apply Qlt_irrefl in Hb.
Qed.

Lemma prices_Invert_total price exponent :
  0 <= price -> exists v, prices_Invert price exponent = Ok v.
Proof.
  intros Hp. unfold prices_Invert. destruct (Z.eqb_spec price 0); [by eexists|].
  destruct (Div_price_total (NewFromInt 1) price exponent) as [q ->]; [lia|]. by eexists.
Qed.

Lemma prices_Divide_total a ae price exponent :
  0 <= price -> exists v, prices_Divide a ae price exponent = Ok v.
Proof.
  intros Hp. unfold prices_Divide. destruct (Z.eqb_spec price 0); [by eexists|].
  destruct (Div_price_total (NewFromBigInt a ae) price exponent) as [q ->]; [lia|]. by eexists.
Qed.

(** ** Properties *)

(** [Multiply] is exact: for a non-positive adjustment exponent [-k] it is
    the product of the prices divided by [10^k], rounded down, of which the low
    64 bits are kept; the exponent of the price itself cancels. *)
Theorem Multiply_exact (price adjustByPrice k : Z) (exponent : Exponent) :
  proper_exponent exponent -> 0 <= price -> 0 <= adjustByPrice -> 0 <= k ->
  prices_Multiply price exponent adjustByPrice (- k) =
    wrap uint64 (price * adjustByPrice / 10 ^ k).
Proof.
  intros [Hr Hmin] Hp Ha Hk. unfold prices_Multiply, big_Uint64.
  assert (BigInt (Mul (Mul (NewFromBigInt price exponent) (NewFromBigInt adjustByPrice (- k)))
            (NewFromBigInt 1 (neg_exponent exponent))) = price * adjustByPrice / 10 ^ k) as ->.
  2:{ f_equal. apply Z.abs_eq. apply Z.div_pos; [nia|]. by apply Z.pow_pos_nonneg. }
  rewrite BigInt_value, !Mul_value, !NewFromBigInt_value, neg_exponent_small by done.
  assert (inject_Z price * pow10 exponent * (inject_Z adjustByPrice * pow10 (- k)) *
          (1 * pow10 (- exponent)) == inject_Z (price * adjustByPrice) / inject_Z (10 ^ k))%Q as ->.
  { rewrite inject_Z_mult. unfold Qdiv. rewrite Zpower_Qpower by done.
    change (inject_Z 10) with 10%Q. rewrite <- Qpower_opp. fold (pow10 (- k)).
    transitivity (inject_Z price * inject_Z adjustByPrice * pow10 (- k) *
      (pow10 exponent * pow10 (- exponent)))%Q; [ring|]. rewrite pow10_cancel. ring. }
  assert (0 < 10 ^ k) as Hpow by by apply Z.pow_pos_nonneg.
  rewrite Qtrunc_nonneg.
  - symmetry. apply Zdiv_Qdiv.
  - apply Qle_shift_div_l; [change 0%Q with (inject_Z 0); by rewrite <- Zlt_Qlt|].
    rewrite Qmult_0_l. change 0%Q with (inject_Z 0). rewrite <- Zle_Qle. nia.
Qed.

(** [Divide] and [Invert] never panic; they return 0 for a zero price, and
    otherwise the low 64 bits of an integer [r] that is the exact quotient
    rounded down up to the error of 16 decimals: it exceeds the quotient by at
    most [10^(-exponent-16)] and falls short of it by less than one unit more. *)
Theorem Divide_Invert_bounds (adjustByPrice price : Z) (adjustByExponent exponent : Exponent) :
  proper_exponent exponent -> 0 <= price -> 0 <= adjustByPrice ->
  (price = 0 -> prices_Divide adjustByPrice adjustByExponent price exponent = Ok 0 /\
                prices_Invert price exponent = Ok 0) /\
  (0 < price ->
   (exists r, prices_Divide adjustByPrice adjustByExponent price exponent = Ok (big_Uint64 r) /\
      let exact := exact_quotient adjustByPrice adjustByExponent price exponent in
      0 <= r /\ (inject_Z r <= exact + pow10 (- exponent - 16))%Q /\
      (exact < inject_Z r + 1 + pow10 (- exponent - 16))%Q) /\
   (exists r, prices_Invert price exponent = Ok (big_Uint64 r) /\
      let exact := exact_quotient 1 0 price exponent in
      0 <= r /\ (inject_Z r <= exact + pow10 (- exponent - 16))%Q /\
      (exact < inject_Z r + 1 + pow10 (- exponent - 16))%Q)).
Proof.
  intros He Hp Ha. split; [by intros ->|]. intros Hpos.
  unfold prices_Divide, prices_Invert, exact_quotient.
  destruct (Z.eqb_spec price 0); [lia|]. split.
  - destruct (Div_rescaled (NewFromBigInt adjustByPrice adjustByExponent) price exponent Hpos
      (NewFromBigInt_nonneg _ _ Ha) He) as (q & -> & Hb).
    eexists; split; [reflexivity|]. cbn zeta in *. by rewrite NewFromBigInt_value in Hb.
  - destruct (Div_rescaled (NewFromInt 1) price exponent Hpos) as (q & -> & Hb); [|done|].
    { rewrite NewFromInt_value. discriminate. }
    eexists; split; [reflexivity|]. cbn zeta in *. rewrite NewFromInt_value in Hb.
    assert (inject_Z 1 * pow10 0 == inject_Z 1)%Q as E by reflexivity. by rewrite E.
Qed.
End PriceMath.

(** ** An implementation of the laws: a coefficient and an exponent *)
Module Scaled.

Definition t : Type := (Z * Z)%type.
Definition value (d : t) : Q := (inject_Z d.1 * pow10 d.2)%Q.

(** Nearest integer to [n / d], half away from zero. *)
Definition round_div (n d : Z) : Z :=
  let n' := Z.abs n in let d' := Z.abs d in
  Z.sgn n * Z.sgn d * ((2 * n' + d') / (2 * d')).

Definition div (a b : t) : go t :=
  if b.1 =? 0 then Panic DivisionByZero
  else
    let s := a.2 - b.2 + 16 in
    let c := if 0 <=? s then round_div (a.1 * 10 ^ s) b.1 else round_div a.1 (b.1 * 10 ^ (- s)) in
    Ok (c, -16).

Definition mul (a b : t) : t := (a.1 * b.1, a.2 + b.2).
Definition trunc (d : t) : Z :=
  if 0 <=? d.2 then d.1 * 10 ^ d.2 else Z.quot d.1 (10 ^ (- d.2)).

Lemma round_div_spec n d :
  d <> 0 ->
  2 * (Z.sgn d * n) <= (2 * round_div n d + 1) * Z.abs d /\
  (2 * round_div n d - 1) * Z.abs d <= 2 * (Z.sgn d * n) /\
  (0 <= Z.sgn d * n -> 0 <= round_div n d).
Proof.
  intros Hd. unfold round_div. set (q := (2 * Z.abs n + Z.abs d) / (2 * Z.abs d)).
  pose proof (Z.div_mod (2 * Z.abs n + Z.abs d) (2 * Z.abs d) ltac:(lia)) as E.
  pose proof (Z.mod_pos_bound (2 * Z.abs n + Z.abs d) (2 * Z.abs d) ltac:(lia)) as B.
  fold q in E. assert (0 <= q) by (apply Z.div_pos; lia).
  destruct (Z.sgn_spec n) as [[? ->]|[[? ->]|[? ->]]], (Z.sgn_spec d) as [[? ->]|[[? ->]|[? ->]]];
    try lia; split_and!; nia.
Qed.

Lemma round_div_Q n d :
  d <> 0 ->
  (2 * Qabs (inject_Z (round_div n d) - inject_Z n / inject_Z d) <= 1)%Q /\
  (0 <= inject_Z n / inject_Z d -> 0 <= inject_Z (round_div n d))%Q.
Proof.
  intros Hd. destruct (round_div_spec n d Hd) as (H1 & H2 & H3).
  assert (0 < inject_Z (Z.abs d))%Q as Hpos
    by (change 0%Q with (inject_Z 0); rewrite <- Zlt_Qlt; lia).
  assert (~ inject_Z d == 0)%Q as Hne.
  { change 0%Q with (inject_Z 0). by rewrite inject_Z_injective. }
  assert (inject_Z n / inject_Z d == inject_Z (Z.sgn d * n) / inject_Z (Z.abs d))%Q as E.
  { rewrite inject_Z_mult. destruct (Z.abs_spec d) as [[? ->]|[? ->]].
    - rewrite Z.sgn_pos by lia. change (inject_Z 1) with 1%Q. by rewrite Qmult_1_l.
    - rewrite Z.sgn_neg by lia. rewrite inject_Z_opp. change (inject_Z (-1)) with (-1)%Q.
      field. exact Hne. }
  rewrite E. rewrite Zle_Qle in H1, H2. rewrite !inject_Z_mult in H1, H2.
  unfold Z.sub in H2. rewrite inject_Z_plus in H1. rewrite inject_Z_plus, inject_Z_opp in H2.
  rewrite !inject_Z_mult in H1, H2. change (inject_Z 2) with 2%Q in *.
  change (inject_Z 1) with 1%Q in *. rewrite inject_Z_mult.
  set (N := (inject_Z (Z.sgn d) * inject_Z n)%Q) in *. set (c := inject_Z (round_div n d)) in *.
  set (A := inject_Z (Z.abs d)) in *. split.
  - assert (Qabs (c - N / A) <= 1 # 2)%Q as Habs; [|lra].
    apply Qabs_Qle_condition.
    assert (N / A <= c + (1 # 2))%Q by (apply Qle_shift_div_r; [done|lra]).
    assert (c - (1 # 2) <= N / A)%Q by (apply Qle_shift_div_l; [done|lra]). lra.
  - intros HN. change 0%Q with (inject_Z 0). unfold c. rewrite <- Zle_Qle. apply H3.
    rewrite Zle_Qle, inject_Z_mult. fold N. change (inject_Z 0) with 0%Q.
    rewrite <- (Qmult_div_r N A) by lra. apply Qmult_le_0_compat; [lra|exact HN].
Qed.

Lemma value_zero d : (value d == 0)%Q <-> d.1 = 0.
Proof.
  unfold value. pose proof (pow10_pos d.2) as Hp. split.
  - intros E%Qmult_integral. destruct E as [E|E]; [|lra].
    change 0%Q with (inject_Z 0) in E. by rewrite inject_Z_injective in E.
  - intros ->. change (inject_Z 0) with 0%Q. lra.
Qed.

Lemma pow10_Z k : 0 <= k -> (pow10 k == inject_Z (10 ^ k))%Q.
Proof. intros Hk. rewrite Zpower_Qpower by done. reflexivity. Qed.

(** The quotient that [div] rounds, at the 16th decimal. *)
Lemma div_spec a b :
  b.1 <> 0 -> exists n d, d <> 0 /\ div a b = Ok (round_div n d, -16) /\
    (value a / value b == inject_Z n / inject_Z d * pow10 (-16))%Q.
Proof.
  intros Hb. unfold div, value. destruct (Z.eqb_spec b.1 0) as [|_]; [done|].
  assert (~ inject_Z b.1 == 0)%Q as Hb'.
  { change 0%Q with (inject_Z 0). by rewrite inject_Z_injective. }
  pose proof (pow10_pos b.2) as Hpb. set (s := a.2 - b.2 + 16).
  assert (pow10 a.2 == pow10 s * pow10 b.2 * pow10 (-16))%Q as Ea
    by (rewrite <- !pow10_plus; unfold s; by replace (a.2 - b.2 + 16 + b.2 + -16) with a.2 by lia).
  destruct (Z.leb_spec 0 s) as [Hs|Hs].
  - eexists _, _. split_and!; [exact Hb|done|].
    rewrite inject_Z_mult, <- pow10_Z, Ea by done.
    field; repeat match goal with |- _ /\ _ => split end; first [exact Hb'|lra].
  - assert (0 < 10 ^ (- s)) by (apply Z.pow_pos_nonneg; lia).
    eexists _, _. split_and!; [|done|]; [nia|].
    rewrite inject_Z_mult, <- pow10_Z, Ea, pow10_opp by lia. pose proof (pow10_pos s).
    field; repeat match goal with |- _ /\ _ => split end; first [exact Hb'|lra].
Qed.

Lemma trunc_spec d : trunc d = Qtrunc (value d).
Proof.
  destruct d as [c e]. unfold trunc, value. simpl. destruct (Z.leb_spec 0 e) as [He|He].
  - rewrite pow10_Z, <- inject_Z_mult by done. unfold Qtrunc.
    rewrite <- inject_Z_opp, !Qfloor_Z. case_match; lia.
  - replace e with (- (- e)) at 2 by lia. rewrite pow10_opp, pow10_Z by lia.
    assert (0 < 10 ^ (- e)) by (apply Z.pow_pos_nonneg; lia).
    change (inject_Z c * / inject_Z (10 ^ (- e)))%Q with (inject_Z c / inject_Z (10 ^ (- e)))%Q.
    unfold Qtrunc. assert (- (inject_Z c / inject_Z (10 ^ (- e))) ==
      inject_Z (- c) / inject_Z (10 ^ (- e)))%Q as -> by (rewrite inject_Z_opp; unfold Qdiv; ring).
    rewrite <- !Zdiv_Qdiv. destruct (Qle_bool _ _) eqn:E.
    + apply Qle_bool_iff in E. assert (0 <= c) as Hc.
      { rewrite Zle_Qle. change (inject_Z 0) with 0%Q.
        rewrite <- (Qmult_div_r (inject_Z c) (inject_Z (10 ^ (- e)))).
        - apply Qmult_le_0_compat; [|done]. change 0%Q with (inject_Z 0). rewrite <- Zle_Qle. lia.
        - change 0%Q with (inject_Z 0). rewrite inject_Z_injective. lia. }
      apply Z.quot_div_nonneg; lia.
    + assert (c < 0) as Hc.
      { apply Z.nle_gt. intros Hc. apply not_true_iff_false in E. apply E, Qle_bool_iff.
        apply Qle_shift_div_l; [change 0%Q with (inject_Z 0); by rewrite <- Zlt_Qlt|].
        rewrite Qmult_0_l. change 0%Q with (inject_Z 0). by rewrite <- Zle_Qle. }
      rewrite <- Z.quot_div_nonneg by lia. rewrite Z.quot_opp_l; lia.
Qed.
End Scaled.

#[export] Program Instance scaled_decimal : Decimal Scaled.t := {|
  decimal_value := Scaled.value;
  NewFromBigInt v e := (v, e);
  NewFromInt v := (v, 0);
  Div := Scaled.div;
  Mul := Scaled.mul;
  BigInt := Scaled.trunc
|}.
Next Obligation. reflexivity. Qed.
Next Obligation.
  intros v. unfold Scaled.value. simpl. change (pow10 0) with 1%Q. apply Qmult_1_r.
Qed.
Next Obligation.
  intros a b. unfold Scaled.value, Scaled.mul. simpl. rewrite inject_Z_mult, pow10_plus. ring.
Qed.
Next Obligation.
  intros a b E%Scaled.value_zero. unfold Scaled.div. rewrite E. by eexists.
Qed.
Next Obligation.
  intros a b Hb. destruct (Scaled.div_spec a b) as (n & d & Hd & E & Ev);
    [by rewrite <- Scaled.value_zero|].
  eexists; split; [exact E|]. destruct (Scaled.round_div_Q n d Hd) as [H1 H2].
  assert (Scaled.value (Scaled.round_div n d, (-16)%Z) ==
    inject_Z (Scaled.round_div n d) * pow10 (-16))%Q as Ed by reflexivity.
  rewrite Ed, Ev. pose proof (pow10_pos (-16)) as Hp. split.
  - set (c := inject_Z (Scaled.round_div n d)) in *. set (x := (inject_Z n / inject_Z d)%Q) in *.
    assert (c * pow10 (-16) - x * pow10 (-16) == (c - x) * pow10 (-16))%Q as Er by ring.
    rewrite Er.
    rewrite Qabs_Qmult, (Qabs_pos (pow10 (-16))) by lra.
    rewrite Qmult_assoc. rewrite <- (Qmult_1_l (pow10 (-16))) at 2.
    apply Qmult_le_compat_r; lra.
  - intros Hn. apply Qmult_le_0_compat; [|lra]. apply H2.
    rewrite <- (Qmult_0_l (pow10 (-16))) in Hn. by apply Qmult_le_r in Hn.
Qed.
Next Obligation. intros d. apply Scaled.trunc_spec. Qed.

Lemma Multiply_exact_witness :
  prices_Multiply (D := Scaled.t) 123456 (-5) 99950000 (- 8) = wrap uint64 (123456 * 99950000 / 10 ^ 8).
Proof.
  apply (Multiply_exact 123456 99950000 8 (-5)); [|lia..].
  split; [unfold in_range, min_int, max_int; simpl; lia|lia].
Defined.

Lemma Divide_Invert_bounds_witness :
  exists r, prices_Invert (D := Scaled.t) 100050 (-5) = Ok (big_Uint64 r) /\
    (inject_Z r <= exact_quotient 1 0 100050 (-5) + pow10 (5 - 16))%Q /\
    prices_Invert (D := Scaled.t) 100050 (-5) = Ok 99950.
Proof.
  destruct (Divide_Invert_bounds (D := Scaled.t) 7 100050 (-5) (-5)) as [_ Hb];
    [split; [unfold in_range, min_int, max_int; simpl; lia|lia]|lia|lia|].
  destruct (Hb ltac:(lia)) as [_ (r & E & _ & Hr & _)].
  exists r. split; [exact E|]. split; [exact Hr|]. vm_compute. reflexivity.
Defined.
