(* ===== verification/ExchangeErrors.v ===== *)
(** * sources/exchange_error.go and the generic exchange errors of sources/util.go

    [IsGenericExchangeError] matches the text of an error against a list of
    regular expressions. All but one are literals or alternations of literals:
    a match is a substring; the remaining one asks for a digit after a literal. *)
From Stdlib Require Import Ascii.
From S2P Require Import Prelude Text MarketConfig.
Local Open Scope Z_scope.

Definition NewExchangeError (exchangeId : ExchangeId) (msg : string) : go_error :=
  ErrExchange exchangeId msg.

Definition is_digit (a : ascii) : bool :=
  let n := nat_of_ascii a in (48 <=? n)%nat && (n <=? 57)%nat.

Definition starts_with_digit (s : string) : bool :=
  match s with String a _ => is_digit a | EmptyString => false end.

(** The dot of [ClientConn.Close] is a metacharacter: any character but a newline
    (a byte here: the texts are ASCII). *)
Definition dot (rest s : string) : bool :=
  match s with
  | String a s => negb (Ascii.eqb a "010"%char) &&
                  match cut rest s with Some _ => true | None => false end
  | EmptyString => false
  end.

Definition exchangeSideErrorResponsePatterns : list (string -> bool) :=
  [ contains "http2: server sent GOAWAY and closed the connection";
    matches "http2: client connection force closed via ClientConn" (dot "Close");
    contains "unexpected EOF";
    matches "Unexpected response status code of: " starts_with_digit;
    contains "Failed to get entities from store";
    contains "request timeout";
    (fun s => contains "Internal error" s || contains "internal error" s ||
              contains "INTERNAL_ERROR" s || contains "SYS_ERROR" s) ].

Definition IsGenericExchangeError (err : go_error) : bool :=
  existsb (fun pattern => pattern (error_text err)) exchangeSideErrorResponsePatterns.
