(* ===== verification/PriceEncoder.v ===== *)
(** * pricefeed/client/price_encoder: from fetched prices to the daemon's cache

    The encoder of an exchange converts the prices its fetcher sends and puts
    them in the shared cache, used through the interface of [ClientCache]; the
    decimal package through that of [PriceMath]. Logs and metrics are left out,
    except the reason a failure is recorded under. *)
From S2P Require Import Prelude Median PriceTimestamp MarketConfig ClientCache PriceMath ExchangeErrors.
Local Open Scope Z_scope.

Definition MaxPriceAge : Duration := 30 * Second.

Record adjustByMarketDetails := mkAdjustByMarketDetails {
  abm_MarketId : MarketId;
  abm_Exponent : Exponent;
  abm_MinExchanges : Z
}.
Record priceConversionDetails := mkPriceConversionDetails {
  pcd_Invert : bool;
  pcd_Exponent : Exponent;
  AdjustByMarketDetails : option adjustByMarketDetails
}.

(** ** mutable_state.go: replaced as a whole, under its lock *)
Record mutableState := mkMutableState {
  mutableExchangeConfig : MutableExchangeMarketConfig;
  ms_marketToMutableConfig : gmap MarketId MutableMarketConfig
}.

Definition GetPriceConversionDetailsForMarket (ms : mutableState) (id : MarketId)
    : go priceConversionDetails :=
  match MarketToMarketConfig (mutableExchangeConfig ms) !! id with
  | None => Err (ErrNew ("market config for market " +:+ pretty id +:+ " not found on exchange '" +:+
                   memc_Id (mutableExchangeConfig ms) +:+ "'"))
  | Some marketConfig =>
      adjustDetails ←
        match AdjustByMarket marketConfig with
        | None => Ok None
        | Some adjust =>
            match ms_marketToMutableConfig ms !! adjust with
            | None => Err (ErrNew ("mutable market config for adjust-by market " +:+ pretty adjust
                +:+ " not found on exchange '" +:+ memc_Id (mutableExchangeConfig ms) +:+ "'"))
            | Some adjustByMarketConfig =>
                Ok (Some (mkAdjustByMarketDetails adjust (mmc_Exponent adjustByMarketConfig)
                            (mmc_MinExchanges adjustByMarketConfig)))
            end
        end;
      match ms_marketToMutableConfig ms !! id with
      | None => Err (ErrNew ("mutable market config for market " +:+ pretty id +:+
                       " not found on exchange '" +:+ memc_Id (mutableExchangeConfig ms) +:+ "'"))
      | Some mutableMarketConfig =>
          Ok (mkPriceConversionDetails (Invert marketConfig) (mmc_Exponent mutableMarketConfig)
                adjustDetails)
      end
  end.

(** ** price_encoder.go *)
Record PriceEncoderImpl := mkPriceEncoder {
  isPastGracePeriod : bool;
  pe_exchangeId : ExchangeId;
  pe_mutableState : mutableState
}.

(** The reasons under which failures are recorded. *)
Inductive failure :=
  | HttpGetTimeout
  | RateLimit
  | ExchangeSpecificError
  | HttpGet5xx
  | HttpGetHangup
  | OtherFailure.
#[export] Instance failure_eq_dec : EqDecision failure.
Proof. solve_decision. Defined.

(** A response: a price, or an error (the fetcher sets one of the two). *)
Record PriceFetcherSubtaskResponse := mkResponse {
  resp_Price : option MarketPriceTimestamp;
  resp_Err : option go_error
}.

Inductive report :=
  | Recorded                         (** the price was stored *)
  | ConversionFailed (err : go_error)
  | FetchFailed (reason : failure).

Section Encoder.
Context `{RangeOrder}.
Context {D : Type} `{Decimal D}.
Context {Cache : Type} `{ExchangeToMarketPrices Cache}.

Definition PriceEncoder_UpdateMutableExchangeConfig (p : PriceEncoderImpl)
    (newConfig : MutableExchangeMarketConfig) (newMarketConfigs : list MutableMarketConfig)
    : go PriceEncoderImpl :=
  if negb (bool_decide (memc_Id newConfig = pe_exchangeId p)) then
    Err (ErrNew ("PriceEncoder.UpdateMutableExchangeConfig: exchange id mismatch, expected '" +:+
      pe_exchangeId p +:+ "', got '" +:+ memc_Id newConfig +:+ "'"))
  else match MutableExchangeMarketConfig_Validate newConfig newMarketConfigs with
  | Err err => Err (wrapf "PriceEncoder.UpdateMutableExchangeConfig: invalid exchange config update" err)
  | Panic pn => Panic pn
  | Ok _ =>
      let newMarketsToMutableConfigs :=
        foldl (fun m newMarketConfig => <[mmc_Id newMarketConfig := newMarketConfig]> m)
          (∅ : gmap MarketId MutableMarketConfig) newMarketConfigs in
      Ok (mkPriceEncoder (isPastGracePeriod p) (pe_exchangeId p)
            (mkMutableState newConfig newMarketsToMutableConfigs))
  end.

(** [&mutableState{}]: no config and no markets; replaced before it is read. *)
Definition NewPriceEncoder (config : MutableExchangeMarketConfig)
    (mutableMarketConfigs : list MutableMarketConfig) : go PriceEncoderImpl :=
  let pe := mkPriceEncoder false (memc_Id config)
              (mkMutableState (mkMutableExchangeMarketConfig "" ∅) ∅) in
  PriceEncoder_UpdateMutableExchangeConfig pe config mutableMarketConfigs.

Definition convertPriceUpdate (p : PriceEncoderImpl) (cache : Cache) (now : Time)
    (mpt : MarketPriceTimestamp) : go MarketPriceTimestamp :=
  conversionDetails ← GetPriceConversionDetailsForMarket (pe_mutableState p) (mpt_MarketId mpt);
  price ←
    match AdjustByMarketDetails conversionDetails with
    | None =>
        if pcd_Invert conversionDetails
        then prices_Invert (mpt_Price mpt) (pcd_Exponent conversionDetails)
        else Ok (mpt_Price mpt)
    | Some adjust =>
        index ← etm_GetIndexPrice cache (abm_MarketId adjust) (time_Add now (- MaxPriceAge))
                  (Median uint64);
        let '(adjustByIndexPrice, numPricesMedianized) := index in
        if Z.of_nat numPricesMedianized <? abm_MinExchanges adjust then
          Err (ErrNew ("could not retrieve index price for market " +:+
            pretty (abm_MarketId adjust) +:+ ": expected median price from " +:+
            pretty (abm_MinExchanges adjust) +:+ " exchanges, but got " +:+
            pretty numPricesMedianized +:+ " exchanges"))
        else if pcd_Invert conversionDetails then
          prices_Divide adjustByIndexPrice (abm_Exponent adjust) (mpt_Price mpt)
            (pcd_Exponent conversionDetails)
        else
          Ok (prices_Multiply (mpt_Price mpt) (pcd_Exponent conversionDetails)
                adjustByIndexPrice (abm_Exponent adjust))
    end;
  Ok (mkMarketPriceTimestamp (mpt_MarketId mpt) price (mpt_LastUpdatedAt mpt)).

(** A failed conversion is logged (as an error after the grace period) and
    changes nothing. *)
Definition PriceEncoder_UpdatePrice (p : PriceEncoderImpl) (cache : Cache) (now : Time)
    (mpt : MarketPriceTimestamp) : go (Cache * report) :=
  match convertPriceUpdate p cache now mpt with
  | Panic pn => Panic pn
  | Err err => Ok (cache, ConversionFailed err)
  | Ok price =>
      cache' ← etm_UpdatePrice cache (pe_exchangeId p) price;
      Ok (cache', Recorded)
  end.

Definition classify_failure (err : go_error) : failure :=
  if errors_Is err DeadlineExceeded then HttpGetTimeout
  else if errors_Is err ConstRateLimiting then RateLimit
  else match errors_As_exchange err with
  | Some _ => ExchangeSpecificError
  | None =>
      if IsGenericExchangeError err then HttpGet5xx
      else if errors_Is err ConnReset then HttpGetHangup
      else OtherFailure
  end.

(** A nil response (a closed channel) panics, and so does a response with
    neither price nor error when its price is dereferenced. *)
Definition ProcessPriceFetcherResponse (p : PriceEncoderImpl) (cache : Cache) (now : Time)
    (response : option PriceFetcherSubtaskResponse) : go (Cache * report) :=
  match response with
  | None => Panic (PanicMsg "nil response received from price fetcher")
  | Some response =>
      match resp_Err response with
      | None =>
          match resp_Price response with
          | None => Panic NilDereference
          | Some price => PriceEncoder_UpdatePrice p cache now price
          end
      | Some err => Ok (cache, FetchFailed (classify_failure err))
      end
  end.

(** ** Specification *)

(** What an accepted configuration guarantees. *)
Definition encoder_ok (p : PriceEncoderImpl) : Prop :=
  memc_Id (mutableExchangeConfig (pe_mutableState p)) = pe_exchangeId p /\
  valid_exchange_config (mutableExchangeConfig (pe_mutableState p))
    (ms_marketToMutableConfig (pe_mutableState p)).

(** The converted price: identity, inverse, or adjusted by the index price. *)
Definition converted (mc : MarketConfig) (mmc : MutableMarketConfig)
    (adjust : option MutableMarketConfig) (indexPrice price : Z) : go Z :=
  match adjust, Invert mc with
  | None, false => Ok price
  | None, true => prices_Invert price (mmc_Exponent mmc)
  | Some a, false => Ok (prices_Multiply price (mmc_Exponent mmc) indexPrice (mmc_Exponent a))
  | Some a, true => prices_Divide indexPrice (mmc_Exponent a) price (mmc_Exponent mmc)
  end.

(** ** Lemmas *)
Lemma UpdateMutableExchangeConfig_cases p newConfig newMarketConfigs :
  (memc_Id newConfig = pe_exchangeId p /\
   valid_exchange_config newConfig (marketToMutableConfig newMarketConfigs) /\
   PriceEncoder_UpdateMutableExchangeConfig p newConfig newMarketConfigs =
     Ok (mkPriceEncoder (isPastGracePeriod p) (pe_exchangeId p)
           (mkMutableState newConfig (marketToMutableConfig newMarketConfigs)))) \/
  ((memc_Id newConfig <> pe_exchangeId p \/
    ~ valid_exchange_config newConfig (marketToMutableConfig newMarketConfigs)) /\
   exists err, PriceEncoder_UpdateMutableExchangeConfig p newConfig newMarketConfigs = Err err).
Proof.
  unfold PriceEncoder_UpdateMutableExchangeConfig.
  destruct (bool_decide_reflect (memc_Id newConfig = pe_exchangeId p)); simpl; [|eauto].
  destruct (MutableExchangeMarketConfig_Validate newConfig newMarketConfigs) as [[]|err|pn] eqn:E.
  - left. apply MutableExchangeMarketConfig_Validate_Ok in E. done.
  - right. split; [|by eexists]. right. intros Hv.
    apply MutableExchangeMarketConfig_Validate_Ok in Hv. congruence.
  - by apply MutableExchangeMarketConfig_Validate_no_panic in E.
Qed.

Lemma GetPriceConversionDetails_ok p m mc :
  encoder_ok p ->
  MarketToMarketConfig (mutableExchangeConfig (pe_mutableState p)) !! m = Some mc ->
  exists mmc, ms_marketToMutableConfig (pe_mutableState p) !! m = Some mmc /\
    match AdjustByMarket mc with
    | None => GetPriceConversionDetailsForMarket (pe_mutableState p) m =
        Ok (mkPriceConversionDetails (Invert mc) (mmc_Exponent mmc) None)
    | Some a => exists ammc, ms_marketToMutableConfig (pe_mutableState p) !! a = Some ammc /\
        GetPriceConversionDetailsForMarket (pe_mutableState p) m =
          Ok (mkPriceConversionDetails (Invert mc) (mmc_Exponent mmc)
                (Some (mkAdjustByMarketDetails a (mmc_Exponent ammc) (mmc_MinExchanges ammc))))
    end.
Proof.
  intros [_ Hv] Hm. destruct (Hv _ _ Hm) as [(mmc & Hmmc & _) Hadj].
  exists mmc. split; [done|]. unfold GetPriceConversionDetailsForMarket. rewrite Hm.
  destruct (AdjustByMarket mc) as [a|]; simpl; [|by rewrite Hmmc].
  destruct (Hadj a eq_refl) as [ammc Ha]. exists ammc. split; [done|].
  rewrite Ha. simpl. by rewrite Hmmc.
Qed.

Lemma converted_total mc mmc adjust index price :
  0 <= price -> exists v, converted mc mmc adjust index price = Ok v.
Proof.
  intros Hp. unfold converted. destruct adjust, (Invert mc).
  - by apply prices_Divide_total.
  - by eexists.
  - by apply prices_Invert_total.
  - by eexists.
Qed.

Lemma GetIndexPrice_median_total (cache : Cache) m c :
  exists index n, etm_GetIndexPrice cache m c (Median uint64) = Ok (index, n).
Proof.
  destruct (etm_GetIndexPrice_spec cache m c (Median uint64)) as (prices & _ & ->).
  destruct prices as [|p ps]; [by eexists _, _|].
  destruct (Median_total uint64 (p :: ps)) as [r ->]; [done|]. by eexists _, _.
Qed.

(** ** Properties *)

(** C7: processing a fetched price. With an accepted configuration and a
    configured market, the encoder never panics and either stores, in the cell
    of its own exchange and that market and nowhere else, the price converted
    as the market config says (unchanged, inverted, multiplied or divided by
    the index price of the adjustment market) at its original time; or, only
    when fewer exchanges than the adjustment market requires have a recent
    price, reports a conversion failure and leaves the cache as it was. *)
Theorem ProcessPriceFetcherResponse_correct (p : PriceEncoderImpl) (cache : Cache) (now : Time)
    (mpt : MarketPriceTimestamp) (mc : MarketConfig) :
  encoder_ok p -> pe_exchangeId p ∈ etm_exchanges cache ->
  MarketToMarketConfig (mutableExchangeConfig (pe_mutableState p)) !! mpt_MarketId mpt = Some mc ->
  0 <= mpt_Price mpt ->
  exists mmc adjust index n,
    ms_marketToMutableConfig (pe_mutableState p) !! mpt_MarketId mpt = Some mmc /\
    match AdjustByMarket mc with
    | None => adjust = None
    | Some a =>
        adjust = ms_marketToMutableConfig (pe_mutableState p) !! a /\ is_Some adjust /\
        etm_GetIndexPrice cache a (now - MaxPriceAge) (Median uint64) = Ok (index, n)
    end /\
    let result := ProcessPriceFetcherResponse p cache now (Some (mkResponse (Some mpt) None)) in
    ((forall a, adjust = Some a -> mmc_MinExchanges a <= Z.of_nat n) /\
     exists cache' v, result = Ok (cache', Recorded) /\
       converted mc mmc adjust index (mpt_Price mpt) = Ok v /\
       bumped (etm_cell cache) (pe_exchangeId p, mpt_MarketId mpt) (mpt_LastUpdatedAt mpt, v)
              (etm_cell cache')) \/
    ((exists a, adjust = Some a /\ Z.of_nat n < mmc_MinExchanges a) /\
     exists err, result = Ok (cache, ConversionFailed err)).
Proof.
  intros Hok Hex Hm Hp. destruct (GetPriceConversionDetails_ok p _ mc Hok Hm) as (mmc & Hmmc & Hd).
  exists mmc. unfold ProcessPriceFetcherResponse, PriceEncoder_UpdatePrice, convertPriceUpdate.
  simpl. set (m := mpt_MarketId mpt) in *.
  assert (forall v, exists cache',
    etm_UpdatePrice cache (pe_exchangeId p) (mkMarketPriceTimestamp m v (mpt_LastUpdatedAt mpt)) =
      Ok cache' /\
    bumped (etm_cell cache) (pe_exchangeId p, m) (mpt_LastUpdatedAt mpt, v) (etm_cell cache')) as Hup.
  { intros v. destruct (etm_UpdatePrice_known cache _ (mkMarketPriceTimestamp m v
      (mpt_LastUpdatedAt mpt)) Hex) as (cache' & E & _ & Hb). by exists cache'. }
  destruct (AdjustByMarket mc) as [a|].
  - destruct Hd as (ammc & Ha & ->). simpl.
    destruct (GetIndexPrice_median_total cache a (now - MaxPriceAge)) as (index & n & Hi).
    exists (Some ammc), index, n. split; [done|]. split; [by rewrite Ha|].
    unfold time_Add. change (now + - MaxPriceAge) with (now - MaxPriceAge). rewrite Hi. simpl.
    destruct (Z.ltb_spec (Z.of_nat n) (mmc_MinExchanges ammc)); [right|left].
    + split; [by eauto|]. by eexists.
    + split; [by intros ? [= <-]|].
      destruct (converted_total mc mmc (Some ammc) index (mpt_Price mpt) Hp) as [v Hv].
      destruct (Hup v) as (cache' & Hu & Hb). exists cache', v. split_and!; [|done..].
      unfold converted in Hv. destruct (Invert mc); [rewrite Hv|injection Hv as ->]; simpl;
        by rewrite Hu.
  - rewrite Hd. simpl. exists None, 0, 0%nat. split; [done|]. split; [done|]. left.
    split; [done|]. destruct (converted_total mc mmc None 0 (mpt_Price mpt) Hp) as [v Hv].
    destruct (Hup v) as (cache' & Hu & Hb). exists cache', v. split_and!; [|done..].
    unfold converted in Hv. destruct (Invert mc); [rewrite Hv|injection Hv as ->]; simpl;
      by rewrite Hu.
Qed.

(** a configuration update is all or nothing: accepted exactly when the
    exchange matches and the config is valid for the given markets, it replaces
    the whole state and establishes the encoder's invariant; otherwise it is an
    error and the state is kept. *)
Theorem PriceEncoder_UpdateMutableExchangeConfig_correct (p : PriceEncoderImpl)
    (newConfig : MutableExchangeMarketConfig) (newMarketConfigs : list MutableMarketConfig) :
  match PriceEncoder_UpdateMutableExchangeConfig p newConfig newMarketConfigs with
  | Ok p' =>
      memc_Id newConfig = pe_exchangeId p /\ encoder_ok p' /\
      pe_exchangeId p' = pe_exchangeId p /\
      mutableExchangeConfig (pe_mutableState p') = newConfig /\
      ms_marketToMutableConfig (pe_mutableState p') = marketToMutableConfig newMarketConfigs
  | Err _ =>
      memc_Id newConfig <> pe_exchangeId p \/
      ~ valid_exchange_config newConfig (marketToMutableConfig newMarketConfigs)
  | Panic _ => False
  end.
Proof.
  destruct (UpdateMutableExchangeConfig_cases p newConfig newMarketConfigs)
    as [(Hid & Hv & ->)|(Hn & err & ->)]; [|done].
  unfold encoder_ok. simpl. done.
Qed.
End Encoder.

(** ** A concrete encoder *)
Definition ex_cache : ExchangeToMarketPricesImpl :=
  match NewExchangeToMarketPrices ["Binance"; "Kraken"] with
  | Ok c =>
      match ExchangeToMarketPrices_UpdatePrice c "Kraken"
              (mkMarketPriceTimestamp 5 1000500 (100 * Second)) with
      | Ok c => c
      | _ => c
      end
  | _ => mkExchangeToMarketPrices ∅
  end.
Definition ex_config : MutableExchangeMarketConfig :=
  mkMutableExchangeMarketConfig "Binance" {[0 := mkMarketConfig "BTCUSDT" (Some 5) false]}.
Definition ex_markets : list MutableMarketConfig :=
  [mkMutableMarketConfig 0 "BTC-USD" (-5) 1; mkMutableMarketConfig 5 "USDT-USD" (-6) 1].
Definition ex_encoder : PriceEncoderImpl :=
  match NewPriceEncoder ex_config ex_markets with
  | Ok p => p
  | _ => mkPriceEncoder false "" (mkMutableState ex_config ∅)
  end.

Lemma ex_encoder_ok : encoder_ok ex_encoder.
Proof.
  split; [reflexivity|].
  apply (MutableExchangeMarketConfig_Validate_Ok ex_config ex_markets). reflexivity.
Qed.

Lemma ProcessPriceFetcherResponse_correct_witness :
  exists mmc adjust index n,
    ms_marketToMutableConfig (pe_mutableState ex_encoder) !! 0 = Some mmc /\
    (adjust = ms_marketToMutableConfig (pe_mutableState ex_encoder) !! 5 /\ is_Some adjust /\
     etm_GetIndexPrice ex_cache 5 (110 * Second - MaxPriceAge) (Median uint64) = Ok (index, n)).
Proof.
  destruct (ProcessPriceFetcherResponse_correct (D := Scaled.t) ex_encoder ex_cache (110 * Second)
    (mkMarketPriceTimestamp 0 6500000000 (109 * Second)) (mkMarketConfig "BTCUSDT" (Some 5) false))
    as (mmc & adjust & index & n & Hm & Ha & _).
  - exact ex_encoder_ok.
  - apply (bool_decide_unpack _). vm_compute. exact I.
  - reflexivity.
  - simpl. lia.
  - exists mmc, adjust, index, n. split; [exact Hm|exact Ha].
Defined.
