(* ===== verification/QueryHandler.v ===== *)
(** * pricefeed/client/queryhandler: one query of an exchange

    [Query] turns market ids into tickers, calls the exchange and turns the
    tickers' prices back into market prices. The HTTP client ([requestHandler])
    is a parameter; a price function is any function, and the law that the
    price functions of [Sources] satisfy is the class [PriceFunction]. *)
From Stdlib Require Import Ascii.
From S2P Require Import Prelude Text Median MarketConfig ClientCache ExchangeErrors PriceEncoder.
Local Open Scope Z_scope.

Record http_response := mkHttpResponse {
  StatusCode : Z;
  Body : string
}.

Definition price_function :=
  http_response -> gmap string Exponent -> Resolver -> go (gmap string Z * gmap string go_error).

Record ExchangeQueryDetails := mkExchangeQueryDetails {
  Exchange : ExchangeId;
  Url : string;
  PriceFunction : price_function;
  IsMultiMarket : bool
}.

(** A price function only speaks of the tickers it was asked for. *)
Class PriceFunctionLaw (f : price_function) := {
  price_function_tickers : forall response tickers resolver prices unavailable,
    f response tickers resolver = Ok (prices, unavailable) ->
    dom prices ⊆ dom tickers /\ dom unavailable ⊆ dom tickers
}.

(** [strings.Join(tickers, ",")], and [strings.ReplaceAll(baseUrl, "$", ...)]. *)
Definition join_tickers (tickers : list string) : string := strings_Join tickers ",".

Fixpoint replace_dollar (s with_ : string) : string :=
  match s with
  | EmptyString => EmptyString
  | String a s => if Ascii.eqb a "$" then with_ +:+ replace_dollar s with_
                  else String a (replace_dollar s with_)
  end.

Definition CreateRequestUrl (baseUrl : string) (tickers : list string) : string :=
  replace_dollar baseUrl (join_tickers tickers).

Definition UnexpectedResponseStatusMessage : string := "Unexpected response status code of:".

(** A status code, of three digits, is printed starting with a digit. *)
Lemma pretty_status_digit code :
  100 <= code <= 999 -> starts_with_digit (pretty code) = true.
Proof.
  intros Hc. assert (Forall (fun n => starts_with_digit (pretty (Z.of_nat n)) = true) (seq 0 1000)) as Hall
    by (apply (bool_decide_unpack _); vm_compute; exact I).
  rewrite Forall_forall in Hall. rewrite <- (Z2Nat.id code) by lia. apply Hall, elem_of_seq. lia.
Qed.

Section Query.
Context `{RangeOrder}.
(** [requestHandler.Get]: an error, or a response. *)
Variable Get : string -> go_error + http_response.

(** Step 2: the tickers, their exponents, and the way back to market ids. *)
Record ticker_maps := mkTickerMaps {
  tickers : list string;
  tickerToPriceExponent : gmap string Exponent;
  tickerToMarketId : gmap string MarketId
}.

Definition add_ticker (exchangeConfig : MutableExchangeMarketConfig)
    (marketPriceExponent : gmap MarketId Exponent) (t : ticker_maps) (marketId : MarketId)
    : go ticker_maps :=
  match MarketToMarketConfig exchangeConfig !! marketId with
  | None => Err (ErrNew ("no market config for market: " +:+ pretty marketId))
  | Some config =>
      match marketPriceExponent !! marketId with
      | None => Err (ErrNew ("no market price exponent for id: " +:+ pretty marketId))
      | Some priceExponent =>
          Ok (mkTickerMaps (tickers t ++ [Ticker config])
                (<[Ticker config := priceExponent]> (tickerToPriceExponent t))
                (<[Ticker config := marketId]> (tickerToMarketId t)))
      end
  end.

Definition unknown_ticker {A} (ticker : string) : go A :=
  Err (ErrNew ("severe unexpected error: no market id for ticker: " +:+ ticker)).

Definition Query (exchangeQueryDetails : ExchangeQueryDetails)
    (exchangeConfig : MutableExchangeMarketConfig) (marketIds : list MarketId)
    (marketPriceExponent : gmap MarketId Exponent) (now : Time)
    : go (list MarketPriceTimestamp * gmap MarketId go_error) :=
  if bool_decide (length marketIds = 0%nat) then
    Err (ErrNew "at least one marketId must be queried")
  else
    t ← foldM_go (add_ticker exchangeConfig marketPriceExponent) (mkTickerMaps [] ∅ ∅) marketIds;
    match Get (CreateRequestUrl (Url exchangeQueryDetails) (tickers t)) with
    | inl err => Err err
    | inr response =>
        if StatusCode response =? 429 then Err (ErrSentinel HandlerRateLimiting)
        else if (StatusCode response <? 200) || (299 <? StatusCode response) then
          Err (ErrNew (UnexpectedResponseStatusMessage +:+ " " +:+ pretty (StatusCode response)))
        else match PriceFunction exchangeQueryDetails response (tickerToPriceExponent t)
                     (Median uint64) with
        | Panic p => Panic p
        | Err err => Err (NewExchangeError (Exchange exchangeQueryDetails) (error_text err))
        | Ok (prices, unavailableTickers) =>
            marketPriceTimestamps ←
              mapM_go (fun '(ticker, price) =>
                match tickerToMarketId t !! ticker with
                | None => unknown_ticker ticker
                | Some marketId => Ok (mkMarketPriceTimestamp marketId price now)
                end) (range_of prices);
            unavailableMarkets ←
              foldM_go (fun m '(ticker, error) =>
                match tickerToMarketId t !! ticker with
                | None => unknown_ticker ticker
                | Some marketId => Ok (<[marketId := error]> m)
                end) ∅ (range_of unavailableTickers);
            Ok (marketPriceTimestamps, unavailableMarkets)
        end
    end.

(** ** Lemmas *)
Definition ticker_of (exchangeConfig : MutableExchangeMarketConfig) (m : MarketId)
    : option string := Ticker <$> MarketToMarketConfig exchangeConfig !! m.

(** The markets can be queried: configured, with an exponent. *)
Definition queryable (exchangeConfig : MutableExchangeMarketConfig)
    (exponents : gmap MarketId Exponent) (m : MarketId) : Prop :=
  is_Some (MarketToMarketConfig exchangeConfig !! m) /\ is_Some (exponents !! m).

(** The maps of step 2, from the markets queried. *)
Record maps_for (cfg : MutableExchangeMarketConfig) (exps : gmap MarketId Exponent)
    (ms : list MarketId) (t : ticker_maps) : Prop := {
  maps_for_tickers : tickers t = omap (ticker_of cfg) ms;
  maps_for_back : forall tk m, tickerToMarketId t !! tk = Some m <->
    m ∈ ms /\ ticker_of cfg m = Some tk;
  maps_for_exponents : forall tk e, tickerToPriceExponent t !! tk = Some e <->
    exists m, m ∈ ms /\ ticker_of cfg m = Some tk /\ exps !! m = Some e
}.

Definition distinct_tickers (cfg : MutableExchangeMarketConfig) (ms : list MarketId) : Prop :=
  forall m m', m ∈ ms -> m' ∈ ms -> ticker_of cfg m = ticker_of cfg m' -> m = m'.

Lemma add_tickers_Ok cfg exps ms :
  Forall (queryable cfg exps) ms -> distinct_tickers cfg ms ->
  exists t, foldM_go (add_ticker cfg exps) (mkTickerMaps [] ∅ ∅) ms = Ok t /\
    maps_for cfg exps ms t.
Proof.
  induction ms as [|m ms IH] using rev_ind; intros Hq Hinj.
  { eexists; split; [done|]. split; [done| |].
    - intros tk m. simpl. rewrite lookup_empty. split; [done|]. by intros [?%not_elem_of_nil _].
    - intros tk e. simpl. rewrite lookup_empty. split; [done|].
      by intros (m & ?%not_elem_of_nil & _). }
  apply Forall_app in Hq as [Hq Hm]. apply Forall_singleton in Hm as [[mc Hmc] [e He]].
  assert (forall m', m' ∈ ms -> m' ∈ ms ++ [m]) as Hin by (intros; apply elem_of_app; by left).
  destruct IH as (t & Ht & [Htk Hb Hx]); [done|intros m1 m2 ??; apply Hinj; auto|].
  assert (ticker_of cfg m = Some (Ticker mc)) as Htm by (unfold ticker_of; by rewrite Hmc).
  assert (forall m' , m' ∈ ms -> ticker_of cfg m' = Some (Ticker mc) -> m' = m) as Honly.
  { intros m' Hm' E. apply Hinj; [by apply Hin| |congruence]. apply elem_of_app. right. by left. }
  rewrite foldM_go_app, Ht. simpl. unfold add_ticker. rewrite Hmc, He. simpl.
  eexists; split; [done|]. split; simpl.
  - rewrite Htk, omap_app. simpl. by rewrite Htm.
  - intros tk m'. rewrite elem_of_app, list_elem_of_singleton, lookup_insert_Some, Hb. split.
    + intros [[<- <-]|[_ [? ?]]]; auto.
    + intros [[Hm'| ->] E]; [|left; split; [congruence|done]].
      destruct (decide (Ticker mc = tk)) as [<-|]; [|by right].
      left. by rewrite (Honly m').
  - intros tk e'. rewrite lookup_insert_Some, Hx. split.
    + intros [[<- <-]|[_ (m' & Hm' & E & Ee)]].
      * exists m. rewrite elem_of_app, list_elem_of_singleton. auto.
      * exists m'. auto.
    + intros (m' & [Hm'| ->%list_elem_of_singleton]%elem_of_app & E & Ee).
      * destruct (decide (Ticker mc = tk)) as [<-|]; [|right; split; [done|by exists m']].
        left. rewrite (Honly m') in Ee by done. split; [done|congruence].
      * left. split; congruence.
Qed.

Lemma insert_markets_Ok (back : gmap string MarketId) (l : list (string * go_error)) :
  (forall e, e ∈ l -> is_Some (back !! e.1)) ->
  (forall tk tk' m, back !! tk = Some m -> back !! tk' = Some m -> tk = tk') -> NoDup l.*1 ->
  exists r, foldM_go (fun m '(ticker, error) =>
      match back !! ticker with
      | None => unknown_ticker ticker
      | Some marketId => Ok (<[marketId := error]> m)
      end) (∅ : gmap MarketId go_error) l = Ok r /\
    forall m err, r !! m = Some err <-> exists tk, (tk, err) ∈ l /\ back !! tk = Some m.
Proof.
  intros Hb Hinj. induction l as [|[tk err] l IH] using rev_ind; intros Hnd.
  { exists ∅. split; [done|]. intros m err. rewrite lookup_empty. split; [done|].
    by intros (tk & ?%not_elem_of_nil & _). }
  rewrite fmap_app in Hnd. apply NoDup_app in Hnd as (Hnd & Hx & _).
  destruct IH as (r & Hr & Hl); [intros e He; apply Hb, elem_of_app; by left|done|].
  destruct (Hb (tk, err)) as [m Hm]; [apply elem_of_app; right; by left|]. simpl in Hm.
  rewrite foldM_go_app, Hr. simpl. rewrite Hm. simpl. eexists; split; [done|].
  intros m' err'. rewrite lookup_insert_Some, Hl. setoid_rewrite elem_of_app.
  setoid_rewrite list_elem_of_singleton. split.
  - intros [[<- <-]|[Hne (tk' & Hin & Hb')]]; [by exists tk; eauto|by exists tk'; eauto].
  - intros (tk' & [Hin|[= -> ->]] & Hb'); [|left; split; [congruence|done]].
    destruct (decide (m = m')) as [->|]; [|right; eauto].
    exfalso. apply (Hx tk'); [by apply (list_elem_of_fmap_2 fst) in Hin|].
    rewrite (Hinj tk' tk m') by done. by left.
Qed.

Lemma mapM_markets_Ok (back : gmap string MarketId) (l : list (string * Z)) (now : Time) :
  (forall e, e ∈ l -> is_Some (back !! e.1)) ->
  exists mpts, mapM_go (fun '(ticker, price) =>
      match back !! ticker with
      | None => unknown_ticker ticker
      | Some marketId => Ok (mkMarketPriceTimestamp marketId price now)
      end) l = Ok mpts /\
    Forall2 (fun e mpt => back !! e.1 = Some (mpt_MarketId mpt) /\ mpt_Price mpt = e.2 /\
               mpt_LastUpdatedAt mpt = now) l mpts.
Proof.
  induction l as [|[tk p] l IH]; intros Hb; simpl; [by exists []|].
  destruct (Hb (tk, p)) as [m Hm]; [by left|]. simpl in Hm. rewrite Hm. simpl.
  destruct IH as (mpts & -> & Hf); [intros e He; apply Hb; by right|]. simpl.
  eexists; split; [done|]. by constructor.
Qed.

(** The parts of a successful query. *)
Lemma Query_success details cfg ms exps t now prices unavailable :
  PriceFunctionLaw (PriceFunction details) -> maps_for cfg exps ms t ->
  dom prices ⊆ dom (tickerToPriceExponent t) -> dom unavailable ⊆ dom (tickerToPriceExponent t) ->
  exists mpts um,
    mapM_go (fun '(ticker, price) =>
      match tickerToMarketId t !! ticker with
      | None => unknown_ticker ticker
      | Some marketId => Ok (mkMarketPriceTimestamp marketId price now)
      end) (range_of prices) = Ok mpts /\
    foldM_go (fun m '(ticker, error) =>
      match tickerToMarketId t !! ticker with
      | None => unknown_ticker ticker
      | Some marketId => Ok (<[marketId := error]> m)
      end) (∅ : gmap MarketId go_error) (range_of unavailable) = Ok um /\
    (forall m p u, mkMarketPriceTimestamp m p u ∈ mpts <->
       u = now /\ m ∈ ms /\ exists tk, ticker_of cfg m = Some tk /\ prices !! tk = Some p) /\
    NoDup (mpt_MarketId <$> mpts) /\
    (forall m err, um !! m = Some err <->
       m ∈ ms /\ exists tk, ticker_of cfg m = Some tk /\ unavailable !! tk = Some err).
Proof.
  intros Hlaw [Htk Hb Hx] Hp Hu.
  assert (forall tk, tk ∈ dom (tickerToPriceExponent t) -> is_Some (tickerToMarketId t !! tk)) as Hdom.
  { intros tk [e (m & Hm & E & _)%Hx]%elem_of_dom. exists m. by apply Hb. }
  assert (forall tk tk' m, tickerToMarketId t !! tk = Some m -> tickerToMarketId t !! tk' = Some m ->
    tk = tk') as Hinj by (intros tk tk' m [_ H1]%Hb [_ H2]%Hb; congruence).
  destruct (mapM_markets_Ok (tickerToMarketId t) (range_of prices) now) as (mpts & Hm & Hf).
  { intros [tk p] He%elem_of_range_of. apply Hdom, Hp, elem_of_dom. by eexists. }
  destruct (insert_markets_Ok (tickerToMarketId t) (range_of unavailable)) as (um & Hum & Hl).
  { intros [tk p] He%elem_of_range_of. apply Hdom, Hu, elem_of_dom. by eexists. }
  { exact Hinj. }
  { apply range_of_NoDup_keys. }
  exists mpts, um. split_and!; [done|done| | |].
  - intros m p u. split.
    + intros Hin. destruct (Forall2_elem_of_r _ _ _ _ Hf Hin) as ([tk p'] & Hr & Hbk & Hpp & Hnow).
      simpl in *. apply elem_of_range_of in Hr. apply Hb in Hbk as [Hms E]. subst.
      split_and!; [done|done|by exists tk].
    + intros (-> & Hms & tk & E & Hpr). apply elem_of_range_of in Hpr.
      destruct (Forall2_elem_of_l _ _ _ _ Hf Hpr) as ([m' p' u'] & Hin & Hbk & Hpp & Hnow).
      simpl in *. subst. assert (tickerToMarketId t !! tk = Some m) as E' by by apply Hb.
      replace m with m' by congruence. done.
  - pose proof (range_of_NoDup_keys prices) as Hnd. revert Hnd Hf. clear -Hinj.
    generalize (range_of prices). intros l Hnd Hf. induction Hf as [|[tk p] mpt l mpts [E _] Hf IH];
      [constructor|]. rewrite fmap_cons in *. apply NoDup_cons in Hnd as [Hn Hnd].
    constructor; [|by apply IH]. intros (mpt' & Em & Hin)%list_elem_of_fmap.
    destruct (Forall2_elem_of_r _ _ _ _ Hf Hin) as ([tk' p'] & Hr & E' & _). simpl in *.
    apply Hn. rewrite (Hinj tk tk' (mpt_MarketId mpt)); [|done|congruence].
    by apply (list_elem_of_fmap_2 fst) in Hr.
  - intros m err. rewrite Hl. split.
    + intros (tk & Hr%elem_of_range_of & [Hms E]%Hb). eauto.
    + intros (Hms & tk & E & Hr). exists tk. split; [by apply elem_of_range_of|]. by apply Hb.
Qed.

(** ** Properties *)

(** C8: the outcome of a query of markets with distinct tickers, by the
    exchange's answer. A transport error is passed on, a 429 is a rate-limiting
    error, another status outside 2xx an error naming it, and an error of the
    price function an exchange error. Otherwise every market whose ticker got a
    price is returned once with it, at the time of the query, and every market
    whose ticker is unavailable is returned with its error; no market that was
    not asked for appears and the "severe unexpected error"s are unreachable. *)
Theorem Query_correct (details : ExchangeQueryDetails) (cfg : MutableExchangeMarketConfig)
    (ms : list MarketId) (exps : gmap MarketId Exponent) (now : Time) :
  PriceFunctionLaw (PriceFunction details) -> ms <> [] ->
  Forall (queryable cfg exps) ms -> distinct_tickers cfg ms ->
  exists t, maps_for cfg exps ms t /\
    let result := Query details cfg ms exps now in
    match Get (CreateRequestUrl (Url details) (tickers t)) with
    | inl err => result = Err err
    | inr response =>
        if StatusCode response =? 429 then result = Err (ErrSentinel HandlerRateLimiting)
        else if negb ((200 <=? StatusCode response) && (StatusCode response <=? 299)) then
          result = Err (ErrNew ("Unexpected response status code of: " +:+ pretty (StatusCode response)))
        else match PriceFunction details response (tickerToPriceExponent t) (Median uint64) with
        | Panic p => result = Panic p
        | Err err => result = Err (ErrExchange (Exchange details) (error_text err))
        | Ok (prices, unavailable) =>
            exists mpts um, result = Ok (mpts, um) /\ NoDup (mpt_MarketId <$> mpts) /\
              (forall m p u, mkMarketPriceTimestamp m p u ∈ mpts <->
                 u = now /\ m ∈ ms /\
                 exists tk, ticker_of cfg m = Some tk /\ prices !! tk = Some p) /\
              (forall m err, um !! m = Some err <->
                 m ∈ ms /\ exists tk, ticker_of cfg m = Some tk /\ unavailable !! tk = Some err)
        end
    end.
Proof.
  intros Hlaw Hne Hq Hd. destruct (add_tickers_Ok cfg exps ms Hq Hd) as (t & Ht & Hmaps).
  exists t. split; [done|]. cbn zeta. unfold Query.
  rewrite bool_decide_false by (by destruct ms). rewrite Ht. simpl.
  destruct (Get _) as [err|response]; [done|].
  destruct (StatusCode response =? 429); [done|].
  replace ((StatusCode response <? 200) || (299 <? StatusCode response))
    with (negb ((200 <=? StatusCode response) && (StatusCode response <=? 299))) by lia.
  destruct (negb _); [done|].
  destruct (PriceFunction details response (tickerToPriceExponent t) (Median uint64))
    as [[prices unavailable]|err|p] eqn:Ep; [|done..].
  destruct (price_function_tickers _ _ _ _ _ Ep) as [Hp Hu].
  destruct (Query_success details cfg ms exps t now prices unavailable Hlaw Hmaps Hp Hu)
    as (mpts & um & -> & Hf & Hm & Hnd & Hum).
  simpl. unfold unknown_ticker in *. rewrite Hf. simpl. by exists mpts, um.
Qed.

(** rate limiting is not recognised. The error a query returns on a 429 is
    the query handler's own [ErrRateLimiting]; the encoder compares with the one
    of the package constants, another error with the same text, so the failure
    is recorded under no reason instead of as rate limiting. *)
Theorem rate_limiting_not_recognised (details : ExchangeQueryDetails)
    (cfg : MutableExchangeMarketConfig) (ms : list MarketId) (exps : gmap MarketId Exponent)
    (now : Time) (t : ticker_maps) (response : http_response) :
  ms <> [] -> foldM_go (add_ticker cfg exps) (mkTickerMaps [] ∅ ∅) ms = Ok t ->
  Get (CreateRequestUrl (Url details) (tickers t)) = inr response -> StatusCode response = 429 ->
  exists err, Query details cfg ms exps now = Err err /\
    error_text err = error_text (ErrSentinel ConstRateLimiting) /\
    classify_failure err = OtherFailure.
Proof.
  intros Hne Ht Hg Hs. exists (ErrSentinel HandlerRateLimiting). split; [|done].
  unfold Query. rewrite bool_decide_false by (by destruct ms). rewrite Ht. simpl.
  by rewrite Hg, Hs.
Qed.

(** the patterns of generic exchange errors promise 5xx answers, but every
    status outside 2xx except 429, client errors such as 404 included, is
    recorded as a 5xx failure. *)
Theorem unexpected_status_is_5xx (code : Z) :
  100 <= code <= 999 ->
  classify_failure (ErrNew (UnexpectedResponseStatusMessage +:+ " " +:+ pretty code)) = HttpGet5xx.
Proof.
  intros Hc. unfold classify_failure. simpl.
  assert (IsGenericExchangeError (ErrNew (UnexpectedResponseStatusMessage +:+ " " +:+ pretty code))
    = true) as ->; [|done].
  unfold IsGenericExchangeError. apply existsb_exists.
  exists (matches "Unexpected response status code of: " starts_with_digit). split.
  { do 3 right. by left. }
  change (error_text _) with ("" +:+ "Unexpected response status code of: " +:+ pretty code).
  apply matches_intro. by apply pretty_status_digit.
Qed.
End Query.

(** ** A concrete exchange: two markets on one url *)
Definition ex_price_function : price_function := fun response tickers resolver =>
  if bool_decide (Body response = "ok") then
    Ok (filter (fun e : string * Z => e.1 = "BTCUSDT") (const 6500000 <$> tickers),
        filter (fun e : string * go_error => e.1 <> "BTCUSDT")
          (const (ErrNew "no listing found") <$> tickers))
  else Err (ErrNew "bad body").
#[export] Instance ex_price_function_law : PriceFunctionLaw ex_price_function.
Proof.
  split. intros response tickers resolver prices unavailable. unfold ex_price_function.
  case_bool_decide; [|done]. intros [= <- <-]. split.
  - etransitivity; [apply dom_filter_subseteq|]. by rewrite dom_fmap.
  - etransitivity; [apply dom_filter_subseteq|]. by rewrite dom_fmap.
Qed.
Definition ex_details : ExchangeQueryDetails :=
  mkExchangeQueryDetails "Binance" "https://api/ticker?symbols=$" ex_price_function true.
Definition ex_query_config : MutableExchangeMarketConfig :=
  mkMutableExchangeMarketConfig "Binance"
    {[0 := mkMarketConfig "BTCUSDT" None false; 1 := mkMarketConfig "ETHUSDT" None false]}.
Definition ex_get (status : Z) (url : string) : go_error + http_response :=
  if bool_decide (url = "https://api/ticker?symbols=BTCUSDT,ETHUSDT")
  then inr (mkHttpResponse status "ok") else inl (ErrSentinel ConnReset).
Definition ex_exponents : gmap MarketId Exponent := {[0 := -5; 1 := -6]}.

Lemma Query_correct_witness :
  exists t, maps_for ex_query_config ex_exponents [0; 1] t /\
    Query (ex_get 200) ex_details ex_query_config [0; 1] ex_exponents 77 =
      Ok ([mkMarketPriceTimestamp 0 6500000 77], {[1 := ErrNew "no listing found"]}).
Proof.
  destruct (Query_correct (ex_get 200) ex_details ex_query_config [0; 1] ex_exponents 77)
    as (t & Ht & _).
  - apply _.
  - done.
  - do 2 (constructor; [split; by eexists|]). constructor.
  - intros m m' Hm Hm'. repeat (apply elem_of_cons in Hm as [->|Hm]);
      repeat (apply elem_of_cons in Hm' as [->|Hm']); try done;
      try (by apply not_elem_of_nil in Hm); by apply not_elem_of_nil in Hm'.
  - exists t. split; [exact Ht|reflexivity].
Defined.

Lemma rate_limiting_not_recognised_witness :
  exists err, Query (ex_get 429) ex_details ex_query_config [0; 1] ex_exponents 77 = Err err /\
    error_text err = error_text (ErrSentinel ConstRateLimiting) /\
    classify_failure err = OtherFailure.
Proof.
  eapply (rate_limiting_not_recognised (ex_get 429) ex_details ex_query_config [0; 1] ex_exponents 77);
    [done|reflexivity|reflexivity|reflexivity].
Defined.

Lemma unexpected_status_is_5xx_witness :
  classify_failure (ErrNew (UnexpectedResponseStatusMessage +:+ " " +:+ pretty 404)) = HttpGet5xx.
Proof. apply (unexpected_status_is_5xx 404). lia. Defined.
