(* ===== verification/PriceFetcher.v ===== *)
(** * pricefeed/client/price_fetcher: which markets to query, and what is sent on

    Single-market exchanges are queried round robin, over a ring of the market
    ids from the package [typ.v4/lists]: its documented behaviour is the class
    [Ring]. Every method that takes the lock of the mutable state is one atomic
    step. A query is the parameter [Query]; the channel to the encoder is the
    list of the responses written. *)
From S2P Require Import Prelude Median MarketConfig ClientCache PriceEncoder.
Local Open Scope Z_scope.

(** A ring has a current element; [Next] moves to the element after it, and
    the element's value can be set. [ring_list] lists it from the current one. *)
Class Ring (R : Type) := {
  ring_list : R -> list Z;
  NewRing : nat -> option R;          (** nil for no elements *)
  ring_Value : R -> Z;
  ring_SetValue : R -> Z -> R;
  ring_Next : R -> R;

  NewRing_zero : NewRing 0 = None;
  NewRing_list : forall n, (0 < n)%nat -> exists r, NewRing n = Some r /\ length (ring_list r) = n;
  ring_Value_spec : forall r, exists tl, ring_list r = ring_Value r :: tl;
  ring_SetValue_spec : forall r v, ring_list (ring_SetValue r v) = v :: tail (ring_list r);
  ring_Next_spec : forall r, ring_list (ring_Next r) = tail (ring_list r) ++ take 1 (ring_list r)
}.

Record ExchangeQueryConfig := mkExchangeQueryConfig {
  eqc_ExchangeId : ExchangeId;
  IntervalMs : Z;
  TimeoutMs : Z;
  MaxQueries : Z
}.

Section Fetcher.
Context `{RangeOrder}.
Context {R : Type} `{Ring R}.

(** mutable_state.go *)
Record fetcherState := mkFetcherState {
  fs_mutableExchangeConfig : MutableExchangeMarketConfig;
  marketExponents : gmap MarketId Exponent;
  marketIdsRing : option R
}.

Definition GetMarketIds (ms : fetcherState) : list MarketId :=
  MutableExchangeMarketConfig_GetMarketIds (fs_mutableExchangeConfig ms).

(** Reading or advancing the ring through a nil pointer panics. *)
Fixpoint next_markets (ring : option R) (n : nat) : go (list MarketId * option R) :=
  match n with
  | O => Ok ([], ring)
  | S n =>
      match ring with
      | None => Panic NilDereference
      | Some r =>
          rest ← next_markets (Some (ring_Next r)) n;
          Ok (ring_Value r :: rest.1, rest.2)
      end
  end.

Definition GetNextNMarkets (ms : fetcherState) (n : nat) : go (list MarketId * fetcherState) :=
  r ← next_markets (marketIdsRing ms) n;
  Ok (r.1, mkFetcherState (fs_mutableExchangeConfig ms) (marketExponents ms) r.2).

Record taskLoopDefinition := mkTaskLoopDefinition {
  tld_mutableExchangeConfig : MutableExchangeMarketConfig;
  tld_marketExponents : gmap MarketId Exponent;
  tld_marketIds : list MarketId
}.

Definition mutableState_getTaskLoopDefinition (ms : fetcherState) (isMultiMarket : bool)
    (maxQueries : nat) : go (taskLoopDefinition * fetcherState) :=
  r ← (if isMultiMarket then Ok (GetMarketIds ms, marketIdsRing ms)
       else next_markets (marketIdsRing ms) maxQueries);
  Ok (mkTaskLoopDefinition (MutableExchangeMarketConfig_Copy (fs_mutableExchangeConfig ms))
        (marketExponents ms) r.1,
      mkFetcherState (fs_mutableExchangeConfig ms) (marketExponents ms) r.2).

(** price_fetcher.go *)
Record PriceFetcher := mkPriceFetcher {
  exchangeQueryConfig : ExchangeQueryConfig;
  pf_IsMultiMarket : bool;
  pf_mutableState : fetcherState
}.

(** Writes the ids around the ring. *)
Fixpoint fill_ring (ring : option R) (ids : list MarketId) : go (option R) :=
  match ids with
  | [] => Ok ring
  | marketId :: ids =>
      match ring with
      | None => Panic NilDereference
      | Some r => fill_ring (Some (ring_Next (ring_SetValue r marketId))) ids
      end
  end.

Definition PriceFetcher_UpdateMutableExchangeConfig (p : PriceFetcher)
    (newConfig : MutableExchangeMarketConfig) (newMarketConfigs : list MutableMarketConfig)
    : go PriceFetcher :=
  if negb (bool_decide (memc_Id newConfig = eqc_ExchangeId (exchangeQueryConfig p))) then
    Err (ErrNew "PriceFetcher.UpdateMutableExchangeConfig: exchange id mismatch")
  else match MutableExchangeMarketConfig_Validate newConfig newMarketConfigs with
  | Err err => Err (wrapf "PriceFetcher.UpdateMutableExchangeConfig: invalid exchange config update" err)
  | Panic pn => Panic pn
  | Ok _ =>
      let exponents := foldl (fun m marketConfig => <[mmc_Id marketConfig := mmc_Exponent marketConfig]> m)
                         (∅ : gmap MarketId Exponent) newMarketConfigs in
      ring ← fill_ring (NewRing (length (MutableExchangeMarketConfig_GetMarketIds newConfig)))
               (MutableExchangeMarketConfig_GetMarketIds newConfig);
      Ok (mkPriceFetcher (exchangeQueryConfig p) (pf_IsMultiMarket p)
            (mkFetcherState newConfig exponents ring))
  end.

Definition NewPriceFetcher (config : ExchangeQueryConfig) (isMultiMarket : bool)
    (mutableExchangeConfig : MutableExchangeMarketConfig)
    (mutableMarketConfigs : list MutableMarketConfig) : go PriceFetcher :=
  let pf := mkPriceFetcher config isMultiMarket
    (mkFetcherState (mkMutableExchangeMarketConfig "" ∅) ∅ None) in
  PriceFetcher_UpdateMutableExchangeConfig pf mutableExchangeConfig mutableMarketConfigs.

Definition getNumQueriesPerTaskLoop (p : PriceFetcher) : Z :=
  if pf_IsMultiMarket p then 1
  else Min (MaxQueries (exchangeQueryConfig p)) (Z.of_nat (length (GetMarketIds (pf_mutableState p)))).

Definition isMultiMarketAndHasMarkets (pf : PriceFetcher) : bool :=
  pf_IsMultiMarket pf && bool_decide (0 < Z.of_nat (length (GetMarketIds (pf_mutableState pf)))).

Definition with_state (p : PriceFetcher) (ms : fetcherState) : PriceFetcher :=
  mkPriceFetcher (exchangeQueryConfig p) (pf_IsMultiMarket p) ms.

(** The two halves of [getTaskLoopDefinition]: the number of queries is read
    under one lock and used under another. *)
Definition take_markets (p : PriceFetcher) (numQueries : Z) : go (taskLoopDefinition * PriceFetcher) :=
  r ← mutableState_getTaskLoopDefinition (pf_mutableState p) (pf_IsMultiMarket p) (Z.to_nat numQueries);
  Ok (r.1, with_state p r.2).

Definition getTaskLoopDefinition (p : PriceFetcher) : go (taskLoopDefinition * PriceFetcher) :=
  take_markets p (getNumQueriesPerTaskLoop p).

(** The parameters of the queries of one task loop, run in parallel. *)
Definition subtasks (pf : PriceFetcher) (definition : taskLoopDefinition) : list (list MarketId) :=
  if isMultiMarketAndHasMarkets pf then [tld_marketIds definition]
  else (fun market => [market]) <$> tld_marketIds definition.

(** ** Lemmas *)
Definition rotate {A} (n : nat) (l : list A) : list A := drop n l ++ take n l.

Lemma rotate_rotate {A} n (l : list A) :
  (S n <= length l)%nat -> tail (rotate n l) ++ take 1 (rotate n l) = rotate (S n) l.
Proof.
  intros Hn. unfold rotate. destruct (drop n l) as [|x d] eqn:E.
  - apply (f_equal length) in E. rewrite length_drop in E. simpl in E. lia.
  - simpl. assert (take (S n) l = take n l ++ [x]) as ->.
    { apply take_S_r. rewrite <- (Nat.add_0_r n), <- lookup_drop, E. done. }
    assert (drop (S n) l = d) as ->.
    { replace (S n) with (n + 1)%nat by lia. rewrite <- drop_drop, E. done. }
    by rewrite app_assoc.
Qed.

Lemma rotate_full {A} (l : list A) : rotate (length l) l = l.
Proof. unfold rotate. by rewrite drop_all, firstn_all. Qed.

Lemma take_cycle_lookup (l : list Z) (n : nat) :
  (n < length l)%nat -> exists x tl, rotate n l = x :: tl /\ l !! n = Some x.
Proof.
  intros Hn. destruct (lookup_lt_is_Some_2 l n Hn) as [x Hx].
  unfold rotate. rewrite (drop_S _ _ _ Hx). simpl. eauto.
Qed.

(** Reading [k <= length] elements gives the first [k] and leaves the ring
    rotated by [k]. *)
Lemma next_markets_spec k r l :
  ring_list r = l -> (k <= length l)%nat ->
  exists r', next_markets (Some r) k = Ok (take k l, Some r') /\ ring_list r' = rotate k l.
Proof.
  intros Hr. revert r l Hr. induction k as [|k IH]; intros r l Hr Hk; simpl.
  { exists r. rewrite take_0. split; [done|]. unfold rotate. by rewrite drop_0, take_0, app_nil_r. }
  destruct (ring_Value_spec r) as [tl Htl]. rewrite Hr in Htl. subst l.
  pose proof (ring_Next_spec r) as Hn. rewrite Htl in *. simpl in Hk, Hn.
  destruct (IH (ring_Next r) (tl ++ [ring_Value r])) as (r' & E & Hr').
  { done. }
  { rewrite length_app. simpl. lia. }
  rewrite E. simpl. exists r'. rewrite take_app_le by lia. split; [done|].
  rewrite Hr'. unfold rotate. rewrite drop_app_le, take_app_le by lia. simpl.
  by rewrite <- app_assoc.
Qed.

Lemma fill_ring_spec ids r l :
  ring_list r = l -> (length ids <= length l)%nat ->
  exists r', fill_ring (Some r) ids = Ok (Some r') /\
    ring_list r' = drop (length ids) l ++ ids.
Proof.
  revert r l. induction ids as [|m ids IH]; intros r l Hr Hl; simpl.
  { exists r. by rewrite drop_0, app_nil_r. }
  destruct (ring_Value_spec r) as [tl Htl]. rewrite Hr in Htl. subst l.
  assert (ring_list (ring_Next (ring_SetValue r m)) = tl ++ [m]) as Hn.
  { rewrite ring_Next_spec, ring_SetValue_spec, Htl. done. }
  rewrite Htl in Hl |- *. simpl in Hl.
  destruct (IH _ _ Hn) as (r' & E & Hr'); [rewrite length_app; simpl; lia|].
  exists r'. split; [done|]. rewrite Hr', drop_app_le by lia. simpl. by rewrite <- app_assoc.
Qed.

(** The ring of a configuration lists its markets, in order. *)
Lemma fill_NewRing ids :
  exists ring, fill_ring (NewRing (length ids)) ids = Ok ring /\
    match ring with Some r => ring_list r = ids | None => ids = [] end.
Proof.
  destruct ids as [|m ids]; [by rewrite NewRing_zero; exists None|].
  destruct (NewRing_list (length (m :: ids))) as (r & -> & Hlen); [simpl; lia|].
  destruct (fill_ring_spec (m :: ids) r (ring_list r) eq_refl) as (r' & E & Hr'); [lia|].
  exists (Some r'). split; [done|]. rewrite Hr', drop_ge by lia. done.
Qed.

Lemma rotate_lookup (l : list Z) n j :
  (n <= length l)%nat -> (j < length l)%nat ->
  rotate n l !! j = l !! Nat.modulo (n + j) (length l).
Proof.
  intros Hn Hj. unfold rotate. destruct (decide (n + j < length l)%nat).
  - rewrite Nat.mod_small by lia. rewrite lookup_app_l by (rewrite length_drop; lia).
    by rewrite lookup_drop.
  - rewrite lookup_app_r by (rewrite length_drop; lia). rewrite length_drop.
    rewrite lookup_take_lt by lia. f_equal.
    rewrite <- (Nat.mod_small (j - (length l - n)) (length l)) by lia.
    replace (n + j)%nat with (j - (length l - n) + 1 * length l)%nat by lia.
    by rewrite Nat.Div0.mod_add.
Qed.

Lemma length_rotate {A} n (l : list A) : length (rotate n l) = length l.
Proof. unfold rotate. rewrite length_app, length_drop, length_take. lia. Qed.

Lemma rotate_add (l : list Z) n q :
  (n < length l)%nat -> (q <= length l)%nat ->
  rotate q (rotate n l) = rotate (Nat.modulo (n + q) (length l)) l.
Proof.
  intros Hn Hq. assert (Nat.modulo (n + q) (length l) < length l)%nat
    by (apply Nat.mod_upper_bound; lia).
  apply list_eq. intros j. destruct (decide (j < length l)%nat) as [Hj|Hj].
  - rewrite !rotate_lookup by (rewrite ?length_rotate; lia || (apply Nat.mod_upper_bound; lia)).
    rewrite length_rotate. f_equal. rewrite Nat.Div0.add_mod_idemp_l, Nat.Div0.add_mod_idemp_r. f_equal. lia.
  - rewrite !lookup_ge_None_2 by (rewrite ?length_rotate; lia). done.
Qed.

(** ** The invariant of a fetcher: its ring lists its markets from some offset *)
Definition fetcher_ok (p : PriceFetcher) : Prop :=
  let ids := GetMarketIds (pf_mutableState p) in
  memc_Id (fs_mutableExchangeConfig (pf_mutableState p)) = eqc_ExchangeId (exchangeQueryConfig p) /\
  match marketIdsRing (pf_mutableState p) with
  | Some r => exists t, (t < length ids)%nat /\ ring_list r = rotate t ids
  | None => ids = []
  end.

Definition at_offset (p : PriceFetcher) (t : nat) : Prop :=
  exists r, marketIdsRing (pf_mutableState p) = Some r /\
    ring_list r = rotate (Nat.modulo t (length (GetMarketIds (pf_mutableState p))))
                    (GetMarketIds (pf_mutableState p)).

(** The [q] markets from position [t] on, around the list. *)
Definition window (ids : list MarketId) (t q : nat) : list MarketId :=
  take q (rotate (Nat.modulo t (length ids)) ids).

Lemma window_lookup ids t q j :
  ids <> [] -> (j < q)%nat -> (q <= length ids)%nat ->
  window ids t q !! j = ids !! Nat.modulo (t + j) (length ids).
Proof.
  intros Hne Hj Hq. assert (0 < length ids)%nat by (destruct ids; simpl; [done|lia]).
  pose proof (Nat.mod_upper_bound t (length ids) ltac:(lia)).
  unfold window. rewrite lookup_take_lt, rotate_lookup by lia.
  by rewrite Nat.Div0.add_mod_idemp_l.
Qed.

Lemma window_NoDup ids t q : NoDup ids -> NoDup (window ids t q).
Proof.
  intros Hnd. unfold window. eapply sublist_NoDup; [|apply sublist_take].
  unfold rotate. rewrite Permutation_app_comm, take_drop. done.
Qed.

Lemma take_markets_at p t q :
  pf_IsMultiMarket p = false -> at_offset p t -> GetMarketIds (pf_mutableState p) <> [] ->
  (q <= length (GetMarketIds (pf_mutableState p)))%nat ->
  exists d p', take_markets p (Z.of_nat q) = Ok (d, p') /\
    tld_marketIds d = window (GetMarketIds (pf_mutableState p)) t q /\
    exchangeQueryConfig p' = exchangeQueryConfig p /\ pf_IsMultiMarket p' = false /\
    fs_mutableExchangeConfig (pf_mutableState p') = fs_mutableExchangeConfig (pf_mutableState p) /\
    at_offset p' (t + q).
Proof.
  intros Hm (r & Hr & Hl) Hne Hq. set (ids := GetMarketIds (pf_mutableState p)) in *.
  assert (0 < length ids)%nat by (destruct ids; simpl; [done|lia]).
  pose proof (Nat.mod_upper_bound t (length ids) ltac:(lia)) as Ht.
  unfold take_markets, mutableState_getTaskLoopDefinition. rewrite Hm, Hr, Nat2Z.id.
  destruct (next_markets_spec q r _ Hl) as (r' & E & Hr'); [rewrite length_rotate; lia|].
  rewrite E. simpl. do 2 eexists; split_and!; [done|done|done|done|done|].
  exists r'. simpl. split; [done|]. unfold GetMarketIds. simpl.
  fold (GetMarketIds (pf_mutableState p)). fold ids.
  rewrite Hr', rotate_add by done. by rewrite Nat.Div0.add_mod_idemp_l.
Qed.

(** Task loops without a configuration update in between. *)
Fixpoint task_loops (p : PriceFetcher) (n : nat) : go (list (list MarketId) * PriceFetcher) :=
  match n with
  | O => Ok ([], p)
  | S n =>
      r ← getTaskLoopDefinition p;
      rest ← task_loops r.2 n;
      Ok (tld_marketIds r.1 :: rest.1, rest.2)
  end.

Lemma task_loops_spec n p t q :
  pf_IsMultiMarket p = false -> at_offset p t -> GetMarketIds (pf_mutableState p) <> [] ->
  getNumQueriesPerTaskLoop p = Z.of_nat q ->
  exists p', task_loops p n =
    Ok ((fun i => window (GetMarketIds (pf_mutableState p)) (t + i * q) q) <$> seq 0 n, p').
Proof.
  revert p t. induction n as [|n IH]; intros p t Hm Hat Hne Hq; simpl; [by exists p|].
  assert (q <= length (GetMarketIds (pf_mutableState p)))%nat as Hle.
  { unfold getNumQueriesPerTaskLoop in Hq. rewrite Hm, Min_min in Hq. lia. }
  unfold getTaskLoopDefinition. rewrite Hq.
  destruct (take_markets_at p t q Hm Hat Hne Hle) as (d & p1 & -> & Hd & Hc & Hm1 & Hf & Hat1).
  simpl.
  assert (GetMarketIds (pf_mutableState p1) = GetMarketIds (pf_mutableState p)) as Hids
    by (unfold GetMarketIds; by rewrite Hf).
  destruct (IH p1 (t + q)%nat Hm1 Hat1) as (p' & ->).
  { by rewrite Hids. }
  { unfold getNumQueriesPerTaskLoop in *. by rewrite Hm1, Hids, Hc, <- Hq, Hm. }
  simpl. exists p'. rewrite Hd, Hids, Nat.add_0_r. do 3 f_equal.
  rewrite <- seq_shift, <- list_fmap_compose. apply list_fmap_ext. intros i x Hx. simpl.
  f_equal. lia.
Qed.

Lemma exponents_fmap markets :
  foldl (fun m marketConfig => <[mmc_Id marketConfig := mmc_Exponent marketConfig]> m)
    (∅ : gmap MarketId Exponent) markets = mmc_Exponent <$> marketToMutableConfig markets.
Proof.
  unfold marketToMutableConfig. induction markets as [|c markets IH] using rev_ind; simpl.
  { by rewrite fmap_empty. }
  rewrite !foldl_app. simpl. by rewrite fmap_insert, IH.
Qed.

Lemma update_at_zero p cfg markets p' :
  PriceFetcher_UpdateMutableExchangeConfig p cfg markets = Ok p' ->
  exchangeQueryConfig p' = exchangeQueryConfig p /\ pf_IsMultiMarket p' = pf_IsMultiMarket p /\
  fs_mutableExchangeConfig (pf_mutableState p') = cfg /\
  marketExponents (pf_mutableState p') = mmc_Exponent <$> marketToMutableConfig markets /\
  memc_Id cfg = eqc_ExchangeId (exchangeQueryConfig p) /\
  valid_exchange_config cfg (marketToMutableConfig markets) /\
  match marketIdsRing (pf_mutableState p') with
  | Some r => ring_list r = MutableExchangeMarketConfig_GetMarketIds cfg
  | None => MutableExchangeMarketConfig_GetMarketIds cfg = []
  end.
Proof.
  unfold PriceFetcher_UpdateMutableExchangeConfig.
  destruct (bool_decide_reflect (memc_Id cfg = eqc_ExchangeId (exchangeQueryConfig p))); simpl; [|done].
  destruct (MutableExchangeMarketConfig_Validate cfg markets) as [[]| |] eqn:Ev; [|done..].
  apply MutableExchangeMarketConfig_Validate_Ok in Ev.
  destruct (fill_NewRing (MutableExchangeMarketConfig_GetMarketIds cfg)) as (ring & -> & Hr).
  simpl. intros [= <-]. simpl. split_and!; try done. apply exponents_fmap.
Qed.

Lemma at_zero_of_update p cfg markets p' :
  PriceFetcher_UpdateMutableExchangeConfig p cfg markets = Ok p' ->
  MutableExchangeMarketConfig_GetMarketIds cfg <> [] -> at_offset p' 0.
Proof.
  intros (_ & _ & Hf & _ & _ & _ & Hr)%update_at_zero Hne. unfold at_offset, GetMarketIds.
  rewrite Hf. destruct (marketIdsRing (pf_mutableState p')) as [r|]; [|done].
  exists r. split; [done|]. rewrite Hr. unfold rotate.
  rewrite Nat.mod_0_l by (by destruct (MutableExchangeMarketConfig_GetMarketIds cfg)).
  by rewrite drop_0, take_0, app_nil_r.
Qed.

(** Position [x] of a cycle of [k] is met within [k] steps from any [a]. *)
Lemma meet_in_cycle (a x k : nat) :
  (x < k)%nat -> exists y, (a <= y < a + k)%nat /\ Nat.modulo y k = x.
Proof.
  intros Hx. exists (a + Nat.modulo (x + (k - Nat.modulo a k)) k)%nat.
  pose proof (Nat.mod_upper_bound (x + (k - Nat.modulo a k)) k ltac:(lia)).
  pose proof (Nat.mod_upper_bound a k ltac:(lia)). split; [lia|].
  rewrite Nat.Div0.add_mod_idemp_r, <- Nat.Div0.add_mod_idemp_l.
  replace (Nat.modulo a k + (x + (k - Nat.modulo a k)))%nat with (x + 1 * k)%nat by lia.
  rewrite Nat.Div0.mod_add. by apply Nat.mod_small.
Qed.

Lemma windows_cover ids q c n i m :
  (0 < q <= length ids)%nat -> (length ids <= c * q)%nat -> m ∈ ids -> (i + c <= n)%nat ->
  exists i' ms, (i <= i' < i + c)%nat /\
    ((fun i => window ids (0 + i * q) q) <$> seq 0 n) !! i' = Some ms /\ m ∈ ms.
Proof.
  intros Hq Hc [x Hx]%list_elem_of_lookup Hin. pose proof (lookup_lt_Some _ _ _ Hx) as Hlt.
  destruct (meet_in_cycle (i * q) x (length ids) Hlt) as (y & Hy & Hm).
  pose proof (Nat.div_mod_eq y q) as Ey. pose proof (Nat.mod_upper_bound y q ltac:(lia)) as Hb.
  set (i' := Nat.div y q) in *. set (j := Nat.modulo y q) in *.
  assert (i <= i')%nat by (apply Nat.div_le_lower_bound; nia).
  assert (i' < i + c)%nat by (apply Nat.Div0.div_lt_upper_bound; nia).
  exists i', (window ids (0 + i' * q) q). split_and!; [lia|lia| |].
  - rewrite list_lookup_fmap, lookup_seq_lt by lia. done.
  - apply list_elem_of_lookup. exists j. rewrite window_lookup; [|by intros ->|lia|lia].
    replace (0 + i' * q + j)%nat with y by lia. by rewrite Hm.
Qed.

(** ** Properties *)

(** C9: round robin. After an accepted configuration of a single-market
    exchange with [k] markets, every task loop queries
    [q = min (MaxQueries, k)] distinct markets of the exchange, and every
    market is queried in any [c] consecutive loops with [c * q >= k]: no
    market starves. No loop panics. *)
Theorem round_robin (p p' : PriceFetcher) (cfg : MutableExchangeMarketConfig)
    (markets : list MutableMarketConfig) (n c : nat) :
  PriceFetcher_UpdateMutableExchangeConfig p cfg markets = Ok p' ->
  pf_IsMultiMarket p = false -> 0 < MaxQueries (exchangeQueryConfig p) ->
  let ids := MutableExchangeMarketConfig_GetMarketIds cfg in
  let q := Nat.min (Z.to_nat (MaxQueries (exchangeQueryConfig p))) (length ids) in
  ids <> [] -> (length ids <= c * q)%nat ->
  exists loops p'', task_loops p' n = Ok (loops, p'') /\ length loops = n /\
    (forall ms, ms ∈ loops -> NoDup ms /\ length ms = q /\ ms ⊆ ids) /\
    (forall i m, m ∈ ids -> (i + c <= n)%nat ->
       exists i' ms, (i <= i' < i + c)%nat /\ loops !! i' = Some ms /\ m ∈ ms).
Proof.
  intros Hu Hm Hmax ids q Hne Hc.
  destruct (update_at_zero _ _ _ _ Hu) as (Hcfg & Hm' & Hf & _ & _ & _ & _).
  assert (GetMarketIds (pf_mutableState p') = ids) as Hids by (unfold GetMarketIds; by rewrite Hf).
  assert (0 < length ids)%nat as Hlen by (destruct ids; simpl; [done|lia]).
  destruct (task_loops_spec n p' 0 q) as (p'' & E).
  - congruence.
  - by eapply at_zero_of_update.
  - by rewrite Hids.
  - unfold getNumQueriesPerTaskLoop. rewrite Hm', Hm, Min_min, Hids, Hcfg. unfold q. lia.
  - exists ((fun i => window ids (0 + i * q) q) <$> seq 0 n), p''.
    rewrite E, Hids. split_and!; [done|by rewrite length_fmap, length_seq| |].
    + intros ms (i & -> & _)%list_elem_of_fmap. split_and!.
      * apply window_NoDup. apply (GetSortedKeys_spec (MarketToMarketConfig cfg)).
      * unfold window. rewrite length_take, length_rotate. unfold q. lia.
      * intros m Hin. unfold window, rotate in Hin. apply elem_of_take in Hin as (j & Hj & _).
        apply list_elem_of_lookup_2, elem_of_app in Hj.
        rewrite <- (take_drop (Nat.modulo (0 + i * q) (length ids)) ids). apply elem_of_app. tauto.
    + intros i m Hin Hi. apply windows_cover; [unfold q; lia|done|done|done].
Qed.

(** the number of queries of a loop is read under one lock and used under
    another. If the exchange loses all its markets in between (an update that
    [UpdateMutableExchangeConfig] accepts), the loop reads the empty ring
    through a nil pointer and panics. *)
Theorem lost_markets_panic (p p' : PriceFetcher) (cfg : MutableExchangeMarketConfig)
    (markets : list MutableMarketConfig) :
  pf_IsMultiMarket p = false -> 0 < getNumQueriesPerTaskLoop p ->
  PriceFetcher_UpdateMutableExchangeConfig p cfg markets = Ok p' -> MarketToMarketConfig cfg = ∅ ->
  take_markets p' (getNumQueriesPerTaskLoop p) = Panic NilDereference.
Proof.
  intros Hm Hq Hu Hempty. destruct (update_at_zero _ _ _ _ Hu) as (_ & Hm' & Hf & _ & _ & _ & Hr).
  assert (MutableExchangeMarketConfig_GetMarketIds cfg = []) as Hids.
  { apply elem_of_nil_inv. intros m Hin.
    apply (GetSortedKeys_spec (MarketToMarketConfig cfg)) in Hin as [mc Hmc].
    by rewrite Hempty, lookup_empty in Hmc. }
  destruct (marketIdsRing (pf_mutableState p')) as [r|] eqn:Er.
  - destruct (ring_Value_spec r) as [tl Htl]. congruence.
  - unfold take_markets, mutableState_getTaskLoopDefinition. rewrite Hm', Hm, Er.
    destruct (Z.to_nat (getNumQueriesPerTaskLoop p)) eqn:En; [lia|]. done.
Qed.

End Fetcher.

(** ** Running the queries *)
Section Run.
Context `{RangeOrder}.
Context {R : Type} `{Ring R}.
Variable Query : MutableExchangeMarketConfig -> list MarketId -> gmap MarketId Exponent ->
  go (list MarketPriceTimestamp * gmap MarketId go_error).

(** What a query's prices write to the channel: zero prices become errors. *)
Definition price_response (exchangeId : ExchangeId) (price : MarketPriceTimestamp)
    : PriceFetcherSubtaskResponse :=
  if mpt_Price price =? 0 then
    mkResponse None (Some (ErrNew ("invalid price of 0 for exchange: '" +:+ exchangeId +:+
      "' and market: " +:+ pretty (mpt_MarketId price))))
  else mkResponse (Some price) None.

(** The responses one query writes, in order. *)
Definition runSubTask (pf : PriceFetcher (R := R)) (marketIds : list MarketId)
    (definition : taskLoopDefinition) : go (list PriceFetcherSubtaskResponse) :=
  match Query (tld_mutableExchangeConfig definition) marketIds (tld_marketExponents definition) with
  | Panic p => Panic p
  | Err err => Ok [mkResponse None (Some err)]
  | Ok (prices, _) =>
      Ok (price_response (eqc_ExchangeId (exchangeQueryConfig pf)) <$> prices)
  end.

(** The responses of each query of a task loop; the goroutines interleave their
    writes. *)
Definition RunTaskLoop (pf : PriceFetcher (R := R))
    : go (list (list PriceFetcherSubtaskResponse) * PriceFetcher (R := R)) :=
  d ← getTaskLoopDefinition pf;
  let '(definition, pf') := d in
  responses ← mapM_go (fun marketIds => runSubTask pf' marketIds definition)
                (subtasks pf' definition);
  Ok (responses, pf').

(** what reaches the encoder. When no query panics, every response a task
    loop writes carries either an error and no price, or no error and a price
    that is not zero, which the exchange was queried for. *)
Theorem RunTaskLoop_responses (p p' : PriceFetcher (R := R))
    (responses : list (list PriceFetcherSubtaskResponse)) :
  RunTaskLoop p = Ok (responses, p') ->
  Forall (Forall (fun r =>
    (exists err, r = mkResponse None (Some err)) \/
    (exists price, r = mkResponse (Some price) None /\ mpt_Price price <> 0 /\
       exists ms exps prices um,
         Query (fs_mutableExchangeConfig (pf_mutableState p)) ms exps = Ok (prices, um) /\
         price ∈ prices))) responses.
Proof.
  unfold RunTaskLoop. intros ([d p1] & Hd & Hrun)%go_bind_Ok.
  apply go_bind_Ok in Hrun as (rs & Hrs & [= <- <-]).
  assert (tld_mutableExchangeConfig d = fs_mutableExchangeConfig (pf_mutableState p)) as Hcfg.
  { unfold getTaskLoopDefinition, take_markets in Hd.
    apply go_bind_Ok in Hd as ([d' ms'] & Hd & [= <- <-]).
    unfold mutableState_getTaskLoopDefinition in Hd. apply go_bind_Ok in Hd as (r & _ & [= <- <-]).
    apply MutableExchangeMarketConfig_Copy_id. }
  apply mapM_go_Ok in Hrs. apply Forall_forall. intros rl Hin.
  destruct (Forall2_elem_of_r _ _ _ _ Hrs Hin) as (ms & _ & Hsub). unfold runSubTask in Hsub.
  rewrite Hcfg in Hsub.
  destruct (Query _ ms _) as [[prices um]|err|pn] eqn:Eq; [|injection Hsub as <-|done].
  - injection Hsub as <-. apply Forall_fmap, Forall_forall. intros price Hprice. simpl.
    unfold price_response. destruct (Z.eqb_spec (mpt_Price price) 0); [left; by eexists|].
    right. exists price. split_and!; [done|done|]. by exists ms, (tld_marketExponents d), prices, um.
  - constructor; [|constructor]. left. by eexists.
Qed.
End Run.

(** ** A ring on lists *)
Record list_ring := mkListRing { lr_head : Z; lr_tail : list Z }.

Definition list_ring_next (r : list_ring) : list_ring :=
  match lr_tail r with
  | [] => r
  | x :: tl => mkListRing x (tl ++ [lr_head r])
  end.

#[export] Program Instance list_ring_ring : Ring list_ring := {|
  ring_list r := lr_head r :: lr_tail r;
  NewRing n := match n with O => None | S n => Some (mkListRing 0 (replicate n 0)) end;
  ring_Value := lr_head;
  ring_SetValue r v := mkListRing v (lr_tail r);
  ring_Next := list_ring_next
|}.
Next Obligation. done. Qed.
Next Obligation.
  intros [|n] Hn; [lia|]. eexists; split; [done|]. simpl. by rewrite length_replicate.
Qed.
Next Obligation. intros r. by eexists. Qed.
Next Obligation. done. Qed.
Next Obligation. intros [h [|x tl]]; done. Qed.

(** ** A concrete fetcher: three markets, two queries a loop *)
Definition ex_fetch_config : MutableExchangeMarketConfig :=
  mkMutableExchangeMarketConfig "Gate"
    {[0 := mkMarketConfig "BTC_USDT" None false; 1 := mkMarketConfig "ETH_USDT" None false;
      7 := mkMarketConfig "ATOM_USDT" None false]}.
Definition ex_fetch_markets : list MutableMarketConfig :=
  [mkMutableMarketConfig 0 "BTC-USD" (-5) 1; mkMutableMarketConfig 1 "ETH-USD" (-6) 1;
   mkMutableMarketConfig 7 "ATOM-USD" (-9) 1].
Definition ex_new_fetcher : PriceFetcher (R := list_ring) :=
  mkPriceFetcher (mkExchangeQueryConfig "Gate" 3000 3000 2) false
    (mkFetcherState (mkMutableExchangeMarketConfig "Gate" ∅) ∅ None).
Definition ex_fetcher : PriceFetcher (R := list_ring) :=
  match PriceFetcher_UpdateMutableExchangeConfig ex_new_fetcher ex_fetch_config ex_fetch_markets with
  | Ok p => p
  | _ => ex_new_fetcher
  end.

Lemma round_robin_witness :
  exists loops p'', task_loops ex_fetcher 4 = Ok (loops, p'') /\ loops = [[0; 1]; [7; 0]; [1; 7]; [0; 1]] /\
    forall i m, m ∈ [0; 1; 7] -> (i + 2 <= 4)%nat ->
       exists i' ms, (i <= i' < i + 2)%nat /\ loops !! i' = Some ms /\ m ∈ ms.
Proof.
  destruct (round_robin ex_new_fetcher ex_fetcher ex_fetch_config ex_fetch_markets 4 2)
    as (loops & p'' & E & _ & _ & Hcov).
  - reflexivity.
  - reflexivity.
  - simpl. lia.
  - vm_compute. discriminate.
  - vm_compute. lia.
  - exists loops, p''. split; [exact E|]. split; [vm_compute in E; congruence|exact Hcov].
Defined.

Lemma lost_markets_panic_witness :
  exists p', PriceFetcher_UpdateMutableExchangeConfig ex_fetcher
      (mkMutableExchangeMarketConfig "Gate" ∅) [] = Ok p' /\
    take_markets p' (getNumQueriesPerTaskLoop ex_fetcher) = Panic NilDereference.
Proof.
  eexists. split; [reflexivity|].
  eapply (lost_markets_panic ex_fetcher _ (mkMutableExchangeMarketConfig "Gate" ∅) []);
    [reflexivity|vm_compute; reflexivity|reflexivity|reflexivity].
Defined.

Definition ex_query (cfg : MutableExchangeMarketConfig) (ms : list MarketId)
    (exps : gmap MarketId Exponent) : go (list MarketPriceTimestamp * gmap MarketId go_error) :=
  match ms with
  | [0] => Ok ([mkMarketPriceTimestamp 0 6500000000 5], ∅)
  | [1] => Ok ([mkMarketPriceTimestamp 1 0 5], ∅)
  | _ => Err (ErrSentinel DeadlineExceeded)
  end.

Lemma RunTaskLoop_responses_witness :
  exists responses p', RunTaskLoop ex_query ex_fetcher = Ok (responses, p') /\
    length responses = 2%nat /\
    Forall (Forall (fun r =>
      (exists err, r = mkResponse None (Some err)) \/
      (exists price, r = mkResponse (Some price) None /\ mpt_Price price <> 0 /\
         exists ms exps prices um,
           ex_query (fs_mutableExchangeConfig (pf_mutableState ex_fetcher)) ms exps = Ok (prices, um) /\
           price ∈ prices))) responses.
Proof.
  do 2 eexists. split; [reflexivity|]. split; [reflexivity|].
  eapply (RunTaskLoop_responses ex_query ex_fetcher). reflexivity.
Defined.
