(* ===== verification/PriceUpdater.v ===== *)
(** * subtask_runner.go and server/pricefeed.go: prices from daemon to server

    The price updater snapshots the daemon's cache, regroups it by market and
    sends it to the server, which validates the request and updates its own
    cache. The gRPC transport is the parameter [send]; the end-to-end theorems
    take the server's handler for it. *)
From S2P Require Import Prelude Median PriceTimestamp MarketConfig ServerCache ClientCache.
Local Open Scope Z_scope.

Definition DefaultPrice : Z := 0.

Section Updater.
Context `{RangeOrder}.

(** ** The daemon's side *)

(** The body of the inner loop of [transformPriceUpdates]: the market's update
    is created when it is missing, and appended to through its pointer. *)
Definition add_exchange_price (exchangeId : ExchangeId)
    (marketPriceUpdateMap : gmap MarketId MarketPriceUpdate) (mpt : MarketPriceTimestamp)
    : gmap MarketId MarketPriceUpdate :=
  let marketPriceUpdate :=
    default (mkMarketPriceUpdate (mpt_MarketId mpt) []) (marketPriceUpdateMap !! mpt_MarketId mpt) in
  let exchangePrice :=
    mkExchangePrice exchangeId (mpt_Price mpt) (Some (mpt_LastUpdatedAt mpt)) in
  <[mpt_MarketId mpt :=
      mkMarketPriceUpdate (mpu_MarketId marketPriceUpdate)
        (mpu_ExchangePrices marketPriceUpdate ++ [exchangePrice])]> marketPriceUpdateMap.

Definition transformPriceUpdates (updates : gmap ExchangeId (list MarketPriceTimestamp))
    : list MarketPriceUpdate :=
  let marketPriceUpdateMap :=
    foldl (fun m '(exchangeId, marketPriceTimestamps) =>
      foldl (add_exchange_price exchangeId) m marketPriceTimestamps) ∅ (range_of updates) in
  foldl (fun request '(_, update) => request ++ [update]) [] (range_of marketPriceUpdateMap).

(** [send] acts on the other side's state; an error of the call leaves it. *)
Definition RunPriceUpdaterTaskLoop {S} (send : S -> list MarketPriceUpdate -> go S)
    (exchangeToMarketPrices : ExchangeToMarketPricesImpl) (s : S) : go S :=
  let priceUpdates := ExchangeToMarketPrices_GetAllPrices exchangeToMarketPrices in
  let request := transformPriceUpdates priceUpdates in
  if bool_decide (0 < Z.of_nat (length request)) then send s request
  else Err (ErrNew "ErrEmptyMarketPriceUpdate").

(** What a tick of [StartPriceUpdater] reports to the daemon's health check. *)
Inductive health_report :=
  | ReportSuccess
  | ReportFailure (err : go_error).

Definition StartPriceUpdater_tick {S} (send : S -> list MarketPriceUpdate -> go S)
    (exchangeToMarketPrices : ExchangeToMarketPricesImpl) (s : S) : go (S * health_report) :=
  match RunPriceUpdaterTaskLoop send exchangeToMarketPrices s with
  | Ok s' => Ok (s', ReportSuccess)
  | Err err =>
      Ok (s, ReportFailure
               (ErrWrap "failed to run price updater task loop for price daemon; " err ""))
  | Panic p => Panic p
  end.

(** ** The server's side

    [render] prints an [ExchangePrice], a generated type, in error messages. *)
Variable render : ExchangePrice -> string.

Definition generateSdkErrorForExchangePrice (err : go_error) (ep : ExchangePrice)
    (marketId : MarketId) : go_error :=
  wrapf ("ExchangePrice: " +:+ render ep +:+ " and MarketId: " +:+ pretty marketId) err.

Definition validateMarketPriceUpdate (mpu : MarketPriceUpdate) : go unit :=
  forM_go (fun ep =>
    if ep_Price ep =? DefaultPrice then
      Err (generateSdkErrorForExchangePrice (ErrNew "ErrPriceFeedInvalidPrice") ep
             (mpu_MarketId mpu))
    else match ep_LastUpdateTime ep with
    | None =>
        Err (generateSdkErrorForExchangePrice (ErrNew "ErrPriceFeedLastUpdateTimeNotSet") ep
               (mpu_MarketId mpu))
    | Some _ => Ok tt
    end) (mpu_ExchangePrices mpu).

Definition validateMarketPricesUpdatesMessage (req : list MarketPriceUpdate) : go unit :=
  if bool_decide (length req = 0%nat) then Err (ErrNew "ErrPriceFeedMarketPriceUpdateEmpty")
  else forM_go validateMarketPriceUpdate req.

(** What is logged after an update. *)
Definition logPricefeedCacheAggregates (marketToExchange : MarketToExchangePrices)
    (updates : list MarketPriceUpdate) (now : Time) : list PriceAggregateSnapshot :=
  if bool_decide (length updates = 0%nat) then []
  else GetValidPriceAggregates marketToExchange (mpu_MarketId <$> updates) now.

(** The server's cache is set once by [WithPriceFeedMarketToExchangePrices];
    without it the handler panics. *)
Definition UpdateMarketPrices (now : Time) (server : option MarketToExchangePrices)
    (req : list MarketPriceUpdate)
    : go (MarketToExchangePrices * list PriceAggregateSnapshot) :=
  match server with
  | None => Panic (PanicMsg "server not initialized correctly, marketToExchange not initialized")
  | Some marketToExchange =>
      _ ← validateMarketPricesUpdatesMessage req;
      marketToExchange' ← MarketToExchangePrices_UpdatePrices marketToExchange req;
      Ok (marketToExchange', logPricefeedCacheAggregates marketToExchange' req now)
  end.

(** The handler as the transport of the daemon. *)
Definition serve_request (now : Time) (mte : MarketToExchangePrices)
    (req : list MarketPriceUpdate) : go MarketToExchangePrices :=
  r ← UpdateMarketPrices now (Some mte) req; Ok r.1.

(** ** Lemmas on snapshots and their transformation *)
Lemma foldl_snoc {A B} (f : A -> B) (l : list A) acc :
  foldl (fun r x => r ++ [f x]) acc l = acc ++ (f <$> l).
Proof.
  revert acc. induction l as [|x l IH]; intros acc; simpl; [by rewrite app_nil_r|].
  by rewrite IH, <- app_assoc.
Qed.

Lemma foldl_pair_ext {A B S} (f g : S -> A * B -> S) s l :
  (forall s x, f s x = g s x) -> foldl f s l = foldl g s l.
Proof. intros E. revert s. induction l; intros s; simpl; [done|]. by rewrite E. Qed.

Definition snapshot_of (e : MarketId * PriceTimestamp) : MarketPriceTimestamp :=
  mkMarketPriceTimestamp e.1 (Price e.2) (LastUpdateTime e.2).

Lemma MarketToPrice_GetAllPrices_fmap mtp :
  MarketToPrice_GetAllPrices mtp = snapshot_of <$> range_of (MarketToPriceTimestamp mtp).
Proof.
  unfold MarketToPrice_GetAllPrices. rewrite <- (app_nil_l (snapshot_of <$> _)), <- foldl_snoc.
  by apply foldl_pair_ext; intros ? [].
Qed.

Lemma GetAllPrices_lookup etmp ex :
  ExchangeToMarketPrices_GetAllPrices etmp !! ex =
    MarketToPrice_GetAllPrices <$> ExchangeMarketPrices etmp !! ex.
Proof.
  unfold ExchangeToMarketPrices_GetAllPrices.
  assert (forall l (m : gmap ExchangeId (list MarketPriceTimestamp)), NoDup l.*1 ->
    foldl (fun exchangeIdToPrices '(exchangeId, mtp) =>
      <[exchangeId := MarketToPrice_GetAllPrices mtp]> exchangeIdToPrices) m l !! ex =
    match (list_to_map l : gmap ExchangeId MarketToPrice) !! ex with
    | Some mtp => Some (MarketToPrice_GetAllPrices mtp)
    | None => m !! ex
    end) as E.
  { induction l as [|[ex' mtp] l IH]; intros m Hnd; simpl; [by rewrite lookup_empty|].
    apply NoDup_cons in Hnd as [Hn Hnd]. rewrite IH by done.
    destruct (decide (ex' = ex)) as [->|]; [|by rewrite !lookup_insert_ne].
    rewrite !lookup_insert_eq. by rewrite (not_elem_of_list_to_map_1 l ex Hn). }
  rewrite E by apply range_of_NoDup_keys. rewrite lookup_empty.
  rewrite (list_to_map_proper _ (map_to_list (ExchangeMarketPrices etmp)));
    [|apply range_of_NoDup_keys|apply range_of_perm].
  rewrite list_to_map_to_list. by destruct (_ !! ex).
Qed.

(** The entries of a list of (exchange, price). *)
Definition entry_in (exchangeId : ExchangeId) (mpt : MarketPriceTimestamp) : entry :=
  ((mpt_MarketId mpt, exchangeId), (mpt_LastUpdatedAt mpt, mpt_Price mpt)).

Definition market_entries (M : gmap MarketId MarketPriceUpdate) (m : MarketId) : list entry :=
  match M !! m with Some mpu => entries_of mpu | None => [] end.

Definition of_market (m : MarketId) (l : list entry) : list entry :=
  filter (fun e => e.1.1 = m) l.

Lemma of_market_snoc m l e :
  of_market m (l ++ [e]) = of_market m l ++ if bool_decide (e.1.1 = m) then [e] else [].
Proof.
  unfold of_market. rewrite filter_app. f_equal.
  case_bool_decide; [by rewrite filter_cons_True|by rewrite filter_cons_False].
Qed.

Definition grouped (l : list entry) (M : gmap MarketId MarketPriceUpdate) : Prop :=
  forall m,
    market_entries M m = of_market m l /\
    match M !! m with
    | Some mpu => mpu_MarketId mpu = m /\ mpu_ExchangePrices mpu <> [] /\
        Forall (fun ep => is_Some (ep_LastUpdateTime ep)) (mpu_ExchangePrices mpu)
    | None => True
    end.

Lemma add_exchange_price_grouped l M ex mpt :
  grouped l M -> grouped (l ++ [entry_in ex mpt]) (add_exchange_price ex M mpt).
Proof.
  intros HM m. destruct (HM m) as [He Hm]. unfold market_entries in *. rewrite of_market_snoc.
  simpl. unfold add_exchange_price. case_bool_decide as Hne; [subst m|].
  - rewrite lookup_insert_eq, <- He.
    destruct (M !! mpt_MarketId mpt) as [mpu|]; simpl.
    + destruct Hm as (Hid & Hne & Hts). unfold entries_of. simpl. rewrite bind_app. simpl.
      rewrite Hid. split; [done|]. split_and!; [done| |].
      * by destruct (mpu_ExchangePrices mpu).
      * apply Forall_app; split; [done|]. constructor; [by eexists|constructor].
    + split; [done|]. split_and!; [done|done|]. constructor; [by eexists|constructor].
  - by rewrite lookup_insert_ne, app_nil_r.
Qed.

(** All prices of a snapshot, in the order in which they are visited. *)
Definition snapshot_entries (updates : gmap ExchangeId (list MarketPriceTimestamp)) : list entry :=
  e ← range_of updates; entry_in e.1 <$> e.2.

Lemma transform_grouped updates :
  grouped (snapshot_entries updates)
    (foldl (fun m '(exchangeId, marketPriceTimestamps) =>
      foldl (add_exchange_price exchangeId) m marketPriceTimestamps) ∅ (range_of updates)).
Proof.
  unfold snapshot_entries. induction (range_of updates) as [|[ex mpts] l IH] using rev_ind.
  { intros m. unfold market_entries. simpl. by rewrite lookup_empty. }
  rewrite foldl_app, bind_app. simpl. rewrite app_nil_r. revert IH.
  generalize (l ≫= fun e => entry_in e.1 <$> e.2). intros es.
  generalize (foldl (fun m '(exchangeId, marketPriceTimestamps) =>
    foldl (add_exchange_price exchangeId) m marketPriceTimestamps) ∅ l). intros M HM.
  induction mpts as [|mpt mpts IH] using rev_ind; simpl; [by rewrite app_nil_r|].
  rewrite foldl_app, fmap_app, app_assoc. by apply add_exchange_price_grouped.
Qed.

Lemma history_of_market m ex l :
  history_of (m, ex) (of_market m l) = history_of (m, ex) l.
Proof.
  induction l as [|e l IH] using rev_ind; [done|].
  rewrite of_market_snoc, !history_of_app, IH. f_equal.
  case_bool_decide as Hm; [done|]. destruct e as [[m' ex'] u]. simpl in *.
  rewrite history_of_ne; [done|congruence].
Qed.

(** The updates of one (market, exchange) in a snapshot: its prices, in order. *)
Definition prices_in (updates : gmap ExchangeId (list MarketPriceTimestamp))
    (m : MarketId) (ex : ExchangeId) : list update :=
  (fun mpt => (mpt_LastUpdatedAt mpt, mpt_Price mpt)) <$>
    filter (fun mpt => mpt_MarketId mpt = m) (default [] (updates !! ex)).

Lemma history_of_entries_in m ex mpts :
  history_of (m, ex) (entry_in ex <$> mpts) =
    (fun mpt => (mpt_LastUpdatedAt mpt, mpt_Price mpt)) <$>
      filter (fun mpt => mpt_MarketId mpt = m) mpts.
Proof.
  induction mpts as [|mpt mpts IH]; [done|].
  pose proof (history_of_app (m, ex) [entry_in ex mpt] (entry_in ex <$> mpts)) as E.
  simpl in E. rewrite fmap_cons, E, IH. clear E.
  unfold entry_in.
  destruct (decide (mpt_MarketId mpt = m)) as [<-|Hm].
  - by rewrite history_of_eq, filter_cons_True.
  - rewrite history_of_ne, filter_cons_False by congruence. done.
Qed.

Lemma snapshot_history updates m ex :
  history_of (m, ex) (snapshot_entries updates) = prices_in updates m ex.
Proof.
  unfold prices_in, snapshot_entries. destruct (updates !! ex) as [mpts|] eqn:E; simpl.
  - rewrite <- (history_of_entries_in m ex). unfold history_of. f_equal.
    apply (filter_bind_key fst (fun e => entry_in e.1 <$> e.2) _ _ ex (ex, mpts)).
    + apply range_of_NoDup_keys.
    + intros [ex' mpts'] y _ (mpt & -> & _)%list_elem_of_fmap. simpl. congruence.
    + by apply elem_of_range_of.
    + done.
  - unfold history_of. rewrite filter_bind_none; [done|].
    intros [ex' mpts'] y Hin%elem_of_range_of (mpt & -> & _)%list_elem_of_fmap [= <- <-].
    simpl in *. congruence.
Qed.

Lemma grouped_ids l M : grouped l M -> mpu_MarketId <$> (range_of M).*2 = (range_of M).*1.
Proof.
  intros HM. rewrite <- list_fmap_compose. apply list_fmap_ext.
  intros i [m mpu] Hi%list_elem_of_lookup_2%elem_of_range_of. simpl. destruct (HM m) as [_ Hm].
  rewrite Hi in Hm. apply Hm.
Qed.

Lemma grouped_history l M m ex :
  grouped l M -> history_of (m, ex) (entries (range_of M).*2) = history_of (m, ex) l.
Proof.
  intros HM. rewrite <- (history_of_market m ex l). destruct (HM m) as [<- Hm].
  unfold market_entries, history_of, entries. destruct (M !! m) as [mpu|] eqn:E.
  - f_equal. apply (filter_bind_key mpu_MarketId entries_of _ _ m mpu).
    + rewrite (grouped_ids l) by done. apply range_of_NoDup_keys.
    + intros x y _ (ep & Hy & _)%list_elem_of_bind Hk.
      destruct (ep_LastUpdateTime ep); [|by apply not_elem_of_nil in Hy].
      apply list_elem_of_singleton in Hy as ->. simpl in Hk. congruence.
    + apply list_elem_of_fmap. exists (m, mpu). by rewrite elem_of_range_of.
    + apply Hm.
  - rewrite filter_bind_none; [done|].
    intros x y ([m' mpu] & -> & Hin%elem_of_range_of)%list_elem_of_fmap (ep & Hy & _)%list_elem_of_bind.
    simpl in *. destruct (HM m') as [_ Hm']. rewrite Hin in Hm'. destruct Hm' as (<- & _).
    destruct (ep_LastUpdateTime ep); [|by apply not_elem_of_nil in Hy].
    apply list_elem_of_singleton in Hy as ->. simpl. congruence.
Qed.

Lemma transform_range updates :
  exists M, transformPriceUpdates updates = (range_of M).*2 /\ grouped (snapshot_entries updates) M.
Proof.
  eexists. split; [|apply transform_grouped]. unfold transformPriceUpdates.
  rewrite <- (app_nil_l (fmap snd _)), <- foldl_snoc. apply foldl_pair_ext. by intros ? [].
Qed.

(** ** Properties *)

(** regrouping. The request of a snapshot has one update for every market
    with a price and no other, each with at least one exchange price and no nil
    time, and for every (market, exchange) exactly the prices the snapshot has
    for it, in order. *)
Theorem transformPriceUpdates_correct (updates : gmap ExchangeId (list MarketPriceTimestamp)) :
  let req := transformPriceUpdates updates in
  NoDup (mpu_MarketId <$> req) /\
  Forall (fun mpu => mpu_ExchangePrices mpu <> []) req /\ well_timed req /\
  forall m ex, history_of (m, ex) (entries req) = prices_in updates m ex.
Proof.
  destruct (transform_range updates) as (M & E & HM). simpl. rewrite E.
  assert (forall mpu, mpu ∈ (range_of M).*2 -> mpu_ExchangePrices mpu <> [] /\
    Forall (fun ep => is_Some (ep_LastUpdateTime ep)) (mpu_ExchangePrices mpu)) as Hall.
  { intros mpu ([m mpu'] & -> & Hin%elem_of_range_of)%list_elem_of_fmap.
    destruct (HM m) as [_ Hm]. rewrite Hin in Hm. tauto. }
  split_and!.
  - rewrite (grouped_ids _ _ HM). apply range_of_NoDup_keys.
  - apply Forall_forall. intros mpu Hin. by apply Hall.
  - apply Forall_forall. intros mpu Hin. by apply Hall.
  - intros m ex. rewrite (grouped_history _ _ _ _ HM). apply snapshot_history.
Qed.

(** ** Lemmas on requests *)
Definition valid_price (ep : ExchangePrice) : Prop :=
  ep_Price ep <> DefaultPrice /\ is_Some (ep_LastUpdateTime ep).

Definition valid_request (req : list MarketPriceUpdate) : Prop :=
  Forall (fun mpu => Forall valid_price (mpu_ExchangePrices mpu)) req.

Lemma validateMarketPriceUpdate_cases mpu :
  (validateMarketPriceUpdate mpu = Ok tt <-> Forall valid_price (mpu_ExchangePrices mpu)) /\
  forall p, validateMarketPriceUpdate mpu <> Panic p.
Proof.
  unfold validateMarketPriceUpdate. split.
  - rewrite forM_go_Ok. apply Forall_iff. intros ep. unfold valid_price.
    destruct (Z.eqb_spec (ep_Price ep) DefaultPrice); [split; [done|tauto]|].
    destruct (ep_LastUpdateTime ep); [by split; eauto|].
    split; [done|]. by intros [_ [? ?]].
  - intros p E. destruct (forM_go_not_Ok _ _ _ E) as (ep & _ & Hp); [done|].
    by destruct (ep_Price ep =? DefaultPrice), (ep_LastUpdateTime ep).
Qed.

Lemma validate_cases req :
  (validateMarketPricesUpdatesMessage req = Ok tt /\ req <> [] /\ valid_request req) \/
  ((exists err, validateMarketPricesUpdatesMessage req = Err err) /\ ~ (req <> [] /\ valid_request req)).
Proof.
  unfold validateMarketPricesUpdatesMessage, valid_request.
  destruct (bool_decide_reflect (length req = 0%nat)) as [Hl|Hl].
  { right. split; [by eexists|]. intros [Hne _]. by destruct req. }
  destruct (forM_go validateMarketPriceUpdate req) as [[]|err|p] eqn:E.
  - left. split; [done|]. split; [by intros ->|]. apply forM_go_Ok in E.
    eapply Forall_impl; [done|]. intros mpu. apply validateMarketPriceUpdate_cases.
  - right. split; [by eexists|]. intros [_ Hv].
    assert (forM_go validateMarketPriceUpdate req = Ok tt); [|congruence].
    apply forM_go_Ok. eapply Forall_impl; [done|]. intros mpu. apply validateMarketPriceUpdate_cases.
  - destruct (forM_go_not_Ok _ _ _ E) as (mpu & _ & Hp); [done|].
    by apply validateMarketPriceUpdate_cases in Hp.
Qed.

Lemma valid_request_well_timed req : valid_request req -> well_timed req.
Proof.
  intros Hv. eapply Forall_impl; [done|]. intros mpu Hm.
  eapply Forall_impl; [exact Hm|]. by intros ep [_ ?].
Qed.

Lemma elem_of_entries req m ex t p :
  ((m, ex), (t, p)) ∈ entries req <->
  exists mpu ep, mpu ∈ req /\ mpu_MarketId mpu = m /\ ep ∈ mpu_ExchangePrices mpu /\
    ep_ExchangeId ep = ex /\ ep_Price ep = p /\ ep_LastUpdateTime ep = Some t.
Proof.
  unfold entries, entries_of. split.
  - intros (mpu & (ep & Hy & Hep)%list_elem_of_bind & Hmpu)%list_elem_of_bind.
    destruct (ep_LastUpdateTime ep) eqn:Et; [|by apply not_elem_of_nil in Hy].
    apply list_elem_of_singleton in Hy. simplify_eq/=. by exists mpu, ep.
  - intros (mpu & ep & Hmpu & <- & Hep & <- & <- & Et).
    apply list_elem_of_bind. exists mpu. split; [|done].
    apply list_elem_of_bind. exists ep. split; [|done]. rewrite Et. by left.
Qed.

Lemma elem_of_history {K} `{EqDecision K} (k : K) u (h : list (K * update)) :
  u ∈ history_of k h <-> (k, u) ∈ h.
Proof.
  unfold history_of. rewrite list_elem_of_fmap. split.
  - intros ([k' u'] & -> & [E Hin]%list_elem_of_filter). simpl in *. by subst.
  - intros Hin. exists (k, u). split; [done|]. by apply list_elem_of_filter.
Qed.

(** A cell after one more update of its key, or none. *)
Lemma holds_latest_step {K} `{EqDecision K} (h h' : list (K * update)) cell cell' k us :
  holds_latest h cell -> holds_latest h' cell' -> history_of k h' = history_of k h ++ us ->
  (length us <= 1)%nat ->
  cell' k = match us with
            | [] => cell k
            | u :: _ => Some (bump (default NewPriceTimestamp (cell k)) u)
            end.
Proof.
  intros Hh Hh' E Hl. pose proof (Hh k) as Hk. pose proof (Hh' k) as Hk'.
  destruct (cell' k) as [pt'|] eqn:E'.
  - apply (holds_latest_lookup _ _ _ _ Hh') in E' as ->. rewrite E in *.
    destruct us as [|u [|]]; simpl in Hl; [|..|lia].
    + rewrite app_nil_r in *. destruct (cell k) as [pt|] eqn:Ec; [|tauto].
      by apply (holds_latest_lookup _ _ _ _ Hh) in Ec as ->.
    + rewrite replay_snoc. f_equal. destruct (cell k) as [pt|] eqn:Ec; simpl.
      * by apply (holds_latest_lookup _ _ _ _ Hh) in Ec as ->.
      * by rewrite Hk.
  - rewrite E in Hk'. apply app_eq_nil in Hk' as [Hnil ->].
    destruct (cell k) as [pt|]; [|done]. by destruct Hk as [[] _].
Qed.

Lemma fmap_bind_singleton {A B} (f : A -> B) (l : list A) : f <$> l = x ← l; [f x].
Proof. induction l as [|x l IH]; [done|]. by rewrite fmap_cons, bind_cons, IH. Qed.

(** What the daemon's cache contributes to a (market, exchange). *)
Lemma prices_in_cache etmp m ex :
  prices_in (ExchangeToMarketPrices_GetAllPrices etmp) m ex =
    match impl_cell etmp (ex, m) with
    | Some pt => [(LastUpdateTime pt, Price pt)]
    | None => []
    end.
Proof.
  unfold prices_in, impl_cell. rewrite GetAllPrices_lookup. simpl.
  destruct (ExchangeMarketPrices etmp !! ex) as [mtp|]; simpl; [|done].
  rewrite MarketToPrice_GetAllPrices_fmap, fmap_bind_singleton.
  destruct (MarketToPriceTimestamp mtp !! m) as [pt|] eqn:E.
  - etrans; [apply f_equal, (filter_bind_key fst (fun e => [snapshot_of e]) _ _ m (m, pt))|].
    + apply range_of_NoDup_keys.
    + intros x y _ ->%list_elem_of_singleton. done.
    + by apply elem_of_range_of.
    + done.
    + by rewrite filter_cons_True.
  - etrans; [apply f_equal, (filter_bind_none (fun e => [snapshot_of e]))|done].
    intros [m' pt] y Hin%elem_of_range_of ->%list_elem_of_singleton. simpl. congruence.
Qed.

(** The snapshot of a cache with a cell has a request, valid when no price is 0. *)
Lemma snapshot_request etmp :
  let req := transformPriceUpdates (ExchangeToMarketPrices_GetAllPrices etmp) in
  (req <> [] <-> exists k, is_Some (impl_cell etmp k)) /\
  (valid_request req <-> forall k pt, impl_cell etmp k = Some pt -> Price pt <> 0) /\
  forall m ex, history_of (m, ex) (entries req) =
    match impl_cell etmp (ex, m) with Some pt => [(LastUpdateTime pt, Price pt)] | None => [] end.
Proof.
  destruct (transform_range (ExchangeToMarketPrices_GetAllPrices etmp)) as (M & E & HM).
  simpl. rewrite E.
  assert (forall m ex, history_of (m, ex) (entries (range_of M).*2) =
    match impl_cell etmp (ex, m) with
    | Some pt => [(LastUpdateTime pt, Price pt)] | None => [] end) as Hh.
  { intros m ex. rewrite (grouped_history _ _ _ _ HM), snapshot_history. apply prices_in_cache. }
  assert (forall m ex t p, ((m, ex), (t, p)) ∈ entries (range_of M).*2 <->
    impl_cell etmp (ex, m) = Some (mkPriceTimestamp t p)) as Hin.
  { intros m ex t p. rewrite <- elem_of_history, Hh.
    destruct (impl_cell etmp (ex, m)) as [[t' p']|]; simpl.
    - rewrite list_elem_of_singleton. naive_solver.
    - split; [by intros ?%not_elem_of_nil|done]. }
  assert (forall mpu, mpu ∈ (range_of M).*2 -> mpu_ExchangePrices mpu <> [] /\
    Forall (fun ep => is_Some (ep_LastUpdateTime ep)) (mpu_ExchangePrices mpu)) as Hok.
  { intros mpu ([m mpu'] & -> & Hm%elem_of_range_of)%list_elem_of_fmap.
    destruct (HM m) as [_ Hm']. rewrite Hm in Hm'. tauto. }
  split_and!; [| |done].
  - split.
    + intros Hne. destruct ((range_of M).*2) as [|mpu l] eqn:El; [done|].
      destruct (Hok mpu) as [Hep Hts]; [by left|].
      destruct (mpu_ExchangePrices mpu) as [|ep eps] eqn:Ee; [done|].
      inversion Hts as [|? ? [t Ht] _]; subst.
      exists (ep_ExchangeId ep, mpu_MarketId mpu). exists (mkPriceTimestamp t (ep_Price ep)).
      apply Hin, elem_of_entries. exists mpu, ep. rewrite Ee. split_and!; [by left|done|by left|done..].
    + intros ([ex m] & [t p] & Hc) Hnil. apply Hin in Hc. rewrite Hnil in Hc.
      by apply not_elem_of_nil in Hc.
  - unfold valid_request. rewrite Forall_forall. split.
    + intros Hv [ex m] [t p] Hc%Hin. apply elem_of_entries in Hc as (mpu & ep & Hmpu & _ & Hep & _ & <- & _).
      specialize (Hv mpu Hmpu). rewrite Forall_forall in Hv. by apply Hv.
    + intros Hp mpu Hmpu. apply Forall_forall. intros ep Hep. destruct (Hok mpu Hmpu) as [_ Hts].
      rewrite Forall_forall in Hts. destruct (Hts ep Hep) as [t Ht]. split; [|by eexists].
      apply (Hp (ep_ExchangeId ep, mpu_MarketId mpu) (mkPriceTimestamp t (ep_Price ep))).
      apply Hin, elem_of_entries. by exists mpu, ep.
Qed.

Lemma serve_request_valid now mte h req :
  req <> [] -> valid_request req -> holds_latest h (cell_of mte) ->
  exists mte', serve_request now mte req = Ok mte' /\ maxPriceAge mte' = maxPriceAge mte /\
    holds_latest (h ++ entries req) (cell_of mte').
Proof.
  intros Hne Hv Hh. unfold serve_request, UpdateMarketPrices.
  destruct (validate_cases req) as [(-> & _)|[_ Hn]]; [|by destruct Hn].
  destruct (MarketToExchangePrices_UpdatePrices_latest mte req h) as (mte' & Hm & Hage & Hl);
    [by apply valid_request_well_timed|done|]. simpl. rewrite Hm. simpl. by exists mte'.
Qed.

(** the server's handler. A request is accepted exactly when it is not
    empty and every exchange price is nonzero and timed; it then never panics,
    extends the history that the cache holds by the request's prices, and logs
    only medians of markets of the request. Otherwise it is an error as a
    whole. It panics exactly when the server has no cache. *)
Theorem UpdateMarketPrices_correct (now : Time) (server : option MarketToExchangePrices)
    (h : list entry) (req : list MarketPriceUpdate) :
  (forall mte, server = Some mte -> holds_latest h (cell_of mte)) ->
  match UpdateMarketPrices now server req with
  | Ok (mte', logged) =>
      req <> [] /\ valid_request req /\ holds_latest (h ++ entries req) (cell_of mte') /\
      maxPriceAge <$> server = Some (maxPriceAge mte') /\
      logged = GetValidPriceAggregates mte' (mpu_MarketId <$> req) now
  | Err _ => is_Some server /\ ~ (req <> [] /\ valid_request req)
  | Panic _ => server = None
  end.
Proof.
  intros Hh. destruct server as [mte|]; [|done]. specialize (Hh mte eq_refl). simpl.
  destruct (validate_cases req) as [(-> & Hne & Hv)|[[err ->] Hn]]; simpl; [|by split; eauto].
  destruct (MarketToExchangePrices_UpdatePrices_latest mte req h) as (mte' & -> & Hage & Hl);
    [by apply valid_request_well_timed|done|]. simpl.
  split_and!; [done..|congruence|]. unfold logPricefeedCacheAggregates.
  case_bool_decide; [by destruct req|done].
Qed.

(** C5: from cache to cache. When the daemon has a price and none of its
    prices is 0, a tick of the price updater reports success, and afterwards
    every (market, exchange) of the server holds the fresher of its own price
    and the daemon's; nothing else changes. *)
Theorem price_update_end_to_end (now : Time) (etmp : ExchangeToMarketPricesImpl)
    (mte : MarketToExchangePrices) (h : list entry) :
  holds_latest h (cell_of mte) -> (exists k, is_Some (impl_cell etmp k)) ->
  (forall k pt, impl_cell etmp k = Some pt -> Price pt <> 0) ->
  exists mte', StartPriceUpdater_tick (serve_request now) etmp mte = Ok (mte', ReportSuccess) /\
    maxPriceAge mte' = maxPriceAge mte /\
    forall m ex, cell_of mte' (m, ex) =
      match impl_cell etmp (ex, m) with
      | None => cell_of mte (m, ex)
      | Some pt =>
          let old := default NewPriceTimestamp (cell_of mte (m, ex)) in
          Some (if LastUpdateTime old <? LastUpdateTime pt then pt else old)
      end.
Proof.
  intros Hh Hsome Hnz. unfold StartPriceUpdater_tick, RunPriceUpdaterTaskLoop.
  destruct (snapshot_request etmp) as (Hne & Hv & Hk).
  revert Hne Hv Hk. generalize (transformPriceUpdates (ExchangeToMarketPrices_GetAllPrices etmp)).
  simpl. intros req Hne Hv Hk. apply Hne in Hsome. apply Hv in Hnz.
  case_bool_decide as Hl; [|by destruct req].
  destruct (serve_request_valid now mte h req Hsome Hnz Hh) as (mte' & -> & Hage & Hh').
  exists mte'. split_and!; [done|done|]. intros m ex.
  rewrite (holds_latest_step h (h ++ entries req) (cell_of mte) (cell_of mte') (m, ex)
    match impl_cell etmp (ex, m) with
    | Some pt => [(LastUpdateTime pt, Price pt)] | None => [] end); [|done|done| |].
  - destruct (impl_cell etmp (ex, m)) as [[t p]|]; [|done]. unfold bump, time_After. simpl.
    done.
  - by rewrite history_of_app, Hk.
  - destruct (impl_cell etmp (ex, m)); simpl; lia.
Qed.

(** one zero price stops them all. The price conversions of the encoder
    can truncate to 0; while the daemon's cache holds a price 0 for any market
    of any exchange, every tick reports a failure and no price of any market
    reaches the server. *)
Theorem zero_price_blocks_updates (now : Time) (etmp : ExchangeToMarketPricesImpl)
    (mte : MarketToExchangePrices) (k : ExchangeId * MarketId) (t : Time) :
  impl_cell etmp k = Some (mkPriceTimestamp t 0) ->
  exists err, StartPriceUpdater_tick (serve_request now) etmp mte = Ok (mte, ReportFailure err).
Proof.
  intros Hz. unfold StartPriceUpdater_tick, RunPriceUpdaterTaskLoop.
  destruct (snapshot_request etmp) as (_ & Hv & _).
  case_bool_decide; [|by eexists]. unfold serve_request, UpdateMarketPrices.
  destruct (validate_cases (transformPriceUpdates (ExchangeToMarketPrices_GetAllPrices etmp)))
    as [(_ & _ & Hn)|[[err ->] _]]; simpl; [|by eexists].
  by destruct (proj1 Hv Hn _ _ Hz).
Qed.
End Updater.

(** ** A concrete daemon *)
Definition ex_daemon (updates : list (ExchangeId * MarketPriceTimestamp))
    : ExchangeToMarketPricesImpl :=
  match NewExchangeToMarketPrices ["Binance"; "Kraken"] with
  | Ok c => match foldM_go (fun c u => ExchangeToMarketPrices_UpdatePrice c u.1 u.2) c updates with
            | Ok c => c | _ => c end
  | _ => mkExchangeToMarketPrices ∅
  end.
Definition ex_prices : ExchangeToMarketPricesImpl :=
  ex_daemon [("Binance", mkMarketPriceTimestamp 1 100 50); ("Kraken", mkMarketPriceTimestamp 1 110 40);
             ("Binance", mkMarketPriceTimestamp 2 7 45)].
Definition ex_mte : MarketToExchangePrices :=
  match serve 30 [[mkMarketPriceUpdate 1 [mkExchangePrice "Binance" 90 (Some 60)]]] with
  | Ok m => m | _ => NewMarketToExchangePrices 0 end.
Definition ex_history : list entry := [((1, "Binance"), (60, 90))].

Lemma ex_mte_history : holds_latest ex_history (cell_of ex_mte).
Proof.
  apply (serve_Ok 30 [[mkMarketPriceUpdate 1 [mkExchangePrice "Binance" 90 (Some 60)]]] ex_mte).
  reflexivity.
Qed.

Definition ex_render (ep : ExchangePrice) : string := ep_ExchangeId ep.

Lemma UpdateMarketPrices_correct_witness :
  match UpdateMarketPrices ex_render 61 (Some ex_mte)
          [mkMarketPriceUpdate 1 [mkExchangePrice "Binance" 95 (Some 61)]] with
  | Ok (mte', logged) =>
      length logged = 1%nat /\
      holds_latest (ex_history ++ [((1, "Binance"), (61, 95))]) (cell_of mte')
  | _ => False
  end.
Proof.
  pose proof (UpdateMarketPrices_correct ex_render 61 (Some ex_mte) ex_history
    [mkMarketPriceUpdate 1 [mkExchangePrice "Binance" 95 (Some 61)]]) as Hc.
  destruct (UpdateMarketPrices ex_render 61 (Some ex_mte) _) as [[mte' logged]|e|p] eqn:E.
  - vm_compute in E. injection E as <- <-.
    split; [reflexivity|]. apply Hc. intros ? [= <-]. exact ex_mte_history.
  - vm_compute in E. discriminate.
  - vm_compute in E. discriminate.
Defined.

Lemma price_update_end_to_end_witness :
  exists mte', StartPriceUpdater_tick (serve_request ex_render 61) ex_prices ex_mte =
      Ok (mte', ReportSuccess) /\
    cell_of mte' (1, "Binance") = Some (mkPriceTimestamp 60 90) /\
    cell_of mte' (1, "Kraken") = Some (mkPriceTimestamp 40 110) /\
    cell_of mte' (2, "Binance") = Some (mkPriceTimestamp 45 7) /\
    cell_of mte' (2, "Kraken") = None.
Proof.
  destruct (price_update_end_to_end ex_render 61 ex_prices ex_mte ex_history) as (mte' & E & _ & Hc).
  - exact ex_mte_history.
  - exists ("Binance", 1). eexists. reflexivity.
  - intros [ex m] pt Hpt. unfold impl_cell in Hpt. apply bind_Some in Hpt as (mtp & Hm & Hpt).
    assert (map_Forall (fun _ mtp => map_Forall (fun _ pt => Price pt <> 0) (MarketToPriceTimestamp mtp))
      (ExchangeMarketPrices ex_prices)) as Hall by (apply (bool_decide_unpack _); vm_compute; exact I).
    exact (Hall ex mtp Hm m pt Hpt).
  - exists mte'. split; [exact E|]. rewrite !Hc. split_and!; reflexivity.
Defined.

Lemma zero_price_blocks_updates_witness :
  exists err, StartPriceUpdater_tick (serve_request ex_render 61)
      (ex_daemon [("Binance", mkMarketPriceTimestamp 1 100 50); ("Kraken", mkMarketPriceTimestamp 7 0 50)])
      ex_mte = Ok (ex_mte, ReportFailure err).
Proof.
  apply (zero_price_blocks_updates ex_render 61
    (ex_daemon [("Binance", mkMarketPriceTimestamp 1 100 50); ("Kraken", mkMarketPriceTimestamp 7 0 50)])
    ex_mte ("Kraken", 7) 50). reflexivity.
Defined.
