(* ===== verification/Daemon.v ===== *)
(** * pricefeed/client/client.go and subtask_runner.go: the pricefeed daemon

    Validation of the daemon's configuration, its startup (a price encoder and
    a price fetcher goroutine per exchange, which register themselves in any
    order) and the life of an encoder: the responses it receives interleaved
    with the configuration updates it is sent. *)
From S2P Require Import Prelude Median PriceTimestamp MarketConfig ClientCache PriceMath.
From S2P Require Import ExchangeErrors PriceEncoder QueryHandler PriceFetcher MutableConfigs.
Local Open Scope Z_scope.

(** ** validateDaemonConfiguration *)
Section Validate.
Context `{RangeOrder}.
Variable unmarshal_object : string -> option go_error.

Definition validate_exchange (exchangeIdToExchangeDetails : gmap ExchangeId ExchangeQueryDetails)
    (exchangeIds : gset ExchangeId) (e : ExchangeId * ExchangeQueryConfig) : go (gset ExchangeId) :=
  let exchangeId := e.1 in
  if bool_decide (exchangeId ∈ exchangeIds) then
    Err (ErrNew ("duplicate exchange id '" +:+ exchangeId +:+ "' found for exchangeIds"))
  else match exchangeIdToExchangeDetails !! exchangeId with
  | None => Err (ErrNew ("no exchange details exists for exchangeId: " +:+ exchangeId))
  | Some _ => Ok ({[exchangeId]} ∪ exchangeIds)
  end.

Definition validateDaemonConfiguration (marketParams : list MarketParam)
    (exchangeIdToQueryConfig : gmap ExchangeId ExchangeQueryConfig)
    (exchangeIdToExchangeDetails : gmap ExchangeId ExchangeQueryDetails) : go unit :=
  exchangeIds ← foldM_go (validate_exchange exchangeIdToExchangeDetails) ∅
                  (range_of exchangeIdToQueryConfig);
  if bool_decide (exchangeIds = ∅) then Err (ErrNew "exchangeIds must not be empty")
  else forM_go (MarketParam_Validate unmarshal_object) marketParams.

Lemma validate_exchange_fresh details s ex c :
  ex ∉ s -> validate_exchange details s (ex, c) =
    match details !! ex with
    | None => Err (ErrNew ("no exchange details exists for exchangeId: " +:+ ex))
    | Some _ => Ok ({[ex]} ∪ s)
    end.
Proof. intros Hn. unfold validate_exchange. by rewrite bool_decide_false. Qed.

Lemma validate_exchange_inv details s e s' :
  validate_exchange details s e = Ok s' -> s' = {[e.1]} ∪ s.
Proof.
  unfold validate_exchange. case_bool_decide; [done|]. destruct (details !! e.1); [|done].
  by intros [= ->].
Qed.

Lemma validate_exchange_no_panic details s e p : validate_exchange details s e <> Panic p.
Proof.
  unfold validate_exchange. case_bool_decide; [done|]. by destruct (details !! e.1).
Qed.

Lemma validate_exchanges_Ok details (l : list (ExchangeId * ExchangeQueryConfig)) s :
  NoDup l.*1 -> (forall ex, ex ∈ l.*1 -> ex ∉ s) ->
  (exists s', foldM_go (validate_exchange details) s l = Ok s') <->
  Forall (fun e => is_Some (details !! e.1)) l.
Proof.
  revert s. induction l as [|[ex c] l IH]; intros s Hnd Hs; simpl.
  { split; [constructor|]. by exists s. }
  apply NoDup_cons in Hnd as [Hn Hnd].
  rewrite validate_exchange_fresh by (apply Hs; by left). rewrite Forall_cons. simpl.
  destruct (details !! ex); simpl.
  - rewrite IH; [|done|].
    + split; [split; [by eexists|done]|tauto].
    + intros ex' Hin [->%elem_of_singleton|Hin']%elem_of_union; [done|].
      apply (Hs ex'); [by right|done].
  - split; [by intros [? ?]|]. by intros [[? ?] _].
Qed.

Lemma validate_exchanges_set details (l : list (ExchangeId * ExchangeQueryConfig)) s s' :
  foldM_go (validate_exchange details) s l = Ok s' -> s ⊆ s' /\ list_to_set l.*1 ⊆ s'.
Proof.
  revert s. induction l as [|[ex c] l IH]; intros s; simpl.
  { intros [= ->]. set_solver. }
  rewrite go_bind_Ok. intros (s1 & ->%validate_exchange_inv & Hf).
  destruct (IH _ Hf) as [H1 H2]. simpl in *. set_solver.
Qed.

Lemma validate_details details qcfgs :
  Forall (fun e => is_Some (details !! e.1)) (range_of qcfgs) <->
  dom (D := gset ExchangeId) (qcfgs : gmap ExchangeId ExchangeQueryConfig) ⊆
    dom (details : gmap ExchangeId ExchangeQueryDetails).
Proof.
  rewrite Forall_forall. split.
  - intros Hall ex [c Hc]%elem_of_dom. apply elem_of_dom, (Hall (ex, c)).
    by apply elem_of_range_of.
  - intros Hsub [ex c] Hin%elem_of_range_of. apply elem_of_dom, Hsub, elem_of_dom. by eexists.
Qed.

Lemma validate_exchanges_empty details (qcfgs : gmap ExchangeId ExchangeQueryConfig) s :
  foldM_go (validate_exchange details) ∅ (range_of qcfgs) = Ok s -> s = ∅ <-> qcfgs = ∅.
Proof.
  intros E. split.
  - intros ->. apply validate_exchanges_set in E as [_ Hsub]. apply map_empty. intros ex.
    destruct (qcfgs !! ex) as [c|] eqn:Ec; [|done]. exfalso.
    assert (ex ∈ (range_of qcfgs).*1); [|set_solver].
    apply list_elem_of_fmap. exists (ex, c). by rewrite elem_of_range_of.
  - intros ->. assert (range_of (∅ : gmap ExchangeId ExchangeQueryConfig) = []) as Hnil.
    { apply Permutation_nil_r. by rewrite range_of_perm, map_to_list_empty. }
    rewrite Hnil in E. by injection E as <-.
Qed.

Lemma validate_exchanges_no_panic details l s p :
  foldM_go (validate_exchange details) s l <> Panic p.
Proof.
  revert s. induction l as [|x l IH]; intros s; simpl; [done|].
  destruct (validate_exchange details s x) as [s'|e|pn] eqn:Ex; simpl; [apply IH|done|].
  by apply validate_exchange_no_panic in Ex.
Qed.

Lemma validateDaemonConfiguration_inv marketParams qcfgs details :
  validateDaemonConfiguration marketParams qcfgs details = Ok tt ->
  qcfgs <> ∅ /\ dom qcfgs ⊆ dom details.
Proof.
  unfold validateDaemonConfiguration. intros (s & E & Hs)%go_bind_Ok.
  apply validate_exchanges_empty in E as He. split.
  - intros Hq. rewrite bool_decide_true in Hs by tauto. done.
  - apply validate_details, (validate_exchanges_Ok details (range_of qcfgs) ∅);
      [apply range_of_NoDup_keys|set_solver|by eexists].
Qed.

(** the daemon starts exactly on a configuration with at least one
    exchange, details for every exchange and valid market params only; each
    failure is an error and none panics. *)
Theorem validateDaemonConfiguration_correct (marketParams : list MarketParam)
    (qcfgs : gmap ExchangeId ExchangeQueryConfig) (details : gmap ExchangeId ExchangeQueryDetails) :
  (forall p, validateDaemonConfiguration marketParams qcfgs details <> Panic p) /\
  (validateDaemonConfiguration marketParams qcfgs details = Ok tt <->
   qcfgs <> ∅ /\ dom qcfgs ⊆ dom details /\
   Forall (valid_MarketParam unmarshal_object) marketParams).
Proof.
  unfold validateDaemonConfiguration.
  pose proof (validate_exchanges_Ok details (range_of qcfgs) ∅ (range_of_NoDup_keys _)) as Hv.
  rewrite validate_details in Hv. specialize (Hv ltac:(set_solver)).
  destruct (foldM_go (validate_exchange details) ∅ (range_of qcfgs)) as [s|e|p] eqn:E; simpl.
  - apply validate_exchanges_empty in E as Hs. case_bool_decide as Hb.
    + split; [done|]. split; [done|]. intros [Hne _]. tauto.
    + split.
      * intros p Hp. destruct (forM_go_not_Ok _ _ _ Hp) as (mp & _ & Hmp); [done|].
        by apply MarketParam_Validate_no_panic in Hmp.
      * rewrite forM_go_Ok, <- Hs. setoid_rewrite MarketParam_Validate_Ok. naive_solver.
  - split; [done|]. split; [done|]. intros (_ & Hs & _). apply Hv in Hs as [? ?]. done.
  - by apply validate_exchanges_no_panic in E.
Qed.
End Validate.

(** ** Startup

    A goroutine of the startup is a pointer to the updater that it creates and
    whether this is a price fetcher; it reads the configuration of its exchange,
    creates the object and registers it. The goroutines and the loop that
    launches them share no state, and [UpdateMarkets] waits for all of them. A
    panic of any of them ends the program. *)

(** [newTickerWithStop]'s [time.NewTicker], which panics when the interval is
    not positive. *)
Definition non_positive_interval : go_panic := PanicMsg "non-positive interval for NewTicker".
Definition newTicker (intervalMs : Z) : go unit :=
  if wrap int64 (intervalMs * Millisecond) <=? 0 then Panic non_positive_interval else Ok tt.

(** The intervals of the configuration and of the flags are of type uint32:
    only zero is refused. *)
Lemma newTicker_uint32 ms : 0 <= ms < 2 ^ 32 -> newTicker ms = Ok tt <-> ms <> 0.
Proof.
  intros Hms. unfold newTicker, Millisecond.
  rewrite wrap_small; [|auto with go|unfold in_range, min_int, max_int; cbn; lia].
  destruct (Z.leb_spec (ms * 1000000) 0); split; try done; lia.
Qed.

Lemma newTicker_cases ms : newTicker ms = Ok tt \/ newTicker ms = Panic non_positive_interval.
Proof. unfold newTicker. case_match; auto. Qed.

Section Startup.
Context `{RangeOrder}.
Context {R : Type} `{Ring R}.
Context {Updater : Type} `{Countable Updater}.
Variable GetExchangeId : Updater -> ExchangeId.
Variable unmarshal_object : string -> option go_error.
Variable unmarshal_config : string -> go_error + ExchangeConfigJsonT.

Abbreviation Pfmmc := (PricefeedMutableMarketConfigsImpl Updater).

(** The updaters that the pointers lead to. *)
Inductive object :=
  | FetcherObject (priceFetcher : PriceFetcher.PriceFetcher (R := R))
  | EncoderObject (priceEncoder : PriceEncoderImpl).
Abbreviation Objects := (gmap Updater object).

Definition object_UpdateMutableExchangeConfig (o : object) (newConfig : MutableExchangeMarketConfig)
    (newMarketConfigs : list MutableMarketConfig) : go object :=
  match o with
  | FetcherObject f => f' ← PriceFetcher_UpdateMutableExchangeConfig f newConfig newMarketConfigs; Ok (FetcherObject f')
  | EncoderObject e => e' ← PriceEncoder_UpdateMutableExchangeConfig e newConfig newMarketConfigs; Ok (EncoderObject e')
  end.

(** A call of [UpdateMutableExchangeConfig] through the pointer [u]. After a
    panic nothing is called any more. *)
Definition call_update (u : Updater) (p : UpdateParameters) (w : go Objects)
    : go Objects * option go_error :=
  match w with
  | Ok objects =>
      match objects !! u with
      | None => (Panic NilDereference, None)
      | Some o =>
          match object_UpdateMutableExchangeConfig o (ExchangeConfig p) (MarketConfigs p) with
          | Ok o' => (Ok (<[u := o']> objects), None)
          | Err err => (w, Some err)
          | Panic pn => (Panic pn, None)
          end
      end
  | _ => (w, None)
  end.

Definition StartPriceEncoder (configs : Pfmmc) (exchangeId : ExchangeId) (u : Updater)
    : go (PriceEncoderImpl * Pfmmc) :=
  exchangeMarketConfig ← or_panic (GetExchangeMarketConfigCopy configs exchangeId);
  marketConfigs ← or_panic (GetMarketConfigCopies configs
                    (MutableExchangeMarketConfig_GetMarketIds exchangeMarketConfig));
  priceEncoder ← or_panic (NewPriceEncoder exchangeMarketConfig marketConfigs);
  configs' ← AddPriceEncoder GetExchangeId configs u;
  Ok (priceEncoder, configs').

Definition StartPriceFetcher (configs : Pfmmc) (exchangeQueryConfig : ExchangeQueryConfig)
    (exchangeDetails : ExchangeQueryDetails) (u : Updater)
    : go (PriceFetcher.PriceFetcher (R := R) * Pfmmc) :=
  exchangeMarketConfig ← or_panic (GetExchangeMarketConfigCopy configs
                           (eqc_ExchangeId exchangeQueryConfig));
  marketConfigs ← or_panic (GetMarketConfigCopies configs
                    (MutableExchangeMarketConfig_GetMarketIds exchangeMarketConfig));
  priceFetcher ← or_panic (NewPriceFetcher exchangeQueryConfig (IsMultiMarket exchangeDetails)
                   exchangeMarketConfig marketConfigs);
  configs' ← AddPriceFetcher GetExchangeId configs u;
  Ok (priceFetcher, configs').

Definition start_goroutine (qcfgs : gmap ExchangeId ExchangeQueryConfig)
    (details : gmap ExchangeId ExchangeQueryDetails) (s : Pfmmc * Objects) (g : Updater * bool)
    : go (Pfmmc * Objects) :=
  let exchangeId := GetExchangeId g.1 in
  match qcfgs !! exchangeId, details !! exchangeId with
  | Some exchangeConfig, Some exchangeDetails =>
      if g.2 then
        r ← StartPriceFetcher s.1 exchangeConfig exchangeDetails g.1; Ok (r.2, <[g.1 := FetcherObject r.1]> s.2)
      else r ← StartPriceEncoder s.1 exchangeId g.1; Ok (r.2, <[g.1 := EncoderObject r.1]> s.2)
  | _, None => Err (ErrNew ("no exchange details exists for exchangeId: " +:+ exchangeId))
  | None, _ => Panic NilDereference
  end.

(** The body of the loop that launches the goroutines of an exchange. *)
Definition launch_exchange (details : gmap ExchangeId ExchangeQueryDetails)
    (e : ExchangeId * ExchangeQueryConfig) : go unit :=
  match details !! e.1 with
  | None => Err (ErrNew ("no exchange details exists for exchangeId: " +:+ e.1))
  | Some _ => newTicker (IntervalMs e.2)
  end.

(** What a startup leaves. *)
Record StartedDaemon := mkStarted {
  st_exchangeToMarketPrices : ExchangeToMarketPricesImpl;
  st_configs : Pfmmc;
  st_objects : Objects
}.

(** [start] from the validation to the loop of the price updater, with its
    goroutines started in the order [gs]; a nil slice of market params is
    [None]. The result [None]: blocked in [UpdateMarkets]. *)
Definition start_daemon (marketParams : option (list MarketParam))
    (qcfgs : gmap ExchangeId ExchangeQueryConfig) (details : gmap ExchangeId ExchangeQueryDetails)
    (loopDelayMs : Z) (gs : list (Updater * bool)) : option (go StartedDaemon) :=
  let canonicalExchangeIds := (range_of qcfgs).*1 in
  let launched :=
    _ ← validateDaemonConfiguration unmarshal_object (default [] marketParams) qcfgs details;
    exchangeToMarketPrices ← NewExchangeToMarketPrices canonicalExchangeIds;
    _ ← forM_go (launch_exchange details) (range_of qcfgs);
    s ← foldM_go (start_goroutine qcfgs details)
          (NewPriceFeedMutableMarketConfigs canonicalExchangeIds, ∅) gs;
    Ok (exchangeToMarketPrices, s) in
  match launched with
  | Err err => Some (Err err)
  | Panic p => Some (Panic p)
  | Ok (exchangeToMarketPrices, (configs, objects)) =>
      result ← UpdateMarkets unmarshal_object unmarshal_config call_update configs (Ok objects) marketParams;
      Some (r ← result;
            objects ← ur_world r;
            match ur_err r with
            | Some err => Panic (PanicMsg (error_text err))
            | None =>
                _ ← newTicker loopDelayMs;
                Ok (mkStarted exchangeToMarketPrices (ur_pfmmc r) objects)
            end)
  end.

(** ** Lemmas *)
Lemma empty_market_ids ex :
  MutableExchangeMarketConfig_GetMarketIds (empty_exchange_config ex) = [].
Proof.
  unfold MutableExchangeMarketConfig_GetMarketIds, empty_exchange_config. simpl.
  destruct (GetSortedKeys_spec (∅ : gmap MarketId MarketConfig)) as (_ & _ & Hk).
  destruct (GetSortedKeys ∅) as [|k l] eqn:E; [done|].
  destruct (proj1 (Hk k)) as [x Hx]; [by left|]. by rewrite lookup_empty in Hx.
Qed.

Lemma empty_config_valid ex :
  MutableExchangeMarketConfig_Validate (empty_exchange_config ex) [] = Ok tt.
Proof.
  apply MutableExchangeMarketConfig_Validate_Ok. intros m mc. simpl. by rewrite lookup_empty.
Qed.

Lemma empty_config_valid_exchange ex mm : valid_exchange_config (empty_exchange_config ex) mm.
Proof. intros m mc. simpl. by rewrite lookup_empty. Qed.

Lemma GetExchangeMarketConfigCopy_empty (configs : Pfmmc) ex :
  mutableExchangeToConfigs configs !! ex = Some (empty_exchange_config ex) ->
  GetExchangeMarketConfigCopy configs ex = Ok (empty_exchange_config ex).
Proof.
  intros E. unfold GetExchangeMarketConfigCopy. by rewrite E, MutableExchangeMarketConfig_Copy_id.
Qed.

(** What identifies an object, and its current configuration. *)
Definition same_object (o o' : object) : Prop :=
  match o, o' with
  | FetcherObject f, FetcherObject f' =>
      exchangeQueryConfig f' = exchangeQueryConfig f /\ pf_IsMultiMarket f' = pf_IsMultiMarket f
  | EncoderObject e, EncoderObject e' => pe_exchangeId e' = pe_exchangeId e
  | _, _ => False
  end.

Definition object_exchange (o : object) : ExchangeId :=
  match o with FetcherObject f => eqc_ExchangeId (exchangeQueryConfig f) | EncoderObject e => pe_exchangeId e end.

Definition configured (memc : MutableExchangeMarketConfig) (o : object) : Prop :=
  match o with
  | FetcherObject f => fetcher_ok f /\ fs_mutableExchangeConfig (pf_mutableState f) = memc
  | EncoderObject e => encoder_ok e /\ mutableExchangeConfig (pe_mutableState e) = memc
  end.

(** The object that a goroutine creates on an exchange without markets. *)
Definition initial_object (c : ExchangeQueryConfig) (d : ExchangeQueryDetails) (g : Updater * bool) : object :=
  if g.2 then FetcherObject (mkPriceFetcher c (IsMultiMarket d)
                (mkFetcherState (empty_exchange_config (GetExchangeId g.1)) ∅ None))
  else EncoderObject (mkPriceEncoder false (GetExchangeId g.1)
         (mkMutableState (empty_exchange_config (GetExchangeId g.1)) ∅)).

Lemma initial_object_configured c d g :
  eqc_ExchangeId c = GetExchangeId g.1 ->
  configured (empty_exchange_config (GetExchangeId g.1)) (initial_object c d g).
Proof.
  intros Hid. unfold initial_object. destruct g as [u []]; cbn in *; (split; [|done]).
  - split; [cbn; by rewrite Hid|]. apply empty_market_ids.
  - split; [done|]. apply empty_config_valid_exchange.
Qed.

(** On an exchange without markets a goroutine creates its object and
    registers it. *)
Lemma start_goroutine_add qcfgs details (s : Pfmmc * Objects) g c d :
  qcfgs !! GetExchangeId g.1 = Some c -> details !! GetExchangeId g.1 = Some d ->
  eqc_ExchangeId c = GetExchangeId g.1 ->
  mutableExchangeToConfigs s.1 !! GetExchangeId g.1 =
    Some (empty_exchange_config (GetExchangeId g.1)) ->
  start_goroutine qcfgs details s g =
    (configs ← add GetExchangeId s.1 g; Ok (configs, <[g.1 := initial_object c d g]> s.2)).
Proof.
  intros Hc Hd Hid Hex. pose proof (GetExchangeMarketConfigCopy_empty _ _ Hex) as Hg.
  destruct g as [u []]; unfold start_goroutine, add, initial_object in *; simpl in *; rewrite Hc, Hd.
  - unfold StartPriceFetcher. rewrite Hid, Hg. simpl. rewrite empty_market_ids. simpl.
    unfold NewPriceFetcher, PriceFetcher_UpdateMutableExchangeConfig. simpl.
    rewrite bool_decide_true by done. simpl.
    rewrite empty_config_valid, empty_market_ids. simpl. rewrite NewRing_zero. simpl.
    by destruct (AddPriceFetcher GetExchangeId s.1 u).
  - unfold StartPriceEncoder. rewrite Hg. simpl. rewrite empty_market_ids. simpl.
    unfold NewPriceEncoder, PriceEncoder_UpdateMutableExchangeConfig. simpl.
    rewrite bool_decide_true by done. simpl. rewrite empty_config_valid. simpl.
    by destruct (AddPriceEncoder GetExchangeId s.1 u).
Qed.

(** What the goroutines [gs] left: the object of each of them. *)
Definition objects_for (qcfgs : gmap ExchangeId ExchangeQueryConfig)
    (details : gmap ExchangeId ExchangeQueryDetails) (gs : list (Updater * bool)) (objects : Objects) : Prop :=
  forall g c d, g ∈ gs -> qcfgs !! GetExchangeId g.1 = Some c -> details !! GetExchangeId g.1 = Some d ->
    objects !! g.1 = Some (initial_object c d g).

Lemma start_goroutines_add qcfgs details (ids : list ExchangeId) gs (configs : Pfmmc) :
  (forall g, g ∈ gs -> exists c d, qcfgs !! GetExchangeId g.1 = Some c /\
     details !! GetExchangeId g.1 = Some d /\ eqc_ExchangeId c = GetExchangeId g.1) ->
  (forall l1 l2, gs = l1 ++ l2 -> exists configs',
     foldM_go (add GetExchangeId) configs l1 = Ok configs' /\
     forall ex, mutableExchangeToConfigs configs' !! ex =
       if bool_decide (ex ∈ ids) then Some (empty_exchange_config ex) else None) ->
  (forall g, g ∈ gs -> GetExchangeId g.1 ∈ ids) -> NoDup gs.*1 ->
  exists configs' objects, foldM_go (add GetExchangeId) configs gs = Ok configs' /\
    foldM_go (start_goroutine qcfgs details) (configs, ∅) gs = Ok (configs', objects) /\
    objects_for qcfgs details gs objects.
Proof.
  induction gs as [|g gs IH] using rev_ind; intros Hg Hpre Hids Hnd.
  { exists configs, ∅. split_and!; [done|done|]. intros g c d Hin. by apply not_elem_of_nil in Hin. }
  destruct IH as (configs1 & objects & E & E' & Ho).
  - intros g' Hin. apply Hg, elem_of_app. by left.
  - intros l1 l2 ->. apply (Hpre l1 (l2 ++ [g])). by rewrite app_assoc.
  - intros g' Hin. apply Hids, elem_of_app. by left.
  - rewrite fmap_app in Hnd. by apply NoDup_app in Hnd as (? & _).
  - destruct (Hpre (gs ++ [g]) []) as (configs2 & E2 & _); [by rewrite app_nil_r|].
    destruct (Hpre gs [g] eq_refl) as (configs1' & E1 & Hex).
    assert (configs1' = configs1) as -> by congruence.
    destruct (Hg g) as (c & d & Hc & Hd & Hid); [apply elem_of_app; right; by left|].
    exists configs2, (<[g.1 := initial_object c d g]> objects). split_and!; [done| |].
    + rewrite foldM_go_app, E'. cbn [foldM_go mbind go_bind].
      rewrite (start_goroutine_add _ _ _ _ c d Hc Hd Hid); [|cbn [fst]].
      * rewrite foldM_go_app, E in E2. cbn [foldM_go mbind go_bind] in E2. cbn [fst snd].
        destruct (add GetExchangeId configs1 g); simplify_eq/=; done.
      * rewrite Hex, bool_decide_true; [done|]. apply Hids, elem_of_app. right. by left.
    + rewrite fmap_app in Hnd. apply NoDup_app in Hnd as (_ & Hx & _).
      intros g' c' d' [Hin| ->%list_elem_of_singleton]%elem_of_app Hc' Hd'.
      * rewrite lookup_insert_ne; [by apply Ho|]. intros Eg. apply (Hx g'.1); [by apply list_elem_of_fmap_2|].
        rewrite <- Eg. by left.
      * rewrite lookup_insert_eq. congruence.
Qed.

(** An update of the configuration of its exchange that passes the validation
    is taken by an object. *)
Lemma object_update_valid o memc mcs :
  memc_Id memc = object_exchange o -> MutableExchangeMarketConfig_Validate memc mcs = Ok tt ->
  exists o', object_UpdateMutableExchangeConfig o memc mcs = Ok o' /\ same_object o o' /\ configured memc o'.
Proof.
  intros Hid Hv. pose proof Hv as Hvalid. apply MutableExchangeMarketConfig_Validate_Ok in Hvalid.
  destruct o as [f|e]; cbn in Hid |- *.
  - assert (exists f', PriceFetcher_UpdateMutableExchangeConfig f memc mcs = Ok f') as [f' E].
    { unfold PriceFetcher_UpdateMutableExchangeConfig. rewrite bool_decide_true by done. cbn. rewrite Hv.
      destruct (fill_NewRing (MutableExchangeMarketConfig_GetMarketIds memc)) as (ring & -> & _). by eexists. }
    rewrite E. cbn. eexists. split; [done|]. apply update_at_zero in E as (Hq & Hm & Hc & _ & _ & _ & Hr).
    split; [done|]. split; [|done]. split; [by rewrite Hc, Hq|]. unfold GetMarketIds. rewrite Hc.
    destruct (marketIdsRing (pf_mutableState f')) as [r|]; [|done].
    exists 0%nat. unfold rotate. rewrite drop_0, take_0, app_nil_r. split; [|done].
    rewrite <- Hr. destruct (ring_Value_spec r) as [tl ->]. cbn. lia.
  - destruct (UpdateMutableExchangeConfig_cases e memc mcs) as [(_ & _ & ->)|([Hne|Hne] & _)]; [|done..].
    cbn. eexists. split; [done|]. split; [done|]. split; [|done]. by split.
Qed.

Lemma same_object_exchange o o' : same_object o o' -> object_exchange o' = object_exchange o.
Proof. destruct o, o'; cbn; try done. by intros [-> _]. Qed.

Lemma same_object_trans o1 o2 o3 : same_object o1 o2 -> same_object o2 o3 -> same_object o1 o3.
Proof. destruct o1, o2, o3; cbn; try done; [intros [-> ->]; done|by intros ->]. Qed.

Lemma same_object_refl o : same_object o o.
Proof. by destruct o. Qed.

(** A call that its object takes. *)
Definition deliverable (objects : Objects) (call : Updater * UpdateParameters) : Prop :=
  exists o, objects !! call.1 = Some o /\ memc_Id (ExchangeConfig call.2) = object_exchange o /\
    MutableExchangeMarketConfig_Validate (ExchangeConfig call.2) (MarketConfigs call.2) = Ok tt.

(** Calls that are all taken leave every object as it was, or with the
    configuration of one of its calls. *)
Lemma run_calls_delivered calls objects :
  (forall call, call ∈ calls -> deliverable objects call) ->
  exists objects', run_calls call_update (Ok objects) calls = (Ok objects', []) /\
    forall u o, objects !! u = Some o -> exists o', objects' !! u = Some o' /\ same_object o o' /\
      ((u ∉ calls.*1 /\ o' = o) \/ exists p, (u, p) ∈ calls /\ configured (ExchangeConfig p) o').
Proof.
  unfold run_calls. revert objects. induction calls as [|[u p] calls IH]; intros objects Hd; cbn [foldl].
  { exists objects. split; [done|]. intros u o Ho. exists o. split; [done|]. split; [apply same_object_refl|].
    left. split; [apply not_elem_of_nil|done]. }
  destruct (Hd (u, p)) as (o & Ho & Hid & Hv); [by left|]. cbn [fst snd] in Ho, Hid, Hv.
  destruct (object_update_valid o _ _ Hid Hv) as (o1 & E & Hsame & Hconf).
  unfold call_update at 2. rewrite Ho, E.
  destruct (IH (<[u := o1]> objects)) as (objects' & -> & Hall).
  { intros [u' p'] Hin. destruct (Hd (u', p')) as (o' & Ho' & Hid' & Hv'); [by right|].
    unfold deliverable. cbn [fst snd] in *. destruct (decide (u' = u)) as [->|Hne].
    - exists o1. rewrite lookup_insert_eq. split_and!; [done| |done].
      assert (o' = o) as -> by congruence. by rewrite (same_object_exchange _ _ Hsame).
    - exists o'. by rewrite lookup_insert_ne. }
  exists objects'. split; [done|]. intros u' o' Ho'. destruct (decide (u' = u)) as [->|Hne].
  - assert (o' = o) as -> by congruence.
    destruct (Hall u o1) as (o2 & Ho2 & Hs2 & Hc2); [by rewrite lookup_insert_eq|].
    exists o2. split; [done|]. split; [by eapply same_object_trans|]. right.
    destruct Hc2 as [[_ ->]|(p' & Hin & Hc2)]; [exists p; split; [by left|done]|exists p'; split; [by right|done]].
  - destruct (Hall u' o') as (o2 & Ho2 & Hs2 & Hc2); [by rewrite lookup_insert_ne|].
    exists o2. split; [done|]. split; [done|].
    destruct Hc2 as [[Hn ->]|(p' & Hin & Hc2)]; [left|right; exists p'; split; [by right|done]].
    split; [|done]. rewrite fmap_cons. by intros [?|?]%elem_of_cons.
Qed.

Lemma launch_exchanges_cases details (l : list (ExchangeId * ExchangeQueryConfig)) :
  (forall e, e ∈ l -> is_Some (details !! e.1)) ->
  (forM_go (launch_exchange details) l = Ok tt /\ forall e, e ∈ l -> newTicker (IntervalMs e.2) = Ok tt) \/
  (forM_go (launch_exchange details) l = Panic non_positive_interval /\
   exists e, e ∈ l /\ newTicker (IntervalMs e.2) <> Ok tt).
Proof.
  intros Hd. unfold forM_go. induction l as [|e l IH]; cbn [foldM_go].
  { left. split; [done|]. intros e Hin. by apply not_elem_of_nil in Hin. }
  assert (launch_exchange details e = newTicker (IntervalMs e.2)) as El.
  { unfold launch_exchange. by destruct (Hd e) as [d ->]; [by left|]. }
  rewrite El. destruct (newTicker_cases (IntervalMs e.2)) as [E|E]; rewrite E; cbn [mbind go_bind].
  - destruct IH as [[-> Hall]|[-> (e' & Hin & Hne)]]; [intros; apply Hd; by right|left|right].
    + split; [done|]. intros e' [->|Hin]%elem_of_cons; [done|by apply Hall].
    + split; [done|]. exists e'. split; [by right|done].
  - right. split; [done|]. exists e. split; [by left|]. by rewrite E.
Qed.

(** ** The first update: a service whose exchanges have no markets yet *)
Definition held_by (ufe : UpdatersForExchange Updater) (u : Updater) : Prop :=
  MutableConfigs.PriceFetcher ufe = Some u \/ MutableConfigs.PriceEncoder ufe = Some u.

Definition registered_objects (configs : Pfmmc) (objects : Objects) : Prop :=
  forall ex ufe u, mutableExchangeConfigUpdaters configs !! ex = Some ufe -> held_by ufe u ->
    exists o, objects !! u = Some o /\ object_exchange o = ex /\ configured (empty_exchange_config ex) o.

(** No exchange adjusts a price by a market that has no configuration. *)
Definition all_resolved (t : transformed) : Prop :=
  forall ex memc, exchangeConfigs t !! ex = Some memc -> resolved memc (marketConfigs t).

Section FirstUpdate.
Variables (configs : Pfmmc) (objects : Objects) (params : list MarketParam) (t : transformed).
Hypothesis Hwg : updatersInitialized configs = 0.
Hypothesis Hreg : registered GetExchangeId configs.
Hypothesis Hempty : forall ex memc, mutableExchangeToConfigs configs !! ex = Some memc -> memc = empty_exchange_config ex.
Hypothesis Hobj : registered_objects configs objects.
Hypothesis Ht : ValidateAndTransformParams unmarshal_object unmarshal_config configs (Some params) = Ok t.

Let Htr := ValidateAndTransformParams_Ok_transforms unmarshal_object unmarshal_config configs params t Ht.
Let Hdom := transforms_dom unmarshal_object unmarshal_config configs _ _ _ Htr.

Lemma empty_resolved ex mm : resolved (empty_exchange_config ex) mm.
Proof using Type.
  intros m [[x Hx]|(m' & mc & Hx & _)]; cbn in Hx; by rewrite lookup_empty in Hx.
Qed.

Lemma changed_or_empty ex memc :
  exchangeConfigs t !! ex = Some memc ->
  changed configs (exchangeConfigs t) ex \/ memc = empty_exchange_config ex.
Proof using All.
  intros Hm. destruct (proj1 (Hdom ex)) as [prev Hp]; [by eexists|].
  pose proof (Hempty _ _ Hp) as ->. destruct (decide (memc = empty_exchange_config ex)) as [->|Hne]; [by right|left].
  unfold changed. rewrite Hp, Hm. congruence.
Qed.

Lemma transformed_id ex memc : exchangeConfigs t !! ex = Some memc -> memc_Id memc = ex.
Proof using Ht.
  intros Hm. pose proof (transforms_ids _ _ _ _ _ _ Htr ex) as E. rewrite Hm in E. cbn in E. case_bool_decide; congruence.
Qed.

Section Calls.
Variable M : gmap (option Updater) UpdateParameters.
Hypothesis HM : forall u p, M !! Some u = Some p <->
  params_for configs (exchangeConfigs t) (marketConfigs t) (range_of (mutableExchangeConfigUpdaters configs)) u p.
Hypothesis Hres : all_resolved t.

Lemma calls_of_entry ex ufe memc :
  mutableExchangeConfigUpdaters configs !! ex = Some ufe -> exchangeConfigs t !! ex = Some memc ->
  (calls_at M (ex, ufe) = [] /\ memc = empty_exchange_config ex) \/
  exists mcs, MutableExchangeMarketConfig_Validate memc mcs = Ok tt /\
    (forall call, call ∈ calls_at M (ex, ufe) -> held_by ufe call.1 /\ call.2 = mkUpdateParameters memc mcs) /\
    forall u, held_by ufe u -> u ∈ (calls_at M (ex, ufe)).*1.
Proof using All.
  intros Hufe Hm. destruct (registered_pair _ _ Hreg _ _ Hufe) as (f & e & -> & _ & _ & _).
  destruct (calls_at_exchange unmarshal_object unmarshal_config GetExchangeId call_update configs t params M ex f e memc Hreg Ht HM
    (fun _ => Hres ex memc Hm) Hufe Hm) as [Hsame Hdiff].
  destruct (decide (mutableExchangeToConfigs configs !! ex = Some memc)) as [E|E].
  - left. split; [by apply Hsame|by apply Hempty].
  - right. destruct (Hdiff E) as (mcs & -> & _ & Hv). exists mcs. split; [done|]. unfold held_by. cbn. split.
    + intros call [->|[->|[]%elem_of_nil]%elem_of_cons]%elem_of_cons; cbn; auto.
    + intros u [[= <-]|[= <-]]; [right; by left|by left].
Qed.

Lemma call_inv call :
  call ∈ range_of (mutableExchangeConfigUpdaters configs) ≫= calls_at M ->
  exists ex ufe memc mcs, mutableExchangeConfigUpdaters configs !! ex = Some ufe /\
    exchangeConfigs t !! ex = Some memc /\ held_by ufe call.1 /\ call.2 = mkUpdateParameters memc mcs /\
    MutableExchangeMarketConfig_Validate memc mcs = Ok tt.
Proof using All.
  intros ([ex ufe] & Hc & Hin%elem_of_range_of)%list_elem_of_bind.
  destruct (proj2 (Hdom ex)) as [memc Hm]; [apply (registered_dom _ _ Hreg); by eexists|].
  destruct (calls_of_entry ex ufe memc Hin Hm) as [[E _]|(mcs & Hv & Hall & _)].
  - rewrite E in Hc. by apply not_elem_of_nil in Hc.
  - destruct (Hall _ Hc) as [Hh E]. by exists ex, ufe, memc, mcs.
Qed.

(** Every object takes the configuration of its exchange. *)
Lemma calls_delivered :
  exists objects', run_calls call_update (Ok objects) (range_of (mutableExchangeConfigUpdaters configs) ≫= calls_at M) =
      (Ok objects', []) /\
    forall ex ufe u memc o, mutableExchangeConfigUpdaters configs !! ex = Some ufe -> held_by ufe u ->
      exchangeConfigs t !! ex = Some memc -> objects !! u = Some o ->
      exists o', objects' !! u = Some o' /\ same_object o o' /\ configured memc o'.
Proof using All.
  destruct (run_calls_delivered (range_of (mutableExchangeConfigUpdaters configs) ≫= calls_at M) objects)
    as (objects' & -> & Hall).
  { intros call Hc. destruct (call_inv call Hc) as (ex & ufe & memc & mcs & Hufe & Hm & Hh & E & Hv).
    destruct (Hobj ex ufe call.1 Hufe Hh) as (o & Ho & Hid & _). exists o. rewrite E. cbn.
    split_and!; [done| |done]. by rewrite Hid, (transformed_id ex memc Hm). }
  exists objects'. split; [done|]. intros ex ufe u memc o Hufe Hh Hm Ho.
  destruct (Hall u o Ho) as (o' & Ho' & Hs & Hc). exists o'. split; [done|]. split; [done|].
  destruct (Hobj ex ufe u Hufe Hh) as (o1 & Ho1 & _ & Hc1). assert (o1 = o) as -> by congruence.
  destruct Hc as [[Hn ->]|(p & Hin & Hc)].
  - destruct (calls_of_entry ex ufe memc Hufe Hm) as [[_ ->]|(mcs & _ & _ & Hin)]; [done|].
    specialize (Hin u Hh). apply (list_elem_of_fmap fst) in Hin as (call & Eu & Hin).
    destruct Hn. rewrite Eu. apply (list_elem_of_fmap_2 fst). apply list_elem_of_bind. exists (ex, ufe).
    split; [done|by apply elem_of_range_of].
  - destruct (call_inv (u, p) Hin) as (ex' & ufe' & memc' & mcs & Hufe' & Hm' & Hh' & E & _). cbn in Hh', E. subst p.
    assert (ex' = ex) as ->; [|by assert (memc' = memc) as -> by congruence].
    destruct (registered_pair _ _ Hreg _ _ Hufe) as (f & e & -> & _ & Hf & He).
    destruct (registered_pair _ _ Hreg _ _ Hufe') as (f' & e' & -> & _ & Hf' & He').
    destruct Hh as [[= <-]|[= <-]], Hh' as [[= <-]|[= <-]]; congruence.
Qed.
End Calls.

(** [UpdateMarkets] in the startup: it gives every object the configuration of
    its exchange, or it dereferences nil. *)
Lemma first_update :
  (all_resolved t /\ exists r objects',
     UpdateMarkets unmarshal_object unmarshal_config call_update configs (Ok objects) (Some params) = Some (Ok r) /\
     ur_pfmmc r = mkPfmmc (exchangeConfigs t) (marketConfigs t) (mutableExchangeConfigUpdaters configs) 0 /\
     ur_world r = Ok objects' /\ ur_err r = None /\
     forall ex ufe u memc o, mutableExchangeConfigUpdaters configs !! ex = Some ufe -> held_by ufe u ->
       exchangeConfigs t !! ex = Some memc -> objects !! u = Some o ->
       exists o', objects' !! u = Some o' /\ same_object o o' /\ configured memc o') \/
  (~ all_resolved t /\
   UpdateMarkets unmarshal_object unmarshal_config call_update configs (Ok objects) (Some params) = Some (Panic NilDereference)).
Proof using All.
  destruct (UpdateMarkets_cases unmarshal_object unmarshal_config GetExchangeId call_update configs (Ok objects) params t Hwg Hreg Ht)
    as [(M & r & Hok & HM & Hu & Hp & _ & Hw & He)|(Hu & ex & Hch & Hns)]; [left|right].
  - assert (all_resolved t) as Hres.
    { intros ex memc Hm. destruct (changed_or_empty ex memc Hm) as [Hch| ->]; [|apply empty_resolved].
      destruct (proj2 (registered_dom _ _ Hreg ex)) as [ufe Hufe]; [apply Hdom; by eexists|].
      apply (Hok (ex, ufe)); [by apply elem_of_range_of|done|done]. }
    split; [done|]. destruct (calls_delivered M HM Hres) as (objects' & E & Hall).
    cbn zeta in Hw, He. rewrite E in Hw, He. cbn in Hw, He. exists r, objects'. split_and!; [done..| |done]. by apply He.
  - split; [|done]. intros Hres. apply Hns. intros memc Hm. by apply (Hres ex).
Qed.
End FirstUpdate.

Lemma registered_as (ids : list ExchangeId) gs (configs : Pfmmc) ex ufe :
  NoDup ids -> slot_key GetExchangeId <$> gs ≡ₚ all_slots ids ->
  foldM_go (add GetExchangeId) (NewPriceFeedMutableMarketConfigs ids) gs = Ok configs ->
  mutableExchangeConfigUpdaters configs !! ex = Some ufe ->
  (forall u, MutableConfigs.PriceFetcher ufe = Some u -> (u, true) ∈ gs /\ GetExchangeId u = ex) /\
  (forall u, MutableConfigs.PriceEncoder ufe = Some u -> (u, false) ∈ gs /\ GetExchangeId u = ex).
Proof using Type.
  intros Hnd Hp E Hufe.
  destruct (adds_prefix GetExchangeId ids gs [] Hnd) as (configs' & E' & _ & _ & Hs); [by rewrite app_nil_r|].
  assert (configs' = configs) as -> by congruence. destruct (Hs ex) as [Hd _]. rewrite Hufe in Hd. cbn in Hd. subst ufe.
  split; intros u Hu; by apply slot_Some in Hu.
Qed.

(** Every interval of the daemon is one that [NewTicker] accepts. *)
Definition all_tick (qcfgs : gmap ExchangeId ExchangeQueryConfig) (loopDelayMs : Z) : Prop :=
  (forall ex c, qcfgs !! ex = Some c -> newTicker (IntervalMs c) = Ok tt) /\ newTicker loopDelayMs = Ok tt.

(** The market params, transformed for the exchanges of the daemon. *)
Definition initial_transform (qcfgs : gmap ExchangeId ExchangeQueryConfig) (params : list MarketParam) : go transformed :=
  ValidateAndTransformParams unmarshal_object unmarshal_config
    (NewPriceFeedMutableMarketConfigs (range_of qcfgs).*1 : Pfmmc) (Some params).

(** The fetcher and the encoder of the exchange [ex], with its configuration. *)
Definition exchange_started (s : StartedDaemon) (t : transformed) (ex : ExchangeId)
    (c : ExchangeQueryConfig) (d : ExchangeQueryDetails) : Prop :=
  exists memc u f v e, exchangeConfigs t !! ex = Some memc /\
    mutableExchangeConfigUpdaters (st_configs s) !! ex = Some (mkUpdatersForExchange (Some u) (Some v)) /\
    st_objects s !! u = Some (FetcherObject f) /\ exchangeQueryConfig f = c /\
    pf_IsMultiMarket f = IsMultiMarket d /\ configured memc (FetcherObject f) /\
    st_objects s !! v = Some (EncoderObject e) /\ pe_exchangeId e = ex /\ configured memc (EncoderObject e).

(** A valid param repeats the id of an accepted one before it. *)
Definition repeated_ids (qcfgs : gmap ExchangeId ExchangeQueryConfig) (params : list MarketParam) : Prop :=
  duplicates unmarshal_object unmarshal_config
    (range_of (mutableExchangeToConfigs (NewPriceFeedMutableMarketConfigs (range_of qcfgs).*1 : Pfmmc))).*1
    (marketNameToId params) params.

Lemma initial_transform_cases qcfgs (configs : Pfmmc) params :
  mutableExchangeToConfigs configs =
    mutableExchangeToConfigs (NewPriceFeedMutableMarketConfigs (range_of qcfgs).*1 : Pfmmc) ->
  ValidateAndTransformParams unmarshal_object unmarshal_config configs (Some params) = initial_transform qcfgs params /\
  ((exists t, initial_transform qcfgs params = Ok t /\ ~ repeated_ids qcfgs params) \/
   exists err, initial_transform qcfgs params = Err err /\ repeated_ids qcfgs params).
Proof using Type.
  intros E. split; [unfold initial_transform, ValidateAndTransformParams; by rewrite E|].
  unfold initial_transform, ValidateAndTransformParams, repeated_ids.
  destruct (transform_params unmarshal_object unmarshal_config
    (range_of (mutableExchangeToConfigs (NewPriceFeedMutableMarketConfigs (range_of qcfgs).*1 : Pfmmc))).*1
    (marketNameToId params) _ params
    (initial_transforms unmarshal_object unmarshal_config (NewPriceFeedMutableMarketConfigs (range_of qcfgs).*1 : Pfmmc) (marketNameToId params)))
    as [(Hd & id & E')|(Hd & t & E' & _)]; [right|left]; rewrite E'; by eexists.
Qed.

Lemma range_of_keys (qcfgs : gmap ExchangeId ExchangeQueryConfig) ex :
  ex ∈ (range_of qcfgs).*1 <-> is_Some (qcfgs !! ex).
Proof using Type.
  rewrite list_elem_of_fmap. split.
  - intros ([ex' c] & -> & Hin%elem_of_range_of). by exists c.
  - intros [c Hc]. exists (ex, c). by rewrite elem_of_range_of.
Qed.

(** The service and the objects when every goroutine has registered. *)
Lemma goroutines_done qcfgs details gs :
  dom qcfgs ⊆ dom details -> (forall ex c, qcfgs !! ex = Some c -> eqc_ExchangeId c = ex) ->
  NoDup gs.*1 -> slot_key GetExchangeId <$> gs ≡ₚ all_slots (range_of qcfgs).*1 ->
  exists configs objects,
    foldM_go (start_goroutine qcfgs details) (NewPriceFeedMutableMarketConfigs (range_of qcfgs).*1, ∅) gs = Ok (configs, objects) /\
    updatersInitialized configs = 0 /\ registered GetExchangeId configs /\
    mutableExchangeToConfigs configs = mutableExchangeToConfigs (NewPriceFeedMutableMarketConfigs (range_of qcfgs).*1 : Pfmmc) /\
    (forall ex, mutableExchangeToConfigs configs !! ex =
       if bool_decide (is_Some (qcfgs !! ex)) then Some (empty_exchange_config ex) else None) /\
    registered_objects configs objects /\
    forall ex c d ufe, qcfgs !! ex = Some c -> details !! ex = Some d ->
      mutableExchangeConfigUpdaters configs !! ex = Some ufe ->
      (forall u, MutableConfigs.PriceFetcher ufe = Some u ->
         GetExchangeId u = ex /\ objects !! u = Some (initial_object c d (u, true))) /\
      (forall u, MutableConfigs.PriceEncoder ufe = Some u ->
         GetExchangeId u = ex /\ objects !! u = Some (initial_object c d (u, false))).
Proof using Type.
  intros Hdet Hids Hobj Hp. assert (Hnd := range_of_NoDup_keys qcfgs).
  pose proof (range_of_keys qcfgs) as Hkeys.
  assert (forall g, g ∈ gs -> GetExchangeId g.1 ∈ (range_of qcfgs).*1) as Hgs.
  { intros g Hin. apply (elem_of_all_slots _ _ g.2). rewrite <- Hp.
    by apply (list_elem_of_fmap_2 (slot_key GetExchangeId)) in Hin. }
  destruct (start_goroutines_add qcfgs details (range_of qcfgs).*1 gs (NewPriceFeedMutableMarketConfigs (range_of qcfgs).*1))
    as (configs & objects & E & E' & Ho).
  - intros g Hin%Hgs. apply Hkeys in Hin as [c Hc].
    assert (GetExchangeId g.1 ∈ dom details) as [d Hd]%elem_of_dom by (apply Hdet, elem_of_dom; by exists c).
    exists c, d. by split_and!; [| |apply Hids].
  - intros l1 l2 ->. destruct (adds_prefix GetExchangeId _ l1 l2 Hnd Hp) as (configs & Hf & Hex & _).
    exists configs. split; [done|]. intros ex. rewrite Hex. apply New_exchanges.
  - done.
  - done.
  - destruct (registration_done GetExchangeId _ gs Hnd Hobj Hp) as (configs' & Ea & Hwg & Hreg & Hc).
    assert (configs' = configs) as -> by congruence.
    destruct (adds_prefix GetExchangeId _ gs [] Hnd) as (configs' & Ea' & Hex & _); [by rewrite app_nil_r|].
    assert (configs' = configs) as -> by congruence.
    assert (forall ex c d ufe, qcfgs !! ex = Some c -> details !! ex = Some d ->
      mutableExchangeConfigUpdaters configs !! ex = Some ufe ->
      (forall u, MutableConfigs.PriceFetcher ufe = Some u ->
         GetExchangeId u = ex /\ objects !! u = Some (initial_object c d (u, true))) /\
      (forall u, MutableConfigs.PriceEncoder ufe = Some u ->
         GetExchangeId u = ex /\ objects !! u = Some (initial_object c d (u, false)))) as Hinit.
    { intros ex c d ufe Hq Hd Hufe. destruct (registered_as _ gs configs ex ufe Hnd Hp E Hufe) as [Hf He].
      split; intros u Hu; [destruct (Hf u Hu) as [Hin Hid]|destruct (He u Hu) as [Hin Hid]];
        (split; [done|]); apply (Ho (u, _) c d Hin); cbn; by rewrite Hid. }
    exists configs, objects. split_and!; [done|done|done|done| | |done].
    + intros ex. rewrite Hc. apply bool_decide_ext_if, Hkeys.
    + intros ex ufe u Hufe Hh.
      assert (is_Some (qcfgs !! ex)) as [c Hq].
      { apply Hkeys. destruct (proj1 (registered_dom _ _ Hreg ex)) as [memc Hm]; [by eexists|].
        rewrite Hc in Hm. by case_bool_decide. }
      assert (is_Some (details !! ex)) as [d Hd] by (apply elem_of_dom, Hdet, elem_of_dom; by exists c).
      destruct (Hinit ex c d ufe Hq Hd Hufe) as [Hf He].
      destruct Hh as [Hu|Hu]; [destruct (Hf u Hu) as [<- Eo]|destruct (He u Hu) as [<- Eo]];
        (eexists; split; [exact Eo|]); (split; [|by apply initial_object_configured, Hids]); cbn; [by apply Hids|done].
Qed.

Lemma launched_etmp (qcfgs : gmap ExchangeId ExchangeQueryConfig) :
  qcfgs <> ∅ -> exists etmp : ExchangeToMarketPricesImpl, NewExchangeToMarketPrices (range_of qcfgs).*1 = Ok etmp /\
    forall ex, ex ∈ etm_exchanges etmp <-> is_Some (qcfgs !! ex).
Proof using Type.
  intros Hne.
  pose proof (range_of_keys qcfgs) as Hkeys.
  assert ((range_of qcfgs).*1 <> []) as Hnil.
  { intros Hnil. apply Hne, map_empty. intros ex. destruct (qcfgs !! ex) eqn:E; [|done].
    assert (ex ∈ (range_of qcfgs).*1) as Hin by (apply Hkeys; by eexists).
    rewrite Hnil in Hin. by apply not_elem_of_nil in Hin. }
  set (etmp := mkExchangeToMarketPrices
    (gset_to_gmap NewMarketToPrice (list_to_set (range_of qcfgs).*1))).
  exists etmp. split; [apply NewExchangeToMarketPrices_Ok; split; [done|]; split; [apply range_of_NoDup_keys|done]|].
  intros ex. etransitivity; [apply elem_of_impl_exchanges|]. simpl.
  rewrite <- elem_of_dom, dom_gset_to_gmap, elem_of_list_to_set. apply Hkeys.
Qed.

(** C6: startup. On a valid configuration whose query configs carry the id
    they are stored under, and in whatever order the goroutines run: [start]
    neither returns an error nor blocks. It comes to the loop of the price
    updater, with the transformed market params in the service, every exchange
    having its price cell map, its fetcher and its encoder, and each of these
    the configuration of its exchange; or it panics, and exactly when one
    of the following is so: an interval is refused by [NewTicker] (zero, which the
    validation accepts), there are no market params or a valid one repeats the
    id of an accepted one (an error of [UpdateMarkets]), or an exchange adjusts a
    price by a market without configuration (a nil dereference in [UpdateMarkets]). *)
Theorem start_daemon_correct (marketParams : option (list MarketParam))
    (qcfgs : gmap ExchangeId ExchangeQueryConfig) (details : gmap ExchangeId ExchangeQueryDetails)
    (loopDelayMs : Z) (gs : list (Updater * bool)) :
  validateDaemonConfiguration unmarshal_object (default [] marketParams) qcfgs details = Ok tt ->
  (forall ex c, qcfgs !! ex = Some c -> eqc_ExchangeId c = ex) ->
  NoDup gs.*1 -> slot_key GetExchangeId <$> gs ≡ₚ all_slots (range_of qcfgs).*1 ->
  exists result, start_daemon marketParams qcfgs details loopDelayMs gs = Some result /\
  match result with
  | Ok s => exists params t, marketParams = Some params /\ all_tick qcfgs loopDelayMs /\
      ~ repeated_ids qcfgs params /\ initial_transform qcfgs params = Ok t /\ all_resolved t /\
      (forall ex, ex ∈ etm_exchanges (st_exchangeToMarketPrices s) <-> is_Some (qcfgs !! ex)) /\
      updatersInitialized (st_configs s) = 0 /\ registered GetExchangeId (st_configs s) /\
      mutableExchangeToConfigs (st_configs s) = exchangeConfigs t /\
      mutableMarketToConfigs (st_configs s) = marketConfigs t /\
      forall ex c, qcfgs !! ex = Some c -> exists d, details !! ex = Some d /\ exchange_started s t ex c d
  | Err _ => False
  | Panic p =>
      (p = non_positive_interval /\ ~ all_tick qcfgs loopDelayMs) \/
      (exists err, p = PanicMsg (error_text err) /\
         forall params, marketParams = Some params -> repeated_ids qcfgs params) \/
      (p = NilDereference /\ exists params t, marketParams = Some params /\
         initial_transform qcfgs params = Ok t /\ ~ all_resolved t)
  end.
Proof using Type.
  intros Hv Hids Hobj Hp. destruct (validateDaemonConfiguration_inv _ _ _ _ Hv) as [Hne Hdet].
  destruct (launched_etmp qcfgs Hne) as (etmp & Ee & Hetmp).
  destruct (goroutines_done qcfgs details gs Hdet Hids Hobj Hp)
    as (configs & objects & Eg & Hwg & Hreg & Hsame & Hex & Hro & Hinit).
  unfold start_daemon. rewrite Hv, Ee. cbn [mbind go_bind].
  destruct (launch_exchanges_cases details (range_of qcfgs)) as [[-> Htick]|[-> (e & Hin & Hbad)]].
  { intros [ex c] Hin%elem_of_range_of. apply elem_of_dom, Hdet, elem_of_dom. by exists c. }
  2:{ eexists. split; [done|]. left. split; [done|]. intros [Hall _]. apply Hbad. destruct e as [ex c].
      apply (Hall ex). by apply elem_of_range_of. }
  cbn [mbind go_bind]. rewrite Eg. cbn [mbind go_bind]. destruct marketParams as [params|].
  2:{ unfold UpdateMarkets. rewrite Hwg. cbn. eexists. split; [done|]. right. left.
      exists (ErrNew "UpdateMarkets: marketParams cannot be nil"). split; [done|]. intros params' [=]. }
  destruct (initial_transform_cases qcfgs configs params Hsame) as [Et [(t & Ht & Hnd)|(err & Ht & Hd)]].
  2:{ unfold UpdateMarkets. rewrite Hwg, Et, Ht. cbn. eexists. split; [done|]. right. left.
      exists (wrapf "UpdateMarkets market param validation failed" err). split; [done|].
      by intros params' [= <-]. }
  assert (forall ex memc, mutableExchangeToConfigs configs !! ex = Some memc -> memc = empty_exchange_config ex) as Hempty.
  { intros ex memc Hm. rewrite Hex in Hm. case_bool_decide; congruence. }
  destruct (first_update configs objects params t Hwg Hreg Hempty Hro (eq_trans Et Ht))
    as [(Hres & r & objects' & -> & Er & Ew & Eerr & Hcalls)|[Hres ->]].
  2:{ cbn. eexists. split; [done|]. right. right. split; [done|]. by exists params, t. }
  cbn [mbind option_bind go_bind]. rewrite Ew, Eerr. cbn [mbind go_bind].
  destruct (newTicker_cases loopDelayMs) as [El|El]; rewrite El; cbn [mbind go_bind].
  2:{ eexists. split; [done|]. left. split; [done|]. intros [_ Hl]. congruence. }
  pose proof (ValidateAndTransformParams_Ok_transforms unmarshal_object unmarshal_config configs params t (eq_trans Et Ht)) as Htr.
  pose proof (transforms_dom unmarshal_object unmarshal_config configs _ _ _ Htr) as Hdom.
  eexists. split; [done|]. exists params, t. cbn [st_exchangeToMarketPrices st_configs st_objects]. rewrite Er. cbn.
  split_and!; try done.
  - split; [|done]. intros ex c Hc. apply (Htick (ex, c)). by apply elem_of_range_of.
  - split; cbn; [intros ex; rewrite Hdom; apply (registered_dom _ _ Hreg)|apply (registered_pair _ _ Hreg)].
  - intros ex c Hc. assert (is_Some (details !! ex)) as [d Hd] by (apply elem_of_dom, Hdet, elem_of_dom; by exists c).
    exists d. split; [done|]. assert (is_Some (mutableExchangeToConfigs configs !! ex)) as Hm.
    { rewrite Hex, bool_decide_true; [done|by exists c]. }
    destruct (proj2 (Hdom ex) Hm) as [memc Hmemc]. destruct (proj2 (registered_dom _ _ Hreg ex) Hm) as [ufe Hufe].
    destruct (Hinit ex c d ufe Hc Hd Hufe) as [Hf He].
    destruct (registered_pair _ _ Hreg _ _ Hufe) as (u & v & -> & _ & _ & _).
    destruct (Hf u eq_refl) as [Hu Hou], (He v eq_refl) as [Hv' Hov].
    destruct (Hcalls ex _ u memc _ Hufe (or_introl eq_refl) Hmemc Hou) as (ou & Hou' & Hsu & Hcu).
    destruct (Hcalls ex _ v memc _ Hufe (or_intror eq_refl) Hmemc Hov) as (ov & Hov' & Hsv & Hcv).
    unfold initial_object in Hsu, Hsv. cbn in Hsu, Hsv. destruct ou as [f|], ov as [|e]; try done.
    exists memc, u, f, v, e. cbn [st_configs st_objects]. destruct Hsu. split_and!; try done. by rewrite Hsv.
Qed.
End Startup.

(** ** The life of an encoder

    Its goroutine takes the responses from the channel one by one; meanwhile
    [UpdateMarkets] changes its configuration, and the encoders of the other
    exchanges write to the same cache. A rejected update is an error of
    [UpdateMarkets] and leaves the encoder as it was. *)
Section EncoderLife.
Context `{RangeOrder}.
Context {D : Type} `{Decimal D}.
Context {Cache : Type} `{ExchangeToMarketPrices Cache}.

Inductive encoder_event :=
  | Response (now : Time) (response : PriceFetcherSubtaskResponse)
  | ConfigUpdate (newConfig : MutableExchangeMarketConfig)
      (newMarketConfigs : list MutableMarketConfig)
  | OtherEncoder (update : ExchangeId * MarketPriceTimestamp).

Definition encoder_step (s : PriceEncoderImpl * Cache) (ev : encoder_event)
    : go (PriceEncoderImpl * Cache) :=
  match ev with
  | Response now response =>
      r ← ProcessPriceFetcherResponse s.1 s.2 now (Some response); Ok (s.1, r.1)
  | ConfigUpdate newConfig newMarketConfigs =>
      match PriceEncoder_UpdateMutableExchangeConfig s.1 newConfig newMarketConfigs with
      | Ok p => Ok (p, s.2)
      | Err _ => Ok s
      | Panic pn => Panic pn
      end
  | OtherEncoder u => cache ← etm_UpdatePrice s.2 u.1 u.2; Ok (s.1, cache)
  end.

(** What a fetcher writes: an error, or a price (unsigned). *)
Definition fetched (r : PriceFetcherSubtaskResponse) : Prop :=
  (exists err, r = mkResponse None (Some err)) \/
  (exists price, r = mkResponse (Some price) None /\ 0 <= mpt_Price price).

Definition event_ok (ex : ExchangeId) (exchanges : list ExchangeId) (ev : encoder_event) : Prop :=
  match ev with
  | Response _ r => fetched r
  | ConfigUpdate _ _ => True
  | OtherEncoder u => u.1 <> ex /\ u.1 ∈ exchanges
  end.

Definition other_updates (events : list encoder_event) : list (ExchangeId * MarketPriceTimestamp) :=
  omap (fun ev => match ev with OtherEncoder u => Some u | _ => None end) events.

Lemma convertPriceUpdate_no_panic p (cache : Cache) now mpt pn :
  0 <= mpt_Price mpt -> convertPriceUpdate p cache now mpt <> Panic pn.
Proof.
  intros Hp. unfold convertPriceUpdate.
  destruct (GetPriceConversionDetailsForMarket (pe_mutableState p) (mpt_MarketId mpt))
    as [[inv e adj]|err|pn'] eqn:E; simpl; [|done|].
  2:{ unfold GetPriceConversionDetailsForMarket in E. repeat (case_match; simplify_eq/=). }
  destruct adj as [a|]; simpl.
  - destruct (GetIndexPrice_median_total cache (abm_MarketId a) (time_Add now (- MaxPriceAge)))
      as (index & n & ->). simpl. case_match; [done|]. destruct inv; simpl; [|done].
    destruct (prices_Divide_total index (abm_Exponent a) (mpt_Price mpt) e) as [v ->]; done.
  - destruct inv; simpl; [|done].
    destruct (prices_Invert_total (mpt_Price mpt) e) as [v ->]; done.
Qed.

(** Processing a response touches the cells of the own exchange only. *)
Lemma Process_own p (cache : Cache) now r :
  pe_exchangeId p ∈ etm_exchanges cache -> fetched r ->
  exists cache' rep, ProcessPriceFetcherResponse p cache now (Some r) = Ok (cache', rep) /\
    etm_exchanges cache' ≡ₚ etm_exchanges cache /\
    forall ex m, ex <> pe_exchangeId p -> etm_cell cache' (ex, m) = etm_cell cache (ex, m).
Proof.
  intros Hex [[err ->]|(mpt & -> & Hp)]; simpl; [by do 2 eexists|].
  unfold PriceEncoder_UpdatePrice.
  destruct (convertPriceUpdate p cache now mpt) as [v|err|pn] eqn:E; simpl.
  - destruct (etm_UpdatePrice_known cache _ v Hex) as (cache' & -> & Hperm & _ & Hoth). simpl.
    do 2 eexists. split_and!; [done|done|]. intros ex m Hne. apply Hoth. congruence.
  - by do 2 eexists.
  - by apply convertPriceUpdate_no_panic in E.
Qed.

(** Caches that agree outside the cells of an exchange. *)
Definition agree_off (ex : ExchangeId) (c o : Cache) : Prop :=
  etm_exchanges c ≡ₚ etm_exchanges o /\
  forall ex' m, ex' <> ex -> etm_cell c (ex', m) = etm_cell o (ex', m).

Lemma agree_off_update ex c o u :
  agree_off ex c o -> u.1 <> ex -> u.1 ∈ etm_exchanges c ->
  exists c' o', etm_UpdatePrice c u.1 u.2 = Ok c' /\ etm_UpdatePrice o u.1 u.2 = Ok o' /\
    agree_off ex c' o' /\ etm_exchanges c' ≡ₚ etm_exchanges c.
Proof.
  intros [Hperm Hcells] Hne Hin. assert (u.1 ∈ etm_exchanges o) as Hin' by by rewrite <- Hperm.
  destruct (etm_UpdatePrice_known c u.1 u.2 Hin) as (c' & -> & Hc & Heq & Hoth).
  destruct (etm_UpdatePrice_known o u.1 u.2 Hin') as (o' & -> & Ho & Heq' & Hoth').
  exists c', o'. split_and!; [done..| |done]. split; [by rewrite Hc, Ho|].
  intros ex' m Hne'. destruct (decide ((ex', m) = (u.1, mpt_MarketId u.2))) as [[= -> ->]|Hk].
  - rewrite Heq, Heq', Hcells by done. done.
  - rewrite Hoth, Hoth' by done. by apply Hcells.
Qed.

Lemma encoder_step_ok p (c o : Cache) ev :
  agree_off (pe_exchangeId p) c o -> pe_exchangeId p ∈ etm_exchanges c ->
  event_ok (pe_exchangeId p) (etm_exchanges c) ev ->
  exists p' c' o', encoder_step (p, c) ev = Ok (p', c') /\
    etm_updates o (other_updates [ev]) = Ok o' /\ agree_off (pe_exchangeId p) c' o' /\
    pe_exchangeId p' = pe_exchangeId p /\ etm_exchanges c' ≡ₚ etm_exchanges c /\
    (encoder_ok p -> encoder_ok p').
Proof.
  intros Ha Hex Hev. destruct ev as [now r|cfg mkts|u]; cbn [encoder_step fst snd]; simpl in Hev.
  - destruct (Process_own p c now r Hex Hev) as (c' & rep & -> & Hperm & Hoth). simpl.
    exists p, c', o. split_and!; [done|done| |done..]. destruct Ha as [Hp Hc].
    split; [by rewrite Hperm|]. intros ex m Hne. rewrite Hoth by done. by apply Hc.
  - destruct (UpdateMutableExchangeConfig_cases p cfg mkts) as [(Hid & Hv & ->)|(_ & err & ->)].
    + do 3 eexists. split_and!; [done|done|done|done|done|]. intros _. by split.
    + do 3 eexists. by split_and!.
  - destruct Hev as [Hne Hin]. destruct (agree_off_update _ _ _ u Ha Hne Hin)
      as (c' & o' & -> & Ho & Ha' & Hperm).
    exists p, c', o'. unfold etm_updates. simpl. rewrite Ho. simpl. by split_and!.
Qed.

(** the life of an encoder. Whatever configuration updates it is sent and
    whatever prices and errors it receives, in any interleaving with the
    updates of the other encoders, the encoder never panics, keeps its exchange
    and the invariant of its configuration, and leaves every cell of the other
    exchanges as their own encoders alone would have made it. *)
Theorem encoder_life (p : PriceEncoderImpl) (cache : Cache) (events : list encoder_event) :
  encoder_ok p -> pe_exchangeId p ∈ etm_exchanges cache ->
  Forall (event_ok (pe_exchangeId p) (etm_exchanges cache)) events ->
  exists p' cache' others,
    foldM_go encoder_step (p, cache) events = Ok (p', cache') /\
    etm_updates cache (other_updates events) = Ok others /\
    pe_exchangeId p' = pe_exchangeId p /\ encoder_ok p' /\
    etm_exchanges cache' ≡ₚ etm_exchanges cache /\
    forall ex m, ex <> pe_exchangeId p -> etm_cell cache' (ex, m) = etm_cell others (ex, m).
Proof.
  intros Hok Hex Hev.
  enough (forall o, agree_off (pe_exchangeId p) cache o -> exists p' cache' others,
    foldM_go encoder_step (p, cache) events = Ok (p', cache') /\
    etm_updates o (other_updates events) = Ok others /\
    agree_off (pe_exchangeId p) cache' others /\ pe_exchangeId p' = pe_exchangeId p /\
    etm_exchanges cache' ≡ₚ etm_exchanges cache /\ (encoder_ok p -> encoder_ok p')) as Hall.
  { destruct (Hall cache) as (p' & c' & o & E & Eo & [_ Ha] & Hid & Hperm & Hok'); [by split|].
    exists p', c', o. by split_and!; auto. }
  clear Hok. revert p cache Hex Hev. induction events as [|ev events IH]; intros p cache Hex Hev o Ha.
  { exists p, cache, o. by split_and!. }
  apply Forall_cons in Hev as [Hev Hevs].
  destruct (encoder_step_ok p cache o ev Ha Hex Hev) as (p1 & c1 & o1 & E & Eo & Ha1 & Hid1 & Hp1 & Hk1).
  destruct (IH p1 c1) with (o := o1) as (p2 & c2 & o2 & E2 & Eo2 & Ha2 & Hid2 & Hp2 & Hk2).
  - by rewrite Hid1, Hp1.
  - eapply Forall_impl; [exact Hevs|]. intros [| |u]; simpl; [done..|]. by rewrite Hid1, Hp1.
  - by rewrite Hid1.
  - exists p2, c2, o2. cbn [foldM_go]. rewrite E. cbn [mbind go_bind].
    assert (other_updates (ev :: events) = other_updates [ev] ++ other_updates events) as -> by by destruct ev.
    unfold etm_updates in *. rewrite foldM_go_app, Eo. cbn [mbind go_bind].
    rewrite E2, Eo2. rewrite Hid1 in *. split_and!; [done|done|done|done|by rewrite Hp2|auto].
Qed.
End EncoderLife.

(** ** Concrete instances *)
Definition ex_qcfgs : gmap ExchangeId ExchangeQueryConfig :=
  {["Binance" := mkExchangeQueryConfig "Binance" 2500 3000 1;
    "Kraken" := mkExchangeQueryConfig "Kraken" 2000 3000 1]}.
Definition ex_all_details : gmap ExchangeId ExchangeQueryDetails :=
  {["Binance" := ex_details; "Kraken" := ex_details; "Gate" := ex_details]}.
Definition ex_params : list MarketParam :=
  [mkMarketParam 1 "BTC-USD" (-5) 1 1000 "{}" "00"].

(** The four goroutines, by their exchange and kind, in some order. *)
Definition ex_goroutines : list ((ExchangeId * bool) * bool) :=
  [("Kraken", false, false); ("Binance", true, true); ("Kraken", true, true);
   ("Binance", false, false)].

Definition ex_config_json (s : string) : go_error + ExchangeConfigJsonT :=
  inr (mkExchangeConfigJson [mkExchangeMarketConfigJson "Binance" "BTCUSDT" "" false]).
Notation ex_start := (start_daemon (R := list_ring) fst (fun _ => None) ex_config_json (Some ex_params) ex_qcfgs ex_all_details).
Definition is_started {A} (r : option (go A)) : bool := match r with Some (Ok _) => true | _ => false end.

Lemma ex_qcfgs_ids ex c : ex_qcfgs !! ex = Some c -> eqc_ExchangeId c = ex.
Proof.
  assert (map_Forall (fun ex c => eqc_ExchangeId c = ex) ex_qcfgs) as Hall
    by (apply (bool_decide_unpack _); vm_compute; exact I). exact (Hall ex c).
Qed.

Lemma start_daemon_correct_witness :
  exists s t, ex_start 1000 ex_goroutines = Some (Ok s) /\ mutableExchangeToConfigs (st_configs s) = exchangeConfigs t /\
    forall ex c, ex_qcfgs !! ex = Some c -> exists d, ex_all_details !! ex = Some d /\ exchange_started s t ex c d.
Proof.
  destruct (start_daemon_correct (R := list_ring) fst (fun _ => None) ex_config_json (Some ex_params) ex_qcfgs
    ex_all_details 1000 ex_goroutines) as (result & E & Hr).
  - reflexivity.
  - exact ex_qcfgs_ids.
  - apply (bool_decide_unpack _). vm_compute. exact I.
  - apply (bool_decide_unpack _). vm_compute. exact I.
  - assert (is_started (ex_start 1000 ex_goroutines) = true) as Hok by (vm_compute; exact eq_refl).
    rewrite E in Hok. destruct result as [s|err|p]; [|discriminate Hok|discriminate Hok].
    destruct Hr as (params & t & _ & _ & _ & _ & _ & _ & _ & _ & Hc & _ & Hall).
    exists s, t. split; [exact E|]. split; [exact Hc|exact Hall].
Defined.

(** The validation accepts an interval of zero. *)
Example zero_interval_accepted :
  let qcfgs := {["Kraken" := mkExchangeQueryConfig "Kraken" 0 3000 1]} in
  validateDaemonConfiguration (fun _ => None) ex_params qcfgs ex_all_details = Ok tt /\
  start_daemon (R := list_ring) fst (fun _ => None) ex_config_json (Some ex_params) qcfgs ex_all_details 1000
    [("Kraken", false, false); ("Kraken", true, true)] = Some (Panic non_positive_interval).
Proof. split; [reflexivity|vm_compute; reflexivity]. Qed.

Definition ex_events : list encoder_event :=
  [Response (105 * Second) (mkResponse (Some (mkMarketPriceTimestamp 0 6500000000 (104 * Second))) None);
   OtherEncoder ("Kraken", mkMarketPriceTimestamp 5 1000700 (106 * Second));
   ConfigUpdate ex_config [];
   Response (107 * Second) (mkResponse None (Some (ErrSentinel DeadlineExceeded)));
   Response (108 * Second) (mkResponse (Some (mkMarketPriceTimestamp 9 1 (108 * Second))) None)].

Lemma encoder_life_witness :
  exists p' cache' others,
    foldM_go (encoder_step (D := Scaled.t)) (ex_encoder, ex_cache) ex_events = Ok (p', cache') /\
    etm_updates ex_cache (other_updates ex_events) = Ok others /\
    forall ex m, ex <> "Binance" -> impl_cell cache' (ex, m) = impl_cell others (ex, m).
Proof.
  destruct (encoder_life (D := Scaled.t) ex_encoder ex_cache ex_events)
    as (p' & cache' & others & E & Eo & _ & _ & _ & Hc).
  - exact ex_encoder_ok.
  - apply (bool_decide_unpack _). vm_compute. exact I.
  - assert (pe_exchangeId ex_encoder = "Binance") as -> by reflexivity.
    assert ("Kraken" ∈ etm_exchanges ex_cache) by (apply (bool_decide_unpack _); vm_compute; exact I).
    repeat (apply Forall_cons; split); [..|apply Forall_nil; exact I]; cbn [event_ok].
    + right. eexists. split; [reflexivity|]. cbn. lia.
    + split; [discriminate|assumption].
    + exact I.
    + left. by eexists.
    + right. eexists. split; [reflexivity|]. cbn. lia.
  - exists p', cache', others. split; [exact E|]. split; [exact Eo|exact Hc].
Defined.
