(* ===== verification/Health.v ===== *)
(** * types/health_checkable.go, server/types/health_checker.go, health_monitor.go

    The health of a daemon service as it reports it, the checker that polls it
    and calls back after a streak of failures, and the monitor that owns the
    checkers. A poll runs in its timer's goroutine and takes the checker's lock
    twice: the checker is a step relation, in which a stop can come anywhere. *)
From S2P Require Import Prelude.
Local Open Scope Z_scope.

Definition MaxAcceptableUpdateDelay : Duration := 5 * Minute.
Definition HealthCheckPollFrequency : Duration := 5 * Second.

(** ** timeBoundedHealthCheckable *)
Record timestampWithError := mkTimestampWithError {
  timestamp : Time;
  twe_err : option go_error
}.
Definition twe_Update (u : timestampWithError) (t : Time) (err : option go_error)
    : timestampWithError := mkTimestampWithError t err.

Record timeBoundedHealthCheckable := mkCheckable {
  lastSuccessfulUpdate : Time;
  lastFailedUpdate : timestampWithError;
  serviceName : string
}.

Definition ReportSuccess (h : timeBoundedHealthCheckable) (now : Time) : timeBoundedHealthCheckable :=
  mkCheckable now (lastFailedUpdate h) (serviceName h).

Definition ReportFailure (h : timeBoundedHealthCheckable) (now : Time) (err : option go_error)
    : timeBoundedHealthCheckable :=
  mkCheckable (lastSuccessfulUpdate h) (twe_Update (lastFailedUpdate h) now err) (serviceName h).

Definition NewTimeBoundedHealthCheckable (name : string) (now : Time) : timeBoundedHealthCheckable :=
  ReportFailure (mkCheckable zeroTime (mkTimestampWithError zeroTime None) name) now
    (Some (ErrNew (name +:+ " is initializing"))).

Section HealthCheck.
(** [time.Time] printed by [%v]. *)
Variable show_time : Time -> string.

Definition wrap_failure (pre : string) (err : option go_error) (post : string) : go_error :=
  match err with
  | Some e => ErrWrap pre e post
  | None => ErrNew (pre +:+ "%!w(<nil>)" +:+ post)
  end.

(** The error returned, and whether the staleness is logged. *)
Definition HealthCheck (h : timeBoundedHealthCheckable) (now : Time) : option go_error * bool :=
  if time_IsZero (lastSuccessfulUpdate h) then
    (Some (wrap_failure ("no successful update has occurred; last failed update occurred at " +:+
             show_time (timestamp (lastFailedUpdate h)) +:+ " with error '")
             (twe_err (lastFailedUpdate h)) "'"), false)
  else if time_After (timestamp (lastFailedUpdate h)) (lastSuccessfulUpdate h) then
    (Some (wrap_failure ("last update failed at " +:+ show_time (timestamp (lastFailedUpdate h)) +:+
             " with error: '") (twe_err (lastFailedUpdate h))
             ("', most recent successful update occurred at " +:+
              show_time (lastSuccessfulUpdate h))), false)
  else (None, MaxAcceptableUpdateDelay <? time_Sub now (lastSuccessfulUpdate h)).

(** A service is what its reports made it. *)
Inductive health_event :=
  | Succeeded (now : Time)
  | Failed (now : Time) (err : go_error).
Definition event_time (e : health_event) : Time :=
  match e with Succeeded t => t | Failed t _ => t end.

Definition report (h : timeBoundedHealthCheckable) (e : health_event) : timeBoundedHealthCheckable :=
  match e with
  | Succeeded now => ReportSuccess h now
  | Failed now err => ReportFailure h now (Some err)
  end.

Definition reports (name : string) (start : Time) (es : list health_event)
    : timeBoundedHealthCheckable := foldl report (NewTimeBoundedHealthCheckable name start) es.

(** Times from a clock that started at [start]. *)
Definition in_order (start : Time) (es : list health_event) : Prop :=
  0 < start /\ Sorted Z.le (start :: (event_time <$> es)).

Lemma sorted_snoc (l : list Z) (x y : Z) :
  Sorted Z.le (x :: l ++ [y]) -> Sorted Z.le (x :: l) /\ Forall (fun z => z <= y) (x :: l).
Proof.
  intros Hs. apply Sorted_StronglySorted in Hs; [|intros ???; lia].
  change (x :: l ++ [y]) with ((x :: l) ++ [y]) in Hs.
  apply StronglySorted_app in Hs as (Hle & Hl & _). split.
  - by apply StronglySorted_Sorted.
  - apply Forall_forall. intros z Hz. apply Hle; [done|by left].
Qed.

(** The fields of a service, by its history. *)
Lemma reports_fields name start es :
  in_order start es ->
  let h := reports name start es in
  (lastSuccessfulUpdate h = 0 /\ Forall (fun e => exists t err, e = Failed t err) es \/
   0 < lastSuccessfulUpdate h /\ Succeeded (lastSuccessfulUpdate h) ∈ es /\
   forall t, Succeeded t ∈ es -> t <= lastSuccessfulUpdate h) /\
  (timestamp (lastFailedUpdate h) = start \/
   exists err, Failed (timestamp (lastFailedUpdate h)) err ∈ es) /\
  start <= timestamp (lastFailedUpdate h) /\
  forall t err, Failed t err ∈ es -> t <= timestamp (lastFailedUpdate h).
Proof.
  unfold reports. intros [Hpos Hs]. induction es as [|e es IH] using rev_ind; simpl.
  { split_and!; [left; split; [done|constructor]|by left|done|]. by intros t err ?%not_elem_of_nil. }
  rewrite fmap_app in Hs. apply sorted_snoc in Hs as [Hs Hle].
  apply Forall_cons in Hle as [Hst Hle]. destruct (IH Hs) as (Hsucc & Hf & Hsf & Hall).
  rewrite foldl_app. simpl.
  set (h := foldl report (NewTimeBoundedHealthCheckable name start) es) in *.
  rewrite Forall_fmap, Forall_forall in Hle.
  destruct e as [t|t err]; simpl in *.
  - split_and!.
    + right. split_and!; [lia|apply elem_of_app; right; by left|].
      intros t' [Hin|[= ->]%list_elem_of_singleton]%elem_of_app; [|done]. by apply (Hle (Succeeded t')).
    + destruct Hf as [Hf|[err Hf]]; [by left|right]. exists err. apply elem_of_app. by left.
    + done.
    + intros t' err [Hin|?%list_elem_of_singleton]%elem_of_app; [by eapply Hall|done].
  - split_and!.
    + destruct Hsucc as [[H0 Hnone]|(H0 & Hin & Hmax)]; [left|right].
      * split; [done|]. apply Forall_app. split; [done|]. repeat constructor. by do 2 eexists.
      * split_and!; [done|apply elem_of_app; by left|].
        intros t' [Hin'|?%list_elem_of_singleton]%elem_of_app; [by apply Hmax|done].
    + right. exists err. apply elem_of_app. right. by left.
    + done.
    + intros t' err' [Hin|[= -> ->]%list_elem_of_singleton]%elem_of_app; [|done].
      by apply (Hle (Failed t' err')).
Qed.

(** a service is healthy exactly when it has reported a success with no
    failure reported later; the time of the check does not matter. *)
Theorem HealthCheck_correct (name : string) (start : Time) (es : list health_event) (now : Time) :
  in_order start es ->
  (HealthCheck (reports name start es) now).1 = None <->
  exists t, Succeeded t ∈ es /\ forall t' err, Failed t' err ∈ es -> t' <= t.
Proof.
  intros Ho. destruct (reports_fields name start es Ho) as (Hs & Hf & Hst & Hall).
  destruct Ho as [Hpos Hsorted].
  set (h := reports name start es) in *. unfold HealthCheck, time_IsZero, time_After.
  assert (forall e, e ∈ es -> start <= event_time e) as Hge.
  { intros e He. apply Sorted_StronglySorted in Hsorted; [|intros ???; lia].
    inversion Hsorted as [|? ? _ Hf']; subst. rewrite Forall_fmap, Forall_forall in Hf'. by apply Hf'. }
  destruct Hs as [[-> Hnone]|(H0 & Hin & Hmax)]; simpl.
  - split; [done|]. intros (t & Hin & _). rewrite Forall_forall in Hnone.
    destruct (Hnone _ Hin) as (? & ? & [=]).
  - destruct (Z.eqb_spec (lastSuccessfulUpdate h) 0); [lia|].
    destruct (Z.ltb_spec (lastSuccessfulUpdate h) (timestamp (lastFailedUpdate h))) as [Hlt|Hle]; simpl.
    + split; [done|]. intros (t & Ht & Hno). specialize (Hmax t Ht).
      destruct Hf as [Hf|[err Hf]].
      * apply Hge in Hin. simpl in Hin. lia.
      * specialize (Hno _ _ Hf). lia.
    + split; [|done]. intros _. exists (lastSuccessfulUpdate h). split; [done|].
      intros t' err Hfail. specialize (Hall _ _ Hfail). lia.
Qed.

(** staleness is only logged. A service whose last report is a success
    stays healthy for ever, however long ago that was. *)
Theorem stale_service_is_healthy (name : string) (start : Time) (es : list health_event) (t now : Time) :
  in_order start (es ++ [Succeeded t]) -> MaxAcceptableUpdateDelay < now - t ->
  HealthCheck (reports name start (es ++ [Succeeded t])) now = (None, true).
Proof.
  intros Ho Hlate. destruct (reports_fields name start _ Ho) as (_ & Hf & _).
  destruct Ho as [Hpos Hs]. rewrite fmap_app in Hs. apply sorted_snoc in Hs as [_ Hle].
  apply Forall_cons in Hle as [Hst Hle]. simpl in Hle. rewrite Forall_fmap, Forall_forall in Hle.
  revert Hf. unfold reports. rewrite foldl_app. simpl.
  generalize (foldl report (NewTimeBoundedHealthCheckable name start) es). intros h Hf.
  unfold HealthCheck, time_IsZero, time_After. simpl in *.
  destruct (Z.eqb_spec t 0); [lia|].
  destruct (Z.ltb_spec t (timestamp (lastFailedUpdate h))) as [Hlt|_].
  - destruct Hf as [Hf|[err [Hin|?%list_elem_of_singleton]%elem_of_app]]; [lia| |done].
    specialize (Hle _ Hin). simpl in Hle. lia.
  - f_equal. unfold time_Sub. apply Z.ltb_lt. unfold MaxAcceptableUpdateDelay, Minute, Second in *.
    change (max_int int64) with 9223372036854775807. lia.
Qed.
End HealthCheck.

(** ** errorStreak and healthCheckerMutableState *)
Record errorStreak := mkErrorStreak {
  startOfStreak : Time;
  mostRecentError : option go_error
}.

Definition UpdateLastError (u : errorStreak) (now : Time) (err : option go_error) : errorStreak :=
  mkErrorStreak (if time_IsZero (startOfStreak u) then now else startOfStreak u) err.
Definition errorStreak_Reset : errorStreak := mkErrorStreak zeroTime None.
Definition IsUnset (u : errorStreak) : bool :=
  time_IsZero (startOfStreak u) && bool_decide (mostRecentError u = None).

(** A [time.Timer]: nil, armed with a delay, or expired or stopped. *)
Inductive timer_state :=
  | TimerNil
  | TimerArmed (delay : Duration)
  | TimerIdle.
#[export] Instance timer_state_eq_dec : EqDecision timer_state.
Proof. solve_decision. Defined.

Record healthCheckerMutableState := mkCheckerState {
  lastSuccessTimestamp : Time;
  mostRecentErrorStreak : errorStreak;
  timer : timer_state;
  stopped : bool
}.

Definition checker_ReportSuccess (u : healthCheckerMutableState) (now : Time)
    : healthCheckerMutableState :=
  mkCheckerState now errorStreak_Reset (timer u) (stopped u).

(** Returns the duration of the streak. *)
Definition checker_ReportFailure (u : healthCheckerMutableState) (now : Time) (err : go_error)
    : healthCheckerMutableState * Duration :=
  let streak := UpdateLastError (mostRecentErrorStreak u) now (Some err) in
  (mkCheckerState (lastSuccessTimestamp u) streak (timer u) (stopped u),
   time_Sub now (startOfStreak streak)).

Definition with_timer (u : healthCheckerMutableState) (t : timer_state) : healthCheckerMutableState :=
  mkCheckerState (lastSuccessTimestamp u) (mostRecentErrorStreak u) t (stopped u).

Definition SchedulePoll (u : healthCheckerMutableState) (nextPollDelay : Duration)
    : go healthCheckerMutableState :=
  if stopped u then Ok u
  else match timer u with
  | TimerNil => Panic NilDereference
  | _ => Ok (with_timer u (TimerArmed nextPollDelay))
  end.

Definition InitializePolling (u : healthCheckerMutableState) (firstPollDelay : Duration)
    : healthCheckerMutableState :=
  match timer u with
  | TimerNil => with_timer u (TimerArmed firstPollDelay)
  | _ => u
  end.

Definition checker_Stop (u : healthCheckerMutableState) : go healthCheckerMutableState :=
  if stopped u then Ok u
  else match timer u with
  | TimerNil => Panic NilDereference
  | _ => Ok (mkCheckerState (lastSuccessTimestamp u) (mostRecentErrorStreak u) TimerIdle true)
  end.

(** ** healthChecker *)
Record healthChecker := mkHealthChecker {
  mutableState : healthCheckerMutableState;
  pollFrequency : Duration;
  maxUnhealthyDuration : Duration
}.

Definition with_state (hc : healthChecker) (u : healthCheckerMutableState) : healthChecker :=
  mkHealthChecker u (pollFrequency hc) (maxUnhealthyDuration hc).

Definition StartNewHealthChecker (pollFrequency maxUnhealthyDuration startupGracePeriod : Duration)
    : healthChecker :=
  mkHealthChecker
    (InitializePolling (mkCheckerState zeroTime errorStreak_Reset TimerNil false) startupGracePeriod)
    pollFrequency maxUnhealthyDuration.

(** The first half of [Poll]: the outcome of the health check is recorded; the
    error the callback is called with, if it is. *)
Definition poll_record (hc : healthChecker) (now : Time) (err : option go_error)
    : healthChecker * option go_error :=
  match err with
  | None => (with_state hc (checker_ReportSuccess (mutableState hc) now), None)
  | Some err =>
      let '(u, streakDuration) := checker_ReportFailure (mutableState hc) now err in
      (with_state hc u, if maxUnhealthyDuration hc <=? streakDuration then Some err else None)
  end.

Definition poll_schedule (hc : healthChecker) : go healthChecker :=
  u ← SchedulePoll (mutableState hc) (pollFrequency hc); Ok (with_state hc u).

(** The callback may panic; the next poll is then not scheduled. *)
Definition Poll (callback : go_error -> go unit) (hc : healthChecker) (now : Time)
    (err : option go_error) : go healthChecker :=
  let '(hc', called) := poll_record hc now err in
  _ ← match called with Some err => callback err | None => Ok tt end;
  poll_schedule hc'.

(** The callbacks [RegisterService] installs. *)
Definition PanicServiceNotResponding (name : string) (err : go_error) : go unit :=
  Panic (PanicMsg (name +:+ " unhealthy: " +:+ error_text err)).
Definition LogErrorServiceNotResponding (name : string) (err : go_error) : go unit := Ok tt.

(** ** The streak

    The polls so far, with their times. *)
Definition poll_log := list (Time * option go_error).

Definition run_polls (hc : healthChecker) (l : poll_log) : healthChecker :=
  foldl (fun hc p => (poll_record hc p.1 p.2).1) hc l.

Definition failing (p : Time * option go_error) : Prop := is_Some p.2.
#[export] Instance failing_dec p : Decision (failing p).
Proof. unfold failing. apply _. Defined.

(** The polls since the last success. *)
Definition current_streak (l : poll_log) : poll_log :=
  foldl (fun s p => match p.2 with Some _ => s ++ [p] | None => [] end) [] l.

Lemma current_streak_suffix l : exists l1, l = l1 ++ current_streak l /\ Forall failing (current_streak l) /\
  forall k1 k2, l = k1 ++ k2 -> Forall failing k2 -> exists k, current_streak l = k ++ k2.
Proof.
  unfold current_streak. induction l as [|[t [e|]] l IH] using rev_ind.
  - exists []. split_and!; [done|constructor|]. intros k1 k2 E _. symmetry in E.
    apply app_eq_nil in E as [-> ->]. by exists [].
  - rewrite foldl_app. simpl. destruct IH as (l1 & E & Hf & Hmax). exists l1. split_and!.
    + by rewrite app_assoc, <- E.
    + apply Forall_app. split; [done|]. constructor; [by eexists|constructor].
    + intros k1 k2 E' Hk. destruct k2 as [|x k2 _] using rev_ind.
      { eexists. by rewrite app_nil_r. }
      rewrite app_assoc in E'. apply app_inj_tail in E' as [E' <-].
      apply Forall_app in Hk as [Hk _]. destruct (Hmax _ _ E' Hk) as [k ->].
      exists k. by rewrite app_assoc.
  - rewrite foldl_app. simpl. exists (l ++ [(t, None)]). split_and!; [by rewrite app_nil_r|constructor|].
    intros k1 k2 E Hk. destruct k2 as [|x k2 _] using rev_ind; [by exists []|].
    rewrite app_assoc in E. apply app_inj_tail in E as [_ <-].
    apply Forall_app in Hk as [_ Hk]. apply Forall_singleton in Hk as [? Hk]. done.
Qed.

Lemma run_polls_streak hc l :
  startOfStreak (mostRecentErrorStreak (mutableState hc)) = 0 -> Forall (fun p => 0 < p.1) l ->
  let hc' := run_polls hc l in
  startOfStreak (mostRecentErrorStreak (mutableState hc')) =
    match current_streak l with [] => 0 | p :: _ => p.1 end /\
  pollFrequency hc' = pollFrequency hc /\ maxUnhealthyDuration hc' = maxUnhealthyDuration hc.
Proof.
  intros H0. unfold run_polls, current_streak. induction l as [|[t err] l IH] using rev_ind; [done|].
  intros [Hpos Ht]%Forall_app. apply Forall_singleton in Ht. simpl in Ht.
  destruct (IH Hpos) as (Hs & Hf & Hm). rewrite !foldl_app. simpl.
  set (hc' := foldl _ hc l) in *. destruct err as [e|]; simpl.
  - split_and!; [|done..]. unfold time_IsZero. rewrite Hs.
    destruct (current_streak_suffix l) as (l1 & E & _). unfold current_streak in *.
    destruct (foldl _ [] l) as [|p s] eqn:Es; simpl; [done|].
    destruct (Z.eqb_spec p.1 0); [|done].
    rewrite E in Hpos. apply Forall_app in Hpos as [_ Hp]. inversion Hp; subst. lia.
  - by split_and!.
Qed.

(** When the streak that a failing poll at [now] belongs to started. *)
Definition streak_start (l : poll_log) (now : Time) : Time :=
  match current_streak l with [] => now | p :: _ => p.1 end.

Lemma streak_start_window l now e :
  exists l1 e0 k, l ++ [(now, Some e)] = l1 ++ (streak_start l now, e0) :: k /\
    Forall failing ((streak_start l now, e0) :: k).
Proof.
  destruct (current_streak_suffix l) as (l1 & El & Hf & _). exists l1. unfold streak_start.
  destruct (current_streak l) as [|[t0 e0] k].
  - rewrite app_nil_r in El. subst l1. exists (Some e), []. split; [done|]. apply Forall_singleton. by eexists.
  - exists e0, (k ++ [(now, Some e)]). split; [by rewrite El at 1; rewrite <- app_assoc|].
    change (Forall failing (((t0, e0) :: k) ++ [(now, Some e)])). apply Forall_app. split; [done|].
    apply Forall_singleton. by eexists.
Qed.

Lemma sorted_window (l k1 k2 : poll_log) p now x :
  Sorted Z.le (l.*1 ++ [now]) -> l = k1 ++ p :: k2 -> x ∈ p :: k2 -> p.1 <= x.1 <= now.
Proof.
  intros Hs -> Hx. apply Sorted_StronglySorted in Hs; [|intros ???; lia].
  apply StronglySorted_app in Hs as (Hle & Hs & _). split.
  - rewrite fmap_app in Hs. apply StronglySorted_app in Hs as (_ & _ & Hs). simpl in Hs.
    apply elem_of_cons in Hx as [->|Hx]; [done|].
    inversion Hs as [|? ? _ Hall]; subst. rewrite Forall_fmap, Forall_forall in Hall. by apply Hall.
  - apply Hle; [|by left]. apply list_elem_of_fmap_2, elem_of_app. by right.
Qed.

Lemma streak_start_le l now : Sorted Z.le (l.*1 ++ [now]) -> streak_start l now <= now.
Proof.
  intros Hs. destruct (current_streak_suffix l) as (l1 & El & _). unfold streak_start.
  destruct (current_streak l) as [|p k]; [lia|].
  apply (sorted_window l l1 k p now p Hs El). by left.
Qed.

Lemma streak_start_earliest l now e k1 t0 e0 k2 :
  Sorted Z.le (l.*1 ++ [now]) -> l ++ [(now, e)] = k1 ++ (t0, e0) :: k2 ->
  Forall failing ((t0, e0) :: k2) -> streak_start l now <= t0.
Proof.
  intros Hs E Hk. destruct k2 as [|x k2 _] using rev_ind.
  { apply app_inj_tail in E as [_ [= <- _]]. by apply streak_start_le. }
  change ((t0, e0) :: k2 ++ [x]) with (((t0, e0) :: k2) ++ [x]) in *. rewrite app_assoc in E.
  apply app_inj_tail in E as [E _]. apply Forall_app in Hk as [Hk _].
  destruct (current_streak_suffix l) as (l1 & El & _ & Hlong).
  destruct (Hlong _ _ E Hk) as [k Ec]. unfold streak_start. rewrite Ec in *.
  destruct k as [|p k]; simpl in *; [done|].
  apply (sorted_window l l1 (k ++ (t0, e0) :: k2) p now (t0, e0) Hs El).
  right. apply elem_of_app. right. by left.
Qed.

Lemma time_Sub_ge max t u :
  in_range int64 max -> u <= t -> max <= time_Sub t u <-> max <= t - u.
Proof.
  unfold in_range, time_Sub. change (min_int int64) with (-9223372036854775808).
  change (max_int int64) with 9223372036854775807. lia.
Qed.

(** the callback. At a poll of a checker whose clock has gone forward, the
    callback is called, with the error of this poll, exactly when the service
    was found unhealthy now and at every poll since some poll at least
    [maxUnhealthyDuration] ago. *)
Theorem Poll_callback (frequency max grace : Duration) (l : poll_log) (now : Time)
    (err : option go_error) :
  Sorted Z.le (l.*1 ++ [now]) -> Forall (fun p => 0 < p.1) l -> in_range int64 max ->
  let hc := run_polls (StartNewHealthChecker frequency max grace) l in
  ((exists e, (poll_record hc now err).2 = Some e) <->
   exists l1 t0 e0 l2, l ++ [(now, err)] = l1 ++ (t0, e0) :: l2 /\
     Forall failing ((t0, e0) :: l2) /\ max <= now - t0) /\
  (forall e, (poll_record hc now err).2 = Some e -> err = Some e).
Proof.
  intros Hs Hpos Hmax hc.
  destruct (run_polls_streak (StartNewHealthChecker frequency max grace) l) as (Hstart & _ & Hm); [done..|].
  fold hc in Hstart, Hm. simpl in Hm. destruct err as [e|]; simpl.
  2:{ split; [|done]. split; [by intros []|]. intros (k1 & t0 & e0 & k2 & Ek & Hk & _).
      assert ((now, None) ∈ (t0, e0) :: k2) as Hin.
      { apply last_Some_elem_of. rewrite <- (last_snoc (now, None) l), Ek, last_app.
        by destruct (last ((t0, e0) :: k2)) eqn:E2; [|apply last_None in E2]. }
      rewrite Forall_forall in Hk. by destruct (Hk _ Hin). }
  rewrite Hm. assert ((if time_IsZero (startOfStreak (mostRecentErrorStreak (mutableState hc)))
    then now else startOfStreak (mostRecentErrorStreak (mutableState hc))) = streak_start l now) as ->.
  { rewrite Hstart. unfold streak_start, time_IsZero.
    destruct (current_streak_suffix l) as (l1 & El & _). destruct (current_streak l) as [|p k]; [done|].
    rewrite El in Hpos. apply Forall_app in Hpos as [_ [Hp _]%Forall_cons].
    destruct (Z.eqb_spec p.1 0); [lia|done]. }
  assert (max <= time_Sub now (streak_start l now) <-> max <= now - streak_start l now) as Hsub
    by (pose proof (streak_start_le l now Hs); by apply time_Sub_ge).
  split; [|by intros e'; destruct (_ <=? _)].
  destruct (Z.leb_spec max (time_Sub now (streak_start l now))) as [Hd|Hd].
  - split; [|by eexists]. intros _. destruct (streak_start_window l now e) as (l1 & e0 & k & E & Hf).
    exists l1, (streak_start l now), e0, k. split_and!; [done|done|by apply Hsub].
  - split; [by intros []|]. intros (k1 & t0 & e1 & k2 & E & Hk & Hd2).
    pose proof (streak_start_earliest _ _ _ _ _ _ _ Hs E Hk). lia.
Qed.

(** ** healthMonitor

    A registered checker with the progress of its poll. *)
Inductive poll_pc :=
  | Waiting
  | Polling                                (** the timer fired *)
  | Recorded (called : option go_error).   (** before the callback and the schedule *)

Record running := mkRunning {
  rc_checker : healthChecker;
  rc_pc : poll_pc
}.

Record HealthMonitor := mkHealthMonitor {
  serviceToHealthChecker : gmap string running;
  mon_stopped : bool;
  mon_disabled : bool;
  startupGracePeriod : Duration;
  pollingFrequency : Duration;
  enablePanics : bool
}.

Definition NewHealthMonitor (startupGracePeriod pollingFrequency : Duration) (enablePanics : bool)
    : HealthMonitor :=
  mkHealthMonitor ∅ false false startupGracePeriod pollingFrequency enablePanics.

Definition with_checkers (hm : HealthMonitor) (m : gmap string running) (stopped disabled : bool)
    : HealthMonitor :=
  mkHealthMonitor m stopped disabled (startupGracePeriod hm) (pollingFrequency hm) (enablePanics hm).

Definition DisableForTesting (hm : HealthMonitor) : HealthMonitor :=
  with_checkers hm (serviceToHealthChecker hm) (mon_stopped hm) true.

(** The error returned, and whether the service itself is stopped (when it is
    stoppable) after the lock is released. *)
Definition RegisterHealthChecker (hm : HealthMonitor) (serviceName : string)
    (lazyHealthCheckerCreator : healthChecker) : HealthMonitor * option go_error * bool :=
  if mon_disabled hm then (hm, None, false)
  else if mon_stopped hm then (hm, None, true)
  else match serviceToHealthChecker hm !! serviceName with
  | Some _ => (hm, Some (ErrNew ("service " +:+ serviceName +:+ " already registered")), false)
  | None =>
      (with_checkers hm
         (<[serviceName := mkRunning lazyHealthCheckerCreator Waiting]> (serviceToHealthChecker hm))
         (mon_stopped hm) (mon_disabled hm), None, false)
  end.

Section Monitor.
Context `{RangeOrder}.
Variable show_duration : Duration -> string.

Definition RegisterServiceWithCallback (hm : HealthMonitor) (serviceName : string)
    (maxUnhealthyDuration : Duration) : HealthMonitor * option go_error * bool :=
  if maxUnhealthyDuration <=? 0 then
    (hm, Some (ErrNew ("health check registration failure for service " +:+ serviceName +:+
       ": maximum unhealthy duration " +:+ show_duration maxUnhealthyDuration +:+
       " must be positive")), false)
  else RegisterHealthChecker hm serviceName
         (StartNewHealthChecker (pollingFrequency hm) maxUnhealthyDuration (startupGracePeriod hm)).

(** [RegisterService] chooses the callback of the service. *)
Definition service_callback (hm : HealthMonitor) (serviceName : string) : go_error -> go unit :=
  if enablePanics hm then PanicServiceNotResponding serviceName
  else LogErrorServiceNotResponding serviceName.

Definition stop_checker (r : running) : go running :=
  u ← checker_Stop (mutableState (rc_checker r));
  Ok (mkRunning (with_state (rc_checker r) u) (rc_pc r)).

Definition monitor_Stop (hm : HealthMonitor) : go HealthMonitor :=
  if mon_stopped hm then Ok hm
  else
    m ← foldM_go (fun m '(name, r) => r' ← stop_checker r; Ok (<[name := r']> m))
          (serviceToHealthChecker hm) (range_of (serviceToHealthChecker hm));
    Ok (with_checkers hm m true (mon_disabled hm)).

(** ** The monitor and its polls, interleaved *)
Inductive checker_step (callback : go_error -> go unit) : running -> running -> Prop :=
  | step_fire u f max d :
      timer u = TimerArmed d ->
      checker_step callback (mkRunning (mkHealthChecker u f max) Waiting)
        (mkRunning (mkHealthChecker (with_timer u TimerIdle) f max) Polling)
  | step_record hc now err hc' called :
      poll_record hc now err = (hc', called) ->
      checker_step callback (mkRunning hc Polling) (mkRunning hc' (Recorded called))
  | step_schedule hc called hc' :
      match called with Some err => callback err | None => Ok tt end = Ok tt ->
      poll_schedule hc = Ok hc' ->
      checker_step callback (mkRunning hc (Recorded called)) (mkRunning hc' Waiting).

Inductive monitor_step : HealthMonitor -> HealthMonitor -> Prop :=
  | step_register hm name max hm' err stop :
      RegisterServiceWithCallback hm name max = (hm', err, stop) -> monitor_step hm hm'
  | step_stop hm hm' : monitor_Stop hm = Ok hm' -> monitor_step hm hm'
  | step_disable hm : monitor_step hm (DisableForTesting hm)
  | step_poll hm name r r' :
      serviceToHealthChecker hm !! name = Some r ->
      checker_step (service_callback hm name) r r' ->
      monitor_step hm (with_checkers hm (<[name := r']> (serviceToHealthChecker hm))
                         (mon_stopped hm) (mon_disabled hm)).

Inductive reachable (g f : Duration) (p : bool) : HealthMonitor -> Prop :=
  | reachable_new : reachable g f p (NewHealthMonitor g f p)
  | reachable_step hm hm' : reachable g f p hm -> monitor_step hm hm' -> reachable g f p hm'.

(** A checker that runs has a poll pending or in progress, never both; a
    stopped one never polls again. *)
Definition checker_inv (r : running) : Prop :=
  let u := mutableState (rc_checker r) in
  timer u <> TimerNil /\
  (stopped u = true -> timer u = TimerIdle) /\
  match rc_pc r with
  | Waiting => stopped u = false -> exists d, timer u = TimerArmed d
  | _ => timer u = TimerIdle
  end.

Definition monitor_inv (hm : HealthMonitor) : Prop :=
  map_Forall (fun _ r => checker_inv r /\
    (mon_stopped hm = true -> stopped (mutableState (rc_checker r)) = true))
    (serviceToHealthChecker hm).

Lemma poll_record_keeps hc now err hc' called :
  poll_record hc now err = (hc', called) ->
  timer (mutableState hc') = timer (mutableState hc) /\
  stopped (mutableState hc') = stopped (mutableState hc).
Proof. unfold poll_record. destruct err; simpl; by intros [= <- _]. Qed.

Lemma checker_step_inv cb r r' :
  checker_step cb r r' -> checker_inv r -> checker_inv r' /\
    stopped (mutableState (rc_checker r')) = stopped (mutableState (rc_checker r)).
Proof.
  unfold checker_inv. destruct 1 as [u f max d Ht|hc now err hc' called E|hc called hc' Hcb E]; simpl.
  - intros (Hn & Hs & Hw). rewrite Ht in Hs. split; [|done]. by split_and!.
  - destruct (poll_record_keeps _ _ _ _ _ E) as [-> ->]. tauto.
  - intros (Hn & Hs & Hi). unfold poll_schedule, SchedulePoll in E. rewrite Hi in E.
    destruct (stopped (mutableState hc)) eqn:Est; simpl in E; injection E as <-; simpl; rewrite ?Est.
    + split; [|done]. split_and!; [by rewrite Hi|by rewrite Hi|done].
    + split; [|done]. split_and!; [done|done|]. intros _. by eexists.
Qed.

Lemma stop_checker_inv r :
  checker_inv r -> exists r', stop_checker r = Ok r' /\ checker_inv r' /\
    stopped (mutableState (rc_checker r')) = true.
Proof.
  unfold checker_inv, stop_checker, checker_Stop. destruct r as [[u f max] pc]. simpl.
  intros (Hn & Hs & Hw). destruct (stopped u) eqn:Est.
  - eexists; split; [done|]. simpl. by rewrite Est.
  - destruct (timer u); [done|..]; simpl; (eexists; split; [done|]); simpl; split; try done;
      (split_and!; [done|done|]); by destruct pc.
Qed.

Lemma monitor_Stop_inv hm :
  monitor_inv hm -> exists hm', monitor_Stop hm = Ok hm' /\ monitor_inv hm' /\ mon_stopped hm' = true.
Proof.
  unfold monitor_Stop, monitor_inv. intros Hinv. destruct (mon_stopped hm) eqn:Es; [by exists hm; rewrite Es|].
  enough (forall (l : list (string * running)) (m0 : gmap string running), (forall k r, (k, r) ∈ l -> checker_inv r) -> NoDup l.*1 ->
    exists m, foldM_go (fun m '(name, r) => r' ← stop_checker r; Ok (<[name := r']> m)) m0 l = Ok m /\
      forall k r, m !! k = Some r ->
        if bool_decide (k ∈ l.*1) then checker_inv r /\ stopped (mutableState (rc_checker r)) = true
        else m0 !! k = Some r) as Hall.
  { destruct (Hall (range_of (serviceToHealthChecker hm)) (serviceToHealthChecker hm)) as (m & -> & Hm).
    - intros k r Hin%elem_of_range_of. by apply (Hinv k r).
    - apply range_of_NoDup_keys.
    - eexists; split; [done|]. split; [|done]. simpl. intros k r Hk. specialize (Hm k r Hk).
      case_bool_decide as Hin; [tauto|]. destruct Hin. apply list_elem_of_fmap. exists (k, r).
      by rewrite elem_of_range_of. }
  induction l as [|[k r] l IH]; intros m0 Hok Hnd.
  { exists m0. split; [done|]. intros k r Hk. rewrite bool_decide_false; [done|apply not_elem_of_nil]. }
  apply NoDup_cons in Hnd as [Hn Hnd].
  destruct (stop_checker_inv r) as (r' & Hst' & Hr' & Hst); [apply (Hok k); by left|].
  cbn [foldM_go]. rewrite Hst'. cbn [mbind go_bind].
  destruct (IH (<[k := r']> m0)) as (m & -> & Hm); [intros; apply (Hok k0); by right|done|].
  exists m. split; [done|]. intros k' r'' Hk'. specialize (Hm k' r'' Hk').
  destruct (decide (k' = k)) as [->|Hne].
  - rewrite bool_decide_false in Hm by done. rewrite lookup_insert_eq in Hm.
    rewrite bool_decide_true by (rewrite fmap_cons; by left). by simplify_eq.
  - rewrite lookup_insert_ne in Hm by done.
    rewrite fmap_cons. simpl. erewrite bool_decide_ext; [exact Hm|]. rewrite elem_of_cons. tauto.
Qed.

Lemma monitor_step_inv hm hm' : monitor_step hm hm' -> monitor_inv hm -> monitor_inv hm'.
Proof.
  destruct 1 as [hm name max hm' err stop E|hm hm' E|hm|hm name r r' Hr Hs]; intros Hinv.
  - unfold RegisterServiceWithCallback, RegisterHealthChecker in E.
    destruct (_ <=? _); [by simplify_eq|]. destruct (mon_disabled hm); [by simplify_eq|].
    destruct (mon_stopped hm) eqn:Est; [by simplify_eq|].
    destruct (_ !! name); [by simplify_eq|]. injection E as <- _ _.
    unfold monitor_inv in *. simpl. rewrite Est in *. apply map_Forall_insert_2; [|done].
    split; [|done]. unfold checker_inv. simpl. split_and!; [done|done|]. intros _. by eexists.
  - destruct (monitor_Stop_inv hm Hinv) as (hm2 & E2 & Hi & _). rewrite E in E2. by injection E2 as ->.
  - done.
  - unfold monitor_inv in *. simpl. apply map_Forall_insert_2; [|done].
    destruct (Hinv _ _ Hr) as [Hri Hrs]. destruct (checker_step_inv _ _ _ Hs Hri) as [Hi Est].
    split; [done|]. by rewrite Est.
Qed.

(** C10: the monitor. In every state that registrations, polls, stops and
    disabling reach in any interleaving: stopping never panics; a checker that
    is not stopped has exactly one poll, pending or in progress; after the
    monitor is stopped all its checkers are, and none has a poll pending. *)
Theorem monitor_safe (grace frequency : Duration) (panics : bool) (hm : HealthMonitor) :
  reachable grace frequency panics hm ->
  (exists hm', monitor_Stop hm = Ok hm' /\ mon_stopped hm' = true) /\
  forall name r, serviceToHealthChecker hm !! name = Some r ->
    let u := mutableState (rc_checker r) in
    (mon_stopped hm = true -> stopped u = true) /\
    (stopped u = true -> timer u = TimerIdle) /\
    (stopped u = false -> ((exists d, timer u = TimerArmed d) /\ rc_pc r = Waiting) \/
                          (timer u = TimerIdle /\ rc_pc r <> Waiting)).
Proof.
  intros Hr. assert (monitor_inv hm) as Hinv.
  { induction Hr as [|hm hm' _ IH Hs]; [apply map_Forall_empty|by eapply monitor_step_inv]. }
  split.
  - destruct (monitor_Stop_inv hm Hinv) as (hm' & E & _ & Hs). by exists hm'.
  - intros name r Hn. destruct (Hinv _ _ Hn) as [(Ht & Hs & Hp) Hst]. split_and!; [done|done|].
    intros Hf. simpl in Hp. destruct (rc_pc r); [left|right..]; try done. split; [|done]. by apply Hp.
Qed.

(** registration. It is an error exactly when the duration is not positive
    or, on a running monitor, the service is registered already; after a stop
    it succeeds without registering and only the service is stopped. *)
Theorem RegisterService_correct (hm : HealthMonitor) (name : string) (max : Duration) :
  let '(hm', err, stopService) := RegisterServiceWithCallback hm name max in
  (is_Some err <-> max <= 0 \/ (mon_disabled hm = false /\ mon_stopped hm = false /\
                               is_Some (serviceToHealthChecker hm !! name))) /\
  (stopService = true <-> 0 < max /\ mon_disabled hm = false /\ mon_stopped hm = true) /\
  (is_Some err \/ mon_disabled hm = true \/ mon_stopped hm = true -> hm' = hm) /\
  (err = None -> mon_disabled hm = false -> mon_stopped hm = false ->
   exists r, serviceToHealthChecker hm' = <[name := r]> (serviceToHealthChecker hm) /\
     serviceToHealthChecker hm !! name = None /\
     rc_checker r = StartNewHealthChecker (pollingFrequency hm) max (startupGracePeriod hm)).
Proof.
  unfold RegisterServiceWithCallback, RegisterHealthChecker.
  destruct (Z.leb_spec max 0).
  { split_and!; [split; [by left|by eexists]|split; [done|lia]|done|done]. }
  destruct (mon_disabled hm) eqn:Ed.
  { split_and!; [|split; [done|by intros (_ & ? & _)]|done|done].
    split; [by intros [? [=]]|]. intros [?|(? & _)]; [lia|done]. }
  destruct (mon_stopped hm) eqn:Es.
  { split_and!; [|by split|done|done].
    split; [by intros [? [=]]|]. intros [?|(_ & ? & _)]; [lia|done]. }
  destruct (serviceToHealthChecker hm !! name) eqn:En; split_and!.
  - split; [intros _; right; split_and!; [done..|by eexists]|by eexists].
  - split; [done|by intros (_ & _ & ?)].
  - done.
  - done.
  - split; [by intros [? [=]]|]. intros [?|(_ & _ & [? [=]])]; lia.
  - split; [done|by intros (_ & _ & ?)].
  - by intros [[? [=]]|[|]].
  - intros _ _ _. eexists. by split_and!.
Qed.
End Monitor.

(** ** Concrete services *)
Definition ex_reports : list health_event :=
  [Succeeded 10; Failed 20 (ErrNew "timeout"); Succeeded 20; Succeeded 30].
Definition ex_show (_ : Time) : string := "t".

Lemma ex_in_order : in_order 5 ex_reports.
Proof. split; [lia|]. repeat constructor; simpl; lia. Qed.

Lemma HealthCheck_correct_witness :
  (HealthCheck ex_show (reports "feed" 5 ex_reports) 40).1 = None /\
  exists t, Succeeded t ∈ ex_reports /\ forall t' err, Failed t' err ∈ ex_reports -> t' <= t.
Proof.
  split; [reflexivity|].
  apply (HealthCheck_correct ex_show "feed" 5 ex_reports 40 ex_in_order). reflexivity.
Defined.

Lemma stale_service_is_healthy_witness :
  HealthCheck ex_show (reports "feed" 5 (ex_reports ++ [Succeeded 40])) (40 + 24 * Hour) = (None, true).
Proof.
  apply (stale_service_is_healthy ex_show "feed" 5 ex_reports 40 (40 + 24 * Hour)); [|reflexivity].
  split; [lia|]. repeat constructor; simpl; lia.
Defined.

Definition ex_polls : poll_log :=
  [(100, None); (200, Some (ErrNew "a")); (300, Some (ErrNew "b")); (400, Some (ErrNew "c"))].

Lemma Poll_callback_witness :
  exists l1 t0 e0 l2, ex_polls ++ [(500, Some (ErrNew "d"))] = l1 ++ (t0, e0) :: l2 /\
    Forall failing ((t0, e0) :: l2) /\ 300 <= 500 - t0.
Proof.
  apply (Poll_callback 100 300 50 ex_polls 500 (Some (ErrNew "d"))).
  - repeat constructor; simpl; lia.
  - repeat constructor; simpl; lia.
  - split; vm_compute; discriminate.
  - exists (ErrNew "d"). reflexivity.
Defined.

Definition ex_monitor : HealthMonitor :=
  (RegisterServiceWithCallback ex_show (NewHealthMonitor (60 * Second) HealthCheckPollFrequency true)
     "feed" (5 * Minute)).1.1.

Lemma monitor_safe_witness :
  exists hm', monitor_Stop ex_monitor = Ok hm' /\ mon_stopped hm' = true.
Proof.
  apply (monitor_safe ex_show (60 * Second) HealthCheckPollFrequency true ex_monitor).
  eapply reachable_step; [apply reachable_new|]. 
  apply (step_register ex_show _ "feed" (5 * Minute) _ None false). reflexivity.
Defined.
