(* ===== verification/Endpoints.v ===== *)
(** * reporter/client: RPC and gRPC endpoints with fallback

    rpc_endpoint_manager.go, grpc_endpoint_manager.go, the fallback loops of
    client.go and tx_handler.go, the restoration of the primary endpoint and the
    broadcast of a transaction to all endpoints. Creating a client, calling it
    and closing it are third-party code: parameters over an arbitrary world. *)
From S2P Require Import Prelude Text.

(** ** Which errors are worth another endpoint *)

Definition rpc_final_texts : list string :=
  ["not found"; "error code:"; "insufficient funds"; "account sequence mismatch"].

Definition rpc_retry_texts : list string :=
  ["connection refused"; "connection reset"; "connection closed"; "timeout";
   "deadline exceeded"; "no such host"; "eof"; "bad gateway"; "service unavailable";
   "gateway timeout"].

Definition contains_one_of (texts : list string) (s : string) : bool :=
  existsb (fun t => contains t s) texts.

(** [ctxDone] is [ctx.Err() != nil]. *)
Definition shouldFallbackRPCError (ctxDone : bool) (err : option go_error) : bool :=
  match err with
  | None => false
  | Some err =>
      if ctxDone then false
      else
        let errStr := strings_ToLower (error_text err) in
        if contains_one_of rpc_final_texts errStr then false
        else contains_one_of rpc_retry_texts errStr
  end.

(** The codes of google.golang.org/grpc/codes. *)
Inductive grpc_code :=
  | OK | Canceled | Unknown | InvalidArgument | DeadlineExceededCode | NotFound
  | AlreadyExists | PermissionDenied | ResourceExhausted | FailedPrecondition
  | Aborted | OutOfRange | Unimplemented | Internal | Unavailable | DataLoss
  | Unauthenticated.

Definition grpc_retry_texts : list string :=
  ["connection refused"; "connection reset"; "connection closed"; "transport is closing";
   "transport: error while dialing"; "timeout"; "deadline exceeded"; "no such host"; "eof";
   "bad gateway"; "service unavailable"; "gateway timeout"].

(** [status_Code] is [status.Code] of the grpc module. *)
Definition shouldFallbackGRPCError (status_Code : go_error -> grpc_code)
    (ctxDone : bool) (err : option go_error) : bool :=
  match err with
  | None => false
  | Some err =>
      if ctxDone then false
      else
        match status_Code err with
        | Unavailable | DeadlineExceededCode => true
        | OK | Canceled | InvalidArgument | NotFound | AlreadyExists | PermissionDenied
        | Unauthenticated | FailedPrecondition | OutOfRange | Unimplemented => false
        | _ => contains_one_of grpc_retry_texts (strings_ToLower (error_text err))
        end
  end.

(** ** Endpoint managers

    [rpcEndpointManager] and [grpcEndpointManager] keep the same state and switch
    in the same way; they differ in the texts of their errors. *)
Record endpointManager := mkManager { endpoints : list string; current : nat }.

Record manager_texts := mkTexts {
  no_endpoints : string;
  none_configured : string;
  create_failed : string;
  operation_failed : string;  (** between the operation and the two errors *)
  operation_failed_all : string
}.

Definition rpc_texts : manager_texts :=
  mkTexts "no RPC endpoints provided" "no fallback RPC endpoints configured"
    "failed to create fallback RPC clients: " " failed on RPC endpoints: "
    " failed on all RPC endpoints: ".

Definition grpc_texts : manager_texts :=
  mkTexts "no gRPC endpoints provided" "no fallback gRPC endpoints configured"
    "failed to create fallback gRPC connections: " " failed on gRPC endpoints: "
    " failed on all gRPC endpoints: ".

(** The constructors. A factory that is nil is not representable here. *)
Definition newEndpointManager (t : manager_texts) (eps : list string) : go endpointManager :=
  match eps with
  | [] => Err (ErrNew (no_endpoints t))
  | _ => Ok (mkManager eps 0)
  end.

Definition newRPCEndpointManagerWithFactory := newEndpointManager rpc_texts.
Definition newGRPCEndpointManagerWithFactory := newEndpointManager grpc_texts.

Definition currentEndpoint (m : endpointManager) : go string := index (endpoints m) (current m).
Definition primaryEndpoint (m : endpointManager) : go string := index (endpoints m) 0.
Definition endpointCount (m : endpointManager) : nat := length (endpoints m).
Definition usingPrimary (m : endpointManager) : bool := (current m =? 0)%nat.
Definition switchToPrimary (m : endpointManager) : endpointManager :=
  if usingPrimary m then m else mkManager (endpoints m) 0.

Section Endpoints.
Context {W Client : Type}.

(** [rpchttp.New] and [GrpcClient.NewTcpConnection]; [CloseConnection], whose
    error is only logged; [ctx.Err() != nil]. *)
Variable factory : W -> string -> W * (go_error + Client).
Variable CloseConnection : W -> Client -> W.
Variable ctxDone : W -> bool.

(** What an operation does with endpoints, in order. A call keeps its error and
    whether that error is worth another endpoint. *)
Inductive event :=
  | Created (endpoint : string) (c : Client)
  | NotCreated (endpoint : string) (e : go_error)
  | Installed (c : Client)
  | Called (endpoint : string) (c : Client) (err : option go_error) (retry : bool)
  | Closed (c : Client).

(** The part of [Client] that operations use: [rpcManager] or [grpcManager], and
    the client in [cosmosCtx] or [grpcConn]. *)
Record St := mkSt {
  world : W;
  manager : option endpointManager;
  client : option Client;
  events : list event
}.

Definition with_event (e : event) (st : St) : St :=
  mkSt (world st) (manager st) (client st) (events st ++ [e]).
Definition with_manager (m : endpointManager) (st : St) : St :=
  mkSt (world st) (Some m) (client st) (events st).

Definition create (endpoint : string) (st : St) : St * (go_error + Client) :=
  let '(w, r) := factory (world st) endpoint in
  (mkSt w (manager st) (client st) (events st ++
     [match r with inl e => NotCreated endpoint e | inr c => Created endpoint c end]), r).

(** [setRPCClient], [setGRPCConnection]. *)
Definition setClient (c : Client) (st : St) : St :=
  mkSt (world st) (manager st) (Some c) (events st ++ [Installed c]).

Definition closeConnection (c : option Client) (st : St) : St :=
  match c with
  | None => st
  | Some c => mkSt (CloseConnection (world st) c) (manager st) (client st) (events st ++ [Closed c])
  end.

(** The client of an endpoint read from the manager, with that endpoint:
    [currentClient], [primaryClient] and the two of gRPC. *)
Definition clientOf (which : endpointManager -> go string) (st : St) :
    St * go (string * (go_error + Client)) :=
  match manager st with
  | None => (st, Panic NilDereference)
  | Some m =>
      match which m with
      | Ok endpoint => let '(st, r) := create endpoint st in (st, Ok (endpoint, r))
      | Err e => (st, Err e)
      | Panic p => (st, Panic p)
      end
  end.

Definition currentClient := clientOf currentEndpoint.
Definition primaryClient := clientOf primaryEndpoint.

(** [nextClient], [nextConnection]. *)
Fixpoint next_loop (t : manager_texts) (m : endpointManager) (offsets : list nat)
    (errs : list string) (st : St) : St * go (string * Client) :=
  match offsets with
  | [] =>
      (st, Err (ErrNew match errs with
                       | [] => none_configured t
                       | _ => create_failed t +:+ strings_Join errs "; "
                       end))
  | offset :: offsets =>
      let idx := (current m + offset) mod length (endpoints m) in
      match endpoints m !! idx with
      | None => (st, Panic IndexOutOfRange)
      | Some endpoint =>
          match create endpoint st with
          | (st, inl err) =>
              next_loop t m offsets (errs ++ [endpoint +:+ ": " +:+ error_text err]) st
          | (st, inr c) => (with_manager (mkManager (endpoints m) idx) st, Ok (endpoint, c))
          end
      end
  end.

Definition next (t : manager_texts) (st : St) : St * go (string * Client) :=
  match manager st with
  | None => (st, Panic NilDereference)
  | Some m => next_loop t m (seq 1 (endpointCount m - 1)) [] st
  end.

Definition nextClient := next rpc_texts.
Definition nextConnection := next grpc_texts.

(** ** Operations with fallback *)
Section Operation.
(** [shouldFallbackRPCError ctx] or [shouldFallbackGRPCError ctx], and the call. *)
Variable shouldFallback : bool -> option go_error -> bool.
Variable operation : string.
Variable call : W -> Client -> W * option go_error.

Definition here (st : St) : string :=
  match manager st with
  | Some m => default "" (endpoints m !! current m)
  | None => ""
  end.

Definition do_call (c : Client) (st : St) : St * (option go_error * bool) :=
  let '(w, err) := call (world st) c in
  let retry := shouldFallback (ctxDone w) err in
  (mkSt w (manager st) (client st) (events st ++ [Called (here st) c err retry]), (err, retry)).

Definition outcome (err : option go_error) : go unit :=
  match err with None => Ok tt | Some e => Err e end.

(** The loop [for attempt := 0; attempt < n; attempt++]. [switch] installs the
    next client. *)
Fixpoint attempts (t : manager_texts) (switch : St -> St * go (string * Client))
    (n : nat) (lastErr : go_error) (st : St) : St * go unit :=
  match n with
  | O => (st, Err (ErrWrap (operation +:+ operation_failed_all t) lastErr ""))
  | S n =>
      match switch st with
      | (st, Err err) =>
          (st, Err (ErrWrap2 (operation +:+ operation_failed t) err "; last error: " lastErr))
      | (st, Panic p) => (st, Panic p)
      | (st, Ok (_, c)) =>
          match do_call c st with
          | (st, (Some err, true)) => attempts t switch n err st
          | (st, (err, _)) => (st, outcome err)
          end
      end
  end.

Definition fallback (t : manager_texts) (switch : St -> St * go (string * Client))
    (c : Client) (st : St) : St * go unit :=
  match do_call c st with
  | (st, (Some err, true)) =>
      match manager st with
      | None => (st, Err err)
      | Some m => attempts t switch (endpointCount m - 1) err st
      end
  | (st, (err, _)) => (st, outcome err)
  end.

End Operation.

Definition switchRPC (st : St) : St * go (string * Client) :=
  match nextClient st with
  | (st, Ok (endpoint, c)) => (setClient c st, Ok (endpoint, c))
  | r => r
  end.

Definition withRPCFallback (operation : string) (call : W -> Client -> W * option go_error)
    (st : St) : St * go unit :=
  let fallback := fallback shouldFallbackRPCError operation call rpc_texts switchRPC in
  match manager st, client st with
  | None, None => (st, Panic NilDereference)
  | None, Some c => 
      let '(st, (err, _)) := do_call shouldFallbackRPCError call c st in (st, outcome err)
  | Some _, _ =>
      match currentClient st with
      | (st, Ok (_, inr c)) => fallback c st
      | (st, Ok (_, inl _)) =>
          match switchRPC st with
          | (st, Ok (_, c)) => fallback c st
          | (st, Err err) => (st, Err (wrapf "create RPC client" err))
          | (st, Panic p) => (st, Panic p)
          end
      | (st, Err e) => (st, Err e)
      | (st, Panic p) => (st, Panic p)
      end
  end.

Definition reconnectGRPCEndpoint (st : St) : St * go (string * Client) :=
  let oldConn := client st in
  match nextConnection st with
  | (st, Ok (endpoint, c)) => (closeConnection oldConn (setClient c st), Ok (endpoint, c))
  | r => r
  end.

(** [status_Code] is [status.Code] of the grpc module. *)
Definition withGRPCFallback (status_Code : go_error -> grpc_code) (operation : string)
    (call : W -> Client -> W * option go_error) (st : St) : St * go unit :=
  match client st with
  | None => (st, Panic NilDereference)
  | Some c =>
      fallback (shouldFallbackGRPCError status_Code) operation call grpc_texts
        reconnectGRPCEndpoint c st
  end.

(** ** Start and restoration of the primary endpoint *)

Fixpoint connect_attempts (n : nat) (err : go_error) (st : St) : St * go (string * Client) :=
  match n with
  | O => (st, Err err)
  | S n =>
      match nextConnection st with
      | (st, Err err) => connect_attempts n err st
      | r => r
      end
  end.

(** The first [nextConnection] that succeeds ends the loop. *)
Definition connect_first (st : St) : St * go (string * Client) :=
  match currentClient st with
  | (st, Ok (endpoint, inr c)) => (st, Ok (endpoint, c))
  | (st, Ok (_, inl err)) =>
      connect_attempts (match manager st with Some m => endpointCount m - 1 | None => 0 end) err st
  | (st, Err e) => (st, Err e)
  | (st, Panic p) => (st, Panic p)
  end.

Definition connectInitialGRPCEndpoint (st : St) : St * go unit :=
  match connect_first st with
  | (st, Ok (_, c)) => (setClient c st, Ok tt)
  | (st, Err err) =>
      (st, Err (wrapf "failed to establish gRPC connection to Cosmos query services" err))
  | (st, Panic p) => (st, Panic p)
  end.

(** The node's answer to a health probe: its network, or an error. *)
Section Restore.
Variable probe : W -> Client -> W * (go_error + string).
Variable chainID : string.

Definition probe_client (c : Client) (st : St) : St * (go_error + string) :=
  let '(w, r) := probe (world st) c in (mkSt w (manager st) (client st) (events st), r).

Definition onPrimary (st : St) : bool :=
  match manager st with None => true | Some m => usingPrimary m end.

Definition restorePrimary (st : St) : St :=
  match manager st with None => st | Some m => with_manager (switchToPrimary m) st end.

(** The probe of [tryRestorePrimaryGRPCEndpoint], up to the lock [grpcMu]: a
    connection to a primary endpoint that is ready, or none. *)
Definition probePrimaryGRPC (st : St) : St * option Client :=
  if onPrimary st then (st, None)
  else
    match primaryClient st with
    | (st, Ok (_, inr conn)) =>
        match probe_client conn st with
        | (st, inl _) => (closeConnection (Some conn) st, None)
        | (st, inr network) =>
            if decide (network = chainID) then (st, Some conn)
            else (closeConnection (Some conn) st, None)
        end
    | (st, _) => (st, None)
    end.

(** What it does under the lock. *)
Definition installPrimaryGRPC (conn : Client) (st : St) : St :=
  if onPrimary st then closeConnection (Some conn) st
  else
    let oldConn := client st in
    closeConnection oldConn (restorePrimary (setClient conn st)).

Definition tryRestorePrimaryGRPCEndpoint (st : St) : St :=
  match probePrimaryGRPC st with
  | (st, Some conn) => installPrimaryGRPC conn st
  | (st, None) => st
  end.

(** [rpchttp.HTTP]: the concrete type of a client, whether it runs, its start. *)
Variable isHTTP : Client -> bool.
Variable IsRunning : W -> Client -> bool.
Variable StartClient : W -> Client -> W * option go_error.

Definition start_client (c : Client) (st : St) : St * option go_error :=
  if IsRunning (world st) c then (st, None)
  else let '(w, err) := StartClient (world st) c in
       (mkSt w (manager st) (client st) (events st), err).

Definition tryRestorePrimaryRPCEndpoint (st : St) : St :=
  if onPrimary st then st
  else
    match primaryClient st with
    | (st, Ok (_, inr c)) =>
        if negb (isHTTP c) then st
        else
          match start_client c st with
          | (st, Some _) => st
          | (st, None) =>
              match probe_client c st with
              | (st, inl _) => st
              | (st, inr network) =>
                  if decide (network = chainID) then restorePrimary (setClient c st) else st
              end
          end
    | (st, _) => st
    end.
End Restore.

(** ** Switching

    One switch creates clients in the cyclic order that starts after the current
    endpoint, up to the first that can be created. *)
Definition wf (m : endpointManager) : Prop := current m < length (endpoints m).
Definition nth_after (m : endpointManager) (o : nat) : nat :=
  (current m + o) mod length (endpoints m).
Definition not_created (m : endpointManager) (o : nat) (e : event) : Prop :=
  exists endpoint err, endpoints m !! nth_after m o = Some endpoint /\ e = NotCreated endpoint err.
Definition always_creates : Prop := forall w endpoint, exists w' c, factory w endpoint = (w', inr c).

Definition call_of (e : event) : option (string * Client * option go_error * bool) :=
  match e with Called endpoint c err retry => Some (endpoint, c, err, retry) | _ => None end.
Definition calls (l : list event) := omap call_of l.

Lemma nth_after_lt m o : wf m -> nth_after m o < length (endpoints m).
Proof using Type. unfold wf. intros. apply Nat.mod_upper_bound. lia. Qed.

Lemma not_created_calls m offs nc : Forall2 (not_created m) offs nc -> calls nc = [].
Proof using Type. induction 1 as [|o e offs nc (ep & err & _ & ->) _ IH]; [done|exact IH]. Qed.

Lemma next_loop_spec t m offs errs st st' r :
  wf m -> next_loop t m offs errs st = (st', r) ->
  client st' = client st /\
  exists nc,
    (always_creates -> nc = []) /\
    ((exists k o endpoint c,
        offs !! k = Some o /\ endpoints m !! nth_after m o = Some endpoint /\
        r = Ok (endpoint, c) /\ manager st' = Some (mkManager (endpoints m) (nth_after m o)) /\
        events st' = events st ++ nc ++ [Created endpoint c] /\
        Forall2 (not_created m) (take k offs) nc) \/
     (exists err, r = Err err /\ manager st' = manager st /\
        events st' = events st ++ nc /\ Forall2 (not_created m) offs nc)).
Proof using Type.
  intros Hwf. revert errs st. induction offs as [|o offs IH]; intros errs st; cbn [next_loop].
  { intros [= <- <-]. split; [done|]. exists []. split; [done|]. right.
    eexists. rewrite app_nil_r. done. }
  fold (nth_after m o).
  destruct (lookup_lt_is_Some_2 (endpoints m) (nth_after m o) (nth_after_lt m o Hwf)) as [ep Hep].
  rewrite Hep. unfold create. destruct (factory (world st) ep) as [w [err|c]] eqn:Ef.
  - intros H%IH. cbn in H. destruct H as (Hc & nc & Ht & H). split; [done|].
    exists (NotCreated ep err :: nc). split.
    { intros Ha. destruct (Ha (world st) ep) as (w' & c & E). by rewrite Ef in E. }
    assert (not_created m o (NotCreated ep err)) as Hn by (exists ep, err; done).
    destruct H as [(k & o' & ep' & c & Ho & Hep' & -> & Hm & He & Hf)|(e & -> & Hm & He & Hf)].
    + left. exists (S k), o', ep', c. rewrite He, <- app_assoc. split_and!; try done.
      cbn. by constructor.
    + right. exists e. rewrite He, <- app_assoc. split_and!; try done. by constructor.
  - intros [= <- <-]. split; [done|]. exists []. split; [done|]. left.
    exists 0, o, ep, c. split_and!; try done.
Qed.

Lemma next_spec t m st st' r :
  manager st = Some m -> wf m -> next t st = (st', r) ->
  client st' = client st /\
  exists nc, (always_creates -> nc = []) /\ calls nc = [] /\
    ((exists o endpoint c,
        0 < o < length (endpoints m) /\ endpoints m !! nth_after m o = Some endpoint /\
        r = Ok (endpoint, c) /\ manager st' = Some (mkManager (endpoints m) (nth_after m o)) /\
        events st' = events st ++ nc ++ [Created endpoint c] /\
        Forall2 (not_created m) (seq 1 (o - 1)) nc) \/
     (exists err, r = Err err /\ manager st' = Some m /\ events st' = events st ++ nc /\
        Forall2 (not_created m) (seq 1 (length (endpoints m) - 1)) nc)).
Proof using Type.
  clear CloseConnection. intros Hm Hwf. unfold next. rewrite Hm. intros H.
  apply next_loop_spec in H as (Hc & nc & Ht & H); [|done].
  split; [done|]. exists nc. split; [done|].
  destruct H as [(k & o & ep & c & Ho & Hep & -> & Hm' & He & Hf)|(e & -> & Hm' & He & Hf)].
  - split; [by eapply not_created_calls|]. left. apply lookup_seq in Ho as [-> Hk].
    unfold endpointCount in *. exists (1 + k), ep, c. split_and!; try done; [lia..|].
    rewrite take_seq in Hf. by replace (k `min` _) with (1 + k - 1) in Hf by lia.
  - split; [by eapply not_created_calls|]. right. exists e. split_and!; try done. by rewrite Hm', Hm.
Qed.

(** What the fallback loops need of a switch. *)
Definition switch_law (switch : St -> St * go (string * Client)) : Prop :=
  forall m st st' r, manager st = Some m -> wf m -> switch st = (st', r) ->
  exists new, events st' = events st ++ new /\ calls new = [] /\
    ((exists o endpoint c,
        0 < o < length (endpoints m) /\ endpoints m !! nth_after m o = Some endpoint /\
        r = Ok (endpoint, c) /\ manager st' = Some (mkManager (endpoints m) (nth_after m o)) /\
        client st' = Some c /\ Created endpoint c ∈ new /\ (always_creates -> o = 1)) \/
     (exists err, r = Err err /\ manager st' = Some m /\
        Forall (fun o => exists e, e ∈ new /\ not_created m o e) (seq 1 (length (endpoints m) - 1)) /\
        (always_creates -> length (endpoints m) <= 1)%nat)).

Lemma nc_always nc m o :
  (always_creates -> nc = []) -> Forall2 (not_created m) (seq 1 (o - 1)) nc ->
  0 < o -> always_creates -> o = 1.
Proof using Type.
  intros Ht Hf Ho Ha. rewrite (Ht Ha) in Hf. apply Forall2_length in Hf.
  rewrite length_seq in Hf. cbn in Hf. lia.
Qed.

Lemma not_created_all m offs nc :
  Forall2 (not_created m) offs nc ->
  Forall (fun o => exists e, e ∈ nc /\ not_created m o e) offs.
Proof using Type.
  intros Hf. apply Forall_forall. intros o Ho. apply (Forall2_elem_of_l _ _ _ _ Hf Ho).
Qed.

Lemma switchRPC_law : switch_law switchRPC.
Proof using Type.
  clear CloseConnection.
  intros m st st' r Hm Hwf. unfold switchRPC.
  destruct (nextClient st) as [st1 r1] eqn:E. apply (next_spec _ m) in E as (Hc & nc & Ht & Hn & H); [|done..].
  destruct H as [(o & ep & c & Ho & Hep & -> & Hm' & He & Hf)|(e & -> & Hm' & He & Hf)]; intros [= <- <-].
  - exists (nc ++ [Created ep c; Installed c]). cbn. rewrite He. split_and!.
    + by rewrite <- !app_assoc.
    + unfold calls in *. by rewrite omap_app, Hn.
    + left. exists o, ep, c. split_and!; try done; try lia.
      * apply elem_of_app. right. by left.
      * apply (nc_always nc m); [done..|lia].
  - exists nc. split_and!; try done. right. exists e. split_and!; try done; [by apply not_created_all|].
    intros Ha. rewrite (Ht Ha) in Hf. apply Forall2_length in Hf. rewrite length_seq in Hf. cbn in Hf. lia.
Qed.

Lemma reconnect_law : switch_law reconnectGRPCEndpoint.
Proof using Type.
  intros m st st' r Hm Hwf. unfold reconnectGRPCEndpoint.
  destruct (nextConnection st) as [st1 r1] eqn:E. apply (next_spec _ m) in E as (Hc & nc & Ht & Hn & H); [|done..].
  destruct H as [(o & ep & c & Ho & Hep & -> & Hm' & He & Hf)|(e & -> & Hm' & He & Hf)]; intros [= <- <-].
  - exists (nc ++ [Created ep c; Installed c] ++ match client st with Some old => [Closed old] | None => [] end).
    split_and!.
    + destruct (client st); cbn; rewrite He; by rewrite <- ?app_assoc, ?app_nil_r.
    + unfold calls in *. rewrite !omap_app, Hn. by destruct (client st).
    + left. exists o, ep, c. split_and!; try done; try lia; try by destruct (client st).
      * apply elem_of_app. right. by left.
      * apply (nc_always nc m); [done..|lia].
  - exists nc. split_and!; try done. right. exists e. split_and!; try done; [by apply not_created_all|].
    intros Ha. rewrite (Ht Ha) in Hf. apply Forall2_length in Hf. rewrite length_seq in Hf. cbn in Hf. lia.
Qed.

(** ** The fallback loops *)
Section Fallback.
Variable shouldFallback : bool -> option go_error -> bool.
Variable operation : string.
Variable call : W -> Client -> W * option go_error.

Definition call_record : Type := string * Client * option go_error * bool.
Definition endpoint_of (x : call_record) : string := x.1.1.1.

(** The error when no endpoint is left: [e] is the error of the last call. *)
Definition all_failed (t : manager_texts) (e : go_error) (r : go unit) : Prop :=
  r = Err (ErrWrap (operation +:+ operation_failed_all t) e "") \/
  exists creation, r = Err (ErrWrap2 (operation +:+ operation_failed t) creation "; last error: " e).

(** Every call but the last failed with an error worth another endpoint, and the
    result is that of the last call, or says that no endpoint is left. *)
Fixpoint explains (t : manager_texts) (cs : list call_record) (lastErr : go_error) (r : go unit) : Prop :=
  match cs with
  | [] => all_failed t lastErr r
  | (_, _, Some e, true) :: cs => explains t cs e r
  | (_, _, Some e, false) :: cs => cs = [] /\ r = Err e
  | (_, _, None, _) :: cs => cs = [] /\ r = Ok tt
  end.

(** Every call failed with an error worth another endpoint. *)
Definition all_retried (cs : list call_record) : Prop :=
  Forall (fun '(_, _, err, retry) => err <> None /\ retry = true) cs.

Definition at_current (m m' : endpointManager) (cs : list call_record) : Prop :=
  match last cs with
  | None => m' = m
  | Some x => endpoints m' !! current m' = Some (endpoint_of x)
  end.

Lemma at_current_cons m m1 m' x cs :
  endpoints m1 !! current m1 = Some (endpoint_of x) -> at_current m1 m' cs -> at_current m m' (x :: cs).
Proof using Type.
  intros Hx. unfold at_current. rewrite last_cons. destruct (last cs); [done|]. by intros ->.
Qed.

Lemma at_current_nonempty m m1 m' x cs : at_current m1 m' (x :: cs) -> at_current m m' (x :: cs).
Proof using Type. unfold at_current. rewrite last_cons. by destruct (last cs). Qed.

Lemma nth_after_step m m1 o i :
  wf m -> endpoints m1 = endpoints m -> current m1 = nth_after m o ->
  nth_after m1 i = nth_after m (o + i).
Proof using Type.
  clear.
  intros Hwf He Hc. unfold nth_after, wf in *. rewrite He, Hc. unfold nth_after.
  rewrite Nat.Div0.add_mod_idemp_l. f_equal. lia.
Qed.

Lemma retry_dec (err : option go_error) (retry : bool) :
  (exists e, err = Some e /\ retry = true) \/ ~ exists e, err = Some e /\ retry = true.
Proof using Type. destruct err as [e|], retry; [left; by exists e|right; naive_solver..]. Qed.

Lemma attempts_spec t switch m n lastErr st st' r :
  switch_law switch -> manager st = Some m -> wf m -> (n < length (endpoints m))%nat ->
  attempts shouldFallback operation call t switch n lastErr st = (st', r) ->
  exists m' new, manager st' = Some m' /\ endpoints m' = endpoints m /\ wf m' /\
    events st' = events st ++ new /\ at_current m m' (calls new) /\
    (length (calls new) <= n)%nat /\ explains t (calls new) lastErr r /\
    (forall endpoint c err retry, (endpoint, c, err, retry) ∈ calls new -> Created endpoint c ∈ new) /\
    (always_creates -> (forall i x, calls new !! i = Some x -> endpoints m !! nth_after m (S i) = Some (endpoint_of x)) /\
       (all_retried (calls new) -> length (calls new) = n)).
Proof using Type.
  clear.
  intros Hsw. revert m lastErr st. induction n as [|n IH]; intros m lastErr st Hm Hwf Hlt; cbn [attempts].
  { intros [= <- <-]. exists m, []. rewrite app_nil_r. split_and!; try done; [by left|].
    intros ????. by intros ?%elem_of_nil. }
  destruct (switch st) as [st1 r1] eqn:E.
  destruct (Hsw _ _ _ _ Hm Hwf E) as (nw & He & Hn & H).
  destruct H as [(o & ep & c & Ho & Hep & -> & Hm1 & Hc1 & Hcr & Ht)|(e & -> & Hm1 & Hf & Ht)]; cycle 1.
  { intros [= <- <-]. exists m, nw. rewrite Hn. split_and!; try done; [cbn; lia|right; by eexists|..].
    - intros ????. by intros ?%elem_of_nil.
    - intros Ha%Ht. lia. }
  set (m1 := mkManager (endpoints m) (nth_after m o)) in *.
  assert (wf m1) as Hwf1 by exact (nth_after_lt m o Hwf).
  unfold do_call, here. rewrite Hm1. destruct (call (world st1) c) as [w err].
  set (retry := shouldFallback (ctxDone w) err).
  assert (default "" (endpoints m1 !! current m1) = ep) as -> by (subst m1; cbn [endpoints current]; by rewrite Hep).
  set (st2 := mkSt _ _ _ _).
  assert (forall st3 new, events st3 = events st2 ++ new ->
    events st3 = events st ++ (nw ++ Called ep c err retry :: new) /\
    calls (nw ++ Called ep c err retry :: new) = (ep, c, err, retry) :: calls new) as Hev.
  { intros st3 new ->. subst st2. cbn. rewrite He, <- !app_assoc. split; [done|].
    unfold calls in *. by rewrite omap_app, Hn. }
  assert (explains t [(ep, c, err, retry)] lastErr (outcome err) \/ exists e, err = Some e /\ retry = true) as Hend.
  { destruct err as [e|]; [|by left]. destruct retry; [right; by exists e|by left]. }
  assert (forall endpoint c' err' retry' new,
    (forall endpoint c err retry, (endpoint, c, err, retry) ∈ calls new -> Created endpoint c ∈ new) ->
    (endpoint, c', err', retry') ∈ (ep, c, err, retry) :: calls new ->
    Created endpoint c' ∈ nw ++ Called ep c err retry :: new) as Hcreated.
  { intros endpoint c' err' retry' new Hnew [[= -> -> -> ->]|Hin]%elem_of_cons;
      apply elem_of_app; [by left|right; right; by eapply Hnew]. }
  destruct (retry_dec err retry) as [(e & -> & Hr)|Hstop].
  - rewrite Hr. intros H.
    apply (IH m1) in H as (m' & new & Hm' & Hep' & Hwf' & He' & Hat & Hlen & Hex & Hcr' & Ha'); [|done..|cbn; lia].
    destruct (Hev _ _ He') as [Hes Hcs]. rewrite Hr in Hes, Hcs, Hcreated.
    exists m', (nw ++ Called ep c (Some e) true :: new). rewrite Hcs. split_and!; try done.
    + by apply (at_current_cons m m1).
    + cbn. lia.
    + intros. by eapply Hcreated.
    + intros Ha. destruct (Ha' Ha) as [Hpos Hall]. rewrite (Ht Ha) in *. split.
      * intros [|i] x; cbn; [by intros [= <-]|]. intros Hi%Hpos.
        rewrite (nth_after_step m m1 1 (S i)) in Hi; [done..|]. subst m1. cbn. by rewrite (Ht Ha).
      * intros [_ H]%Forall_cons. cbn. f_equal. by apply Hall.
  - clearbody retry. intros H. assert (st' = st2 /\ r = outcome err) as [-> ->].
    { destruct err as [e|]; [destruct retry; [destruct Hstop; eauto|]|]; by injection H as <- <-. }
    destruct Hend as [Hend|]; [|done].
    destruct (Hev st2 []) as [Hes Hcs]; [by rewrite app_nil_r|].
    exists m1, (nw ++ [Called ep c err retry]). rewrite Hcs. split_and!; try done; [cbn; lia|..].
    + intros ????. apply Hcreated. intros ????. by intros ?%elem_of_nil.
    + intros Ha. rewrite (Ht Ha) in *. split.
      * intros [|i] x; cbn; [by intros [= <-]|done].
      * intros [[Herr Hret] _]%Forall_cons. destruct Hstop. destruct err as [e|]; [|done].
        by exists e.
Qed.

Lemma fallback_spec t switch m c st st' r :
  switch_law switch -> manager st = Some m -> wf m -> endpoints m !! current m = Some (here st) ->
  fallback shouldFallback operation call t switch c st = (st', r) ->
  exists m' new err retry, manager st' = Some m' /\ endpoints m' = endpoints m /\ wf m' /\
    let x := (here st, c, err, retry) in
    events st' = events st ++ Called (here st) c err retry :: new /\ at_current m m' (x :: calls new) /\
    (length (x :: calls new) <= length (endpoints m))%nat /\
    (forall lastErr, explains t (x :: calls new) lastErr r) /\
    (forall endpoint c err retry, (endpoint, c, err, retry) ∈ calls new -> Created endpoint c ∈ new) /\
    (always_creates ->
       (forall i y, (x :: calls new) !! i = Some y -> endpoints m !! nth_after m i = Some (endpoint_of y)) /\
       (all_retried (x :: calls new) -> length (x :: calls new) = length (endpoints m))).
Proof using Type.
  clear.
  intros Hsw Hm Hwf Hh. unfold fallback, do_call. destruct (call (world st) c) as [w err].
  set (retry := shouldFallback (ctxDone w) err). set (st1 := mkSt _ _ _ _).
  assert (nth_after m 0 = current m) as H0.
  { unfold nth_after. rewrite Nat.add_0_r. apply Nat.mod_small, Hwf. }
  destruct (retry_dec err retry) as [(e & -> & Hr)|Hstop].
  - rewrite Hr. cbn [manager st1]. rewrite Hm. intros H.
    eapply (attempts_spec t switch m) in H as (m' & new & Hm' & Hep' & Hwf' & He' & Hat & Hlen & Hex & Hcr' & Ha');
      [|done..|unfold wf, endpointCount in *; lia].
    exists m', new, (Some e), true. cbn. rewrite He'. cbn. rewrite Hr, <- app_assoc. split_and!; try done.
    + by apply (at_current_cons m m).
    + unfold wf, endpointCount in *. lia.
    + intros Ha. destruct (Ha' Ha) as [Hpos Hall]. split.
      * intros [|i] y; cbn; [intros [= <-]; by rewrite H0|apply Hpos].
      * intros [_ H]%Forall_cons. unfold wf, endpointCount in *. rewrite (Hall H). lia.
  - clearbody retry. intros H. assert (st' = st1 /\ r = outcome err) as [-> ->].
    { destruct err as [e|]; [destruct retry; [destruct Hstop; eauto|]|]; by injection H as <- <-. }
    exists m, [], err, retry. cbn. split_and!; try done; [unfold wf in *; lia|..].
    + intros _. destruct err as [e|]; [|done]. destruct retry; [destruct Hstop; eauto|done].
    + intros ????. by intros ?%elem_of_nil.
    + intros Ha. split.
      * intros [|i] y; cbn; [intros [= <-]; by rewrite H0|done].
      * intros [[Herr Hret] _]%Forall_cons. destruct Hstop. destruct err as [e|]; [|done].
        by exists e.
Qed.
End Fallback.

Lemma nth_after_0 m : wf m -> nth_after m 0 = current m.
Proof using Type. intros. unfold nth_after. rewrite Nat.add_0_r. by apply Nat.mod_small. Qed.

Lemma currentClient_spec m st :
  manager st = Some m -> wf m ->
  exists endpoint st1 r1, endpoints m !! current m = Some endpoint /\
    currentClient st = (st1, Ok (endpoint, r1)) /\ manager st1 = Some m /\ client st1 = client st /\
    match r1 with
    | inr c => events st1 = events st ++ [Created endpoint c]
    | inl e => events st1 = events st ++ [NotCreated endpoint e] /\ ~ always_creates
    end.
Proof using Type.
  intros Hm Hwf. destruct (lookup_lt_is_Some_2 (endpoints m) (current m) Hwf) as [ep Hep].
  unfold currentClient, clientOf, currentEndpoint, index, create. rewrite Hm, Hep.
  destruct (factory (world st) ep) as [w [e|c]] eqn:Ef.
  - eexists ep, _, (inl e). split_and!; try done.
    intros Ha. destruct (Ha (world st) ep) as (w' & c & E). by rewrite Ef in E.
  - by eexists ep, _, (inr c).
Qed.

(** An RPC operation is tried at the current endpoint and, while its error is
    a connection failure, at others, at most once per endpoint in number: every call but the
    last had such an error; the result is nil exactly when the last call
    succeeded, its own error when that is final, and otherwise an error that wraps
    it. Every call uses a client created for its endpoint, and the endpoint called
    last stays current. Nothing is called only when no client can be created for
    any endpoint. When all clients can be created the endpoints are called in
    cyclic order, all of them exactly once before giving up. *)
Theorem withRPCFallback_correct operation call st m st' r :
  manager st = Some m -> wf m -> withRPCFallback operation call st = (st', r) ->
  exists m' new, manager st' = Some m' /\ endpoints m' = endpoints m /\ wf m' /\
    events st' = events st ++ new /\
    let cs := calls new in
    length cs <= length (endpoints m) /\
    (forall endpoint c err retry, (endpoint, c, err, retry) ∈ cs -> Created endpoint c ∈ new) /\
    at_current m m' cs /\
    match cs with
    | [] => (exists e, r = Err (wrapf "create RPC client" e)) /\
            (forall o, o < length (endpoints m) -> exists e, e ∈ new /\ not_created m o e)
    | _ => forall e, explains operation rpc_texts cs e r
    end /\
    (always_creates ->
       (forall i x, cs !! i = Some x -> endpoints m !! nth_after m i = Some (endpoint_of x)) /\
       (all_retried cs -> length cs = length (endpoints m))).
Proof using Type.
  intros Hm Hwf. unfold withRPCFallback. rewrite Hm.
  destruct (currentClient_spec m st Hm Hwf) as (ep & st1 & r1 & Hep & -> & Hm1 & Hc1 & Hr1).
  destruct r1 as [e|c]; [destruct Hr1 as [He1 Hna]|].
  - destruct (switchRPC st1) as [st2 r2] eqn:E.
    destruct (switchRPC_law _ _ _ _ Hm1 Hwf E) as (nw & He & Hn & H).
    destruct H as [(o & ep' & c & Ho & Hep' & -> & Hm2 & Hc2 & Hcr & Ht)|(e' & -> & Hm2 & Hf & Ht)].
    + intros H. eapply (fallback_spec _ _ _ _ _ (mkManager (endpoints m) (nth_after m o))) in H
        as (m' & new & err & retry & Hm' & Hes & Hwf' & Hev & Hat & Hlen & Hex & Hcr' & _);
        [|apply switchRPC_law|done|exact (nth_after_lt m o Hwf)|unfold here; rewrite Hm2; cbn; by rewrite Hep'].
      assert (here st2 = ep') as Hh by (unfold here; rewrite Hm2; cbn; by rewrite Hep').
      rewrite Hh in *.
      exists m', (NotCreated ep e :: nw ++ Called ep' c err retry :: new). rewrite Hev, He, He1, <- !app_assoc.
      cbn in *. unfold calls in *. rewrite omap_app, Hn. cbn. split_and!; try done;
        try (intros Ha; by destruct Hna); [|by eapply at_current_nonempty].
      intros ???? [[= -> -> -> ->]|Hin]%elem_of_cons; right; apply elem_of_app; [by left|].
      right. right. by eapply Hcr'.
    + intros [= <- <-]. exists m, (NotCreated ep e :: nw). rewrite He, He1, <- app_assoc.
      cbn. unfold calls in *. rewrite Hn. split_and!; try done; [cbn; lia|..].
      * intros ????. by intros ?%elem_of_nil.
      * by eexists.
      * intros o Ho. destruct (decide (o = 0)) as [->|].
        { exists (NotCreated ep e). split; [by left|]. exists ep, e. by rewrite nth_after_0. }
        rewrite Forall_forall in Hf. destruct (Hf o) as (ev & Hev & Hnc); [apply elem_of_seq; lia|].
        exists ev. split; [by right|done].
  - intros H. assert (here st1 = ep) as Hh by (unfold here; by rewrite Hm1, Hep).
    eapply (fallback_spec _ _ _ _ _ m) in H
      as (m' & new & err & retry & Hm' & Hes & Hwf' & Hev & Hat & Hlen & Hex & Hcr' & Hall);
      [|apply switchRPC_law|done..|by rewrite Hh].
    rewrite Hh in *. exists m', (Created ep c :: Called ep c err retry :: new).
    rewrite Hev, Hr1, <- !app_assoc. cbn in *. split_and!; try done.
    intros ???? [[= -> -> -> ->]|Hin]%elem_of_cons; [by left|]. right. right. by eapply Hcr'.
Qed.

(** ** gRPC connections

    The restoration of the primary endpoint probes without the lock of the
    connection, so queries run between the probe and the installation. *)
Section Connections.
Variable status_Code : go_error -> grpc_code.
Variable probe : W -> Client -> W * (go_error + string).
Variable chainID : string.

Inductive grpc_op :=
  | Query (operation : string) (call : W -> Client -> W * option go_error)
  | ProbePrimary
  | InstallPrimary.

(** A probed connection that waits for the lock is pending. *)
Definition grpc_step (s : St * list Client) (op : grpc_op) : St * list Client :=
  match op with
  | Query operation call => ((withGRPCFallback status_Code operation call s.1).1, s.2)
  | ProbePrimary =>
      let '(st, conn) := probePrimaryGRPC probe chainID s.1 in (st, option_list conn ++ s.2)
  | InstallPrimary =>
      match s.2 with
      | conn :: pending => (installPrimaryGRPC conn s.1, pending)
      | [] => s
      end
  end.

Definition created_of (e : event) : option Client := match e with Created _ c => Some c | _ => None end.
Definition closed_of (e : event) : option Client := match e with Closed c => Some c | _ => None end.

(** The connections created are those closed and those of [open]. *)
Definition balanced (st : St) (open : list Client) : Prop :=
  omap created_of (events st) ≡ₚ omap closed_of (events st) ++ open.

Definition managed (st : St) : Prop := exists m, manager st = Some m /\ wf m.
Definition sound (st : St) (pending : list Client) : Prop :=
  managed st /\ is_Some (client st) /\ balanced st (option_list (client st) ++ pending).

Lemma balanced_Created st st' endpoint c open new :
  events st' = events st ++ new ++ [Created endpoint c] ->
  omap created_of new = [] -> omap closed_of new = [] ->
  balanced st open -> balanced st' (c :: open).
Proof using Type.
  unfold balanced. intros -> Hc Hd. rewrite !omap_app, Hc, Hd. cbn. intros ->.
  rewrite !app_nil_r. solve_Permutation.
Qed.

Lemma balanced_neutral st st' open new :
  events st' = events st ++ new -> omap created_of new = [] -> omap closed_of new = [] ->
  balanced st open -> balanced st' open.
Proof using Type. unfold balanced. intros -> Hc Hd. by rewrite !omap_app, Hc, Hd, !app_nil_r. Qed.

Lemma balanced_close st c open :
  balanced st (option_list c ++ open) -> balanced (closeConnection c st) open.
Proof using Type.
  unfold balanced. destruct c as [c|]; cbn; [|done]. rewrite !omap_app. cbn. rewrite app_nil_r.
  intros ->. solve_Permutation.
Qed.

Lemma not_created_neutral m offs nc :
  Forall2 (not_created m) offs nc -> omap created_of nc = [] /\ omap closed_of nc = [].
Proof using Type. induction 1 as [|o e offs nc (ep & err & _ & ->) _ IH]; [done|exact IH]. Qed.

Lemma next_balanced t st st' r open :
  managed st -> balanced st open -> next t st = (st', r) ->
  managed st' /\ client st' = client st /\
  match r with
  | Ok (_, c) => balanced st' (c :: open)
  | Err _ => balanced st' open
  | Panic _ => False
  end.
Proof using Type.
  intros (m & Hm & Hwf) Hb H.
  destruct (next_spec t m _ _ _ Hm Hwf H) as (Hc & nc & _ & _ & Hr).
  destruct Hr as [(o & ep & c & Ho & Hep & -> & Hm' & He & Hf)|(e & -> & Hm' & He & Hf)];
    apply not_created_neutral in Hf as [Hn Hd]; (split; [|split; [done|]]).
  - eexists. split; [done|]. exact (nth_after_lt m o Hwf).
  - by eapply balanced_Created.
  - by exists m.
  - by eapply balanced_neutral.
Qed.

Lemma reconnect_sound st st' r pending :
  sound st pending -> reconnectGRPCEndpoint st = (st', r) -> sound st' pending.
Proof using Type.
  intros (Hw & Hi & Hb). unfold reconnectGRPCEndpoint. destruct (nextConnection st) as [st1 r1] eqn:E.
  destruct (next_balanced _ _ _ _ _ Hw Hb E) as (Hw1 & Hc1 & Hr).
  destruct r1 as [[ep c]|e|p]; intros [= <- <-]; [|by unfold sound; rewrite Hc1|done].
  split; [by destruct (client st)|]. split; [by destruct (client st)|].
  assert (balanced (closeConnection (client st) (setClient c st1)) (c :: pending)) as H.
  { apply balanced_close. eapply balanced_neutral; [cbn; done..|].
    unfold balanced in *. rewrite Hr. solve_Permutation. }
  by destruct (client st).
Qed.

Lemma sound_neutral st st' new pending :
  events st' = events st ++ new -> omap created_of new = [] -> omap closed_of new = [] ->
  manager st' = manager st -> client st' = client st -> sound st pending -> sound st' pending.
Proof using Type.
  intros He Hn Hd Hm Hc (Hw & Hi & Hb). split; [unfold managed in *; by rewrite Hm|].
  rewrite Hc. split; [done|]. by eapply balanced_neutral.
Qed.

Lemma do_call_sound should call c st pending :
  sound st pending -> sound (do_call should call c st).1 pending.
Proof using Type.
  unfold do_call. destruct (call (world st) c) as [w err]. by eapply sound_neutral.
Qed.

Lemma attempts_sound should operation call t n lastErr st pending :
  sound st pending ->
  sound (attempts should operation call t reconnectGRPCEndpoint n lastErr st).1 pending.
Proof using Type.
  revert lastErr st. induction n as [|n IH]; intros lastErr st Hs; cbn [attempts]; [done|].
  destruct (reconnectGRPCEndpoint st) as [st1 r1] eqn:E.
  pose proof (reconnect_sound _ _ _ _ Hs E) as Hs1.
  destruct r1 as [[ep c]|e|p]; [|done..].
  pose proof (do_call_sound should call c _ _ Hs1) as Hs2.
  destruct (do_call should call c st1) as [st2 [[err|] [|]]]; auto.
Qed.

Lemma withGRPCFallback_sound operation call st pending :
  sound st pending -> sound (withGRPCFallback status_Code operation call st).1 pending.
Proof using Type.
  intros Hs. unfold withGRPCFallback, fallback. destruct (client st) as [c|]; [|done].
  pose proof (do_call_sound (shouldFallbackGRPCError status_Code) call c _ _ Hs) as Hs2.
  destruct (do_call _ call c st) as [st2 [[err|] [|]]]; auto.
  destruct (manager st2); [by apply attempts_sound|done].
Qed.

Lemma probe_sound st pending :
  sound st pending ->
  let r := probePrimaryGRPC probe chainID st in sound r.1 (option_list r.2 ++ pending).
Proof using Type.
  intros Hs. unfold probePrimaryGRPC. destruct (onPrimary st); [done|].
  pose proof Hs as ((m & Hm & Hwf) & Hi & Hb).
  unfold primaryClient, clientOf, primaryEndpoint, index. rewrite Hm.
  destruct (endpoints m !! 0) as [ep|]; [|done].
  unfold create. destruct (factory (world st) ep) as [w [e|conn]].
  { by eapply sound_neutral. }
  unfold probe_client. cbn [world]. destruct (probe w conn) as [w' r].
  set (st1 := mkSt w' _ _ _).
  assert (balanced st1 (conn :: option_list (client st) ++ pending)) as Hb1.
  { by eapply (balanced_Created st st1 ep conn _ []). }
  assert (sound (closeConnection (Some conn) st1) pending) as Hclose.
  { split; [by exists m|]. split; [done|]. by apply balanced_close. }
  destruct r as [e|network]; [done|]. case_decide; [|done].
  split; [by exists m|]. split; [done|]. unfold balanced in *. rewrite Hb1. cbn. solve_Permutation.
Qed.

Lemma install_sound conn st pending :
  sound st (conn :: pending) -> sound (installPrimaryGRPC conn st) pending.
Proof using Type.
  clear.
  intros ((m & Hm & Hwf) & Hi & Hb). unfold installPrimaryGRPC, onPrimary. rewrite Hm.
  assert (0 < length (endpoints m)) as Hlt by (unfold wf in Hwf; lia).
  destruct (usingPrimary m) eqn:Hp.
  - split; [by exists m|]. split; [done|]. apply balanced_close. unfold balanced in *. rewrite Hb. cbn. solve_Permutation.
  - unfold restorePrimary, switchToPrimary. cbn [manager setClient]. rewrite Hm, Hp.
    split; [destruct (client st); by eexists|]. split; [by destruct (client st)|].
    set (st1 := with_manager _ _).
    assert (balanced st1 (option_list (client st) ++ conn :: pending)) as Hb1.
    { by eapply (balanced_neutral st st1 _ [Installed conn]). }
    replace (client (closeConnection (client st) st1)) with (Some conn) by by destruct (client st).
    by apply balanced_close.
Qed.

Lemma grpc_step_sound s op : sound s.1 s.2 -> sound (grpc_step s op).1 (grpc_step s op).2.
Proof using Type.
  destruct s as [st pending], op as [operation call| |]; cbn; intros Hs.
  - by apply withGRPCFallback_sound.
  - pose proof (probe_sound st pending Hs). by destruct (probePrimaryGRPC _ _ st).
  - destruct pending as [|conn pending]; [done|]. by apply install_sound.
Qed.

Lemma connect_attempts_balanced n err st st' r open :
  managed st -> balanced st open -> connect_attempts n err st = (st', r) ->
  managed st' /\ match r with
                 | Ok (_, c) => balanced st' (c :: open)
                 | Err _ => balanced st' open
                 | Panic _ => False
                 end.
Proof using Type.
  revert err st. induction n as [|n IH]; intros err st Hw Hb; cbn [connect_attempts].
  { by intros [= <- <-]. }
  destruct (nextConnection st) as [st1 r1] eqn:E.
  destruct (next_balanced _ _ _ _ _ Hw Hb E) as (Hw1 & _ & Hr).
  destruct r1 as [[ep c]|e|p]; [by intros [= <- <-]|by apply IH|done].
Qed.

Lemma connect_first_balanced st st' r :
  managed st -> balanced st [] -> connect_first st = (st', r) ->
  managed st' /\ match r with
                 | Ok (_, c) => balanced st' [c]
                 | Err _ => balanced st' []
                 | Panic _ => False
                 end.
Proof using Type.
  intros (m & Hm & Hwf) Hb. unfold connect_first.
  destruct (currentClient_spec m st Hm Hwf) as (ep & st1 & r1 & Hep & -> & Hm1 & _ & Hr1).
  assert (managed st1) as Hw1 by by exists m.
  destruct r1 as [err|c].
  - apply connect_attempts_balanced; [done|]. destruct Hr1 as [He _].
    by eapply (balanced_neutral st st1 [] _ He).
  - intros [= <- <-]. split; [done|]. by eapply (balanced_Created st st1 ep c [] []).
Qed.

(** The daemon neither leaks nor loses a gRPC connection. The start fails
    without leaving one open, or leaves the one it installs; and then, in any
    sequence of queries with fallback and of the two halves of the restoration of
    the primary endpoint, the connections created are those that were closed, the
    active one, and the probed one that waits to be installed, each counted as
    often as it was created. *)
Theorem grpc_connections_accounted endpoints0 w m st r :
  newGRPCEndpointManagerWithFactory endpoints0 = Ok m ->
  connectInitialGRPCEndpoint (mkSt w (Some m) None []) = (st, r) ->
  match r with
  | Ok _ => forall ops st' pending, foldl grpc_step (st, []) ops = (st', pending) ->
      exists conn, client st' = Some conn /\
      omap created_of (events st') ≡ₚ omap closed_of (events st') ++ conn :: pending
  | Err _ => omap created_of (events st) ≡ₚ omap closed_of (events st)
  | Panic _ => False
  end.
Proof using Type.
  intros Hnew. assert (wf m) as Hwf by (destruct endpoints0; [done|]; injection Hnew as <-; unfold wf; cbn; lia).
  set (st0 := mkSt w (Some m) None []).
  assert (managed st0 /\ balanced st0 []) as [Hw0 Hb0] by (split; [by exists m|apply perm_nil]).
  unfold connectInitialGRPCEndpoint. fold st0. destruct (connect_first st0) as [st1 r1] eqn:E.
  destruct (connect_first_balanced _ _ _ Hw0 Hb0 E) as [Hw1 Hr1].
  destruct r1 as [[ep c]|e|p]; intros [= <- <-]; [|by unfold balanced in Hr1; rewrite app_nil_r in Hr1|done].
  assert (sound (setClient c st1) []) as Hs.
  { split; [done|]. split; [done|]. by eapply (balanced_neutral st1 _ [c] [Installed c]). }
  intros ops. change (setClient c st1, []) with (setClient c st1, @nil Client).
  enough (forall s, sound s.1 s.2 -> forall st' pending, foldl grpc_step s ops = (st', pending) -> sound st' pending) as Hall.
  { intros st' pending (_ & [conn Hc] & Hb)%(Hall (setClient c st1, []) Hs). exists conn.
    split; [done|]. unfold balanced in Hb. by rewrite Hc in Hb. }
  clear. induction ops as [|op ops IH]; intros s Hs st' pending; [intros E; cbn in E; by subst s|].
  apply IH. by apply grpc_step_sound.
Qed.
End Connections.
End Endpoints.

(** ** Broadcast of a transaction *)

(** The fields of [sdk.TxResponse] that are read. *)
Record TxResponse := mkTxResponse { Code : N; RawLog : string; TxHash : string }.

Definition isAlreadyBroadcastErr (err : option go_error) : bool :=
  match err with
  | None => false
  | Some err =>
      contains_one_of ["tx already exists in cache"; "already in mempool"; "tx already exists"]
        (strings_ToLower (error_text err))
  end.

Definition isAlreadyBroadcastCode (resp : option TxResponse) : bool :=
  match resp with
  | None => false
  | Some resp => isAlreadyBroadcastErr (Some (ErrNew (RawLog resp)))
  end.

Record broadcastResult := mkBroadcastResult {
  br_endpoint : string;
  br_resp : option TxResponse;
  br_err : option go_error
}.

(** The result of a broadcast: both may be nil. *)
Definition handleBroadcastResult (resp : option TxResponse) (err : option go_error) : go unit :=
  match err with
  | Some err =>
      if contains "not found" (error_text err)
      then Err (ErrNew "make sure that your account has enough balance")
      else Err err
  | None =>
      match resp with
      | None => Panic NilDereference
      | Some resp =>
          if (0 <? Code resp)%N
          then Err (ErrNew ("error code: '" +:+ pretty (Code resp) +:+ "' msg: '" +:+ RawLog resp +:+ "'"))
          else Ok tt
      end
  end.

(** The loop that reads [n] results from the channel: those of [arrival], in that
    order. [None]: the loop still waits for a result. *)
Fixpoint collect (total n : nat) (lastErr : option go_error) (arrival : list broadcastResult) :
    option (option TxResponse * option go_error) :=
  let failed := "broadcast tx failed on all " +:+ pretty total +:+ " RPC endpoints: " in
  match n, arrival with
  | O, _ =>
      Some (None, Some match lastErr with
                       | Some err => ErrWrap failed err ""
                       | None => ErrNew (failed +:+ "no accepting response")
                       end)
  | S _, [] => None
  | S n, r :: arrival =>
      match br_err r, br_resp r with
      | Some err, _ =>
          if isAlreadyBroadcastErr (Some err) then collect total n lastErr arrival
          else collect total n (Some err) arrival
      | None, Some resp =>
          if (Code resp =? 0)%N || isAlreadyBroadcastCode (Some resp) then Some (Some resp, None)
          else collect total n
                 (Some (ErrNew ("endpoint " +:+ br_endpoint r +:+ " rejected tx: code " +:+
                                pretty (Code resp) +:+ ": " +:+ RawLog resp))) arrival
      | None, None => collect total n lastErr arrival
      end
  end.

Section Broadcast.
Context {W Client : Type}.
Variable factory : W -> string -> W * (go_error + Client).

(** [allClients]: the clients that can be created, and the errors of the others. *)
Fixpoint allClients_loop (eps : list string) (st : @St W Client) :
    @St W Client * (list (Client * string) * list string) :=
  match eps with
  | [] => (st, ([], []))
  | endpoint :: eps =>
      let '(st, r) := create factory endpoint st in
      let '(st, (clients, errs)) := allClients_loop eps st in
      match r with
      | inl err => (st, (clients, (endpoint +:+ ": " +:+ error_text err) :: errs))
      | inr c => (st, ((c, endpoint) :: clients, errs))
      end
  end.

Definition allClients (st : @St W Client) : @St W Client * (list (Client * string) * list string) :=
  match manager st with
  | None => (st, ([], []))
  | Some m => allClients_loop (endpoints m) st
  end.

(** The goroutines broadcast at once: the results of the clients arrive in some
    order, [arrival]. *)
Definition broadcastTxToAllEndpoints (arrival : list (Client * string) -> list broadcastResult)
    (st : @St W Client) : @St W Client * option (option TxResponse * option go_error) :=
  let '(st, (clients, errs)) := allClients st in
  match clients with
  | [] => (st, Some (None, Some (ErrNew ("broadcast tx: no usable RPC endpoints (" +:+
                             pretty (length errs) +:+ " construction errors)"))))
  | _ => (st, collect (length clients) (length clients) None (arrival clients))
  end.

(** [clientCtx.BroadcastTx(txBytes)], and the closure that keeps its response:
    the variable [resp] is the second part of the world of the operation. *)
Variable BroadcastTx : W -> Client -> W * (option TxResponse * option go_error).
Variable ctxDone : W -> bool.

Definition factory_resp (w : W * option TxResponse) (endpoint : string) :
    (W * option TxResponse) * (go_error + Client) :=
  let '(w', r) := factory w.1 endpoint in ((w', w.2), r).
Definition call_broadcast (w : W * option TxResponse) (c : Client) :
    (W * option TxResponse) * option go_error :=
  let '(w', (resp, err)) := BroadcastTx w.1 c in ((w', resp), err).

Definition with_world {W' : Type} (w : W') (st : @St W Client) : @St W' Client :=
  mkSt w (manager st) (client st) (events st).

(** The single-endpoint branch and the fan-out of [broadcastTxWithFallback]. *)
Definition broadcastTxOnce (st : @St W Client) :
    @St (W * option TxResponse) Client * go (option TxResponse * option go_error) :=
  let '(st, r) := withRPCFallback factory_resp (fun w => ctxDone w.1) "broadcast tx" call_broadcast
                    (with_world (world st, None) st) in
  (st, match r with
       | Ok _ => Ok ((world st).2, None)
       | Err err => Ok ((world st).2, Some err)
       | Panic p => Panic p
       end).

Definition fans_out (st : @St W Client) : bool :=
  match manager st with Some m => (1 <? endpointCount m)%nat | None => false end.

Definition broadcastTxWithFallback (arrival : list (Client * string) -> list broadcastResult)
    (st : @St W Client) : option (go (option TxResponse * option go_error)) :=
  if fans_out st then Ok <$> (broadcastTxToAllEndpoints arrival st).2
  else Some (broadcastTxOnce st).2.

(** *** What the senders of a transaction learn *)

Definition accepted (r : broadcastResult) : Prop :=
  br_err r = None /\ exists resp, br_resp r = Some resp /\ Code resp = 0%N.
Definition duplicate (r : broadcastResult) : Prop :=
  br_err r = None /\ exists resp, br_resp r = Some resp /\ Code resp <> 0%N /\
    isAlreadyBroadcastCode (Some resp) = true.

Definition decisive (r : broadcastResult) : Prop := accepted r \/ duplicate r.

Definition handled (r : option TxResponse * option go_error) : go unit :=
  handleBroadcastResult r.1 r.2.

Lemma collect_spec total n lastErr arrival :
  n <= length arrival ->
  exists r, collect total n lastErr arrival = Some r /\
  ((exists pre x post resp, take n arrival = pre ++ x :: post /\
      Forall (fun y => ~ decisive y) pre /\ decisive x /\
      br_resp x = Some resp /\ r = (Some resp, None)) \/
   (Forall (fun y => ~ decisive y) (take n arrival) /\ exists e, r = (None, Some e))).
Proof using Type.
  revert n lastErr. induction arrival as [|y arrival IH]; intros [|n] lastErr Hn; cbn in Hn; try lia.
  1,2: cbn; eexists; (split; [done|]); right; (split; [constructor|by eexists]).
  cbn [collect take].
  assert (forall lastErr', ~ decisive y ->
    exists r, collect total n lastErr' arrival = Some r /\
    ((exists pre x post resp, y :: take n arrival = pre ++ x :: post /\
        Forall (fun y => ~ decisive y) pre /\ decisive x /\
        br_resp x = Some resp /\ r = (Some resp, None)) \/
     (Forall (fun y => ~ decisive y) (y :: take n arrival) /\ exists e, r = (None, Some e))))
    as Hskip.
  { intros lastErr' Hd. destruct (IH n lastErr') as (r & Hr & H); [lia|]. exists r. split; [done|].
    destruct H as [(pre & x & post & resp & E & Hf & Hx & Hresp & ->)|[Hf He]]; [left|right].
    - exists (y :: pre), x, post, resp. rewrite E. split_and!; try done. by constructor.
    - split; [by constructor|done]. }
  destruct y as [ep [resp|] [err|]]; cbn [br_err br_resp br_endpoint].
  1,3: case_match; apply Hskip; by intros [[? _]|[? _]].
  2: apply Hskip; by intros [[_ (? & ? & _)]|[_ (? & ? & _)]].
  destruct (N.eqb_spec (Code resp) 0) as [H0|H0].
  - eexists. split; [done|]. left. exists [], (mkBroadcastResult ep (Some resp) None), (take n arrival), resp.
    split_and!; try done. left. split; [done|]. by exists resp.
  - cbn [orb]. destruct (isAlreadyBroadcastCode (Some resp)) eqn:Hdup.
    + eexists. split; [done|]. left. exists [], (mkBroadcastResult ep (Some resp) None), (take n arrival), resp.
      split_and!; try done. right. split; [done|]. by exists resp.
    + apply Hskip. intros [[_ (? & [= <-] & ?)]|[_ (? & [= <-] & _ & ?)]]; congruence.
Qed.

Lemma handled_accepted resp : handled (Some resp, None) = Ok tt <-> Code resp = 0%N.
Proof using Type.
  unfold handled, handleBroadcastResult. cbn. destruct (N.ltb_spec 0 (Code resp)); split; [done|lia|lia|done].
Qed.

Lemma handled_decided r :
  (exists resp, r = (Some resp, None)) \/ (exists e, r = (None, Some e)) ->
  handled r = Ok tt \/ exists e, handled r = Err e.
Proof using Type.
  unfold handled, handleBroadcastResult.
  intros [[resp ->]|[e ->]]; cbn; case_match; eauto.
Qed.

(** C11: When every client answers, the broadcast to all endpoints returns, and
    its senders see a success exactly when the first decisive answer, in the order
    of arrival, accepts the transaction with code 0: an answer that the
    transaction is already known ends the wait as well, but its code makes it a
    failure. So without such answers the order does not matter (one acceptance is
    enough), and when all endpoints know the transaction already the senders see
    a failure. *)
Theorem broadcast_correct arrival answer st st' clients errs :
  allClients st = (st', (clients, errs)) -> clients <> [] ->
  arrival clients ≡ₚ answer <$> clients ->
  exists r, broadcastTxToAllEndpoints arrival st = (st', Some r) /\
    (handled r = Ok tt \/ exists e, handled r = Err e) /\
    (handled r = Ok tt <->
      exists pre x post, arrival clients = pre ++ x :: post /\
        Forall (fun y => ~ decisive y) pre /\ accepted x) /\
    (Forall (fun c => ~ duplicate (answer c)) clients ->
      handled r = Ok tt <-> Exists (fun c => accepted (answer c)) clients) /\
    (Forall (fun c => ~ accepted (answer c)) clients -> exists e, handled r = Err e).
Proof using Type.
  intros Hcl Hne Hp. unfold broadcastTxToAllEndpoints. rewrite Hcl.
  assert (length (arrival clients) = length clients) as Hlen by by rewrite Hp, length_fmap.
  destruct (collect_spec (length clients) (length clients) None (arrival clients)) as (r & Hr & H); [lia|].
  exists r. rewrite <- Hlen, take_ge in H by lia.
  split; [destruct clients; [done|by rewrite Hr]|].
  assert (handled r = Ok tt \/ exists e, handled r = Err e) as Hdec.
  { apply handled_decided. destruct H as [(pre & x & post & resp & _ & _ & _ & _ & ->)|[_ [e ->]]]; eauto. }
  assert (handled r = Ok tt <-> exists pre x post, arrival clients = pre ++ x :: post /\
        Forall (fun y => ~ decisive y) pre /\ accepted x) as Hiff.
  { destruct H as [(pre & x & post & resp & E & Hpre & Hx & Hresp & ->)|[Hf [e ->]]].
    - rewrite handled_accepted. split.
      + intros H0. exists pre, x, post. split_and!; [done..|].
        destruct Hx as [Hx|(_ & resp' & Hresp' & Hn & _)]; [done|congruence].
      + intros (pre' & x' & post' & E' & Hpre' & Hx'). rewrite E in E'.
        destruct (first_unique _ _ _ _ _ _ _ E' Hpre Hx Hpre' (or_introl Hx')) as (_ & -> & _).
        destruct Hx' as (_ & resp' & Hresp' & H0). congruence.
    - split; [unfold handled, handleBroadcastResult; cbn; case_match; done|].
      intros (pre & x & post & E & _ & Hx). rewrite E in Hf.
      apply Forall_app in Hf as [_ [Hn _]%Forall_cons]. destruct Hn. by left. }
  assert (forall c, c ∈ clients -> answer c ∈ arrival clients) as Hin.
  { intros c Hc. rewrite Hp. by apply list_elem_of_fmap_2. }
  split_and!; [done..| |].
  - intros Hnd. rewrite Hiff. split.
    + intros (pre & x & post & E & _ & Hx). apply Exists_exists.
      assert (x ∈ answer <$> clients) as (c & -> & Hc)%list_elem_of_fmap; [|by exists c].
      rewrite <- Hp, E. apply elem_of_app. right. by left.
    + intros (c & Hc & Ha)%Exists_exists.
      destruct H as [(pre & x & post & resp & E & Hpre & Hx & Hresp & ->)|[Hf _]].
      * exists pre, x, post. split_and!; [done..|]. destruct Hx as [|Hx]; [done|].
        assert (x ∈ answer <$> clients) as (c' & -> & Hc')%list_elem_of_fmap.
        { rewrite <- Hp, E. apply elem_of_app. right. by left. }
        rewrite Forall_forall in Hnd. by destruct (Hnd c').
      * rewrite Forall_forall in Hf. destruct (Hf (answer c)); [auto|by left].
  - intros Hna. destruct Hdec as [Hok|]; [|done]. apply Hiff in Hok as (pre & x & post & E & _ & Hx).
    assert (x ∈ answer <$> clients) as (c & -> & Hc)%list_elem_of_fmap.
    { rewrite <- Hp, E. apply elem_of_app. right. by left. }
    rewrite Forall_forall in Hna. by destruct (Hna c).
Qed.
End Broadcast.

(** ** Witnesses *)
Definition ex_factory (w : nat) (endpoint : string) : nat * (go_error + string) :=
  (S w, if decide (endpoint = "b") then inl (ErrNew "dial") else inr endpoint).
Definition ex_call (w : nat) (c : string) : nat * option go_error :=
  (S w, if decide (c = "a") then None else Some (ErrNew "Connection refused")).
Definition ex_manager := mkManager ["a"; "b"; "c"] 2.
Definition ex_st : @St nat string := mkSt 0 (Some ex_manager) None [].

Lemma withRPCFallback_correct_witness :
  wf ex_manager /\
  (withRPCFallback ex_factory (fun _ => false) "status" ex_call ex_st).2 = Ok tt /\
  exists m' (new : list (@event string)), manager (withRPCFallback ex_factory (fun _ => false) "status" ex_call ex_st).1 = Some m' /\
    endpoints m' = endpoints ex_manager /\ length (calls new) <= 3.
Proof.
  assert (wf ex_manager) as Hwf by (unfold wf; cbn; lia).
  split; [done|]. split; [vm_compute; reflexivity|].
  destruct (withRPCFallback_correct ex_factory (fun _ => false) "status" ex_call ex_st ex_manager
    _ _ eq_refl Hwf (surjective_pairing _)) as (m' & new & Hm' & He & _ & _ & Hlen & _).
  exists m', new. split; [exact Hm'|]. split; [exact He|exact Hlen].
Defined.

Definition ex_probe (w : nat) (c : string) : nat * (go_error + string) := (w, inr "tellor-1").
Definition ex_grpc_start : @St nat string * go unit :=
  connectInitialGRPCEndpoint ex_factory (mkSt 0 (Some (mkManager ["b"; "c"] 0)) None []).

Lemma grpc_connections_accounted_witness :
  ex_grpc_start.2 = Ok tt /\ client ex_grpc_start.1 = Some "c" /\
  forall ops st' pending,
    foldl (grpc_step ex_factory (fun w _ => w) (fun _ => false) (fun _ => Unknown) ex_probe "tellor-1")
      (ex_grpc_start.1, []) ops = (st', pending) ->
    exists conn, client st' = Some conn /\
      omap created_of (events st') ≡ₚ omap closed_of (events st') ++ conn :: pending.
Proof.
  split; [vm_compute; reflexivity|]. split; [vm_compute; reflexivity|].
  exact (grpc_connections_accounted ex_factory (fun w _ => w) (fun _ => false) (fun _ => Unknown)
    ex_probe "tellor-1" ["b"; "c"] 0 (mkManager ["b"; "c"] 0) _ (Ok tt) eq_refl
    ltac:(vm_compute; reflexivity)).
Defined.

(** One endpoint accepts the transaction and one knows it already: a failure or a
    success, by the order of arrival. *)
Definition ex_answer (c : string * string) : broadcastResult :=
  mkBroadcastResult c.2
    (Some (if decide (c.1 = "a") then mkTxResponse 0 "" "AB"
           else mkTxResponse 19 "tx already in mempool" "AB")) None.

Lemma broadcast_correct_witness :
  let run arrival := broadcastTxToAllEndpoints ex_factory arrival ex_st in
  (exists r, (run (fun cs => ex_answer <$> cs)).2 = Some r /\ handled r = Ok tt) /\
  (exists r, (run (fun cs => reverse (ex_answer <$> cs))).2 = Some r /\ exists e, handled r = Err e).
Proof.
  split.
  - destruct (broadcast_correct ex_factory (fun cs => ex_answer <$> cs) ex_answer ex_st
      _ _ _ eq_refl) as (r & Hr & _ & Hiff & _); [done|done|].
    exists r. rewrite Hr. split; [done|]. apply Hiff.
    exists [], (ex_answer ("a", "a")), [ex_answer ("c", "c")]. split; [reflexivity|].
    split; [constructor|]. split; [done|]. by eexists.
  - eexists. split; [vm_compute; reflexivity|]. vm_compute. by eexists.
Defined.
