(* ===== verification/Queries.v ===== *)
(** * reporter/client: queries with fallback

    A query of a node: the closure that [withGRPCFallback] of client.go calls until a
    node answers, with what a caller learns from its answer. *)
From S2P Require Import Prelude Text Endpoints.

Section Queries.
Context {W Client : Type}.
(** The parameters of Endpoints. *)
Variable factory : W -> string -> W * (go_error + Client).
Variable CloseConnection : W -> Client -> W.
Variable ctxDone : W -> bool.
Variable status_Code : go_error -> grpc_code.

(** ** A query with fallback

    The closure assigns the response, or nil with an error, to a variable: the second
    part of the world of the operation. *)
Definition call_query {R} (call : W -> Client -> W * (go_error + R)) (w : W * option R) (c : Client) :
    (W * option R) * option go_error :=
  let '(w', r) := call w.1 c in
  match r with inl err => ((w', None), Some err) | inr x => ((w', Some x), None) end.

Definition ask {R} (operation : string) (call : W -> Client -> W * (go_error + R)) (st : @St W Client) :
    @St W Client * go R :=
  let '(st', r) :=
    withGRPCFallback (fun w endpoint => let '(w', c) := factory w.1 endpoint in ((w', w.2), c))
      (fun w c => (CloseConnection w.1 c, w.2)) (fun w => ctxDone w.1) status_Code operation (call_query call)
      (with_world (world st, None) st) in
  (with_world (world st').1 st',
   match r with
   | Ok _ => match (world st').2 with Some x => Ok x | None => Panic NilDereference end
   | Err err => Err err
   | Panic p => Panic p
   end).

(** ** What withGRPCFallback does to the world *)
Section World.
Variable fd : bool -> option go_error -> bool.
Variable operation : string.
Variable call : W -> Client -> W * option go_error.

Lemma do_call_world c st :
  exists w err, call (world st) c = (w, err) /\ world (do_call ctxDone fd call c st).1 = w /\
    (do_call ctxDone fd call c st).2.1 = err.
Proof. unfold do_call. destruct (call (world st) c) as [w err]. by exists w, err. Qed.

(** A success leaves the world of a successful call. *)
Variable P : W -> Prop.
Hypothesis call_P : forall w c w', call w c = (w', None) -> P w'.

Lemma attempts_success t switch n lastErr st st' :
  attempts ctxDone fd operation call t switch n lastErr st = (st', Ok tt) -> P (world st').
Proof using call_P.
  revert lastErr st. induction n as [|n IH]; intros lastErr st; cbn [attempts]; [done|].
  destruct (switch st) as [st1 [[ep c]|e|p]]; try done.
  destruct (do_call_world c st1) as (w & err & Ec & Ew & Ee). destruct (do_call ctxDone fd call c st1) as [st2 [err' retry]].
  cbn in *. subst. destruct err as [e|].
  - destruct retry; [apply IH|done].
  - intros [= <-]. by eapply call_P.
Qed.

Lemma fallback_success t switch c st st' :
  fallback ctxDone fd operation call t switch c st = (st', Ok tt) -> P (world st').
Proof using call_P.
  unfold fallback. destruct (do_call_world c st) as (w & err & Ec & Ew & Ee).
  destruct (do_call ctxDone fd call c st) as [st2 [err' retry]]. cbn in *. subst. destruct err as [e|].
  - destruct retry; [|done]. destruct (manager st2); [apply attempts_success|done].
  - intros [= <-]. by eapply call_P.
Qed.
End World.

Section Order.
(** A relation that every operation of the modules respects, such as the order of the
    clock. *)
Variable R : W -> W -> Prop.
Context `{!PreOrder R}.
Hypothesis factory_R : forall w e, R w (factory w e).1.
Hypothesis close_R : forall w c, R w (CloseConnection w c).

Definition moves (f : @St W Client -> @St W Client) : Prop := forall st, R (world st) (world (f st)).

Lemma create_moves e : moves (fun st => (create factory e st).1).
Proof using factory_R. intros st. unfold create. pose proof (factory_R (world st) e). by destruct (factory (world st) e). Qed.

Lemma next_loop_moves t m offs errs : moves (fun st => (next_loop factory t m offs errs st).1).
Proof using All.
  revert errs. induction offs as [|o offs IH]; intros errs st; cbn; [done|].
  destruct (endpoints m !! _) as [e|]; cbn; [|done]. pose proof (create_moves e st) as Hc. cbn in Hc.
  destruct (create factory e st) as [st1 [err|c]]; cbn in *; [|done]. etrans; [exact Hc|apply IH].
Qed.

Lemma reconnect_moves : moves (fun st => (reconnectGRPCEndpoint factory CloseConnection st).1).
Proof using All.
  intros st. unfold reconnectGRPCEndpoint, nextConnection, next. destruct (manager st) as [m|]; cbn; [|done].
  pose proof (next_loop_moves grpc_texts m (seq 1 (endpointCount m - 1)) [] st) as Hn. cbn in Hn.
  destruct (next_loop _ _ _ _ _ st) as [st1 [[e c]|err|p]]; cbn in *; try done.
  etrans; [exact Hn|]. destruct (client st); cbn; [apply close_R|done].
Qed.

Section Call.
Variable operation : string.
Variable call : W -> Client -> W * option go_error.
Hypothesis call_R : forall w c, R w (call w c).1.

Lemma do_call_moves fd c : moves (fun st => (do_call ctxDone fd call c st).1).
Proof using call_R. intros st. unfold do_call. pose proof (call_R (world st) c). by destruct (call (world st) c). Qed.

Lemma withGRPCFallback_moves :
  moves (fun st => (withGRPCFallback factory CloseConnection ctxDone status_Code operation call st).1).
Proof using All.
  intros st. unfold withGRPCFallback, fallback. destruct (client st) as [c|]; cbn; [|done].
  set (fd := shouldFallbackGRPCError status_Code).
  pose proof (do_call_moves fd c st) as Hc. cbn in Hc.
  destruct (do_call _ fd call c st) as [st1 [err retry]]; cbn in *.
  destruct err as [e|]; cbn; [|done]. destruct retry; cbn; [|done]. destruct (manager st1) as [m|]; cbn; [|done].
  etrans; [exact Hc|]. clear Hc. generalize (endpointCount m - 1) as n. intros n. revert e st1.
  induction n as [|n IH]; intros e st1; cbn [attempts]; [done|].
  pose proof (reconnect_moves st1) as Hr. cbn in Hr.
  destruct (reconnectGRPCEndpoint _ _ st1) as [st2 [[ep c2]|e2|p]]; cbn in *; try done.
  pose proof (do_call_moves fd c2 st2) as Hc. cbn in Hc.
  destruct (do_call _ fd call c2 st2) as [st3 [err3 retry3]]; cbn in *.
  destruct err3 as [e3|]; [destruct retry3|]; cbn; (etrans; [exact Hr|]); (etrans; [exact Hc|]); try done.
Qed.
End Call.
End Order.
End Queries.

(** ** What a caller learns *)
Section Ask.
Context {W Client R : Type}.
Variable factory : W -> string -> W * (go_error + Client).
Variable CloseConnection : W -> Client -> W.
Variable ctxDone : W -> bool.
Variable status_Code : go_error -> grpc_code.

(** The answer of some call. *)
Definition answered (call : W -> Client -> W * (go_error + R)) (x : R) : Prop := exists w c w', call w c = (w', inr x).

Notation ask := (ask factory CloseConnection ctxDone status_Code).

Lemma ask_Ok operation call st st' (x : R) : ask operation call st = (st', Ok x) -> answered call x.
Proof.
  unfold Queries.ask, withGRPCFallback. cbn [client with_world]. destruct (client st) as [c|]; [|by intros; simplify_eq].
  match goal with |- context [fallback ?cd ?fd ?op ?k ?t ?sw c ?s0] =>
    pose proof (fallback_success cd fd op k (fun w => exists x, w.2 = Some x /\ answered call x)) as Hs;
    specialize (fun H st' => Hs H t sw c s0 st'); destruct (fallback cd fd op k t sw c s0) as [st1 [[]|e|p]] end;
    [|by intros; simplify_eq..].
  assert (forall (w : W * option R) c w', call_query call w c = (w', None) -> exists x, w'.2 = Some x /\ answered call x) as Hq.
  { intros w c' w'. unfold call_query. destruct (call w.1 c') as [w1 [e|y]] eqn:Ec; [done|]. intros [= <-]. exists y.
    split; [done|]. by exists w.1, c', w1. }
  destruct (Hs Hq st1 eq_refl) as (y & Ey & Hy). rewrite Ey. intros; by simplify_eq.
Qed.

Lemma ask_moves (T : W -> W -> Prop) `{!PreOrder T} operation (call : W -> Client -> W * (go_error + R)) st :
  (forall w e, T w (factory w e).1) -> (forall w c, T w (CloseConnection w c)) -> (forall w c, T w (call w c).1) ->
  T (world st) (world (ask operation call st).1).
Proof.
  intros Hf Hc Hk. unfold Queries.ask.
  set (T2 := fun a b : W * option R => T a.1 b.1).
  assert (PreOrder T2) as HT2 by (split; [intros [? ?]; unfold T2; done|intros [? ?] [? ?] [? ?]; unfold T2; cbn; apply transitivity]).
  match goal with |- context [withGRPCFallback ?f ?cl ?cd ?sc ?op ?k ?s0] =>
    pose proof (withGRPCFallback_moves f cl cd sc T2) as Hm; specialize (fun H1 H2 H3 => Hm H1 H2 op k H3 s0); cbn in Hm end.
  match type of Hm with ?A -> ?B -> ?C -> _ => assert A as HA; [|assert B as HB; [|assert C as HC; [|specialize (Hm HA HB HC)]]] end.
  - intros [w o] e. unfold T2. cbn. pose proof (Hf w e). by destruct (factory w e).
  - intros [w o] c. apply Hc.
  - intros [w o] c. unfold T2, call_query. cbn. pose proof (Hk w c). by destruct (call w c) as [w' [|]].
  - destruct (withGRPCFallback _ _ _ _ _ _ _) as [st1 r]. exact Hm.
Qed.
End Ask.
