(* ===== verification/TokenBridge.v ===== *)
(** * token_bridge_feed/client and the caches of server/types/token_bridge

    The daemon that reads deposits from the bridge contract and enqueues reports
    of them, and that answers tips for deposits. The contract bindings, the
    Ethereum client and the ABI codec are third-party or generated: parameters
    over an arbitrary world. *)
From Stdlib Require Import Ascii.
From S2P Require Import Prelude Text.
Local Open Scope Z_scope.

Notation bytes := (list Z) (only parsing).

(** ** The caches: server/types/token_bridge, server/types/token_bridge_tips

    Both are queues behind a lock. A slice is its contents: the slices handed out
    by [GetReports] and [GetTips], which share the array, have no reader in the
    program, and the byte slices inside are never written. *)
Record DepositReport := mkDepositReport { QueryData : bytes; Value : bytes }.

#[export] Instance DepositReport_eq_dec : EqDecision DepositReport.
Proof. solve_decision. Defined.

Section Queue.
Context {A : Type} `{EqDecision A}.

Definition queue_add (l : list A) (x : A) : list A := l ++ [x].

Fixpoint queue_remove (l : list A) (x : A) : list A :=
  match l with
  | [] => []
  | y :: l => if decide (y = x) then l else y :: queue_remove l x
  end.

Definition queue_remove_oldest (l : list A) : list A :=
  match l with [] => [] | _ :: l => l end.

Definition queue_oldest (l : list A) : go A :=
  match l with [] => Err (ErrNew "no pending deposits") | x :: _ => Ok x end.
End Queue.

Definition DepositReports := list DepositReport.
Definition AddReport (d : DepositReports) (report : DepositReport) : DepositReports := queue_add d report.
Definition RemoveReport (d : DepositReports) (report : DepositReport) : DepositReports := queue_remove d report.
Definition RemoveOldestReport (d : DepositReports) : DepositReports := queue_remove_oldest d.
Definition GetOldestReport (d : DepositReports) : go DepositReport := queue_oldest d.

(** A tip is the query data of a deposit. *)
Definition DepositTips := list bytes.
Definition AddTip (d : DepositTips) (tip : bytes) : DepositTips := queue_add d tip.
Definition RemoveTip (d : DepositTips) (tip : bytes) : DepositTips := queue_remove d tip.
Definition RemoveOldestTip (d : DepositTips) : DepositTips := queue_remove_oldest d.
Definition GetOldestTip (d : DepositTips) : go bytes := queue_oldest d.

(** server/tokenbridgefeed.go, server/tokenbridgetips.go: [None] is a cache that
    was not set. *)
Definition GetPendingDepositReport (cache : option DepositReports) : go DepositReport :=
  match cache with
  | None => Panic (PanicMsg "server not initialized correctly, tokenDepositsCache not initialized")
  | Some d => GetOldestReport d
  end.

Definition GetPendingDepositTip (cache : option DepositTips) : go bytes :=
  match cache with
  | None => Panic (PanicMsg "server not initialized correctly, tokenTipsCache not initialized")
  | Some d => GetOldestTip d
  end.

(** ** utils/eth_rpc.go: lists of endpoints *)
Definition ParseEndpointList (value : string) : go (list string) :=
  mapM_go (fun part =>
    let endpoint := strings_TrimSpace part in
    if decide (endpoint = "") then Err (ErrNew "endpoint list contains an empty entry")
    else Ok endpoint) (strings_Split value ","%char).

Definition RPCNodesFromEnv (Getenv : string -> string) (name : string) : go (list string) :=
  let value := strings_TrimSpace (Getenv name) in
  if decide (value = "") then Err (ErrNew (name +:+ " not set"))
  else match ParseEndpointList value with
       | Err err => Err (wrapf name err)
       | r => r
       end.

Definition BridgeChainRPCNodesFromEnv (Getenv : string -> string) : go (list string) :=
  RPCNodesFromEnv Getenv "BRIDGE_CHAIN_RPC_NODES".
Definition ETHMainnetRPCNodesFromEnv (Getenv : string -> string) : go (list string) :=
  RPCNodesFromEnv Getenv "ETH_MAINNET_RPC_NODES".

(** ** The client *)

(** A deposit as the contract returns it, and the receipt the client makes of it. *)
Record contractDeposit (Address : Type) := mkContractDeposit {
  d_Sender : Address; d_Recipient : string; d_Amount : Z; d_Tip : Z; d_BlockHeight : Z
}.
Record DepositReceipt (Address : Type) := mkDepositReceipt {
  DepositId : Z; Sender : Address; Recipient : string; Amount : Z; Tip : Z; BlockHeight : Z
}.
Arguments mkContractDeposit {Address}.
Arguments d_Sender {Address}.
Arguments d_Recipient {Address}.
Arguments d_Amount {Address}.
Arguments d_Tip {Address}.
Arguments d_BlockHeight {Address}.
Arguments mkDepositReceipt {Address}.
Arguments DepositId {Address}.
Arguments Sender {Address}.
Arguments Recipient {Address}.
Arguments Amount {Address}.
Arguments Tip {Address}.
Arguments BlockHeight {Address}.

Definition tokenBridgeContractByChainID : list (string * string) :=
  [("tellor-1", "0x6ec401744008f4B018Ed9A36f76e6629799Ee50E");
   ("layertest-5", "0x55355157703A44f7516FBB831333317E98944e32")].

(** [%q] of a text without characters to escape. *)
Definition quoted (s : string) : string :=
  let q := String (ascii_of_nat 34) EmptyString in q +:+ s +:+ q.

(** The packages the client calls: the environment, the Ethereum client with the
    generated contract bindings, and the ABI codec of go-ethereum. *)
Class BridgeLibs (W Conn Address : Type) := {
  Getenv : string -> string;
  IsHexAddress : string -> bool;
  HexToAddress : string -> Address;
  DialContext : W -> string -> W * (go_error + Conn);
  NewTokenBridgeV2 : W -> Address -> Conn -> W * option go_error;
  CloseClient : W -> Conn -> W;
  contract_DepositId : W -> Conn -> W * (go_error + Z);
  contract_Initialized : W -> Conn -> W * (go_error + bool);
  contract_Deposits : W -> Conn -> Z -> W * (go_error + contractDeposit Address);
  BlockNumber : W -> Conn -> W * (go_error + Z);
  pack_bool_uint : bool -> Z -> go_error + bytes;
  pack_string_bytes : string -> bytes -> go_error + bytes;
  pack_report : Address -> string -> Z -> Z -> go_error + bytes;
  unpack_string_bytes : bytes -> go_error + (string * bytes);
  unpack_bool_uint : bytes -> go_error + (bool * Z)
}.

(** The result of a call that does not panic. *)
Definition returned {A} (r : go_error + A) : go A :=
  match r with inr a => Ok a | inl e => Err e end.

Section TokenBridge.
Context {W Conn Address : Type} `{Libs : BridgeLibs W Conn Address}.

(** [strings.TrimSpace(chainID)] of [newClient]. *)
Variable chainID : string.

Record BridgeClient := mkBridgeClient {
  lastReportedDepositId : option Z;
  tokenDepositsCache : DepositReports;
  tokenBridgeTipsCache : DepositTips;
  ethRPCConnections : list (string * Conn)
}.

Definition with_connections (conns : list (string * Conn)) (c : BridgeClient) : BridgeClient :=
  mkBridgeClient (lastReportedDepositId c) (tokenDepositsCache c) (tokenBridgeTipsCache c) conns.
Definition with_tips (tips : DepositTips) (c : BridgeClient) : BridgeClient :=
  mkBridgeClient (lastReportedDepositId c) (tokenDepositsCache c) tips (ethRPCConnections c).
Definition with_reports (reports : DepositReports) (c : BridgeClient) : BridgeClient :=
  mkBridgeClient (lastReportedDepositId c) reports (tokenBridgeTipsCache c) (ethRPCConnections c).

(** *** Connections *)
Definition getTokenBridgeContractAddress : go Address :=
  match list_find (fun '(id, _) => id = strings_ToLower (strings_TrimSpace chainID))
          tokenBridgeContractByChainID with
  | Some (_, (_, address)) => Ok (HexToAddress address)
  | None =>
      let address := strings_TrimSpace (Getenv "TOKEN_BRIDGE_TEST_CONTRACT") in
      if decide (address = "") then
        Err (ErrNew ("unsupported chain ID " +:+ quoted chainID +:+
          " for token bridge contract; set TOKEN_BRIDGE_TEST_CONTRACT for local/custom chains"))
      else if negb (IsHexAddress address)
      then Err (ErrNew "TOKEN_BRIDGE_TEST_CONTRACT is not a valid ethereum address")
      else Ok (HexToAddress address)
  end.

Fixpoint closeEthClients (conns : list (string * Conn)) (w : W) : W :=
  match conns with
  | [] => w
  | (_, client) :: conns => closeEthClients conns (CloseClient w client)
  end.

Fixpoint dial_all (rpcURLs : list string) (contractAddress : Address) (w : W) :
    W * (list (string * Conn) * list string) :=
  match rpcURLs with
  | [] => (w, ([], []))
  | rpcURL :: rpcURLs =>
      let failed w err :=
        let '(w, (conns, errs)) := dial_all rpcURLs contractAddress w in
        (w, (conns, (rpcURL +:+ ": " +:+ error_text err) :: errs)) in
      match DialContext w rpcURL with
      | (w, inl err) => failed w err
      | (w, inr client) =>
          match NewTokenBridgeV2 w contractAddress client with
          | (w, Some err) => failed (CloseClient w client) err
          | (w, None) =>
              let '(w, (conns, errs)) := dial_all rpcURLs contractAddress w in
              (w, ((rpcURL, client) :: conns, errs))
          end
      end
  end.

Definition connectEthRPCs (rpcURLs : list string) (contractAddress : Address) (w : W) (c : BridgeClient) :
    W * BridgeClient * go unit :=
  let w := closeEthClients (ethRPCConnections c) w in
  let '(w, (conns, errs)) := dial_all rpcURLs contractAddress w in
  (w, with_connections conns c,
   match conns, errs with
   | [], [] => Err (ErrNew "no ETH RPC endpoints configured")
   | [], _ => Err (ErrNew ("failed to initialize ETH RPC endpoints: " +:+ strings_Join errs "; "))
   | _, _ => Ok tt
   end).

Definition initializeClientsAndContracts (w : W) (c : BridgeClient) : W * BridgeClient * go unit :=
  match BridgeChainRPCNodesFromEnv Getenv with
  | Err err => (w, c, Err (wrapf "failed to get bridge chain RPC URLs" err))
  | Panic p => (w, c, Panic p)
  | Ok rpcURLs =>
      match getTokenBridgeContractAddress with
      | Err err => (w, c, Err (wrapf "failed to get token bridge contract address" err))
      | Panic p => (w, c, Panic p)
      | Ok contractAddress => connectEthRPCs rpcURLs contractAddress w c
      end
  end.

(** [for _, conn := range c.ethRPCConnections]: the first answer that is not an
    error, else the last error ([None] without connections). *)
Fixpoint first_answer {A} (query : W -> Conn -> W * (go_error + A)) (lastErr : option go_error)
    (conns : list (string * Conn)) (w : W) : W * (option go_error + A) :=
  match conns with
  | [] => (w, inl lastErr)
  | (_, conn) :: conns =>
      match query w conn with
      | (w, inr a) => (w, inr a)
      | (w, inl err) => first_answer query (Some err) conns w
      end
  end.

(** [fmt.Errorf("msg: %w", lastErr)]; without a connection [lastErr] is nil. *)
Definition wrap_last (msg : string) (lastErr : option go_error) : go_error :=
  match lastErr with
  | Some err => wrapf msg err
  | None => ErrNew (msg +:+ ": %!w(<nil>)")
  end.

Definition QueryCurrentDepositId (c : BridgeClient) (w : W) : W * go Z :=
  match first_answer contract_DepositId None (ethRPCConnections c) w with
  | (w, inr depositId) => (w, Ok depositId)
  | (w, inl lastErr) => (w, Err (wrap_last "failed to query deposit ID from all ETH RPC endpoints" lastErr))
  end.

Definition QueryHasContractBeenInitialized (c : BridgeClient) (w : W) : W * go bool :=
  match first_answer contract_Initialized None (ethRPCConnections c) w with
  | (w, inr initialized) => (w, Ok initialized)
  | (w, inl lastErr) =>
      (w, Err (wrap_last "failed to query has contract been initialized from all ETH RPC endpoints" lastErr))
  end.

(** Without connections the deposit keeps its zero value, whose amount is a nil
    pointer. *)
Definition QueryDepositDetails (depositId : Z) (c : BridgeClient) (w : W) : W * go (DepositReceipt Address) :=
  match first_answer (fun w conn => contract_Deposits w conn depositId) None (ethRPCConnections c) w with
  | (w, inl (Some err)) =>
      (w, Err (wrapf "failed to query deposit details from all ETH RPC endpoints" err))
  | (w, inl None) => (w, Panic NilDereference)
  | (w, inr deposit) =>
      (w, if (d_Amount deposit =? 0) || (d_BlockHeight deposit =? 0)
          then Err (ErrNew "deposit details are not available yet. RPC returned zero values")
          else Ok (mkDepositReceipt depositId (d_Sender deposit) (d_Recipient deposit)
                     (d_Amount deposit) (d_Tip deposit) (d_BlockHeight deposit)))
  end.

Definition CheckForFinality (blockHeight : Z) (c : BridgeClient) (w : W) : W * go bool :=
  match first_answer BlockNumber None (ethRPCConnections c) w with
  | (w, inl (Some err)) =>
      (w, Err (wrapf "failed to query block number from all ETH RPC endpoints" err))
  | (w, inl None) => (w, Ok (100 <=? 0 - blockHeight))
  | (w, inr currentBlock) => (w, Ok (100 <=? currentBlock - blockHeight))
  end.

(** *** Encoding *)
Definition EncodeQueryData (depositReceipt : DepositReceipt Address) : go bytes :=
  queryDataArgsEncoded ← returned (pack_bool_uint true (DepositId depositReceipt));
  returned (pack_string_bytes "TRBBridgeV2" queryDataArgsEncoded).

Definition EncodeReportValue (depositReceipt : DepositReceipt Address) : go bytes :=
  returned (pack_report (Sender depositReceipt) (Recipient depositReceipt) (Amount depositReceipt) (Tip depositReceipt)).

Definition DecodeQueryData (queryData : bytes) : go (string * Z) :=
  '(queryType, innerData) ← returned (unpack_string_bytes queryData);
  '(isDeposit, depositId) ← returned (unpack_bool_uint innerData);
  if negb isDeposit then Err (ErrNew "tip is not a deposit")
  else Ok (queryType, depositId).

(** *** Deposits *)

Definition InitializeDeposits (w : W) (c : BridgeClient) : W * BridgeClient * go unit :=
  let '(w, c, r) :=
    match ethRPCConnections c with
    | [] => initializeClientsAndContracts w c
    | _ => (w, c, Ok tt)
    end in
  match r with
  | Err err => (w, c, Err (wrapf "failed to initialize clients and contracts" err))
  | Panic p => (w, c, Panic p)
  | Ok _ =>
      match QueryCurrentDepositId c w with
      | (w, Err err) => (w, c, Err (wrapf "failed to query the latest deposit ID" err))
      | (w, Panic p) => (w, c, Panic p)
      | (w, Ok latestDepositId) =>
          (w, mkBridgeClient (Some latestDepositId) (tokenDepositsCache c) (tokenBridgeTipsCache c)
                (ethRPCConnections c), Ok tt)
      end
  end.

(** The loop over [retries]: [n] attempts are left. A failed reconnection is only
    logged. *)
Fixpoint latest_deposit_id (n : nat) (w : W) (c : BridgeClient) : W * BridgeClient * go Z :=
  match n with
  | O => (w, c, Panic NilDereference)
  | S n =>
      match QueryCurrentDepositId c w with
      | (w, Ok latestDepositId) => (w, c, Ok latestDepositId)
      | (w, Panic p) => (w, c, Panic p)
      | (w, Err err) =>
          match n with
          | O => (w, c, Err (wrapf "failed to query the latest deposit ID" err))
          | _ => let '(w, c, _) := initializeClientsAndContracts w c in latest_deposit_id n w c
          end
      end
  end.

(** [nil] when the encoding failed: the error is only logged. *)
Definition or_nil (m : go bytes) : bytes := match m with Ok b => b | _ => [] end.

Definition report_of (depositTicket : DepositReceipt Address) : DepositReport :=
  mkDepositReport (or_nil (EncodeQueryData depositTicket)) (or_nil (EncodeReportValue depositTicket)).

Definition big_Uint64 (x : Z) : Z := wrap uint64 x.

Definition QueryTokenBridgeContract (w : W) (c : BridgeClient) : W * BridgeClient * go unit :=
  match latest_deposit_id 3 w c with
  | (w, c, Err err) => (w, c, Err err)
  | (w, c, Panic p) => (w, c, Panic p)
  | (w, c, Ok latestDepositId) =>
      let last := default 0 (lastReportedDepositId c) in
      let c := mkBridgeClient (Some last) (tokenDepositsCache c) (tokenBridgeTipsCache c) (ethRPCConnections c) in
      if negb (big_Uint64 last <? big_Uint64 latestDepositId) then (w, c, Ok tt)
      else
        let nextDepositId := wrap int64 (wrap uint64 (big_Uint64 last + 1)) in
        match QueryDepositDetails nextDepositId c w with
        | (w, Err err) => (w, c, Err (wrapf "failed to query deposit details" err))
        | (w, Panic p) => (w, c, Panic p)
        | (w, Ok depositTicket) =>
            match CheckForFinality (BlockHeight depositTicket) c w with
            | (w, Err err) => (w, c, Err (wrapf "failed to check if block height is final" err))
            | (w, Panic p) => (w, c, Panic p)
            | (w, Ok false) => (w, c, Ok tt)
            | (w, Ok true) =>
                (w, mkBridgeClient (Some nextDepositId) (AddReport (tokenDepositsCache c) (report_of depositTicket))
                      (tokenBridgeTipsCache c) (ethRPCConnections c), Ok tt)
            end
        end
  end.

(** *** Tips *)
Definition ProcessPendingTips (w : W) (c : BridgeClient) : W * BridgeClient * go unit :=
  let remove_tip c := with_tips (RemoveOldestTip (tokenBridgeTipsCache c)) c in
  match GetOldestTip (tokenBridgeTipsCache c) with
  | Err _ => (w, c, Ok tt)
  | Panic p => (w, c, Panic p)
  | Ok oldestTipQueryData =>
      match DecodeQueryData oldestTipQueryData with
      | Err _ => (w, remove_tip c, Ok tt)
      | Panic p => (w, c, Panic p)
      | Ok (queryType, depositId) =>
          if negb (bool_decide (queryType = "TRBBridgeV2")) then (w, remove_tip c, Ok tt)
          else
            match QueryDepositDetails depositId c w with
            | (w, Err _) => (w, c, Ok tt)
            | (w, Panic p) => (w, c, Panic p)
            | (w, Ok depositTicket) =>
                if Amount depositTicket =? 0 then (w, remove_tip c, Ok tt)
                else
                  match CheckForFinality (BlockHeight depositTicket) c w with
                  | (w, Err _) | (w, Ok false) => (w, c, Ok tt)
                  | (w, Panic p) => (w, c, Panic p)
                  | (w, Ok true) =>
                      match EncodeReportValue depositTicket with
                      | Err _ => (w, c, Ok tt)
                      | Panic p => (w, c, Panic p)
                      | Ok reportValue =>
                          (w, remove_tip (with_reports (AddReport (tokenDepositsCache c)
                                 (mkDepositReport oldestTipQueryData reportValue)) c), Ok tt)
                      end
                  end
            end
      end
  end.

(** A tick of [start]: errors are only logged, a panic ends the process. *)
Definition tick (w : W) (c : BridgeClient) : W * BridgeClient * go unit :=
  match QueryTokenBridgeContract w c with
  | (w, c, Panic p) => (w, c, Panic p)
  | (w, c, _) =>
      match ProcessPendingTips w c with
      | (w, c, Panic p) => (w, c, Panic p)
      | (w, c, _) => (w, c, Ok tt)
      end
  end.

(** ** What the chain answered *)
Definition observed (d : DepositReceipt Address) : Prop :=
  Amount d <> 0 /\ BlockHeight d <> 0 /\
  (exists w conn w', contract_Deposits w conn (DepositId d) =
     (w', inr (mkContractDeposit (Sender d) (Recipient d) (Amount d) (Tip d) (BlockHeight d)))) /\
  exists w conn w' currentBlock, BlockNumber w conn = (w', inr currentBlock) /\
    BlockHeight d + 100 <= currentBlock.

Lemma first_answer_spec {A} (query : W -> Conn -> W * (go_error + A)) lastErr conns w :
  match (first_answer query lastErr conns w).2 with
  | inr a => exists w conn w', conn ∈ conns.*2 /\ query w conn = (w', inr a)
  | inl None => conns = [] /\ lastErr = None
  | inl (Some _) => True
  end.
Proof.
  revert lastErr w. induction conns as [|[ep conn] conns IH]; intros lastErr w; cbn [first_answer].
  { by destruct lastErr. }
  destruct (query w conn) as [w1 [err|a]] eqn:E.
  - specialize (IH (Some err) w1). destruct (first_answer _ _ _ _) as [w2 [[e|]|a]]; cbn in *; [done| |].
    + by destruct IH.
    + destruct IH as (w3 & conn' & w4 & Hc & Hq). exists w3, conn', w4. split; [by right|done].
  - exists w, conn, w1. split; [by left|done].
Qed.

Definition same_caches (c c' : BridgeClient) : Prop :=
  lastReportedDepositId c' = lastReportedDepositId c /\
  tokenDepositsCache c' = tokenDepositsCache c /\ tokenBridgeTipsCache c' = tokenBridgeTipsCache c.

Lemma initialize_same_caches w c : same_caches c (initializeClientsAndContracts w c).1.2.
Proof.
  unfold initializeClientsAndContracts, connectEthRPCs. repeat case_match; simplify_eq/=; done.
Qed.

Lemma QueryCurrentDepositId_no_panic c w p : (QueryCurrentDepositId c w).2 <> Panic p.
Proof. unfold QueryCurrentDepositId. by destruct (first_answer _ _ _ _) as [w1 [e|a]]. Qed.

Lemma latest_deposit_id_spec n w c :
  n <> O ->
  let '(_, c', r) := latest_deposit_id n w c in
  same_caches c c' /\
  match r with Panic _ => False | Err _ => True | Ok _ => ethRPCConnections c' <> [] end.
Proof.
  revert w c. induction n as [|n IH]; intros w c Hn; [done|]. cbn [latest_deposit_id].
  unfold QueryCurrentDepositId. pose proof (first_answer_spec contract_DepositId None (ethRPCConnections c) w) as Hf.
  destruct (first_answer _ _ _ _) as [w1 [lastErr|id]]; cbn in Hf.
  - destruct n as [|n]; [done|].
    pose proof (initialize_same_caches w1 c) as Hs.
    destruct (initializeClientsAndContracts w1 c) as [[w2 c2] r2]. cbn in Hs.
    specialize (IH w2 c2 ltac:(done)). destruct (latest_deposit_id (S n) w2 c2) as [[w3 c3] r3].
    destruct IH as [Hs3 Hr3]. split; [|done]. unfold same_caches in *. intuition congruence.
  - split; [done|]. intros E. rewrite E in Hf. destruct Hf as (? & ? & ? & Hin & _). by apply elem_of_nil in Hin.
Qed.

Lemma QueryDepositDetails_spec id c w :
  match (QueryDepositDetails id c w).2 with
  | Ok d => DepositId d = id /\ Amount d <> 0 /\ BlockHeight d <> 0 /\
            exists w conn w', contract_Deposits w conn (DepositId d) =
              (w', inr (mkContractDeposit (Sender d) (Recipient d) (Amount d) (Tip d) (BlockHeight d)))
  | Err _ => True
  | Panic _ => ethRPCConnections c = []
  end.
Proof.
  unfold QueryDepositDetails.
  pose proof (first_answer_spec (fun w conn => contract_Deposits w conn id) None (ethRPCConnections c) w) as Hf.
  destruct (first_answer _ _ _ _) as [w1 [[e|]|d]]; cbn in *; [done|by destruct Hf|].
  destruct (Z.eqb_spec (d_Amount d) 0) as [|Ha]; [done|].
  destruct (Z.eqb_spec (d_BlockHeight d) 0) as [|Hb]; [done|]. cbn.
  split_and!; [done..|]. destruct Hf as (w2 & conn & w3 & _ & Hq). exists w2, conn, w3. by destruct d.
Qed.

Lemma CheckForFinality_spec h c w :
  ethRPCConnections c <> [] ->
  match (CheckForFinality h c w).2 with
  | Ok true => exists w conn w' currentBlock, BlockNumber w conn = (w', inr currentBlock) /\ h + 100 <= currentBlock
  | Ok false | Err _ => True
  | Panic _ => False
  end.
Proof.
  intros Hne. unfold CheckForFinality.
  pose proof (first_answer_spec BlockNumber None (ethRPCConnections c) w) as Hf.
  destruct (first_answer _ _ _ _) as [w1 [[e|]|b]]; cbn in *; [done|by destruct Hf|].
  destruct (Z.leb_spec 100 (b - h)); [|done]. destruct Hf as (w2 & conn & w3 & _ & Hq).
  exists w2, conn, w3, b. split; [done|lia].
Qed.

Lemma next_id l :
  0 <= l < 2 ^ 63 - 1 -> wrap int64 (wrap uint64 (big_Uint64 l + 1)) = l + 1.
Proof.
  intros Hl. unfold big_Uint64.
  rewrite (wrap_small uint64 l), (wrap_small uint64), (wrap_small int64); [done|..];
    unfold go_width, in_range, min_int, max_int; cbn; lia.
Qed.

Lemma QueryTokenBridgeContract_cases w c l :
  lastReportedDepositId c = Some l -> 0 <= l < 2 ^ 63 - 1 ->
  let '(_, c', r) := QueryTokenBridgeContract w c in
  tokenBridgeTipsCache c' = tokenBridgeTipsCache c /\ (forall p, r <> Panic p) /\
  ((lastReportedDepositId c' = Some l /\ tokenDepositsCache c' = tokenDepositsCache c) \/
   exists d, DepositId d = l + 1 /\ observed d /\ lastReportedDepositId c' = Some (l + 1) /\
     tokenDepositsCache c' = tokenDepositsCache c ++ [report_of d]).
Proof.
  intros Hl Hb. unfold QueryTokenBridgeContract.
  pose proof (latest_deposit_id_spec 3 w c ltac:(done)) as Hlat.
  destruct (latest_deposit_id 3 w c) as [[w1 c1] [latest|e|p]]; destruct Hlat as [(Hl1 & Hr1 & Ht1) Hc1]; [| |done].
  2: { split; [done|]. split; [done|]. left. by rewrite Hl1, Hr1. }
  rewrite Hl in Hl1. rewrite Hl1. change (default 0 (Some l)) with l.
  destruct (negb _); [split; [done|]; split; [done|]; by left|].
  rewrite (next_id l Hb). set (c2 := mkBridgeClient (Some l) _ _ _).
  assert (ethRPCConnections c2 <> []) as Hc2 by done.
  pose proof (QueryDepositDetails_spec (l + 1) c2 w1) as Hd.
  destruct (QueryDepositDetails (l + 1) c2 w1) as [w2 [d|e|p]]; cbn [snd] in Hd; [| |by destruct Hc2].
  2: { split; [done|]. split; [done|]. by left. }
  destruct Hd as (Hid & Ha & Hbh & Hdep).
  pose proof (CheckForFinality_spec (BlockHeight d) c2 w2 Hc2) as Hf.
  destruct (CheckForFinality (BlockHeight d) c2 w2) as [w3 [[|]|e|p]]; cbn [snd] in Hf; [| | |done].
  2,3: split; [done|]; split; [done|]; by left.
  split; [done|]. split; [done|]. right. exists d. split; [done|]. split; [done|].
  cbn. by rewrite Hr1.
Qed.

Lemma QueryTokenBridgeContract_keeps_tips w c :
  tokenBridgeTipsCache (QueryTokenBridgeContract w c).1.2 = tokenBridgeTipsCache c.
Proof.
  unfold QueryTokenBridgeContract. pose proof (latest_deposit_id_spec 3 w c ltac:(done)) as Hlat.
  destruct (latest_deposit_id 3 w c) as [[w1 c1] [latest|e|p]]; destruct Hlat as [(Hl1 & Hr1 & Ht1) _]; [|done..].
  destruct (negb _); [done|]. set (c2 := mkBridgeClient _ _ _ _).
  destruct (QueryDepositDetails _ c2 w1) as [w2 [d|e|p]]; [|done..].
  by destruct (CheckForFinality _ c2 w2) as [w3 [[|]|e|p]].
Qed.

(** ** The life of the client

    Ticks interleave with what the reporter does to the caches: it adds tips and
    removes the oldest report. *)
Inductive bridge_op :=
  | ContractTick
  | TipTick
  | TipFound (queryData : bytes)
  | ReportDone.

Definition bridge_step (s : W * BridgeClient) (op : bridge_op) : go (W * BridgeClient) :=
  let '(w, c) := s in
  match op with
  | ContractTick =>
      match QueryTokenBridgeContract w c with (w, c, Panic p) => Panic p | (w, c, _) => Ok (w, c) end
  | TipTick =>
      match ProcessPendingTips w c with (w, c, Panic p) => Panic p | (w, c, _) => Ok (w, c) end
  | TipFound queryData => Ok (w, with_tips (AddTip (tokenBridgeTipsCache c) queryData) c)
  | ReportDone => Ok (w, with_reports (RemoveOldestReport (tokenDepositsCache c)) c)
  end.

(** The reports that the contract ticks append to the cache, in order. *)
Fixpoint contract_reports (ops : list bridge_op) (s : W * BridgeClient) : DepositReports :=
  match ops with
  | [] => []
  | op :: ops =>
      match bridge_step s op with
      | Ok s' =>
          match op with
          | ContractTick => drop (length (tokenDepositsCache s.2)) (tokenDepositsCache s'.2)
          | _ => []
          end ++ contract_reports ops s'
      | _ => []
      end
  end.

Lemma ProcessPendingTips_keeps_last w c :
  lastReportedDepositId (ProcessPendingTips w c).1.2 = lastReportedDepositId c.
Proof.
  unfold ProcessPendingTips. destruct (GetOldestTip _) as [q|e|p]; [|done..].
  destruct (DecodeQueryData q) as [[t id]|e|p]; [|done..]. destruct (negb _); [done|].
  destruct (QueryDepositDetails id c w) as [w1 [d|e|p]]; [|done..]. destruct (_ =? 0); [done|].
  destruct (CheckForFinality _ c w1) as [w2 [[|]|e|p]]; [|done..].
  by destruct (EncodeReportValue d).
Qed.

(** A step other than a contract tick does not change the last deposit. *)
Lemma bridge_step_keeps_last s op s' :
  bridge_step s op = Ok s' -> op <> ContractTick ->
  lastReportedDepositId s'.2 = lastReportedDepositId s.2.
Proof.
  destruct s as [w c], op as [| |q|]; intros H Hop; [done| |by injection H as <-..].
  cbn in H. pose proof (ProcessPendingTips_keeps_last w c) as Hk.
  destruct (ProcessPendingTips w c) as [[w1 c1] [u|e|p]]; by simplify_eq.
Qed.

Lemma contract_step w c l :
  lastReportedDepositId c = Some l -> 0 <= l < 2 ^ 63 - 1 ->
  exists s', bridge_step (w, c) ContractTick = Ok s' /\
    let new := drop (length (tokenDepositsCache c)) (tokenDepositsCache s'.2) in
    ((lastReportedDepositId s'.2 = Some l /\ new = []) \/
     exists d, DepositId d = l + 1 /\ observed d /\ lastReportedDepositId s'.2 = Some (l + 1) /\
       new = [report_of d]).
Proof.
  intros Hl Hb. cbn. pose proof (QueryTokenBridgeContract_cases w c l Hl Hb) as Hc.
  destruct (QueryTokenBridgeContract w c) as [[w1 c1] r]. destruct Hc as (_ & Hnp & Hc).
  exists (w1, c1). split; [destruct r; [done..|by destruct (Hnp p)]|]. cbn.
  destruct Hc as [[Hl1 ->]|(d & Hid & Ho & Hl1 & ->)]; [left|right; exists d].
  - by rewrite drop_all.
  - by rewrite drop_app_length.
Qed.

Lemma contract_run ops : forall w c l,
  lastReportedDepositId c = Some l -> 0 <= l -> l + Z.of_nat (length ops) < 2 ^ 63 - 1 ->
  exists ds, contract_reports ops (w, c) = report_of <$> ds /\
    (forall i d, ds !! i = Some d -> DepositId d = l + 1 + Z.of_nat i /\ observed d) /\
    (forall s', foldM_go bridge_step (w, c) ops = Ok s' ->
       lastReportedDepositId s'.2 = Some (l + Z.of_nat (length ds))).
Proof.
  induction ops as [|op ops IH]; intros w c l Hl Hl0 Hn; cbn [contract_reports foldM_go].
  { exists []. split; [done|]. split; [done|]. intros s' [= <-]. cbn. rewrite Hl. f_equal. lia. }
  rewrite length_cons in Hn.
  assert (op = ContractTick \/ op <> ContractTick) as [->|Hop] by (destruct op; auto).
  - destruct (contract_step w c l Hl ltac:(lia)) as ([w1 c1] & -> & [[Hl1 Hnew]|(d & Hid & Ho & Hl1 & Hnew)]);
      cbn [snd go_bind] in *; rewrite Hnew.
    + destruct (IH w1 c1 l Hl1 Hl0 ltac:(lia)) as (ds & Hds & Hall & Hlast). by exists ds.
    + destruct (IH w1 c1 (l + 1) Hl1 ltac:(lia) ltac:(lia)) as (ds & Hds & Hall & Hlast).
      exists (d :: ds). rewrite Hds. split; [done|]. split.
      * intros [|i] d'; cbn; [intros [= <-]; split; [lia|done]|].
        intros [Hd' Ho']%Hall. split; [lia|done].
      * intros s' Hs'%Hlast. rewrite Hs', length_cons. f_equal. lia.
  - destruct (bridge_step (w, c) op) as [[w1 c1]|e|p] eqn:E; cbn [go_bind].
    + pose proof (bridge_step_keeps_last _ _ _ E Hop) as Hk. cbn in Hk. rewrite Hl in Hk.
      destruct (IH w1 c1 l Hk Hl0 ltac:(lia)) as (ds & Hds & Hall & Hlast).
      exists ds. rewrite Hds. by destruct op.
    + exists []. split; [done|]. split; [done|]. intros ? [=].
    + exists []. split; [done|]. split; [done|]. intros ? [=].
Qed.

Lemma contract_progress w c l ep conn conns w1 latest w2 dep w3 currentBlock :
  lastReportedDepositId c = Some l -> 0 <= l ->
  l < latest < 2 ^ 63 -> ethRPCConnections c = (ep, conn) :: conns ->
  contract_DepositId w conn = (w1, inr latest) ->
  contract_Deposits w1 conn (l + 1) = (w2, inr dep) -> d_Amount dep <> 0 -> d_BlockHeight dep <> 0 ->
  BlockNumber w2 conn = (w3, inr currentBlock) -> d_BlockHeight dep + 100 <= currentBlock ->
  contract_reports [ContractTick] (w, c) =
    [report_of (mkDepositReceipt (l + 1) (d_Sender dep) (d_Recipient dep) (d_Amount dep) (d_Tip dep)
                  (d_BlockHeight dep))].
Proof.
  intros Hl Hl0 Hlat Hc Hid Hdep Ha Hb Hbn Hfin. cbn [contract_reports bridge_step].
  unfold QueryTokenBridgeContract. cbn [latest_deposit_id]. unfold QueryCurrentDepositId.
  rewrite Hc. cbn [first_answer]. rewrite Hid, Hl. change (default 0 (Some l)) with l.
  rewrite (next_id l) by lia. unfold big_Uint64.
  rewrite (wrap_small uint64 l), (wrap_small uint64 latest)
    by (unfold go_width, in_range, min_int, max_int; cbn; lia).
  replace (negb (l <? latest)) with false by lia.
  unfold QueryDepositDetails, CheckForFinality. cbn [ethRPCConnections]. rewrite Hc. cbn [first_answer].
  rewrite Hdep. cbn [d_Amount]. rewrite (proj2 (Z.eqb_neq _ _) Ha), (proj2 (Z.eqb_neq _ _) Hb). cbn [orb BlockHeight].
  rewrite Hbn. replace (100 <=? currentBlock - d_BlockHeight dep) with true by lia.
  cbn [snd tokenDepositsCache]. unfold AddReport, queue_add. by rewrite drop_app_length, app_nil_r.
Qed.

(** C12: Deposits are reported in order, each exactly once: whatever the reporter
    does to the caches meanwhile and whatever the nodes answer, the reports that
    the contract ticks enqueue are those of the deposits that follow the last
    reported one, with consecutive ids, each with a nonzero amount and at least
    100 blocks deep according to a node; the id kept is that of the last one. A
    contract tick never panics. And it makes progress: it enqueues the next
    deposit when the first node answers that there is one and that it is final. *)
Theorem deposits_in_order w c l :
  lastReportedDepositId c = Some l -> 0 <= l ->
  (forall ops, l + Z.of_nat (length ops) < 2 ^ 63 - 1 ->
    exists ds, contract_reports ops (w, c) = report_of <$> ds /\
      (forall i d, ds !! i = Some d -> DepositId d = l + 1 + Z.of_nat i /\ observed d) /\
      (forall s', foldM_go bridge_step (w, c) ops = Ok s' ->
         lastReportedDepositId s'.2 = Some (l + Z.of_nat (length ds)))) /\
  (l < 2 ^ 63 - 1 -> exists s', bridge_step (w, c) ContractTick = Ok s') /\
  (forall ep conn conns w1 latest w2 dep w3 currentBlock,
    l < latest < 2 ^ 63 -> ethRPCConnections c = (ep, conn) :: conns ->
    contract_DepositId w conn = (w1, inr latest) ->
    contract_Deposits w1 conn (l + 1) = (w2, inr dep) -> d_Amount dep <> 0 -> d_BlockHeight dep <> 0 ->
    BlockNumber w2 conn = (w3, inr currentBlock) -> d_BlockHeight dep + 100 <= currentBlock ->
    contract_reports [ContractTick] (w, c) =
      [report_of (mkDepositReceipt (l + 1) (d_Sender dep) (d_Recipient dep) (d_Amount dep) (d_Tip dep)
                    (d_BlockHeight dep))]).
Proof.
  intros Hl Hl0. split_and!.
  - intros ops. by apply contract_run.
  - intros Hb. destruct (contract_step w c l Hl ltac:(lia)) as (s' & -> & _). by exists s'.
  - intros. by eapply contract_progress.
Qed.

(** ** Tips *)
Lemma DecodeQueryData_no_panic q p : DecodeQueryData q <> Panic p.
Proof.
  unfold DecodeQueryData. destruct (unpack_string_bytes q) as [e|[t inner]]; cbn; [done|].
  destruct (unpack_bool_uint inner) as [e|[[|] id]]; done.
Qed.

Lemma EncodeReportValue_no_panic d p : EncodeReportValue d <> Panic p.
Proof. unfold EncodeReportValue. by destruct (pack_report _ _ _ _). Qed.

(** The deposit that a tip asks for. *)
Definition tipped_deposit (tip : bytes) : option Z :=
  match DecodeQueryData tip with
  | Ok (queryType, depositId) => if decide (queryType = "TRBBridgeV2") then Some depositId else None
  | _ => None
  end.

Lemma ProcessPendingTips_unfold w c tip tips :
  tokenBridgeTipsCache c = tip :: tips ->
  ProcessPendingTips w c =
    match tipped_deposit tip with
    | None => (w, with_tips tips c, Ok tt)
    | Some depositId =>
        match QueryDepositDetails depositId c w with
        | (w, Err _) => (w, c, Ok tt)
        | (w, Panic p) => (w, c, Panic p)
        | (w, Ok depositTicket) =>
            match CheckForFinality (BlockHeight depositTicket) c w with
            | (w, Ok true) =>
                match EncodeReportValue depositTicket with
                | Ok reportValue =>
                    (w, with_tips tips (with_reports (AddReport (tokenDepositsCache c)
                          (mkDepositReport tip reportValue)) c), Ok tt)
                | _ => (w, c, Ok tt)
                end
            | (w, Panic p) => (w, c, Panic p)
            | (w, _) => (w, c, Ok tt)
            end
        end
    end.
Proof.
  intros Ht. unfold ProcessPendingTips, tipped_deposit, GetOldestTip, RemoveOldestTip. rewrite Ht. cbn [queue_oldest].
  pose proof (DecodeQueryData_no_panic tip) as Hp.
  destruct (DecodeQueryData tip) as [[t id]|e|p]; [|done|by destruct (Hp p)].
  case_decide as Hd; [rewrite (bool_decide_eq_true_2 _ Hd)|by rewrite (bool_decide_eq_false_2 _ Hd)]. cbn [negb].
  pose proof (QueryDepositDetails_spec id c w) as Hq.
  destruct (QueryDepositDetails id c w) as [w1 [d|e|p]]; cbn [snd] in Hq; [|done..].
  destruct Hq as (_ & Ha & _). rewrite (proj2 (Z.eqb_neq _ _) Ha).
  destruct (CheckForFinality _ c w1) as [w2 [[|]|e|p]]; [|done..].
  pose proof (EncodeReportValue_no_panic d) as He.
  destruct (EncodeReportValue d) as [v|e|p]; [|done|by destruct (He p)].
  cbn [with_reports tokenBridgeTipsCache]. by rewrite Ht.
Qed.

(** C13: Tips are answered from the oldest. A tip that is not for a bridge deposit
    is dropped. Otherwise the client panics when it has no connection, and else
    keeps its state, or replaces the tip by a report of exactly its query data and
    the encoded value of its deposit, which has a nonzero amount and is at least
    100 blocks deep according to a node. *)
Theorem ProcessPendingTips_correct w c :
  let '(_, c', r) := ProcessPendingTips w c in
  match tokenBridgeTipsCache c with
  | [] => c' = c /\ r = Ok tt
  | tip :: tips =>
      match tipped_deposit tip with
      | None => c' = with_tips tips c /\ r = Ok tt
      | Some depositId =>
          match ethRPCConnections c with
          | [] => c' = c /\ r = Panic NilDereference
          | _ => r = Ok tt /\
              (c' = c \/ exists d value, DepositId d = depositId /\ observed d /\
                 EncodeReportValue d = Ok value /\
                 c' = with_tips tips (with_reports (tokenDepositsCache c ++ [mkDepositReport tip value]) c))
          end
      end
  end.
Proof.
  destruct (tokenBridgeTipsCache c) as [|tip tips] eqn:Ht.
  { unfold ProcessPendingTips, GetOldestTip. by rewrite Ht. }
  rewrite (ProcessPendingTips_unfold _ _ _ _ Ht). destruct (tipped_deposit tip) as [id|]; [|done].
  destruct (ethRPCConnections c) as [|cn conns] eqn:Hc.
  { unfold QueryDepositDetails. by rewrite Hc. }
  pose proof (QueryDepositDetails_spec id c w) as Hq. rewrite Hc in Hq.
  destruct (QueryDepositDetails id c w) as [w1 [d|e|p]]; cbn [snd] in Hq; [|by auto|done].
  destruct Hq as (Hid & Ha & Hb & Hdep).
  pose proof (CheckForFinality_spec (BlockHeight d) c w1 ltac:(by rewrite Hc)) as Hf.
  destruct (CheckForFinality (BlockHeight d) c w1) as [w2 [[|]|e|p]]; cbn [snd] in Hf; [|by auto|by auto|done].
  destruct (EncodeReportValue d) as [v|e|p] eqn:He; [|by auto..].
  split; [done|]. right. by exists d, v.
Qed.

(** A tip for a deposit that the contract does not have (its amount is 0) is
    never removed, so no later tip is ever answered: from then on, whatever
    happens, it stays the oldest tip and the tips behind it only grow. *)
Theorem missing_deposit_blocks_tips tip depositId w c ops w' c' tips :
  tokenBridgeTipsCache c = tip :: tips -> tipped_deposit tip = Some depositId ->
  (forall w conn w' dep, contract_Deposits w conn depositId = (w', inr dep) -> d_Amount dep = 0) ->
  foldM_go bridge_step (w, c) ops = Ok (w', c') ->
  exists later, tokenBridgeTipsCache c' = tip :: tips ++ later.
Proof.
  intros Ht Htip Hmissing. revert w c tips Ht. induction ops as [|op ops IH]; intros w c tips Ht; cbn [foldM_go].
  { intros [= <- <-]. exists []. by rewrite app_nil_r. }
  intros ([w1 c1] & Hs & Hrun)%go_bind_Ok.
  assert (exists more, tokenBridgeTipsCache c1 = tip :: tips ++ more) as [more Hm].
  { destruct op as [| |q|]; cbn in Hs.
    - pose proof (QueryTokenBridgeContract_keeps_tips w c) as Hk.
      destruct (QueryTokenBridgeContract w c) as [[w2 c2] r]. cbn in Hk. exists []. rewrite app_nil_r, <- Ht, <- Hk.
      destruct r; by simplify_eq.
    - rewrite (ProcessPendingTips_unfold _ _ _ _ Ht), Htip in Hs. exists []. rewrite app_nil_r, <- Ht.
      pose proof (QueryDepositDetails_spec depositId c w) as Hq.
      destruct (QueryDepositDetails depositId c w) as [w2 [d|e|p]]; cbn [snd] in Hq; [|by simplify_eq..].
      destruct Hq as (<- & Ha & _ & w3 & conn & w4 & Hdep). by apply Hmissing in Hdep.
    - simplify_eq. exists [q]. cbn. by rewrite Ht.
    - simplify_eq. exists []. by rewrite app_nil_r. }
  destruct (IH w1 c1 _ Hm Hrun) as [later ->]. exists (more ++ later). by rewrite app_assoc.
Qed.

(** ** Start

    [ctx_Err] is [ctx.Err()]; [wait] is the select on [ctx.Done()] and
    [time.After(retryDelay)]: whether the context is done. *)
Section Start.
Variable ctx_Err : W -> option go_error.
Variable wait : W -> W * bool.

(** The loop of [waitForContractInitialized]; [None] when [fuel] polls did not
    end it. *)
Fixpoint waitForContractInitialized (fuel : nat) (query : W -> W * go bool) (w : W) :
    option (W * go unit) :=
  let ended w := match ctx_Err w with Some err => Err err | None => Ok tt end in
  match fuel with
  | O => None
  | S fuel =>
      match ctx_Err w with
      | Some err => Some (w, Err err)
      | None =>
          match query w with
          | (w, Ok true) => Some (w, Ok tt)
          | (w, Panic p) => Some (w, Panic p)
          | (w, _) =>
              match wait w with
              | (w, true) => Some (w, ended w)
              | (w, false) => waitForContractInitialized fuel query w
              end
          end
      end
  end.

Definition newClient (reports : DepositReports) (tips : DepositTips) : BridgeClient :=
  mkBridgeClient None reports tips [].

(** [start] up to its ticker loop: [Ok] when the loop is entered. *)
Definition start (fuel : nat) (w : W) (c : BridgeClient) : option (W * BridgeClient * go unit) :=
  match initializeClientsAndContracts w c with
  | (w, c, Ok _) =>
      '(w, r) ← waitForContractInitialized fuel (QueryHasContractBeenInitialized c) w;
      match r with
      | Ok _ => Some (InitializeDeposits w c)
      | r => Some (w, c, r)
      end
  | r => Some r
  end.

Lemma initialize_Ok w c w' c' u :
  initializeClientsAndContracts w c = (w', c', Ok u) -> ethRPCConnections c' <> [].
Proof.
  unfold initializeClientsAndContracts, connectEthRPCs.
  destruct (BridgeChainRPCNodesFromEnv Getenv) as [urls|e|p]; [|done..].
  destruct getTokenBridgeContractAddress as [a|e|p]; [|done..].
  destruct (dial_all urls a _) as [w1 [[|cn conns] errs]]; [by destruct errs|].
  by intros [= _ <- _].
Qed.

(** A client that starts has connections, keeps the tips and reports it was given
    and takes the latest deposit of the contract as reported: the state from which
    deposits are reported in order. *)
Lemma start_ready fuel w c w' c' u :
  start fuel w c = Some (w', c', Ok u) ->
  ethRPCConnections c' <> [] /\ tokenDepositsCache c' = tokenDepositsCache c /\
  tokenBridgeTipsCache c' = tokenBridgeTipsCache c /\
  exists latest w0 conn w1, lastReportedDepositId c' = Some latest /\
    contract_DepositId w0 conn = (w1, inr latest).
Proof.
  unfold start. pose proof (initialize_same_caches w c) as (_ & Hr & Ht).
  destruct (initializeClientsAndContracts w c) as [[w1 c1] [u1|e|p]] eqn:E; [|done..]. cbn in Hr, Ht.
  apply initialize_Ok in E. destruct (waitForContractInitialized _ _ w1) as [[w2 r]|]; cbn; [|done].
  destruct r as [u2|e|p]; [|done..]. intros [= H]. revert H. unfold InitializeDeposits.
  destruct (ethRPCConnections c1) as [|cn conns] eqn:Hc; [done|]. rewrite <- Hc in E.
  unfold QueryCurrentDepositId. pose proof (first_answer_spec contract_DepositId None (ethRPCConnections c1) w2) as Hf.
  destruct (first_answer _ _ _ _) as [w3 [lastErr|latest]]; cbn in Hf; [done|].
  intros [= <- <- _]. cbn. split_and!; [done..|]. destruct Hf as (w4 & conn & w5 & _ & Hq). by exists latest, w4, conn, w5.
Qed.

(** The wait ends: once the query answers true, or the context ends, within
    [fuel] polls. *)
Lemma waitForContractInitialized_ends n query w :
  forall states : nat -> W, states 0%nat = w ->
  (forall k, (k < n)%nat -> ctx_Err (states k) = None /\ exists wq,
     (query (states k)).1 = wq /\ wait wq = (states (S k), false)) ->
  (ctx_Err (states n) <> None \/ (query (states n)).2 = Ok true) ->
  exists w' r, waitForContractInitialized (S n) query w = Some (w', r).
Proof.
  revert w. induction n as [|n IH]; intros w states <- Hsteps Hend.
  - cbn. destruct (ctx_Err (states 0%nat)) as [e|]; [by eexists _, _|].
    destruct Hend as [|Hq]; [done|]. destruct (query (states 0%nat)) as [w' r]. cbn in Hq. subst r. by eexists _, _.
  - destruct (Hsteps 0%nat ltac:(lia)) as (Hc & wq & Hq & Hw). cbn [waitForContractInitialized]. rewrite Hc.
    destruct (query (states 0%nat)) as [w1 r]. cbn in Hq. subst w1.
    assert (exists w' r, waitForContractInitialized (S n) query (states 1%nat) = Some (w', r)) as H.
    { apply (IH _ (fun k => states (S k))); [done| |done]. intros k Hk. apply Hsteps. lia. }
    destruct r as [[|]|e|p]; [by eexists _, _|rewrite Hw; exact H|rewrite Hw; exact H|by eexists _, _].
Qed.
End Start.
End TokenBridge.

(** ** Round trip of the query data

    What the ABI codec of go-ethereum guarantees: decoding inverts encoding. *)
Class AbiLaws {W Conn Address : Type} (Libs : BridgeLibs W Conn Address) : Prop := {
  unpack_pack_string_bytes : forall s b data,
    pack_string_bytes s b = inr data -> unpack_string_bytes data = inr (s, b);
  unpack_pack_bool_uint : forall b n data,
    pack_bool_uint b n = inr data -> unpack_bool_uint data = inr (b, n)
}.

(** The query data of a deposit decodes to the bridge query type and the id of
    the deposit, so a tip whose query data is that of a deposit is answered for
    exactly this deposit; and query data of distinct deposits differ. *)
Theorem query_data_round_trip {W Conn Address} {Libs : BridgeLibs W Conn Address} {Laws : AbiLaws Libs}
    (d : DepositReceipt Address) queryData :
  EncodeQueryData d = Ok queryData ->
  DecodeQueryData queryData = Ok ("TRBBridgeV2", DepositId d) /\
  tipped_deposit queryData = Some (DepositId d) /\
  (forall d', EncodeQueryData d' = Ok queryData -> DepositId d' = DepositId d).
Proof.
  assert (forall d, EncodeQueryData d = Ok queryData -> DecodeQueryData queryData = Ok ("TRBBridgeV2", DepositId d))
    as Hdec.
  { clear d. intros d. unfold EncodeQueryData, DecodeQueryData.
    destruct (pack_bool_uint true (DepositId d)) as [e|inner] eqn:Hi; cbn; [done|].
    destruct (pack_string_bytes "TRBBridgeV2" inner) as [e|data] eqn:Ho; cbn; [done|]. intros [= ->].
    by rewrite (unpack_pack_string_bytes _ _ _ Ho); cbn; rewrite (unpack_pack_bool_uint _ _ _ Hi). }
  intros He. pose proof (Hdec d He) as H0. split; [done|]. split.
  - unfold tipped_deposit. by rewrite H0.
  - intros d' H1%Hdec. congruence.
Qed.

(** ** Witnesses

    A world in which the nodes answer or not, with the id of the latest deposit
    and the height. The contract has the deposits 1 to 4. *)
Record ex_node := ExNode { ex_up : bool; ex_latest : Z; ex_height : Z }.
Definition ex_amount (id : Z) : Z := if id <=? 4 then 10 * id else 0.

Definition ex_answer_of {A} (n : ex_node) (a : A) : ex_node * (go_error + A) :=
  (n, if ex_up n then inr a else inl (ErrNew "connection refused")).

Definition ex_env (name : string) : string :=
  if decide (name = "BRIDGE_CHAIN_RPC_NODES") then "http://a , http://b" else "".

#[local] Instance ex_libs : BridgeLibs ex_node unit string := {|
  Getenv := ex_env;
  IsHexAddress := fun _ => true;
  HexToAddress := fun s => s;
  DialContext := fun n _ => ex_answer_of n tt;
  NewTokenBridgeV2 := fun n _ _ => (n, None);
  CloseClient := fun n _ => n;
  contract_DepositId := fun n _ => ex_answer_of n (ex_latest n);
  contract_Initialized := fun n _ => ex_answer_of n true;
  contract_Deposits := fun n _ id => ex_answer_of n (mkContractDeposit "0xab" "tellor1" (ex_amount id) 1 50);
  BlockNumber := fun n _ => ex_answer_of n (ex_height n);
  pack_bool_uint := fun b id => inr [Z.b2z b; id];
  pack_string_bytes := fun s inner => if decide (s = "TRBBridgeV2") then inr (7 :: inner) else inl (ErrNew "type");
  pack_report := fun _ _ amount tip => inr [amount; tip];
  unpack_string_bytes := fun data =>
    match data with 7 :: inner => inr ("TRBBridgeV2", inner) | _ => inl (ErrNew "abi") end;
  unpack_bool_uint := fun data =>
    match data with [1; id] => inr (true, id) | [0; id] => inr (false, id) | _ => inl (ErrNew "abi") end
|}.

Definition ex_bridge_laws : AbiLaws ex_libs.
Proof.
  split; cbn.
  - intros s b data. case_decide; [|done]. subst. by intros [= <-].
  - intros b n data [= <-]. by destruct b.
Defined.

Definition ex_up_node := ExNode true 5 200.
Definition ex_client (tips : list bytes) := mkBridgeClient (Some 2) [] tips [("http://a", tt)].

Lemma deposits_in_order_witness :
  contract_reports "tellor-1" [ContractTick; TipTick; ContractTick; ReportDone; ContractTick] (ex_up_node, ex_client [])
    = [mkDepositReport [7; 1; 3] [30; 1]; mkDepositReport [7; 1; 4] [40; 1]] /\
  exists ds : list (DepositReceipt string),
    contract_reports "tellor-1" [ContractTick; TipTick; ContractTick; ReportDone; ContractTick] (ex_up_node, ex_client [])
      = report_of <$> ds /\
    forall i d, ds !! i = Some d -> DepositId d = 2 + 1 + Z.of_nat i.
Proof.
  split; [vm_compute; reflexivity|].
  destruct (deposits_in_order "tellor-1" ex_up_node (ex_client []) 2 eq_refl ltac:(lia)) as [Hrun _].
  destruct (Hrun [ContractTick; TipTick; ContractTick; ReportDone; ContractTick] ltac:(cbn; lia)) as (ds & Hds & Hall & _).
  exists ds. split; [exact Hds|]. intros i d Hd. exact (proj1 (Hall i d Hd)).
Defined.

Lemma missing_deposit_blocks_tips_witness :
  let s := (ex_up_node, ex_client [[7; 1; 9]; [7; 1; 3]]) in
  let ops := [TipTick; ContractTick; TipFound [7; 1; 4]; TipTick; TipTick] in
  exists s', foldM_go (bridge_step "tellor-1") s ops = Ok s' /\
    exists later, tokenBridgeTipsCache s'.2 = [7; 1; 9] :: [[7; 1; 3]] ++ later.
Proof.
  cbv zeta. eexists (_, _). split; [vm_compute; reflexivity|].
  eapply (missing_deposit_blocks_tips "tellor-1" [7; 1; 9] 9) with
    (w := ex_up_node) (c := ex_client [[7; 1; 9]; [7; 1; 3]])
    (ops := [TipTick; ContractTick; TipFound [7; 1; 4]; TipTick; TipTick]).
  - reflexivity.
  - reflexivity.
  - intros w conn w' dep. cbn. unfold ex_answer_of. intros E. destruct (ex_up w); [|discriminate E]. by injection E as _ <-.
  - vm_compute; reflexivity.
Defined.

Lemma query_data_round_trip_witness :
  let d := mkDepositReceipt 3 "0xab" "tellor1" 30 1 50 in
  EncodeQueryData d = Ok [7; 1; 3] /\ DecodeQueryData [7; 1; 3] = Ok ("TRBBridgeV2", 3).
Proof.
  cbv zeta. split; [vm_compute; reflexivity|].
  exact (proj1 (query_data_round_trip (Laws := ex_bridge_laws) (mkDepositReceipt 3 "0xab" "tellor1" 30 1 50)
    [7; 1; 3] ltac:(vm_compute; reflexivity))).
Defined.

(** The nodes go down while a tip is pending: the contract query fails and its
    reconnection leaves no connection, and the tip then panics. *)
Definition ex_down_node := ExNode false 5 200.

#[local] Instance ex_libs_down : BridgeLibs ex_node unit string | 0 := {|
  Getenv := ex_env;
  IsHexAddress := fun _ => true;
  HexToAddress := fun s => s;
  DialContext := fun n _ => (n, inl (ErrNew "dial"));
  NewTokenBridgeV2 := fun n _ _ => (n, None);
  CloseClient := fun n _ => n;
  contract_DepositId := fun n _ => (n, inl (ErrNew "connection refused"));
  contract_Initialized := fun n _ => (n, inl (ErrNew "connection refused"));
  contract_Deposits := fun n _ id => (n, inl (ErrNew "connection refused"));
  BlockNumber := fun n _ => (n, inl (ErrNew "connection refused"));
  pack_bool_uint := fun b id => inr [Z.b2z b; id];
  pack_string_bytes := fun s inner => inr (7 :: inner);
  pack_report := fun _ _ amount tip => inr [amount; tip];
  unpack_string_bytes := fun data =>
    match data with 7 :: inner => inr ("TRBBridgeV2", inner) | _ => inl (ErrNew "abi") end;
  unpack_bool_uint := fun data =>
    match data with [1; id] => inr (true, id) | [0; id] => inr (false, id) | _ => inl (ErrNew "abi") end
|}.

Lemma lost_connections_panic :
  (tick (Libs := ex_libs_down) "tellor-1" ex_down_node (ex_client [[7; 1; 3]])).2 = Panic NilDereference.
Proof. vm_compute. reflexivity. Qed.
