(* ===== verification/Messages.v ===== *)
(** * reporter/client: the messages of the reporter

    The messages that the reporter puts into its channel, and what it reads of
    them. A message is its fields; [accAddr] and the other addresses are texts. *)
From S2P Require Import Prelude Text.
Local Open Scope Z_scope.

Record MsgSubmitValue := mkMsgSubmitValue { Creator : string; msg_QueryData : list Z; msg_Value : string }.

Inductive sdk_Msg :=
  | SubmitValue (m : MsgSubmitValue)
  | WithdrawTip (selector validator : string)
  | WithdrawTipToBalance (selector : string)
  | Undelegate (delegator validator : string) (amount : Z)
  | WithdrawTokens (creator recipient : string) (amount : Z).

#[export] Instance MsgSubmitValue_eq_dec : EqDecision MsgSubmitValue.
Proof. solve_decision. Defined.
#[export] Instance sdk_Msg_eq_dec : EqDecision sdk_Msg.
Proof. solve_decision. Defined.

Record TxChannelInfo := mkTxChannelInfo {
  Msg : sdk_Msg; isBridge : bool; NumRetries : Z; QueryMetaId : Z
}.

(** [reflect.TypeOf(msg).String()]. *)
Definition type_name (msg : sdk_Msg) : string :=
  match msg with
  | SubmitValue _ => "*types.MsgSubmitValue"
  | WithdrawTip _ _ => "*types.MsgWithdrawTip"
  | WithdrawTipToBalance _ => "*types.MsgWithdrawTipToBalance"
  | Undelegate _ _ _ => "*types.MsgUndelegate"
  | WithdrawTokens _ _ _ => "*types.MsgWithdrawTokens"
  end.

Definition isBridgeDepositReportMsg (msg : sdk_Msg) : bool :=
  match msg with SubmitValue _ => true | _ => false end.

(** [strings.EqualFold] on ASCII text. *)
Definition strings_EqualFold (s t : string) : bool :=
  bool_decide (strings_ToLower s = strings_ToLower t).
