(* ===== verification/Float64.v ===== *)
(** * float64 arithmetic

    The floats of the program are those of [SpecFloat], binary64. What it does with
    floats on integers (conversion from an integer, a product by 3/2 and truncation
    back) is also given on the integers: rounding to 53 bits, ties to even. The
    magnitudes there are those of uint64, so no exponent overflows or underflows. *)
From Stdlib Require Export Floats.SpecFloat.
From S2P Require Import Prelude.
Local Open Scope Z_scope.

Notation float64 := spec_float (only parsing).
Definition fzero : float64 := S754_zero false.
Definition fadd (x y : float64) : float64 := SFadd 53 1024 x y.
Definition fsub (x y : float64) : float64 := SFsub 53 1024 x y.
Definition fmul (x y : float64) : float64 := SFmul 53 1024 x y.
Definition fdiv (x y : float64) : float64 := SFdiv 53 1024 x y.
(** [x > y]. *)
Definition fgt (x y : float64) : bool := SFltb y x.

(** The integer [n >= 0] rounded to 53 significant bits. *)
Definition round53 (n : Z) : Z :=
  if n <? 2 ^ 53 then n
  else
    let u := 2 ^ (Z.log2 n - 52) in
    let q := n / u in
    let r := n mod u in
    (if (2 * r <? u) || ((2 * r =? u) && Z.even q) then q else q + 1) * u.

(** The float with the value of an integer [z >= 0] of at most 53 bits before its
    trailing zeros; [float64(n)] is [float_of_integer (round53 n)]. *)
Definition float_of_integer (z : Z) : float64 :=
  if z =? 0 then fzero
  else
    let e := Z.log2 z - 52 in
    S754_finite false (Z.to_pos (if e <? 0 then z * 2 ^ (- e) else z / 2 ^ e)) e.

(** [uint64(float64(n) * 1.5)] before the conversion to uint64: the product is
    half of [3 * float64(n)], and rounding commutes with halving. *)
Definition times_three_halves (n : Z) : Z := round53 (3 * round53 n) / 2.

Lemma round53_small n : n < 2 ^ 53 -> round53 n = n.
Proof. intros H. unfold round53. by rewrite (proj2 (Z.ltb_lt _ _) H). Qed.

(** The relative error of rounding is at most [2^-53]. *)
Lemma round53_error n : 0 <= n -> 2 ^ 53 * Z.abs (round53 n - n) <= n.
Proof.
  intros Hn. destruct (Z.lt_ge_cases n (2 ^ 53)) as [Hs|Hs].
  { rewrite round53_small by done. replace (n - n) with 0 by lia. cbn. lia. }
  unfold round53. rewrite (proj2 (Z.ltb_ge _ _) Hs).
  pose proof (Z.log2_spec n ltac:(lia)) as [Hlo _].
  assert (53 <= Z.log2 n) as Hlog by (apply Z.log2_le_pow2; lia).
  set (u := 2 ^ (Z.log2 n - 52)).
  assert (2 ^ Z.log2 n = 2 ^ 52 * u) as Hu by (unfold u; rewrite <- Z.pow_add_r by lia; f_equal; lia).
  assert (0 < u) as Hu0 by (unfold u; apply Z.pow_pos_nonneg; lia).
  pose proof (Z.div_mod n u ltac:(lia)) as Hdm. pose proof (Z.mod_pos_bound n u Hu0) as Hr.
  set (q := n / u) in *. set (r := n mod u) in *.
  assert (2 ^ 53 = 2 * 2 ^ 52) as H53 by done.
  assert (2 * Z.abs ((if (2 * r <? u) || ((2 * r =? u) && Z.even q) then q else q + 1) * u - n) <= u) as He.
  { destruct ((2 * r <? u) || _) eqn:E.
    - apply orb_true_iff in E. replace (q * u - n) with (- r) by lia.
      rewrite Z.abs_opp, Z.abs_eq by lia. destruct E as [E|[E _]%andb_true_iff]; lia.
    - apply orb_false_iff in E as [E _]. replace ((q + 1) * u - n) with (u - r) by lia.
      rewrite Z.abs_eq by lia. lia. }
  nia.
Qed.

Lemma round53_bounds n : 0 <= n -> n - n / 2 ^ 53 <= round53 n <= n + n / 2 ^ 53.
Proof.
  intros Hn. pose proof (round53_error n Hn) as He.
  assert (Z.abs (round53 n - n) <= n / 2 ^ 53) by (apply Z.div_le_lower_bound; lia). lia.
Qed.

(** The product grows its argument, exactly by half when there is no rounding. *)
Lemma times_three_halves_exact n : 0 <= n -> 3 * n < 2 ^ 53 -> times_three_halves n = 3 * n / 2.
Proof. intros. unfold times_three_halves. by rewrite (round53_small n), round53_small by lia. Qed.

Lemma half_gt n x : 2 * (n + 1) <= x -> n < x / 2.
Proof. intros H. pose proof (Z.div_le_lower_bound x 2 (n + 1)). lia. Qed.

Lemma times_three_halves_bounds n :
  2 <= n < 2 ^ 64 -> n < times_three_halves n /\ times_three_halves n <= 3 * n / 2 + 2 ^ 13.
Proof.
  intros Hn. unfold times_three_halves.
  pose proof (round53_bounds n ltac:(lia)) as H1.
  assert (n / 2 ^ 53 < 2 ^ 11) by (apply Z.div_lt_upper_bound; lia).
  assert (n < 2 ^ 53 \/ 2 ^ 53 <= n) as [Hs|Hs] by lia.
  - rewrite (round53_small n Hs) in *.
    pose proof (round53_bounds (3 * n) ltac:(lia)) as H2.
    assert (3 * n / 2 ^ 53 < 3) by (apply Z.div_lt_upper_bound; lia).
    split.
    + destruct (Z.lt_ge_cases (3 * n) (2 ^ 53)) as [Hs3|Hs3].
      * rewrite round53_small by done. apply half_gt; lia.
      * apply half_gt; lia.
    + etrans; [apply Z.div_le_mono with (b := 3 * n + 2); lia|].
      replace (3 * n + 2) with (3 * n + 1 * 2) by lia. rewrite Z.div_add by lia. lia.
  - set (x := round53 n) in *. assert (0 <= x) by lia.
    pose proof (round53_bounds (3 * x) ltac:(lia)) as H2.
    assert (3 * x / 2 ^ 53 < 2 ^ 13) by (apply Z.div_lt_upper_bound; lia).
    split.
    + apply half_gt; lia.
    + etrans; [apply Z.div_le_mono with (b := 3 * n + 3 * 2 ^ 11 + 2 ^ 13); lia|].
      apply Z.div_le_upper_bound; [lia|].
      pose proof (Z.div_mod (3 * n) 2 ltac:(lia)). pose proof (Z.mod_pos_bound (3 * n) 2). lia.
Qed.
