(* ===== verification/TxChannel.v ===== *)
(** * reporter/client: the transaction channel and its shutdown

    [trySend], [closeTxChan] and [Stop] of client.go, [BroadcastTxMsgToChain] of
    broadcast_message.go: senders that hold the read lock while they wait for the
    receiver, the receiver that starts a goroutine for every message, at most ten of
    which send at a time, and a shutdown that waits for all of them. Goroutines
    interleave: the state below is changed by the steps of a relation. *)
From stdpp Require Import relations.
From S2P Require Import Prelude Text Messages.
Local Open Scope nat_scope.

Definition maxConcurrentTxs : nat := 10.

(** Where [Stop] is. [WantLock] is a writer that waits for the readers to leave;
    while it waits no new reader gets the lock. *)
Inductive stop_phase := NotStopping | WantLock | WaitTasks | WaitBroadcasts | Stopped.
#[export] Instance stop_phase_eq_dec : EqDecision stop_phase.
Proof. solve_decision. Defined.

(** A call of [trySend]: the message, and whether it comes from a goroutine of the
    receiver (a retry, after which the goroutine ends) or from a monitor. *)
Record sender := mkSender { s_info : TxChannelInfo; s_retry : bool }.

Record TxChan := mkTxChan {
  arriving : list sender;     (** called [trySend], do not have the read lock yet *)
  holding : list sender;      (** have the read lock and wait in the select *)
  txClosed : bool;
  ctxDone : bool;
  monitors : bool;            (** the monitors run *)
  receiver : bool;            (** the loop of [BroadcastTxMsgToChain] runs *)
  waiting : list TxChannelInfo;   (** goroutines that wait for the semaphore *)
  sending : list TxChannelInfo;   (** goroutines that have it *)
  stop : stop_phase;
  called : list TxChannelInfo;    (** every message given to [trySend] *)
  dropped : list TxChannelInfo;   (** messages [trySend] returned false for *)
  abandoned : list TxChannelInfo; (** goroutines that gave up before sending *)
  handled : list TxChannelInfo;   (** goroutines that ended after sending *)
  panicked : bool             (** a send on, or a second close of, a closed channel *)
}.

Definition init : TxChan :=
  mkTxChan [] [] false false true true [] [] NotStopping [] [] [] [] false.

Definition retries (l : list sender) : list sender := filter (fun s => s_retry s = true) l.
Definition from_monitors (l : list sender) : list sender := filter (fun s => s_retry s = false) l.

(** The goroutines that hold the semaphore: those that send, and those in a retry. *)
Definition in_flight (c : TxChan) : nat :=
  length (sending c) + length (retries (arriving c)) + length (retries (holding c)).

(** ** The effects of the steps *)
Definition with_senders (a h : list sender) (c : TxChan) : TxChan :=
  mkTxChan a h (txClosed c) (ctxDone c) (monitors c) (receiver c) (waiting c) (sending c) (stop c)
    (called c) (dropped c) (abandoned c) (handled c) (panicked c).
Definition with_goroutines (w s : list TxChannelInfo) (c : TxChan) : TxChan :=
  mkTxChan (arriving c) (holding c) (txClosed c) (ctxDone c) (monitors c) (receiver c) w s (stop c)
    (called c) (dropped c) (abandoned c) (handled c) (panicked c).
Definition with_flags (closed done_ mon recv : bool) (p : stop_phase) (c : TxChan) : TxChan :=
  mkTxChan (arriving c) (holding c) closed done_ mon recv (waiting c) (sending c) p
    (called c) (dropped c) (abandoned c) (handled c) (panicked c).
Definition with_log (ca d ab ha : list TxChannelInfo) (c : TxChan) : TxChan :=
  mkTxChan (arriving c) (holding c) (txClosed c) (ctxDone c) (monitors c) (receiver c) (waiting c) (sending c) (stop c)
    ca d ab ha (panicked c).

(** A call of [trySend]. *)
Definition call (s : sender) (c : TxChan) : TxChan :=
  with_log (s_info s :: called c) (dropped c) (abandoned c) (handled c) (with_senders (arriving c ++ [s]) (holding c) c).

(** [RLock] and the check of the flag. *)
Definition lock_read (s : sender) (rest : list sender) (c : TxChan) : TxChan :=
  if txClosed c then
    with_log (called c) (s_info s :: dropped c) (abandoned c) (handled c) (with_senders rest (holding c) c)
  else with_senders rest (holding c ++ [s]) c.

(** The send succeeds: the receiver starts a goroutine. *)
Definition deliver (s : sender) (rest : list sender) (c : TxChan) : TxChan :=
  let c' := with_goroutines (s_info s :: waiting c) (sending c) (with_senders (arriving c) rest c) in
  mkTxChan (arriving c') (holding c') (txClosed c') (ctxDone c') (monitors c') (receiver c') (waiting c') (sending c')
    (stop c') (called c') (dropped c') (abandoned c') (handled c') (panicked c' || txClosed c').

(** The context of the call ended. *)
Definition give_up_send (s : sender) (rest : list sender) (c : TxChan) : TxChan :=
  with_log (called c) (s_info s :: dropped c) (abandoned c) (handled c) (with_senders (arriving c) rest c).

Definition stop_to (p : stop_phase) (c : TxChan) : TxChan :=
  with_flags (txClosed c) (ctxDone c) (monitors c) (receiver c) p c.

(** [closeTxChan], with the lock. A sender in its select would panic. *)
Definition close_channel (c : TxChan) : TxChan :=
  if txClosed c then stop_to WaitTasks c
  else
    mkTxChan (arriving c) (holding c) true (ctxDone c) (monitors c) (receiver c) (waiting c) (sending c)
      WaitTasks (called c) (dropped c) (abandoned c) (handled c) (panicked c || negb (bool_decide (length (holding c) = 0))).

(** The goroutine of a message: takes the semaphore, gives up, ends, or sends its
    message again with one attempt less. *)
Definition acquire (i : TxChannelInfo) (rest : list TxChannelInfo) (c : TxChan) : TxChan :=
  with_goroutines rest (i :: sending c) c.
Definition abandon (i : TxChannelInfo) (rest : list TxChannelInfo) (c : TxChan) : TxChan :=
  with_log (called c) (dropped c) (i :: abandoned c) (handled c) (with_goroutines rest (sending c) c).
Definition finish (i : TxChannelInfo) (rest : list TxChannelInfo) (c : TxChan) : TxChan :=
  with_log (called c) (dropped c) (abandoned c) (i :: handled c) (with_goroutines (waiting c) rest c).
Definition retry_info (i : TxChannelInfo) : TxChannelInfo :=
  mkTxChannelInfo (Msg i) (isBridge i) (NumRetries i - 1)%Z (QueryMetaId i).
Definition resend (i : TxChannelInfo) (rest : list TxChannelInfo) (c : TxChan) : TxChan :=
  call (mkSender (retry_info i) true) (finish i rest c).

(** ** The steps

    The environment (what other code does, or time) and the program. *)
Inductive env_step : TxChan -> TxChan -> Prop :=
  | env_call i c : monitors c = true -> env_step c (call (mkSender i false) c)
  | env_cancel c : env_step c (with_flags (txClosed c) true (monitors c) (receiver c) (stop c) c)
  | env_stop c : stop c = NotStopping -> env_step c (stop_to WantLock c)
  | env_timeout s l1 l2 c : holding c = l1 ++ s :: l2 -> env_step c (give_up_send s (l1 ++ l2) c).

Inductive prog_step : TxChan -> TxChan -> Prop :=
  | prog_lock s l1 l2 c : arriving c = l1 ++ s :: l2 -> stop c <> WantLock -> prog_step c (lock_read s (l1 ++ l2) c)
  | prog_deliver s l1 l2 c : holding c = l1 ++ s :: l2 -> receiver c = true -> prog_step c (deliver s (l1 ++ l2) c)
  | prog_give_up s l1 l2 c : holding c = l1 ++ s :: l2 -> ctxDone c = true -> prog_step c (give_up_send s (l1 ++ l2) c)
  | prog_receiver_return c :
      receiver c = true -> ctxDone c = true \/ txClosed c = true ->
      prog_step c (with_flags (txClosed c) (ctxDone c) (monitors c) false (stop c) c)
  | prog_monitors_return c :
      monitors c = true -> ctxDone c = true -> from_monitors (arriving c) = [] -> from_monitors (holding c) = [] ->
      prog_step c (with_flags (txClosed c) (ctxDone c) false (receiver c) (stop c) c)
  | prog_acquire i l1 l2 c : waiting c = l1 ++ i :: l2 -> in_flight c < maxConcurrentTxs -> prog_step c (acquire i (l1 ++ l2) c)
  | prog_abandon i l1 l2 c : waiting c = l1 ++ i :: l2 -> ctxDone c = true -> prog_step c (abandon i (l1 ++ l2) c)
  | prog_finish i l1 l2 c : sending c = l1 ++ i :: l2 -> prog_step c (finish i (l1 ++ l2) c)
  | prog_resend i l1 l2 c :
      sending c = l1 ++ i :: l2 -> isBridge i = true -> isBridgeDepositReportMsg (Msg i) = true -> (0 < NumRetries i)%Z ->
      prog_step c (resend i (l1 ++ l2) c)
  | prog_close c : stop c = WantLock -> holding c = [] -> prog_step c (close_channel c)
  | prog_tasks_done c : stop c = WaitTasks -> monitors c = false -> receiver c = false -> prog_step c (stop_to WaitBroadcasts c)
  | prog_broadcasts_done c :
      stop c = WaitBroadcasts -> waiting c = [] -> sending c = [] -> retries (arriving c) = [] -> retries (holding c) = [] ->
      prog_step c (stop_to Stopped c).

Inductive reachable : TxChan -> Prop :=
  | reach_init : reachable init
  | reach_env c c' : reachable c -> env_step c c' -> reachable c'
  | reach_prog c c' : reachable c -> prog_step c c' -> reachable c'.

(** ** Invariants *)
Definition infos (l : list sender) : list TxChannelInfo := s_info <$> l.

(** Every message is somewhere, once. *)
Definition accounted (c : TxChan) : Prop :=
  called c ≡ₚ infos (arriving c) ++ infos (holding c) ++ waiting c ++ sending c ++ dropped c ++ abandoned c ++ handled c.

Definition closing (p : stop_phase) : Prop := p <> NotStopping /\ p <> WantLock.
#[export] Instance closing_dec p : Decision (closing p).
Proof. unfold closing. apply _. Defined.

Record consistent (c : TxChan) : Prop := {
  c_panic : panicked c = false;
  c_flight : in_flight c <= maxConcurrentTxs;
  c_accounted : accounted c;
  c_closed : txClosed c = true <-> closing (stop c);
  c_holding : txClosed c = true -> holding c = [];
  c_receiver : receiver c = false -> ctxDone c = true \/ txClosed c = true;
  c_monitors : monitors c = false ->
    ctxDone c = true /\ from_monitors (arriving c) = [] /\ from_monitors (holding c) = [];
  c_tasks : stop c = WaitBroadcasts \/ stop c = Stopped -> monitors c = false /\ receiver c = false;
  c_stopped : stop c = Stopped -> waiting c = [] /\ sending c = [] /\ arriving c = [] /\ holding c = []
}.

#[local] Arguments retries : simpl never.
#[local] Arguments from_monitors : simpl never.
#[local] Arguments infos : simpl never.

Lemma retries_app l1 l2 : retries (l1 ++ l2) = retries l1 ++ retries l2.
Proof. apply filter_app. Qed.
Lemma from_monitors_app l1 l2 : from_monitors (l1 ++ l2) = from_monitors l1 ++ from_monitors l2.
Proof. apply filter_app. Qed.
Lemma retries_cons s l : retries (s :: l) = if s_retry s then s :: retries l else retries l.
Proof. unfold retries. rewrite filter_cons. by destruct (s_retry s). Qed.
Lemma from_monitors_cons s l : from_monitors (s :: l) = if s_retry s then from_monitors l else s :: from_monitors l.
Proof. unfold from_monitors. rewrite filter_cons. by destruct (s_retry s). Qed.

Lemma senders_nil l : from_monitors l = [] -> retries l = [] -> l = [].
Proof. destruct l as [|s l]; [done|]. rewrite from_monitors_cons, retries_cons. by destruct (s_retry s). Qed.

Lemma consistent_init : consistent init.
Proof.
  split; try (cbn; done); try (cbn; unfold closing; naive_solver).
  - unfold in_flight, maxConcurrentTxs, retries. cbn. lia.
  - exact (Permutation_refl []%list).
Qed.

Lemma infos_app l1 l2 : infos (l1 ++ l2) = infos l1 ++ infos l2.
Proof. apply fmap_app. Qed.
Lemma infos_cons s l : infos (s :: l) = s_info s :: infos l.
Proof. done. Qed.

Lemma retries_nil : retries [] = [].
Proof. done. Qed.
Lemma from_monitors_nil : from_monitors [] = [].
Proof. done. Qed.
Lemma infos_nil : infos [] = [].
Proof. done. Qed.

Create HintDb txchan discriminated.
#[local] Hint Rewrite retries_nil from_monitors_nil infos_nil retries_app from_monitors_app retries_cons from_monitors_cons infos_app infos_cons
  length_app @length_cons @app_nil_r : txchan.

(** Brings a hypothesis or the goal about the lists of a state after a step into sums
    and concatenations. *)
Ltac lists := unfold in_flight, accounted in *; cbn in *; autorewrite with txchan in *; cbn in *.

Ltac list_at E := rewrite E in *; lists.

Lemma nil_middle {A} (l1 l2 : list A) x : l1 ++ x :: l2 = [] -> False.
Proof. by destruct l1. Qed.
#[local] Hint Resolve nil_middle : txchan.

Lemma consistent_call s c :
  consistent c -> stop c <> Stopped -> in_flight (call s c) <= maxConcurrentTxs ->
  (s_retry s = false -> monitors c = true) -> consistent (call s c).
Proof.
  intros [H1 H2 H3 H4 H5 H6 H7 H8 H9] Hs Hf Hm. split; try done; lists.
  - rewrite H3. solve_Permutation.
  - intros Hmon. destruct (H7 Hmon) as (? & -> & ->). cbn. destruct (s_retry s); [done|]. by rewrite Hm in Hmon.
Qed.

Lemma consistent_lock s l1 l2 c :
  consistent c -> arriving c = l1 ++ s :: l2 -> stop c <> WantLock -> consistent (lock_read s (l1 ++ l2) c).
Proof.
  intros [H1 H2 H3 H4 H5 H6 H7 H8 H9] E Hs. unfold lock_read. destruct (txClosed c) eqn:Ec.
  - split; try done; lists; try (rewrite ?Ec; done).
    + rewrite E in H2. lists. destruct (s_retry s); cbn in *; lia.
    + rewrite H3, E. lists. solve_Permutation.
    + intros Hm. destruct (H7 Hm) as (? & Ha & ?). rewrite E in Ha. lists. split; [done|]. split; [|done].
      destruct (s_retry s); [done|]. by apply nil_middle in Ha.
    + intros Hst. destruct (H9 Hst) as (? & ? & Ha & ?). rewrite E in Ha. by apply nil_middle in Ha.
  - split; try done; lists; try (rewrite ?Ec; done).
    + rewrite E in H2. lists. destruct (s_retry s); cbn in *; lia.
    + rewrite H3, E. lists. solve_Permutation.
    + intros Hm. destruct (H7 Hm) as (? & Ha & ->). rewrite E in Ha. lists. split; [done|].
      destruct (s_retry s); [done|]. by apply nil_middle in Ha.
    + intros Hst. destruct (H9 Hst) as (? & ? & Ha & ?). rewrite E in Ha. by apply nil_middle in Ha.
Qed.

(** A sender leaves the select: its message is dropped, or a goroutine starts. *)
Lemma consistent_leave s l1 l2 c c' :
  consistent c -> holding c = l1 ++ s :: l2 -> arriving c' = arriving c -> holding c' = l1 ++ l2 ->
  txClosed c' = txClosed c -> ctxDone c' = ctxDone c -> monitors c' = monitors c -> receiver c' = receiver c ->
  stop c' = stop c -> sending c' = sending c -> called c' = called c -> panicked c' = panicked c ->
  abandoned c' = abandoned c -> handled c' = handled c ->
  (waiting c' = waiting c /\ dropped c' = s_info s :: dropped c \/ waiting c' = s_info s :: waiting c /\ dropped c' = dropped c) ->
  consistent c'.
Proof.
  intros [H1 H2 H3 H4 H5 H6 H7 H8 H9] E Ea Eh Ec Ed Em Er Es Eg El Ep Eb En Ew.
  split; unfold in_flight, accounted; rewrite ?Ea, ?Eh, ?Ec, ?Ed, ?Em, ?Er, ?Es, ?Eg, ?El, ?Ep, ?Eb, ?En; try done; lists.
  - rewrite E in H2. lists. destruct (s_retry s); cbn in *; lia.
  - rewrite H3, E. lists. destruct Ew as [[-> ->]|[-> ->]]; solve_Permutation.
  - intros Hc. specialize (H5 Hc). rewrite E in H5. by apply nil_middle in H5.
  - intros Hm. destruct (H7 Hm) as (? & ? & Ha). rewrite E in Ha. lists. split; [done|]. split; [done|].
    destruct (s_retry s); [done|]. by apply nil_middle in Ha.
  - intros Hst. destruct (H9 Hst) as (? & ? & ? & Ha). rewrite E in Ha. by apply nil_middle in Ha.
Qed.

Lemma consistent_give_up s l1 l2 c : consistent c -> holding c = l1 ++ s :: l2 -> consistent (give_up_send s (l1 ++ l2) c).
Proof. intros Hc E. apply (consistent_leave s l1 l2 c); try done. by left. Qed.

Lemma consistent_deliver s l1 l2 c : consistent c -> holding c = l1 ++ s :: l2 -> consistent (deliver s (l1 ++ l2) c).
Proof.
  intros Hc E. apply (consistent_leave s l1 l2 c); try done; [|by right]. cbn.
  destruct (txClosed c) eqn:Ec; [|by rewrite orb_false_r].
  pose proof (c_holding c Hc Ec) as Hh. rewrite E in Hh. by apply nil_middle in Hh.
Qed.

(** Only a flag or the phase of the shutdown changes. *)
Lemma consistent_flags closed' d m r p c :
  consistent c -> (closed' = true <-> closing p) -> (closed' = true -> holding c = []) ->
  (r = false -> d = true \/ closed' = true) ->
  (m = false -> d = true /\ from_monitors (arriving c) = [] /\ from_monitors (holding c) = []) ->
  (p = WaitBroadcasts \/ p = Stopped -> m = false /\ r = false) ->
  (p = Stopped -> waiting c = [] /\ sending c = [] /\ arriving c = [] /\ holding c = []) ->
  consistent (with_flags closed' d m r p c).
Proof. intros [H1 H2 H3 H4 H5 H6 H7 H8 H9] ? ? ? ? ? ?. by split. Qed.

(** Goroutines move on. *)
Lemma consistent_goroutines w s ab ha c :
  consistent c -> stop c <> Stopped -> length s + (in_flight c - length (sending c)) <= maxConcurrentTxs ->
  w ++ s ++ ab ++ ha ≡ₚ waiting c ++ sending c ++ abandoned c ++ handled c ->
  consistent (with_log (called c) (dropped c) ab ha (with_goroutines w s c)).
Proof.
  intros [H1 H2 H3 H4 H5 H6 H7 H8 H9] Hs Hf Hp. split; try done; lists.
  - lia.
  - rewrite H3.
    transitivity (infos (arriving c) ++ infos (holding c) ++ dropped c ++ (waiting c ++ sending c ++ abandoned c ++ handled c));
      [solve_Permutation|]. rewrite <- Hp. solve_Permutation.
Qed.

Lemma not_stopped_waiting i l1 l2 c : consistent c -> waiting c = l1 ++ i :: l2 -> stop c <> Stopped.
Proof. intros Hc E Hs. destruct (c_stopped c Hc Hs) as (Hw & _). rewrite E in Hw. by apply nil_middle in Hw. Qed.
Lemma not_stopped_sending i l1 l2 c : consistent c -> sending c = l1 ++ i :: l2 -> stop c <> Stopped.
Proof. intros Hc E Hs. destruct (c_stopped c Hc Hs) as (_ & Hw & _). rewrite E in Hw. by apply nil_middle in Hw. Qed.

Lemma consistent_acquire i l1 l2 c :
  consistent c -> waiting c = l1 ++ i :: l2 -> in_flight c < maxConcurrentTxs -> consistent (acquire i (l1 ++ l2) c).
Proof.
  intros Hc E Hf. apply (consistent_goroutines (l1 ++ l2) (i :: sending c) (abandoned c) (handled c) c Hc).
  - by eapply not_stopped_waiting.
  - cbn [length]. unfold in_flight in *. lia.
  - rewrite E. solve_Permutation.
Qed.
Lemma consistent_abandon i l1 l2 c : consistent c -> waiting c = l1 ++ i :: l2 -> consistent (abandon i (l1 ++ l2) c).
Proof.
  intros Hc E. apply (consistent_goroutines (l1 ++ l2) (sending c) (i :: abandoned c) (handled c) c Hc).
  - by eapply not_stopped_waiting.
  - pose proof (c_flight c Hc). unfold in_flight in *. lia.
  - rewrite E. solve_Permutation.
Qed.
Lemma consistent_finish i l1 l2 c : consistent c -> sending c = l1 ++ i :: l2 -> consistent (finish i (l1 ++ l2) c).
Proof.
  intros Hc E. apply (consistent_goroutines (waiting c) (l1 ++ l2) (abandoned c) (i :: handled c) c Hc).
  - by eapply not_stopped_sending.
  - pose proof (c_flight c Hc) as Hf. unfold in_flight in *. rewrite E in *. lists. lia.
  - rewrite E. solve_Permutation.
Qed.
Lemma consistent_resend i l1 l2 c : consistent c -> sending c = l1 ++ i :: l2 -> consistent (resend i (l1 ++ l2) c).
Proof.
  intros Hc E. apply consistent_call; [by apply consistent_finish|exact (not_stopped_sending i l1 l2 c Hc E)| |done].
  pose proof (c_flight c Hc) as Hf. unfold in_flight in *. rewrite E in Hf. lists. lia.
Qed.

Lemma consistent_close c : consistent c -> stop c = WantLock -> holding c = [] -> consistent (close_channel c).
Proof.
  intros Hc Es Eh. unfold close_channel. destruct (txClosed c) eqn:Ec.
  { apply (c_closed c Hc) in Ec. rewrite Es in Ec. by destruct Ec. }
  destruct Hc as [H1 H2 H3 H4 H5 H6 H7 H8 H9]. split; cbn; try done.
  - by rewrite H1, Eh.
  - tauto.
  - by intros [|].
Qed.

Lemma consistent_step c c' : consistent c -> env_step c c' \/ prog_step c c' -> consistent c'.
Proof.
  intros Hc [Hstep|Hstep]; pose proof Hc as [H1 H2 H3 H4 H5 H6 H7 H8 H9].
  - destruct Hstep as [i c Hm|c|c Hs|s l1 l2 c E].
    + apply consistent_call; try done.
      * intros Hs. destruct (H8 (or_intror Hs)). congruence.
      * lists. lia.
    + apply consistent_flags; try done; [by left|]. intros Hm. destruct (H7 Hm) as (_ & ?). by split.
    + apply consistent_flags; try done; cbn.
      * rewrite H4, Hs. unfold closing. naive_solver.
      * by intros [|].
    + by apply consistent_give_up.
  - destruct Hstep as [s l1 l2 c E Hs|s l1 l2 c E Hr|s l1 l2 c E Hd|c Hr Hd|c Hm Hd Ea Eh|i l1 l2 c E Hf|i l1 l2 c E Hd
      |i l1 l2 c E|i l1 l2 c E Hb Hi Hn|c Hs Eh|c Hs Hm Hr|c Hs Ew Eg Ea Eh].
    + by apply consistent_lock.
    + by apply consistent_deliver.
    + by apply consistent_give_up.
    + apply consistent_flags; try done. intros Hst. by destruct (H8 Hst).
    + apply consistent_flags; try done. intros Hst. by destruct (H8 Hst).
    + by apply consistent_acquire.
    + by apply consistent_abandon.
    + by apply consistent_finish.
    + by apply consistent_resend.
    + by apply consistent_close.
    + apply consistent_flags; try done. rewrite H4, Hs. unfold closing. naive_solver.
    + destruct (H8 (or_introl Hs)) as [Hm Hr]. destruct (H7 Hm) as (_ & Fa & Fh).
      apply consistent_flags; try done.
      * rewrite H4, Hs. unfold closing. naive_solver.
      * intros _. split; [done|]. split; [done|]. split; by apply senders_nil.
Qed.

Lemma reachable_consistent c : reachable c -> consistent c.
Proof. induction 1; [apply consistent_init|eapply consistent_step; [done|by left]|eapply consistent_step; [done|by right]]. Qed.

(** ** Every run of the program ends *)
Definition attempts_left (i : TxChannelInfo) : nat := Z.to_nat (NumRetries i).
Definition weights (k : nat) (l : list TxChannelInfo) : nat := sum_list ((fun i => 5 * attempts_left i + k) <$> l).
Definition phase_weight (p : stop_phase) : nat :=
  match p with NotStopping => 3 | WantLock => 3 | WaitTasks => 2 | WaitBroadcasts => 1 | Stopped => 0 end.
Definition flag_weight (b : bool) : nat := if b then 1 else 0.

Definition measure (c : TxChan) : nat :=
  weights 4 (infos (arriving c)) + weights 3 (infos (holding c)) + weights 2 (waiting c) + weights 1 (sending c) +
  flag_weight (monitors c) + flag_weight (receiver c) + phase_weight (stop c).

Lemma weights_cons k i l : weights k (i :: l) = 5 * attempts_left i + k + weights k l.
Proof. done. Qed.
Lemma weights_nil k : weights k [] = 0.
Proof. done. Qed.
Lemma weights_app k l1 l2 : weights k (l1 ++ l2) = weights k l1 + weights k l2.
Proof. induction l1 as [|i l1 IH]; [done|]. cbn [app]. rewrite !weights_cons, IH. lia. Qed.
#[local] Hint Rewrite weights_app weights_cons weights_nil : txchan.
#[local] Arguments weights : simpl never.

Lemma prog_step_measure c c' : prog_step c c' -> measure c' < measure c.
Proof.
  intros Hstep. unfold measure.
  destruct Hstep as [s l1 l2 c E Hs|s l1 l2 c E Hr|s l1 l2 c E Hd|c Hr Hd|c Hm Hd Ea Eh|i l1 l2 c E Hf|i l1 l2 c E Hd
    |i l1 l2 c E|i l1 l2 c E Hb Hi Hn|c Hs Eh|c Hs Hm Hr|c Hs Ew Eg Ea Eh].
  - unfold lock_read. rewrite E. destruct (txClosed c); lists; lia.
  - rewrite E. lists. lia.
  - rewrite E. lists. lia.
  - rewrite Hr. lists. lia.
  - rewrite Hm. lists. lia.
  - rewrite E. lists. lia.
  - rewrite E. lists. lia.
  - rewrite E. lists. lia.
  - rewrite E. lists. unfold attempts_left. cbn. lia.
  - rewrite Hs. unfold close_channel. destruct (txClosed c); lists; lia.
  - rewrite Hs. lists. lia.
  - rewrite Hs. lists. lia.
Qed.

Lemma prog_steps_bounded n c c' : nsteps prog_step n c c' -> n + measure c' <= measure c.
Proof.
  induction 1 as [|n c c1 c' Hs _ IH]; [lia|]. pose proof (prog_step_measure _ _ Hs). lia.
Qed.

(** ** Nothing is stuck *)
Definition busy (c : TxChan) : Prop := arriving c <> [] \/ holding c <> [] \/ waiting c <> [] \/ sending c <> [].

Lemma red_intro c c' : prog_step c c' -> red prog_step c.
Proof. by exists c'. Qed.

Lemma holding_moves c : consistent c -> holding c <> [] -> red prog_step c.
Proof.
  intros Hc Hh. destruct (holding c) as [|s l] eqn:E; [done|]. destruct (receiver c) eqn:Er.
  - eapply red_intro, (prog_deliver s [] l); [exact E|done].
  - destruct (c_receiver c Hc Er) as [Hd|Hcl].
    + eapply red_intro, (prog_give_up s [] l); [exact E|done].
    + pose proof (c_holding c Hc Hcl). congruence.
Qed.

Lemma busy_moves c : consistent c -> busy c -> red prog_step c.
Proof.
  intros Hc Hb. destruct (decide (length (holding c) = 0)) as [Hh|Hh]; [|apply holding_moves; [done|by intros Hh'; rewrite Hh' in Hh]].
  apply nil_length_inv in Hh.
  destruct (sending c) as [|g l] eqn:Eg; [|eapply red_intro, (prog_finish g [] l); exact Eg].
  destruct (arriving c) as [|s l] eqn:Ea.
  - destruct Hb as [Hb|[Hb|[Hb|Hb]]]; try congruence.
    destruct (waiting c) as [|i l] eqn:Ew; [done|]. eapply red_intro, (prog_acquire i [] l); [exact Ew|].
    unfold in_flight. rewrite Eg, Ea, Hh. unfold maxConcurrentTxs, retries. cbn. lia.
  - destruct (decide (stop c = WantLock)) as [Es|Es].
    + eapply red_intro, prog_close; done.
    + eapply red_intro, (prog_lock s [] l); done.
Qed.

Lemma stopping_moves c :
  consistent c -> ctxDone c = true -> stop c <> NotStopping -> stop c <> Stopped -> red prog_step c.
Proof.
  intros Hc Hd Hn Hs. destruct (decide (length (arriving c) + length (holding c) + length (waiting c) + length (sending c) = 0)) as [Hz|Hz].
  - assert (arriving c = [] /\ holding c = [] /\ waiting c = [] /\ sending c = []) as (Ea & Eh & Ew & Eg)
      by (split_and!; apply nil_length_inv; lia).
    destruct (stop c) eqn:Es; try done.
    + by eapply red_intro, prog_close.
    + destruct (receiver c) eqn:Er; [eapply red_intro, prog_receiver_return; [done|by left]|].
      destruct (monitors c) eqn:Em; [|by eapply red_intro, prog_tasks_done].
      eapply red_intro, prog_monitors_return; [done|done|by rewrite Ea|by rewrite Eh].
    + eapply red_intro, prog_broadcasts_done; [done|done|done|by rewrite Ea|by rewrite Eh].
  - apply busy_moves; [done|]. unfold busy. destruct (arriving c); [|by left]. destruct (holding c); [|by right; left].
    destruct (waiting c); [|by right; right; left]. destruct (sending c); [done|by right; right; right].
Qed.

Lemma prog_step_ctx c c' : prog_step c c' -> ctxDone c' = ctxDone c.
Proof. destruct 1; try done; unfold lock_read, close_channel; by destruct (txClosed c). Qed.

Lemma prog_step_stopping c c' : prog_step c c' -> stop c <> NotStopping -> stop c' <> NotStopping.
Proof. destruct 1; try done; unfold lock_read, close_channel; by destruct (txClosed c). Qed.

Lemma runs_to_stopped c :
  consistent c -> ctxDone c = true -> stop c <> NotStopping -> exists c', rtc prog_step c c' /\ stop c' = Stopped.
Proof.
  remember (measure c) as n eqn:En. revert c En. induction (lt_wf n) as [n _ IH]. intros c -> Hc Hd Hn.
  destruct (decide (stop c = Stopped)) as [Hs|Hs]; [by exists c; split; [constructor|]|].
  destruct (stopping_moves c Hc Hd Hn Hs) as [c1 Hstep].
  destruct (IH (measure c1) (prog_step_measure _ _ Hstep) c1 eq_refl) as (c' & Hrtc & Hs').
  - by eapply consistent_step; [|right].
  - by rewrite (prog_step_ctx _ _ Hstep).
  - by eapply prog_step_stopping.
  - exists c'. split; [by eapply rtc_l|done].
Qed.

(** ** Properties *)

(** C24: Whatever the interleaving: nobody sends on the closed channel nor closes it under
    a sender, at most ten goroutines send at a time, every message given to
    [trySend] is in one place only (dropped, with a goroutine or done with), and when
    [Stop] has come to its end no goroutine is left that could use the connections it
    closes. *)
Theorem tx_channel_safe c :
  reachable c ->
  panicked c = false /\ in_flight c <= maxConcurrentTxs /\ accounted c /\ (txClosed c = true -> holding c = []) /\
  (stop c = Stopped ->
   txClosed c = true /\ monitors c = false /\ receiver c = false /\ ~ busy c /\ nf prog_step c /\
   called c ≡ₚ dropped c ++ abandoned c ++ handled c).
Proof.
  intros Hr. pose proof (reachable_consistent c Hr) as Hc. pose proof Hc as [H1 H2 H3 H4 H5 H6 H7 H8 H9].
  split_and!; try done. intros Hs. destruct (H9 Hs) as (Ew & Eg & Ea & Eh). destruct (H8 (or_intror Hs)) as [Hm Hrc].
  split_and!; try done.
  - apply H4. rewrite Hs. by split.
  - by intros [|[|[|]]].
  - intros [c' Hstep]. destruct Hstep; try congruence;
      match goal with E : _ = ?l1 ++ ?x :: ?l2 |- _ => apply (nil_middle l1 l2 x); congruence end.
  - unfold accounted in H3. rewrite Ew, Eg, Ea, Eh in H3. exact H3.
Qed.

(** C25: The program never runs for ever by itself, nor gets stuck: its steps are bounded
    by the messages and their retries; as long as a call, a goroutine or a message is
    under way some step is possible; and once the context is canceled and [Stop]
    called every run comes to the end of the shutdown. *)
Theorem shutdown_terminates c :
  reachable c ->
  (forall n c', nsteps prog_step n c c' -> n <= measure c) /\
  (busy c -> red prog_step c) /\
  (ctxDone c = true -> stop c <> NotStopping ->
   (forall c', rtc prog_step c c' -> nf prog_step c' -> stop c' = Stopped) /\
   exists c', rtc prog_step c c' /\ stop c' = Stopped).
Proof.
  intros Hr. pose proof (reachable_consistent c Hr) as Hc. split; [|split].
  - intros n c' Hn%prog_steps_bounded. lia.
  - by apply busy_moves.
  - intros Hd Hn.
    assert (forall c', rtc prog_step c c' -> consistent c' /\ ctxDone c' = true /\ stop c' <> NotStopping) as Hinv.
    { intros c' Hrtc. revert Hc Hd Hn. clear Hr. induction Hrtc as [c|c c1 c' Hs _ IH]; intros Hc Hd Hn; [done|].
      apply IH; [by eapply consistent_step; [|right]|by rewrite (prog_step_ctx _ _ Hs)|by eapply prog_step_stopping]. }
    assert (forall c', rtc prog_step c c' -> nf prog_step c' -> stop c' = Stopped) as Hend.
    { intros c' Hrtc Hnf. destruct (Hinv c' Hrtc) as (Hc' & Hd' & Hn').
      destruct (decide (stop c' = Stopped)); [done|]. by destruct Hnf; apply stopping_moves. }
    split; [exact Hend|]. by apply runs_to_stopped.
Qed.

(** ** Witnesses: one message has a goroutine when the daemon is shut down *)
Definition ex_info : TxChannelInfo := mkTxChannelInfo (WithdrawTipToBalance "a") false 0%Z 0%Z.
Definition ex_sender : sender := mkSender ex_info false.
Definition ex_delivered : TxChan := deliver ex_sender [] (lock_read ex_sender [] (call ex_sender init)).
Definition ex_stopping : TxChan := stop_to WantLock (with_flags false true true true NotStopping ex_delivered).

Lemma ex_delivered_reachable : reachable ex_delivered.
Proof.
  unfold ex_delivered. eapply reach_prog; [eapply reach_prog; [eapply reach_env; [apply reach_init|by apply env_call]|]|].
  - by apply (prog_lock ex_sender [] []).
  - by apply (prog_deliver ex_sender [] []).
Qed.

Lemma tx_channel_safe_witness : reachable ex_delivered /\ panicked ex_delivered = false /\ waiting ex_delivered = [ex_info].
Proof.
  split; [exact ex_delivered_reachable|]. split; [|reflexivity].
  exact (proj1 (tx_channel_safe ex_delivered ex_delivered_reachable)).
Defined.

Lemma ex_stopping_reachable : reachable ex_stopping.
Proof.
  unfold ex_stopping. eapply reach_env; [eapply reach_env; [exact ex_delivered_reachable|apply (env_cancel ex_delivered)]|].
  by apply env_stop.
Qed.

Lemma shutdown_terminates_witness :
  reachable ex_stopping /\ ctxDone ex_stopping = true /\ stop ex_stopping <> NotStopping /\
  exists c', rtc prog_step ex_stopping c' /\ stop c' = Stopped.
Proof.
  split; [exact ex_stopping_reachable|]. split; [reflexivity|]. split; [discriminate|].
  destruct (shutdown_terminates ex_stopping ex_stopping_reachable) as (_ & _ & H).
  exact (proj2 (H eq_refl ltac:(discriminate))).
Defined.
