(* ===== verification/TxSender.v ===== *)
(** * reporter/client/tx_handler.go: sending transactions

    The gas estimates per bucket, the wait for a transaction to be included, and
    the attempts to send one. What the chain answers, the simulation of gas and
    the construction and signature of a transaction are third-party code: a class
    over an arbitrary world. *)
From Stdlib Require Import QArith.
From S2P Require Import Prelude Text Hex Median MarketConfig Endpoints Messages Float64.
Local Open Scope Z_scope.

Definition bridgeGasBucketKey : string := "bridge".
Definition spotPriceGasBucketKey : string := "spot-price".
Definition defaultNonBridgeBucketConfigKey : string := "default-non-bridge".
Definition outOfGasCode : Z := 11.
Definition defaultMaxTxAttempts : nat := 3.
Definition defaultGasAdjustment : Q := 3 # 2.
Definition bridgeGasAdjustment : Q := 7 # 4.
Definition defaultGas : Z := 240000.

(** ** Gas estimates *)
Record gasBucketConfig := mkGasBucketConfig { adjustment : Q }.
Record gasBucketState := mkGasBucketState { cachedEstimate : Z; hasEstimate : bool }.
Record gasEstimateState := mkGasEstimateState {
  configByKey : gmap string gasBucketConfig;
  bucketState : gmap string gasBucketState
}.

Definition newGasEstimateState (config : gmap string gasBucketConfig) : gasEstimateState :=
  mkGasEstimateState config ∅.

(** The configuration that [NewClient] passes. *)
Definition clientGasConfig : gmap string gasBucketConfig :=
  {[ bridgeGasBucketKey := mkGasBucketConfig bridgeGasAdjustment;
     defaultNonBridgeBucketConfigKey := mkGasBucketConfig defaultGasAdjustment ]}.

(** A key that is absent reads as the zero value. *)
Definition configForBucket (s : gasEstimateState) (bucket : string) : gasBucketConfig :=
  match configByKey s !! bucket with
  | Some cfg => cfg
  | None => default (mkGasBucketConfig 0) (configByKey s !! defaultNonBridgeBucketConfigKey)
  end.

Definition set_bucket (bucket : string) (state : gasBucketState) (s : gasEstimateState) : gasEstimateState :=
  mkGasEstimateState (configByKey s) (<[bucket := state]> (bucketState s)).

Definition getOrInitBucketState (s : gasEstimateState) (bucket : string) : gasEstimateState * gasBucketState :=
  match bucketState s !! bucket with
  | Some state => (s, state)
  | None => let state := mkGasBucketState 0 false in (set_bucket bucket state s, state)
  end.

Definition gasAdjustment (s : gasEstimateState) (bucket : string) : Q :=
  adjustment (configForBucket s bucket).

Definition getCachedEstimate (s : gasEstimateState) (bucket : string) : gasEstimateState * (Z * bool) :=
  let '(s, state) := getOrInitBucketState s bucket in (s, (cachedEstimate state, hasEstimate state)).

Definition setEstimate (s : gasEstimateState) (bucket : string) (gas : Z) : gasEstimateState :=
  let '(s, _) := getOrInitBucketState s bucket in set_bucket bucket (mkGasBucketState gas true) s.

(** [uint64(f)] of a float beyond the range of uint64 is not specified by Go:
    [overflow]. *)
Definition bumpEstimateForOutOfGas (overflow : Z -> Z) (s : gasEstimateState) (bucket : string)
    (gasWanted : Z) : gasEstimateState * Z :=
  let '(s, state) := getOrInitBucketState s bucket in
  let base := if gasWanted =? 0 then cachedEstimate state else gasWanted in
  if base =? 0 then (s, 0)
  else
    let f := times_three_halves base in
    let newEstimate := if f <? 2 ^ 64 then f else overflow f in
    let newEstimate := if newEstimate <=? base then wrap uint64 (base + 1) else newEstimate in
    (set_bucket bucket (mkGasBucketState newEstimate true) s, newEstimate).

Definition raiseEstimateIfHigher (s : gasEstimateState) (bucket : string) (estimate : Z) :
    gasEstimateState * (bool * Z) :=
  let '(s, state) := getOrInitBucketState s bucket in
  let previous := cachedEstimate state in
  if hasEstimate state && (estimate <=? cachedEstimate state) then (s, (false, previous))
  else (set_bucket bucket (mkGasBucketState estimate true) s, (true, previous)).

Definition clearAllEstimates (s : gasEstimateState) : gasEstimateState :=
  mkGasEstimateState (configByKey s) ((fun _ => mkGasBucketState 0 false) <$> bucketState s).

(** What a bucket has cached. *)
Definition estimate_of (s : gasEstimateState) (bucket : string) : option Z :=
  match bucketState s !! bucket with
  | Some state => if hasEstimate state then Some (cachedEstimate state) else None
  | None => None
  end.

Lemma getOrInit_spec s bucket :
  let '(s', state) := getOrInitBucketState s bucket in
  configByKey s' = configByKey s /\ bucketState s' !! bucket = Some state /\
  (forall b, estimate_of s' b = estimate_of s b) /\
  estimate_of s bucket = (if hasEstimate state then Some (cachedEstimate state) else None).
Proof.
  unfold getOrInitBucketState. destruct (bucketState s !! bucket) as [state|] eqn:E.
  - split_and!; [done..|]. unfold estimate_of. by rewrite E.
  - cbn. rewrite lookup_insert_eq. split_and!; [done..| |].
    + intros b. unfold estimate_of. cbn. destruct (decide (b = bucket)) as [->|].
      * by rewrite lookup_insert_eq, E.
      * by rewrite lookup_insert_ne.
    + unfold estimate_of. by rewrite E.
Qed.

Lemma estimate_of_set s bucket gas b :
  estimate_of (set_bucket bucket (mkGasBucketState gas true) s) b =
    if decide (b = bucket) then Some gas else estimate_of s b.
Proof.
  unfold estimate_of. cbn. case_decide as H.
  - subst. by rewrite lookup_insert_eq.
  - by rewrite lookup_insert_ne.
Qed.

(** The cache is a map from buckets to estimates: each operation reads or writes
    the one of its bucket. *)
Lemma getCachedEstimate_spec s bucket :
  let '(s', (gas, ok)) := getCachedEstimate s bucket in
  (forall b, estimate_of s' b = estimate_of s b) /\ configByKey s' = configByKey s /\
  (if ok then estimate_of s bucket = Some gas else estimate_of s bucket = None).
Proof.
  unfold getCachedEstimate. pose proof (getOrInit_spec s bucket) as H.
  destruct (getOrInitBucketState s bucket) as [s' state]. destruct H as (Hc & _ & He & Hb).
  split_and!; [done..|]. by destruct (hasEstimate state).
Qed.

Lemma setEstimate_spec s bucket gas b :
  estimate_of (setEstimate s bucket gas) b = if decide (b = bucket) then Some gas else estimate_of s b.
Proof.
  unfold setEstimate. pose proof (getOrInit_spec s bucket) as H.
  destruct (getOrInitBucketState s bucket) as [s' state]. destruct H as (_ & _ & He & _).
  by rewrite estimate_of_set, He.
Qed.

Lemma raiseEstimateIfHigher_spec s bucket gas :
  let '(s', (updated, previous)) := raiseEstimateIfHigher s bucket gas in
  (forall b, estimate_of s' b = if decide (b = bucket) then
     Some (match estimate_of s bucket with Some old => Z.max old gas | None => gas end)
     else estimate_of s b) /\
  (updated = true <-> match estimate_of s bucket with Some old => old < gas | None => True end).
Proof.
  unfold raiseEstimateIfHigher. pose proof (getOrInit_spec s bucket) as H.
  destruct (getOrInitBucketState s bucket) as [s' state]. destruct H as (_ & Hs & He & Hb).
  destruct (hasEstimate state) eqn:Hh; cbn [andb]; rewrite Hb; [destruct (Z.leb_spec gas (cachedEstimate state))|].
  - split; [|split; [done|lia]]. intros b. rewrite He. case_decide; [|done]. subst. rewrite Hb. f_equal. lia.
  - split; [|split; [lia|done]]. intros b. rewrite estimate_of_set, He. case_decide; [|done]. f_equal. lia.
  - split; [|done]. intros b. by rewrite estimate_of_set, He.
Qed.

Lemma clearAllEstimates_spec s b : estimate_of (clearAllEstimates s) b = None.
Proof. unfold estimate_of, clearAllEstimates. cbn. rewrite lookup_fmap. by destruct (_ !! b). Qed.

(** The number that a bump starts from. *)
Definition bump_base (s : gasEstimateState) (bucket : string) (gasWanted : Z) : Z :=
  if gasWanted =? 0
  then match bucketState s !! bucket with Some state => cachedEstimate state | None => 0 end
  else gasWanted.

Lemma bump_spec overflow s bucket gasWanted :
  let base := bump_base s bucket gasWanted in
  0 <= base < 2 ^ 63 ->
  let '(s', newEstimate) := bumpEstimateForOutOfGas overflow s bucket gasWanted in
  (base = 0 -> newEstimate = 0 /\ forall b, estimate_of s' b = estimate_of s b) /\
  (0 < base ->
     base < newEstimate <= 3 * base / 2 + 2 ^ 13 + 1 /\ in_range uint64 newEstimate /\
     (3 * base < 2 ^ 53 -> newEstimate = Z.max (base + 1) (3 * base / 2)) /\
     forall b, estimate_of s' b = if decide (b = bucket) then Some newEstimate else estimate_of s b).
Proof.
  intros base Hb. unfold bumpEstimateForOutOfGas. pose proof (getOrInit_spec s bucket) as H.
  assert (base = if gasWanted =? 0 then cachedEstimate (getOrInitBucketState s bucket).2 else gasWanted) as Hbase.
  { unfold base, bump_base, getOrInitBucketState. by destruct (bucketState s !! bucket). }
  destruct (getOrInitBucketState s bucket) as [s1 state]. cbn in Hbase. destruct H as (_ & _ & He & _).
  rewrite <- Hbase. clearbody base. destruct (Z.eqb_spec base 0) as [H0|H0]; [split; [done|lia]|].
  split; [lia|]. intros Hpos.
  assert (times_three_halves base < 2 ^ 64 /\ times_three_halves base <= 3 * base / 2 + 2 ^ 13 /\
    (base < times_three_halves base \/ base = 1 /\ times_three_halves base = 1)) as (Hlt & Hle & Hgt).
  { destruct (decide (base = 1)) as [->|]; [vm_compute; split_and!; [done..|by right]|].
    destruct (times_three_halves_bounds base ltac:(lia)) as [H1 H2].
    assert (3 * base / 2 < 3 * 2 ^ 62) by (apply Z.div_lt_upper_bound; lia). split_and!; [lia..|by left]. }
  rewrite (proj2 (Z.ltb_lt _ _) Hlt).
  set (new := if times_three_halves base <=? base then _ else _).
  assert (base < new <= 3 * base / 2 + 2 ^ 13 + 1 /\ new < 2 ^ 64 /\
    (3 * base < 2 ^ 53 -> new = Z.max (base + 1) (3 * base / 2))) as (H1 & H2 & H3).
  { unfold new. destruct (Z.leb_spec (times_three_halves base) base).
    - assert (base = 1) as -> by lia. vm_compute. by split_and!.
    - split_and!; [lia..|]. intros Hs. rewrite (times_three_halves_exact base) in * by lia. lia. }
  split_and!; [lia..| | |done|].
  - unfold in_range, min_int, max_int; cbn; lia.
  - unfold in_range, min_int, max_int; cbn; lia.
  - intros b. by rewrite estimate_of_set, He.
Qed.

(** An out-of-gas bump raises the cached estimate of its bucket, and only of its
    bucket, strictly above the gas of the failed attempt (above the cached estimate
    when that is unknown): exactly by half up to [2^53 / 3], with a rounding error
    below [2^13 + 1] beyond, without overflow below [2^63]. With nothing to start
    from it changes no estimate and returns 0. *)
Theorem bumpEstimate_correct overflow s bucket gasWanted :
  let base := bump_base s bucket gasWanted in
  0 <= base < 2 ^ 63 ->
  let '(s', newEstimate) := bumpEstimateForOutOfGas overflow s bucket gasWanted in
  (base = 0 -> newEstimate = 0 /\ forall b, estimate_of s' b = estimate_of s b) /\
  (0 < base ->
     base < newEstimate <= 3 * base / 2 + 2 ^ 13 + 1 /\ in_range uint64 newEstimate /\
     (3 * base < 2 ^ 53 -> newEstimate = Z.max (base + 1) (3 * base / 2)) /\
     forall b, estimate_of s' b = if decide (b = bucket) then Some newEstimate else estimate_of s b).
Proof. exact (bump_spec overflow s bucket gasWanted). Qed.

(** ** The chain

    A transaction as the node reports it, and the parts of a transaction under
    construction that the reporter sets. *)
Record ResultTx := mkResultTx { tx_Code : Z; GasWanted : Z; GasUsed : Z }.

Record txFactory := mkTxFactory {
  tf_sequence : Z; tf_gasPrices : string; tf_timeoutHeight : Z; tf_timeoutTimestamp : Time;
  tf_unordered : bool; tf_gas : Z; tf_gasAdjustment : Q
}.

Class TxLibs (W : Type) := {
  time_Now : W -> W * Time;
  (** A request with fallback over the endpoints: its result. *)
  GetLatestBlock : W -> W * (go_error + Z);
  Status_LatestBlockHeight : W -> W * (go_error + Z);
  Tx : W -> list Z -> W * (go_error + ResultTx);
  Prepare : W -> txFactory -> W * (go_error + txFactory);
  CalculateGas : W -> txFactory -> list sdk_Msg -> W * (go_error + Z);
  BuildUnsignedTx : W -> txFactory -> list sdk_Msg -> W * (go_error + list Z);
  Sign : W -> txFactory -> list Z -> W * (go_error + list Z);
  TxEncoder : W -> list Z -> W * (go_error + list Z);
  broadcastTx : W -> list Z -> W * (option TxResponse * option go_error);
  (** [select] on [ctx.Done()] and a timer: the error of the context, if done. *)
  select_ctx : W -> W * option go_error;
  (** [utils.QueryIDFromData], and the decoding of the outer layer of query data. *)
  QueryIDFromData : list Z -> list Z;
  unpack_query_type : list Z -> option string
}.

Section Tx.
Context {W : Type} `{Libs : TxLibs W}.

Record Config := mkConfig {
  accAddr : string; chainID : string; minGasFee : string;
  unorderedTxTimeout : Duration; txTimeoutHeightOffset : Z;
  MarketParams : list MarketParam
}.
Variable cfg : Config.
Variable overflow : Z -> Z.

(** [GetQueryType]: the empty text when the data does not decode. *)
Definition GetQueryType (querydata : list Z) : string := default "" (unpack_query_type querydata).

Definition marketPairForQueryData (queryData : list Z) : string :=
  let queryDataHex := hex_EncodeToString queryData in
  match list_find (fun marketParam => MarketConfig.QueryData marketParam = queryDataHex) (MarketParams cfg) with
  | Some (_, marketParam) => Pair marketParam
  | None => ""
  end.

Definition isSpotPriceSubmitValue (msg : sdk_Msg) : bool :=
  match msg with
  | SubmitValue m => strings_EqualFold (GetQueryType (msg_QueryData m)) "SpotPrice"
  | _ => false
  end.

Definition bucketForTx (msg : sdk_Msg) (isBridge : bool) : string :=
  if isBridge then bridgeGasBucketKey
  else if isSpotPriceSubmitValue msg then spotPriceGasBucketKey
  else type_name msg.

Definition maxAttemptsForTx (msg : sdk_Msg) : nat :=
  if isSpotPriceSubmitValue msg then 2%nat else defaultMaxTxAttempts.

(** *** Waiting *)
Record txWaitDebugInfo := mkTxWaitDebugInfo {
  di_TxHash : string; di_QueryMetaId : Z; di_QueryId : string; di_QueryType : string;
  di_QueryData : string; di_ReportValue : string; di_MarketPair : string; di_Reporter : string;
  di_ChainID : string; di_Bucket : string; di_BroadcastHeight : Z; di_TimeoutHeight : Z;
  di_TimeoutTimestamp : Time; di_GasEstimate : Z
}.

Definition buildTxWaitDebugInfo (queryMetaId : Z) (bucket : string) (broadcastHeight timeoutHeight : Z)
    (timeoutTimestamp : Time) (gasEstimate : Z) (txHash : string) (msg : sdk_Msg) : txWaitDebugInfo :=
  let info queryId queryType queryData value pair :=
    mkTxWaitDebugInfo txHash queryMetaId queryId queryType queryData value pair (accAddr cfg) (chainID cfg)
      bucket broadcastHeight timeoutHeight timeoutTimestamp gasEstimate in
  match msg with
  | SubmitValue submit =>
      let qd := msg_QueryData submit in
      info (hex_EncodeToString (QueryIDFromData qd)) (GetQueryType qd) (hex_EncodeToString qd)
        (msg_Value submit) (marketPairForQueryData qd)
  | _ => info "" "" "" "" ""
  end.

(** A request whose errors pass. *)
Definition LatestBlockHeight (w : W) : W * go Z :=
  let '(w, r) := Status_LatestBlockHeight w in (w, match r with inr h => Ok h | inl e => Err e end).

(** The loop of [WaitForBlockHeight]; [None] when [fuel] ticks were not enough. *)
Fixpoint WaitForBlockHeight (fuel : nat) (h : Z) (w : W) : option (W * go unit) :=
  match fuel with
  | O => None
  | S fuel =>
      match LatestBlockHeight w with
      | (w, Err err) => Some (w, Err err)
      | (w, Panic p) => Some (w, Panic p)
      | (w, Ok latestHeight) =>
          if h <=? latestHeight then Some (w, Ok tt)
          else
            match select_ctx w with
            | (w, Some err) => Some (w, Err (wrapf "timeout exceeded waiting for block, err" err))
            | (w, None) => WaitForBlockHeight fuel h w
            end
      end
  end.

Definition WaitForNBlocks (fuel : nat) (n : Z) (w : W) : option (W * go unit) :=
  match LatestBlockHeight w with
  | (w, Err err) => Some (w, Err err)
  | (w, Panic p) => Some (w, Panic p)
  | (w, Ok start) => WaitForBlockHeight fuel (wrap int64 (start + n)) w
  end.

Definition WaitForNextBlock (fuel : nat) (w : W) : option (W * go unit) := WaitForNBlocks fuel 1 w.

Definition not_found (err : go_error) : bool := contains "not found" (error_text err).

(** The error of the terminal miss. *)
Definition miss_error (hash : string) (waited : Z) (height : go Z) (debug : option txWaitDebugInfo) : go_error :=
  let head := "tx " +:+ hash +:+ " not found after waiting " +:+ pretty waited +:+ " blocks" in
  let latest := match height with Ok h => Some (pretty h) | _ => None end in
  ErrNew match debug, latest with
  | Some d, _ =>
      head +:+ " (queryId=" +:+ di_QueryId d +:+ " queryMetaId=" +:+ pretty (di_QueryMetaId d) +:+
      " queryType=" +:+ di_QueryType d +:+ " broadcastHeight=" +:+ pretty (di_BroadcastHeight d) +:+
      match latest with Some h => " latestBlockHeight=" +:+ h | None => "" end +:+
      " timeoutHeight=" +:+ pretty (di_TimeoutHeight d) +:+ ")"
  | None, Some h => head +:+ " (latestBlockHeight=" +:+ h +:+ ")"
  | None, None => head
  end.

(** What [WaitForTx] does when the transaction is still missing after two blocks. *)
Definition last_miss (hash : string) (bz : list Z) (waited : Z) (debug : option txWaitDebugInfo) (w : W) :
    W * go ResultTx :=
  let '(w, height) := LatestBlockHeight w in
  let miss := Err (miss_error hash waited height debug) in
  match height, debug with
  | Ok latestHeight, Some d =>
      if wrap uint64 latestHeight =? di_TimeoutHeight d then
        match select_ctx w with
        | (w, Some err) => (w, Err (wrapf "waiting to re-query tx at timeout height" err))
        | (w, None) =>
            match Tx w bz with
            | (w, inr retryResp) => (w, Ok retryResp)
            | (w, inl retryErr) =>
                if not_found retryErr then (w, miss)
                else (w, Err (ErrWrap ("fetching tx '" +:+ hash +:+ "'; err: ") retryErr ""))
            end
        end
      else (w, miss)
  | _, _ => (w, miss)
  end.

(** The loop of [WaitForTx]; [blocks] bounds a wait for the next block. *)
Fixpoint wait_loop (fuel blocks : nat) (hash : string) (bz : list Z) (debug : option txWaitDebugInfo)
    (waited : Z) (w : W) : option (W * go ResultTx) :=
  match fuel with
  | O => None
  | S fuel =>
      match Tx w bz with
      | (w, inr resp) => Some (w, Ok resp)
      | (w, inl err) =>
          if not_found err then
            if 2 <=? waited then Some (last_miss hash bz waited debug w)
            else
              '(w, r) ← WaitForNextBlock blocks w;
              match r with
              | Err err => Some (w, Err (wrapf "waiting for next block: err" err))
              | Panic p => Some (w, Panic p)
              | Ok _ => wait_loop fuel blocks hash bz debug (waited + 1) w
              end
          else Some (w, Err (ErrWrap ("fetching tx '" +:+ hash +:+ "'; err: ") err ""))
      end
  end.

Definition WaitForTx (fuel blocks : nat) (hash : string) (debug : option txWaitDebugInfo) (w : W) :
    option (W * go ResultTx) :=
  match hex_DecodeString hash with
  | Err err => Some (w, Err (ErrWrap ("unable to decode tx hash '" +:+ hash +:+ "'; err: ") err ""))
  | Panic p => Some (w, Panic p)
  | Ok bz => wait_loop fuel blocks hash bz debug 0 w
  end.

(** *** Sending

    The state that senders share: the gas estimates, [commitedIds] (its keys: the
    program only stores true), the nonce of timestamps, and the asynchronous
    refreshes of gas estimates that were started. *)
Record TxState := mkTxState {
  gas : gasEstimateState; commitedIds : gset Z; txTimeoutNonce : Z;
  refreshing : list (string * list sdk_Msg)
}.

Definition with_gas (g : gasEstimateState) (st : TxState) : TxState :=
  mkTxState g (commitedIds st) (txTimeoutNonce st) (refreshing st).
Definition with_commitedIds (ids : gset Z) (st : TxState) : TxState :=
  mkTxState (gas st) ids (txTimeoutNonce st) (refreshing st).

(** [time.Duration(nonce) * time.Nanosecond] converts to int64. *)
Definition GetUniqueUnorderedTimeout (w : W) (st : TxState) : W * TxState * Time :=
  let nonce := wrap uint64 (txTimeoutNonce st + 1) in
  let '(w, now) := time_Now w in
  (w, mkTxState (gas st) (commitedIds st) nonce (refreshing st),
   time_Add (time_Add now (unorderedTxTimeout cfg)) (wrap int64 nonce)).

Definition newFactory (gasAdjustment : Q) : txFactory :=
  mkTxFactory 0 "" 0 zeroTime false defaultGas gasAdjustment.

Definition EstimateGas (w : W) (st : TxState) (txf : txFactory) (bucket : string) (msgs : list sdk_Msg) :
    W * TxState * go Z :=
  let '(g, (gasEstimate, ok)) := getCachedEstimate (gas st) bucket in
  let st := with_gas g st in
  if ok then (w, st, Ok gasEstimate)
  else
    let txf := mkTxFactory (tf_sequence txf) (tf_gasPrices txf) (tf_timeoutHeight txf) (tf_timeoutTimestamp txf)
                 (tf_unordered txf) (tf_gas txf) (gasAdjustment g bucket) in
    match CalculateGas w txf msgs with
    | (w, inl err) => (w, st, Err (wrapf "error calculating gas" err))
    | (w, inr gasEstimate) => (w, with_gas (setEstimate g bucket gasEstimate) st, Ok gasEstimate)
    end.

(** The goroutine of [refreshGasEstimateAsync], when it runs. *)
Definition refreshGasEstimate (w : W) (st : TxState) (bucket : string) (msgs : list sdk_Msg) : W * TxState :=
  match Prepare w (newFactory (gasAdjustment (gas st) bucket)) with
  | (w, inl _) => (w, st)
  | (w, inr txf) =>
      match CalculateGas w txf msgs with
      | (w, inl _) => (w, st)
      | (w, inr gasEstimate) =>
          (w, with_gas (raiseEstimateIfHigher (gas st) bucket gasEstimate).1 st)
      end
  end.

Definition with_tx_fields (timeoutHeight : Z) (timeoutTimestamp : Time) (txf : txFactory) : txFactory :=
  mkTxFactory 0 (minGasFee cfg) timeoutHeight timeoutTimestamp true (tf_gas txf) (tf_gasAdjustment txf).
Definition with_gas_limit (g : Z) (txf : txFactory) : txFactory :=
  mkTxFactory (tf_sequence txf) (tf_gasPrices txf) (tf_timeoutHeight txf) (tf_timeoutTimestamp txf)
    (tf_unordered txf) g (tf_gasAdjustment txf).

(** The construction and signature of the transaction: its bytes. *)
Definition encode_tx (txf : txFactory) (msgs : list sdk_Msg) (w : W) : W * go (list Z) :=
  match BuildUnsignedTx w txf msgs with
  | (w, inl err) => (w, Err (wrapf "error building unsigned transaction" err))
  | (w, inr txn) =>
      match Sign w txf txn with
      | (w, inl err) => (w, Err (wrapf "error when signing transaction" err))
      | (w, inr txn) =>
          match TxEncoder w txn with
          | (w, inl err) => (w, Err (wrapf "error encoding transaction" err))
          | (w, inr txBytes) => (w, Ok txBytes)
          end
      end
  end.

(** The fuel of the two loops of the wait is part of a sender. *)
Variables fuel blocks : nat.

(** [sendTxOnce]: the response of an attempt. A failed estimate leaves the default
    gas. [None] when the wait ran out of fuel. *)
Definition sendTxOnce (queryMetaId : Z) (bucket : string) (msg : sdk_Msg) (msgs : list sdk_Msg)
    (w : W) (st : TxState) : option (W * TxState * go ResultTx) :=
  match GetLatestBlock w with
  | (w, inl err) => Some (w, st, Err (wrapf "error getting block" err))
  | (w, inr broadcastHeight) =>
      let timeoutHeight := wrap uint64 (wrap uint64 broadcastHeight + txTimeoutHeightOffset cfg) in
      let '(w, st, timeoutTimestamp) := GetUniqueUnorderedTimeout w st in
      match Prepare w (with_tx_fields timeoutHeight timeoutTimestamp (newFactory defaultGasAdjustment)) with
      | (w, inl err) => Some (w, st, Err (wrapf "error preparing transaction factory" err))
      | (w, inr txf) =>
          let '(w, st, estimate) := EstimateGas w st txf bucket (msg :: msgs) in
          let gasEstimate := match estimate with Ok g => g | _ => 0 end in
          let txf := match estimate with Ok g => with_gas_limit g txf | _ => txf end in
          match encode_tx txf (msg :: msgs) w with
          | (w, Err err) => Some (w, st, Err err)
          | (w, Panic p) => Some (w, st, Panic p)
          | (w, Ok txBytes) =>
              let '(w, (res, err)) := broadcastTx w txBytes in
              match handleBroadcastResult res err, res with
              | Err err, _ => Some (w, st, Err (wrapf "error broadcasting transaction result" err))
              | Panic p, _ => Some (w, st, Panic p)
              | Ok _, None => Some (w, st, Panic NilDereference)
              | Ok _, Some res =>
                  let debug := buildTxWaitDebugInfo queryMetaId bucket broadcastHeight timeoutHeight
                                 timeoutTimestamp gasEstimate (TxHash res) msg in
                  '(w, r) ← WaitForTx fuel blocks (TxHash res) (Some debug) w;
                  Some (w, st, match r with
                               | Err err => Err (wrapf "error waiting for transaction" err)
                               | r => r
                               end)
              end
          end
      end
  end.

(** The loop over the attempts: [n] are left, [lastResp] is the response of the
    last. *)
Fixpoint attempts_loop (n : nat) (queryMetaId : Z) (bucket : string) (msg : sdk_Msg) (msgs : list sdk_Msg)
    (lastResp : go ResultTx) (w : W) (st : TxState) : option (W * TxState * go ResultTx) :=
  match n with
  | O => Some (w, st, lastResp)
  | S n =>
      '(w, st, r) ← sendTxOnce queryMetaId bucket msg msgs w st;
      match r with
      | Ok txnResponse =>
          if negb (tx_Code txnResponse =? outOfGasCode) then Some (w, st, Ok txnResponse)
          else
            let '(g, _) := bumpEstimateForOutOfGas overflow (gas st) bucket (wrap uint64 (GasWanted txnResponse)) in
            let st := mkTxState g (commitedIds st) (txTimeoutNonce st) (refreshing st ++ [(bucket, msg :: msgs)]) in
            attempts_loop n queryMetaId bucket msg msgs (Ok txnResponse) w st
      | r => Some (w, st, r)
      end
  end.

Definition tx_succeeded (r : go ResultTx) : bool :=
  match r with Ok resp => tx_Code resp =? 0 | _ => false end.

(** [sendTx]: the deferred function forgets the query unless the transaction
    succeeded. (It also runs when the call panics.) *)
Definition sendTx (queryMetaId : Z) (isBridge : bool) (msgs : list sdk_Msg) (w : W) (st : TxState) :
    option (W * TxState * go ResultTx) :=
  match msgs with
  | [] => Some (w, st, Err (ErrNew "no messages provided"))
  | msg :: msgs =>
      '(w, st, r) ← attempts_loop (maxAttemptsForTx msg) queryMetaId (bucketForTx msg isBridge) msg msgs
                      (Ok (mkResultTx 0 0 0)) w st;
      Some (w, if negb (tx_succeeded r) && negb (queryMetaId =? 0)
               then with_commitedIds (commitedIds st ∖ {[queryMetaId]}) st else st, r)
  end.

(** ** The wait ends

    The reference: three lookups with a block between them, and the last miss. *)
Section Wait.
Variables (hash : string) (bz : list Z) (debug : option txWaitDebugInfo).

Definition look_up (k : W -> option (W * go ResultTx)) (w : W) : option (W * go ResultTx) :=
  match Tx w bz with
  | (w, inr resp) => Some (w, Ok resp)
  | (w, inl err) =>
      if not_found err then k w
      else Some (w, Err (ErrWrap ("fetching tx '" +:+ hash +:+ "'; err: ") err ""))
  end.

Definition after_block (k : W -> option (W * go ResultTx)) (w : W) : option (W * go ResultTx) :=
  match WaitForNextBlock blocks w with
  | None => None
  | Some (w, Err err) => Some (w, Err (wrapf "waiting for next block: err" err))
  | Some (w, Panic p) => Some (w, Panic p)
  | Some (w, Ok _) => k w
  end.

Definition wait_reference : W -> option (W * go ResultTx) :=
  look_up (after_block (look_up (after_block (look_up (fun w => Some (last_miss hash bz 2 debug w)))))).

Lemma wait_loop_unroll n waited w :
  wait_loop (S n) blocks hash bz debug waited w =
    look_up (fun w => if 2 <=? waited then Some (last_miss hash bz waited debug w)
                      else after_block (wait_loop n blocks hash bz debug (waited + 1)) w) w.
Proof.
  cbn [wait_loop]. unfold look_up, after_block. destruct (Tx w bz) as [w1 [e|r]]; [|done].
  destruct (not_found e); [|done]. destruct (2 <=? waited); [done|].
  by destruct (WaitForNextBlock blocks w1) as [[w2 [u|e'|p]]|].
Qed.

Lemma wait_loop_reference n w : (3 <= n)%nat -> wait_loop n blocks hash bz debug 0 w = wait_reference w.
Proof.
  intros Hn. destruct n as [|[|[|n]]]; [lia..|].
  rewrite wait_loop_unroll. unfold wait_reference. cbn [Z.leb Z.compare].
  unfold look_up at 1 2, after_block at 1 2. destruct (Tx w bz) as [w1 [e|r]]; [|done].
  destruct (not_found e); [|done]. destruct (WaitForNextBlock blocks w1) as [[w2 [u|e'|p]]|]; [|done..].
  change (0 + 1) with 1. rewrite wait_loop_unroll. cbn [Z.leb Z.compare].
  unfold look_up at 1 2, after_block at 1 2. destruct (Tx w2 bz) as [w3 [e1|r1]]; [|done].
  destruct (not_found e1); [|done]. destruct (WaitForNextBlock blocks w3) as [[w4 [u1|e'|p]]|]; [|done..].
  change (1 + 1) with 2. rewrite wait_loop_unroll. done.
Qed.

End Wait.

Lemma LatestBlockHeight_no_panic w p : (LatestBlockHeight w).2 <> Panic p.
Proof. unfold LatestBlockHeight. by destruct (Status_LatestBlockHeight w) as [w1 [e|h]]. Qed.

Lemma WaitForBlockHeight_Ok n h w w' r :
  WaitForBlockHeight n h w = Some (w', r) ->
  match r with
  | Ok _ => exists w0 h', Status_LatestBlockHeight w0 = (w', inr h') /\ h <= h'
  | Err _ => True
  | Panic _ => False
  end.
Proof.
  revert w. induction n as [|n IH]; intros w; cbn [WaitForBlockHeight]; [done|]. unfold LatestBlockHeight.
  destruct (Status_LatestBlockHeight w) as [w1 [e|h']] eqn:E; [by intros [= <- <-]|].
  destruct (Z.leb_spec h h'); [intros [= <- <-]; by exists w, h'|].
  destruct (select_ctx w1) as [w2 [e|]]; [by intros [= <- <-]|]. apply IH.
Qed.

Lemma WaitForNextBlock_no_panic n w w' p : WaitForNextBlock n w <> Some (w', Panic p).
Proof.
  unfold WaitForNextBlock, WaitForNBlocks. pose proof (LatestBlockHeight_no_panic w) as Hp.
  destruct (LatestBlockHeight w) as [w1 [h|e|p']]; cbn in Hp; [|done|by destruct (Hp p')].
  intros H%WaitForBlockHeight_Ok. done.
Qed.

(** What a wait returns: a transaction that a node returned for the hash, or an
    error. *)
Section WaitResults.
Variables (hash : string) (bz : list Z) (debug : option txWaitDebugInfo).

Definition genuine (o : option (W * go ResultTx)) : Prop :=
  forall w' r, o = Some (w', r) ->
  match r with
  | Ok resp => exists w0 w1, Tx w0 bz = (w1, inr resp)
  | Err _ => True
  | Panic _ => False
  end.
Definition ends (o : option (W * go ResultTx)) : Prop := exists w' r, o = Some (w', r).

Lemma last_miss_spec w :
  let '(_, r) := last_miss hash bz 2 debug w in
  match r with
  | Ok resp => exists w0 w1, Tx w0 bz = (w1, inr resp)
  | Err _ => True
  | Panic _ => False
  end.
Proof.
  unfold last_miss. destruct (LatestBlockHeight w) as [w1 [h|e|p]]; [|done..].
  destruct debug as [d|]; [|done]. destruct (wrap uint64 h =? _); [|done].
  destruct (select_ctx w1) as [w2 [e|]]; [done|].
  destruct (Tx w2 bz) as [w3 [e|r]] eqn:E; [by destruct (not_found e)|]. by exists w2, w3.
Qed.
Lemma look_up_genuine k w : (forall w, genuine (k w)) -> genuine (look_up hash bz k w).
Proof.
  intros Hk w' r. unfold look_up. destruct (Tx w bz) as [w1 [e|resp]] eqn:E.
  - destruct (not_found e); [apply Hk|by intros [= <- <-]].
  - intros [= <- <-]. by exists w, w1.
Qed.

Lemma after_block_genuine k w : (forall w, genuine (k w)) -> genuine (after_block k w).
Proof.
  intros Hk w' r. unfold after_block. destruct (WaitForNextBlock blocks w) as [[w1 [u|e|p]]|] eqn:E;
    [apply Hk|by intros [= <- <-]| |done].
  by apply WaitForNextBlock_no_panic in E.
Qed.

Lemma look_up_ends k w : (forall w, ends (k w)) -> ends (look_up hash bz k w).
Proof.
  intros Hk. unfold look_up. destruct (Tx w bz) as [w1 [e|resp]]; [|by eexists _, _].
  destruct (not_found e); [apply Hk|by eexists _, _].
Qed.

Lemma after_block_ends k w :
  (forall w, WaitForNextBlock blocks w <> None) -> (forall w, ends (k w)) -> ends (after_block k w).
Proof.
  intros Hb Hk. unfold after_block. specialize (Hb w).
  destruct (WaitForNextBlock blocks w) as [[w1 [u|e|p]]|]; [apply Hk|by eexists _, _..|done].
Qed.
End WaitResults.

(** The wait for a height ends once a node reports it, fails, or the context ends. *)
Lemma WaitForBlockHeight_ends n h (states : nat -> W) :
  (forall k, (k < n)%nat -> exists w1 h', Status_LatestBlockHeight (states k) = (w1, inr h') /\ h' < h /\
     select_ctx w1 = (states (S k), None)) ->
  (match Status_LatestBlockHeight (states n) with
   | (_, inl _) => True
   | (w1, inr h') => h <= h' \/ (select_ctx w1).2 <> None
   end) ->
  exists w' r, WaitForBlockHeight (S n) h (states 0%nat) = Some (w', r).
Proof.
  revert states. induction n as [|n IH]; intros states Hsteps Hend; cbn [WaitForBlockHeight]; unfold LatestBlockHeight.
  - destruct (Status_LatestBlockHeight (states 0%nat)) as [w1 [e|h']]; [by eexists _, _|].
    destruct (Z.leb_spec h h'); [by eexists _, _|]. destruct Hend as [|Hs]; [lia|].
    destruct (select_ctx w1) as [w2 [e|]]; [by eexists _, _|done].
  - destruct (Hsteps 0%nat ltac:(lia)) as (w1 & h' & -> & Hlt & Hs).
    rewrite (proj2 (Z.leb_gt _ _) Hlt), Hs.
    apply (IH (fun k => states (S k))); [|done]. intros k Hk. apply Hsteps. lia.
Qed.

(** The wait for a transaction is bounded: three rounds of its loop are enough,
    which is the reference of three lookups with a block between them (and one more
    lookup at the timeout height). It ends when the waits for the next block do,
    never panics, and a transaction it returns is one that a node returned for the
    hash; an undecodable hash is an error before any lookup. *)
Theorem WaitForTx_correct hash debug w :
  (3 <= fuel)%nat ->
  match hex_DecodeString hash with
  | Ok bz =>
      WaitForTx fuel blocks hash debug w = wait_reference hash bz debug w /\
      ((forall w, WaitForNextBlock blocks w <> None) ->
       exists w' r, WaitForTx fuel blocks hash debug w = Some (w', r)) /\
      (forall w' r, WaitForTx fuel blocks hash debug w = Some (w', r) ->
       match r with
       | Ok resp => exists w0 w1, Tx w0 bz = (w1, inr resp)
       | Err _ => True
       | Panic _ => False
       end)
  | _ => exists e, WaitForTx fuel blocks hash debug w = Some (w, Err e)
  end.
Proof.
  intros Hf. unfold WaitForTx. pose proof (hex_DecodeString_no_panic hash) as Hp.
  destruct (hex_DecodeString hash) as [bz|e|p]; [|by eexists|by destruct (Hp p)].
  rewrite wait_loop_reference by done. split; [done|]. split; unfold wait_reference.
  - intros Hb. apply look_up_ends; intros w1. apply after_block_ends; [done|]; intros w2.
    apply look_up_ends; intros w3. apply after_block_ends; [done|]; intros w4.
    apply look_up_ends; intros w5. destruct (last_miss hash bz 2 debug w5) as [w' r]. by exists w', r.
  - apply look_up_genuine; intros w1. apply after_block_genuine; intros w2.
    apply look_up_genuine; intros w3. apply after_block_genuine; intros w4.
    apply look_up_genuine; intros w5 w' r [= E]. pose proof (last_miss_spec hash bz debug w5) as Hl. by rewrite E in Hl.
Qed.

(** ** Sending *)

(** The attempts that the loop makes: the state each starts in and its response. *)
Definition out_of_gas (r : go ResultTx) : Prop := exists resp, r = Ok resp /\ tx_Code resp = outOfGasCode.

Fixpoint retried (bucket : string) (tries : list (TxState * go ResultTx)) : Prop :=
  match tries with
  | (_, r) :: (((st, _) :: _) as tries) =>
      (exists resp, r = Ok resp /\ tx_Code resp = outOfGasCode /\
         (0 < GasWanted resp < 2 ^ 63 ->
          exists e, estimate_of (gas st) bucket = Some e /\ GasWanted resp < e)) /\
      retried bucket tries
  | _ => True
  end.

Lemma refreshGasEstimate_raises w st bucket msgs b e :
  estimate_of (gas st) b = Some e ->
  exists e', estimate_of (gas (refreshGasEstimate w st bucket msgs).2) b = Some e' /\ e <= e'.
Proof.
  intros He. unfold refreshGasEstimate.
  destruct (Prepare w _) as [w1 [err|txf]]; [by exists e|].
  destruct (CalculateGas w1 txf msgs) as [w2 [err|g]]; [by exists e|].
  pose proof (raiseEstimateIfHigher_spec (gas st) bucket g) as H. cbn.
  destruct (raiseEstimateIfHigher (gas st) bucket g) as [s' [updated previous]]. destruct H as [H _].
  cbn. rewrite H. case_decide; [|by exists e]. subst. rewrite He. exists (Z.max e g). split; [done|lia].
Qed.

Lemma sendTxOnce_keeps queryMetaId bucket msg msgs w st w' st' r :
  sendTxOnce queryMetaId bucket msg msgs w st = Some (w', st', r) ->
  commitedIds st' = commitedIds st /\ refreshing st' = refreshing st.
Proof.
  unfold sendTxOnce, GetUniqueUnorderedTimeout, EstimateGas.
  intros H. repeat (case_match; simplify_eq/=; try done);
    match goal with H : context [WaitForTx ?a ?b ?c ?d ?e] |- _ =>
      destruct (WaitForTx a b c d e) as [[??]|]; simplify_eq/=; try done end.
Qed.

(** An attempt of the loop, from a state of the senders. *)
Definition attempted (queryMetaId : Z) (bucket : string) (msg : sdk_Msg) (msgs : list sdk_Msg)
    (t : TxState * go ResultTx) : Prop :=
  exists w w' st', sendTxOnce queryMetaId bucket msg msgs w t.1 = Some (w', st', t.2).

Lemma bump_raises s bucket gasWanted :
  0 < gasWanted < 2 ^ 63 ->
  exists e, estimate_of (bumpEstimateForOutOfGas overflow s bucket (wrap uint64 gasWanted)).1 bucket = Some e /\
    gasWanted < e.
Proof.
  intros Hg. rewrite (wrap_small uint64) by (unfold go_width, in_range, min_int, max_int; cbn; lia).
  pose proof (bump_spec overflow s bucket gasWanted) as H. cbv zeta in H.
  assert (bump_base s bucket gasWanted = gasWanted) as Hb.
  { unfold bump_base. destruct (Z.eqb_spec gasWanted 0); [lia|done]. }
  rewrite Hb in H. specialize (H ltac:(lia)).
  destruct (bumpEstimateForOutOfGas overflow s bucket gasWanted) as [s' new]. destruct H as [_ H].
  destruct (H ltac:(lia)) as (Hn & _ & _ & He). exists new. cbn. rewrite He, decide_True by done. split; [done|lia].
Qed.

Lemma attempts_loop_S n queryMetaId bucket msg msgs lastResp w st w' st' r :
  attempts_loop (S n) queryMetaId bucket msg msgs lastResp w st = Some (w', st', r) ->
  exists w1 st1 r1, sendTxOnce queryMetaId bucket msg msgs w st = Some (w1, st1, r1) /\
    ((~ out_of_gas r1 /\ w' = w1 /\ st' = st1 /\ r = r1) \/
     exists resp st2, r1 = Ok resp /\ tx_Code resp = outOfGasCode /\
       commitedIds st2 = commitedIds st1 /\
       gas st2 = (bumpEstimateForOutOfGas overflow (gas st1) bucket (wrap uint64 (GasWanted resp))).1 /\
       attempts_loop n queryMetaId bucket msg msgs (Ok resp) w1 st2 = Some (w', st', r)).
Proof.
  cbn [attempts_loop].
  destruct (sendTxOnce queryMetaId bucket msg msgs w st) as [[[w1 st1] r1]|]; cbn [mbind option_bind]; [|done].
  intros H. exists w1, st1, r1. split; [done|].
  destruct r1 as [resp|e|p]; [|left; injection H as <- <- <-; split_and!; try done; by intros (? & ? & _)..].
  destruct (Z.eqb_spec (tx_Code resp) outOfGasCode) as [Ho|Ho]; cbn [negb] in H.
  - right. destruct (bumpEstimateForOutOfGas _ _ _ _) as [g new] eqn:Eb.
    exists resp, (mkTxState g (commitedIds st1) (txTimeoutNonce st1) (refreshing st1 ++ [(bucket, msg :: msgs)])).
    rewrite Eb. by split_and!.
  - left. injection H as <- <- <-. split_and!; try done. intros (resp' & [= <-] & Hc). done.
Qed.

Lemma attempts_loop_spec n queryMetaId bucket msg msgs lastResp w st w' st' r :
  attempts_loop (S n) queryMetaId bucket msg msgs lastResp w st = Some (w', st', r) ->
  commitedIds st' = commitedIds st /\
  exists tries before, Forall (attempted queryMetaId bucket msg msgs) tries /\
    (length tries <= S n)%nat /\ head tries.*1 = Some st /\ retried bucket tries /\
    last tries = Some (before, r) /\
    ((length tries < S n)%nat -> ~ out_of_gas r).
Proof.
  revert lastResp w st. induction n as [|n IH]; intros lastResp w st
    (w1 & st1 & r1 & E & H)%attempts_loop_S;
    assert (attempted queryMetaId bucket msg msgs (st, r1)) as Ha by (by exists w, w1, st1);
    destruct (sendTxOnce_keeps _ _ _ _ _ _ _ _ _ E) as [Hk _].
  all: destruct H as [(Ho & -> & -> & ->)|(resp & st2 & -> & Hc & Hk2 & Hg & H)].
  1,3: split; [done|]; exists [(st, r1)], st; split_and!; try done; first [by repeat constructor|cbn; lia].
  - injection H as <- <- <-. split; [by rewrite Hk2|].
    exists [(st, Ok resp)], st. split_and!; try done; first [by repeat constructor|cbn; lia].
  - destruct (IH _ _ _ H) as (Hk' & tries & before & Hall & Hlen & Hhead & Hret & Hlast & Hend).
    split; [by rewrite Hk', Hk2|]. exists ((st, Ok resp) :: tries), before.
    destruct tries as [|[st2' r2] tries]; [done|]. cbn in Hhead. injection Hhead as ->.
    split_and!; try done.
    + by constructor.
    + cbn in *. lia.
    + split; [|done]. exists resp. split_and!; try done. intros Hgw. rewrite Hg. by apply bump_raises.
    + intros Hl. apply Hend. cbn in *. lia.
Qed.

(** *** Every send ends

    The context of a transaction has a timeout ([context.WithTimeout]): some time
    remains in every world. No request gains time, a turn of the wait (the tick of
    its ticker) takes some, and with an expired context the nodes answer nothing. *)
Record timed (remaining : W -> Z) : Prop := {
  timed_status : forall w, remaining (Status_LatestBlockHeight w).1 <= remaining w;
  timed_select : forall w w', select_ctx w = (w', None) -> remaining w' < remaining w;
  timed_expired : forall w, remaining w <= 0 -> exists e, (Status_LatestBlockHeight w).2 = inl e;
  timed_fuel : forall w, remaining w < Z.of_nat blocks
}.

Lemma WaitForBlockHeight_timed remaining n h w :
  timed remaining -> remaining w < Z.of_nat n -> 0 < Z.of_nat n -> WaitForBlockHeight n h w <> None.
Proof using Type.
  clear overflow cfg fuel. intros [Hst Hsel Hexp _]. revert w. induction n as [|n IH]; intros w Hn Hpos; [lia|].
  cbn [WaitForBlockHeight]. unfold LatestBlockHeight. pose proof (Hst w) as H1. pose proof (Hexp w) as H2.
  destruct (Status_LatestBlockHeight w) as [w1 [e|h']]; [done|]. cbn [fst snd] in H1, H2.
  destruct (h <=? h'); [done|]. destruct (select_ctx w1) as [w2 [e|]] eqn:Es; [done|].
  apply Hsel in Es. assert (0 < remaining w).
  { destruct (decide (remaining w <= 0)) as [Hle|]; [|lia]. by destruct (H2 Hle). }
  apply IH; lia.
Qed.

Lemma WaitForNextBlock_timed remaining w : timed remaining -> WaitForNextBlock blocks w <> None.
Proof using Type.
  clear overflow cfg fuel. intros Ht. unfold WaitForNextBlock, WaitForNBlocks, LatestBlockHeight.
  pose proof (timed_expired _ Ht w) as Hx. pose proof (timed_status _ Ht w) as Hs. pose proof (timed_fuel _ Ht) as Hf.
  destruct (Status_LatestBlockHeight w) as [w1 [e|h]]; [done|]. cbn [fst snd] in Hx, Hs.
  assert (0 < remaining w).
  { destruct (decide (remaining w <= 0)) as [Hle|]; [|lia]. by destruct (Hx Hle). }
  pose proof (Hf w). pose proof (Hf w1). apply (WaitForBlockHeight_timed remaining); [done|lia..].
Qed.

Lemma WaitForTx_timed remaining hash debug w :
  (3 <= fuel)%nat -> timed remaining -> ends (WaitForTx fuel blocks hash debug w).
Proof using Type.
  intros Hf Ht. unfold WaitForTx. destruct (hex_DecodeString hash) as [bz|e|p]; [|by eexists _, _..].
  rewrite wait_loop_reference by done. unfold wait_reference.
  apply look_up_ends; intros w1. apply after_block_ends; [intros; by eapply WaitForNextBlock_timed|]; intros w2.
  apply look_up_ends; intros w3. apply after_block_ends; [intros; by eapply WaitForNextBlock_timed|]; intros w4.
  apply look_up_ends; intros w5. destruct (last_miss hash bz 2 debug w5) as [w' r]. by exists w', r.
Qed.

Lemma sendTxOnce_timed remaining queryMetaId bucket msg msgs w st :
  (3 <= fuel)%nat -> timed remaining -> exists x, sendTxOnce queryMetaId bucket msg msgs w st = Some x.
Proof using Type.
  intros Hf Ht. unfold sendTxOnce. destruct (GetLatestBlock w) as [w1 [e|broadcastHeight]]; [by eexists|].
  destruct (GetUniqueUnorderedTimeout w1 st) as [[w2 st2] timeoutTimestamp].
  destruct (Prepare w2 _) as [w3 [e|txf]]; [by eexists|].
  destruct (EstimateGas w3 st2 txf bucket (msg :: msgs)) as [[w4 st4] estimate].
  destruct (encode_tx _ _ w4) as [w5 [txBytes|e|p]]; [|by eexists..].
  destruct (broadcastTx w5 txBytes) as [w6 [res err]].
  destruct (handleBroadcastResult res err); [|by eexists..]. destruct res as [res|]; [|by eexists].
  match goal with |- context [WaitForTx fuel blocks ?h ?d ?v] =>
    destruct (WaitForTx_timed remaining h d v Hf Ht) as (w7 & r & ->) end.
  by eexists.
Qed.

Lemma attempts_loop_timed remaining n queryMetaId bucket msg msgs lastResp w st :
  (3 <= fuel)%nat -> timed remaining -> exists x, attempts_loop n queryMetaId bucket msg msgs lastResp w st = Some x.
Proof using Type.
  intros Hf Ht. revert lastResp w st. induction n as [|n IH]; intros lastResp w st; cbn [attempts_loop]; [by eexists|].
  destruct (sendTxOnce_timed remaining queryMetaId bucket msg msgs w st Hf Ht) as [[[w1 st1] r1] ->].
  cbn [mbind option_bind]. destruct r1 as [resp|e|p]; [|by eexists..].
  destruct (tx_Code resp =? outOfGasCode); cbn [negb]; [|by eexists].
  destruct (bumpEstimateForOutOfGas _ _ _ _) as [g new]. apply IH.
Qed.

(** C15: Sending a transaction ends when its context has a timeout: three rounds of
    its wait and as many turns of a wait for a block as time remains are enough. It
    makes at least one attempt and at most two for a spot price and three for
    anything else. Every attempt but the last ran out of gas, and (when the chain
    reports a number of wanted gas in [1, 2^63)) the next then starts with an
    estimate above that number; the last one decides the result, and
    unless the attempts are used up it did not run out of gas. The query stays
    marked as committed only when the transaction succeeded; no other query is
    touched. *)
Theorem sendTx_correct queryMetaId isBridge msg msgs w st :
  (forall remaining, (3 <= fuel)%nat -> timed remaining ->
     exists w' st' r, sendTx queryMetaId isBridge (msg :: msgs) w st = Some (w', st', r)) /\
  forall w' st' r, sendTx queryMetaId isBridge (msg :: msgs) w st = Some (w', st', r) ->
  let bucket := bucketForTx msg isBridge in
  exists tries before, Forall (attempted queryMetaId bucket msg msgs) tries /\
    (length tries <= maxAttemptsForTx msg)%nat /\ head tries.*1 = Some st /\ retried bucket tries /\
    last tries = Some (before, r) /\
    ((length tries < maxAttemptsForTx msg)%nat -> ~ out_of_gas r) /\
    commitedIds st' = if tx_succeeded r || (queryMetaId =? 0) then commitedIds st
                      else commitedIds st ∖ {[queryMetaId]}.
Proof.
  split.
  { intros remaining Hf Ht. unfold sendTx.
    destruct (attempts_loop_timed remaining (maxAttemptsForTx msg) queryMetaId (bucketForTx msg isBridge) msg msgs
      (Ok (mkResultTx 0 0 0)) w st Hf Ht) as [[[w1 st1] r1] ->]. cbn. by eexists _, _, _. }
  intros w' st' r H bucket. unfold sendTx in H.
  assert (exists n, maxAttemptsForTx msg = S n) as [n Hn]
    by (unfold maxAttemptsForTx; destruct (isSpotPriceSubmitValue msg); by eexists).
  rewrite Hn in *. destruct (attempts_loop _ _ _ _ _ _ _ _) as [[[w1 st1] r1]|] eqn:E; cbn [mbind option_bind] in H; [|done].
  destruct (attempts_loop_spec _ _ _ _ _ _ _ _ _ _ _ E) as (Hk & tries & before & Hall & Hlen & Hhead & Hret & Hlast & Hend).
  injection H as <- <- <-. exists tries, before. split_and!; try done.
  destruct (tx_succeeded r1), (queryMetaId =? 0); cbn; by rewrite ?Hk.
Qed.

(** *** Timestamps

    The timeouts of calls that read the clock in the worlds [ws], one after the
    other. *)
Fixpoint timeouts (ws : list W) (st : TxState) : list Time :=
  match ws with
  | [] => []
  | w :: ws => let '(_, st, t) := GetUniqueUnorderedTimeout w st in t :: timeouts ws st
  end.

Definition clock (w : W) : Time := (time_Now w).2.

Lemma timeouts_cons w ws st :
  0 <= txTimeoutNonce st < 2 ^ 63 - 1 ->
  timeouts (w :: ws) st =
    clock w + unorderedTxTimeout cfg + (txTimeoutNonce st + 1) ::
    timeouts ws (mkTxState (gas st) (commitedIds st) (txTimeoutNonce st + 1) (refreshing st)).
Proof using Type.
  clear overflow fuel blocks.
  intros Hn. cbn [timeouts]. unfold GetUniqueUnorderedTimeout, clock, time_Add.
  destruct (time_Now w) as [w1 now]. cbn [snd].
  rewrite (wrap_small uint64), (wrap_small int64); [done|..];
    unfold go_width, in_range, min_int, max_int; cbn; lia.
Qed.

Lemma timeouts_above ws st w :
  0 <= txTimeoutNonce st -> txTimeoutNonce st + Z.of_nat (length ws) < 2 ^ 63 ->
  Forall (fun w' => clock w <= clock w') ws ->
  Forall (fun t => clock w + unorderedTxTimeout cfg + txTimeoutNonce st < t) (timeouts ws st).
Proof using Type.
  clear overflow fuel blocks.
  revert st. induction ws as [|w' ws IH]; intros st H0 Hn Hw; [constructor|].
  rewrite length_cons in Hn. apply Forall_cons in Hw as [Hw Hws].
  rewrite timeouts_cons by lia. constructor; [lia|].
  eapply Forall_impl; [apply IH; cbn; [lia..|done]|]. cbn. intros t Ht. lia.
Qed.

(** The timeouts of transactions that read the clock one after the other are
    strictly increasing, so distinct, as long as the clock does not go back (and
    for [2^63] transactions). They are not distinct without that: the clock is read
    after the nonce is taken, and a call that reads it a nanosecond earlier than
    the call before it (by a step back, or because another sender overtakes it in
    between) gets the same timeout. *)
Theorem unordered_timeouts_unique st :
  0 <= txTimeoutNonce st ->
  (forall ws, txTimeoutNonce st + Z.of_nat (length ws) < 2 ^ 63 ->
     StronglySorted (fun w w' => clock w <= clock w') ws ->
     StronglySorted Z.lt (timeouts ws st) /\ NoDup (timeouts ws st)) /\
  (forall w w', txTimeoutNonce st + 2 < 2 ^ 63 -> clock w' = clock w - 1 ->
     exists t, timeouts [w; w'] st = [t; t]).
Proof using Type.
  clear overflow fuel blocks.
  intros H0. split.
  - intros ws Hn Hs. assert (StronglySorted Z.lt (timeouts ws st)) as Ht.
    { revert st H0 Hn. induction Hs as [|w ws Hs IH Hw]; intros st H0 Hn; [constructor|].
      rewrite length_cons in Hn. rewrite timeouts_cons by lia. constructor; [apply IH; cbn; lia|].
      pose proof (timeouts_above ws (mkTxState (gas st) (commitedIds st) (txTimeoutNonce st + 1) (refreshing st)) w) as Ha.
      cbn in Ha. specialize (Ha ltac:(lia) ltac:(lia) Hw).
      eapply Forall_impl; [exact Ha|]. cbn. intros t Hlt. lia. }
    split; [done|]. clear -Ht. induction Ht as [|t ts _ IH Ht]; constructor; [|done].
    intros Hin. rewrite Forall_forall in Ht. specialize (Ht t Hin). lia.
  - intros w w' Hn Hc. eexists. rewrite timeouts_cons by lia. rewrite timeouts_cons by (cbn; lia). cbn.
    rewrite Hc. f_equal. apply (f_equal (fun t => [t])). lia.
Qed.
End Tx.

(** ** Witnesses

    A world counts the lookups and the turns of a wait; its time ends at 100. The
    first transaction runs out of gas. *)
#[local] Instance ex_tx_libs : TxLibs nat := {|
  time_Now := fun w => (w, 1000);
  GetLatestBlock := fun w => (w, inr 10);
  Status_LatestBlockHeight := fun w =>
    (S w, if (w <? 100)%nat then inr (Z.of_nat w) else inl (ErrSentinel DeadlineExceeded));
  Tx := fun w _ => (S w, if (w <? 2)%nat then inr (mkResultTx 11 100000 100001) else inr (mkResultTx 0 150000 90000));
  Prepare := fun w txf => (w, inr txf);
  CalculateGas := fun w _ _ => (w, inr 100000);
  BuildUnsignedTx := fun w _ _ => (w, inr []);
  Sign := fun w _ txn => (w, inr txn);
  TxEncoder := fun w txn => (w, inr txn);
  broadcastTx := fun w _ => (S w, (Some (mkTxResponse 0 "" "ab"), None));
  select_ctx := fun w => (S w, None);
  QueryIDFromData := fun qd => qd;
  unpack_query_type := fun _ => Some "SpotPrice"
|}.

Definition ex_cfg := mkConfig "tellor1" "tellor-1" "0.1loya" 30 2 [].
Definition ex_tx_state := mkTxState (newGasEstimateState clientGasConfig) {[7; 8]} 0 [].
Definition ex_msg := SubmitValue (mkMsgSubmitValue "tellor1" [1; 2] "00").
Definition ex_sendTx := sendTx ex_cfg (fun _ => 0) 3 101 7 false [ex_msg] 0%nat ex_tx_state.

Lemma bumpEstimate_correct_witness :
  0 <= bump_base (gas ex_tx_state) "bridge" 100000 < 2 ^ 63 /\
  let '(s', newEstimate) := bumpEstimateForOutOfGas (fun _ => 0) (gas ex_tx_state) "bridge" 100000 in
  newEstimate = 150000 /\ (0 < 100000 -> 100000 < newEstimate <= 3 * 100000 / 2 + 2 ^ 13 + 1).
Proof.
  assert (0 <= bump_base (gas ex_tx_state) "bridge" 100000 < 2 ^ 63) as Hb by (vm_compute; by split).
  split; [exact Hb|]. pose proof (bumpEstimate_correct (fun _ => 0) (gas ex_tx_state) "bridge" 100000 Hb) as H.
  destruct (bumpEstimateForOutOfGas (fun _ => 0) (gas ex_tx_state) "bridge" 100000) as [s' n] eqn:E.
  split.
  - apply (f_equal snd) in E. vm_compute in E. by rewrite <- E.
  - exact (fun Hp => proj1 (proj2 H Hp)).
Defined.

Lemma WaitForTx_correct_witness :
  exists w' r, WaitForTx 3 2 "ab" None 0%nat = Some (w', r) /\
    match r with Ok resp => exists w0 w1, Tx w0 [171] = (w1, inr resp) | Err _ => True | Panic _ => False end.
Proof.
  pose proof (WaitForTx_correct 3 2 "ab" None 0%nat (le_n 3)) as (_ & _ & H).
  eexists _, _. split; [vm_compute; reflexivity|]. exact (H _ _ ltac:(vm_compute; reflexivity)).
Defined.

Lemma ex_timed : timed 101 (fun w => 100 - Z.of_nat w).
Proof.
  split.
  - intros w. cbn. lia.
  - intros w w' [= <-]. lia.
  - intros w Hw. cbn [Status_LatestBlockHeight ex_tx_libs snd]. destruct (Nat.ltb_spec w 100); [lia|]. by eexists.
  - intros w. lia.
Qed.

Lemma sendTx_correct_witness :
  exists w' st' r, ex_sendTx = Some (w', st', r) /\ r = Ok (mkResultTx 0 150000 90000) /\
    exists tries : list (TxState * go ResultTx), (length tries <= 2)%nat /\ last tries.*2 = Some r.
Proof.
  destruct (sendTx_correct ex_cfg (fun _ => 0) 3 101 7 false ex_msg [] 0%nat ex_tx_state) as [Hends Hall].
  destruct (Hends _ (le_n 3) ex_timed) as (w' & st' & r & E). exists w', st', r. split; [exact E|].
  destruct (Hall w' st' r E) as (tries & before & _ & Hlen & _ & _ & Hlast & _).
  split.
  - apply (f_equal (fmap snd)) in E. vm_compute in E. by injection E as <-.
  - exists tries. split; [exact Hlen|]. by rewrite fmap_last, Hlast.
Defined.

Lemma unordered_timeouts_unique_witness :
  0 <= txTimeoutNonce ex_tx_state /\ NoDup (timeouts ex_cfg [0%nat; 1%nat; 2%nat] ex_tx_state).
Proof.
  split; [vm_compute; discriminate|].
  refine (proj2 (proj1 (unordered_timeouts_unique ex_cfg ex_tx_state _) [0%nat; 1%nat; 2%nat] _ _)).
  - vm_compute; discriminate.
  - vm_compute; reflexivity.
  - repeat constructor; vm_compute; discriminate.
Defined.
