(* ===== verification/EncodePrice.v ===== *)
(** * lib/prices/utils.go: the encoding of a reported price

    [EncodePrice] prints a float64 with [18 + exponent] decimals, drops the point
    and parses the digits again. The float is a converted uint64, so its value is
    an integer below [2^64] and a half, and every step is written out on text; the
    ABI encoder is a parameter. *)
From Stdlib Require Import Ascii.
From S2P Require Import Prelude Text Hex.
Local Open Scope Z_scope.

(** ** Decimal text *)
Definition digit_value (a : ascii) : option Z :=
  let n := Z.of_nat (nat_of_ascii a) in
  if (48 <=? n) && (n <=? 57) then Some (n - 48) else None.

(** The digits of [s] read after the number [acc]. *)
Fixpoint read_digits (acc : Z) (s : string) : option Z :=
  match s with
  | EmptyString => Some acc
  | String a s => d ← digit_value a; read_digits (10 * acc + d) s
  end.

(** [new(big.Int).SetString(s, 10)]: an optional sign and at least one digit. *)
Definition bigInt_SetString (s : string) : option Z :=
  match s with
  | EmptyString => None
  | String a t =>
      if Ascii.eqb a "-" then match t with EmptyString => None | _ => Z.opp <$> read_digits 0 t end
      else if Ascii.eqb a "+" then match t with EmptyString => None | _ => read_digits 0 t end
      else read_digits 0 s
  end.

Fixpoint zeros (n : nat) : string :=
  match n with O => EmptyString | S n => String "0" (zeros n) end.

(** The first [n] bytes, [s[:n]] for [n <= len(s)]. *)
Fixpoint take_string (n : nat) (s : string) : string :=
  match n, s with
  | S n, String a s => String a (take_string n s)
  | _, _ => EmptyString
  end.

(** Package fmt reads a precision digit by digit and gives up when what it has
    read so far is above [10^6] and another digit follows. *)
Definition precision_parses (n : Z) : bool := (0 <=? n) && (n / 10 <=? 1000000).

(** The digits of [number] rounded to one significant digit, ties to even:
    the verb %g with precision 0 on an integral number below [10^100]. *)
Definition one_digit (number : Z) : string :=
  let e := Z.of_nat (String.length (pretty number)) - 1 in
  if e =? 0 then pretty number
  else
    let q := number / 10 ^ e in
    let r := number mod 10 ^ e in
    let q := if (2 * r <? 10 ^ e) || ((2 * r =? 10 ^ e) && Z.even q) then q else q + 1 in
    let exp_text e := (if e <? 10 then "0" else "") +:+ pretty e in
    if q =? 10 then "1e+" +:+ exp_text (e + 1) else pretty q +:+ "e+" +:+ exp_text e.

(** ** The text and the number *)
Lemma app_nil_string s : "" +:+ s = s.
Proof. done. Qed.
Lemma app_cons_string a s t : String a s +:+ t = String a (s +:+ t).
Proof. done. Qed.

Fixpoint has_point (s : string) : bool :=
  match s with EmptyString => false | String a s => Ascii.eqb a "." || has_point s end.

Lemma has_point_app s t : has_point (s +:+ t) = has_point s || has_point t.
Proof. induction s as [|a s IH]; [done|]. cbn. rewrite <- orb_assoc. exact (f_equal (orb _) IH). Qed.

Lemma Split_no_point s : has_point s = false -> strings_Split s "." = [s].
Proof.
  induction s as [|a s IH]; [done|]. cbn. intros [Ha Hs]%orb_false_iff. by rewrite Ha, IH.
Qed.

Lemma Split_point s t :
  has_point s = false -> has_point t = false -> strings_Split (s +:+ "." +:+ t) "." = [s; t].
Proof.
  intros Hs Ht. induction s as [|a s IH].
  - rewrite app_nil_string, app_cons_string, app_nil_string. cbn. by rewrite Split_no_point.
  - rewrite app_cons_string. cbn in *. apply orb_false_iff in Hs as [Ha Hs]. by rewrite Ha, IH.
Qed.

Lemma pretty_N_char_digit d :
  (d < 10)%N -> digit_value (pretty_N_char d) = Some (Z.of_N d) /\ Ascii.eqb (pretty_N_char d) "." = false /\
  Ascii.eqb (pretty_N_char d) "-" = false /\ Ascii.eqb (pretty_N_char d) "+" = false.
Proof.
  intros Hd. assert (d = 0 \/ d = 1 \/ d = 2 \/ d = 3 \/ d = 4 \/ d = 5 \/ d = 6 \/ d = 7 \/ d = 8 \/ d = 9)%N
    as H by (clear -Hd; lia).
  by destruct_or! H; subst d.
Qed.

(** Induction on the digits of a number, as they are printed. *)
Lemma pretty_N_go_ind (P : N -> string -> Prop) :
  (forall s, P 0%N s) ->
  (forall x s, (0 < x)%N -> P (x / 10)%N (String (pretty_N_char (x mod 10)) s) -> P x s) ->
  forall x s, P x s.
Proof.
  intros H0 Hs x. induction (N.lt_wf_0 x) as [x _ IH]. intros s.
  destruct (N.eq_dec x 0%N) as [->|]; [apply H0|].
  apply Hs; [lia|]. apply IH. apply N.div_lt; lia.
Qed.

Lemma has_point_pretty_go x s : has_point (pretty_N_go x s) = has_point s.
Proof.
  revert x s. apply (pretty_N_go_ind (fun x s => has_point (pretty_N_go x s) = has_point s)); intros.
  - by rewrite pretty_N_go_0.
  - rewrite pretty_N_go_step by lia. rewrite H0. cbn.
    by destruct (pretty_N_char_digit (x mod 10)) as (_ & -> & _); [apply N.mod_lt|].
Qed.

Lemma read_pretty_go x s : read_digits 0 (pretty_N_go x s) = read_digits (Z.of_N x) s.
Proof.
  revert x s. apply (pretty_N_go_ind (fun x s => read_digits 0 (pretty_N_go x s) = read_digits (Z.of_N x) s)); intros.
  - by rewrite pretty_N_go_0.
  - rewrite pretty_N_go_step by lia. rewrite H0. cbn.
    destruct (pretty_N_char_digit (x mod 10)) as (-> & _); [by apply N.mod_lt|].
    cbn. f_equal. rewrite N2Z.inj_div, N2Z.inj_mod.
    pose proof (Z.div_mod (Z.of_N x) 10 ltac:(lia)). lia.
Qed.

Lemma pretty_nonneg n :
  0 <= n -> pretty n = if n =? 0 then "0" else pretty_N_go (Z.to_N n) "".
Proof. intros Hn. by destruct n. Qed.

Lemma has_point_pretty n : 0 <= n -> has_point (pretty n) = false.
Proof. intros Hn. rewrite pretty_nonneg by done. case_match; [done|]. by rewrite has_point_pretty_go. Qed.

Lemma read_digits_pretty n : 0 <= n -> read_digits 0 (pretty n) = Some n.
Proof.
  intros Hn. rewrite pretty_nonneg by done. destruct (Z.eqb_spec n 0) as [->|]; [done|].
  rewrite read_pretty_go. cbn. f_equal. lia.
Qed.

Lemma read_digits_app acc s t : read_digits acc (s +:+ t) = acc ← read_digits acc s; read_digits acc t.
Proof.
  revert acc. induction s as [|a s IH]; intros acc; [done|]. rewrite app_cons_string. cbn.
  destruct (digit_value a); cbn; [apply IH|done].
Qed.

Lemma read_digits_zeros acc n : read_digits acc (zeros n) = Some (acc * 10 ^ Z.of_nat n).
Proof.
  revert acc. induction n as [|n IH]; intros acc.
  - cbn. f_equal. lia.
  - change (read_digits (10 * acc + 0) (zeros n) = Some (acc * 10 ^ Z.of_nat (S n))).
    rewrite IH. f_equal. rewrite Nat2Z.inj_succ, Z.pow_succ_r by lia. lia.
Qed.

(** A text that reads as digits is the number it reads as. *)
Lemma SetString_digits s n : s <> "" -> read_digits 0 s = Some n -> bigInt_SetString s = Some n.
Proof.
  destruct s as [|a s]; [done|]. intros _ H. unfold bigInt_SetString.
  destruct (Ascii.eqb_spec a "-") as [->|]; [done|]. destruct (Ascii.eqb_spec a "+") as [->|]; [done|]. exact H.
Qed.

Lemma pretty_nonempty n s : 0 <= n -> pretty n +:+ s <> "".
Proof.
  intros Hn E. pose proof (read_digits_pretty n Hn) as H.
  destruct (pretty n) as [|a t] eqn:Ep; [|done]. revert Ep. clear -Hn. rewrite pretty_nonneg by done.
  destruct (Z.eqb_spec n 0) as [->|]; [done|]. intros Ep.
  pose proof (read_pretty_go (Z.to_N n) "") as Hr. rewrite Ep in Hr. cbn in Hr. injection Hr. lia.
Qed.

Lemma length_zeros n : String.length (zeros n) = n.
Proof. induction n as [|n IH]; cbn; [done|by f_equal]. Qed.

Lemma has_point_zeros n : has_point (zeros n) = false.
Proof. by induction n. Qed.

Lemma has_point_one_digit n : 0 <= n -> has_point (one_digit n) = false.
Proof.
  intros Hn. unfold one_digit. set (e := Z.of_nat _ - 1). destruct (Z.eqb_spec e 0); [by apply has_point_pretty|].
  assert (0 <= e).
  { pose proof (pretty_nonempty n "" Hn) as Hne. unfold e in *. destruct (pretty n); cbn in *; [done|lia]. }
  assert (0 <= n / 10 ^ e) by (apply Z.div_pos; [lia|apply Z.pow_pos_nonneg; lia]).
  assert (forall b : bool, has_point (if b then "0" else "") = false) as Ht by by intros [].
  destruct (_ || _); case_match; rewrite ?has_point_app, ?Ht, ?has_point_pretty by lia; done.
Qed.

Section EncodePrice.
(** The shortest decimal form of a float, which package fmt only prints here when
    the precision is beyond what it reads. *)
Variable shortest : Z -> string.
(** [abi.NewType("uint256")] with [Pack] on a big integer. *)
Variable pack_uint256 : Z -> go_error + list Z.

(** [fmt.Sprintf("%.<n>f", number)] for a float with the integral value [number].
    A minus sign ends the precision and is taken as the (unknown) verb. *)
Definition Sprintf_f (n number : Z) : string :=
  if n <? 0 then "%!-(float64=" +:+ one_digit number +:+ ")" +:+ pretty (- n) +:+ "f"
  else if negb (precision_parses n) then "%!(NOVERB)%!(EXTRA float64=" +:+ shortest number +:+ ")"
  else if n =? 0 then pretty number
  else pretty number +:+ "." +:+ zeros (Z.to_nat n).

Definition EncodePrice (number exponent : Z) : go string :=
  let newExponent := wrap int32 (18 + exponent) in
  let strNumber := Sprintf_f newExponent number in
  let parts := strings_Split strNumber "." in
  part0 ← index parts 0;
  part1 ← index parts 1;
  let part1 := if Z.of_nat (String.length part1) >? newExponent
               then take_string (Z.to_nat newExponent) part1 else part1 in
  match bigInt_SetString (part0 +:+ part1) with
  | None => Err (ErrNew "error converting string to big int")
  | Some bigIntNumber =>
      match pack_uint256 bigIntNumber with
      | inl err => Err (ErrWrap "error packing arguments, " err "")
      | inr encodedBytes => Ok (hex_EncodeToString encodedBytes)
      end
  end.

Lemma EncodePrice_spec number exponent :
  0 <= number ->
  let n := wrap int32 (18 + exponent) in
  (1 <= n -> precision_parses n = true ->
   EncodePrice number exponent =
     match pack_uint256 (number * 10 ^ n) with
     | inl err => Err (ErrWrap "error packing arguments, " err "")
     | inr encodedBytes => Ok (hex_EncodeToString encodedBytes)
     end) /\
  (n <= 0 -> EncodePrice number exponent = Panic IndexOutOfRange).
Proof.
  intros Hnum n. unfold EncodePrice. fold n. unfold Sprintf_f. split.
  - intros Hn Hp. rewrite (proj2 (Z.ltb_ge _ _)) by lia. rewrite Hp. cbn [negb].
    rewrite (proj2 (Z.eqb_neq n 0)) by lia.
    rewrite Split_point by (by rewrite ?has_point_zeros, ?has_point_pretty by done). cbn [index lookup list_lookup mbind go_bind].
    rewrite length_zeros, Z2Nat.id, Z.gtb_ltb, Z.ltb_irrefl by lia.
    rewrite (SetString_digits _ (number * 10 ^ n)); [done|by apply pretty_nonempty|].
    rewrite read_digits_app, read_digits_pretty by done. cbn [mbind option_bind].
    rewrite read_digits_zeros. by rewrite Z2Nat.id by lia.
  - intros Hn. assert (forall s, has_point s = false -> strings_Split s "." = [s]) as Hs by exact Split_no_point.
    destruct (Z.ltb_spec n 0).
    + rewrite Hs; [done|]. rewrite !has_point_app, has_point_one_digit, has_point_pretty by lia. done.
    + assert (n = 0) as -> by lia. cbn [negb precision_parses Z.leb Z.eqb]. rewrite Hs; [done|]. by apply has_point_pretty.
Qed.
(** C19: For a number that is a converted price and the exponent of its market,
    the text that is built and read back is the number with [18 + exponent]
    decimals: the value [number * 10^(18 + exponent)], encoded by the ABI encoder,
    and no other error or panic. When [18 + exponent] (an int32, which wraps)
    leaves no decimals the text has no point, and the index of the part behind it
    panics. *)
Theorem EncodePrice_correct number exponent :
  0 <= number ->
  let n := wrap int32 (18 + exponent) in
  (1 <= n -> precision_parses n = true ->
   EncodePrice number exponent =
     match pack_uint256 (number * 10 ^ n) with
     | inl err => Err (ErrWrap "error packing arguments, " err "")
     | inr encodedBytes => Ok (hex_EncodeToString encodedBytes)
     end) /\
  (n <= 0 -> EncodePrice number exponent = Panic IndexOutOfRange).
Proof. exact (EncodePrice_spec number exponent). Qed.
End EncodePrice.

Lemma EncodePrice_correct_witness :
  EncodePrice (fun _ => "") (fun n => inr [n]) 3 (-17) = Ok (hex_EncodeToString [30]) /\
  EncodePrice (fun _ => "") (fun n => inr [n]) 3 (-18) = Panic IndexOutOfRange.
Proof.
  split.
  - exact (proj1 (EncodePrice_correct (fun _ => "") (fun n => inr [n]) 3 (-17) ltac:(lia)) ltac:(vm_compute; discriminate) eq_refl).
  - exact (proj2 (EncodePrice_correct (fun _ => "") (fun n => inr [n]) 3 (-18) ltac:(lia)) ltac:(vm_compute; discriminate)).
Defined.
