(* ===== verification/CustomNumbers.v ===== *)
(** * custom_query/convert_num.go: the encoding of a float as an ABI number

    The shortest decimal of a float (strconv.FormatFloat with precision -1), its
    product with a power of ten as a rational, the range check of the ABI type and
    the big-endian text; and the median of several floats. *)
From Stdlib Require Import Ascii.
From S2P Require Import Prelude Text Hex Float64 EncodePrice.
Local Open Scope Z_scope.

(** ** strconv.FormatFloat(value, 'f', -1, 64)

    The decimal [c * 10^d] for the float [m * 2^e], [m > 0]: the one with the
    fewest digits among those that are rounded to the float, and of these the
    nearest. Both sides of a comparison are scaled to integers. *)
Section Shortest.
Variables (m e : Z).

(** In units of [2^(e-2)]: the float, and the ends of the interval of the numbers
    that are rounded to it. The interval is closed when [m] is even. *)
Definition exact4 : Z := 4 * m.
Definition upper4 : Z := 4 * m + 2.
Definition lower4 : Z := if (m =? 2 ^ 52) && (-1074 <? e) then 4 * m - 1 else 4 * m - 2.

(** [c * 10^d] and [k * 2^(e-2)], times [10^max(0,-d) * 2^max(0,2-e)]. *)
Definition decimal_side (c d : Z) : Z := c * 10 ^ Z.max 0 d * 2 ^ Z.max 0 (2 - e).
Definition binary_side (k d : Z) : Z := k * 2 ^ Z.max 0 (e - 2) * 10 ^ Z.max 0 (- d).

Definition rounds_back (c d : Z) : bool :=
  let x := decimal_side c d in
  if Z.even m then (binary_side lower4 d <=? x) && (x <=? binary_side upper4 d)
  else (binary_side lower4 d <? x) && (x <? binary_side upper4 d).

(** The decimal with the last digit at [10^d], if there is one: the neighbours of
    the float that round back, the nearer one (ties to even) if both do. *)
Definition decimal_at (d : Z) : option Z :=
  let unit := decimal_side 1 d in
  let c := binary_side exact4 d / unit in
  let r := binary_side exact4 d mod unit in
  match rounds_back c d, rounds_back (c + 1) d with
  | true, true => Some (if (2 * r <? unit) || ((2 * r =? unit) && Z.even c) then c else c + 1)
  | true, false => Some c
  | false, true => Some (c + 1)
  | false, false => None
  end.

Fixpoint shortest_from (fuel : nat) (d : Z) : option (Z * Z) :=
  match fuel with
  | O => None
  | S fuel =>
      match decimal_at d with
      | Some c => Some (c, d)
      | None => shortest_from fuel (d - 1)
      end
  end.

(** From a digit above the float down to one at which the float itself is a
    decimal. *)
Definition highest_digit : Z := Z.max 0 (Z.log2 m + e) + 1.
Definition lowest_digit : Z := Z.min 0 e.
Definition shortest_decimal : option (Z * Z) :=
  shortest_from (Z.to_nat (highest_digit - lowest_digit + 1)) highest_digit.
End Shortest.

(** ** ABI types *)
Record abiTypeInfo := mkAbiTypeInfo { category : string; bitSize : Z; decimals : Z; signed_type : bool }.

(** [\d+] up to the end, or up to the byte [stop]. *)
Fixpoint digits_prefix (s : string) : string * string :=
  match s with
  | String a t => match digit_value a with
                  | Some _ => let '(ds, rest) := digits_prefix t in (String a ds, rest)
                  | None => (EmptyString, s)
                  end
  | EmptyString => (EmptyString, EmptyString)
  end.

(** [strconv.Atoi] of a text of digits. *)
Definition Atoi_digits (s : string) : option Z :=
  n ← read_digits 0 s; if n <=? max_int int64 then Some n else None.

Definition strip_u (s : string) : bool * string :=
  match s with String "u" t => (true, t) | _ => (false, s) end.

(** [^(u?)int(\d+)$]: the optional u and the digits. *)
Definition match_int (s : string) : option (bool * string) :=
  let '(u, t) := strip_u s in
  rest ← cut "int" t;
  match digits_prefix rest with
  | (EmptyString, _) => None
  | (ds, EmptyString) => Some (u, ds)
  | _ => None
  end.

(** [^(u?)fixed(\d+)x(\d+)$]. *)
Definition match_fixed (s : string) : option (bool * string * string) :=
  let '(u, t) := strip_u s in
  rest ← cut "fixed" t;
  match digits_prefix rest with
  | (EmptyString, _) => None
  | (ds, String "x" rest) =>
      match digits_prefix rest with
      | (EmptyString, _) => None
      | (ds', EmptyString) => Some (u, ds, ds')
      | _ => None
      end
  | _ => None
  end.

Definition parseAbiType (abiType : string) : go abiTypeInfo :=
  info ← match match_int abiType with
         | Some (u, ds) =>
             match Atoi_digits ds with
             | Some bitSize => Ok (mkAbiTypeInfo (if (u : bool) then "uint" else "int") bitSize 0 (negb u))
             | None => Err (ErrNew ("invalid bit size: " +:+ ds))
             end
         | None =>
             match match_fixed abiType with
             | Some (u, ds, ds') =>
                 match Atoi_digits ds, Atoi_digits ds' with
                 | Some bitSize, Some decimals =>
                     Ok (mkAbiTypeInfo (if (u : bool) then "ufixed" else "fixed") bitSize decimals (negb u))
                 | None, _ => Err (ErrNew ("invalid bit size: " +:+ ds))
                 | _, None => Err (ErrNew ("invalid decimals: " +:+ ds'))
                 end
             | None => Err (ErrNew ("unsupported ABI type: " +:+ abiType))
             end
         end;
  if (bitSize info <=? 0) || (256 <? bitSize info) || negb (bitSize info mod 8 =? 0)
  then Err (ErrNew ("invalid bit size: " +:+ pretty (bitSize info) +:+ " (must be multiple of 8, ≤ 256)"))
  else Ok info.

(** ** The encoding *)

(** A rational as its numerator and (positive) denominator. *)
Definition floatToScaledRat (value : float64) (decimals : Z) : go (Z * Z) :=
  let scaled sign c d :=
    let k := d + Z.max 0 decimals in
    let c := if sign : bool then - c else c in
    if 0 <=? k then (c * 10 ^ k, 1) else (c, 10 ^ (- k)) in
  match value with
  | S754_zero _ => Ok (0, 1)
  | S754_finite sign m e =>
      match shortest_decimal (Z.pos m) e with
      | Some (c, d) => Ok (scaled sign c d)
      | None => Err (ErrNew "failed to convert to rational")
      end
  | S754_infinity _ => Err (ErrNew "failed to convert Inf to rational")
  | S754_nan => Err (ErrNew "failed to convert NaN to rational")
  end.

Definition validateRange (value : Z) (typeInfo : abiTypeInfo) : go unit :=
  if signed_type typeInfo then
    let maxPositive := 2 ^ (bitSize typeInfo - 1) - 1 in
    let maxNegative := - 2 ^ (bitSize typeInfo - 1) in
    if (maxPositive <? value) || (value <? maxNegative)
    then Err (ErrNew ("value overflow for type " +:+ category typeInfo)) else Ok tt
  else if value <? 0 then Err (ErrNew ("negative value not allowed for unsigned type " +:+ category typeInfo))
  else if 2 ^ bitSize typeInfo - 1 <? value
  then Err (ErrNew ("value overflow for type " +:+ category typeInfo)) else Ok tt.

(** The bytes of [big.Int.Bytes]: big-endian, without leading zeros. *)
Fixpoint big_endian (n : nat) (value : Z) : list Z :=
  match n with O => [] | S n => big_endian n (value / 256) ++ [value mod 256] end.
Definition byte_length (value : Z) : nat := if value =? 0 then 0%nat else Z.to_nat (Z.log2 value / 8 + 1).
Definition big_Bytes (value : Z) : list Z := big_endian (byte_length value) value.

(** Slicing behind the end of the padded bytes panics. *)
Definition intToHex (value : Z) (byteSize : nat) : go string :=
  let bytes := big_Bytes value in
  if decide (length bytes <= byteSize)%nat
  then Ok (hex_EncodeToString (replicate (byteSize - length bytes) 0 ++ bytes))
  else Panic IndexOutOfRange.

Definition AbiNumberEncoder (value : float64) (abiType : string) : go string :=
  typeInfo ← parseAbiType abiType;
  rat ← floatToScaledRat value (decimals typeInfo);
  let intVal := rat.1 / rat.2 in
  _ ← validateRange intVal typeInfo;
  let intVal := if signed_type typeInfo && (intVal <? 0) then intVal + 2 ^ bitSize typeInfo else intVal in
  intToHex intVal (Z.to_nat (bitSize typeInfo / 8)).

(** ** The median *)
Definition f_le (x y : float64) : Prop := SFltb y x = false.
#[export] Instance f_le_dec : RelDecision f_le.
Proof. intros x y. unfold f_le. apply _. Defined.

(** [sort.Float64s], on values that are not NaN. *)
Definition sort_Float64s (values : list float64) : list float64 := merge_sort f_le values.

Definition f_two : float64 := S754_finite false (2 ^ 52) (-51).
Definition f_hundred : float64 := float_of_integer 100.

Definition is_positive_finite (value : float64) : bool :=
  match value with S754_finite false _ _ => true | _ => false end.

Definition median_value (values : list float64) : go float64 :=
  let middle := Nat.div (length values) 2 in
  if decide (Nat.modulo (length values) 2 = 1%nat) then index values middle
  else x ← index values (middle - 1); y ← index values middle; Ok (fdiv (fadd x y) f_two).

Definition spread_percent (values : list float64) : go float64 :=
  minValue ← index values 0;
  maxValue ← index values (length values - 1);
  Ok (fmul (fdiv (fsub maxValue minValue) minValue) f_hundred).

Definition check_values (values : list float64) : go unit :=
  forM_go (fun value =>
    match value with
    | S754_nan | S754_infinity _ => Err (ErrNew "cannot encode non-finite value")
    | _ => if is_positive_finite value then Ok tt else Err (ErrNew "cannot encode non-positive value")
    end) values.

Definition MedianInHex (values : list float64) (responseType : string) (maxSpreadPercent : float64) : go string :=
  match values with
  | [] => Err (ErrNew "cannot calculate median of empty slice")
  | first :: rest =>
      _ ← check_values values;
      match rest with
      | [] => AbiNumberEncoder first responseType
      | _ =>
          let values := sort_Float64s values in
          spreadPercent ← spread_percent values;
          if fgt spreadPercent maxSpreadPercent
          then Err (ErrNew "values differ by more than the maximum allowed difference")
          else
            medianValue ← median_value values;
            AbiNumberEncoder medianValue responseType
      end
  end.

(** ** The shortest decimal *)
Section ShortestFacts.
Variables (m e : Z).
Hypothesis m_pos : 0 < m.

Definition unit_at (d : Z) : Z := 10 ^ Z.max 0 d * 2 ^ Z.max 0 (2 - e).
Definition scale_at (d : Z) : Z := 2 ^ Z.max 0 (e - 2) * 10 ^ Z.max 0 (- d).

Lemma unit_pos d : 0 < unit_at d.
Proof using Type. clear. unfold unit_at. apply Z.mul_pos_pos; apply Z.pow_pos_nonneg; lia. Qed.
Lemma scale_pos d : 0 < scale_at d.
Proof using Type. clear. unfold scale_at. apply Z.mul_pos_pos; apply Z.pow_pos_nonneg; lia. Qed.

Lemma rounds_back_iff c d :
  rounds_back m e c d = true <->
  if Z.even m then lower4 m e * scale_at d <= c * unit_at d <= upper4 m * scale_at d
  else lower4 m e * scale_at d < c * unit_at d < upper4 m * scale_at d.
Proof using Type.
  clear. unfold rounds_back, decimal_side, binary_side.
  replace (c * 10 ^ Z.max 0 d * 2 ^ Z.max 0 (2 - e)) with (c * unit_at d) by (unfold unit_at; lia).
  assert (forall k, k * 2 ^ Z.max 0 (e - 2) * 10 ^ Z.max 0 (- d) = k * scale_at d) as Hk by (intros; unfold scale_at; lia).
  rewrite !Hk. destruct (Z.even m); rewrite andb_true_iff, ?Z.leb_le, ?Z.ltb_lt; tauto.
Qed.

Lemma interval_ends : 0 < lower4 m e < exact4 m /\ exact4 m < upper4 m.
Proof using m_pos.
  unfold lower4, exact4, upper4. destruct (_ && _) eqn:E; [|lia].
  apply andb_true_iff in E as [E _]. apply Z.eqb_eq in E. lia.
Qed.

(** What rounds back is an interval around the float. *)
Lemma rounds_back_between c c' d :
  rounds_back m e c' d = true ->
  (c' <= c /\ c * unit_at d <= exact4 m * scale_at d) \/ (c <= c' /\ exact4 m * scale_at d <= c * unit_at d) ->
  rounds_back m e c d = true.
Proof using m_pos.
  rewrite !rounds_back_iff. pose proof interval_ends. pose proof (unit_pos d). pose proof (scale_pos d).
  intros Hc Hb. assert (lower4 m e * scale_at d < exact4 m * scale_at d) by (apply Z.mul_lt_mono_pos_r; lia).
  assert (exact4 m * scale_at d < upper4 m * scale_at d) by (apply Z.mul_lt_mono_pos_r; lia).
  assert (forall x y, x <= y -> x * unit_at d <= y * unit_at d) as Hmono by (intros; apply Z.mul_le_mono_nonneg_r; lia).
  destruct Hb as [[Hle Hx]|[Hle Hx]]; specialize (Hmono _ _ Hle); destruct (Z.even m); lia.
Qed.

Lemma decimal_at_spec d :
  match decimal_at m e d with
  | Some c => rounds_back m e c d = true /\ 0 < c
  | None => forall c, rounds_back m e c d = false
  end.
Proof using m_pos.
  pose proof interval_ends as Hi. pose proof (unit_pos d) as Hu. pose proof (scale_pos d) as Hs.
  unfold decimal_at.
  assert (decimal_side e 1 d = unit_at d) as -> by (unfold decimal_side, unit_at; lia).
  assert (binary_side e (exact4 m) d = exact4 m * scale_at d) as -> by (unfold binary_side, scale_at; lia).
  set (c := exact4 m * scale_at d / unit_at d). set (r := (exact4 m * scale_at d) mod unit_at d).
  pose proof (Z.div_mod (exact4 m * scale_at d) (unit_at d) ltac:(lia)) as Hdm. fold c r in Hdm.
  pose proof (Z.mod_pos_bound (exact4 m * scale_at d) (unit_at d) Hu) as Hr. fold r in Hr.
  assert (forall c', rounds_back m e c' d = true -> 0 < c') as Hpos.
  { intros c' Hc'%rounds_back_iff.
    assert (0 < lower4 m e * scale_at d) by (apply Z.mul_pos_pos; lia).
    destruct (Z.even m); apply (Z.mul_pos_cancel_r c' (unit_at d)); lia. }
  destruct (rounds_back m e c d) eqn:E1, (rounds_back m e (c + 1) d) eqn:E2.
  - destruct (_ || _); auto.
  - auto.
  - auto.
  - intros c'. destruct (rounds_back m e c' d) eqn:E; [|done]. exfalso.
    destruct (Z.le_gt_cases c' c) as [Hle|Hgt].
    + rewrite (rounds_back_between c c' d E) in E1; [done|]. left. lia.
    + rewrite (rounds_back_between (c + 1) c' d E) in E2; [done|]. right. lia.
Qed.

(** The float itself is a decimal at the lowest digit. *)
Lemma exact_at_lowest : decimal_at m e (lowest_digit e) <> None.
Proof using m_pos.
  intros En. pose proof (decimal_at_spec (lowest_digit e)) as H. rewrite En in H.
  assert (exists c, c * unit_at (lowest_digit e) = exact4 m * scale_at (lowest_digit e)) as [c Hc].
  { unfold unit_at, scale_at, exact4, lowest_digit. destruct (Z.le_gt_cases 0 e).
    - rewrite (Z.min_l 0 e) by lia. cbn [Z.max Z.opp Z.compare Z.pow]. rewrite Z.mul_1_l, Z.mul_1_r.
      destruct (Z.le_gt_cases 2 e).
      + rewrite (Z.max_l 0 (2 - e)) by lia. eexists. rewrite Z.pow_0_r, Z.mul_1_r. done.
      + rewrite (Z.max_r 0 (2 - e)), (Z.max_l 0 (e - 2)) by lia. rewrite Z.pow_0_r, Z.mul_1_r.
        exists (m * 2 ^ e). rewrite <- Z.mul_assoc, <- Z.pow_add_r by lia. replace (e + (2 - e)) with 2 by lia. lia.
    - rewrite (Z.min_r 0 e) by lia.
      rewrite (Z.max_l 0 e), (Z.max_r 0 (2 - e)), (Z.max_l 0 (e - 2)), (Z.max_r 0 (- e)) by lia.
      exists (m * 5 ^ (- e)). change 10 with (2 * 5). rewrite !Z.pow_0_r, Z.pow_mul_l.
      replace (2 - e) with (2 + - e) by lia. rewrite Z.pow_add_r by lia. lia. }
  specialize (H c). destruct (rounds_back m e c (lowest_digit e)) eqn:E; [done|].
  assert (rounds_back m e c (lowest_digit e) = true) as E'; [|congruence].
  apply rounds_back_iff. rewrite Hc. pose proof interval_ends. pose proof (scale_pos (lowest_digit e)).
  assert (lower4 m e * scale_at (lowest_digit e) < exact4 m * scale_at (lowest_digit e)) by (apply Z.mul_lt_mono_pos_r; lia).
  assert (exact4 m * scale_at (lowest_digit e) < upper4 m * scale_at (lowest_digit e)) by (apply Z.mul_lt_mono_pos_r; lia).
  destruct (Z.even m); lia.
Qed.

Lemma shortest_from_spec fuel d :
  lowest_digit e <= d -> d - lowest_digit e < Z.of_nat fuel ->
  exists c d', shortest_from m e fuel d = Some (c, d') /\ d' <= d /\ rounds_back m e c d' = true /\ 0 < c /\
    forall c1 d1, d' < d1 <= d -> rounds_back m e c1 d1 = false.
Proof using m_pos.
  revert d. induction fuel as [|fuel IH]; intros d Hd Hf; [lia|]. cbn [shortest_from].
  pose proof (decimal_at_spec d) as Hs. destruct (decimal_at m e d) as [c|] eqn:E.
  - exists c, d. destruct Hs. split_and!; [done|lia|done|done|]. intros. lia.
  - assert (d <> lowest_digit e) by (intros ->; by apply exact_at_lowest).
    destruct (IH (d - 1) ltac:(lia) ltac:(lia)) as (c & d' & E' & Hd' & Hb & Hc & Hmin).
    exists c, d'. split_and!; try done; [lia|]. intros c1 d1 Hd1.
    destruct (decide (d1 = d)) as [->|]; [apply Hs|apply Hmin; lia].
Qed.

(** The distance of a decimal from the float. *)
Definition distance (c d : Z) : Z := Z.abs (c * unit_at d - exact4 m * scale_at d).

Lemma decimal_at_nearest c c' d :
  decimal_at m e d = Some c -> rounds_back m e c' d = true -> distance c d <= distance c' d.
Proof using m_pos.
  pose proof (unit_pos d) as Hu. unfold decimal_at.
  assert (decimal_side e 1 d = unit_at d) as -> by (unfold decimal_side, unit_at; lia).
  assert (binary_side e (exact4 m) d = exact4 m * scale_at d) as -> by (unfold binary_side, scale_at; lia).
  set (c0 := exact4 m * scale_at d / unit_at d). set (r := (exact4 m * scale_at d) mod unit_at d).
  pose proof (Z.div_mod (exact4 m * scale_at d) (unit_at d) ltac:(lia)) as Hdm. fold c0 r in Hdm.
  pose proof (Z.mod_pos_bound (exact4 m * scale_at d) (unit_at d) Hu) as Hr. fold r in Hr.
  assert (distance c0 d = r) as H0 by (unfold distance; lia).
  assert (distance (c0 + 1) d = unit_at d - r) as H1 by (unfold distance; lia).
  assert (forall x, x <= c0 -> r <= distance x d) as Hlo.
  { intros x Hx. unfold distance. assert (x * unit_at d <= c0 * unit_at d) by (apply Z.mul_le_mono_nonneg_r; lia). lia. }
  assert (forall x, c0 + 1 <= x -> unit_at d - r <= distance x d) as Hhi.
  { intros x Hx. unfold distance. assert ((c0 + 1) * unit_at d <= x * unit_at d) by (apply Z.mul_le_mono_nonneg_r; lia). lia. }
  intros Hc Hc'. destruct (Z.le_gt_cases c' c0) as [Hle|Hgt]; [specialize (Hlo _ Hle)|specialize (Hhi c' ltac:(lia))].
  - rewrite (rounds_back_between c0 c' d Hc') in Hc by (left; lia).
    destruct (rounds_back m e (c0 + 1) d); [destruct (_ || _) eqn:E|]; injection Hc as <-;
      try apply orb_false_iff in E as [E _]; lia.
  - rewrite (rounds_back_between (c0 + 1) c' d Hc') in Hc by (right; lia).
    destruct (rounds_back m e c0 d); [destruct (_ || _) eqn:E|]; injection Hc as <-;
      try (apply orb_true_iff in E as [E|[E _]%andb_true_iff]); lia.
Qed.

(** Above the highest digit there is nothing. *)
Lemma too_high c d : highest_digit m e < d -> rounds_back m e c d = false.
Proof using m_pos.
  intros Hd. destruct (rounds_back m e c d) eqn:E; [|done]. exfalso.
  pose proof E as Hb. apply rounds_back_iff in Hb. pose proof interval_ends as Hi.
  pose proof (unit_pos d) as Hu. pose proof (scale_pos d) as Hs.
  assert (0 < lower4 m e * scale_at d) by (apply Z.mul_pos_pos; lia).
  assert (0 < c * unit_at d <= upper4 m * scale_at d) as Hb' by (destruct (Z.even m); lia).
  assert (0 < c) by (apply (Z.mul_pos_cancel_r c (unit_at d)); lia).
  assert (1 * unit_at d <= c * unit_at d) by (apply Z.mul_le_mono_nonneg_r; lia).
  unfold highest_digit in Hd.
  pose proof (Z.log2_spec m m_pos) as [_ Hm]. pose proof (Z.log2_nonneg m) as Hl.
  assert (scale_at d = 2 ^ Z.max 0 (e - 2)) as Hsc.
  { unfold scale_at. rewrite (Z.max_l 0 (- d)) by lia. rewrite Z.pow_0_r. lia. }
  assert (upper4 m < 2 ^ (Z.log2 m + 3)) as Hup.
  { replace (Z.log2 m + 3) with (2 + Z.succ (Z.log2 m)) by lia. rewrite Z.pow_add_r by lia. unfold upper4. lia. }
  assert (2 ^ d * 2 ^ Z.max 0 (2 - e) <= unit_at d) as Hun.
  { unfold unit_at. rewrite (Z.max_r 0 d) by lia. apply Z.mul_le_mono_nonneg_r; [apply Z.pow_nonneg; lia|].
    apply Z.pow_le_mono_l. lia. }
  rewrite <- Z.pow_add_r in Hun by lia.
  assert (2 ^ (Z.log2 m + 3) * 2 ^ Z.max 0 (e - 2) <= 2 ^ (d + Z.max 0 (2 - e))) as Hp.
  { rewrite <- Z.pow_add_r by lia. apply Z.pow_le_mono_r; lia. }
  assert (upper4 m * 2 ^ Z.max 0 (e - 2) < 2 ^ (Z.log2 m + 3) * 2 ^ Z.max 0 (e - 2)) as Hlt.
  { apply Z.mul_lt_mono_pos_r; [apply Z.pow_pos_nonneg; lia|done]. }
  rewrite Hsc in Hb'. lia.
Qed.

(** The decimal that is printed: it rounds back to the float, nothing with fewer
    digits does, and nothing with as many does and is nearer. *)
Lemma shortest_decimal_spec :
  exists c d, shortest_decimal m e = Some (c, d) /\ rounds_back m e c d = true /\ 0 < c /\
    (forall c' d', d < d' -> rounds_back m e c' d' = false) /\
    (forall c', rounds_back m e c' d = true -> distance c d <= distance c' d).
Proof using m_pos.
  unfold shortest_decimal.
  assert (lowest_digit e <= highest_digit m e) by (unfold lowest_digit, highest_digit; lia).
  destruct (shortest_from_spec (Z.to_nat (highest_digit m e - lowest_digit e + 1)) (highest_digit m e) ltac:(lia) ltac:(lia))
    as (c & d & E & Hd & Hb & Hc & Hmin).
  exists c, d. split_and!; [done..| |].
  - intros c' d' Hd'. destruct (Z.le_gt_cases d' (highest_digit m e)); [apply Hmin; lia|apply too_high; lia].
  - intros c' Hc'. apply (decimal_at_nearest c c' d); [|done]. clear -E.
    revert E. generalize (highest_digit m e) as h. intros h. generalize (Z.to_nat (h - lowest_digit e + 1)) as n.
    intros n. revert h. induction n as [|n IH]; intros h; cbn; [done|].
    destruct (decimal_at m e h) as [c0|] eqn:Eh; [by intros [= <- <-]|apply IH].
Qed.
End ShortestFacts.

(** ** The encoding *)
Definition be_value (bytes : list Z) : Z := foldl (fun acc b => acc * 256 + b) 0 bytes.

Lemma length_big_endian n v : length (big_endian n v) = n.
Proof. revert v. induction n as [|n IH]; intros v; cbn; [done|]. rewrite length_app, IH. cbn. lia. Qed.

Lemma be_value_snoc l b : be_value (l ++ [b]) = be_value l * 256 + b.
Proof. unfold be_value. by rewrite foldl_app. Qed.

Lemma be_value_zeros n l : be_value (replicate n 0 ++ l) = be_value l.
Proof. unfold be_value. rewrite foldl_app. f_equal. induction n as [|n IH]; cbn; [done|exact IH]. Qed.

Lemma be_value_big_endian n v : 0 <= v < 256 ^ Z.of_nat n -> be_value (big_endian n v) = v.
Proof.
  revert v. induction n as [|n IH]; intros v Hv; cbn [big_endian].
  - cbn in *. lia.
  - rewrite Nat2Z.inj_succ, Z.pow_succ_r in Hv by lia. rewrite be_value_snoc, IH.
    + pose proof (Z.div_mod v 256). lia.
    + split; [apply Z.div_pos; lia|]. apply Z.div_lt_upper_bound; lia.
Qed.

Lemma big_endian_bytes n v : Forall is_byte (big_endian n v).
Proof.
  revert v. induction n as [|n IH]; intros v; cbn [big_endian]; [constructor|].
  apply Forall_app. split; [apply IH|]. constructor; [|constructor].
  pose proof (Z.mod_pos_bound v 256). unfold is_byte. lia.
Qed.

Lemma byte_length_spec v : 0 <= v -> v < 256 ^ Z.of_nat (byte_length v).
Proof.
  intros Hv. unfold byte_length. destruct (Z.eqb_spec v 0) as [->|]; [cbn; lia|].
  pose proof (Z.log2_spec v ltac:(lia)) as [_ Hl]. pose proof (Z.log2_nonneg v).
  assert (0 <= Z.log2 v / 8) by (apply Z.div_pos; lia).
  rewrite Z2Nat.id by lia. change 256 with (2 ^ 8). rewrite <- Z.pow_mul_r by lia.
  eapply Z.lt_le_trans; [exact Hl|]. apply Z.pow_le_mono_r; [lia|].
  pose proof (Z.div_mod (Z.log2 v) 8). pose proof (Z.mod_pos_bound (Z.log2 v) 8). lia.
Qed.

Lemma byte_length_le v n : 0 <= v < 256 ^ Z.of_nat n -> (byte_length v <= n)%nat.
Proof.
  intros Hv. unfold byte_length. destruct (Z.eqb_spec v 0); [lia|].
  assert (Z.log2 v < 8 * Z.of_nat n).
  { apply Z.log2_lt_pow2; [lia|]. rewrite Z.pow_mul_r by lia. apply Hv. }
  assert (Z.log2 v / 8 < Z.of_nat n) by (apply Z.div_lt_upper_bound; lia). lia.
Qed.

Lemma intToHex_spec v n :
  0 <= v < 256 ^ Z.of_nat n ->
  exists bytes, intToHex v n = Ok (hex_EncodeToString bytes) /\ length bytes = n /\ be_value bytes = v /\
    Forall is_byte bytes.
Proof.
  intros Hv. pose proof (byte_length_le v n Hv) as Hn. unfold intToHex, big_Bytes.
  rewrite length_big_endian, decide_True by done. eexists. split; [done|]. split_and!.
  - rewrite length_app, length_replicate, length_big_endian. lia.
  - rewrite be_value_zeros. apply be_value_big_endian. split; [lia|]. apply byte_length_spec; lia.
  - apply Forall_app. split; [apply Forall_replicate; unfold is_byte; lia|apply big_endian_bytes].
Qed.

(** [floor (c * 10^k)]. *)
Definition scaled_floor (c k : Z) : Z := if 0 <=? k then c * 10 ^ k else c / 10 ^ (- k).

Lemma read_digits_nonneg acc s n : 0 <= acc -> read_digits acc s = Some n -> 0 <= n.
Proof.
  revert acc. induction s as [|a s IH]; intros acc Hacc; cbn; [by intros [= <-]|].
  unfold digit_value. destruct (_ && _) eqn:Ed; cbn; [|done]. apply IH.
  apply andb_true_iff in Ed as [Ed _]. lia.
Qed.

Lemma Atoi_digits_nonneg s n : Atoi_digits s = Some n -> 0 <= n.
Proof.
  unfold Atoi_digits. destruct (read_digits 0 s) as [n'|] eqn:E; cbn; [|done].
  destruct (n' <=? _); [|done]. intros [= <-]. by eapply (read_digits_nonneg 0).
Qed.

Lemma parseAbiType_bits abiType info :
  parseAbiType abiType = Ok info -> 0 < bitSize info <= 256 /\ bitSize info = 8 * (bitSize info / 8) /\ 0 <= decimals info.
Proof.
  unfold parseAbiType. rewrite go_bind_Ok. intros (info' & Hi & H).
  destruct (_ || _) eqn:E; [done|]. injection H as <-.
  apply orb_false_iff in E as [[H1 H2]%orb_false_iff H3]. apply negb_false_iff, Z.eqb_eq in H3.
  split; [lia|]. split; [pose proof (Z.div_mod (bitSize info') 8); lia|].
  destruct (match_int abiType) as [[u ds]|].
  - destruct (Atoi_digits ds); [|done]. injection Hi as <-. cbn. lia.
  - destruct (match_fixed abiType) as [[[u ds] ds']|]; [|done].
    destruct (Atoi_digits ds); [|done]. destruct (Atoi_digits ds') as [k|] eqn:Ek; [|done]. injection Hi as <-. cbn. by eapply Atoi_digits_nonneg.
Qed.

Lemma validateRange_spec v info :
  0 < bitSize info ->
  (validateRange v info = Ok tt /\ in_range (IntTy (bitSize info) (signed_type info)) v) \/
  (exists err, validateRange v info = Err err) /\ ~ in_range (IntTy (bitSize info) (signed_type info)) v.
Proof.
  intros Hb. unfold validateRange, in_range, min_int, max_int. cbn [bits signed].
  destruct (signed_type info).
  - destruct (_ || _) eqn:E; [right; split; [by eexists|]|left; split; [done|]].
    + apply orb_true_iff in E. lia.
    + apply orb_false_iff in E. lia.
  - destruct (Z.ltb_spec v 0); [right; split; [by eexists|lia]|].
    destruct (Z.ltb_spec (2 ^ bitSize info - 1) v); [right; split; [by eexists|lia]|left; split; [done|lia]].
Qed.

(** C21: Encoding a nonzero finite float as a number of an ABI type: the float is read
    as its shortest decimal [c * 10^d] (it rounds back to the float, no decimal with
    fewer digits does, and none with as many is nearer), which is multiplied by the
    power of ten of the type and rounded down. The call succeeds exactly when the
    result is in the range of the type; the text then decodes to as many bytes as
    the type has, which hold the result in two's complement. It never panics. *)
Theorem AbiNumberEncoder_correct sign m e abiType info :
  parseAbiType abiType = Ok info ->
  exists c d, shortest_decimal (Z.pos m) e = Some (c, d) /\ 0 < c /\
    rounds_back (Z.pos m) e c d = true /\
    (forall c' d', d < d' -> rounds_back (Z.pos m) e c' d' = false) /\
    (forall c', rounds_back (Z.pos m) e c' d = true -> distance (Z.pos m) e c d <= distance (Z.pos m) e c' d) /\
    let v := scaled_floor (if sign : bool then - c else c) (d + decimals info) in
    let t := IntTy (bitSize info) (signed_type info) in
    match AbiNumberEncoder (S754_finite sign m e) abiType with
    | Ok text => in_range t v /\ exists bytes, hex_DecodeString text = Ok bytes /\
        8 * Z.of_nat (length bytes) = bitSize info /\ be_value bytes = v mod 2 ^ bitSize info
    | Err _ => ~ in_range t v
    | Panic _ => False
    end.
Proof.
  intros Hp. destruct (parseAbiType_bits _ _ Hp) as (Hb & Hb8 & Hdec).
  destruct (shortest_decimal_spec (Z.pos m) e ltac:(lia)) as (c & d & Es & Hr & Hc & Hmin & Hnear).
  exists c, d. do 5 (split; [done|]). intros v t.
  unfold AbiNumberEncoder. rewrite Hp. cbn [mbind go_bind floatToScaledRat]. rewrite Es.
  rewrite (Z.max_r 0 (decimals info)) by done.
  set (s := if sign then - c else c) in *.
  assert ((if 0 <=? d + decimals info then (s * 10 ^ (d + decimals info), 1) else (s, 10 ^ (- (d + decimals info)))).1
    / (if 0 <=? d + decimals info then (s * 10 ^ (d + decimals info), 1) else (s, 10 ^ (- (d + decimals info)))).2 = v) as Hv
    by (unfold v, scaled_floor; destruct (0 <=? _); cbn; [apply Z.div_1_r|done]).
  cbn [mbind go_bind]. rewrite Hv.
  destruct (validateRange_spec v info ltac:(lia)) as [[Ev Hin]|[[err Ev] Hin]]; rewrite Ev; cbn [mbind go_bind]; [|exact Hin].
  set (v' := if signed_type info && (v <? 0) then v + 2 ^ bitSize info else v).
  assert (0 <= v' < 2 ^ bitSize info /\ v' = v mod 2 ^ bitSize info) as [Hv' Hmod].
  { unfold in_range, min_int, max_int, t in Hin. cbn in Hin.
    assert (2 ^ bitSize info = 2 * 2 ^ (bitSize info - 1)) as E2 by (rewrite <- Z.pow_succ_r by lia; f_equal; lia).
    unfold v'. destruct (signed_type info), (Z.ltb_spec v 0); cbn [andb].
    - split; [lia|]. rewrite <- (Z.mod_small (v + 2 ^ bitSize info) (2 ^ bitSize info)) by lia.
      rewrite <- (Z.mul_1_l (2 ^ bitSize info)) at 1. by rewrite Z.mod_add by lia.
    - split; [lia|]. rewrite Z.mod_small; lia.
    - lia.
    - split; [lia|]. rewrite Z.mod_small; lia. }
  assert (256 ^ Z.of_nat (Z.to_nat (bitSize info / 8)) = 2 ^ bitSize info) as E256.
  { rewrite Z2Nat.id by lia. change 256 with (2 ^ 8). rewrite <- Z.pow_mul_r by lia. by f_equal. }
  destruct (intToHex_spec v' (Z.to_nat (bitSize info / 8)) ltac:(rewrite E256; exact Hv')) as (bytes & Eb & Hlen & Hbe & Hbytes).
  rewrite Eb. split; [exact Hin|]. exists bytes. split_and!; [by apply hex_round_trip| |congruence].
  rewrite Hlen, Z2Nat.id by lia. lia.
Qed.

Lemma AbiNumberEncoder_correct_witness :
  parseAbiType "ufixed64x2" = Ok (mkAbiTypeInfo "ufixed" 64 2 false) /\
  exists c d, shortest_decimal (3 * 2 ^ 50) (-51) = Some (c, d) /\ scaled_floor c (d + 2) = 150 /\
    rounds_back (3 * 2 ^ 50) (-51) c d = true.
Proof.
  split; [vm_compute; reflexivity|].
  destruct (AbiNumberEncoder_correct false (3 * 2 ^ 50) (-51) "ufixed64x2" _ ltac:(vm_compute; reflexivity))
    as (c & d & E & _ & Hr & _).
  exists c, d. split; [exact E|]. split; [|exact Hr].
  vm_compute in E. injection E as <- <-. reflexivity.
Defined.

(** ** The median of positive finite floats *)
Definition positive_finite (x : float64) : Prop := is_positive_finite x = true.

Lemma f_le_positive m1 e1 m2 e2 :
  f_le (S754_finite false m1 e1) (S754_finite false m2 e2) <-> e1 < e2 \/ (e1 = e2 /\ (m1 <= m2)%positive).
Proof.
  unfold f_le, SFltb. cbn. destruct (Z.compare_spec e2 e1) as [->|H|H].
  - change (Pos.compare_cont Eq m2 m1) with (Pos.compare m2 m1). destruct (Pos.compare_spec m2 m1) as [->|H|H].
    + split; [right; split; [done|lia]|done].
    + split; [done|]. intros [?|[_ ?]]; lia.
    + split; [right; split; [done|lia]|done].
  - split; [done|]. intros [?|[? _]]; lia.
  - split; [left; lia|done].
Qed.

#[export] Instance f_le_total : Total f_le.
Proof.
  intros x y. unfold f_le, SFltb.
  destruct x as [[]|[]| |[] m1 e1], y as [[]|[]| |[] m2 e2]; cbn; try (by left); try (by right);
    change (Pos.compare_cont Eq) with Pos.compare; rewrite (Z.compare_antisym e1 e2), (Pos.compare_antisym m1 m2);
    destruct (Z.compare e1 e2), (Pos.compare m1 m2); cbn; try (by left); by right.
Qed.

Lemma sort_Float64s_perm l : sort_Float64s l ≡ₚ l.
Proof. apply merge_sort_Permutation. Qed.

Lemma positive_finite_inv x : positive_finite x -> exists m e, x = S754_finite false m e.
Proof. unfold positive_finite. destruct x as [| | |[] m e]; cbn; try done. by exists m, e. Qed.

Lemma f_le_trans x y z :
  positive_finite x -> positive_finite y -> positive_finite z -> f_le x y -> f_le y z -> f_le x z.
Proof.
  intros (m1 & e1 & ->)%positive_finite_inv (m2 & e2 & ->)%positive_finite_inv (m3 & e3 & ->)%positive_finite_inv.
  rewrite !f_le_positive. lia.
Qed.

Lemma f_le_antisymm x y : positive_finite x -> positive_finite y -> f_le x y -> f_le y x -> x = y.
Proof.
  intros (m1 & e1 & ->)%positive_finite_inv (m2 & e2 & ->)%positive_finite_inv.
  rewrite !f_le_positive. intros. assert (e1 = e2) as -> by lia. assert (m1 = m2) as -> by lia. done.
Qed.

Lemma sort_Float64s_sorted l : Forall positive_finite l -> StronglySorted f_le (sort_Float64s l).
Proof.
  intros Hl. rewrite <- (sort_Float64s_perm l) in Hl.
  pose proof (Sorted_merge_sort f_le l) as Hs. fold (sort_Float64s l) in Hs.
  induction Hs as [|x k Hk IH Hx]; [constructor|]. apply Forall_cons in Hl as [Hpx Hl].
  specialize (IH Hl). constructor; [done|]. destruct Hx as [|y k Hxy]; [constructor|].
  apply Forall_cons in Hl as [Hpy Hpk]. constructor; [done|].
  inversion IH as [|? ? _ Hy]; subst. rewrite Forall_forall in *. intros z Hz.
  apply (f_le_trans x y z); auto.
Qed.

Lemma sort_Float64s_unique l l' : Forall positive_finite l -> l ≡ₚ l' -> sort_Float64s l = sort_Float64s l'.
Proof.
  intros Hl Hp. assert (Forall positive_finite l') as Hl' by (by rewrite <- Hp).
  apply (StronglySorted_unique_strong f_le).
  - intros x y Hx Hy. rewrite sort_Float64s_perm in Hx, Hy. rewrite Forall_forall in Hl, Hl'.
    apply f_le_antisymm; auto.
  - by apply sort_Float64s_sorted.
  - by apply sort_Float64s_sorted.
  - by rewrite !sort_Float64s_perm.
Qed.

Lemma check_values_spec l :
  (check_values l = Ok tt <-> Forall positive_finite l) /\ forall p, check_values l <> Panic p.
Proof.
  unfold check_values. split.
  - rewrite forM_go_Ok. apply Forall_iff. intros x. unfold positive_finite.
    by destruct x as [[]|[]| |[] m e].
  - intros p Hp. destruct (forM_go_not_Ok _ _ _ Hp ltac:(done)) as (x & _ & Hx).
    by destruct x as [[]|[]| |[] m e].
Qed.

Lemma intToHex_no_panic_of_range v info :
  0 < bitSize info <= 256 -> bitSize info = 8 * (bitSize info / 8) -> validateRange v info = Ok tt ->
  forall p, intToHex (if signed_type info && (v <? 0) then v + 2 ^ bitSize info else v) (Z.to_nat (bitSize info / 8)) <> Panic p.
Proof.
  intros Hb Hb8 Hv p. destruct (validateRange_spec v info ltac:(lia)) as [[_ Hin]|[[err Ev] _]]; [|congruence].
  assert (256 ^ Z.of_nat (Z.to_nat (bitSize info / 8)) = 2 ^ bitSize info) as E256.
  { rewrite Z2Nat.id by lia. change 256 with (2 ^ 8). rewrite <- Z.pow_mul_r by lia. by f_equal. }
  assert (2 ^ bitSize info = 2 * 2 ^ (bitSize info - 1)) as E2 by (rewrite <- Z.pow_succ_r by lia; f_equal; lia).
  unfold in_range, min_int, max_int in Hin. cbn in Hin.
  destruct (intToHex_spec (if signed_type info && (v <? 0) then v + 2 ^ bitSize info else v) (Z.to_nat (bitSize info / 8)))
    as (bytes & -> & _); [|done].
  rewrite E256. destruct (signed_type info), (Z.ltb_spec v 0); cbn [andb]; lia.
Qed.

Lemma parseAbiType_no_panic abiType p : parseAbiType abiType <> Panic p.
Proof.
  unfold parseAbiType. destruct (match_int abiType) as [[u ds]|].
  - destruct (Atoi_digits ds); cbn; [|done]. by destruct (_ || _).
  - destruct (match_fixed abiType) as [[[u ds] ds']|]; [|done].
    destruct (Atoi_digits ds); cbn; [|done]. destruct (Atoi_digits ds'); cbn; [|done]. by destruct (_ || _).
Qed.

Lemma AbiNumberEncoder_no_panic value abiType p : AbiNumberEncoder value abiType <> Panic p.
Proof.
  unfold AbiNumberEncoder. pose proof (parseAbiType_no_panic abiType p) as Hp.
  destruct (parseAbiType abiType) as [info|e|p'] eqn:E; cbn [mbind go_bind]; [|done|congruence].
  destruct (parseAbiType_bits _ _ E) as (Hb & Hb8 & _).
  destruct (floatToScaledRat value (decimals info)) as [rat|e|p'] eqn:Er; cbn [mbind go_bind]; [|done|].
  - destruct (validateRange (rat.1 / rat.2) info) as [[]|e|p'] eqn:Ev; cbn [mbind go_bind]; [|done|].
    + by apply intToHex_no_panic_of_range.
    + destruct (validateRange_spec (rat.1 / rat.2) info ltac:(lia)) as [[? _]|[[err ?] _]]; congruence.
  - unfold floatToScaledRat in Er. destruct value as [| | |sign m e]; try done.
    by destruct (shortest_decimal _ _) as [[c d]|].
Qed.

(** The median of several values is of the middle elements of the sorted values. *)
Lemma median_value_total values :
  (2 <= length values)%nat ->
  exists x y, values !! Nat.div (length values) 2 = Some x /\ values !! (Nat.div (length values) 2 - 1)%nat = Some y /\
    median_value values = Ok (if decide (Nat.modulo (length values) 2 = 1%nat) then x else fdiv (fadd y x) f_two).
Proof.
  intros Hl. assert (Nat.div (length values) 2 < length values)%nat as Hlt by (apply Nat.div_lt; lia).
  destruct (index_total values _ Hlt) as (x & Hx & Hx').
  destruct (index_total values (Nat.div (length values) 2 - 1)) as (y & Hy & Hy'); [lia|].
  exists x, y. split_and!; [done..|]. unfold median_value. case_decide; [done|]. by rewrite Hy', Hx'.
Qed.

Lemma spread_percent_total values :
  (1 <= length values)%nat ->
  exists lo hi, values !! 0%nat = Some lo /\ last values = Some hi /\
    spread_percent values = Ok (fmul (fdiv (fsub hi lo) lo) f_hundred).
Proof.
  intros Hl. destruct (index_total values 0) as (lo & Hlo & Hlo'); [lia|].
  destruct (index_total values (length values - 1)) as (hi & Hhi & Hhi'); [lia|].
  exists lo, hi. split_and!; [done| |unfold spread_percent; by rewrite Hlo', Hhi'].
  rewrite last_lookup. by replace (pred (length values)) with (length values - 1)%nat by lia.
Qed.

(** The reference: the median of a list of floats, without regard to its order. *)
Definition median_spec (values : list float64) (maxSpreadPercent : float64) (v : float64) : Prop :=
  Forall positive_finite values /\
  (values = [v] \/
   exists sorted lo hi x y, sorted ≡ₚ values /\ StronglySorted f_le sorted /\ (2 <= length values)%nat /\
     sorted !! 0%nat = Some lo /\ last sorted = Some hi /\
     fgt (fmul (fdiv (fsub hi lo) lo) f_hundred) maxSpreadPercent = false /\
     sorted !! Nat.div (length values) 2 = Some x /\ sorted !! (Nat.div (length values) 2 - 1)%nat = Some y /\
     v = if decide (Nat.modulo (length values) 2 = 1%nat) then x else fdiv (fadd y x) f_two).

Lemma MedianInHex_cases values responseType maxSpread :
  (forall p, MedianInHex values responseType maxSpread <> Panic p) /\
  forall text, MedianInHex values responseType maxSpread = Ok text <->
    exists v, median_spec values maxSpread v /\ AbiNumberEncoder v responseType = Ok text.
Proof.
  destruct values as [|first rest]; [split; [done|]; intros text; split; [done|]|].
  { intros (v & [_ [H|(s & lo & hi & x & y & _ & _ & Hl & _)]] & _); [done|cbn in Hl; lia]. }
  unfold MedianInHex. pose proof (check_values_spec (first :: rest)) as [Hc Hcp].
  destruct (check_values (first :: rest)) as [[]|err|p] eqn:Ec; cbn [mbind go_bind]; cycle 1.
  { split; [done|]. intros text. split; [done|]. intros (v & [Hf _] & _). apply Hc in Hf. done. }
  { by destruct (Hcp p). }
  assert (Forall positive_finite (first :: rest)) as Hf by (by apply Hc).
  destruct rest as [|second rest].
  { split; [apply AbiNumberEncoder_no_panic|]. intros text. split.
    - intros H. exists first. split; [split; [done|by left]|done].
    - intros (v & [_ [[= ->]|(s & lo & hi & x & y & _ & _ & Hl & _)]] & Henc); [exact Henc|cbn in Hl; lia]. }
  set (l := first :: second :: rest) in *. pose proof (sort_Float64s_perm l) as Hp.
  assert (length (sort_Float64s l) = length l) as Hlen by (by rewrite Hp).
  assert (2 <= length l)%nat as Hl2 by (cbn; lia).
  destruct (spread_percent_total (sort_Float64s l) ltac:(lia)) as (lo & hi & Hlo & Hhi & ->). cbn [mbind go_bind].
  destruct (median_value_total (sort_Float64s l) ltac:(lia)) as (x & y & Hx & Hy & ->). cbn [mbind go_bind].
  rewrite Hlen in *.
  assert (forall v, median_spec l maxSpread v <->
    fgt (fmul (fdiv (fsub hi lo) lo) f_hundred) maxSpread = false /\
    v = if decide (Nat.modulo (length l) 2 = 1%nat) then x else fdiv (fadd y x) f_two) as Hms.
  { intros v. split.
    - intros [_ [Hv|(s & lo' & hi' & x' & y' & Hs & Hss & _ & H1 & H2 & H3 & H4 & H5 & ->)]]; [done|].
      assert (s = sort_Float64s l) as ->.
      { apply (StronglySorted_unique_strong f_le); [|done|by apply sort_Float64s_sorted|by rewrite Hs, Hp].
        intros a b Ha Hb. rewrite Hs in Ha. rewrite Hp in Hb. rewrite Forall_forall in Hf. apply f_le_antisymm; auto. }
      split; [congruence|]. assert (x' = x) as -> by congruence. by assert (y' = y) as -> by congruence.
    - intros [Hsp ->]. split; [done|]. right. exists (sort_Float64s l), lo, hi, x, y.
      split_and!; try done. by apply sort_Float64s_sorted. }
  destruct (fgt _ maxSpread) eqn:Es.
  - split; [done|]. intros text. split; [done|]. intros (v & [? _]%Hms & _). done.
  - split; [apply AbiNumberEncoder_no_panic|]. intros text. split.
    + intros H. eexists. split; [by apply Hms|exact H].
    + intros (v & [_ ->]%Hms & H). exact H.
Qed.

Lemma MedianInHex_perm values values' responseType maxSpread :
  Forall positive_finite values -> values ≡ₚ values' ->
  MedianInHex values responseType maxSpread = MedianInHex values' responseType maxSpread.
Proof.
  intros Hf Hp. assert (Forall positive_finite values') as Hf' by (by rewrite <- Hp).
  pose proof (Permutation_length Hp) as Hl.
  destruct values as [|a [|b l]], values' as [|a' [|b' l']]; try done.
  - by apply Permutation_singleton_l in Hp as [= ->].
  - unfold MedianInHex. rewrite (proj2 (proj1 (check_values_spec _)) Hf), (proj2 (proj1 (check_values_spec _)) Hf').
    cbn [mbind go_bind]. by rewrite (sort_Float64s_unique _ _ Hf Hp).
Qed.
