(* ===== verification/CustomQuery.v ===== *)
(** * custom_query: request.go and deadline.go

    The timeouts of a custom query and the collection of the answers of its
    sources. Every source is a goroutine that puts one result into a channel with
    room for all; what the collecting loop sees is a sequence of events: a result,
    the timer, or the end of a context. *)
From S2P Require Import Prelude Text Hex Float64 CustomNumbers.
Local Open Scope Z_scope.

(** ** deadline.go *)
Definition QueryTypeSpotPrice : string := "spot_price".
Definition QueryTypeBridgeDeposit : string := "bridge_deposit".
Definition DefaultFetchTimeout : Duration := 2000 * Millisecond.
Definition DefaultAggregationBuffer : Duration := 100 * Millisecond.
Definition DefaultPostFetchReserve : Duration := 500 * Millisecond.
Definition DefaultPerSourceTimeout : Duration := 1000 * Millisecond.
Definition DefaultMaxSourceRetries : Z := 1.

Record TimeoutDefaults := mkTimeoutDefaults {
  FetchTimeoutMs : Z; PerSourceTimeoutMs : Z; MaxSourceRetries : Z; PostFetchReserveMs : Z; AggregationBufferMs : Z
}.

Definition StaticTimeoutDefaultsByQueryType : gmap string TimeoutDefaults :=
  {[ QueryTypeSpotPrice := mkTimeoutDefaults 2000 1000 1 500 100;
     QueryTypeBridgeDeposit := mkTimeoutDefaults 15000 5000 3 10000 100 ]}.

Definition MapOnChainQueryType (onChainType : string) : string :=
  let t := strings_ToLower onChainType in
  if decide (t = "spotprice") then QueryTypeSpotPrice
  else if decide (t ∈ ["trbbridgev2"; "bridge_deposit"; "bridgedeposit"]) then QueryTypeBridgeDeposit
  else QueryTypeSpotPrice.

Definition mergeTimeoutDefaults (base override : TimeoutDefaults) : TimeoutDefaults :=
  let pick (f : TimeoutDefaults -> Z) := if 0 <? f override then f override else f base in
  mkTimeoutDefaults (pick FetchTimeoutMs) (pick PerSourceTimeoutMs) (pick MaxSourceRetries)
    (pick PostFetchReserveMs) (pick AggregationBufferMs).

Definition zero_defaults : TimeoutDefaults := mkTimeoutDefaults 0 0 0 0 0.

(** A source, as far as the collection knows it: its handler and its names. *)
Record Endpoint := mkEndpoint { ep_Handler : string; ep_EndpointID : string; ep_MarketId : string; ep_SourceId : string }.

Record QueryConfig := mkQueryConfig {
  ID : string; QueryType : string; AggregationMethod : string; MinResponses : Z; ResponseType : string;
  MaxSpreadPercent : float64; timeouts : TimeoutDefaults;
  ContractReaders : list Endpoint; RpcReaders : list Endpoint; CombinedReaders : list Endpoint
}.

Definition with_timeouts (t : TimeoutDefaults) (query : QueryConfig) : QueryConfig :=
  mkQueryConfig (ID query) (QueryType query) (AggregationMethod query) (MinResponses query) (ResponseType query)
    (MaxSpreadPercent query) t (ContractReaders query) (RpcReaders query) (CombinedReaders query).

Section Defaults.
Context {RO : RangeOrder}.

Definition mergedConfigDefaults (configDefaults : gmap string TimeoutDefaults) : gmap string TimeoutDefaults :=
  foldl (fun merged '(queryType, overrides) =>
    <[queryType := mergeTimeoutDefaults (default zero_defaults (merged !! queryType)) overrides]> merged)
    StaticTimeoutDefaultsByQueryType (range_of configDefaults).
End Defaults.

Definition queryTypeOf (query : QueryConfig) : string :=
  if decide (QueryType query = "") then QueryTypeSpotPrice else QueryType query.

Definition typeDefaults (query : QueryConfig) (defaults : gmap string TimeoutDefaults) : TimeoutDefaults :=
  match defaults !! queryTypeOf query with
  | Some td => td
  | None => default zero_defaults (StaticTimeoutDefaultsByQueryType !! QueryTypeSpotPrice)
  end.

Definition ResolveReaderTimeouts (query : QueryConfig) (defaults : gmap string TimeoutDefaults) : QueryConfig :=
  let td := typeDefaults query defaults in
  let t := timeouts query in
  with_timeouts (mkTimeoutDefaults (FetchTimeoutMs t)
    (if PerSourceTimeoutMs t =? 0 then PerSourceTimeoutMs td else PerSourceTimeoutMs t)
    (if MaxSourceRetries t =? 0 then MaxSourceRetries td else MaxSourceRetries t)
    (PostFetchReserveMs t) (AggregationBufferMs t)) query.

Definition ResolveFetchTimeouts (query : QueryConfig) (defaults : gmap string TimeoutDefaults) : QueryConfig :=
  let td := typeDefaults query defaults in
  let t := timeouts query in
  with_timeouts (mkTimeoutDefaults
    (if FetchTimeoutMs t =? 0 then FetchTimeoutMs td else FetchTimeoutMs t)
    (PerSourceTimeoutMs t) (MaxSourceRetries t)
    (if PostFetchReserveMs t =? 0 then PostFetchReserveMs td else PostFetchReserveMs t)
    (if AggregationBufferMs t =? 0 then AggregationBufferMs td else AggregationBufferMs t)) query.

Definition ResolveQueryTimeouts (query : QueryConfig) (defaults : gmap string TimeoutDefaults) : QueryConfig :=
  ResolveFetchTimeouts (ResolveReaderTimeouts query defaults) defaults.

Definition WithRuntimeQueryType (query : QueryConfig) (onChainType : string) : QueryConfig :=
  if decide (QueryType query = "") then
    mkQueryConfig (ID query) (MapOnChainQueryType onChainType) (AggregationMethod query) (MinResponses query)
      (ResponseType query) (MaxSpreadPercent query) (timeouts query) (ContractReaders query) (RpcReaders query)
      (CombinedReaders query)
  else query.

(** [time.Duration(ms) * time.Millisecond], when [ms] is set. *)
Definition or_default (ms : Z) (d : Duration) : Duration :=
  if 0 <? ms then wrap int64 (ms * Millisecond) else d.

Definition fetchTimeout (query : QueryConfig) : Duration := or_default (FetchTimeoutMs (timeouts query)) DefaultFetchTimeout.
Definition perSourceTimeout (query : QueryConfig) : Duration :=
  or_default (PerSourceTimeoutMs (timeouts query)) DefaultPerSourceTimeout.
Definition maxSourceRetries (query : QueryConfig) : Z :=
  if 0 <? MaxSourceRetries (timeouts query) then MaxSourceRetries (timeouts query) else DefaultMaxSourceRetries.
Definition perSourceTimeoutMs (query : QueryConfig) : Z := Z.quot (perSourceTimeout query) Millisecond.
Definition aggregationBuffer (query : QueryConfig) : Duration :=
  or_default (AggregationBufferMs (timeouts query)) DefaultAggregationBuffer.
Definition postFetchReserve (query : QueryConfig) : Duration :=
  or_default (PostFetchReserveMs (timeouts query)) DefaultPostFetchReserve.

Definition collectionDeadline (now : Time) (ctxDeadline : option Time) (query : QueryConfig) : Time :=
  let deadline := time_Add now (fetchTimeout query) in
  match ctxDeadline with
  | Some ctxDeadline =>
      let safeDeadline := time_Add ctxDeadline (wrap int64 (- aggregationBuffer query - postFetchReserve query)) in
      if time_Before safeDeadline deadline then safeDeadline else deadline
  | None => deadline
  end.

(** ** request.go: sources *)
Record Result := mkResult {
  r_Value : float64; r_Err : option go_error; r_EndpointID : string; r_MarketId : string; r_SourceId : string
}.

Definition validatePositiveFiniteValue (value : float64) (label : string) : go unit :=
  match value with
  | S754_nan | S754_infinity _ => Err (ErrNew (label +:+ " is not finite"))
  | _ => if is_positive_finite value then Ok tt else Err (ErrNew (label +:+ " must be positive"))
  end.

Section Sources.
(** The handler registered under a name, and what it returns for a source. *)
Variable contract_handler : string -> option (Endpoint -> go float64).
Variable rpc_handler : string -> option (Endpoint -> go float64).
Variable combined_handler : string -> option (Endpoint -> go float64).

(** The common shape: look the handler up, call it, validate the value. [id] is the
    id of a failed result and [ok_id] of a successful one. *)
Definition fetch_from (handler : option (Endpoint -> go float64)) (ep : Endpoint)
    (name id ok_id market source get_text fetch_text label : string) : go Result :=
  let failed err := Ok (mkResult fzero (Some err) id market source) in
  match handler with
  | None => failed (ErrWrap get_text (ErrNew ("unknown handler: " +:+ name)) "")
  | Some FetchValue =>
      match FetchValue ep with
      | Err err => failed (ErrWrap fetch_text err "")
      | Panic p => Panic p
      | Ok value =>
          match validatePositiveFiniteValue value label with
          | Err err => failed err
          | Panic p => Panic p
          | Ok _ => Ok (mkResult value None ok_id market source)
          end
      end
  end.

Definition fetchFromContractEndpoint (ep : Endpoint) : go Result :=
  fetch_from (contract_handler (ep_Handler ep)) ep (ep_Handler ep) (ep_Handler ep) ("contract:" +:+ ep_Handler ep)
    (ep_MarketId ep) (ep_SourceId ep) "failed to get contract handler: " "failed to fetch contract value: " "contract value".

Definition fetchFromRpcEndpoint (ep : Endpoint) : go Result :=
  let handlerStr := if decide (ep_Handler ep = "") then "generic" else ep_Handler ep in
  fetch_from (rpc_handler handlerStr) ep handlerStr (ep_EndpointID ep) (ep_EndpointID ep)
    (ep_MarketId ep) (ep_SourceId ep) "failed to get RPC handler: " "failed to fetch value: " "RPC value".

Definition fetchFromCombinedEndpoint (ep : Endpoint) : go Result :=
  fetch_from (combined_handler (ep_Handler ep)) ep (ep_Handler ep) (ep_Handler ep) ("combined:" +:+ ep_Handler ep)
    "" "" "failed to get combined handler: " "failed to fetch combined value: " "combined value".

(** The results of all sources of a query. *)
Definition source_results (query : QueryConfig) : go (list Result) :=
  a ← mapM_go fetchFromContractEndpoint (ContractReaders query);
  b ← mapM_go fetchFromRpcEndpoint (RpcReaders query);
  c ← mapM_go fetchFromCombinedEndpoint (CombinedReaders query);
  Ok (a ++ b ++ c).
End Sources.

(** ** request.go: aggregation and collection *)
Definition aggregateResults (results : list Result) (method responseType : string) (maxSpreadPercent : float64) : go string :=
  match results with
  | [] => Err (ErrNew "no results to aggregate")
  | _ =>
      if decide (strings_ToLower method = "median")
      then MedianInHex (r_Value <$> results) responseType maxSpreadPercent
      else Err (ErrNew ("unsupported aggregation method: " +:+ method))
  end.

Record FetchPriceResult := mkFetchPriceResult {
  EncodedValue : string; RawResults : list Result; fr_QueryID : string; fr_ResponseType : string; SuccessRate : float64
}.

Definition float_of_len (n : nat) : float64 := float_of_integer (round53 (Z.of_nat n)).

Definition fetchPriceResultFromCollected (allResults successfulResults : list Result) (query : QueryConfig)
    (totalEndpoints : nat) (encodedValue : string) : FetchPriceResult :=
  let successRate := if decide (totalEndpoints = 0%nat) then fzero
                     else fdiv (float_of_len (length successfulResults)) (float_of_len totalEndpoints) in
  mkFetchPriceResult encodedValue allResults (ID query) (ResponseType query) successRate.

(** A result and an error; both may be set. [MedianInHex] does not panic. *)
Definition outcome : Type := option FetchPriceResult * go unit.

Definition finalizeFetch (allResults successfulResults : list Result) (query : QueryConfig) (totalEndpoints : nat) : outcome :=
  match aggregateResults successfulResults (AggregationMethod query) (ResponseType query) (MaxSpreadPercent query) with
  | Ok aggregatedValue =>
      (Some (fetchPriceResultFromCollected allResults successfulResults query totalEndpoints aggregatedValue), Ok tt)
  | Err err => (Some (fetchPriceResultFromCollected allResults successfulResults query totalEndpoints ""), Err err)
  | Panic p => (None, Panic p)
  end.

Inductive collect_event :=
  | Arrive (r : Result)
  | TimerFired
  | FetchCtxDone (parent_done : bool).

Definition is_success (r : Result) : Prop := r_Err r = None.
#[export] Instance is_success_dec r : Decision (is_success r).
Proof. unfold is_success. destruct (r_Err r); [right|left]; done. Defined.

Definition successes (rs : list Result) : list Result := filter is_success rs.

(** How the collecting loop ends: with everything collected and enough successes,
    or left with what it has. [None] when it still waits. *)
Inductive collected :=
  | Complete (allResults : list Result)
  | Left (allResults : list Result).

Fixpoint collectLoop (query : QueryConfig) (pending : nat) (allResults : list Result) (events : list collect_event) :
    option collected :=
  match pending with
  | O => Some (Left allResults)
  | S rest =>
      match events with
      | [] => None
      | Arrive r :: events =>
          let allResults := allResults ++ [r] in
          if decide (rest = 0%nat) then
            if MinResponses query <=? Z.of_nat (length (successes allResults)) then Some (Complete allResults)
            else collectLoop query rest allResults events
          else collectLoop query rest allResults events
      | TimerFired :: _ => Some (Left allResults)
      | FetchCtxDone true :: _ => Some (Left allResults)
      | FetchCtxDone false :: events => collectLoop query pending allResults events
      end
  end.

Definition totalEndpoints (query : QueryConfig) : nat :=
  length (RpcReaders query) + length (ContractReaders query) + length (CombinedReaders query).

(** [events] is what the loop sees, [drained] the results that are in the channel
    when it ends. *)
Definition FetchPrice (query : QueryConfig) (events : list collect_event) (drained : list Result) : option outcome :=
  let total := totalEndpoints query in
  if decide (total = 0%nat) then Some (None, Err (ErrNew ("no endpoints configured for query " +:+ ID query)))
  else
    match collectLoop query total [] events with
    | None => None
    | Some (Complete allResults) => Some (finalizeFetch allResults (successes allResults) query total)
    | Some (Left allResults) =>
        let allResults := allResults ++ drained in
        let successfulResults := successes allResults in
        if MinResponses query <=? Z.of_nat (length successfulResults)
        then Some (finalizeFetch allResults successfulResults query total)
        else Some (Some (fetchPriceResultFromCollected allResults successfulResults query total ""),
                   Err (ErrNew ("insufficient successful responses: got " +:+ pretty (length successfulResults) +:+
                                ", need " +:+ pretty (MinResponses query))))
    end.

(** ** Sources *)
Definition well_formed (r : Result) : Prop := is_success r -> positive_finite (r_Value r).

Lemma validate_spec value label :
  (validatePositiveFiniteValue value label = Ok tt /\ positive_finite value) \/
  exists err, validatePositiveFiniteValue value label = Err err.
Proof.
  unfold validatePositiveFiniteValue, positive_finite.
  destruct value as [[]|[]| |[] m e]; cbn; try (right; by eexists). by left.
Qed.

Lemma fetch_from_well_formed handler ep name id ok_id market source t1 t2 label r :
  fetch_from handler ep name id ok_id market source t1 t2 label = Ok r -> well_formed r.
Proof.
  unfold fetch_from, well_formed, is_success. destruct handler as [f|]; [|by intros [= <-]].
  destruct (f ep) as [v|e|p]; [|by intros [= <-]|done].
  destruct (validate_spec v label) as [[-> Hv]|[err ->]]; by intros [= <-].
Qed.

Lemma source_results_well_formed ch rh bh query rs :
  source_results ch rh bh query = Ok rs -> length rs = totalEndpoints query /\ Forall well_formed rs.
Proof.
  unfold source_results, totalEndpoints. rewrite !go_bind_Ok. intros (a & Ha & H).
  apply go_bind_Ok in H as (b & Hb & H). apply go_bind_Ok in H as (c & Hc & [= <-]).
  apply mapM_go_Ok in Ha, Hb, Hc.
  split; [rewrite !length_app, (Forall2_length _ _ _ Ha), (Forall2_length _ _ _ Hb), (Forall2_length _ _ _ Hc); lia|].
  rewrite !Forall_app. split_and!; apply Forall_forall; intros r Hr.
  - destruct (Forall2_elem_of_r _ _ _ _ Ha Hr) as (ep & _ & He). by eapply fetch_from_well_formed.
  - destruct (Forall2_elem_of_r _ _ _ _ Hb Hr) as (ep & _ & He). by eapply fetch_from_well_formed.
  - destruct (Forall2_elem_of_r _ _ _ _ Hc Hr) as (ep & _ & He). by eapply fetch_from_well_formed.
Qed.

(** ** Collection

    What the loop has collected when it ends. *)
Fixpoint seen (pending : nat) (events : list collect_event) : list Result :=
  match pending, events with
  | O, _ | _, [] => []
  | S rest, Arrive r :: events => r :: seen rest events
  | S _, FetchCtxDone false :: events => seen pending events
  | S _, _ => []
  end.

Definition got (query : QueryConfig) (events : list collect_event) (drained : list Result) : list Result :=
  seen (totalEndpoints query) events ++ drained.

Lemma collectLoop_spec query pending acc events c :
  collectLoop query pending acc events = Some c ->
  c = Left (acc ++ seen pending events) \/
  (c = Complete (acc ++ seen pending events) /\ length (seen pending events) = pending /\
   MinResponses query <= Z.of_nat (length (successes (acc ++ seen pending events)))).
Proof.
  revert pending acc. induction events as [|ev events IH]; intros [|rest] acc; cbn [collectLoop seen];
    try (intros [= <-]; left; by rewrite app_nil_r).
  destruct ev as [r| |[]]; try (intros [= <-]; left; by rewrite app_nil_r).
  - assert (acc ++ r :: seen rest events = (acc ++ [r]) ++ seen rest events) as E by (by rewrite <- app_assoc).
    rewrite E. intros H.
    assert (collectLoop query rest (acc ++ [r]) events = Some c \/
            (rest = 0%nat /\ c = Complete (acc ++ [r]) /\ MinResponses query <= Z.of_nat (length (successes (acc ++ [r])))))
      as [H'|(-> & -> & Hm)].
    { destruct (decide (rest = 0%nat)) as [->|]; [|by left].
      destruct (Z.leb_spec (MinResponses query) (Z.of_nat (length (successes (acc ++ [r])))));
        [right; by injection H as <-|by left]. }
    + destruct (IH rest (acc ++ [r]) H') as [->|(-> & Hl & Hm)]; [by left|right]. split_and!; [done|cbn; lia|done].
    + right. assert (seen 0 events = []) as -> by (by destruct events). by rewrite app_nil_r.
  - apply (IH (S rest) acc).
Qed.

Lemma collectLoop_ends query pending acc events :
  TimerFired ∈ events \/ (pending <= length (omap (fun ev => match ev with Arrive r => Some r | _ => None end) events))%nat ->
  is_Some (collectLoop query pending acc events).
Proof.
  revert pending acc. induction events as [|ev events IH]; intros [|rest] acc H; cbn [collectLoop]; try by eexists.
  { destruct H as [H|H]; [by apply elem_of_nil in H|cbn in H; lia]. }
  destruct ev as [r| |[]]; try by eexists.
  - assert (is_Some (collectLoop query rest (acc ++ [r]) events)) as Hr.
    { apply IH. destruct H as [[?|H]%elem_of_cons|H]; [done|by left|right; cbn in H; lia]. }
    destruct (decide (rest = 0%nat)); [|done]. destruct (_ <=? _); [by eexists|done].
  - apply IH. destruct H as [[?|H]%elem_of_cons|H]; [done|by left|by right].
Qed.

(** The values that are aggregated. *)
Definition good_values (rs : list Result) : list float64 := r_Value <$> successes rs.

Lemma good_values_positive rs : Forall well_formed rs -> Forall positive_finite (good_values rs).
Proof.
  intros Hrs. apply Forall_fmap, Forall_forall. intros r [Hs Hr]%list_elem_of_filter.
  rewrite Forall_forall in Hrs. by apply Hrs.
Qed.

Lemma successes_perm rs rs' : rs ≡ₚ rs' -> successes rs ≡ₚ successes rs'.
Proof. intros E. unfold successes. by rewrite E. Qed.

(** The aggregation of what was collected. *)
Definition aggregated (query : QueryConfig) (rs : list Result) : go string :=
  if MinResponses query <=? Z.of_nat (length (successes rs))
  then aggregateResults (successes rs) (AggregationMethod query) (ResponseType query) (MaxSpreadPercent query)
  else Err (ErrNew ("insufficient successful responses: got " +:+ pretty (length (successes rs)) +:+
                    ", need " +:+ pretty (MinResponses query))).

Lemma aggregated_perm query rs rs' :
  Forall well_formed rs -> rs ≡ₚ rs' -> aggregated query rs = aggregated query rs'.
Proof.
  intros Hw E. unfold aggregated. pose proof (successes_perm _ _ E) as Es. rewrite (Permutation_length Es).
  destruct (_ <=? _); [|done]. pose proof (good_values_positive rs Hw) as Hp. unfold good_values in Hp.
  unfold aggregateResults. pose proof (Permutation_length Es) as Hl.
  destruct (successes rs) as [|r l] eqn:E1, (successes rs') as [|r' l'] eqn:E2; try done.
  case_decide; [|done]. apply MedianInHex_perm; [done|]. by apply fmap_Permutation.
Qed.

Lemma aggregated_spec query rs :
  (forall p, aggregated query rs <> Panic p) /\
  forall text, aggregated query rs = Ok text <->
    MinResponses query <= Z.of_nat (length (successes rs)) /\ strings_ToLower (AggregationMethod query) = "median" /\
    exists v, median_spec (good_values rs) (MaxSpreadPercent query) v /\ AbiNumberEncoder v (ResponseType query) = Ok text.
Proof.
  unfold aggregated, good_values. destruct (Z.leb_spec (MinResponses query) (Z.of_nat (length (successes rs)))) as [Hm|Hm];
    [|split; [done|]; intros text; split; [done|lia]].
  unfold aggregateResults. destruct (successes rs) as [|r l] eqn:Es.
  { split; [done|]. intros text. split; [done|]. intros (_ & _ & v & [_ [H|(s & lo & hi & x & y & _ & _ & Hl & _)]] & _); [done|cbn in Hl; lia]. }
  rewrite <- Es in *. case_decide as Hmed.
  - destruct (MedianInHex_cases (r_Value <$> successes rs) (ResponseType query) (MaxSpreadPercent query)) as [Hp Hok].
    split; [exact Hp|]. intros text. rewrite Hok. naive_solver.
  - split; [done|]. intros text. split; [done|]. by intros (_ & ? & _).
Qed.

(** Every run of a query with sources that ends, ends with the aggregation of what
    was collected. *)
Lemma FetchPrice_aggregated query events drained o :
  totalEndpoints query <> 0%nat -> (length (got query events drained) <= totalEndpoints query)%nat ->
  FetchPrice query events drained = Some o ->
  let rs := got query events drained in
  o = (match aggregated query rs with
       | Ok text => (Some (fetchPriceResultFromCollected rs (successes rs) query (totalEndpoints query) text), Ok tt)
       | Err err => (Some (fetchPriceResultFromCollected rs (successes rs) query (totalEndpoints query) ""), Err err)
       | Panic p => (None, Panic p)
       end).
Proof.
  intros Ht Hlen. unfold FetchPrice, got in *. rewrite decide_False by done.
  destruct (collectLoop query (totalEndpoints query) [] events) as [c|] eqn:E; [|done].
  destruct (collectLoop_spec _ _ _ _ _ E) as [->|(-> & Hl & Hm)]; cbn [app].
  - unfold aggregated, finalizeFetch. destruct (_ <=? _); intros [= <-]; [|done].
    by destruct (aggregateResults _ _ _ _).
  - rewrite length_app in Hlen. assert (drained = []) as -> by (destruct drained; [done|cbn in Hlen; lia]).
    rewrite app_nil_r. intros [= <-]. unfold aggregated, finalizeFetch.
    cbn [app] in Hm. rewrite (proj2 (Z.leb_le _ _) Hm). by destruct (aggregateResults _ _ _ _).
Qed.

(** C20: A custom query. With at least one source, each of which answers at most once
    and none of which panics (that would end the process in the source's goroutine),
    the fetch does not panic; it succeeds exactly when enough of the answers that
    were collected are successes, their median (of the sorted values, whose spread
    is within the limit) exists and encodes as the type of the response; the result
    always holds the answers that were collected. It depends on which answers were
    collected, not on their order, nor on which of them the loop saw before it
    ended. It ends when all answers are there or the timer fires. *)
Theorem FetchPrice_correct ch rh bh query rs events drained :
  source_results ch rh bh query = Ok rs -> rs <> [] -> got query events drained ⊆+ rs ->
  (forall res r, FetchPrice query events drained = Some (res, r) ->
     exists fr, res = Some fr /\ RawResults fr = got query events drained /\ (forall p, r <> Panic p) /\
       (r = Ok tt <->
        MinResponses query <= Z.of_nat (length (successes (RawResults fr))) /\
        strings_ToLower (AggregationMethod query) = "median" /\
        exists v, median_spec (good_values (RawResults fr)) (MaxSpreadPercent query) v /\
          AbiNumberEncoder v (ResponseType query) = Ok (EncodedValue fr))) /\
  (forall events' drained' res r res' r', got query events drained ≡ₚ got query events' drained' ->
     FetchPrice query events drained = Some (res, r) -> FetchPrice query events' drained' = Some (res', r') ->
     r = r' /\ EncodedValue <$> res = EncodedValue <$> res' /\ SuccessRate <$> res = SuccessRate <$> res') /\
  (TimerFired ∈ events \/
     (length rs <= length (omap (fun ev => match ev with Arrive r => Some r | _ => None end) events))%nat ->
   is_Some (FetchPrice query events drained)).
Proof.
  intros Hrs Hne Hsub. destruct (source_results_well_formed _ _ _ _ _ Hrs) as [Hlen Hwf].
  assert (totalEndpoints query <> 0%nat) as Ht by (destruct rs; [done|cbn in Hlen; lia]).
  pose proof (submseteq_length _ _ Hsub) as Hle. rewrite Hlen in Hle.
  assert (Forall well_formed (got query events drained)) as Hwg.
  { apply Forall_forall. intros r Hr. rewrite Forall_forall in Hwf. apply Hwf.
    by eapply elem_of_submseteq. }
  split_and!.
  - intros res r E. apply (FetchPrice_aggregated _ _ _ _ Ht Hle) in E. cbn in E.
    destruct (aggregated_spec query (got query events drained)) as [Hp Hok].
    destruct (aggregated query (got query events drained)) as [text|err|p]; [..|by destruct (Hp p)];
      injection E as -> ->; eexists; (split; [done|]); (split; [done|]); (split; [done|]); cbn.
    + split; [intros _; by apply Hok|done].
    + split; [done|]. intros H. by apply Hok in H.
  - intros events' drained' res r res' r' Hp E E'.
    apply (FetchPrice_aggregated _ _ _ _ Ht Hle) in E.
    rewrite (Permutation_length Hp) in Hle. apply (FetchPrice_aggregated _ _ _ _ Ht Hle) in E'. cbn in E, E'.
    rewrite <- (aggregated_perm query _ _ Hwg Hp) in E'.
    pose proof (Permutation_length (successes_perm _ _ Hp)) as Hs.
    destruct (aggregated query (got query events drained)) as [text|err|p];
      injection E as -> ->; injection E' as -> ->; cbn; by rewrite ?Hs.
  - intros H. unfold FetchPrice. rewrite decide_False by done. rewrite Hlen in H.
    destruct (collectLoop_ends query (totalEndpoints query) [] events H) as [[all|all] ->]; [by eexists|].
    destruct (_ <=? _); by eexists.
Qed.

(** ** Timeouts *)
Definition all_set (t : TimeoutDefaults) : Prop :=
  0 < FetchTimeoutMs t /\ 0 < PerSourceTimeoutMs t /\ 0 < MaxSourceRetries t /\ 0 < PostFetchReserveMs t /\
  0 < AggregationBufferMs t.

Lemma mergeTimeoutDefaults_set base override : all_set base -> all_set (mergeTimeoutDefaults base override).
Proof.
  unfold all_set, mergeTimeoutDefaults.
  cbn [FetchTimeoutMs PerSourceTimeoutMs MaxSourceRetries PostFetchReserveMs AggregationBufferMs]. intros H.
  repeat match goal with |- context [if ?b then _ else _] => destruct b eqn:? end; lia.
Qed.

Definition known_type (ty : string) : Prop := ty = QueryTypeSpotPrice \/ ty = QueryTypeBridgeDeposit.

Lemma mergedConfigDefaults_set {RO : RangeOrder} configDefaults ty :
  known_type ty -> exists td, mergedConfigDefaults configDefaults !! ty = Some td /\ all_set td.
Proof.
  intros Hty. unfold mergedConfigDefaults.
  assert (exists td, StaticTimeoutDefaultsByQueryType !! ty = Some td /\ all_set td) as H
    by (destruct Hty as [->| ->]; eexists; (split; [vm_compute; reflexivity|vm_compute; repeat split])).
  revert H. generalize StaticTimeoutDefaultsByQueryType as m.
  induction (range_of configDefaults) as [|[k o] l IH]; intros m H; cbn [foldl]; [done|].
  apply IH. destruct H as (td & Hm & Hs). destruct (decide (k = ty)) as [->|Hne].
  - rewrite lookup_insert_eq, Hm. eexists. split; [done|]. by apply mergeTimeoutDefaults_set.
  - rewrite lookup_insert_ne by done. by exists td.
Qed.

Lemma Resolve_timeouts query defaults :
  let td := typeDefaults query defaults in
  let t := timeouts query in
  timeouts (ResolveQueryTimeouts query defaults) =
    mkTimeoutDefaults (if FetchTimeoutMs t =? 0 then FetchTimeoutMs td else FetchTimeoutMs t)
      (if PerSourceTimeoutMs t =? 0 then PerSourceTimeoutMs td else PerSourceTimeoutMs t)
      (if MaxSourceRetries t =? 0 then MaxSourceRetries td else MaxSourceRetries t)
      (if PostFetchReserveMs t =? 0 then PostFetchReserveMs td else PostFetchReserveMs t)
      (if AggregationBufferMs t =? 0 then AggregationBufferMs td else AggregationBufferMs t).
Proof. done. Qed.

Lemma collectionDeadline_spec now ctxDeadline query :
  let buffer := aggregationBuffer query in
  let reserve := postFetchReserve query in
  in_range int64 (- buffer - reserve) ->
  collectionDeadline now (Some ctxDeadline) query =
    Z.min (now + fetchTimeout query) (ctxDeadline - buffer - reserve).
Proof.
  intros buffer reserve Hr. unfold collectionDeadline, time_Add, time_Before.
  rewrite wrap_small by auto with go. fold buffer reserve.
  destruct (Z.ltb_spec (ctxDeadline + (- buffer - reserve)) (now + fetchTimeout query)); lia.
Qed.

Lemma or_default_small ms d : 0 < ms <= 10 ^ 12 -> or_default ms d = ms * Millisecond.
Proof.
  intros H. unfold or_default. rewrite (proj2 (Z.ltb_lt 0 ms)) by lia.
  apply wrap_small; [auto with go|]. unfold in_range, Millisecond, min_int, max_int. cbn. lia.
Qed.

Lemma reserve_small a r :
  0 < a <= 10 ^ 12 -> 0 < r <= 10 ^ 12 -> in_range int64 (- (a * Millisecond) - r * Millisecond).
Proof.
  change (10 ^ 12) with 1000000000000. intros Ha Hr. unfold in_range.
  change (min_int int64) with (-9223372036854775808). change (max_int int64) with 9223372036854775807.
  change Millisecond with 1000000. lia.
Qed.

(** The timeouts of a query of a known type, whatever the defaults of the
    configuration: what the query sets is kept, what it leaves is set, and resolving
    again changes nothing. The collection then ends within the fetch timeout, and
    early enough to leave the aggregation buffer and the reserve before the deadline
    of the caller. So a caller that leaves less than these two, as the monitors of
    the reporter with their ten seconds do for the built-in defaults of bridge
    deposits, gives the sources no time at all. *)
Theorem timeouts_correct {RO : RangeOrder} configDefaults query now ctxDeadline :
  known_type (queryTypeOf query) ->
  let q := ResolveQueryTimeouts query (mergedConfigDefaults configDefaults) in
  let given (f : TimeoutDefaults -> Z) := f (timeouts query) <> 0 -> f (timeouts q) = f (timeouts query) in
  (given FetchTimeoutMs /\ given PerSourceTimeoutMs /\ given MaxSourceRetries /\ given PostFetchReserveMs /\
   given AggregationBufferMs) /\
  ResolveQueryTimeouts q (mergedConfigDefaults configDefaults) = q /\
  (timeouts query = zero_defaults -> all_set (timeouts q)) /\
  (let t := timeouts q in
   0 < FetchTimeoutMs t <= 10 ^ 12 -> 0 < PostFetchReserveMs t <= 10 ^ 12 -> 0 < AggregationBufferMs t <= 10 ^ 12 ->
   let deadline := collectionDeadline now (Some ctxDeadline) q in
   deadline <= now + FetchTimeoutMs t * Millisecond /\
   deadline + (AggregationBufferMs t + PostFetchReserveMs t) * Millisecond <= ctxDeadline /\
   (deadline = now + FetchTimeoutMs t * Millisecond \/
    deadline + (AggregationBufferMs t + PostFetchReserveMs t) * Millisecond = ctxDeadline)) /\
  (configDefaults = ∅ -> timeouts query = zero_defaults -> QueryType query = QueryTypeBridgeDeposit ->
   ctxDeadline <= now + 10 * Second -> collectionDeadline now (Some ctxDeadline) q < now).
Proof.
  intros Hty q given. destruct (mergedConfigDefaults_set configDefaults _ Hty) as (td & Htd & Hset).
  assert (typeDefaults query (mergedConfigDefaults configDefaults) = td) as Etd by (unfold typeDefaults; by rewrite Htd).
  assert (timeouts q = mkTimeoutDefaults
      (if FetchTimeoutMs (timeouts query) =? 0 then FetchTimeoutMs td else FetchTimeoutMs (timeouts query))
      (if PerSourceTimeoutMs (timeouts query) =? 0 then PerSourceTimeoutMs td else PerSourceTimeoutMs (timeouts query))
      (if MaxSourceRetries (timeouts query) =? 0 then MaxSourceRetries td else MaxSourceRetries (timeouts query))
      (if PostFetchReserveMs (timeouts query) =? 0 then PostFetchReserveMs td else PostFetchReserveMs (timeouts query))
      (if AggregationBufferMs (timeouts query) =? 0 then AggregationBufferMs td else AggregationBufferMs (timeouts query))) as Et
    by (unfold q; rewrite Resolve_timeouts; cbv zeta; by rewrite Etd).
  assert (forall ms, (if ms =? 0 then 0 else ms) = ms) as Hid by (intros ms; by destruct (Z.eqb_spec ms 0)).
  split; [|split; [|split; [|split]]].
  - subst given. cbv beta. rewrite Et. cbn. split_and!; intros H; by rewrite (proj2 (Z.eqb_neq _ _) H).
  - assert (typeDefaults q (mergedConfigDefaults configDefaults) = td) as Etd' by exact Etd.
    unfold ResolveQueryTimeouts, ResolveFetchTimeouts, ResolveReaderTimeouts, with_timeouts at 1.
    change (typeDefaults (with_timeouts _ q) _) with (typeDefaults q (mergedConfigDefaults configDefaults)).
    rewrite Etd'. cbn [timeouts with_timeouts]. rewrite Et. cbn [FetchTimeoutMs PerSourceTimeoutMs MaxSourceRetries PostFetchReserveMs AggregationBufferMs].
    assert (forall x y, (if (if x =? 0 then y else x) =? 0 then y else if x =? 0 then y else x) = (if x =? 0 then y else x)) as Hif
      by (intros x y; destruct (Z.eqb_spec x 0); [by destruct (y =? 0)|by rewrite (proj2 (Z.eqb_neq x 0))]).
    rewrite !Hif. clear Hif. rewrite <- Et. unfold q. by destruct query.
  - intros Hz. rewrite Et, Hz. cbn. exact Hset.
  - cbv zeta. intros Hf Hp Ha. pose proof (collectionDeadline_spec now ctxDeadline q) as Hd. cbv zeta in Hd.
    unfold fetchTimeout, aggregationBuffer, postFetchReserve in Hd.
    rewrite !or_default_small in Hd by done. rewrite Hd by (by apply reserve_small). lia.
  - intros -> Hz Hb Hc. assert (td = mkTimeoutDefaults 15000 5000 3 10000 100) as ->.
    { unfold queryTypeOf in Htd. rewrite Hb in Htd.
      assert (mergedConfigDefaults ∅ = StaticTimeoutDefaultsByQueryType) as E.
      { unfold mergedConfigDefaults. pose proof (range_of_perm (∅ : gmap string TimeoutDefaults)) as Hp.
        rewrite map_to_list_empty in Hp. apply Permutation_nil_r in Hp. by rewrite Hp. }
      rewrite E in Htd. vm_compute in Htd. by injection Htd as <-. }
    rewrite Hz in Et. clearbody q. cbn in Et. pose proof (collectionDeadline_spec now ctxDeadline q) as Hd. cbv zeta in Hd.
    unfold fetchTimeout, aggregationBuffer, postFetchReserve in Hd. rewrite Et in Hd.
    cbn [FetchTimeoutMs PostFetchReserveMs AggregationBufferMs] in Hd.
    rewrite !or_default_small in Hd by lia. rewrite Hd by (by apply reserve_small).
    unfold Second, Millisecond in *. lia.
Qed.

(** ** Witnesses: two sources of one query, whose prices are 2 and 4. *)
Definition ex_float (e : Z) : float64 := S754_finite false (2 ^ 52) (e - 52).
Definition ex_ep (name : string) : Endpoint := mkEndpoint name name "m" "s".
Definition ex_query := mkQueryConfig "q" "" "Median" 2 "ufixed64x2" (float_of_integer 500) zero_defaults
  [] [ex_ep "a"; ex_ep "b"] [].
Definition ex_handler (name : string) : option (Endpoint -> go float64) :=
  if decide (name = "a") then Some (fun _ => Ok (ex_float 1)) else Some (fun _ => Ok (ex_float 2)).
Definition ex_result (name : string) (e : Z) : Result := mkResult (ex_float e) None name "m" "s".

Lemma FetchPrice_correct_witness :
  source_results ex_handler ex_handler ex_handler ex_query = Ok [ex_result "a" 1; ex_result "b" 2] /\
  exists fr r, FetchPrice ex_query [Arrive (ex_result "b" 2); FetchCtxDone false; Arrive (ex_result "a" 1)] [] = Some (Some fr, r) /\
    EncodedValue fr = "000000000000012c" /\ forall p, r <> Panic p.
Proof.
  assert (source_results ex_handler ex_handler ex_handler ex_query = Ok [ex_result "a" 1; ex_result "b" 2]) as Hs
    by (vm_compute; reflexivity).
  split; [exact Hs|].
  destruct (FetchPrice_correct ex_handler ex_handler ex_handler ex_query _
    [Arrive (ex_result "b" 2); FetchCtxDone false; Arrive (ex_result "a" 1)] [] Hs ltac:(discriminate)
    ltac:(apply Permutation_submseteq, Permutation_swap)) as [H _].
  assert (exists o, FetchPrice ex_query [Arrive (ex_result "b" 2); FetchCtxDone false; Arrive (ex_result "a" 1)] [] = Some o)
    as [[res r] E] by (eexists; vm_compute; reflexivity).
  destruct (H res r E) as (fr & -> & _ & Hp & _). exists fr, r. split; [exact E|]. split; [|exact Hp].
  apply (f_equal (fmap fst)) in E. vm_compute in E. by injection E as <-.
Defined.

Lemma timeouts_correct_witness :
  known_type (queryTypeOf ex_query) /\
  all_set (timeouts (ResolveQueryTimeouts ex_query (mergedConfigDefaults ∅))).
Proof.
  assert (known_type (queryTypeOf ex_query)) as Hk by (left; reflexivity).
  split; [exact Hk|].
  destruct (timeouts_correct ∅ ex_query 0 0 Hk) as (_ & _ & H & _). exact (H eq_refl).
Defined.
