(* ===== verification/BigFloat.v ===== *)
(** * math/big and strconv: decimal text, floats of any precision, float64

    What the price functions use of Go's library: [big.Float] (parsing with the
    precision of 64 bits, product and quotient, comparison, truncation), the
    parsing and the printing of float64, and the powers of ten of lib/big_math.go
    with the conversions of lib/convert.go. *)
From Stdlib Require Import Ascii QArith Qabs Qpower Lqa.
From S2P Require Import Prelude Text Float64 EncodePrice CustomNumbers.
Local Open Scope Z_scope.

(** ** big.Float

    [BNum prec m e] is the number [m * 2^e]. The sign of zero is not kept: nothing
    here depends on it. *)
Inductive bigfloat :=
  | BInf (neg : bool)
  | BNum (prec m e : Z).

Definition MaxExp : Z := 2 ^ 31 - 1.
Definition MinExp : Z := - 2 ^ 31.

(** [n / d], both positive, as a number with [p] bits: nearest, ties to even. *)
Definition msb (n d : Z) : Z :=
  let k := Z.log2 n - Z.log2 d in
  if n * 2 ^ Z.max 0 (- k) <? d * 2 ^ Z.max 0 k then k - 1 else k.

Definition div_even (n d : Z) : Z :=
  let q := n / d in
  let r := n mod d in
  if (2 * r <? d) || ((2 * r =? d) && Z.even q) then q else q + 1.

Definition round_ratio (p n d : Z) : Z * Z :=
  let e := msb n d - (p - 1) in
  (div_even (n * 2 ^ Z.max 0 (- e)) (d * 2 ^ Z.max 0 e), e).

(** The number [n / d * 2^e] with [prec] bits, zero or infinite when the exponent of
    a number has no room. *)
Definition bf_round (prec : Z) (neg : bool) (n d e : Z) : bigfloat :=
  if n =? 0 then BNum prec 0 0
  else if msb n d + 1 + e <? MinExp then BNum prec 0 0
  else
    let '(m, e') := round_ratio prec n d in
    if MaxExp <? Z.log2 m + 1 + (e' + e) then BInf neg
    else BNum prec (if neg then - m else m) (e' + e).

Definition bf_neg (x : bigfloat) : bool := match x with BInf neg => neg | BNum _ m _ => m <? 0 end.

(** [z.Mul(x, y)] and [z.Quo(x, y)] for a [z] of precision [prec]; the program never
    divides by zero, nor multiplies zero with an infinity. *)
Definition bf_Mul (prec : Z) (x y : bigfloat) : bigfloat :=
  let neg := xorb (bf_neg x) (bf_neg y) in
  match x, y with
  | BNum _ m e, BNum _ m' e' => bf_round prec neg (Z.abs m * Z.abs m') 1 (e + e')
  | _, _ => BInf neg
  end.

Definition bf_Quo (prec : Z) (x y : bigfloat) : bigfloat :=
  let neg := xorb (bf_neg x) (bf_neg y) in
  match x, y with
  | BNum _ m e, BNum _ m' e' => bf_round prec neg (Z.abs m) (Z.abs m') (e - e')
  | _, BInf _ => BNum prec 0 0
  | BInf _, _ => BInf neg
  end.

Definition bf_prec (x : bigfloat) : Z := match x with BInf _ => 64 | BNum prec _ _ => prec end.
(** [new(big.Float).Mul(x, y)] takes the larger precision. *)
Definition bf_Mul_new (x y : bigfloat) : bigfloat := bf_Mul (Z.max (bf_prec x) (bf_prec y)) x y.
Definition bf_Quo_new (x y : bigfloat) : bigfloat := bf_Quo (Z.max (bf_prec x) (bf_prec y)) x y.

(** The exponent of a big.Float has 32 bits: an integer of more than [2^31 - 1] bits
    (a power of ten above 646 million, say) would become an infinity here. It is
    kept as it is: the model is that of smaller integers. *)
Definition bf_SetInt (n : Z) : bigfloat :=
  BNum (Z.max 64 (if n =? 0 then 0 else Z.log2 (Z.abs n) + 1)) n 0.

(** [x.Cmp(n)] for an integer [n]. *)
Definition bf_compare (x : bigfloat) (n : Z) : comparison :=
  match x with
  | BInf neg => if neg then Lt else Gt
  | BNum _ m e => m * 2 ^ Z.max 0 e ?= n * 2 ^ Z.max 0 (- e)
  end.

(** [x.Uint64()] for a number in the range of uint64: the fraction is cut. *)
Definition bf_Uint64 (x : bigfloat) : Z :=
  match x with
  | BInf _ => 0
  | BNum _ m e => m * 2 ^ Z.max 0 e / 2 ^ Z.max 0 (- e)
  end.

(** [new(Float).SetPrec(prec).pow5(n)] *)
Fixpoint pow5_loop (prec : Z) (n : positive) (z f : bigfloat) : bigfloat :=
  match n with
  | xH => bf_Mul prec z f
  | xO n => pow5_loop prec n z (bf_Mul (prec + 64) f f)
  | xI n => pow5_loop prec n (bf_Mul prec z f) (bf_Mul (prec + 64) f f)
  end.

Definition bf_pow5 (prec n : Z) : bigfloat :=
  if n <=? 27 then bf_round prec false (5 ^ n) 1 0
  else
    let z := bf_round prec false (5 ^ 27) 1 0 in
    match n - 27 with Zpos k => pow5_loop prec k z (BNum (prec + 64) 5 0) | _ => z end.

(** ** Scanning a number, with the base given by its prefix *)
Inductive prev_char := PrevDigit | PrevUnderscore | PrevOther.

Record scanned := mkScanned { sc_value : Z; sc_count : Z; sc_point : option Z; sc_prev : prev_char; sc_bad : bool }.

Definition digit_of (a : ascii) : Z :=
  let n := Z.of_nat (nat_of_ascii a) in
  if (48 <=? n) && (n <=? 57) then n - 48
  else if (97 <=? n) && (n <=? 122) then n - 97 + 10
  else if (65 <=? n) && (n <=? 90) then n - 65 + 10
  else 63.

Definition after_underscore (p : prev_char) : bool := match p with PrevUnderscore => true | _ => false end.
Definition after_digit (p : prev_char) : bool := match p with PrevDigit => true | _ => false end.

Fixpoint scan_digits (b : Z) (st : scanned) (s : string) : scanned * string :=
  match s with
  | EmptyString => (st, s)
  | String a t =>
      if Ascii.eqb a "." && bool_decide (sc_point st = None) then
        scan_digits b (mkScanned (sc_value st) (sc_count st) (Some (sc_count st)) PrevOther
                         (sc_bad st || after_underscore (sc_prev st))) t
      else if Ascii.eqb a "_" then
        scan_digits b (mkScanned (sc_value st) (sc_count st) (sc_point st) PrevUnderscore
                         (sc_bad st || negb (after_digit (sc_prev st)))) t
      else if b <=? digit_of a then (st, s)
      else scan_digits b (mkScanned (sc_value st * b + digit_of a) (sc_count st + 1) (sc_point st) PrevDigit (sc_bad st)) t
  end.

(** [nat.scan(r, 0, true)]: the mantissa, its base, minus the number of digits after
    the point (or how many digits there are, without a point), and the rest. *)
Definition nat_scan (s : string) : option (Z * Z * Z * string) :=
  let start count prev := mkScanned 0 count None prev false in
  let '(b, st, t) :=
    match s with
    | String "0" t =>
        match t with
        | String "b" u | String "B" u => (2, start 0 PrevDigit, u)
        | String "o" u | String "O" u => (8, start 0 PrevDigit, u)
        | String "x" u | String "X" u => (16, start 0 PrevDigit, u)
        | _ => (10, start 1 PrevDigit, t)
        end
    | _ => (10, start 0 PrevOther, s)
    end in
  let '(st, rest) := scan_digits b st t in
  if sc_bad st || after_underscore (sc_prev st) || (sc_count st =? 0) then None
  else Some (sc_value st, b, match sc_point st with Some dp => dp - sc_count st | None => sc_count st end, rest).

(** The digits of an exponent: value, whether there are any, the last character,
    whether an underscore is misplaced. *)
Fixpoint exp_digits (v : Z) (has : bool) (prev : prev_char) (bad : bool) (s : string) :
    Z * bool * prev_char * bool * string :=
  match s with
  | EmptyString => (v, has, prev, bad, s)
  | String a t =>
      match digit_value a with
      | Some d => exp_digits (10 * v + d) true PrevDigit bad t
      | None => if Ascii.eqb a "_" then exp_digits v has PrevUnderscore (bad || negb (after_digit prev)) t
                else (v, has, prev, bad, s)
      end
  end.

Definition strip_sign (s : string) : bool * string :=
  match s with
  | String "-" t => (true, t)
  | String "+" t => (false, t)
  | _ => (false, s)
  end.

(** [scanExponent(r, true, true)]: the exponent, its base and the rest. *)
Definition scanExponent (s : string) : option (Z * Z * string) :=
  let scan base t :=
    let '(neg, t) := strip_sign t in
    let '(v, has, prev, bad, rest) := exp_digits 0 false PrevOther false t in
    let v := if neg : bool then - v else v in
    if negb has || negb (bool_decide (in_range int64 v)) || bad || after_underscore prev then None
    else Some (v, base, rest) in
  match s with
  | String "e" t | String "E" t => scan 10 t
  | String "p" t | String "P" t => scan 2 t
  | _ => Some (0, 10, s)
  end.

Definition digit_bits (b : Z) : Z := if b =? 8 then 3 else if b =? 16 then 4 else 1.

(** [new(big.Float).SetString(s)]: precision 64. The mantissa is kept whole until
    the power of five is multiplied in. *)
Definition bf_SetString (s : string) : option bigfloat :=
  if bool_decide (s ∈ ["Inf"; "inf"; "+Inf"; "+inf"]) then Some (BInf false)
  else if bool_decide (s ∈ ["-Inf"; "-inf"]) then Some (BInf true)
  else
    let '(neg, t) := strip_sign s in
    '(mant, b, fcount, t) ← nat_scan t;
    '(exp, ebase, rest) ← scanExponent t;
    if negb (bool_decide (rest = "")) then None
    else if mant =? 0 then Some (BNum 64 0 0)
    else
      let exp5 := (if (fcount <? 0) && (b =? 10) then fcount else 0) + (if ebase =? 10 then exp else 0) in
      let exp2 := (if fcount <? 0 then fcount * digit_bits b else 0) + exp in
      if negb ((MinExp <=? Z.log2 mant + 1 + exp2) && (Z.log2 mant + 1 + exp2 <=? MaxExp)) then None
      else
        let z := BNum 64 (if neg : bool then - mant else mant) exp2 in
        Some (if exp5 =? 0 then bf_round 64 neg mant 1 exp2
              else if exp5 <? 0 then bf_Quo 64 z (bf_pow5 128 (- exp5))
              else bf_Mul 64 z (bf_pow5 128 exp5)).

(** ** strconv.ParseFloat(s, 64) *)

(** The float64 nearest to [n / d * 2^e], ties to even. *)
Definition float_of_ratio (neg : bool) (n d e : Z) : float64 :=
  let '(q, e', l) := SFdiv_core_binary 53 1024 n e d 0 in
  binary_round_aux 53 1024 neg q e' l.

Definition parse_special (s : string) : option float64 :=
  let '(neg, t) := strip_sign s in
  if bool_decide (strings_ToLower t ∈ ["inf"; "infinity"]) then Some (S754_infinity neg)
  else if bool_decide (strings_ToLower s = "nan") then Some S754_nan
  else None.

(** The digits of the mantissa: their number, how many follow the point (if there is
    one), whether there are any, and the rest. *)
Fixpoint float_digits (b v frac : Z) (dot has : bool) (s : string) : Z * Z * bool * string :=
  match s with
  | EmptyString => (v, frac, has, s)
  | String a t =>
      if Ascii.eqb a "_" then float_digits b v frac dot has t
      else if Ascii.eqb a "." then if dot then (v, frac, has, s) else float_digits b v frac true has t
      else if b <=? digit_of a then (v, frac, has, s)
      else float_digits b (v * b + digit_of a) (if dot then frac + 1 else frac) dot true t
  end.

(** The digits of the exponent; it stops growing at 10000. *)
Fixpoint float_exp_digits (v : Z) (s : string) : Z * string :=
  match s with
  | EmptyString => (v, s)
  | String a t =>
      match digit_value a with
      | Some d => float_exp_digits (if v <? 10000 then 10 * v + d else v) t
      | None => if Ascii.eqb a "_" then float_exp_digits v t else (v, s)
      end
  end.

Fixpoint underscores_ok (hex : bool) (saw : prev_char) (s : string) : bool :=
  match s with
  | EmptyString => negb (after_underscore saw)
  | String a t =>
      if digit_of a <? (if hex then 16 else 10) then underscores_ok hex PrevDigit t
      else if Ascii.eqb a "_" then after_digit saw && underscores_ok hex PrevUnderscore t
      else negb (after_underscore saw) && underscores_ok hex PrevOther t
  end.

Definition underscoreOK (s : string) : bool :=
  let '(_, t) := strip_sign s in
  match t with
  | String "0" (String c u) =>
      if bool_decide (ascii_to_lower c ∈ ["b"; "o"; "x"]%char)
      then underscores_ok (Ascii.eqb (ascii_to_lower c) "x") PrevDigit u
      else underscores_ok false PrevOther t
  | _ => underscores_ok false PrevOther t
  end.

Fixpoint has_underscore (s : string) : bool :=
  match s with EmptyString => false | String a s => Ascii.eqb a "_" || has_underscore s end.

(** The mantissa, minus the power of the base it is to be divided by, and the rest
    after an exponent. *)
Definition float_exponent (hex : bool) (s : string) : option (Z * string) :=
  match s with
  | String a t =>
      if Ascii.eqb (ascii_to_lower a) (if hex then "p" else "e")%char then
        let '(neg, t) := strip_sign t in
        match t with
        | String d _ => _ ← digit_value d;
                        let '(v, rest) := float_exp_digits 0 t in Some (if neg : bool then - v else v, rest)
        | EmptyString => None
        end
      else if hex then None else Some (0, s)
  | EmptyString => if hex then None else Some (0, s)
  end.

Definition num_error (s reason : string) : go_error :=
  ErrNew ("strconv.ParseFloat: parsing " +:+ quoted s +:+ ": " +:+ reason).

Definition ParseFloat (s : string) : go_error + float64 :=
  let syntax_error := inl (num_error s "invalid syntax") in
  match parse_special s with
  | Some x => inr x
  | None =>
      let '(neg, t) := strip_sign s in
      let '(hex, t) := match t with
                       | String "0" (String c ((String _ _) as u)) => if Ascii.eqb (ascii_to_lower c) "x" then (true, u) else (false, t)
                       | _ => (false, t)
                       end in
      let '(v, frac, has, rest) := float_digits (if hex : bool then 16 else 10) 0 0 false false t in
      match (if has then float_exponent hex rest else None) with
      | None => syntax_error
      | Some (exp, rest) =>
          if negb (bool_decide (rest = "")) || (has_underscore s && negb (underscoreOK s)) then syntax_error
          else
            let x := if v =? 0 then S754_zero neg
                     else if hex then float_of_ratio neg v 1 (exp - 4 * frac)
                     else let k := exp - frac in float_of_ratio neg (v * 10 ^ Z.max 0 k) (10 ^ Z.max 0 (- k)) 0 in
            match x with S754_infinity _ => inl (num_error s "value out of range") | _ => inr x end
      end
  end.

(** ** Printing a float64 *)

(** The digits of [c * 10^-n] with [n] of them after the point. *)
Definition fixed_text (c : Z) (n : nat) : string :=
  if decide (n = 0%nat) then pretty c
  else
    let frac := pretty (c mod 10 ^ Z.of_nat n) in
    pretty (c / 10 ^ Z.of_nat n) +:+ "." +:+ zeros (n - String.length frac) +:+ frac.

Definition with_sign (neg : bool) (s : string) : string := if neg then "-" +:+ s else s.

(** [strconv.FormatFloat(x, 'f', -1, 64)] *)
Definition ConvertFloat64ToString (x : float64) : string :=
  match x with
  | S754_zero neg => with_sign neg "0"
  | S754_infinity neg => if neg then "-Inf" else "+Inf"
  | S754_nan => "NaN"
  | S754_finite neg m e =>
      match shortest_decimal (Zpos m) e with
      | Some (c, d) => with_sign neg (if 0 <=? d then fixed_text (c * 10 ^ d) 0 else fixed_text c (Z.to_nat (- d)))
      | None => ""
      end
  end.

(** [fmt.Sprintf] with the verb %f: six digits, ties to even. *)
Definition Sprintf_float (x : float64) : string :=
  match x with
  | S754_zero neg => with_sign neg (fixed_text 0 6)
  | S754_infinity neg => if neg then "-Inf" else "+Inf"
  | S754_nan => "NaN"
  | S754_finite neg m e =>
      with_sign neg (fixed_text (div_even (Zpos m * 2 ^ Z.max 0 e * 10 ^ 6) (2 ^ Z.max 0 (- e))) 6)
  end.

(** ** lib/big_math.go and lib/convert.go *)

(** The table is filled from the texts of the first hundred powers. *)
Definition warmCache : go (gmap Z Z) :=
  r ← foldM_go (fun '(bigExponentValues, exponentString) i =>
        match bigInt_SetString exponentString with
        | None => Panic (PanicMsg ("Failed to get big from string for exponent memo: " +:+ exponentString))
        | Some bigValue => Ok (<[i := bigValue]> bigExponentValues, exponentString +:+ "0")
        end) (∅ : gmap Z Z, "1") (Z.of_nat <$> seq 0 100);
  Ok r.1.

Definition bigPow10Memo : gmap Z Z := match warmCache with Ok m => m | _ => ∅ end.

(** An exponent is a uint64: each call halves it, so 64 calls are enough. *)
Fixpoint bigPow10Helper (fuel : nat) (exponent : Z) : option Z :=
  match fuel with
  | O => None
  | S fuel =>
      match bigPow10Memo !! exponent with
      | Some m => Some m
      | None =>
          let e1 := exponent / 2 in
          let e2 := exponent - e1 in
          x ← bigPow10Helper fuel e1;
          y ← bigPow10Helper fuel e2;
          Some (x * y)
      end
  end.

Definition BigPow10 (exponent : Z) : option Z := bigPow10Helper 64 exponent.

Definition ConvertBigFloatToUint64 (value : bigfloat) : go Z :=
  match bf_compare value (max_int uint64) with
  | Gt => Err (ErrNew "value overflows uint64")
  | _ =>
      match bf_compare value 0 with
      | Lt => Err (ErrNew "value underflows uint64")
      | _ => Ok (bf_Uint64 value)
      end
  end.

Definition ConvertBigFloatSliceToUint64Slice (values : list bigfloat) : go (list Z) :=
  mapM_go ConvertBigFloatToUint64 values.

Definition ConvertStringSliceToBigFloatSlice (values : list string) : go (list bigfloat) :=
  mapM_go (fun value => match bf_SetString value with
                        | Some x => Ok x
                        | None => Err (ErrNew ("invalid, value is not a number: " +:+ value))
                        end) values.

(** ** Lemmas *)

Lemma div_even_error n d : 0 < d -> 2 * Z.abs (div_even n d * d - n) <= d.
Proof.
  intros Hd. pose proof (Z.div_mod n d ltac:(lia)) as E. pose proof (Z.mod_pos_bound n d Hd) as Hr.
  unfold div_even. set (q := n / d) in *. set (r := n mod d) in *. cbv zeta.
  destruct ((2 * r <? d) || _) eqn:B.
  - apply orb_true_iff in B as [B|[B _]%andb_true_iff]; nia.
  - apply orb_false_iff in B as [B _]. nia.
Qed.

Lemma div_even_mono n d q : 0 < d -> q * d <= n -> q <= div_even n d.
Proof.
  intros Hd Hq. assert (q <= n / d) by (apply Z.div_le_lower_bound; lia).
  unfold div_even. cbv zeta. destruct (_ || _); lia.
Qed.

(** The leading bit of [n / d]. *)
Lemma msb_spec n d :
  0 < n -> 0 < d ->
  d * 2 ^ Z.max 0 (msb n d) <= n * 2 ^ Z.max 0 (- msb n d) /\
  n * 2 ^ Z.max 0 (- (msb n d + 1)) < d * 2 ^ Z.max 0 (msb n d + 1).
Proof.
  intros Hn Hd. unfold msb. remember (Z.log2 n - Z.log2 d) as k eqn:Hk. cbv zeta.
  pose proof (Z.log2_spec n Hn) as [Hn1 Hn2]. pose proof (Z.log2_spec d Hd) as [Hd1 Hd2].
  pose proof (Z.log2_nonneg n). pose proof (Z.log2_nonneg d).
  assert (forall j, n * 2 ^ Z.max 0 (- j) < d * 2 ^ Z.max 0 j -> forall i, j <= i ->
            n * 2 ^ Z.max 0 (- i) < d * 2 ^ Z.max 0 i) as Hup.
  { clear -Hn Hd. intros j Hj i Hi.
    assert (2 ^ Z.max 0 (- i) * 2 ^ Z.max 0 j * 2 ^ (i - j) = 2 ^ Z.max 0 (- j) * 2 ^ Z.max 0 i) as E
      by (rewrite <- !Z.pow_add_r by lia; f_equal; lia).
    assert (0 < 2 ^ (i - j)) by (apply Z.pow_pos_nonneg; lia).
    assert (0 < 2 ^ Z.max 0 (- i)) by (apply Z.pow_pos_nonneg; lia).
    assert (0 < 2 ^ Z.max 0 j) by (apply Z.pow_pos_nonneg; lia).
    assert (0 < 2 ^ Z.max 0 (- j)) as HD by (apply Z.pow_pos_nonneg; lia).
    apply (Z.mul_lt_mono_pos_r (2 ^ Z.max 0 (- j))); [done|].
    replace (d * 2 ^ Z.max 0 i * 2 ^ Z.max 0 (- j)) with (d * (2 ^ Z.max 0 (- i) * 2 ^ Z.max 0 j * 2 ^ (i - j)))
      by (rewrite E; ring).
    generalize dependent (2 ^ Z.max 0 (- i)). generalize dependent (2 ^ Z.max 0 j).
    generalize dependent (2 ^ Z.max 0 (- j)). generalize dependent (2 ^ (i - j)). clear -Hn Hd.
    intros C HC D HD B Hj HB A E HA. assert (n * D * A < d * B * A) by nia. assert (0 < d * B * A) by nia. assert (d * B * A * 1 <= d * B * A * C) by nia.
    lia. }
  assert (n * 2 ^ Z.max 0 (- (k + 1)) < d * 2 ^ Z.max 0 (k + 1)) as Htop.
  { assert (2 ^ Z.succ (Z.log2 n) * 2 ^ Z.max 0 (- (k + 1)) = 2 ^ Z.log2 d * 2 ^ Z.max 0 (k + 1)) as E
      by (rewrite <- !Z.pow_add_r by lia; f_equal; lia).
    assert (0 < 2 ^ Z.max 0 (- (k + 1))) by (apply Z.pow_pos_nonneg; lia).
    assert (0 < 2 ^ Z.max 0 (k + 1)) by (apply Z.pow_pos_nonneg; lia). nia. }
  destruct (Z.ltb_spec (n * 2 ^ Z.max 0 (- k)) (d * 2 ^ Z.max 0 k)) as [Hlt|Hge].
  - replace (k - 1 + 1) with k by lia. split; [|done].
    assert (2 ^ Z.succ (Z.log2 d) * 2 ^ Z.max 0 (k - 1) = 2 ^ Z.log2 n * 2 ^ Z.max 0 (- (k - 1))) as E
      by (rewrite <- !Z.pow_add_r by lia; f_equal; lia).
    assert (0 < 2 ^ Z.max 0 (k - 1)) by (apply Z.pow_pos_nonneg; lia).
    assert (0 < 2 ^ Z.max 0 (- (k - 1))) by (apply Z.pow_pos_nonneg; lia). nia.
  - split; [lia|done].
Qed.

Definition pow2 (e : Z) : Q := Qpower 2 e.

Lemma pow2_pos e : (0 < pow2 e)%Q.
Proof. apply Qpower_0_lt. reflexivity. Qed.
Lemma pow2_plus e e' : (pow2 (e + e') == pow2 e * pow2 e')%Q.
Proof. apply Qpower_plus. discriminate. Qed.
Lemma pow2_Z k : 0 <= k -> (pow2 k == inject_Z (2 ^ k))%Q.
Proof. intros. unfold pow2. symmetry. apply Zpower_Qpower. done. Qed.
Lemma pow2_max e : (pow2 e * inject_Z (2 ^ Z.max 0 (- e)) == inject_Z (2 ^ Z.max 0 e))%Q.
Proof.
  rewrite <- !pow2_Z by lia. rewrite <- pow2_plus. replace (e + Z.max 0 (- e)) with (Z.max 0 e) by lia. reflexivity.
Qed.

(** The number a finite [big.Float] is. *)
Definition bf_value (x : bigfloat) : Q :=
  match x with BInf _ => 0 | BNum _ m e => inject_Z m * pow2 e end.

Lemma inject_Z_ne0 z : 0 < z -> ~ (inject_Z z == 0)%Q.
Proof. intros H E. rewrite (inject_Z_injective z 0) in E. lia. Qed.

Lemma inject_Z_pos z : 0 < z -> (0 < inject_Z z)%Q.
Proof. intros H. change 0%Q with (inject_Z 0). by rewrite <- Zlt_Qlt. Qed.

(** A comparison of [n / d] with [k * 2^e], with everything an integer. *)
Lemma ratio_le n d k e :
  0 < d -> k * d * 2 ^ Z.max 0 e <= n * 2 ^ Z.max 0 (- e) ->
  (inject_Z k * pow2 e <= inject_Z n / inject_Z d)%Q.
Proof.
  intros Hd H. apply Qle_shift_div_l; [by apply inject_Z_pos|].
  assert (0 < inject_Z (2 ^ Z.max 0 (- e)))%Q as Hp by (apply inject_Z_pos, Z.pow_pos_nonneg; lia).
  apply (Qmult_lt_0_le_reg_r _ _ (inject_Z (2 ^ Z.max 0 (- e)))); [done|].
  setoid_replace (inject_Z k * pow2 e * inject_Z d * inject_Z (2 ^ Z.max 0 (- e)))%Q
    with (inject_Z (k * d * 2 ^ Z.max 0 e)) using relation Qeq.
  - rewrite <- inject_Z_mult. by rewrite <- Zle_Qle.
  - rewrite !inject_Z_mult, <- (pow2_max e). ring.
Qed.

Lemma ratio_ge n d k e :
  0 < d -> n * 2 ^ Z.max 0 (- e) <= k * d * 2 ^ Z.max 0 e ->
  (inject_Z n / inject_Z d <= inject_Z k * pow2 e)%Q.
Proof.
  intros Hd H. apply Qle_shift_div_r; [by apply inject_Z_pos|].
  assert (0 < inject_Z (2 ^ Z.max 0 (- e)))%Q as Hp by (apply inject_Z_pos, Z.pow_pos_nonneg; lia).
  apply (Qmult_lt_0_le_reg_r _ _ (inject_Z (2 ^ Z.max 0 (- e)))); [done|].
  setoid_replace (inject_Z k * pow2 e * inject_Z d * inject_Z (2 ^ Z.max 0 (- e)))%Q
    with (inject_Z (k * d * 2 ^ Z.max 0 e)) using relation Qeq.
  - rewrite <- inject_Z_mult. by rewrite <- Zle_Qle.
  - rewrite !inject_Z_mult, <- (pow2_max e). ring.
Qed.

(** The leading bit, on the numbers: [2^msb <= n / d <= 2^(msb+1)]. *)
Lemma msb_value n d :
  0 < n -> 0 < d ->
  (pow2 (msb n d) <= inject_Z n / inject_Z d)%Q /\ (inject_Z n / inject_Z d <= pow2 (msb n d + 1))%Q.
Proof.
  intros Hn Hd. destruct (msb_spec n d Hn Hd) as [H1 H2]. split.
  - rewrite <- (Qmult_1_l (pow2 _)). change 1%Q with (inject_Z 1). apply ratio_le; [done|]. lia.
  - rewrite <- (Qmult_1_l (pow2 _)). change 1%Q with (inject_Z 1). apply ratio_ge; [done|]. lia.
Qed.

Lemma pow2_lt_inv e e' : (pow2 e < pow2 e')%Q -> e < e'.
Proof.
  intros H. destruct (Z.lt_ge_cases e e') as [|Hge]; [done|]. exfalso.
  apply (Qlt_not_le _ _ H). replace e with (e' + (e - e')) by lia. rewrite pow2_plus, (pow2_Z (e - e')) by lia.
  pose proof (pow2_pos e') as Hp.
  assert (1 <= inject_Z (2 ^ (e - e')))%Q as H1
    by (change 1%Q with (inject_Z 1); rewrite <- Zle_Qle; pose proof (Z.pow_pos_nonneg 2 (e - e')); lia).
  setoid_replace (pow2 e') with (pow2 e' * 1)%Q using relation Qeq at 1 by ring. apply Qmult_le_l; done.
Qed.

Lemma pow2_half p : (pow2 p == inject_Z 2 * pow2 (p - 1))%Q.
Proof. replace p with (1 + (p - 1)) at 1 by lia. by rewrite pow2_plus. Qed.

Lemma round_ratio_value p n d m e :
  0 < n -> 0 < d -> 1 <= p -> round_ratio p n d = (m, e) ->
  e = msb n d - (p - 1) /\ 2 ^ (p - 1) <= m <= 2 ^ p /\
  (Qabs (inject_Z m * pow2 e - inject_Z n / inject_Z d) <= pow2 (- p) * (inject_Z n / inject_Z d))%Q.
Proof.
  intros Hn Hd Hp [= Em Ee]. subst e. split; [done|]. set (e := msb n d - (p - 1)) in *.
  destruct (msb_value n d Hn Hd) as [Hlo Hhi].
  set (N := n * 2 ^ Z.max 0 (- e)) in *. set (D := d * 2 ^ Z.max 0 e) in *.
  assert (0 < D) as HD by (apply Z.mul_pos_pos; [done|apply Z.pow_pos_nonneg; lia]).
  assert (0 < N) as HN by (apply Z.mul_pos_pos; [done|apply Z.pow_pos_nonneg; lia]).
  assert (inject_Z N / inject_Z D * pow2 e == inject_Z n / inject_Z d)%Q as EV.
  { unfold N, D. rewrite !inject_Z_mult, <- (pow2_max e).
    assert (~ (inject_Z (2 ^ Z.max 0 (- e)) == 0)%Q) by (apply inject_Z_ne0, Z.pow_pos_nonneg; lia).
    pose proof (inject_Z_ne0 d Hd). pose proof (Qnot_eq_sym _ _ (Qlt_not_eq _ _ (pow2_pos e))).
    field. auto. }
  pose proof (pow2_pos e) as He0.
  assert (2 ^ (p - 1) * D <= N /\ N <= 2 ^ p * D) as [HloZ HhiZ].
  { rewrite <- EV in Hlo, Hhi. replace (msb n d) with ((p - 1) + e) in Hlo by (unfold e; lia).
    replace (msb n d + 1) with (p + e) in Hhi by (unfold e; lia).
    rewrite pow2_plus in Hlo, Hhi. apply Qmult_le_r in Hlo, Hhi; [|done..].
    rewrite pow2_Z in Hlo, Hhi by lia.
    assert (inject_Z N == inject_Z N / inject_Z D * inject_Z D)%Q as EN
      by (field; by apply inject_Z_ne0).
    split; rewrite Zle_Qle, inject_Z_mult, EN; (apply Qmult_le_r; [by apply inject_Z_pos|done]). }
  split.
  { subst m. split; [by apply div_even_mono|].
    pose proof (div_even_error N D HD) as Herr. assert (div_even N D < 2 ^ p + 1) by nia. lia. }
  pose proof (div_even_error N D HD) as Herr. rewrite Em in Herr.
  assert (Qabs (inject_Z m - inject_Z N / inject_Z D) <= 1 # 2)%Q as Hq.
  { assert (inject_Z m - inject_Z N / inject_Z D == inject_Z (m * D - N) / inject_Z D)%Q as ->.
    { unfold Z.sub. rewrite inject_Z_plus, inject_Z_opp, inject_Z_mult. field. by apply inject_Z_ne0. }
    unfold Qdiv. rewrite Qabs_Qmult, (Qabs_pos (/ inject_Z D)) by (apply Qlt_le_weak, Qinv_lt_0_compat, inject_Z_pos, HD).
    apply Qle_shift_div_r; [by apply inject_Z_pos|].
    change (Qabs (inject_Z (m * D - N))) with (inject_Z (Z.abs (m * D - N))).
    apply (Qmult_lt_0_le_reg_r _ _ 2); [reflexivity|].
    setoid_replace ((1 # 2) * inject_Z D * 2)%Q with (inject_Z D) using relation Qeq by ring.
    change 2%Q with (inject_Z 2). rewrite <- inject_Z_mult, <- Zle_Qle. lia. }
  rewrite <- EV.
  setoid_replace (inject_Z m * pow2 e - inject_Z N / inject_Z D * pow2 e)%Q
    with ((inject_Z m - inject_Z N / inject_Z D) * pow2 e)%Q using relation Qeq by ring.
  rewrite Qabs_Qmult, (Qabs_pos (pow2 e)) by (by apply Qlt_le_weak).
  rewrite Qmult_assoc. apply Qmult_le_compat_r; [|by apply Qlt_le_weak].
  apply (Qle_trans _ _ _ Hq).
  assert (1 # 2 == pow2 (- p) * pow2 (p - 1))%Q as -> by (rewrite <- pow2_plus; replace (- p + (p - 1)) with (-1) by lia; reflexivity).
  apply Qmult_le_l; [apply pow2_pos|].
  apply Qle_shift_div_l; [by apply inject_Z_pos|]. rewrite pow2_Z by lia. rewrite <- inject_Z_mult, <- Zle_Qle. lia.
Qed.

(** Rounding is within a relative [2^-prec]. *)
Lemma bf_round_value prec neg n d e :
  0 < n -> 0 < d -> 1 <= prec -> MinExp <= msb n d + 1 + e -> msb n d + 2 + e <= MaxExp ->
  exists m e', bf_round prec neg n d e = BNum prec (if neg then - m else m) e' /\ 0 < m /\
    (Qabs (inject_Z m * pow2 e' - inject_Z n / inject_Z d * pow2 e) <=
     pow2 (- prec) * (inject_Z n / inject_Z d * pow2 e))%Q.
Proof.
  intros Hn Hd Hp Hmin Hmax. unfold bf_round.
  rewrite (proj2 (Z.eqb_neq n 0)), (proj2 (Z.ltb_ge _ _) Hmin) by lia.
  destruct (round_ratio prec n d) as [m e0] eqn:E.
  destruct (round_ratio_value prec n d m e0 Hn Hd Hp E) as (-> & Hm & Herr).
  assert (0 < 2 ^ (prec - 1)) by (apply Z.pow_pos_nonneg; lia).
  assert (Z.log2 m <= prec) as Hlog by (rewrite <- (Z.log2_pow2 prec) by lia; apply Z.log2_le_mono; lia).
  rewrite (proj2 (Z.ltb_ge _ _)) by lia.
  exists m, (msb n d - (prec - 1) + e). split; [done|]. split; [lia|].
  assert (inject_Z m * pow2 (msb n d - (prec - 1) + e) - inject_Z n / inject_Z d * pow2 e ==
    (inject_Z m * pow2 (msb n d - (prec - 1)) - inject_Z n / inject_Z d) * pow2 e)%Q as -> by (rewrite pow2_plus; ring).
  rewrite Qabs_Qmult, (Qabs_pos (pow2 e)), Qmult_assoc by apply Qlt_le_weak, pow2_pos.
  apply Qmult_le_compat_r; [done|apply Qlt_le_weak, pow2_pos].
Qed.

(** ** The text of a decimal, read back *)
Lemma digit_of_digit a d :
  digit_value a = Some d -> digit_of a = d /\ 0 <= d < 10 /\ Ascii.eqb a "." = false /\ Ascii.eqb a "_" = false.
Proof.
  unfold digit_value, digit_of. cbv zeta. destruct (_ && _) eqn:E; [|done]. intros [= <-].
  apply andb_true_iff in E as [E1 E2]. split; [done|]. split; [lia|].
  destruct (Ascii.eqb_spec a ".") as [->|]; [vm_compute in E1; done|].
  by destruct (Ascii.eqb_spec a "_") as [->|]; [vm_compute in E2|].
Qed.

Lemma scan_digits_digits v v' c dp prev bad s t :
  read_digits v s = Some v' ->
  scan_digits 10 (mkScanned v c dp prev bad) (s +:+ t) =
  scan_digits 10 (mkScanned v' (c + Z.of_nat (String.length s)) dp
                    (match s with EmptyString => prev | _ => PrevDigit end) bad) t.
Proof.
  revert v c prev. induction s as [|a s IH]; intros v c prev.
  - cbn [read_digits]. intros [= <-]. rewrite app_nil_string. cbn. by rewrite Z.add_0_r.
  - cbn [read_digits]. destruct (digit_value a) as [d|] eqn:Ea; [|done]. cbn [mbind option_bind]. intros H.
    destruct (digit_of_digit a d Ea) as (Hd & Hr & H1 & H2). rewrite app_cons_string. cbn [scan_digits].
    rewrite H1, H2, Hd, (proj2 (Z.leb_gt 10 d)) by lia. cbn [andb sc_value sc_count sc_point sc_bad].
    replace (v * 10 + d) with (10 * v + d) by lia. rewrite (IH _ _ _ H). f_equal.
    cbn [String.length]. rewrite Nat2Z.inj_succ. replace (c + 1 + Z.of_nat (String.length s)) with (c + Z.succ (Z.of_nat (String.length s))) by lia.
    by destruct s.
Qed.

(** A text of digits, with a point among them or not, does not have a prefix. *)
Lemma nat_scan_plain v s t :
  s <> "" -> read_digits 0 s = Some v -> (forall a u, t = String a u -> a = "."%char) ->
  nat_scan (s +:+ t) =
    let '(st, rest) := scan_digits 10 (mkScanned 0 0 None PrevOther false) (s +:+ t) in
    if sc_bad st || after_underscore (sc_prev st) || (sc_count st =? 0) then None
    else Some (sc_value st, 10, match sc_point st with Some dp => dp - sc_count st | None => sc_count st end, rest).
Proof.
  intros Hne Hv Ht. destruct s as [|a s]; [done|]. clear Hne.
  unfold nat_scan. rewrite app_cons_string. cbn [read_digits] in Hv.
  destruct (digit_value a) as [d|] eqn:Ea; [|done].
  destruct (Ascii.eqb_spec a "0") as [->|Hn].
  - assert (forall u, scan_digits 10 (mkScanned 0 0 None PrevOther false) (String "0" u) =
      scan_digits 10 (mkScanned 0 1 None PrevDigit false) u) as E0 by done.
    rewrite E0. clear E0.
    assert (forall a u, s +:+ t = String a u -> a = "."%char \/ is_Some (digit_value a)) as Hs.
    { intros a u. destruct s as [|b s].
      - rewrite app_nil_string. intros Hu. left. by eapply Ht.
      - rewrite app_cons_string. intros [= -> _]. right. cbn [mbind option_bind read_digits] in Hv.
        by destruct (digit_value a); [eexists|]. }
    destruct (s +:+ t) as [|b u]; [done|]. destruct (Hs b u eq_refl) as [->|[d' Hd]]; [done|].
    destruct b as [[] [] [] [] [] [] [] []]; try done; vm_compute in Hd; done.
  - destruct a as [[] [] [] [] [] [] [] []]; try done; by destruct Hn.
Qed.

Lemma length_pretty_go x s k :
  (x < 10 ^ N.of_nat k)%N -> (String.length (pretty_N_go x s) <= k + String.length s)%nat.
Proof.
  revert k. revert x s. apply (pretty_N_go_ind (fun x s => forall k, (x < 10 ^ N.of_nat k)%N ->
    (String.length (pretty_N_go x s) <= k + String.length s)%nat)).
  - intros s k _. rewrite pretty_N_go_0. lia.
  - intros x s Hx IH k Hk. rewrite pretty_N_go_step by lia.
    destruct k as [|k]; [cbn in Hk; lia|].
    assert (x / 10 < 10 ^ N.of_nat k)%N as Hd.
    { apply N.Div0.div_lt_upper_bound. rewrite Nat2N.inj_succ, N.pow_succ_r' in Hk. lia. }
    specialize (IH k Hd). cbn [String.length] in IH. lia.
Qed.

Lemma length_pretty_le x n :
  0 <= x < 10 ^ Z.of_nat n -> (0 < n)%nat -> (String.length (pretty x) <= n)%nat.
Proof.
  intros Hx Hn. rewrite pretty_nonneg by lia. destruct (Z.eqb_spec x 0); [cbn; lia|].
  pose proof (length_pretty_go (Z.to_N x) "" n) as H. cbn [String.length] in H. rewrite Nat.add_0_r in H. apply H.
  apply N2Z.inj_lt. rewrite N2Z.inj_pow, Z2N.id, nat_N_Z by lia. apply Hx.
Qed.

(** The digits after the point of [fixed_text]. *)
Definition frac_text (c : Z) (n : nat) : string :=
  zeros (n - String.length (pretty (c mod 10 ^ Z.of_nat n))) +:+ pretty (c mod 10 ^ Z.of_nat n).

Lemma string_length_app s t : String.length (s +:+ t) = (String.length s + String.length t)%nat.
Proof. induction s as [|a s IH]; [done|]. rewrite app_cons_string. cbn. by rewrite IH. Qed.

Lemma read_digits_shift w s a r :
  read_digits a s = Some r -> read_digits (w + a) s = Some (w * 10 ^ Z.of_nat (String.length s) + r).
Proof.
  revert w a. induction s as [|b s IH]; intros w a; cbn [read_digits].
  - intros [= <-]. cbn. f_equal. lia.
  - destruct (digit_value b) as [d|]; [|done]. cbn [mbind option_bind]. intros Hr.
    replace (10 * (w + a) + d) with (10 * w + (10 * a + d)) by lia. rewrite (IH _ _ Hr).
    cbn [String.length]. rewrite Nat2Z.inj_succ, Z.pow_succ_r by lia. f_equal. ring.
Qed.

Lemma frac_text_spec c n :
  (0 < n)%nat ->
  String.length (frac_text c n) = n /\
  forall v, read_digits v (frac_text c n) = Some (v * 10 ^ Z.of_nat n + c mod 10 ^ Z.of_nat n).
Proof.
  intros Hn. unfold frac_text. set (f := c mod 10 ^ Z.of_nat n).
  assert (0 <= f < 10 ^ Z.of_nat n) as Hf by (apply Z.mod_pos_bound, Z.pow_pos_nonneg; lia).
  pose proof (length_pretty_le f n Hf Hn) as Hl. split; [rewrite string_length_app, length_zeros; lia|].
  intros v. rewrite read_digits_app, read_digits_zeros. cbn [mbind option_bind].
  set (k := (n - String.length (pretty f))%nat). set (l := String.length (pretty f)) in *.
  pose proof (read_digits_shift (v * 10 ^ Z.of_nat k) _ _ _ (read_digits_pretty f ltac:(lia))) as E.
  rewrite Z.add_0_r in E. fold l in E.
  rewrite E. f_equal. rewrite <- Z.mul_assoc, <- Z.pow_add_r by lia. do 2 f_equal. f_equal. lia.
Qed.

Lemma fixed_text_eq c n :
  (0 < n)%nat -> fixed_text c n = pretty (c / 10 ^ Z.of_nat n) +:+ "." +:+ frac_text c n.
Proof. intros H. unfold fixed_text. rewrite decide_False by lia. done. Qed.

Lemma nat_scan_fixed c n :
  0 <= c -> nat_scan (fixed_text c n) = Some (c, 10, if decide (n = 0%nat) then Z.of_nat (String.length (pretty c)) else - Z.of_nat n, "").
Proof.
  intros Hc. destruct (decide (n = 0%nat)) as [->|Hn].
  - unfold fixed_text. rewrite decide_True by done.
    pose proof (pretty_nonempty c "" Hc) as Hne. rewrite <- (string_app_nil_r (pretty c)) at 1.
    rewrite (nat_scan_plain c); [|intros E; by rewrite E in Hne|by apply read_digits_pretty|done].
    rewrite (scan_digits_digits 0 c) by (by apply read_digits_pretty). cbn [scan_digits sc_bad sc_prev sc_count sc_point sc_value].
    destruct (pretty c); [done|]. cbn. done.
  - assert (0 < n)%nat as Hn' by lia. rewrite fixed_text_eq by done.
    assert (0 <= c / 10 ^ Z.of_nat n) as Hq by (apply Z.div_pos; [lia|apply Z.pow_pos_nonneg; lia]).
    set (q := c / 10 ^ Z.of_nat n) in *. pose proof (pretty_nonempty q "" Hq) as Hne.
    rewrite (nat_scan_plain q); [|intros E; by rewrite E in Hne|by apply read_digits_pretty|by intros a u [= <- _]].
    rewrite (scan_digits_digits 0 q) by (by apply read_digits_pretty).
    rewrite app_cons_string, app_nil_string. cbn [scan_digits Ascii.eqb sc_point sc_value sc_count sc_prev sc_bad].
    destruct (frac_text_spec c n Hn') as [Hl Hr].
    cbn [Bool.eqb]. rewrite bool_decide_true by done. cbn [andb].
    rewrite <- (string_app_nil_r (frac_text c n)), (scan_digits_digits q c).
    + cbn [scan_digits sc_bad sc_prev sc_count sc_point sc_value]. rewrite Hl.
      destruct (pretty q) as [|a s]; [done|]. cbn [after_underscore orb].
      destruct (frac_text c n) as [|b t]; [cbn in Hl; lia|]. cbn [after_underscore orb].
      rewrite (proj2 (Z.eqb_neq _ 0)) by lia. do 2 f_equal. f_equal. lia.
    + rewrite Hr. f_equal. unfold q. rewrite Z.mul_comm. symmetry. apply Z.div_mod. pose proof (Z.pow_pos_nonneg 10 (Z.of_nat n)). lia.
Qed.

Definition pow5_exact (n : nat) : Prop :=
  match bf_pow5 128 (Z.of_nat n) with
  | BNum prec m e => 0 < m /\ -130 <= e <= 0 /\ m = 5 ^ Z.of_nat n * 2 ^ (- e)
  | BInf _ => False
  end.
#[local] Instance pow5_exact_dec n : Decision (pow5_exact n).
Proof. unfold pow5_exact. destruct (bf_pow5 128 (Z.of_nat n)); apply _. Defined.

Lemma pow5_small n : (n <= 27)%nat -> pow5_exact n.
Proof.
  intros H. assert (Forall pow5_exact (seq 0 28)) as Hall by (apply (bool_decide_unpack _); vm_compute; exact I).
  rewrite Forall_forall in Hall. apply Hall, elem_of_seq. lia.
Qed.

Lemma pow2_le_mono e e' : e <= e' -> (pow2 e <= pow2 e')%Q.
Proof.
  intros H. apply Qnot_lt_le. intros Hlt%pow2_lt_inv. lia.
Qed.

(** The exponents of a rounded quotient, from bounds on its value. *)
Lemma bf_round_range prec neg n d e lo hi :
  0 < n -> 0 < d -> 1 <= prec -> MinExp <= lo -> hi + 2 <= MaxExp ->
  (pow2 lo <= inject_Z n / inject_Z d * pow2 e)%Q -> (inject_Z n / inject_Z d * pow2 e <= pow2 hi)%Q ->
  exists m e', bf_round prec neg n d e = BNum prec (if neg then - m else m) e' /\ 0 < m /\
    (Qabs (inject_Z m * pow2 e' - inject_Z n / inject_Z d * pow2 e) <=
     pow2 (- prec) * (inject_Z n / inject_Z d * pow2 e))%Q.
Proof.
  intros Hn Hd Hp Hlo Hhi Hl Hh. destruct (msb_value n d Hn Hd) as [H1 H2]. pose proof (pow2_pos e) as He.
  apply bf_round_value; try done.
  - assert (lo <= msb n d + 1 + e); [|lia]. apply Z.nlt_ge. intros Hc.
    apply (Qlt_irrefl (pow2 lo)). eapply Qle_lt_trans; [exact Hl|].
    eapply Qle_lt_trans; [apply Qmult_le_compat_r; [exact H2|by apply Qlt_le_weak]|].
    rewrite <- pow2_plus. apply Qnot_le_lt. intros Hc'.
    assert (pow2 (msb n d + 1 + e) < pow2 (msb n d + 1 + e + 1))%Q as Hs.
    { rewrite (pow2_plus _ 1). pose proof (pow2_pos (msb n d + 1 + e)). change (pow2 1) with 2%Q. lra. }
    pose proof (pow2_le_mono (msb n d + 1 + e + 1) lo ltac:(lia)). lra.
  - assert (msb n d + e <= hi); [|lia]. apply Z.nlt_ge. intros Hc.
    apply (Qlt_irrefl (pow2 hi)). eapply Qlt_le_trans; [|exact Hh].
    eapply Qlt_le_trans; [|apply Qmult_le_compat_r; [exact H1|by apply Qlt_le_weak]].
    rewrite <- pow2_plus.
    assert (pow2 hi < pow2 (hi + 1))%Q as Hs.
    { rewrite (pow2_plus _ 1). pose proof (pow2_pos hi). change (pow2 1) with 2%Q. lra. }
    pose proof (pow2_le_mono (hi + 1) (msb n d + e) ltac:(lia)). lra.
Qed.

Lemma fixed_text_digit c n : 0 <= c -> exists a u d, fixed_text c n = String a u /\ digit_value a = Some d.
Proof.
  intros Hc.
  assert (forall q s, 0 <= q -> exists a u d, pretty q +:+ s = String a u /\ digit_value a = Some d) as H.
  { intros q s Hq. pose proof (pretty_nonempty q "" Hq) as Hne. pose proof (read_digits_pretty q Hq) as Hr.
    destruct (pretty q) as [|a u]; [done|]. cbn [read_digits] in Hr.
    destruct (digit_value a) as [d|] eqn:Ed; [|done]. by exists a, (u +:+ s), d. }
  unfold fixed_text. destruct (decide (n = 0%nat)).
  - rewrite <- (string_app_nil_r (pretty c)). by apply H.
  - apply H. apply Z.div_pos; [lia|]. apply Z.pow_pos_nonneg; lia.
Qed.

Lemma bf_SetString_digit a u d :
  digit_value a = Some d ->
  bool_decide (String a u ∈ ["Inf"; "inf"; "+Inf"; "+inf"]) = false /\
  bool_decide (String a u ∈ ["-Inf"; "-inf"]) = false /\ strip_sign (String a u) = (false, String a u).
Proof.
  intros Ha. split_and!.
  - apply bool_decide_false. rewrite !elem_of_cons, elem_of_nil.
    intros [[= -> _]|[[= -> _]|[[= -> _]|[[= -> _]|[]]]]]; by vm_compute in Ha.
  - apply bool_decide_false. rewrite !elem_of_cons, elem_of_nil. intros [[= -> _]|[[= -> _]|[]]]; by vm_compute in Ha.
  - destruct a as [[] [] [] [] [] [] [] []]; try done; by vm_compute in Ha.
Qed.

Lemma pow10_split n : 10 ^ Z.of_nat n = 5 ^ Z.of_nat n * 2 ^ Z.of_nat n.
Proof. rewrite <- Z.pow_mul_l. done. Qed.

(** The text of a decimal is read as the nearest number of 64 bits. *)
Lemma bf_SetString_fixed c n :
  0 < c < 2 ^ 300 -> (n <= 27)%nat ->
  exists m e, bf_SetString (fixed_text c n) = Some (BNum 64 m e) /\ 0 < m /\
    (Qabs (inject_Z m * pow2 e - inject_Z c / inject_Z (10 ^ Z.of_nat n)) <=
     pow2 (- 64) * (inject_Z c / inject_Z (10 ^ Z.of_nat n)))%Q.
Proof.
  intros Hc Hn. destruct (fixed_text_digit c n ltac:(lia)) as (a & u & d & Et & Ha).
  destruct (bf_SetString_digit a u d Ha) as (H1 & H2 & H3).
  assert (Z.log2 c < 300) as Hlog by (apply Z.log2_lt_pow2; lia). pose proof (Z.log2_nonneg c) as Hlog0.
  assert (pow2 (-90) <= inject_Z c / inject_Z (10 ^ Z.of_nat n) <= pow2 300)%Q as [Hlo Hhi].
  { assert (0 < 10 ^ Z.of_nat n) as Hp by (apply Z.pow_pos_nonneg; lia).
    assert (10 ^ Z.of_nat n <= 10 ^ 27) as Hp27 by (apply Z.pow_le_mono_r; lia). split.
    - rewrite <- (Qmult_1_l (pow2 _)). change 1%Q with (inject_Z 1). apply ratio_le; [done|].
      change (2 ^ Z.max 0 (-90)) with 1. change (2 ^ Z.max 0 (- -90)) with (2 ^ 90).
      assert (10 ^ 27 < 2 ^ 90) by done. nia.
    - rewrite <- (Qmult_1_l (pow2 _)). change 1%Q with (inject_Z 1). apply ratio_ge; [done|].
      change (2 ^ Z.max 0 300) with (2 ^ 300). change (2 ^ Z.max 0 (- (300))) with 1. nia. }
  unfold bf_SetString. rewrite Et, H1, H2, H3, <- Et, nat_scan_fixed by lia. cbn [mbind option_bind].
  change (scanExponent "") with (Some (0, 10, ""%string)). cbn [mbind option_bind].
  rewrite bool_decide_true by done. cbn [negb]. rewrite (proj2 (Z.eqb_neq c 0)) by lia. cbn [Z.eqb Pos.eqb digit_bits andb].
  destruct (decide (n = 0%nat)) as [->|Hn0].
  - rewrite (proj2 (Z.ltb_ge _ 0)) by lia. cbn [andb]. change (0 + 0) with 0.
    rewrite (proj2 (Z.leb_le MinExp _)), (proj2 (Z.leb_le _ MaxExp)) by (unfold MinExp, MaxExp; lia). cbn [andb negb Z.eqb].
    destruct (bf_round_range 64 false c 1 0 (-90) 300) as (m & e & -> & Hm & Herr); try (unfold MinExp, MaxExp; lia).
    + change (pow2 0) with 1%Q. rewrite Qmult_1_r. exact Hlo.
    + change (pow2 0) with 1%Q. rewrite Qmult_1_r. exact Hhi.
    + exists m, e. split; [done|]. split; [done|]. change (pow2 0) with 1%Q in Herr. rewrite !Qmult_1_r in Herr. exact Herr.
  - rewrite (proj2 (Z.ltb_lt _ 0)) by lia. cbn [andb]. change (digit_bits 10) with 1.
    rewrite Z.mul_1_r, !Z.add_0_r.
    rewrite (proj2 (Z.leb_le MinExp _)), (proj2 (Z.leb_le _ MaxExp)) by (unfold MinExp, MaxExp; lia). cbn [andb negb].
    rewrite (proj2 (Z.eqb_neq _ 0)), (proj2 (Z.ltb_lt _ 0)), Z.opp_involutive by lia.
    pose proof (pow5_small n Hn) as H5. unfold pow5_exact in H5.
    destruct (bf_pow5 128 (Z.of_nat n)) as [|p5 m5 e5]; [done|]. destruct H5 as (Hm5 & He5 & E5).
    cbn [bf_Quo bf_neg]. rewrite (proj2 (Z.ltb_ge c 0)), (proj2 (Z.ltb_ge m5 0)), !Z.abs_eq by lia. cbn [xorb].
    assert (inject_Z c / inject_Z m5 * pow2 (- Z.of_nat n - e5) == inject_Z c / inject_Z (10 ^ Z.of_nat n))%Q as EV.
    { rewrite E5, pow10_split, !inject_Z_mult, <- !pow2_Z by lia.
      replace (- Z.of_nat n - e5) with (- Z.of_nat n + - e5) by lia. rewrite pow2_plus.
      assert (pow2 (- Z.of_nat n) * pow2 (Z.of_nat n) == 1)%Q as Eo by (rewrite <- pow2_plus; replace (- Z.of_nat n + Z.of_nat n) with 0 by lia; reflexivity).
      assert (~ (inject_Z (5 ^ Z.of_nat n) == 0)%Q) by (apply inject_Z_ne0, Z.pow_pos_nonneg; lia).
      assert (~ (pow2 (- e5) == 0)%Q) by (apply Qnot_eq_sym, Qlt_not_eq, pow2_pos).
      assert (~ (pow2 (Z.of_nat n) == 0)%Q) by (apply Qnot_eq_sym, Qlt_not_eq, pow2_pos).
      setoid_replace (pow2 (- Z.of_nat n))%Q with (/ pow2 (Z.of_nat n))%Q using relation Qeq; [by field|].
      apply (Qmult_inj_r _ _ (pow2 (Z.of_nat n))); [done|]. rewrite Eo. by field. }
    destruct (bf_round_range 64 false c m5 (- Z.of_nat n - e5) (-90) 300) as (m & e & -> & Hm & Herr);
      try (unfold MinExp, MaxExp; lia); [by rewrite EV..|].
    rewrite EV in Herr. by exists m, e.
Qed.

(** ** Powers of ten *)
Lemma bigPow10Memo_eq : bigPow10Memo = list_to_map ((fun i => (Z.of_nat i, 10 ^ Z.of_nat i)) <$> seq 0 100).
Proof. vm_compute. reflexivity. Qed.

Lemma bigPow10Memo_lookup i m : bigPow10Memo !! i = Some m -> m = 10 ^ i.
Proof.
  rewrite bigPow10Memo_eq. intros H%elem_of_list_to_map_2. apply list_elem_of_fmap in H as (k & [= -> ->] & _). done.
Qed.

Lemma bigPow10Memo_None i : 0 <= i -> bigPow10Memo !! i = None -> 100 <= i.
Proof.
  intros Hi H. destruct (Z.lt_ge_cases i 100) as [Hl|]; [exfalso|done].
  rewrite bigPow10Memo_eq in H. apply not_elem_of_list_to_map in H. apply H.
  rewrite <- list_fmap_compose. apply list_elem_of_fmap. exists (Z.to_nat i). split; [cbn; lia|]. apply elem_of_seq. lia.
Qed.

Lemma bigPow10Helper_spec fuel e : 0 <= e -> e <= 49 * 2 ^ Z.of_nat fuel -> (0 < fuel)%nat ->
  bigPow10Helper fuel e = Some (10 ^ e).
Proof.
  revert e. induction fuel as [|fuel IH]; [lia|]. intros e He Hf _. cbn [bigPow10Helper].
  destruct (bigPow10Memo !! e) as [m|] eqn:E; [by rewrite (bigPow10Memo_lookup _ _ E)|].
  pose proof (bigPow10Memo_None e He E). rewrite Nat2Z.inj_succ, Z.pow_succ_r in Hf by lia.
  assert (0 < fuel)%nat by (destruct fuel; [cbn in Hf; lia|lia]).
  destruct fuel as [|fuel']; [lia|]. set (fuel := S fuel') in *.
  assert (e / 2 <= e - e / 2) by (pose proof (Z.div_mod e 2 ltac:(lia)); pose proof (Z.mod_pos_bound e 2); lia).
  assert (e - e / 2 <= 49 * 2 ^ Z.of_nat fuel) by (pose proof (Z.div_mod e 2 ltac:(lia)); pose proof (Z.mod_pos_bound e 2); lia).
  assert (0 <= e / 2) by (apply Z.div_pos; lia).
  rewrite (IH (e / 2)), (IH (e - e / 2)) by lia. cbn [mbind option_bind].
  rewrite <- Z.pow_add_r by lia. do 2 f_equal. lia.
Qed.

(** The memo with its recursion computes the power, for any uint64. *)
Lemma BigPow10_spec e : 0 <= e < 2 ^ 64 -> BigPow10 e = Some (10 ^ e).
Proof. intros H. apply bigPow10Helper_spec; [lia| |lia]. change (Z.of_nat 64) with 64. lia. Qed.

(** ** Shifting a number by a power of ten *)
Definition pow10Q (k : Z) : Q := Qpower 10 k.
Lemma pow10Q_pos k : (0 < pow10Q k)%Q.
Proof. apply Qpower_0_lt. reflexivity. Qed.
Lemma pow10Q_Z k : 0 <= k -> (pow10Q k == inject_Z (10 ^ k))%Q.
Proof. intros. unfold pow10Q. symmetry. by apply Zpower_Qpower. Qed.
Lemma pow10Q_opp k : (pow10Q (- k) == / pow10Q k)%Q.
Proof. apply Qpower_opp. Qed.

(** [y] is [x] up to a relative [k] times [2^-64]. *)
Definition close (k : Q) (y x : Q) : Prop := (Qabs (y - x) <= k * pow2 (-64) * x)%Q.

#[export] Instance close_proper : Proper (Qeq ==> Qeq ==> Qeq ==> iff) close.
Proof. intros k k' Ek y y' Ey x x' Ex. unfold close. by rewrite Ek, Ey, Ex. Qed.

Lemma close_scale k y x s : (0 < s)%Q -> close k y x -> close k (y * s) (x * s).
Proof.
  unfold close. intros Hs H. assert (y * s - x * s == (y - x) * s)%Q as -> by ring.
  rewrite Qabs_Qmult, (Qabs_pos s), Qmult_assoc by (by apply Qlt_le_weak).
  apply Qmult_le_compat_r; [done|by apply Qlt_le_weak].
Qed.

Lemma close_bounds k y x :
  close k y x <-> (x - k * pow2 (-64) * x <= y /\ y <= x + k * pow2 (-64) * x)%Q.
Proof. unfold close. rewrite Qabs_Qle_condition. split; intros [H1 H2]; split; lra. Qed.

Lemma close_trans x y z : (0 <= x)%Q -> close 1 z y -> close 1 y x -> close 3 z x.
Proof.
  rewrite !close_bounds. change (pow2 (-64)) with (1 # 18446744073709551616)%Q. intros. lra.
Qed.

Lemma close_weaken x y k k' : (0 <= x)%Q -> (k <= k')%Q -> close k y x -> close k' y x.
Proof.
  rewrite !close_bounds. change (pow2 (-64)) with (1 # 18446744073709551616)%Q. intros Hx Hk [H1 H2].
  assert (k * (1 # 18446744073709551616) * x <= k' * (1 # 18446744073709551616) * x)%Q.
  { apply Qmult_le_compat_r; [|done]. apply Qmult_le_compat_r; [done|discriminate]. }
  split; lra.
Qed.

Lemma pow2_half_one : (pow2 (-1) == 1 # 2)%Q.
Proof. reflexivity. Qed.
Lemma pow2_two : (pow2 1 == 2)%Q.
Proof. reflexivity. Qed.
Lemma pow2_tiny : (pow2 (-64) <= 1 # 2)%Q.
Proof. discriminate. Qed.

(** The powers of ten of interest are between [2^-100] and [2^100]. *)
Lemma pow10Q_bounds k : -27 <= k <= 27 -> (pow2 (-100) <= pow10Q k <= pow2 100)%Q.
Proof.
  assert (forall k : Z, (0 <= k <= 27)%Z -> 1 <= inject_Z (10 ^ k) /\ inject_Z (10 ^ k) <= pow2 100)%Q as H.
  { intros k0 Hk. assert (0 < 10 ^ k0) by (apply Z.pow_pos_nonneg; lia).
    assert (10 ^ k0 <= 10 ^ 27) by (apply Z.pow_le_mono_r; lia). assert (10 ^ 27 <= 2 ^ 100) by (apply Z.leb_le; vm_compute; reflexivity).
    split; [apply (Qle_trans _ (inject_Z 1)); [discriminate|rewrite <- Zle_Qle; lia]|]. rewrite pow2_Z by lia. rewrite <- Zle_Qle. lia. }
  assert (pow2 (-100) * pow2 100 == 1)%Q as E by (rewrite <- pow2_plus; reflexivity).
  intros Hk. destruct (Z.le_ge_cases 0 k) as [Hk0|Hk0].
  - destruct (H k ltac:(lia)) as [H1 H2]. rewrite pow10Q_Z by lia. split; [|done].
    eapply Qle_trans; [|exact H1]. discriminate.
  - replace k with (- - k) by lia. destruct (H (- k) ltac:(lia)) as [H1 H2]. rewrite pow10Q_opp, pow10Q_Z by lia.
    assert (0 < inject_Z (10 ^ (- k)))%Q by (apply inject_Z_pos, Z.pow_pos_nonneg; lia). split.
    + apply Qle_shift_inv_l; [done|]. rewrite <- E. apply Qmult_le_l; [apply pow2_pos|done].
    + apply Qle_shift_inv_r; [done|]. eapply Qle_trans; [exact H1|].
      rewrite <- (Qmult_1_l (inject_Z _)) at 1. apply Qmult_le_compat_r; [discriminate|by apply Qlt_le_weak].
Qed.

#[local] Opaque pow2 Qpower.

(** Rounding a scaled number in at least 64 bits. *)
Lemma bf_round_close P m e (x s : Q) n d e0 :
  64 <= P -> 0 < m -> 0 < n -> 0 < d -> (pow2 (-200) <= x <= pow2 500)%Q -> close 1 (inject_Z m * pow2 e) x ->
  (pow2 (-100) <= s <= pow2 100)%Q -> (inject_Z n / inject_Z d * pow2 e0 == inject_Z m * pow2 e * s)%Q ->
  exists m' e', bf_round P false n d e0 = BNum P m' e' /\ 0 < m' /\ close 3 (inject_Z m' * pow2 e') (x * s).
Proof.
  intros HP Hm Hn Hd [Hlo Hhi] Hc [Hs1 Hs2] Enm. pose proof pow2_tiny as tiny.
  assert (0 < s)%Q as Hs by (eapply Qlt_le_trans; [apply pow2_pos|exact Hs1]).
  assert (0 < x)%Q as Hx by (eapply Qlt_le_trans; [apply pow2_pos|exact Hlo]).
  assert (pow2 (-64) * x <= (1 # 2) * x)%Q as Hhalf by (apply Qmult_le_compat_r; [exact tiny|by apply Qlt_le_weak]).
  pose proof Hc as [Hv1 Hv2]%close_bounds. rewrite Qmult_1_l in Hv1, Hv2.
  set (v := (inject_Z m * pow2 e)%Q) in *. assert (0 < v)%Q as Hv by lra.
  destruct (bf_round_range P false n d e0 (-301) 601) as (m' & e' & E & Hm' & Herr);
    [done|done|lia|unfold MinExp; lia|unfold MaxExp; lia|..].
  - rewrite Enm, (pow2_plus (-201) (-100)).
    apply Qmult_le_compat_nonneg; (split; [apply Qlt_le_weak, pow2_pos|]); [|done].
    rewrite (pow2_plus (-1) (-200)), pow2_half_one. lra.
  - rewrite Enm, (pow2_plus 501 100). apply Qmult_le_compat_nonneg; (split; [by apply Qlt_le_weak|]); [|done].
    rewrite (pow2_plus 1 500), pow2_two. lra.
  - exists m', e'. split; [exact E|]. split; [done|]. apply (close_trans _ (v * s)).
    + apply Qlt_le_weak, Qmult_lt_0_compat; done.
    + rewrite Enm in Herr. unfold close. eapply Qle_trans; [exact Herr|]. rewrite Qmult_1_l.
      apply Qmult_le_compat_r; [apply pow2_le_mono; lia|]. apply Qlt_le_weak, Qmult_lt_0_compat; done.
    + by apply close_scale.
Qed.

(** The product and the quotient with a power of ten. *)
Lemma bf_scale_close m e k (x : Q) :
  0 < m -> 0 <= k <= 27 -> (pow2 (-200) <= x <= pow2 500)%Q -> close 1 (inject_Z m * pow2 e) x ->
  (exists p m' e', bf_Mul_new (BNum 64 m e) (bf_SetInt (10 ^ k)) = BNum p m' e' /\ 0 < m' /\
     close 3 (inject_Z m' * pow2 e') (x * pow10Q k)) /\
  (exists p m' e', bf_Quo_new (BNum 64 m e) (bf_SetInt (10 ^ k)) = BNum p m' e' /\ 0 < m' /\
     close 3 (inject_Z m' * pow2 e') (x * pow10Q (- k))).
Proof.
  intros Hm Hk Hx Hc. assert (0 < 10 ^ k) as Hp by (apply Z.pow_pos_nonneg; lia).
  unfold bf_Mul_new, bf_Quo_new, bf_SetInt. cbn [bf_prec bf_Mul bf_Quo bf_neg].
  rewrite (proj2 (Z.ltb_ge m 0)), (proj2 (Z.ltb_ge (10 ^ k) 0)), !Z.abs_eq by lia. cbn [xorb].
  set (P := Z.max 64 _). assert (64 <= P) as HP by lia. clearbody P. pose proof (inject_Z_ne0 (10 ^ k) Hp) as Hne.
  split.
  - destruct (bf_round_close P m e x (pow10Q k) (m * 10 ^ k) 1 (e + 0)) as (m' & e' & E & H);
      [done|done|nia|lia|done|done|apply pow10Q_bounds; lia| |by exists P, m', e'].
    rewrite Z.add_0_r, pow10Q_Z, inject_Z_mult by lia. field.
  - destruct (bf_round_close P m e x (pow10Q (- k)) m (10 ^ k) (e - 0)) as (m' & e' & E & H);
      [done|done|done|done|done|done|apply pow10Q_bounds; lia| |by exists P, m', e'].
    rewrite Z.sub_0_r, pow10Q_opp, pow10Q_Z by lia. by field.
Qed.

(** ** The conversion to uint64 *)
Lemma value_times_pow m e :
  (inject_Z m * pow2 e * inject_Z (2 ^ Z.max 0 (- e)) == inject_Z (m * 2 ^ Z.max 0 e))%Q.
Proof. rewrite inject_Z_mult, <- (pow2_max e). ring. Qed.

Lemma convert_uint64_floor p m e :
  0 < m -> (inject_Z m * pow2 e <= inject_Z (2 ^ 63))%Q ->
  exists y, ConvertBigFloatToUint64 (BNum p m e) = Ok y /\ 0 <= y /\
    (inject_Z y <= inject_Z m * pow2 e)%Q /\ (inject_Z m * pow2 e < inject_Z y + 1)%Q.
Proof.
  intros Hm Hz. set (A := m * 2 ^ Z.max 0 e). set (B := 2 ^ Z.max 0 (- e)).
  assert (0 < B) as HB by (apply Z.pow_pos_nonneg; lia).
  assert (0 < A) as HA by (apply Z.mul_pos_pos; [done|apply Z.pow_pos_nonneg; lia]).
  pose proof (value_times_pow m e) as Ev. fold A B in Ev. pose proof (inject_Z_pos B HB) as HBq.
  assert (A <= 2 ^ 63 * B) as HAB.
  { rewrite Zle_Qle, inject_Z_mult, <- Ev. apply Qmult_le_compat_r; [done|by apply Qlt_le_weak]. }
  unfold ConvertBigFloatToUint64. cbn [bf_compare bf_Uint64]. fold A B.
  assert (max_int uint64 = 2 * 2 ^ 63 - 1) as -> by reflexivity.
  assert (A ?= (2 * 2 ^ 63 - 1) * B = Lt) as -> by (apply Z.compare_lt_iff; nia).
  assert (A ?= 0 * B = Gt) as -> by (apply Z.compare_gt_iff; lia).
  exists (A / B). split; [done|]. split; [apply Z.div_pos; lia|].
  pose proof (Z.div_mod A B ltac:(lia)) as Ed. pose proof (Z.mod_pos_bound A B HB) as Hr. split.
  - apply (Qmult_lt_0_le_reg_r _ _ (inject_Z B)); [done|]. rewrite Ev, <- inject_Z_mult, <- Zle_Qle. lia.
  - apply (Qmult_lt_r _ _ (inject_Z B)); [done|]. rewrite Ev. change 1%Q with (inject_Z 1).
    rewrite <- inject_Z_plus, <- inject_Z_mult, <- Zlt_Qlt. lia.
Qed.
