(* ===== verification/Sources.v ===== *)
(** * pricefeed/client/sources: the price functions of the exchanges

    util.go (the median of the ask, bid and last price of every requested ticker)
    and the price function of every exchange. The JSON decoders of the responses
    are parameters, and so is the validator package: what its documentation says of
    the tags used here is the law of the class [Validator]. Left out is the volatile
    test exchange, whose price is a cosine. *)
From Stdlib Require Import Ascii QArith Qabs Qpower Lqa.
From S2P Require Import Prelude Text Median MarketConfig ClientCache Float64 BigFloat QueryHandler.
Local Open Scope Z_scope.

(** ** Shifting by the exponent of a market *)
Definition reverseShiftFloatWithPow10 (value pow10 : bigfloat) (exponent : Exponent) : bigfloat :=
  if exponent =? 0 then value
  else if 0 <? exponent then bf_Quo_new value pow10
  else bf_Mul_new value pow10.

(** The power of ten is exact; its computation ends for every exponent. *)
Definition reverseShiftBigFloatSlice (values : list bigfloat) (exponent : Exponent) : option (list bigfloat) :=
  p ← BigPow10 (AbsInt32 exponent);
  let pow10 := bf_SetInt p in
  Some ((fun value => reverseShiftFloatWithPow10 value pow10 exponent) <$> values).

Definition GetUint64MedianFromReverseShiftedBigFloatValues (bigFloatSlice : list bigfloat) (exponent : Exponent)
    (resolver : Resolver) : go Z :=
  match bigFloatSlice with
  | [] => Err (ErrNew "invalid input: big float slice must contain values to medianize")
  | _ =>
      match reverseShiftBigFloatSlice bigFloatSlice exponent with
      | Some updatedBigFloatSlice =>
          uint64Slice ← ConvertBigFloatSliceToUint64Slice updatedBigFloatSlice;
          resolver uint64Slice
      | None => Panic (PanicMsg "BigPow10 does not end")
      end
  end.

Definition GetOnlyTickerAndExponent (tickerToExponent : gmap string Exponent) (exchange : string) : go (string * Exponent) :=
  match map_to_list tickerToExponent with
  | [te] => Ok te
  | l => Err (ErrNew ("invalid market price exponent map for " +:+ exchange +:+ " price function of length: " +:+
                      pretty (length l) +:+ ", expected length 1"))
  end.

(** ** Tickers and their validation *)
Inductive field_value := FString (s : string) | FFloat (x : float64) | FStrings (l : list string).

(** The tags on the fields of tickers; [Dive t] asks [t] of every element. *)
Inductive tag := Required | PositiveFloatString | GtZero | Len (n : nat) | Dive (t : tag).

Definition validatePositiveNumericString (s : string) : bool :=
  match ParseFloat s with inr val => fgt val fzero | inl _ => false end.

(** What the documentation of the validator says of a tag; positive-float-string is
    the function registered under that name. *)
Fixpoint satisfies (t : tag) (v : field_value) : Prop :=
  match t, v with
  | Required, FString s => s <> ""
  | Required, FFloat x => SFeqb x fzero = false
  | PositiveFloatString, FString s => validatePositiveNumericString s = true
  | GtZero, FFloat x => fgt x fzero = true
  | Len n, FStrings l => length l = n
  | Dive t, FStrings l => Forall (fun s => satisfies t (FString s)) l
  | _, _ => False
  end.

Class Validator := {
  validator_Struct : list (field_value * list tag) -> option go_error;
  validator_Struct_ok : forall fields,
    validator_Struct fields = None <-> Forall (fun '(v, ts) => Forall (fun t => satisfies t v) ts) fields
}.

(** The interface [Ticker], with the tagged fields of the struct. *)
Class Ticker (T : Type) := {
  GetPair : T -> string;
  GetAskPrice : T -> go string;
  GetBidPrice : T -> go string;
  GetLastPrice : T -> go string;
  ticker_fields : T -> list (field_value * list tag)
}.

Section Median.
Context `{Validator} {T : Type} `{Ticker T}.
Variable tickerToExponent : gmap string Exponent.
Variable resolver : Resolver.

(** The price of one listed ticker, or the reason it is unavailable. *)
Definition ticker_price (ticker : T) (exponent : Exponent) : go Z :=
  match validator_Struct (ticker_fields ticker) with
  | Some err => Err err
  | None =>
      ask ← GetAskPrice ticker;
      bid ← GetBidPrice ticker;
      last ← GetLastPrice ticker;
      bigFloatSlice ← ConvertStringSliceToBigFloatSlice [ask; bid; last];
      GetUint64MedianFromReverseShiftedBigFloatValues bigFloatSlice exponent resolver
  end.

Definition price_maps : Type := gmap string Z * gmap string go_error.

Definition add_listing (m : price_maps) (ticker : T) : go price_maps :=
  let tickerPair := GetPair ticker in
  match tickerToExponent !! tickerPair with
  | None => Ok m
  | Some exponent =>
      match ticker_price ticker exponent with
      | Ok medianPrice => Ok (<[tickerPair := medianPrice]> m.1, m.2)
      | Err err => Ok (m.1, <[tickerPair := err]> m.2)
      | Panic p => Panic p
      end
  end.

Definition mark_unlisted (m : price_maps) (ticker : string) : price_maps :=
  match m.1 !! ticker, m.2 !! ticker with
  | None, None => (m.1, <[ticker := ErrNew ("no listing found for ticker " +:+ ticker)]> m.2)
  | _, _ => m
  end.

Definition GetMedianPricesFromTickers `{RangeOrder} (tickers : list T) : go price_maps :=
  m ← foldM_go add_listing (∅, ∅) tickers;
  Ok (foldl mark_unlisted m (range_of tickerToExponent).*1).
End Median.

(** ** The tickers of the exchanges *)

(** Most exchanges list texts. *)
Record StringTicker := mkStringTicker { st_Pair : string; st_AskPrice : string; st_BidPrice : string; st_LastPrice : string }.

#[export] Instance string_ticker : Ticker StringTicker := {|
  GetPair := st_Pair;
  GetAskPrice t := Ok (st_AskPrice t);
  GetBidPrice t := Ok (st_BidPrice t);
  GetLastPrice t := Ok (st_LastPrice t);
  ticker_fields t :=
    [(FString (st_Pair t), [Required]); (FString (st_AskPrice t), [Required; PositiveFloatString]);
     (FString (st_BidPrice t), [Required; PositiveFloatString]); (FString (st_LastPrice t), [Required; PositiveFloatString])]
|}.

Definition BinanceTicker := StringTicker.
Definition BitstampTicker := StringTicker.
Definition BybitTicker := StringTicker.
Definition CoinbaseProTicker := StringTicker.
Definition CryptoComTicker := StringTicker.
Definition GateTicker := StringTicker.
Definition KucoinTicker := StringTicker.
Definition MexcTicker := StringTicker.
Definition OkxTicker := StringTicker.

Record BitfinexTicker := mkBitfinexTicker { bf_Pair : string; bf_BidPrice : string; bf_AskPrice : string; bf_LastPrice : string }.
#[export] Instance bitfinex_ticker : Ticker BitfinexTicker := {|
  GetPair := bf_Pair;
  GetAskPrice t := Ok (bf_AskPrice t);
  GetBidPrice t := Ok (bf_BidPrice t);
  GetLastPrice t := Ok (bf_LastPrice t);
  ticker_fields t :=
    [(FString (bf_Pair t), [Required]); (FString (bf_BidPrice t), [Required; PositiveFloatString]);
     (FString (bf_AskPrice t), [Required; PositiveFloatString]); (FString (bf_LastPrice t), [Required; PositiveFloatString])]
|}.

Record HuobiTicker := mkHuobiTicker { hb_Pair : string; hb_AskPrice : float64; hb_BidPrice : float64; hb_LastPrice : float64 }.
#[export] Instance huobi_ticker : Ticker HuobiTicker := {|
  GetPair := hb_Pair;
  GetAskPrice t := Ok (ConvertFloat64ToString (hb_AskPrice t));
  GetBidPrice t := Ok (ConvertFloat64ToString (hb_BidPrice t));
  GetLastPrice t := Ok (ConvertFloat64ToString (hb_LastPrice t));
  ticker_fields t :=
    [(FString (hb_Pair t), [Required]); (FFloat (hb_AskPrice t), [Required; GtZero]);
     (FFloat (hb_BidPrice t), [Required; GtZero]); (FFloat (hb_LastPrice t), [Required; GtZero])]
|}.

(** Kraken lists the statistics of each price, the price first. *)
Record KrakenTickerResult := mkKrakenTickerResult {
  pair : string; AskPriceStats : list string; BidPriceStats : list string; ClosePriceStats : list string
}.
Definition WithPair (ktr : KrakenTickerResult) (p : string) : KrakenTickerResult :=
  mkKrakenTickerResult p (AskPriceStats ktr) (BidPriceStats ktr) (ClosePriceStats ktr).
#[export] Instance kraken_ticker : Ticker KrakenTickerResult := {|
  GetPair := pair;
  GetAskPrice t := index (AskPriceStats t) 0;
  GetBidPrice t := index (BidPriceStats t) 0;
  GetLastPrice t := index (ClosePriceStats t) 0;
  ticker_fields t :=
    [(FStrings (AskPriceStats t), [Len 3; Dive PositiveFloatString]); (FStrings (BidPriceStats t), [Len 3; Dive PositiveFloatString]);
     (FStrings (ClosePriceStats t), [Len 2; Dive PositiveFloatString])]
|}.

(** One price without tags: the rates of Coinbase and the test exchanges. *)
Record PriceTicker := mkPriceTicker { pt_Pair : string; pt_Price : string }.
#[export] Instance price_ticker : Ticker PriceTicker := {|
  GetPair := pt_Pair;
  GetAskPrice t := Ok (pt_Price t);
  GetBidPrice t := Ok (pt_Price t);
  GetLastPrice t := Ok (pt_Price t);
  ticker_fields t := []
|}.
Definition CoinbaseRatesTicker := PriceTicker.
Definition FixedPriceTicker := PriceTicker.
Definition VolatileExchangeTicker := PriceTicker.

(** ** The responses *)
Record BybitResponseBody := mkBybitResponseBody { RetCode : Z; bybit_Result : list BybitTicker }.
Record CryptoComResponseBody := mkCryptoComResponseBody { cc_Code : Z; cc_Result : list CryptoComTicker }.
Record HuobiResponseBody := mkHuobiResponseBody { hb_Status : string; hb_Tickers : list HuobiTicker }.
Record KucoinResponseBody := mkKucoinResponseBody { kc_Code : string; kc_Data : list KucoinTicker }.
Record OkxResponseBody := mkOkxResponseBody { okx_Code : string; okx_Tickers : list OkxTicker }.
Record KrakenResponseBody := mkKrakenResponseBody { kr_Errors : list string; kr_Tickers : gmap string KrakenTickerResult }.
Record CoinbaseRatesData := mkCoinbaseRatesData { cr_Currency : string; Rates : gmap string string }.

(** An element of a JSON array of anything. *)
Inductive json_value := JString (s : string) | JNumber (x : float64) | JOther.

Class JsonDecoders := {
  Decode_Binance : string -> go_error + list BinanceTicker;
  Decode_Bitstamp : string -> go_error + list BitstampTicker;
  Decode_Gate : string -> go_error + list GateTicker;
  Decode_Mexc : string -> go_error + list MexcTicker;
  Decode_CoinbasePro : string -> go_error + CoinbaseProTicker;
  Decode_Bybit : string -> go_error + BybitResponseBody;
  Decode_CryptoCom : string -> go_error + CryptoComResponseBody;
  Decode_Huobi : string -> go_error + HuobiResponseBody;
  Decode_Kucoin : string -> go_error + KucoinResponseBody;
  Decode_Okx : string -> go_error + OkxResponseBody;
  Decode_Kraken : string -> go_error + KrakenResponseBody;
  Decode_CoinbaseRates : string -> go_error + CoinbaseRatesData;
  Decode_Bitfinex : string -> go_error + list (list json_value)
}.

Definition decoded {A} (r : go_error + A) : go A :=
  match r with inl err => Err err | inr a => Ok a end.

(** ** The price functions *)
Section PriceFunctions.
Context `{RangeOrder} `{Validator} `{JsonDecoders}.

Definition BinancePriceFunction : price_function := fun response tickerToExponent resolver =>
  binanceTickers ← decoded (Decode_Binance (Body response));
  GetMedianPricesFromTickers tickerToExponent resolver binanceTickers.

Definition BitstampPriceFunction : price_function := fun response tickerToExponent resolver =>
  bitstampTickers ← decoded (Decode_Bitstamp (Body response));
  GetMedianPricesFromTickers tickerToExponent resolver bitstampTickers.

Definition GatePriceFunction : price_function := fun response tickerToExponent resolver =>
  gateTickers ← decoded (Decode_Gate (Body response));
  GetMedianPricesFromTickers tickerToExponent resolver gateTickers.

Definition MexcPriceFunction : price_function := fun response tickerToExponent resolver =>
  tickers ← decoded (Decode_Mexc (Body response));
  GetMedianPricesFromTickers tickerToExponent resolver tickers.

Definition CoinbaseProPriceFunction : price_function := fun response tickerToExponent resolver =>
  te ← GetOnlyTickerAndExponent tickerToExponent "CoinbasePro";
  coinbaseProTicker ← decoded (Decode_CoinbasePro (Body response));
  let coinbaseProTicker := mkStringTicker te.1 (st_AskPrice coinbaseProTicker) (st_BidPrice coinbaseProTicker)
                             (st_LastPrice coinbaseProTicker) in
  GetMedianPricesFromTickers tickerToExponent resolver [coinbaseProTicker].

Definition BybitPriceFunction : price_function := fun response tickerToExponent resolver =>
  body ← decoded (Decode_Bybit (Body response));
  if negb (RetCode body =? 0) then Err (ErrNew "response code is not 0")
  else GetMedianPricesFromTickers tickerToExponent resolver (bybit_Result body).

Definition CryptoComPriceFunction : price_function := fun response tickerToExponent resolver =>
  body ← decoded (Decode_CryptoCom (Body response));
  if negb (cc_Code body =? 0) then Err (ErrNew "response code is not 0")
  else GetMedianPricesFromTickers tickerToExponent resolver (cc_Result body).

Definition HuobiPriceFunction : price_function := fun response tickerToExponent resolver =>
  body ← decoded (Decode_Huobi (Body response));
  if negb (bool_decide (hb_Status body = "ok")) then Err (ErrNew ("huobi response status is not " +:+ quoted "ok"))
  else GetMedianPricesFromTickers tickerToExponent resolver (hb_Tickers body).

Definition KucoinPriceFunction : price_function := fun response tickerToExponent resolver =>
  body ← decoded (Decode_Kucoin (Body response));
  if negb (bool_decide (kc_Code body = "200000")) then Err (ErrNew ("kucoin response code is not " +:+ quoted "200000"))
  else GetMedianPricesFromTickers tickerToExponent resolver (kc_Data body).

Definition OkxPriceFunction : price_function := fun response tickerToExponent resolver =>
  body ← decoded (Decode_Okx (Body response));
  if negb (bool_decide (okx_Code body = "0")) then Err (ErrNew ("okx response code is not " +:+ quoted "0"))
  else GetMedianPricesFromTickers tickerToExponent resolver (okx_Tickers body).

Definition KrakenPriceFunction : price_function := fun response tickerToExponent resolver =>
  responseBody ← decoded (Decode_Kraken (Body response));
  if negb (bool_decide (kr_Errors responseBody = [])) then
    Err (wrapf "kraken API call error" (ErrNew (strings_Join (kr_Errors responseBody) ", ")))
  else
    let tickers := (fun '(pair, ticker) => WithPair ticker pair) <$> range_of (kr_Tickers responseBody) in
    GetMedianPricesFromTickers tickerToExponent resolver tickers.

Definition PairIndex := 0%nat.
Definition BidPriceIndex := 1%nat.
Definition AskPriceIndex := 3%nat.
Definition LastPriceIndex := 7%nat.
Definition BitfinexResponseLength := 11%nat.

(** One raw ticker: a ticker, or the reason its pair is invalid; others are skipped. *)
Definition convert_raw (acc : list BitfinexTicker * gmap string go_error) (rawTicker : list json_value) :
    go (list BitfinexTicker * gmap string go_error) :=
  let '(bitfinexTickers, invalidRawTickers) := acc in
  if negb (Nat.eqb (length rawTicker) BitfinexResponseLength) then Ok acc
  else
    p ← index rawTicker PairIndex;
    match p with
    | JString pair =>
        let invalid what :=
          Ok (bitfinexTickers, <[pair := ErrNew ("invalid " +:+ what +:+ " price in response - not a float64")]> invalidRawTickers) in
        bid ← index rawTicker BidPriceIndex;
        ask ← index rawTicker AskPriceIndex;
        last ← index rawTicker LastPriceIndex;
        match bid with
        | JNumber bidPrice =>
            match ask with
            | JNumber askPrice =>
                match last with
                | JNumber lastPrice =>
                    Ok (bitfinexTickers ++ [mkBitfinexTicker pair (ConvertFloat64ToString bidPrice)
                                              (ConvertFloat64ToString askPrice) (ConvertFloat64ToString lastPrice)],
                        invalidRawTickers)
                | _ => invalid "last"
                end
            | _ => invalid "ask"
            end
        | _ => invalid "bid"
        end
    | _ => Ok acc
    end.

Definition BitfinexPriceFunction : price_function := fun response tickerToExponent resolver =>
  rawResponse ← decoded (Decode_Bitfinex (Body response));
  r ← foldM_go convert_raw ([], ∅) rawResponse;
  let '(bitfinexTickers, invalidRawTickers) := r in
  m ← GetMedianPricesFromTickers tickerToExponent resolver bitfinexTickers;
  Ok (m.1, foldl (fun unavailable '(ticker, err) =>
                    match tickerToExponent !! ticker with Some _ => <[ticker := err]> unavailable | None => unavailable end)
             m.2 (range_of invalidRawTickers)).

Definition f_one : float64 := float_of_integer 1.

(** The ticker of one requested pair, or why it has none. *)
Definition rate_ticker (rates : gmap string string) (ticker : string) : CoinbaseRatesTicker + go_error :=
  match strings_Split ticker "-" with
  | [baseCurrency; quoteCurrency] =>
      if negb (bool_decide (quoteCurrency = "USD")) then
        inr (ErrNew ("only USD quote currency is supported, got: " +:+ quoteCurrency))
      else match rates !! baseCurrency with
           | None => inr (ErrNew ("rate not found for currency: " +:+ baseCurrency))
           | Some rateStr =>
               match ParseFloat rateStr with
               | inl err => inr (wrapf ("failed to parse rate for " +:+ baseCurrency) err)
               | inr rate =>
                   if SFeqb rate fzero then inr (ErrNew ("zero rate for currency: " +:+ baseCurrency))
                   else inl (mkPriceTicker ticker (Sprintf_float (fdiv f_one rate)))
               end
           end
  | _ => inr (ErrNew ("invalid ticker format: " +:+ ticker))
  end.

Definition CoinbaseRatesPriceFunction : price_function := fun response tickerToExponent resolver =>
  match Decode_CoinbaseRates (Body response) with
  | inl err => Err (wrapf "failed to decode Coinbase rates response" err)
  | inr ratesResponse =>
      let '(tickers, unavailableTickers) :=
        foldl (fun '(tickers, unavailable) '(ticker, _) =>
                 match rate_ticker (Rates ratesResponse) ticker with
                 | inl t => (tickers ++ [t], unavailable)
                 | inr err => (tickers, <[ticker := err]> unavailable)
                 end) ([], ∅) (range_of tickerToExponent) in
      m ← GetMedianPricesFromTickers tickerToExponent resolver tickers;
      Ok (m.1, foldl (fun unavailable '(ticker, err) =>
                        match unavailable !! ticker with None => <[ticker := err]> unavailable | Some _ => unavailable end)
                 unavailableTickers (range_of m.2))
  end.

(** ** The test exchanges *)
Definition FixedExchangePriceFunction : price_function := fun _ tickerToExponent resolver =>
  let ticker pair price := mkPriceTicker pair (Sprintf_float (float_of_integer price)) : FixedPriceTicker in
  GetMedianPricesFromTickers tickerToExponent resolver
    [ticker "BTC-USD" 50000; ticker "ETH-USD" 4000; ticker "SOL-USD" 100].

(** The clock in seconds, and [math.Cos]. *)
Variable unix_now : Z.
Variable math_Cos : float64 -> float64.

(** [math.Mod(x, 1)] of a number [x >= 0]. *)
Definition mod_one (x : float64) : float64 :=
  match x with
  | S754_finite neg m e => if e <? 0 then float_of_ratio neg (Zpos m mod 2 ^ (- e)) 1 e else S754_zero neg
  | S754_zero neg => S754_zero neg
  | _ => S754_nan
  end.

Definition volatile_price : float64 :=
  let phase := mod_one (fdiv (fmul f_one (float_of_integer (round53 unix_now))) (float_of_integer 86400)) in
  let radMultiplier := fmul phase (float_of_integer 4) in
  let radMultiplier := if fgt phase (float_of_ratio false 1 2 0) then fsub radMultiplier f_one else radMultiplier in
  let radians := fmul radMultiplier (S754_finite false 7074237752028440 (-51)) in
  let waveValue := math_Cos radians in
  fmul (float_of_integer 100) (fadd f_one (fmul (float_of_ratio false 95 100 0) waveValue)).

Definition VolatileExchangePriceFunction : price_function := fun _ tickerToExponent resolver =>
  GetMedianPricesFromTickers tickerToExponent resolver
    [mkPriceTicker "TEST-USD" (Sprintf_float volatile_price) : VolatileExchangeTicker].

(** ** The table of exchanges *)
Definition BinanceDetails :=
  mkExchangeQueryDetails "Binance" "https://data-api.binance.vision/api/v3/ticker/24hr" BinancePriceFunction true.
Definition BinanceUSDetails :=
  mkExchangeQueryDetails "BinanceUS" "https://api.binance.us/api/v3/ticker/24hr" BinancePriceFunction true.
Definition BitfinexDetails :=
  mkExchangeQueryDetails "Bitfinex" "https://api-pub.bitfinex.com/v2/tickers?symbols=ALL" BitfinexPriceFunction true.
Definition BitstampDetails :=
  mkExchangeQueryDetails "Bitstamp" "https://www.bitstamp.net/api/v2/ticker/" BitstampPriceFunction true.
Definition BybitDetails :=
  mkExchangeQueryDetails "Bybit" "https://api.bybit.com/v5/market/tickers?category=spot" BybitPriceFunction true.
Definition CoinbaseProDetails :=
  mkExchangeQueryDetails "CoinbasePro" "https://api.pro.coinbase.com/products/$/ticker" CoinbaseProPriceFunction false.
Definition CoinbaseRatesDetails :=
  mkExchangeQueryDetails "CoinbaseRates" "https://api.coinbase.com/v2/exchange-rates" CoinbaseRatesPriceFunction false.
Definition CryptoComDetails :=
  mkExchangeQueryDetails "CryptoCom" "https://api.crypto.com/v2/public/get-ticker" CryptoComPriceFunction true.
Definition GateDetails :=
  mkExchangeQueryDetails "Gate" "https://api.gateio.ws/api/v4/spot/tickers" GatePriceFunction true.
Definition HuobiDetails :=
  mkExchangeQueryDetails "Huobi" "https://api.huobi.pro/market/tickers" HuobiPriceFunction true.
Definition KrakenDetails :=
  mkExchangeQueryDetails "Kraken" "https://api.kraken.com/0/public/Ticker" KrakenPriceFunction true.
Definition KucoinDetails :=
  mkExchangeQueryDetails "Kucoin" "https://api.kucoin.com/api/v1/market/allTickers" KucoinPriceFunction true.
Definition MexcDetails :=
  mkExchangeQueryDetails "Mexc" "https://api.mexc.com/api/v3/ticker/24hr" MexcPriceFunction true.
Definition OkxDetails :=
  mkExchangeQueryDetails "Okx" "https://www.okx.com/api/v5/market/tickers?instType=SPOT" OkxPriceFunction true.
Definition TestExchangeDetails :=
  mkExchangeQueryDetails "TestExchange" "http://test.exchange:9888/ticker?symbol=$" CoinbaseProPriceFunction false.
Definition TestFixedPriceExchangeDetails :=
  mkExchangeQueryDetails "TestFixedPriceExchange" "https://jsonplaceholder.typicode.com/users" FixedExchangePriceFunction false.
Definition TestVolatileExchangeDetails :=
  mkExchangeQueryDetails "TestVolatileExchange" "https://jsonplaceholder.typicode.com/users" VolatileExchangePriceFunction false.

Definition StaticExchangeDetails : gmap ExchangeId ExchangeQueryDetails :=
  list_to_map ((fun d => (Exchange d, d)) <$>
    [BinanceDetails; BinanceUSDetails; BitfinexDetails; KrakenDetails; GateDetails; BitstampDetails; CryptoComDetails;
     HuobiDetails; KucoinDetails; OkxDetails; MexcDetails; CoinbaseRatesDetails; TestExchangeDetails;
     TestVolatileExchangeDetails; TestFixedPriceExchangeDetails]).
End PriceFunctions.

(** ** Lemmas: prices *)
Definition decimal_of (c : Z) (n : nat) : Q := (inject_Z c / inject_Z (10 ^ Z.of_nat n))%Q.
(** The price that a decimal denotes, in units of ten to the exponent. *)
Definition exact_price (c : Z) (n : nat) (exponent : Exponent) : Q := (decimal_of c n * pow10Q (- exponent))%Q.

Lemma AbsInt32_small e : -27 <= e <= 27 -> AbsInt32 e = Z.abs e.
Proof. intros H. apply AbsInt32_abs. unfold in_range, min_int, max_int. simpl. lia. Qed.

Lemma converted_price_close c n exponent :
  0 < c < 2 ^ 300 -> (n <= 27)%nat -> -27 <= exponent <= 27 -> (exact_price c n exponent <= inject_Z (2 ^ 62))%Q ->
  exists v p y, bf_SetString (fixed_text c n) = Some v /\ BigPow10 (AbsInt32 exponent) = Some p /\
    ConvertBigFloatToUint64 (reverseShiftFloatWithPow10 v (bf_SetInt p) exponent) = Ok y /\ 0 <= y /\
    (exact_price c n exponent - 2 < inject_Z y /\ inject_Z y < exact_price c n exponent + 1)%Q.
Proof.
  intros Hc Hn He Hx. destruct (bf_SetString_fixed c n Hc Hn) as (m & e & Ev & Hm & Hcl).
  fold (decimal_of c n) in Hcl.
  assert (close 1 (inject_Z m * pow2 e) (decimal_of c n)) as Hc1 by (unfold close; by rewrite Qmult_1_l).
  rewrite (AbsInt32_small exponent He), BigPow10_spec by lia.
  assert (pow2 (-200) <= decimal_of c n <= pow2 500)%Q as Hrange.
  { assert (0 < 10 ^ Z.of_nat n) as Hp by (apply Z.pow_pos_nonneg; lia).
    assert (10 ^ Z.of_nat n <= 10 ^ 27) as Hp27 by (apply Z.pow_le_mono_r; lia). unfold decimal_of. split.
    - rewrite <- (Qmult_1_l (pow2 _)). change 1%Q with (inject_Z 1). apply ratio_le; [done|].
      change (2 ^ Z.max 0 (-200)) with 1. change (2 ^ Z.max 0 (- -200)) with (2 ^ 200).
      assert (10 ^ 27 < 2 ^ 200) by (apply Z.ltb_lt; vm_compute; reflexivity). nia.
    - rewrite <- (Qmult_1_l (pow2 _)). change 1%Q with (inject_Z 1). apply ratio_ge; [done|].
      change (2 ^ Z.max 0 500) with (2 ^ 500). change (2 ^ Z.max 0 (- (500))) with 1.
      assert (2 ^ 300 < 2 ^ 500) by (apply Z.ltb_lt; vm_compute; reflexivity). nia. }
  assert (exists p m' e', reverseShiftFloatWithPow10 (BNum 64 m e) (bf_SetInt (10 ^ Z.abs exponent)) exponent = BNum p m' e' /\
    0 < m' /\ close 3 (inject_Z m' * pow2 e') (exact_price c n exponent)) as (p & m' & e' & Es & Hm' & Hcl').
  { destruct (bf_scale_close m e (Z.abs exponent) (decimal_of c n) Hm ltac:(lia) Hrange Hc1) as [HMul HQuo].
    unfold reverseShiftFloatWithPow10, exact_price. destruct (Z.eqb_spec exponent 0) as [->|Hne].
    - exists 64, m, e. split; [done|]. split; [done|]. change (pow10Q (- 0)) with 1%Q. rewrite Qmult_1_r.
      apply (close_weaken _ _ 1); [|discriminate|done]. eapply Qle_trans; [|apply Hrange]. apply Qlt_le_weak, pow2_pos.
    - destruct (Z.ltb_spec 0 exponent).
      + replace (Z.abs exponent) with exponent in * by lia. destruct HQuo as (p & m' & e' & H'). by exists p, m', e'.
      + replace (Z.abs exponent) with (- exponent) in * by lia. destruct HMul as (p & m' & e' & H'). by exists p, m', e'. }
  exists (BNum 64 m e), (10 ^ Z.abs exponent). rewrite Es. apply close_bounds in Hcl' as [H1 H2].
  set (x := exact_price c n exponent) in *.
  assert (3 * pow2 (-64) * x <= 3 # 4)%Q as Hsmall.
  { eapply Qle_trans; [apply Qmult_le_l; [reflexivity|exact Hx]|]. discriminate. }
  destruct (convert_uint64_floor p m' e' Hm') as (y & Ey & Hy & Hlo & Hhi).
  { change (inject_Z (2 ^ 62)) with (4611686018427387904 # 1)%Q in Hx.
    change (inject_Z (2 ^ 63)) with (9223372036854775808 # 1)%Q. lra. }
  exists y. split_and!; try done; lra.
Qed.

(** ** Lemmas: the maps of prices *)

(** The last value, and the last error, of some outcomes. *)
Fixpoint last_ok {A} (l : list (go A)) : option A :=
  match l with
  | [] => None
  | r :: l => match last_ok l, r with Some a, _ => Some a | None, Ok a => Some a | None, _ => None end
  end.
Fixpoint last_err {A} (l : list (go A)) : option go_error :=
  match l with
  | [] => None
  | r :: l => match last_err l, r with Some e, _ => Some e | None, Err e => Some e | None, _ => None end
  end.

Section MedianLemmas.
Context `{Validator} {T : Type} `{Ticker T}.
Variable tickerToExponent : gmap string Exponent.
Variable resolver : Resolver.

(** What the listings of the pair [t] give. *)
Definition outcomes (t : string) (exponent : Exponent) (tickers : list T) : list (go Z) :=
  (fun ticker => ticker_price resolver ticker exponent) <$> filter (fun ticker => GetPair ticker = t) tickers.

Lemma add_listings_spec tickers m m' :
  foldM_go (add_listing tickerToExponent resolver) m tickers = Ok m' ->
  forall t, match tickerToExponent !! t with
            | None => m'.1 !! t = m.1 !! t /\ m'.2 !! t = m.2 !! t
            | Some exponent =>
                m'.1 !! t = match last_ok (outcomes t exponent tickers) with Some p => Some p | None => m.1 !! t end /\
                m'.2 !! t = match last_err (outcomes t exponent tickers) with Some e => Some e | None => m.2 !! t end
            end.
Proof.
  revert m. induction tickers as [|tk tickers IH]; intros m.
  { cbn. intros [= <-] t. by destruct (tickerToExponent !! t). }
  cbn [foldM_go]. intros E t. apply go_bind_Ok in E as (m1 & E1 & E). unfold add_listing in E1.
  unfold outcomes. rewrite filter_cons.
  destruct (tickerToExponent !! GetPair tk) as [x|] eqn:Ex.
  - destruct (ticker_price resolver tk x) as [p|e|] eqn:Ep; [..|done]; injection E1 as <-;
      specialize (IH _ E t); destruct (decide (GetPair tk = t)) as [<-|Hne].
    all: rewrite ?Ex in *; cbn [fmap list_fmap last_ok last_err fst snd] in *; rewrite ?Ep; unfold outcomes in IH.
    all: rewrite ?lookup_insert_eq, ?lookup_insert_ne in IH by done; try exact IH.
    + destruct IH as [-> ->]. split; [by destruct (last_ok _)|]. by destruct (last_err _).
    + destruct IH as [-> ->]. split; [by destruct (last_ok _)|]. by destruct (last_err _).
  - injection E1 as <-. specialize (IH _ E t). destruct (decide (GetPair tk = t)) as [<-|Hne]; [|exact IH].
    rewrite Ex in *. exact IH.
Qed.

Lemma add_listings_panic tickers m p :
  foldM_go (add_listing tickerToExponent resolver) m tickers = Panic p ->
  exists ticker x, ticker ∈ tickers /\ ticker_price resolver ticker x = Panic p.
Proof.
  revert m. induction tickers as [|tk tickers IH]; intros m; [done|]. cbn [foldM_go]. intros E.
  assert (forall m', foldM_go (add_listing tickerToExponent resolver) m' tickers = Panic p ->
    exists ticker x, ticker ∈ tk :: tickers /\ ticker_price resolver ticker x = Panic p) as Hrest.
  { intros m' (t & x & Ht & Hp)%IH. exists t, x. split; [by right|done]. }
  destruct (add_listing tickerToExponent resolver m tk) as [m1|e|p'] eqn:Ea; [by eapply Hrest|done|].
  injection E as ->. unfold add_listing in Ea. destruct (tickerToExponent !! GetPair tk) as [x|]; [|done].
  destruct (ticker_price resolver tk x) as [pr|e|p'] eqn:Ep; [done..|]. injection Ea as ->.
  exists tk, x. split; [by left|done].
Qed.

Lemma add_listings_no_err tickers m e :
  foldM_go (add_listing tickerToExponent resolver) m tickers <> Err e.
Proof.
  revert m. induction tickers as [|tk tickers IH]; intros m; [done|]. cbn [foldM_go].
  destruct (add_listing tickerToExponent resolver m tk) as [m1|e'|p'] eqn:Ea; [apply IH| |done].
  unfold add_listing in Ea. destruct (_ !! _); [|done]. by destruct (ticker_price _ _ _).
Qed.

Definition no_listing (t : string) : go_error := ErrNew ("no listing found for ticker " +:+ t).

Lemma mark_unlisted_spec l m t :
  (foldl mark_unlisted m l).1 = m.1 /\
  (foldl mark_unlisted m l).2 !! t =
    match m.1 !! t, m.2 !! t with
    | None, None => if decide (t ∈ l) then Some (no_listing t) else None
    | _, e => e
    end.
Proof.
  revert m. induction l as [|x l IH]; intros m.
  { cbn. split; [done|]. by destruct (m.1 !! t), (m.2 !! t). }
  cbn [foldl]. destruct (IH (mark_unlisted m x)) as [-> ->]. unfold mark_unlisted.
  destruct (m.1 !! x) eqn:E1.
  { split; [done|]. destruct (m.1 !! t) eqn:E2, (m.2 !! t); try done.
    destruct (decide (t ∈ l)), (decide (t ∈ x :: l)) as [Hd|Hd]; try done; [destruct Hd; by right|].
    apply elem_of_cons in Hd as [->|]; congruence. }
  destruct (m.2 !! x) eqn:E3.
  { split; [done|]. destruct (m.1 !! t) eqn:E2, (m.2 !! t) eqn:E4; try done.
    destruct (decide (t ∈ l)), (decide (t ∈ x :: l)) as [Hd|Hd]; try done; [destruct Hd; by right|].
    apply elem_of_cons in Hd as [->|]; congruence. }
  cbn [fst snd]. split; [done|]. destruct (decide (t = x)) as [->|Hne].
  - rewrite E1, E3, lookup_insert_eq, decide_True by (by left). done.
  - rewrite lookup_insert_ne by done. destruct (m.1 !! t), (m.2 !! t); try done.
    apply decide_ext. rewrite elem_of_cons. tauto.
Qed.

(** Every requested pair has the price of its last valid listing, and the error of its
    last failing one, or of having none. *)
Lemma GetMedianPrices_lookup `{RangeOrder} tickers prices unavailable :
  GetMedianPricesFromTickers tickerToExponent resolver tickers = Ok (prices, unavailable) ->
  forall t, match tickerToExponent !! t with
            | None => prices !! t = None /\ unavailable !! t = None
            | Some exponent =>
                prices !! t = last_ok (outcomes t exponent tickers) /\
                unavailable !! t =
                  match last_ok (outcomes t exponent tickers), last_err (outcomes t exponent tickers) with
                  | None, None => Some (no_listing t)
                  | _, e => e
                  end
            end.
Proof.
  unfold GetMedianPricesFromTickers. intros E t. apply go_bind_Ok in E as (m & Em & E).
  pose proof (add_listings_spec _ _ _ Em t) as Hm.
  destruct (mark_unlisted_spec ((range_of tickerToExponent).*1) m t) as [Em1 Em2].
  injection E as E. rewrite E in Em1, Em2. cbn [fst snd] in Em1, Em2. rewrite Em1, Em2. cbn [fst snd] in Hm.
  destruct (tickerToExponent !! t) as [x|] eqn:Ex; destruct Hm as [-> ->]; rewrite ?lookup_empty.
  - split; [by destruct (last_ok _)|].
    destruct (last_ok _), (last_err _); try done. rewrite decide_True; [done|].
    apply list_elem_of_fmap. exists (t, x). split; [done|]. by apply elem_of_range_of.
  - split; [done|]. rewrite decide_False; [done|].
    intros ((? & x) & -> & Hin)%list_elem_of_fmap. apply elem_of_range_of in Hin. cbn in *. congruence.
Qed.
End MedianLemmas.

(** ** Lemmas: price functions that only speak of what they were asked for *)

(** A resolver that does not panic on prices. *)
Definition resolver_total (resolver : Resolver) : Prop := forall l p, l <> [] -> resolver l <> Panic p.

Definition maps_requested (tickerToExponent : gmap string Exponent) (m : price_maps) : Prop :=
  dom m.1 ⊆ dom tickerToExponent /\ dom m.2 ⊆ dom tickerToExponent /\
  dom tickerToExponent ⊆ dom m.1 ∪ dom m.2.

(** The exponents of the markets are int32. *)
Definition exponents_ok (tickerToExponent : gmap string Exponent) : Prop :=
  map_Forall (fun _ e => in_range int32 e) tickerToExponent.

Definition good_outcome (tickerToExponent : gmap string Exponent) (resolver : Resolver) (r : go price_maps) : Prop :=
  match r with
  | Ok m => maps_requested tickerToExponent m
  | Err _ => True
  | Panic _ => ~ (resolver_total resolver /\ exponents_ok tickerToExponent)
  end.

Definition well_behaved (f : price_function) : Prop := forall response tickerToExponent resolver,
  good_outcome tickerToExponent resolver (f response tickerToExponent resolver).

(** A ticker that passes its validation can be read. *)
Class TickerLaw (T : Type) `{Validator} `{Ticker T} := {
  valid_ticker_readable : forall t, validator_Struct (ticker_fields t) = None ->
    exists ask bid last, GetAskPrice t = Ok ask /\ GetBidPrice t = Ok bid /\ GetLastPrice t = Ok last
}.

Section Laws.
Context `{Validator}.

#[export] Instance string_ticker_law : TickerLaw StringTicker.
Proof. split. intros t _. by eexists _, _, _. Qed.
#[export] Instance bitfinex_ticker_law : TickerLaw BitfinexTicker.
Proof. split. intros t _. by eexists _, _, _. Qed.
#[export] Instance huobi_ticker_law : TickerLaw HuobiTicker.
Proof. split. intros t _. by eexists _, _, _. Qed.
#[export] Instance price_ticker_law : TickerLaw PriceTicker.
Proof. split. intros t _. by eexists _, _, _. Qed.
#[export] Instance kraken_ticker_law : TickerLaw KrakenTickerResult.
Proof.
  split. intros t Hv. apply validator_Struct_ok in Hv. cbn in Hv.
  apply Forall_cons in Hv as [Ha Hv]. apply Forall_cons in Hv as [Hb Hv]. apply Forall_cons in Hv as [Hc _].
  apply Forall_cons in Ha as [Ha _]. apply Forall_cons in Hb as [Hb _]. apply Forall_cons in Hc as [Hc _].
  cbn [satisfies] in *. cbn [GetAskPrice GetBidPrice GetLastPrice kraken_ticker]. unfold index.
  destruct (AskPriceStats t) as [|a ?]; [done|]. destruct (BidPriceStats t) as [|b ?]; [done|].
  destruct (ClosePriceStats t) as [|c ?]; [done|]. by exists a, b, c.
Qed.
End Laws.

#[local] Opaque BigPow10 bf_SetString.

Lemma reverseShift_total l exponent : in_range int32 exponent -> is_Some (reverseShiftBigFloatSlice l exponent).
Proof.
  intros He. unfold reverseShiftBigFloatSlice. rewrite BigPow10_spec; [by eexists|].
  unfold AbsInt32. destruct (_ <? 0); match goal with |- context [wrap uint32 ?z] => pose proof (wrap_in_range uint32 z ltac:(auto with go)) as Hr end;
    unfold in_range, min_int, max_int in Hr; simpl in Hr; lia.
Qed.

Lemma mapM_go_not_panic {A B} (f : A -> go B) l p : (forall a q, f a <> Panic q) -> mapM_go f l <> Panic p.
Proof.
  intros Hf. induction l as [|a l IH]; [done|]. cbn [mapM_go]. pose proof (Hf a) as Ha.
  destruct (f a) as [b|e|q]; [|done|by destruct (Ha q)]. cbn [mbind go_bind]. by destruct (mapM_go f l).
Qed.

Lemma ConvertBigFloatToUint64_no_panic x p : ConvertBigFloatToUint64 x <> Panic p.
Proof. unfold ConvertBigFloatToUint64. destruct (bf_compare _ _); try done; by destruct (bf_compare _ _). Qed.

#[local] Opaque ConvertBigFloatToUint64.

Lemma median_of_texts_no_panic texts exponent resolver p :
  resolver_total resolver -> in_range int32 exponent ->
  (bigFloatSlice ← ConvertStringSliceToBigFloatSlice texts;
   GetUint64MedianFromReverseShiftedBigFloatValues bigFloatSlice exponent resolver) <> Panic p.
Proof.
  intros Hr He. destruct (ConvertStringSliceToBigFloatSlice texts) as [l|e|q] eqn:E; cbn [mbind go_bind]; [|done|].
  - destruct l as [|x l]; [done|]. cbn [GetUint64MedianFromReverseShiftedBigFloatValues].
    destruct (reverseShift_total (x :: l) exponent He) as [l' El]. rewrite El.
    destruct (ConvertBigFloatSliceToUint64Slice l') as [us|e|q] eqn:Eu; cbn [mbind go_bind]; [|done|].
    + apply Hr. intros ->. apply mapM_go_Ok, Forall2_length in Eu. cbn in Eu. unfold reverseShiftBigFloatSlice in El.
      destruct (BigPow10 _); [|done]. injection El as <-. cbn in Eu. done.
    + exfalso. apply (mapM_go_not_panic _ _ _ ConvertBigFloatToUint64_no_panic Eu).
  - refine (False_ind _ (mapM_go_not_panic _ texts q _ E)). intros a q'. by destruct (bf_SetString a).
Qed.

Section WellBehaved.
Context `{RangeOrder} `{Validator}.

Lemma last_ok_is_Some {A} (l : list (go A)) : is_Some (last_ok l) <-> exists a, Ok a ∈ l.
Proof.
  induction l as [|r l IH]; cbn; [split; [by intros []|by intros [a Ha%elem_of_nil]]|].
  setoid_rewrite elem_of_cons. destruct (last_ok l) as [a|] eqn:E.
  - split; [|by eexists]. intros _. destruct (proj1 IH ltac:(by eexists)) as [a' Ha]. exists a'. by right.
  - assert (forall a, Ok a ∉ l) as Hn by (intros a Ha; by destruct (proj2 IH ltac:(by exists a))).
    destruct r as [a|e|q]; (split; [|intros [a' [[=]|Ha]]; try done; by destruct (Hn a')]).
    + intros _. exists a. by left.
    + by intros [].
    + by intros [].
Qed.

Lemma last_err_is_Some {A} (l : list (go A)) : is_Some (last_err l) <-> exists e, Err e ∈ l.
Proof.
  induction l as [|r l IH]; cbn; [split; [by intros []|by intros [a Ha%elem_of_nil]]|].
  setoid_rewrite elem_of_cons. destruct (last_err l) as [a|] eqn:E.
  - split; [|by eexists]. intros _. destruct (proj1 IH ltac:(by eexists)) as [a' Ha]. exists a'. by right.
  - assert (forall a, Err a ∉ l) as Hn by (intros a Ha; by destruct (proj2 IH ltac:(by exists a))).
    destruct r as [a|e|q]; (split; [|intros [a' [[=]|Ha]]; try done; by destruct (Hn a')]).
    + by intros [].
    + intros _. exists e. by left.
    + by intros [].
Qed.

Lemma ticker_price_no_panic {T} `{Ticker T, !TickerLaw T} (tickerToExponent : gmap string Exponent) resolver (tk : T) t x p :
  resolver_total resolver -> map_Forall (fun _ e => in_range int32 e) tickerToExponent ->
  tickerToExponent !! t = Some x -> ticker_price resolver tk x <> Panic p.
Proof.
  intros Hr He Hx. unfold ticker_price. destruct (validator_Struct _) eqn:Ev; [done|].
  destruct (valid_ticker_readable tk Ev) as (a & b & c & -> & -> & ->). cbn [mbind go_bind].
  apply median_of_texts_no_panic; [done|]. by eapply He.
Qed.

(** The shared part of all price functions. *)
Lemma GetMedianPrices_well_behaved {T} `{Ticker T, !TickerLaw T} tickerToExponent resolver (tickers : list T) :
  good_outcome tickerToExponent resolver (GetMedianPricesFromTickers tickerToExponent resolver tickers) /\
  forall e, GetMedianPricesFromTickers tickerToExponent resolver tickers <> Err e.
Proof.
  destruct (GetMedianPricesFromTickers tickerToExponent resolver tickers) as [[prices unavailable]|e|p] eqn:E; cbn [good_outcome].
  - split; [|done]. pose proof (GetMedianPrices_lookup tickerToExponent resolver tickers prices unavailable E) as Hl.
    unfold maps_requested. cbn [fst snd]. split_and!.
    + intros t [p Hp]%elem_of_dom. apply elem_of_dom. specialize (Hl t).
      destruct (tickerToExponent !! t); [by eexists|]. destruct Hl. congruence.
    + intros t [p Hp]%elem_of_dom. apply elem_of_dom. specialize (Hl t).
      destruct (tickerToExponent !! t); [by eexists|]. destruct Hl. congruence.
    + intros t [x Hx]%elem_of_dom. specialize (Hl t). rewrite Hx in Hl. destruct Hl as [H1' H2'].
      apply elem_of_union. rewrite !elem_of_dom, H1', H2'.
      destruct (last_ok _); [left; by eexists|]. right. destruct (last_err _); by eexists.
  - exfalso. unfold GetMedianPricesFromTickers in E.
    destruct (foldM_go _ _ _) as [m|e'|p] eqn:Ef; [done|by apply add_listings_no_err in Ef|done].
  - split; [|done]. intros [Hr He]. unfold GetMedianPricesFromTickers in E.
    destruct (foldM_go _ _ _) as [m|e'|p'] eqn:Ef; [done|done|].
    revert Ef. generalize (∅ : gmap string Z, ∅ : gmap string go_error). clear E.
    induction tickers as [|tk tickers IH]; intros m; [done|]. cbn [foldM_go].
    destruct (add_listing tickerToExponent resolver m tk) as [m1|e1|p1] eqn:Ea; [apply IH|done|].
    unfold add_listing in Ea. destruct (tickerToExponent !! GetPair tk) as [x|] eqn:Ex; [|done].
    pose proof (ticker_price_no_panic _ _ tk _ x p1 Hr He Ex). destruct (ticker_price resolver tk x); congruence.
Qed.
End WellBehaved.

(** A loop that only adds keys: what it keeps, what it adds, and what it must add. *)
Lemma foldl_adds {V} (S : gset string) (f : gmap string V -> string * V -> gmap string V) l u :
  (forall u k v, dom u ⊆ dom (f u (k, v))) -> (forall u k v, (k, v) ∈ l -> dom u ⊆ S -> dom (f u (k, v)) ⊆ S) ->
  dom u ⊆ S ->
  dom u ⊆ dom (foldl f u l) /\ dom (foldl f u l) ⊆ S /\
  ((forall u k v, k ∈ dom (f u (k, v))) -> forall k v, (k, v) ∈ l -> k ∈ dom (foldl f u l)).
Proof.
  intros Hm. revert u. induction l as [|[k v] l IH]; intros u HS Hu; cbn [foldl].
  { split; [done|]. split; [done|]. intros _ k v Hin. by apply elem_of_nil in Hin. }
  destruct (IH (f u (k, v))) as (H1 & H2 & H3).
  - intros u' k' v' Hin. apply HS. by right.
  - apply HS; [by left|done].
  - split; [by etrans; [apply Hm|exact H1]|]. split; [done|].
    intros Hk k' v' [[= -> ->]|Hin]%elem_of_cons; [apply H1, Hk|]. by eapply H3.
Qed.

Section PriceFunctionLemmas.
Context `{RangeOrder} `{Validator} `{JsonDecoders}.

Ltac price_function :=
  intros response tickerToExponent resolver;
  repeat first
    [ match goal with
      | |- context [decoded ?d] => destruct d as [?|?]; cbn [decoded mbind go_bind]; [exact I|]
      | |- context [if ?b then Err _ else _] => destruct b; [exact I|]
      | |- context [GetMedianPricesFromTickers tickerToExponent resolver ?l] =>
          exact (proj1 (GetMedianPrices_well_behaved tickerToExponent resolver l))
      end ].

Lemma Binance_well_behaved : well_behaved BinancePriceFunction.
Proof. unfold BinancePriceFunction. price_function. Qed.
Lemma Bitstamp_well_behaved : well_behaved BitstampPriceFunction.
Proof. unfold BitstampPriceFunction. price_function. Qed.
Lemma Gate_well_behaved : well_behaved GatePriceFunction.
Proof. unfold GatePriceFunction. price_function. Qed.
Lemma Mexc_well_behaved : well_behaved MexcPriceFunction.
Proof. unfold MexcPriceFunction. price_function. Qed.
Lemma Bybit_well_behaved : well_behaved BybitPriceFunction.
Proof. unfold BybitPriceFunction. price_function. Qed.
Lemma CryptoCom_well_behaved : well_behaved CryptoComPriceFunction.
Proof. unfold CryptoComPriceFunction. price_function. Qed.
Lemma Huobi_well_behaved : well_behaved HuobiPriceFunction.
Proof. unfold HuobiPriceFunction. price_function. Qed.
Lemma Kucoin_well_behaved : well_behaved KucoinPriceFunction.
Proof. unfold KucoinPriceFunction. price_function. Qed.
Lemma Okx_well_behaved : well_behaved OkxPriceFunction.
Proof. unfold OkxPriceFunction. price_function. Qed.
Lemma Kraken_well_behaved : well_behaved KrakenPriceFunction.
Proof. unfold KrakenPriceFunction. price_function. Qed.
Lemma Fixed_well_behaved : well_behaved FixedExchangePriceFunction.
Proof. unfold FixedExchangePriceFunction. price_function. Qed.
Lemma Volatile_well_behaved now cos : well_behaved (VolatileExchangePriceFunction now cos).
Proof. unfold VolatileExchangePriceFunction. price_function. Qed.

Lemma CoinbasePro_well_behaved : well_behaved CoinbaseProPriceFunction.
Proof.
  intros response tickerToExponent resolver. unfold CoinbaseProPriceFunction, GetOnlyTickerAndExponent.
  destruct (map_to_list tickerToExponent) as [|te [|]]; cbn [mbind go_bind]; [done| |done].
  destruct (Decode_CoinbasePro _) as [?|t]; cbn [decoded mbind go_bind]; [done|].
  exact (proj1 (GetMedianPrices_well_behaved tickerToExponent resolver
    [mkStringTicker te.1 (st_AskPrice t) (st_BidPrice t) (st_LastPrice t)])).
Qed.

Lemma convert_raw_total acc raw : exists acc', convert_raw acc raw = Ok acc'.
Proof.
  destruct acc as [ts inv]. unfold convert_raw.
  destruct (Nat.eqb_spec (length raw) BitfinexResponseLength) as [Hl|]; cbn [negb]; [|by eexists].
  unfold BitfinexResponseLength in Hl.
  destruct raw as [|r0 [|r1 [|r2 [|r3 [|r4 [|r5 [|r6 [|r7 ?]]]]]]]]; try done.
  cbn. destruct r0; [|by eexists..]. destruct r1; [by eexists| |by eexists].
  destruct r3; [by eexists| |by eexists]. destruct r7; by eexists.
Qed.

Lemma Bitfinex_well_behaved : well_behaved BitfinexPriceFunction.
Proof.
  intros response tickerToExponent resolver. unfold BitfinexPriceFunction.
  destruct (Decode_Bitfinex _) as [?|raw]; cbn [decoded mbind go_bind]; [done|].
  assert (forall acc, exists acc', foldM_go convert_raw acc raw = Ok acc') as Hf.
  { induction raw as [|x raw IH]; intros acc; [by eexists|]. cbn [foldM_go].
    destruct (convert_raw_total acc x) as [acc' ->]. apply IH. }
  destruct (Hf ([], ∅)) as [[ts inv] ->]. cbn [mbind go_bind].
  destruct (GetMedianPrices_well_behaved tickerToExponent resolver ts) as [Hg He].
  destruct (GetMedianPricesFromTickers tickerToExponent resolver ts) as [m|e|q]; [|by destruct (He e)|exact Hg].
  destruct Hg as (Hd1 & Hd2 & Hd3). cbn [mbind go_bind good_outcome]. unfold maps_requested. cbn [fst snd].
  destruct (foldl_adds (dom tickerToExponent) (fun u '(ticker, err) =>
     match tickerToExponent !! ticker with Some _ => <[ticker := err]> u | None => u end) (range_of inv) m.2) as (K1 & K2 & _).
  - intros u k v. destruct (_ !! k); [|done]. rewrite dom_insert. apply union_subseteq_r.
  - intros u k v _ Hu. destruct (tickerToExponent !! k) eqn:Ek; [|done]. rewrite dom_insert.
    apply union_subseteq. split; [|done]. apply singleton_subseteq_l, elem_of_dom. by eexists.
  - done.
  - split; [done|]. split; [done|]. etrans; [exact Hd3|]. by apply union_mono_l.
Qed.

Lemma CoinbaseRates_well_behaved : well_behaved CoinbaseRatesPriceFunction.
Proof.
  intros response tickerToExponent resolver. unfold CoinbaseRatesPriceFunction.
  destruct (Decode_CoinbaseRates _) as [?|rates]; [done|].
  assert (forall l ts (u : gmap string go_error), (forall k x, (k, x) ∈ l -> k ∈ dom tickerToExponent) -> dom u ⊆ dom tickerToExponent ->
    exists ts' u', foldl (fun '(tickers, unavailable) '(ticker, _) =>
       match rate_ticker (Rates rates) ticker with
       | inl t => (tickers ++ [t], unavailable)
       | inr err => (tickers, <[ticker := err]> unavailable)
       end) (ts, u) (l : list (string * Exponent)) = (ts', u') /\ dom u' ⊆ dom tickerToExponent) as Hf.
  { induction l as [|[k x] l IH]; intros ts u Hl Hu; [by exists ts, u|]. cbn [foldl].
    destruct (rate_ticker (Rates rates) k) as [t|err]; apply IH; try done.
    1, 2: intros k' x' Hin; apply (Hl k' x'); by right.
    rewrite dom_insert. apply union_subseteq. split; [|done]. apply singleton_subseteq_l, (Hl k x). by left. }
  destruct (Hf (range_of tickerToExponent) [] ∅) as (ts & u & Efold & Hu).
  { intros k x Hin. apply elem_of_range_of in Hin. apply elem_of_dom. by eexists. }
  { rewrite dom_empty. apply empty_subseteq. }
  rewrite Efold.
  destruct (GetMedianPrices_well_behaved tickerToExponent resolver ts) as [Hg He].
  destruct (GetMedianPricesFromTickers tickerToExponent resolver ts) as [m|e|q]; [|by destruct (He e)|exact Hg].
  destruct Hg as (Hd1 & Hd2 & Hd3). cbn [mbind go_bind good_outcome]. unfold maps_requested. cbn [fst snd].
  destruct (foldl_adds (dom tickerToExponent) (fun u '(ticker, err) =>
     match u !! ticker with None => <[ticker := err]> u | Some _ => u end) (range_of m.2) u) as (K1 & K2 & K3).
  - intros u' k v. destruct (_ !! k); [done|]. rewrite dom_insert. apply union_subseteq_r.
  - intros u' k v Hin Hu'. destruct (u' !! k) eqn:Ek; [done|]. rewrite dom_insert.
    apply union_subseteq. split; [|done]. apply singleton_subseteq_l, Hd2, elem_of_dom.
    apply elem_of_range_of in Hin. by eexists.
  - done.
  - split; [done|]. split; [done|]. etrans; [exact Hd3|]. apply union_mono_l.
    intros k [v Hk]%elem_of_dom. apply (K3 ltac:(intros u' k' v'; destruct (u' !! k') eqn:E;
      [apply elem_of_dom; by eexists|rewrite dom_insert; apply elem_of_union_l, elem_of_singleton; done]) k v).
    by apply elem_of_range_of.
Qed.
End PriceFunctionLemmas.

(** ** Properties *)

(** The prices of listed tickers. For readable tickers and a resolver that does not
    panic the call succeeds. A requested pair gets the price of its last listing that
    is valid, and the error of its last listing that is not (or, without listings,
    that there is none): so every requested pair is priced or unavailable, and it is
    both exactly when it is listed both ways; other pairs do not appear. *)
Theorem GetMedianPricesFromTickers_correct `{RangeOrder} `{Validator} {T} `{Ticker T, !TickerLaw T} tickerToExponent
    resolver (tickers : list T) :
  resolver_total resolver -> exponents_ok tickerToExponent ->
  exists prices unavailable,
    GetMedianPricesFromTickers tickerToExponent resolver tickers = Ok (prices, unavailable) /\
    (forall t exponent, tickerToExponent !! t = Some exponent ->
       let outcomes := outcomes resolver t exponent tickers in
       prices !! t = last_ok outcomes /\
       (unavailable !! t = if decide (outcomes = []) then Some (no_listing t) else last_err outcomes) /\
       (is_Some (prices !! t) \/ is_Some (unavailable !! t)) /\
       (is_Some (prices !! t) /\ is_Some (unavailable !! t) <->
        exists p e, Ok p ∈ outcomes /\ Err e ∈ outcomes)) /\
    (forall t, tickerToExponent !! t = None -> prices !! t = None /\ unavailable !! t = None).
Proof.
  intros Hr He. destruct (GetMedianPrices_well_behaved tickerToExponent resolver tickers) as [Hg Hne].
  destruct (GetMedianPricesFromTickers tickerToExponent resolver tickers) as [[prices unavailable]|e|q] eqn:E;
    [|by destruct (Hne e)|by destruct Hg]. destruct Hg as (Hd1 & Hd2 & Hd3).
  exists prices, unavailable. split; [done|]. pose proof (GetMedianPrices_lookup _ _ _ _ _ E) as Hl.
  split.
  - intros t x Hx. cbv zeta. specialize (Hl t). rewrite Hx in Hl. destruct Hl as [H2' H3'].
    set (os := outcomes resolver t x tickers) in *.
    assert (unavailable !! t = if decide (os = []) then Some (no_listing t) else last_err os) as Hu.
    { rewrite H3'. destruct (decide (os = [])) as [->|Hnil]; [done|].
      destruct (last_ok os) eqn:E1; [done|]. destruct (last_err os) eqn:E2; [done|]. exfalso.
      destruct os as [|[a|e|q] os'] eqn:Eos; [done|..].
      - destruct (proj2 (last_ok_is_Some (Ok a :: os')) ltac:(exists a; by left)); congruence.
      - destruct (proj2 (last_err_is_Some (Err e :: os')) ltac:(exists e; by left)); congruence.
      - assert (Panic q ∈ outcomes resolver t x tickers) as Hin by (fold os; rewrite Eos; by left).
        apply list_elem_of_fmap in Hin as (tk & Hq & _). symmetry in Hq. by eapply ticker_price_no_panic in Hq. }
    split; [done|]. split; [done|]. split.
    + assert (t ∈ dom tickerToExponent) as Ht by (apply elem_of_dom; by eexists).
      apply Hd3, elem_of_union in Ht. by rewrite !elem_of_dom in Ht.
    + rewrite H2', Hu, last_ok_is_Some. destruct (decide (os = [])) as [->|Hnil].
      * split; [by intros [[p Hp%elem_of_nil] _]|by intros (p & e & Hp%elem_of_nil & _)].
      * rewrite last_err_is_Some. split; [intros [[p Hp] [e Hee]]; by exists p, e|].
        intros (p & e & Hp & Hee). split; by eexists.
  - intros t Hx. specialize (Hl t). by rewrite Hx in Hl.
Qed.

(** Several texts at once. *)
Lemma convert_texts (texts : list (Z * nat)) exponent :
  Forall (fun d => 0 < d.1 < 2 ^ 300 /\ (d.2 <= 27)%nat /\ (exact_price d.1 d.2 exponent <= inject_Z (2 ^ 62))%Q) texts ->
  -27 <= exponent <= 27 ->
  exists vs us, ConvertStringSliceToBigFloatSlice ((fun d => fixed_text d.1 d.2) <$> texts) = Ok vs /\
    reverseShiftBigFloatSlice vs exponent = Some us /\ (texts <> [] -> vs <> []) /\
    exists ys, ConvertBigFloatSliceToUint64Slice us = Ok ys /\
      Forall2 (fun d y => 0 <= y /\
        (exact_price d.1 d.2 exponent - 2 < inject_Z y /\ inject_Z y < exact_price d.1 d.2 exponent + 1)%Q /\
        forall X, (exact_price d.1 d.2 exponent == inject_Z X)%Q -> y = X \/ y = X - 1) texts ys.
Proof.
  intros Hall He. unfold reverseShiftBigFloatSlice. rewrite (AbsInt32_small exponent He), BigPow10_spec by lia.
  cbn [mbind option_bind]. set (pow10 := bf_SetInt _).
  induction Hall as [|[c n] texts (Hc & Hn & Hx) _ IH]; cbn [fst snd] in *.
  { exists [], []. split_and!; try done. exists []. split; [done|constructor]. }
  destruct IH as (vs & us & E1 & E2 & _ & ys & E3 & Hys). injection E2 as E2.
  destruct (converted_price_close c n exponent Hc Hn He Hx) as (v & p & y & Ev & Ep & Ey & Hy & Hlo & Hhi).
  rewrite (AbsInt32_small exponent He), BigPow10_spec in Ep by lia. injection Ep as <-. fold pow10 in Ey.
  exists (v :: vs), (reverseShiftFloatWithPow10 v pow10 exponent :: us). unfold ConvertStringSliceToBigFloatSlice in *.
  cbn [fmap list_fmap mapM_go fst snd]. rewrite Ev. cbn [mbind go_bind]. rewrite E1. cbn [mbind go_bind].
  split; [done|]. split; [by rewrite <- E2|]. split; [done|]. exists (y :: ys). unfold ConvertBigFloatSliceToUint64Slice in *.
  cbn [mapM_go]. rewrite Ey. cbn [mbind go_bind]. rewrite E3. cbn [mbind go_bind]. split; [done|].
  constructor; [|exact Hys]. cbn [fst snd]. split; [done|]. split; [done|].
  intros X EX. rewrite EX in Hlo, Hhi. change 2%Q with (inject_Z 2) in Hlo. change 1%Q with (inject_Z 1) in Hhi.
  unfold Qminus in Hlo. rewrite <- inject_Z_opp, <- inject_Z_plus, <- Zlt_Qlt in Hlo.
  rewrite <- inject_Z_plus, <- Zlt_Qlt in Hhi. lia.
Qed.

(** C22: The exchanges the daemon queries: each is registered under its own id, and its
    price function never panics and partitions what it is asked for: a successful
    call prices or marks every requested ticker and no other. The two that are
    switched off (Bybit and Coinbase Pro) behave the same. (Exponents are below 646
    million in magnitude, where a power of ten fits a big.Float: see [bf_SetInt].) *)
Theorem exchanges_well_behaved `{RangeOrder} `{Validator} `{JsonDecoders} unix_now math_Cos :
  (forall id d, StaticExchangeDetails unix_now math_Cos !! id = Some d ->
     Exchange d = id /\ well_behaved (PriceFunction d) /\ PriceFunctionLaw (PriceFunction d)) /\
  well_behaved (PriceFunction BybitDetails) /\ well_behaved (PriceFunction CoinbaseProDetails) /\
  size (StaticExchangeDetails unix_now math_Cos) = 15%nat.
Proof.
  split; [|split; [exact Bybit_well_behaved|split; [exact CoinbasePro_well_behaved|reflexivity]]].
  intros id d Hd. apply elem_of_list_to_map_2, list_elem_of_fmap in Hd as (d' & [= -> ->] & Hin).
  assert (well_behaved (PriceFunction d')) as Hw.
  { revert d' Hin. apply Forall_forall. repeat apply Forall_cons_2; [..|apply Forall_nil_2]; cbn [PriceFunction].
    all: first [exact Binance_well_behaved | exact Bitfinex_well_behaved | exact Kraken_well_behaved
      | exact Gate_well_behaved | exact Bitstamp_well_behaved | exact CryptoCom_well_behaved | exact Huobi_well_behaved
      | exact Kucoin_well_behaved | exact Okx_well_behaved | exact Mexc_well_behaved | exact CoinbaseRates_well_behaved
      | exact CoinbasePro_well_behaved | apply Volatile_well_behaved | exact Fixed_well_behaved]. }
  split; [done|]. split; [done|]. split. intros response t2e resolver prices unavailable E.
  specialize (Hw response t2e resolver). rewrite E in Hw. by destruct Hw as (H1' & H2' & _).
Qed.

(** C23: A ticker whose three texts are decimals (of up to 300 bits, 27 places and a price
    of at most 2^62 at an exponent within 27). Its price is the median of three numbers,
    each above the exact price minus two and below it plus one: the texts are read and
    scaled with 64 bits, and then the fraction is dropped. When the exact price is an
    integer the number is that integer or the one below it, and it can be the one
    below: the text 0.13 with the exponent -6 gives 129999. *)
Theorem ticker_price_close `{Validator} pair (ask bid last : Z * nat) exponent :
  let texts := [ask; bid; last] in
  let ticker := mkStringTicker pair (fixed_text ask.1 ask.2) (fixed_text bid.1 bid.2) (fixed_text last.1 last.2) in
  Forall (fun d => 0 < d.1 < 2 ^ 300 /\ (d.2 <= 27)%nat /\ (exact_price d.1 d.2 exponent <= inject_Z (2 ^ 62))%Q) texts ->
  -27 <= exponent <= 27 -> validator_Struct (ticker_fields ticker) = None ->
  (exists ys, ticker_price (Median uint64) ticker exponent = Median uint64 ys /\
     Forall2 (fun d y => 0 <= y /\
       (exact_price d.1 d.2 exponent - 2 < inject_Z y /\ inject_Z y < exact_price d.1 d.2 exponent + 1)%Q /\
       forall X, (exact_price d.1 d.2 exponent == inject_Z X)%Q -> y = X \/ y = X - 1) texts ys) /\
  ticker_price (Median uint64) (mkStringTicker "x" "0.13" "0.13" "0.13") (-6) = Ok 129999.
Proof.
  intros texts ticker Hall He Hv. split.
  - unfold ticker_price. rewrite Hv. cbn [GetAskPrice GetBidPrice GetLastPrice string_ticker mbind go_bind].
    unfold ticker. cbn [st_AskPrice st_BidPrice st_LastPrice].
    change [fixed_text ask.1 ask.2; fixed_text bid.1 bid.2; fixed_text last.1 last.2]
      with ((fun d => fixed_text d.1 d.2) <$> texts).
    destruct (convert_texts texts exponent Hall He) as (vs & us & E1 & E2 & Hne & E3). rewrite E1. cbn [mbind go_bind].
    specialize (Hne ltac:(done)).
    destruct E3 as (ys & E3 & Hys). exists ys. split; [|exact Hys].
    unfold GetUint64MedianFromReverseShiftedBigFloatValues. destruct vs as [|v vs]; [done|].
    rewrite E2, E3. done.
  - unfold ticker_price. rewrite (proj2 (validator_Struct_ok _)); [vm_compute; reflexivity|].
    cbn [ticker_fields string_ticker]. repeat apply Forall_cons_2; try apply Forall_nil_2; try done; vm_compute; reflexivity.
Qed.

(** ** Witnesses: a validator that does what the documentation says *)
Fixpoint satisfies_dec (t : tag) (v : field_value) : Decision (satisfies t v).
Proof.
  destruct t, v; cbn; solve [right; exact (fun H => H) | apply _ | apply Forall_dec; intros s; apply satisfies_dec].
Defined.
#[export] Existing Instance satisfies_dec.

Definition all_satisfied (fields : list (field_value * list tag)) : Prop :=
  Forall (fun f : field_value * list tag => Forall (fun t => satisfies t f.1) f.2) fields.
#[export] Instance all_satisfied_dec fields : Decision (all_satisfied fields).
Proof. unfold all_satisfied. apply _. Defined.

Lemma all_satisfied_iff fields :
  (if decide (all_satisfied fields) then None else Some (ErrNew "invalid")) = None <->
  Forall (fun '(v, ts) => Forall (fun t => satisfies t v) ts) fields.
Proof.
  assert (all_satisfied fields <-> Forall (fun '(v, ts) => Forall (fun t => satisfies t v) ts) fields) as E
    by (apply Forall_iff; by intros [v ts]).
  destruct (decide (all_satisfied fields)) as [Hd|Hd]; [split; [by intros _; apply E|done]|].
  split; [done|]. intros Hf. by apply E in Hf.
Qed.

Definition ex_validator : Validator := {|
  validator_Struct := fun fields => if decide (all_satisfied fields) then None else Some (ErrNew "invalid");
  validator_Struct_ok := all_satisfied_iff
|}.

(** A pair that is listed twice, once with a price of zero, and one that is not listed. *)
Definition ex_tickers : list StringTicker := [mkStringTicker "A" "2" "3" "1"; mkStringTicker "A" "0" "3" "1"].

Lemma GetMedianPricesFromTickers_correct_witness :
  resolver_total (Median uint64) /\ exponents_ok {["A" := -2; "B" := 0]} /\
  exists prices unavailable, @GetMedianPricesFromTickers ex_validator _ _ {["A" := -2; "B" := 0]} (Median uint64) _ ex_tickers =
    Ok (prices, unavailable) /\ is_Some (prices !! "A") /\ is_Some (unavailable !! "A") /\ is_Some (unavailable !! "B").
Proof.
  assert (resolver_total (Median uint64)) as Hr.
  { intros l p Hne E. destruct (Median_total uint64 l Hne) as [r Er]. rewrite Er in E. discriminate. }
  assert (exponents_ok {["A" := -2; "B" := 0]}) as He by (apply (bool_decide_unpack _); vm_compute; exact I).
  split; [exact Hr|]. split; [exact He|].
  destruct (@GetMedianPricesFromTickers_correct _ ex_validator _ _ string_ticker_law _ _ ex_tickers Hr He)
    as (prices & unavailable & E & Hlook & _).
  exists prices, unavailable. split; [exact E|].
  assert (prices = {["A" := 200]} /\ is_Some (unavailable !! "A") /\ is_Some (unavailable !! "B")) as (-> & HA & HB).
  { vm_compute in E. injection E as <- <-. split; [reflexivity|]. by split; eexists. }
  split; [by eexists|]. by split.
Defined.

Definition ex_decoders : JsonDecoders := {|
  Decode_Binance _ := inr []; Decode_Bitstamp _ := inr []; Decode_Gate _ := inr []; Decode_Mexc _ := inr [];
  Decode_CoinbasePro _ := inr (mkStringTicker "" "1" "1" "1"); Decode_Bybit _ := inr (mkBybitResponseBody 0 []);
  Decode_CryptoCom _ := inr (mkCryptoComResponseBody 0 []); Decode_Huobi _ := inr (mkHuobiResponseBody "ok" []);
  Decode_Kucoin _ := inr (mkKucoinResponseBody "200000" []); Decode_Okx _ := inr (mkOkxResponseBody "0" []);
  Decode_Kraken _ := inr (mkKrakenResponseBody [] {["XXBTZUSD" := mkKrakenTickerResult "" ["2"; "1"; "1"] ["2"; "1"; "1"] ["2"; "1"]]});
  Decode_CoinbaseRates _ := inr (mkCoinbaseRatesData "USD" {["ETH" := "0.0005"]}); Decode_Bitfinex _ := inr []
|}.

Lemma exchanges_well_behaved_witness :
  @well_behaved (@KrakenPriceFunction _ ex_validator ex_decoders) /\
  @KrakenPriceFunction _ ex_validator ex_decoders (mkHttpResponse 200 "") {["XXBTZUSD" := -5]} (Median uint64) =
    Ok ({["XXBTZUSD" := 200000]}, ∅) /\
  @CoinbaseRatesPriceFunction _ ex_validator ex_decoders (mkHttpResponse 200 "") {["ETH-USD" := -6]} (Median uint64) =
    Ok ({["ETH-USD" := 2000000000]}, ∅).
Proof.
  split; [|split; vm_compute; reflexivity].
  destruct (@exchanges_well_behaved _ ex_validator ex_decoders 0 (fun x => x)) as [H _].
  destruct (H "Kraken" (@KrakenDetails _ ex_validator ex_decoders) eq_refl) as (_ & Hw & _). exact Hw.
Defined.

Lemma ticker_price_close_witness :
  @validator_Struct ex_validator (ticker_fields (mkStringTicker "p" "0.13" "0.14" "0.13")) = None /\
  exists ys, @ticker_price ex_validator _ _ (Median uint64) (mkStringTicker "p" "0.13" "0.14" "0.13") (-6) = Median uint64 ys /\
    length ys = 3%nat.
Proof.
  assert (@validator_Struct ex_validator (ticker_fields (mkStringTicker "p" "0.13" "0.14" "0.13")) = None) as Hv
    by (vm_compute; reflexivity).
  split; [exact Hv|].
  destruct (@ticker_price_close ex_validator "p" (13, 2%nat) (14, 2%nat) (13, 2%nat) (-6)) as [(ys & E & Hys) _].
  - repeat apply Forall_cons_2; try apply Forall_nil_2; (split; [vm_compute; by split|split; [cbn; lia|vm_compute; discriminate]]).
  - lia.
  - exact Hv.
  - exists ys. split; [exact E|]. symmetry. exact (Forall2_length _ _ _ Hys).
Defined.
