(* ===== verification/LegacyDecimal.v ===== *)
(** * cosmossdk.io/math: decimals with 18 digits

    [LegacyDec] is not part of the repository: this is the class of its documented
    operations and their laws (a decimal is a rational with at most 18 digits, the
    comparisons are exact, [Mul] rounds to 18 digits, [TruncateInt] cuts the
    fraction), with an instance that shows the laws can be met. [math.Int] is [Z];
    the amounts of the program are far below its 256 bits. *)
From Stdlib Require Import QArith Qabs Lqa.
From S2P Require Import Prelude PriceMath.
Local Open Scope Z_scope.

Definition dec_unit : Q := 1 # 1000000000000000000.

Class LegacyDec (D : Type) := {
  dec_value : D -> Q;
  LegacyNewDecFromStr : string -> go_error + D;
  ToLegacyDec : Z -> D;
  dec_Mul : D -> D -> D;
  dec_GT : D -> D -> bool;
  dec_LT : D -> D -> bool;
  dec_IsZero : D -> bool;
  TruncateInt : D -> Z;

  ToLegacyDec_value : forall z, (dec_value (ToLegacyDec z) == inject_Z z)%Q;
  dec_Mul_value : forall a b, (2 * Qabs (dec_value (dec_Mul a b) - dec_value a * dec_value b) <= dec_unit)%Q;
  dec_Mul_integer : forall a z, (dec_value (dec_Mul (ToLegacyDec z) a) == inject_Z z * dec_value a)%Q;
  dec_GT_spec : forall a b, dec_GT a b = true <-> (dec_value b < dec_value a)%Q;
  dec_LT_spec : forall a b, dec_LT a b = true <-> (dec_value a < dec_value b)%Q;
  dec_IsZero_spec : forall a, dec_IsZero a = true <-> (dec_value a == 0)%Q;
  TruncateInt_spec : forall a, TruncateInt a = Qtrunc (dec_value a)
}.

Section Helpers.
Context `{LegacyDec D}.
Definition LegacyZeroDec : D := ToLegacyDec 0.
Definition LegacyOneDec : D := ToLegacyDec 1.
(** [LegacyMaxDec(a, b)]. *)
Definition LegacyMaxDec (a b : D) : D := if dec_LT a b then b else a.
Definition dec_IsPositive (a : D) : bool := dec_GT a LegacyZeroDec.

Lemma dec_GT_false a b : dec_GT a b = false <-> (dec_value a <= dec_value b)%Q.
Proof.
  pose proof (dec_GT_spec a b) as E. destruct (dec_GT a b); split; try done; intros Hx.
  - apply Qle_not_lt in Hx. by destruct Hx; apply E.
  - apply Qnot_lt_le. intros Hlt. by apply E in Hlt.
Qed.
Lemma dec_LT_false a b : dec_LT a b = false <-> (dec_value b <= dec_value a)%Q.
Proof.
  pose proof (dec_LT_spec a b) as E. destruct (dec_LT a b); split; try done; intros Hx.
  - apply Qle_not_lt in Hx. by destruct Hx; apply E.
  - apply Qnot_lt_le. intros Hlt. by apply E in Hlt.
Qed.

Lemma LegacyMaxDec_value a b :
  (dec_value a <= dec_value (LegacyMaxDec a b))%Q /\ (dec_value b <= dec_value (LegacyMaxDec a b))%Q /\
  (LegacyMaxDec a b = a \/ LegacyMaxDec a b = b).
Proof.
  unfold LegacyMaxDec. destruct (dec_LT a b) eqn:E.
  - apply dec_LT_spec in E. split; [by apply Qlt_le_weak|]. split; [apply Qle_refl|by right].
  - apply dec_LT_false in E. split; [apply Qle_refl|]. split; [done|by left].
Qed.
End Helpers.

(** ** An instance: a number of units *)
Module Units.
Definition value (d : Z) : Q := (inject_Z d * dec_unit)%Q.
Definition one : Z := 10 ^ 18.
Definition mul (a b : Z) : Z := (a * b + one / 2) / one.

Lemma value_int z : (value (z * one) == inject_Z z)%Q.
Proof. unfold value. rewrite inject_Z_mult. change (inject_Z one) with (1000000000000000000 # 1)%Q. unfold dec_unit. field. Qed.

Lemma mul_spec a b : 2 * Z.abs (mul a b * one - a * b) <= one.
Proof.
  unfold mul. change one with 1000000000000000000.
  pose proof (Z.div_mod (a * b + 1000000000000000000 / 2) 1000000000000000000 ltac:(lia)) as E.
  pose proof (Z.mod_pos_bound (a * b + 1000000000000000000 / 2) 1000000000000000000 ltac:(lia)) as Hr.
  change (1000000000000000000 / 2) with 500000000000000000 in *. lia.
Qed.

Lemma value_diff a b : (value (mul a b) - value a * value b == inject_Z (mul a b * one - a * b) * (dec_unit * dec_unit))%Q.
Proof.
  unfold value, Z.sub. rewrite inject_Z_plus, inject_Z_opp, !inject_Z_mult.
  change (inject_Z one) with (1000000000000000000 # 1)%Q. unfold dec_unit. field.
Qed.

Lemma value_mul a b : (2 * Qabs (value (mul a b) - value a * value b) <= dec_unit)%Q.
Proof.
  rewrite value_diff, Qabs_Qmult. change (Qabs (dec_unit * dec_unit)) with (dec_unit * dec_unit)%Q.
  change (Qabs (inject_Z (mul a b * one - a * b))) with (inject_Z (Z.abs (mul a b * one - a * b))).
  pose proof (mul_spec a b) as Hm. rewrite Zle_Qle, inject_Z_mult in Hm.
  assert (inject_Z one * dec_unit == 1)%Q as E1 by reflexivity.
  assert (2 * (inject_Z (Z.abs (mul a b * one - a * b)) * (dec_unit * dec_unit)) ==
    inject_Z 2 * inject_Z (Z.abs (mul a b * one - a * b)) * (dec_unit * dec_unit))%Q as -> by (change (inject_Z 2) with 2%Q; ring).
  eapply Qle_trans; [apply Qmult_le_compat_r; [exact Hm|discriminate]|].
  rewrite Qmult_assoc, E1. rewrite Qmult_1_l. apply Qle_refl.
Qed.

Lemma value_mul_int z a : (value (mul (z * one) a) == inject_Z z * value a)%Q.
Proof.
  assert (mul (z * one) a = z * a) as ->.
  { unfold mul. change one with 1000000000000000000. change (1000000000000000000 / 2) with 500000000000000000.
    symmetry. apply (Z.div_unique_pos _ _ _ 500000000000000000); lia. }
  unfold value. rewrite inject_Z_mult. ring.
Qed.

Lemma value_compare a b : (value a < value b)%Q <-> a < b.
Proof.
  unfold value. rewrite Zlt_Qlt. split; intros Hx.
  - by apply (Qmult_lt_r _ _ dec_unit).
  - by apply Qmult_lt_r.
Qed.

(** Texts are read by a function of the test at hand. *)
Definition with_reader (read : string -> go_error + Z) : LegacyDec Z.
Proof.
  refine {| dec_value := value; LegacyNewDecFromStr := read; ToLegacyDec := fun z => z * one; dec_Mul := mul;
    dec_GT := fun a b => b <? a; dec_LT := fun a b => a <? b;
    dec_IsZero := fun a => a =? 0; TruncateInt := fun a => Qtrunc (value a);
    ToLegacyDec_value := value_int; dec_Mul_value := value_mul; dec_Mul_integer := fun a z => value_mul_int z a;
    TruncateInt_spec := fun a => eq_refl |}.
  - intros a b. rewrite value_compare. apply Z.ltb_lt.
  - intros a b. rewrite value_compare. apply Z.ltb_lt.
  - intros a. rewrite Z.eqb_eq. unfold value, Qeq. cbn. lia.
Defined.
End Units.
