(* ===== verification/RemoteSigner.v ===== *)
(** * reporter/client: the keyring of the remote signer

    [remote_signer_keyring.go] and [remote_signer_export.go]: a keyring without a
    private key, whose signatures are calls of another process. The calls of that
    process are recorded, so that the theorems can speak about which were made. *)
From S2P Require Import Prelude Text.
Local Open Scope Z_scope.

(** The modules that the keyring calls: the client of the signer over its
    connection, hashes and the addresses of the SDK. Bytes are lists of integers. *)
Class SignerLibs (W Creds Conn Rec : Type) := {
  NewClientCredentials : string -> string -> string -> string -> go_error + Creds;
  grpc_NewClient : W -> string -> option Creds -> W * (go_error + Conn);
  conn_Close : W -> Conn -> W;
  rpc_GetPublicKey : W -> Conn -> W * (go_error + list Z);
  rpc_GetAddress : W -> Conn -> string -> W * (go_error + string);
  rpc_GetChainID : W -> Conn -> W * (go_error + string);
  rpc_SignTx : W -> Conn -> list Z -> W * (go_error + list Z);
  rpc_SignRaw : W -> Conn -> list Z -> W * (go_error + list Z);
  sha256_Sum256 : list Z -> list Z;
  pubKey_Address : list Z -> list Z;
  AccAddressFromBech32 : string -> go_error + list Z;
  NewOfflineRecord : string -> list Z -> go_error + Rec
}.

Section RemoteSigner.
Context {W Creds Conn Rec : Type} `{!SignerLibs W Creds Conn Rec}.

Inductive signer_event :=
  | Dialed (c : Conn)
  | CalledGetPublicKey (c : Conn)
  | CalledGetAddress (c : Conn) (prefix : string)
  | CalledGetChainID (c : Conn)
  | CalledSignTx (c : Conn) (signDoc : list Z)
  | CalledSignRaw (c : Conn) (msg : list Z)
  | ClosedConn (c : Conn).

Record SignerSt := mkSignerSt { sg_world : W; sg_events : list signer_event }.

(** A call of the signer, and the event it leaves. *)
Definition rpc {A} (e : signer_event) (call : W -> W * A) (st : SignerSt) : SignerSt * A :=
  let '(w, r) := call (sg_world st) in (mkSignerSt w (sg_events st ++ [e]), r).

Record remoteSignerKeyring := mkRemoteSignerKeyring {
  keyName : string; rk_pubKey : list Z; signerConn : Conn; useSignTx : bool
}.

Definition newRemoteSignerKeyring (name : string) (pubKeyBytes : list Z) (c : Conn) (signTx : bool) : go remoteSignerKeyring :=
  if negb (bool_decide (length pubKeyBytes = 33%nat)) then
    Err (ErrNew ("newRemoteSignerKeyring: expected 33-byte compressed public key, got " +:+ pretty (length pubKeyBytes)))
  else Ok (mkRemoteSignerKeyring name pubKeyBytes c signTx).

(** ** The operations that work *)
Definition Backend : string := "remote-signer".

Definition record_of (name : string) (r : remoteSignerKeyring) : go Rec :=
  match NewOfflineRecord name (rk_pubKey r) with inl err => Err err | inr rec => Ok rec end.

Definition List_ (r : remoteSignerKeyring) : go (list Rec) :=
  rec ← record_of (keyName r) r; mret [rec].

Definition Key (r : remoteSignerKeyring) (uid : string) : go Rec :=
  if negb (bool_decide (uid = keyName r)) then Err (ErrNew ("remoteSignerKeyring.Key: key " +:+ quoted uid +:+ " not found"))
  else match record_of uid r with
       | Err err => Err (wrapf "remoteSignerKeyring.Key" err)
       | x => x
       end.

Definition is_own (r : remoteSignerKeyring) (address : list Z) : bool := bool_decide (pubKey_Address (rk_pubKey r) = address).

Definition KeyByAddress (r : remoteSignerKeyring) (address : list Z) : go Rec :=
  if is_own r address then Key r (keyName r)
  else Err (ErrNew "remoteSignerKeyring.KeyByAddress: address not found").

(** The signature and the public key. *)
Definition Sign (r : remoteSignerKeyring) (uid : string) (msg : list Z) (st : SignerSt) : SignerSt * go (list Z * list Z) :=
  if negb (bool_decide (uid = keyName r)) then
    (st, Err (ErrNew ("remoteSignerKeyring.Sign: key " +:+ quoted uid +:+ " not found")))
  else if useSignTx r then
    match rpc (CalledSignTx (signerConn r) msg) (fun w => rpc_SignTx w (signerConn r) msg) st with
    | (st, inl err) => (st, Err (wrapf "remoteSignerKeyring.Sign: SignTx RPC failed" err))
    | (st, inr sig) => (st, Ok (sig, rk_pubKey r))
    end
  else
    let hash := sha256_Sum256 msg in
    match rpc (CalledSignRaw (signerConn r) hash) (fun w => rpc_SignRaw w (signerConn r) hash) st with
    | (st, inl err) => (st, Err (wrapf "remoteSignerKeyring.Sign: SignRaw RPC failed" err))
    | (st, inr sig) => (st, Ok (sig, rk_pubKey r))
    end.

Definition SignByAddress (r : remoteSignerKeyring) (address msg : list Z) (st : SignerSt) : SignerSt * go (list Z * list Z) :=
  if is_own r address then Sign r (keyName r) msg st
  else (st, Err (ErrNew "remoteSignerKeyring.SignByAddress: address mismatch")).

(** ** The operations that do not *)
Inductive unsupported_op :=
  | Delete | DeleteByAddress | Rename | NewMnemonic | NewAccount | SaveLedgerKey | SaveOfflineKey | SaveMultisig
  | ImportPrivKey | ImportPrivKeyHex | ImportPubKey | MigrateAll | ExportPubKeyArmor | ExportPubKeyArmorByAddress
  | ExportPrivKeyArmor | ExportPrivKeyArmorByAddress.

Definition op_name (o : unsupported_op) : string :=
  match o with
  | Delete => "Delete" | DeleteByAddress => "DeleteByAddress" | Rename => "Rename" | NewMnemonic => "NewMnemonic"
  | NewAccount => "NewAccount" | SaveLedgerKey => "SaveLedgerKey" | SaveOfflineKey => "SaveOfflineKey"
  | SaveMultisig => "SaveMultisig" | ImportPrivKey => "ImportPrivKey" | ImportPrivKeyHex => "ImportPrivKeyHex"
  | ImportPubKey => "ImportPubKey" | MigrateAll => "MigrateAll" | ExportPubKeyArmor => "ExportPubKeyArmor"
  | ExportPubKeyArmorByAddress => "ExportPubKeyArmorByAddress" | ExportPrivKeyArmor => "ExportPrivKeyArmor"
  | ExportPrivKeyArmorByAddress => "ExportPrivKeyArmorByAddress"
  end.

Definition unsupported (o : unsupported_op) : go unit :=
  Err (ErrNew ("remoteSignerKeyring: " +:+ op_name o +:+ " not supported")).

(** ** Start *)
Definition fetchRemoteSignerChainID (c : Conn) (st : SignerSt) : SignerSt * string :=
  match rpc (CalledGetChainID c) (fun w => rpc_GetChainID w c) st with
  | (st, inl _) => (st, "")
  | (st, inr chainID) => (st, chainID)
  end.

Definition remoteSignerAccountAddress (pubKey : list Z) (bech32Addr : string) : go (list Z) :=
  match AccAddressFromBech32 bech32Addr with
  | inl err => Err (wrapf ("parse address " +:+ quoted bech32Addr +:+ " from remote signer") err)
  | inr accAddr =>
      if negb (bool_decide (pubKey_Address pubKey = accAddr)) then
        Err (ErrNew ("remote signer address " +:+ quoted bech32Addr +:+ " does not match fetched public key"))
      else Ok accAddr
  end.

(** What follows the connection, up to [ok = true]. *)
Definition with_connection (name : string) (signTx : bool) (c : Conn) (st : SignerSt) :
    SignerSt * go (remoteSignerKeyring * list Z * string) :=
  match rpc (CalledGetPublicKey c) (fun w => rpc_GetPublicKey w c) st with
  | (st, inl err) => (st, Err (wrapf "GetPublicKey from remote signer" err))
  | (st, inr pubKey) =>
      match rpc (CalledGetAddress c "tellor") (fun w => rpc_GetAddress w c "tellor") st with
      | (st, inl err) => (st, Err (wrapf "GetAddress from remote signer" err))
      | (st, inr addr) =>
          match (kr ← newRemoteSignerKeyring name pubKey c signTx;
                 accAddr ← remoteSignerAccountAddress (rk_pubKey kr) addr; mret (kr, accAddr)) with
          | Ok (kr, accAddr) => let '(st, chainID) := fetchRemoteSignerChainID c st in (st, Ok (kr, accAddr, chainID))
          | Err err => (st, Err err)
          | Panic p => (st, Panic p)
          end
      end
  end.

Definition close_conn (c : Conn) (st : SignerSt) : SignerSt :=
  mkSignerSt (conn_Close (sg_world st) c) (sg_events st ++ [ClosedConn c]).

Definition newKeyringFromRemoteSigner (name addr caCert clientCert clientKey : string) (signTx : bool) (st : SignerSt) :
    SignerSt * go (remoteSignerKeyring * list Z * string * Conn) :=
  match (if bool_decide (caCert <> "") && bool_decide (clientCert <> "") && bool_decide (clientKey <> "") then
           match NewClientCredentials caCert clientCert clientKey "bridge-signer" with
           | inl err => inl err
           | inr creds => inr (Some creds)
           end
         else inr None) with
  | inl err => (st, Err (wrapf "load mTLS credentials" err))
  | inr creds =>
      match grpc_NewClient (sg_world st) addr creds with
      | (w, inl err) => (mkSignerSt w (sg_events st), Err (wrapf ("dial remote signer at " +:+ addr) err))
      | (w, inr c) =>
          match with_connection name signTx c (mkSignerSt w (sg_events st ++ [Dialed c])) with
          | (st, Ok (kr, accAddr, chainID)) => (st, Ok (kr, accAddr, chainID, c))
          | (st, Err err) => (close_conn c st, Err err)
          | (st, Panic p) => (close_conn c st, Panic p)
          end
      end
  end.

(** [NewRemoteSignerKeyringTx] drops the chain id. *)
Definition NewRemoteSignerKeyringTx (name addr caCert clientCert clientKey : string) (st : SignerSt) :
    SignerSt * go (remoteSignerKeyring * list Z * Conn) :=
  let '(st, r) := newKeyringFromRemoteSigner name addr caCert clientCert clientKey true st in
  (st, '(kr, accAddr, _, c) ← r; mret (kr, accAddr, c)).

(** ** What a client does with the keyring *)
Inductive keyring_op :=
  | OpList
  | OpKey (uid : string)
  | OpKeyByAddress (address : list Z)
  | OpSign (uid : string) (msg : list Z)
  | OpSignByAddress (address msg : list Z)
  | OpUnsupported (o : unsupported_op).

Definition keyring_step (r : remoteSignerKeyring) (st : SignerSt) (op : keyring_op) : SignerSt :=
  match op with
  | OpSign uid msg => (Sign r uid msg st).1
  | OpSignByAddress address msg => (SignByAddress r address msg st).1
  | _ => st
  end.
Definition keyring_run (r : remoteSignerKeyring) (ops : list keyring_op) (st : SignerSt) : SignerSt :=
  foldl (keyring_step r) st ops.

(** The document that an operation asks a signature for, if the key is the keyring's. *)
Definition signed_by (r : remoteSignerKeyring) (op : keyring_op) : option (list Z) :=
  match op with
  | OpSign uid msg => if bool_decide (uid = keyName r) then Some msg else None
  | OpSignByAddress address msg => if is_own r address then Some msg else None
  | _ => None
  end.

Definition sign_event (r : remoteSignerKeyring) (doc : list Z) : signer_event :=
  if useSignTx r then CalledSignTx (signerConn r) doc else CalledSignRaw (signerConn r) (sha256_Sum256 doc).

(** *** Lemmas *)
Lemma rpc_events {A} e (call : W -> W * A) st : sg_events (rpc e call st).1 = sg_events st ++ [e].
Proof. unfold rpc. by destruct (call _). Qed.

Lemma Sign_own r msg st :
  sg_events (Sign r (keyName r) msg st).1 = sg_events st ++ [sign_event r msg].
Proof.
  unfold Sign, sign_event. rewrite bool_decide_true by done. cbn. destruct (useSignTx r); cbn;
    match goal with |- context [rpc ?e ?c st] => pose proof (rpc_events e c st) as He; destruct (rpc e c st) as [st' [?|?]] end;
    exact He.
Qed.

Lemma keyring_step_events r st op :
  sg_events (keyring_step r st op) = sg_events st ++ option_list (sign_event r <$> signed_by r op).
Proof.
  destruct op; cbn; rewrite ?app_nil_r; try done.
  - case_bool_decide as E; cbn; [by subst; apply Sign_own|]. unfold Sign. rewrite bool_decide_false by done. by rewrite app_nil_r.
  - unfold SignByAddress. destruct (is_own r address); [apply Sign_own|]. by rewrite app_nil_r.
Qed.

Lemma keyring_run_events r ops st :
  sg_events (keyring_run r ops st) = sg_events st ++ (sign_event r <$> omap (signed_by r) ops).
Proof.
  revert st. induction ops as [|op ops IH]; intros st; cbn; [by rewrite app_nil_r|].
  unfold keyring_run in IH. rewrite IH, keyring_step_events, <- app_assoc. f_equal.
  by destruct (signed_by r op).
Qed.

Definition start_calls (c : Conn) : list signer_event :=
  [CalledGetPublicKey c; CalledGetAddress c "tellor"; CalledGetChainID c].

Lemma with_connection_events name signTx c st :
  exists l, sg_events (with_connection name signTx c st).1 = sg_events st ++ l /\ (exists k, start_calls c = l ++ k) /\
    (is_ok (with_connection name signTx c st).2 = true -> l = start_calls c).
Proof.
  unfold with_connection, start_calls.
  match goal with |- context [rpc ?e ?f st] => pose proof (rpc_events e f st) as E1; destruct (rpc e f st) as [st1 [err|pk]] end; cbn in E1 |- *.
  { eexists. split; [exact E1|]. split; [by eexists|done]. }
  match goal with |- context [rpc ?e ?f st1] => pose proof (rpc_events e f st1) as E2; destruct (rpc e f st1) as [st2 [err|addr]] end;
    cbn in E2 |- *; rewrite E1, <- app_assoc in E2.
  { eexists. split; [exact E2|]. split; [by eexists|done]. }
  destruct (newRemoteSignerKeyring name pk c signTx) as [kr|err|p] eqn:Ek; cbn;
    [|eexists; split; [exact E2|]; split; [by eexists|done]..].
  destruct (remoteSignerAccountAddress (rk_pubKey kr) addr) as [a|err|p] eqn:Ea; cbn;
    [|eexists; split; [exact E2|]; split; [by eexists|done]..].
  unfold fetchRemoteSignerChainID.
  match goal with |- context [rpc ?e ?f st2] => pose proof (rpc_events e f st2) as E3; destruct (rpc e f st2) as [st3 [err|id]] end;
    cbn in E3 |- *; rewrite E2, <- app_assoc in E3; eexists; (split; [exact E3|]); (split; [by exists []|done]).
Qed.

Lemma with_connection_Ok name signTx c st st' kr a id :
  with_connection name signTx c st = (st', Ok (kr, a, id)) ->
  keyName kr = name /\ signerConn kr = c /\ useSignTx kr = signTx /\ length (rk_pubKey kr) = 33%nat /\ a = pubKey_Address (rk_pubKey kr).
Proof.
  unfold with_connection. intros E. destruct (rpc _ _ st) as [st1 [?|pk]]; [done|]. destruct (rpc _ _ st1) as [st2 [?|addr]]; [done|].
  destruct (newRemoteSignerKeyring name pk c signTx) as [kr'|?|?] eqn:Ek; cbn in E; [|done..].
  destruct (remoteSignerAccountAddress (rk_pubKey kr') addr) as [a'|?|?] eqn:Ea; cbn in E; [|done..].
  destruct (fetchRemoteSignerChainID c st2) as [st3 id']. simplify_eq.
  unfold newRemoteSignerKeyring in Ek. unfold remoteSignerAccountAddress in Ea.
  destruct (AccAddressFromBech32 addr) as [?|acc]; [done|].
  case_bool_decide as Hl; [|done]. case_bool_decide; [|done]. cbn in *. simplify_eq/=. by repeat split.
Qed.

Lemma with_connection_no_panic name signTx c st p : (with_connection name signTx c st).2 <> Panic p.
Proof.
  unfold with_connection, newRemoteSignerKeyring, remoteSignerAccountAddress, fetchRemoteSignerChainID.
  repeat (case_match; cbn in *; simplify_eq/=; try done).
Qed.

(** *** The start and the life of the keyring *)
Lemma start_events name addr ca cert key signTx st st' (r : go (remoteSignerKeyring * list Z * string * Conn)) :
  newKeyringFromRemoteSigner name addr ca cert key signTx st = (st', r) ->
  match r with
  | Ok (kr, acc, _, c) =>
      sg_events st' = sg_events st ++ Dialed c :: start_calls c /\ keyName kr = name /\ signerConn kr = c /\
    useSignTx kr = signTx /\ length (rk_pubKey kr) = 33%nat /\ acc = pubKey_Address (rk_pubKey kr)
  | Err _ =>
      sg_events st' = sg_events st \/
      exists c l, sg_events st' = sg_events st ++ Dialed c :: l ++ [ClosedConn c] /\ (exists k, start_calls c = l ++ k)
  | Panic _ => False
  end.
Proof.
  unfold newKeyringFromRemoteSigner. match goal with |- context [if ?b then ?x else ?y] => destruct (if b then x else y) as [err|creds] end; [intros; simplify_eq; by left|].
  destruct (grpc_NewClient (sg_world st) addr creds) as [w [err|c]]; [intros; simplify_eq; by left|].
  set (st0 := mkSignerSt w (sg_events st ++ [Dialed c])). pose proof (with_connection_events name signTx c st0) as (l & El & Hp & Hok).
  pose proof (with_connection_no_panic name signTx c st0) as Hnp.
  destruct (with_connection name signTx c st0) as [st1 [[[kr acc] id]|err|p]] eqn:Ew; intros; simplify_eq; cbn in *.
  - rewrite El, (Hok eq_refl), <- app_assoc. split; [done|]. by eapply with_connection_Ok.
  - right. exists c, l. split; [|done]. by rewrite El, <- !app_assoc.
  - by eapply Hnp.
Qed.

(** The start of the keyring leaves a connection open exactly when it returns one:
    every error after the dial closes it, and then nothing more is called. A keyring it
    returns is for the account of the fetched public key, and whatever a client does
    with it reaches the signer only as signatures for its own key, in order; with
    [useSignTx], as every caller of the repository sets it, each of them is a SignTx
    of the very document, never a blind SignRaw. *)
Theorem remote_signer_correct name addr ca cert key signTx st st' (r : go (remoteSignerKeyring * list Z * string * Conn)) :
  newKeyringFromRemoteSigner name addr ca cert key signTx st = (st', r) ->
  match r with
  | Ok (kr, acc, _, c) =>
      keyName kr = name /\ length (rk_pubKey kr) = 33%nat /\ acc = pubKey_Address (rk_pubKey kr) /\
      sg_events st' = sg_events st ++ Dialed c :: start_calls c /\
    forall ops, sg_events (keyring_run kr ops st') = sg_events st' ++
        ((fun doc => if signTx then CalledSignTx c doc else CalledSignRaw c (sha256_Sum256 doc)) <$> omap (signed_by kr) ops)
  | Err _ =>
      sg_events st' = sg_events st \/
      exists c l, sg_events st' = sg_events st ++ Dialed c :: l ++ [ClosedConn c] /\ (exists k, start_calls c = l ++ k)
  | Panic _ => False
  end.
Proof.
  intros E. pose proof (start_events _ _ _ _ _ _ _ _ _ E) as H. destruct r as [[[[kr acc] id] c]|err|p]; [|done..].
  destruct H as (He & Hn & Hc & Hs & Hl & Ha). do 4 (split; [done|]).
  intros ops. rewrite keyring_run_events. f_equal. apply list_fmap_ext. intros _ doc _.
  unfold sign_event. by rewrite Hs, Hc.
Qed.

End RemoteSigner.

(** ** Witness: a signer that answers *)
#[local] Instance ex_libs : SignerLibs nat unit nat string := {|
  NewClientCredentials := fun _ _ _ _ => inr tt;
  grpc_NewClient := fun w _ _ => (S w, inr w);
  conn_Close := fun w _ => w;
  rpc_GetPublicKey := fun w _ => (w, inr (repeat 2 33));
  rpc_GetAddress := fun w _ prefix => (w, inr (prefix +:+ "1abc"));
  rpc_GetChainID := fun w _ => (w, inr "tellor-1");
  rpc_SignTx := fun w _ doc => (w, inr (doc ++ doc));
  rpc_SignRaw := fun w _ msg => (w, inl (ErrNew "SignRaw is disabled"));
  sha256_Sum256 := fun bs => take 1 bs;
  pubKey_Address := fun bs => take 3 bs;
  AccAddressFromBech32 := fun s => if bool_decide (s = "tellor1abc") then inr [2; 2; 2] else inl (ErrNew "decoding bech32 failed");
  NewOfflineRecord := fun name _ => inr name |}.

Definition ex_started := newKeyringFromRemoteSigner "reporter" "127.0.0.1:9191" "" "" "" true (mkSignerSt 0%nat []).

Lemma remote_signer_correct_witness :
  exists kr st, ex_started = (st, Ok (kr, [2; 2; 2], "tellor-1", 0%nat)) /\
    sg_events (keyring_run kr [OpSign "reporter" [7]; OpSign "other" [8]; OpSignByAddress [2; 2; 2] [9]] st) =
      sg_events st ++ [CalledSignTx 0%nat [7]; CalledSignTx 0%nat [9]].
Proof.
  eexists _, _. split; [reflexivity|].
  pose proof (remote_signer_correct "reporter" "127.0.0.1:9191" "" "" "" true (mkSignerSt 0%nat []) _ _ eq_refl) as (_ & _ & _ & _ & H).
  exact (H [OpSign "reporter" [7]; OpSign "other" [8]; OpSignByAddress [2; 2; 2] [9]]).
Defined.
