(* ===== verification/PriceGuard.v ===== *)
(** * reporter/client/price_guard.go

    The guard that blocks a report whose price moved too far from the last one.
    Prices are IEEE floats ([SpecFloat], binary64), so the comparison is the one
    the program makes, rounding included. The guard is refined to the history of
    the reports it was asked about. *)
From S2P Require Import Prelude Hex Float64.
Local Open Scope Z_scope.

Record PriceGuard := mkPriceGuard {
  lastPrices : gmap string float64;
  lastUpdateTime : gmap string Time;
  globalThreshold : float64;
  queryThresholds : gmap string float64;
  maxAge : Duration;
  enabled : bool;
  updateOnBlocked : bool
}.

Definition NewPriceGuard (globalThreshold : float64) (maxAge : Duration) (enabled updateOnBlocked : bool) : PriceGuard :=
  mkPriceGuard ∅ ∅ globalThreshold ∅ maxAge enabled updateOnBlocked.

Definition UpdateOnBlocked (pg : PriceGuard) : bool := updateOnBlocked pg.

(** [math.Abs(newPrice-lastPrice) / lastPrice]. *)
Definition price_change (lastPrice newPrice : float64) : float64 :=
  fdiv (SFabs (fsub newPrice lastPrice)) lastPrice.

Section PriceGuard.
(** [utils.QueryIDFromData], and the text of a reason, which formats the change, the
    threshold and the two prices. *)
Variable QueryIDFromData : list Z -> list Z.
Variable reason_text : float64 -> float64 -> float64 -> float64 -> string.

Definition query_key (queryData : list Z) : string := hex_EncodeToString (QueryIDFromData queryData).

Definition ShouldSubmit (pg : PriceGuard) (now : Time) (queryData : list Z) (newPrice : float64) : bool * string :=
  if negb (enabled pg) then (true, "")
  else
    let queryIdHex := query_key queryData in
    let threshold := default (globalThreshold pg) (queryThresholds pg !! queryIdHex) in
    match lastPrices pg !! queryIdHex with
    | None => (true, "")
    | Some lastPrice =>
        let expired :=
          match lastUpdateTime pg !! queryIdHex with
          | Some lastTime => (0 <? maxAge pg) && (maxAge pg <? time_Sub now lastTime)
          | None => false
          end in
        if expired then (true, "")
        else if SFeqb lastPrice fzero then (true, "")
        else
          let change := price_change lastPrice newPrice in
          if fgt change threshold then (false, reason_text change threshold lastPrice newPrice)
          else (true, "")
    end.

Definition UpdateLastPrice (pg : PriceGuard) (now : Time) (queryData : list Z) (price : float64) : PriceGuard :=
  if negb (enabled pg) then pg
  else
    let queryIdHex := query_key queryData in
    mkPriceGuard (<[queryIdHex := price]> (lastPrices pg)) (<[queryIdHex := now]> (lastUpdateTime pg))
      (globalThreshold pg) (queryThresholds pg) (maxAge pg) (enabled pg) (updateOnBlocked pg).

(** A report that the guard is asked about: the query, the price, and the times of
    the check and of the update. *)
Record attempt := mkAttempt { a_data : list Z; a_price : float64; a_check : Time; a_update : Time }.

(** The use of the guard by [GenerateAndBroadcastSpotPriceReport]. *)
Definition guard_report (pg : PriceGuard) (a : attempt) : PriceGuard * (bool * string) :=
  if enabled pg && fgt (a_price a) fzero then
    let '(shouldSubmit, reason) := ShouldSubmit pg (a_check a) (a_data a) (a_price a) in
    (if shouldSubmit || UpdateOnBlocked pg then UpdateLastPrice pg (a_update a) (a_data a) (a_price a) else pg,
     (shouldSubmit, reason))
  else (pg, (true, "")).

(** ** Histories

    The decisions that the guard makes on a sequence of reports. *)
Fixpoint decisions (pg : PriceGuard) (l : list attempt) : list (attempt * bool) :=
  match l with
  | [] => []
  | a :: l => let '(pg, (ok, _)) := guard_report pg a in (a, ok) :: decisions pg l
  end.

(** The attempts on a query that set its baseline. *)
Definition sets_baseline (on_blocked : bool) (key : string) (d : attempt * bool) : Prop :=
  query_key (a_data d.1) = key /\ fgt (a_price d.1) fzero = true /\ d.2 || on_blocked = true.
#[local] Instance sets_baseline_dec on_blocked key d : Decision (sets_baseline on_blocked key d).
Proof using Type. unfold sets_baseline. apply _. Defined.

Definition baseline (on_blocked : bool) (history : list (attempt * bool)) (key : string) : option attempt :=
  fst <$> last (filter (sets_baseline on_blocked key) history).

(** The specification of a decision, from the decisions before it. *)
Definition blocked (threshold : float64) (maxAge : Duration) (on_blocked : bool)
    (history : list (attempt * bool)) (a : attempt) : Prop :=
  fgt (a_price a) fzero = true /\
  exists a0, baseline on_blocked history (query_key (a_data a)) = Some a0 /\
    ~ (0 < maxAge < time_Sub (a_check a) (a_update a0)) /\
    fgt (price_change (a_price a0) (a_price a)) threshold = true.

(** The guard holds the baseline of every query. *)
Definition represents (threshold : float64) (maxAge : Duration) (on_blocked : bool)
    (history : list (attempt * bool)) (pg : PriceGuard) : Prop :=
  exists prices times, pg = mkPriceGuard prices times threshold ∅ maxAge true on_blocked /\
    forall key, prices !! key = a_price <$> baseline on_blocked history key /\
                times !! key = a_update <$> baseline on_blocked history key.

Lemma baseline_snoc on_blocked history d key :
  baseline on_blocked (history ++ [d]) key =
    if decide (sets_baseline on_blocked key d) then Some d.1 else baseline on_blocked history key.
Proof using Type.
  clear reason_text.
  unfold baseline. rewrite filter_app. cbn. case_decide; cbn; [by rewrite last_snoc|by rewrite app_nil_r].
Qed.

Lemma baseline_positive on_blocked history key a0 :
  baseline on_blocked history key = Some a0 -> fgt (a_price a0) fzero = true.
Proof using Type.
  clear reason_text.
  unfold baseline. intros ([a ok] & Hl & ->)%fmap_Some. apply last_Some in Hl as [l Hl].
  assert ((a, ok) ∈ filter (sets_baseline on_blocked key) history) as H by (rewrite Hl; set_solver).
  apply list_elem_of_filter in H as [(_ & Hp & _) _]. exact Hp.
Qed.

Lemma positive_not_zero x : fgt x fzero = true -> SFeqb x fzero = false.
Proof using Type. clear. by destruct x as [[]|[]| |[]]. Qed.

Lemma guard_report_spec threshold age on_blocked history pg a :
  represents threshold age on_blocked history pg ->
  let '(pg', (ok, _)) := guard_report pg a in
  (ok = false <-> blocked threshold age on_blocked history a) /\
  represents threshold age on_blocked (history ++ [(a, ok)]) pg'.
Proof using Type.
  intros (prices & times & -> & Hb). unfold guard_report. cbn [enabled andb].
  destruct (fgt (a_price a) fzero) eqn:Ep; cycle 1.
  { split; [split; [done|intros [Hp _]; congruence]|]. exists prices, times. split; [done|]. intros key.
    rewrite baseline_snoc, decide_False; [apply Hb|]. intros (_ & Hp & _). cbn in Hp. congruence. }
  destruct (ShouldSubmit _ _ _ _) as [ok reason] eqn:Es.
  assert (ok = false <-> blocked threshold age on_blocked history a) as Hok.
  { unfold ShouldSubmit in Es. cbn in Es. destruct (Hb (query_key (a_data a))) as [Hprice Htime].
    rewrite Hprice, Htime, lookup_empty in Es. cbn [default] in Es. unfold blocked.
    destruct (baseline on_blocked history (query_key (a_data a))) as [a0|] eqn:E0; cbn in Es.
    - rewrite (positive_not_zero _ (baseline_positive _ _ _ _ E0)) in Es.
      destruct ((0 <? age) && (age <? time_Sub (a_check a) (a_update a0))) eqn:Ea.
      + injection Es as <- _. split; [done|]. intros (_ & a1 & [= <-] & Hn & _). destruct Hn. lia.
      + destruct (fgt (price_change _ _) threshold) eqn:Ef; injection Es as <- _; (split; [intros Hd|]); try done.
        * split; [done|]. exists a0. split_and!; [done|lia|done].
        * intros (_ & a1 & [= <-] & _ & H). congruence.
    - injection Es as <- _. split; [done|]. by intros (_ & a1 & [=] & _). }
  split; [exact Hok|]. unfold UpdateOnBlocked, UpdateLastPrice. cbn [updateOnBlocked enabled negb].
  destruct (ok || on_blocked) eqn:Eo.
  - eexists _, _. split; [done|]. intros key. cbn [lastPrices lastUpdateTime]. rewrite baseline_snoc.
    destruct (decide (query_key (a_data a) = key)) as [<-|Hk].
    + rewrite !lookup_insert_eq, decide_True by done. done.
    + rewrite !lookup_insert_ne, decide_False by first [done|by intros [? _]]. apply Hb.
  - exists prices, times. split; [done|]. intros key. rewrite baseline_snoc, decide_False; [apply Hb|].
    intros (_ & _ & Hd). cbn in Hd. congruence.
Qed.

Lemma decisions_length pg l : length (decisions pg l) = length l.
Proof using Type.
  revert pg. induction l as [|a l IH]; intros pg; cbn; [done|].
  destruct (guard_report pg a) as [pg' [ok r]]. cbn. by rewrite IH.
Qed.

Lemma decisions_spec threshold age on_blocked history pg l :
  represents threshold age on_blocked history pg ->
  forall i a ok, decisions pg l !! i = Some (a, ok) ->
    (ok = false <-> blocked threshold age on_blocked (history ++ take i (decisions pg l)) a).
Proof using Type.
  revert history pg. induction l as [|a l IH]; intros history pg Hr i a' ok' Hi; [done|].
  cbn in *. pose proof (guard_report_spec _ _ _ _ _ a Hr) as Hs.
  destruct (guard_report pg a) as [pg' [ok r]]. destruct Hs as [Hok Hr'].
  destruct i as [|i]; cbn in *.
  - injection Hi as <- <-. by rewrite app_nil_r.
  - rewrite (IH _ _ Hr' i a' ok' Hi). by rewrite <- app_assoc.
Qed.

Lemma change_of_same p threshold :
  fgt p fzero = true -> fgt threshold fzero = true -> (exists m e, p = S754_finite false m e) ->
  fgt (price_change p p) threshold = false.
Proof using Type.
  clear. intros _ Ht (m & e & ->). unfold price_change, fsub, fdiv. cbn [SFsub].
  rewrite Z.sub_diag. cbn. by destruct threshold as [[]|[]| |[]].
Qed.

(** C18: The guard, from its creation and on any sequence of reports: a report is
    blocked exactly when its price is positive and differs, relatively to the price
    of the last report of the query that set the baseline, by more than the
    threshold, and that report is not older than the maximum age. The baseline is
    set by the reports that were allowed, and also by the blocked ones when the
    guard updates on blocked: the same price, asked about again, is then allowed. *)
Theorem guard_correct threshold age on_blocked l :
  let ds := decisions (NewPriceGuard threshold age true on_blocked) l in
  length ds = length l /\
  (forall i a ok, ds !! i = Some (a, ok) ->
     (ok = false <-> blocked threshold age on_blocked (take i ds) a)) /\
  (on_blocked = true -> fgt threshold fzero = true ->
   forall i a ok a' ok', ds !! i = Some (a, ok) -> ds !! S i = Some (a', ok') ->
     query_key (a_data a) = query_key (a_data a') -> a_price a = a_price a' ->
     (exists m e, a_price a = S754_finite false m e) -> ok' = true).
Proof using Type.
  intros ds.
  assert (represents threshold age on_blocked [] (NewPriceGuard threshold age true on_blocked)) as Hr
    by (exists ∅, ∅; done).
  pose proof (decisions_spec _ _ _ _ _ l Hr) as Hs. split_and!.
  - apply decisions_length.
  - exact Hs.
  - intros -> Ht i a ok a' ok' Hi Hi' Hk Hp Hf. destruct ok'; [done|].
    destruct (proj1 (Hs (S i) a' false Hi') eq_refl) as (Hpos & a0 & Hb & _ & Hd).
    fold ds in Hb. cbn [app] in Hb. rewrite (take_S_r _ _ _ Hi), baseline_snoc in Hb.
    rewrite decide_True in Hb; cycle 1.
    { unfold sets_baseline. cbn. rewrite Hp, Hk. split_and!; [done..|]. by rewrite orb_true_r. }
    injection Hb as <-. cbn in Hd. rewrite Hp, change_of_same in Hd; try done. by rewrite <- Hp.
Qed.
End PriceGuard.

(** ** Witness: a threshold of 1/2, and prices 4, 8 and 8. *)
Definition ex_power (e : Z) : float64 := S754_finite false (2 ^ 52) (e - 52).
Definition ex_attempt (e : Z) (t : Time) : attempt := mkAttempt [1] (ex_power e) t t.
Definition ex_attempts := [ex_attempt 2 10; ex_attempt 3 11; ex_attempt 3 12].

Lemma guard_correct_witness :
  snd <$> decisions (fun d => d) (fun _ _ _ _ => "") (NewPriceGuard (ex_power (-1)) 100 true true) ex_attempts
    = [true; false; true] /\
  true = true.
Proof.
  split; [reflexivity|].
  pose proof (guard_correct (fun d => d) (fun _ _ _ _ => "") (ex_power (-1)) 100 true ex_attempts) as (_ & _ & H).
  exact (H eq_refl eq_refl 1%nat (ex_attempt 3 11) false (ex_attempt 3 12) true eq_refl eq_refl eq_refl eq_refl
           (ex_intro _ (2 ^ 52)%positive (ex_intro _ (3 - 52) eq_refl))).
Defined.
