(* ===== verification/ReporterConfig.v ===== *)
(** * reporter/client: configuration and keyring

    [Start] of client.go up to the tasks: the validation of the flags, and
    [setupKeyring] with what it calls. The values of the flags (package viper), the
    environment and the keyrings are arguments. *)
From Stdlib Require Import Ascii QArith Floats.SpecFloat.
From S2P Require Import Prelude Text Hex Float64 EncodePrice PriceMath LegacyDecimal BigFloat PriceGuard RemoteSigner.
Local Open Scope Z_scope.

(** ** Texts *)

(** [strconv.Atoi]: an optional sign and decimal digits, within int64. *)
Definition Atoi (s : string) : option Z :=
  n ← bigInt_SetString s; if bool_decide (in_range int64 n) then Some n else None.

(** [strings.SplitN(s, ":", 2)], when it has two parts. *)
Fixpoint split_colon (s : string) : option (string * string) :=
  match s with
  | String a t =>
      if Ascii.eqb a ":" then Some ("", t)
      else '(l, r) ← split_colon t; Some (String a l, r)
  | EmptyString => None
  end.

Fixpoint trim_zeros (s : string) : string :=
  match s with
  | String a t =>
      match trim_zeros t, Ascii.eqb a "0" with
      | EmptyString, true => EmptyString
      | t, _ => String a t
      end
  | EmptyString => EmptyString
  end.

(** [v * 10^-n] without the zeros at the end of its fraction. *)
Definition frac_short (v : Z) (n : nat) : string :=
  let frac := pretty (v mod 10 ^ Z.of_nat n) in
  match trim_zeros (zeros (n - String.length frac) +:+ frac) with
  | EmptyString => pretty (v / 10 ^ Z.of_nat n)
  | frac => pretty (v / 10 ^ Z.of_nat n) +:+ "." +:+ frac
  end.

(** [Duration.String]. *)
Definition Duration_String (d : Duration) : string :=
  let u := Z.abs d in
  with_sign (d <? 0)
    (if u =? 0 then "0s"
     else if u <? 1000 then pretty u +:+ "ns"
     else if u <? Millisecond then frac_short u 3 +:+ "µs"
     else if u <? Second then frac_short u 6 +:+ "ms"
     else
       let s := frac_short (u mod Minute) 9 +:+ "s" in
       let m := u / Minute in
       if m =? 0 then s
       else
         let ms := pretty (m mod 60) +:+ "m" +:+ s in
         if m / 60 =? 0 then ms else pretty (m / 60) +:+ "h" +:+ ms).

Definition FlagAutoBalanceToKeep : string := "auto-balance-to-keep".
Definition FlagAutoBalanceExecutionTime : string := "auto-balance-execution-time".
Definition FlagAutoBalanceBridgeToEthAddr : string := "auto-balance-bridge-to-eth-addr".
Definition FlagWithdrawToWalletPowerThreshold : string := "withdraw-to-wallet-power-threshold".
Definition DefaultWithdrawToWalletPowerThreshold : string := "0.295".

Definition parseAutoBalanceExecutionTime (executionTime : string) : go (Z * Z) :=
  match split_colon executionTime with
  | None => Err (ErrNew ("invalid " +:+ FlagAutoBalanceExecutionTime +:+ ", expected HH:MM, got: " +:+ executionTime))
  | Some (h, m) =>
      match Atoi h, Atoi m with
      | Some hour, Some minute =>
          if (hour <? 0) || (23 <? hour) || (minute <? 0) || (59 <? minute) then
            Err (ErrNew ("invalid " +:+ FlagAutoBalanceExecutionTime +:+ " value, expected HH:MM in UTC, got: " +:+ executionTime))
          else Ok (hour, minute)
      | _, _ => Err (ErrNew ("invalid " +:+ FlagAutoBalanceExecutionTime +:+ " value, expected HH:MM in UTC, got: " +:+ executionTime))
      end
  end.

Section Addresses.
(** [common.IsHexAddress] and [common.HexToAddress(addr).Hex()]. *)
Variable IsHexAddress : string -> bool.
Variable HexToAddress_Hex : string -> string.

Definition trim_prefix (pre s : string) : string := default s (cut pre s).

Definition normalizeAutoBalanceEthAddr (addr : string) : go string :=
  let addr := strings_TrimSpace addr in
  if bool_decide (addr = "") then Ok ""
  else if negb (IsHexAddress addr) then
    Err (ErrNew (FlagAutoBalanceBridgeToEthAddr +:+ " must be a valid Ethereum address, got: " +:+ addr))
  else Ok (trim_prefix "0x" (HexToAddress_Hex addr)).

(** ** The flags

    A flag that [Start] asks for with [IsSet] has the answer beside its value. *)
Record Flags := mkFlags {
  price_guard_enabled : bool;
  price_guard_threshold : float64; price_guard_threshold_set : bool;
  price_guard_max_age : Duration; price_guard_max_age_set : bool;
  price_guard_update_on_blocked : bool; price_guard_update_on_blocked_set : bool;
  auto_unbonding_frequency : Z; auto_unbonding_amount : Z; auto_unbonding_max_stake_percentage : string;
  refresh_gas_estimates_interval : Duration;
  tx_broadcast_timeout : Duration; unordered_tx_timeout : Duration; tx_timeout_height_offset : Z;
  withdraw_to_wallet : bool; withdraw_power_threshold : string;
  auto_balance_to_keep : Z; auto_balance_bridge_to_eth_addr : string; auto_balance_execution_time : string
}.

(** What the client keeps of them. *)
Record ClientConfig := mkClientConfig {
  c_PriceGuard : PriceGuard; refreshGasEstimatesInterval : Duration; txBroadcastTimeout : Duration;
  unorderedTxTimeout : Duration; txTimeoutHeightOffset : Z
}.

Definition reject_if (b : bool) (msg : string) : go unit := if b then Err (ErrNew msg) else Ok tt.

(** [x <= 0] on floats. *)
Definition f_nonpositive (x : float64) : bool := SFleb x fzero.

Definition price_guard_config (f : Flags) : go PriceGuard :=
  if price_guard_enabled f then
    _ ← reject_if (negb (price_guard_threshold_set f)) "price-guard-enabled is true but price-guard-threshold is not set";
    _ ← reject_if (f_nonpositive (price_guard_threshold f))
          ("price-guard-threshold must be greater than 0, got: " +:+ Sprintf_float (price_guard_threshold f));
    _ ← reject_if (negb (price_guard_max_age_set f)) "price-guard-enabled is true but price-guard-max-age is not set";
    _ ← reject_if (price_guard_max_age f <=? 0)
          ("price-guard-max-age must be greater than 0, got: " +:+ Duration_String (price_guard_max_age f));
    _ ← reject_if (negb (price_guard_update_on_blocked_set f)) "price-guard-enabled is true but price-guard-update-on-blocked is not set";
    mret (NewPriceGuard (price_guard_threshold f) (price_guard_max_age f) true (price_guard_update_on_blocked f))
  else
    _ ← reject_if (price_guard_threshold_set f || price_guard_max_age_set f || price_guard_update_on_blocked_set f)
          "price-guard flags are set but price-guard-enabled is false";
    mret (NewPriceGuard fzero 0 false (price_guard_update_on_blocked f)).

Definition timeout_config (f : Flags) : go unit :=
  _ ← reject_if (tx_broadcast_timeout f <=? 0)
        ("tx-broadcast-timeout must be greater than 0, got: " +:+ Duration_String (tx_broadcast_timeout f));
  _ ← reject_if (unordered_tx_timeout f <=? 0)
        ("unordered-tx-timeout must be greater than 0, got: " +:+ Duration_String (unordered_tx_timeout f));
  reject_if (tx_timeout_height_offset f =? 0)
    ("tx-timeout-height-offset must be greater than 0, got: " +:+ pretty (tx_timeout_height_offset f)).

Context `{!LegacyDec D}.

Definition threshold_text (f : Flags) : string :=
  if bool_decide (withdraw_power_threshold f = "") then DefaultWithdrawToWalletPowerThreshold else withdraw_power_threshold f.

Definition withdraw_config (f : Flags) : go unit :=
  reject_if
    match LegacyNewDecFromStr (threshold_text f) with
    | inl _ => true
    | inr d => negb (dec_IsPositive d) || dec_GT d LegacyOneDec
    end
    (FlagWithdrawToWalletPowerThreshold +:+ " must be a decimal greater than 0 and at most 1").

Definition unbond_config (f : Flags) : go unit :=
  if 0 <? auto_unbonding_frequency f then
    _ ← reject_if (21 <? auto_unbonding_frequency f)
          ("auto-unbonding-frequency must be between 1 and 21 days when set, got: " +:+ pretty (auto_unbonding_frequency f));
    _ ← reject_if (auto_unbonding_amount f =? 0) "auto-unbonding-amount must be greater than 0 when auto-unbonding-frequency is set";
    match LegacyNewDecFromStr (auto_unbonding_max_stake_percentage f) with
    | inl _ => Err (ErrNew ("auto-unbonding-max-stake-percentage must be a valid decimal, got: " +:+ auto_unbonding_max_stake_percentage f))
    | inr d =>
        reject_if (dec_LT d LegacyZeroDec || dec_GT d (ToLegacyDec 1))
          ("auto-unbonding-max-stake-percentage must be between 0.0 and 1.0, got: " +:+ auto_unbonding_max_stake_percentage f)
    end
  else Ok tt.

Definition auto_balance_config (f : Flags) : go unit :=
  if 0 <? auto_balance_to_keep f then
    addr ← normalizeAutoBalanceEthAddr (auto_balance_bridge_to_eth_addr f);
    _ ← reject_if (bool_decide (addr = "")) (FlagAutoBalanceBridgeToEthAddr +:+ " is required when " +:+ FlagAutoBalanceToKeep +:+ " > 0");
    _ ← parseAutoBalanceExecutionTime (auto_balance_execution_time f);
    mret tt
  else Ok tt.

(** The flags as [Start] reads and checks them. *)
Definition Start_config (f : Flags) : go ClientConfig :=
  guard ← price_guard_config f;
  _ ← timeout_config f;
  _ ← withdraw_config f;
  _ ← unbond_config f;
  _ ← auto_balance_config f;
  mret (mkClientConfig guard (refresh_gas_estimates_interval f) (tx_broadcast_timeout f) (unordered_tx_timeout f)
          (tx_timeout_height_offset f)).

End Addresses.

Example Duration_String_ex :
  Duration_String (-1500000000) = "-1.5s" /\ Duration_String 0 = "0s" /\ Duration_String (90 * Minute) = "1h30m0s" /\
  Duration_String 1100 = "1.1µs".
Proof. repeat split; reflexivity. Qed.
Example parse_time_ex :
  parseAutoBalanceExecutionTime "03:05" = Ok (3, 5) /\ is_ok (parseAutoBalanceExecutionTime "24:00") = false /\
  is_ok (parseAutoBalanceExecutionTime "03") = false.
Proof. repeat split; reflexivity. Qed.

(** ** What is accepted *)
Lemma reject_if_Ok b msg : reject_if b msg = Ok tt <-> b = false.
Proof. unfold reject_if. by destruct b. Qed.

Lemma f_nonpositive_false x : f_nonpositive x = false <-> x = S754_nan \/ fgt x fzero = true.
Proof. destruct x as [[]|[]| |[]]; cbn; naive_solver. Qed.

Lemma fgt_nan x : fgt x S754_nan = false.
Proof. by destruct x as [[]|[]| |[]]. Qed.

Lemma parse_time_range s h m :
  parseAutoBalanceExecutionTime s = Ok (h, m) -> 0 <= h < 24 /\ 0 <= m < 60.
Proof.
  unfold parseAutoBalanceExecutionTime. destruct (split_colon s) as [[a b]|]; [|done].
  destruct (Atoi a), (Atoi b); try done. destruct (_ || _) eqn:E; [done|]. intros. simplify_eq. lia.
Qed.

Section Accepted.
Variable IsHexAddress : string -> bool.
Variable HexToAddress_Hex : string -> string.
Context `{!LegacyDec D}.

Notation normalize := (normalizeAutoBalanceEthAddr IsHexAddress HexToAddress_Hex).
Notation start := (Start_config IsHexAddress HexToAddress_Hex).

Definition guard_flags_ok (f : Flags) : Prop :=
  if price_guard_enabled f then
    price_guard_threshold_set f = true /\ (price_guard_threshold f = S754_nan \/ fgt (price_guard_threshold f) fzero = true) /\
    price_guard_max_age_set f = true /\ 0 < price_guard_max_age f /\ price_guard_update_on_blocked_set f = true
  else price_guard_threshold_set f = false /\ price_guard_max_age_set f = false /\ price_guard_update_on_blocked_set f = false.

Definition guard_of (f : Flags) : PriceGuard :=
  if price_guard_enabled f then
    NewPriceGuard (price_guard_threshold f) (price_guard_max_age f) true (price_guard_update_on_blocked f)
  else NewPriceGuard fzero 0 false (price_guard_update_on_blocked f).

Definition withdraw_ok (f : Flags) : Prop :=
  exists d, LegacyNewDecFromStr (threshold_text f) = inr d /\ (0 < dec_value d <= 1)%Q.

Definition unbond_ok (f : Flags) : Prop :=
  0 < auto_unbonding_frequency f ->
  auto_unbonding_frequency f <= 21 /\ auto_unbonding_amount f <> 0 /\
  exists d, LegacyNewDecFromStr (auto_unbonding_max_stake_percentage f) = inr d /\ (0 <= dec_value d <= 1)%Q.

Definition auto_balance_ok (f : Flags) : Prop :=
  0 < auto_balance_to_keep f ->
  (exists addr, normalize (auto_balance_bridge_to_eth_addr f) = Ok addr /\ addr <> "") /\
  exists h m, parseAutoBalanceExecutionTime (auto_balance_execution_time f) = Ok (h, m) /\ 0 <= h < 24 /\ 0 <= m < 60.

Lemma price_guard_config_Ok f g :
  price_guard_config f = Ok g <-> guard_flags_ok f /\ g = guard_of f.
Proof.
  unfold price_guard_config, guard_flags_ok, guard_of. destruct (price_guard_enabled f).
  - rewrite <- f_nonpositive_false. unfold reject_if.
    destruct (price_guard_threshold_set f), (f_nonpositive _), (price_guard_max_age_set f), (price_guard_max_age f <=? 0) eqn:E,
      (price_guard_update_on_blocked_set f); cbn;
      try (split; [done|]; intros [(? & ? & ? & ? & ?) ?]; first [done|lia]).
    split; [intros [= <-]|by intros [_ ->]]. split; [|done]. do 3 (split; [done|]). split; [lia|done].
  - unfold reject_if. destruct (price_guard_threshold_set f), (price_guard_max_age_set f), (price_guard_update_on_blocked_set f); cbn;
      try (split; [done|]; by intros [(? & ? & ?) ?]). split; [by intros [= <-]|by intros [_ ->]].
Qed.

Lemma timeout_config_Ok f :
  timeout_config f = Ok tt <-> 0 < tx_broadcast_timeout f /\ 0 < unordered_tx_timeout f /\ tx_timeout_height_offset f <> 0.
Proof.
  unfold timeout_config, reject_if.
  destruct (tx_broadcast_timeout f <=? 0) eqn:E1, (unordered_tx_timeout f <=? 0) eqn:E2, (tx_timeout_height_offset f =? 0) eqn:E3; cbn;
    split; intros; destruct_and?; try done; lia.
Qed.

Lemma dec_value_0 : (dec_value LegacyZeroDec == 0)%Q.
Proof. apply ToLegacyDec_value. Qed.
Lemma dec_value_1 : (dec_value LegacyOneDec == 1)%Q.
Proof. apply ToLegacyDec_value. Qed.

Lemma withdraw_config_Ok f : withdraw_config f = Ok tt <-> withdraw_ok f.
Proof.
  unfold withdraw_config, withdraw_ok. rewrite reject_if_Ok. destruct (LegacyNewDecFromStr (threshold_text f)) as [e|d].
  - split; [done|]. by intros (? & ? & _).
  - unfold dec_IsPositive. rewrite orb_false_iff, negb_false_iff, dec_GT_spec, dec_GT_false, dec_value_0, dec_value_1. naive_solver.
Qed.

Lemma unbond_config_Ok f : unbond_config f = Ok tt <-> unbond_ok f.
Proof.
  unfold unbond_config, unbond_ok. destruct (0 <? auto_unbonding_frequency f) eqn:E1; [|split; [lia|done]].
  unfold reject_if. destruct (21 <? auto_unbonding_frequency f) eqn:E2; cbn; [split; [done|]; intros H; destruct (H ltac:(lia)); lia|].
  destruct (auto_unbonding_amount f =? 0) eqn:E3; cbn; [split; [done|]; intros H; destruct (H ltac:(lia)) as (_ & H' & _); lia|].
  destruct (LegacyNewDecFromStr _) as [e|d].
  - split; [done|]. intros H. destruct (H ltac:(lia)) as (_ & _ & ? & ? & _). done.
  - match goal with |- context [if ?b then Err (ErrNew ?m) else Ok tt] => change (if b then Err (ErrNew m) else Ok tt) with (reject_if b m) end.
    rewrite reject_if_Ok, orb_false_iff, dec_LT_false, dec_GT_false, dec_value_0.
    change (ToLegacyDec 1) with (LegacyOneDec (D := D)). rewrite dec_value_1. split.
    + intros H _. split; [lia|]. split; [lia|]. by exists d.
    + intros H. destruct (H ltac:(lia)) as (_ & _ & ? & [= <-] & ?). done.
Qed.

Lemma auto_balance_config_Ok f : auto_balance_config IsHexAddress HexToAddress_Hex f = Ok tt <-> auto_balance_ok f.
Proof.
  unfold auto_balance_config, auto_balance_ok. destruct (0 <? auto_balance_to_keep f) eqn:E1; [|split; [lia|done]].
  destruct (normalize (auto_balance_bridge_to_eth_addr f)) as [addr|e|p] eqn:En; cbn.
  - unfold reject_if. case_bool_decide as Ea; cbn.
    { split; [done|]. intros H. destruct (H ltac:(lia)) as [(? & [= <-] & ?) _]. done. }
    destruct (parseAutoBalanceExecutionTime _) as [[h m]|e|p] eqn:Ep; cbn.
    + split; [|done]. intros _ _. split; [by exists addr|]. exists h, m. split; [done|]. by eapply parse_time_range.
    + split; [done|]. intros H. by destruct (H ltac:(lia)) as [_ (? & ? & ? & _)].
    + split; [done|]. intros H. by destruct (H ltac:(lia)) as [_ (? & ? & ? & _)].
  - split; [done|]. intros H. by destruct (H ltac:(lia)) as [(? & ? & _) _].
  - split; [done|]. intros H. by destruct (H ltac:(lia)) as [(? & ? & _) _].
Qed.
Definition config_ok (f : Flags) : Prop :=
  guard_flags_ok f /\
  (0 < tx_broadcast_timeout f /\ 0 < unordered_tx_timeout f /\ tx_timeout_height_offset f <> 0) /\
  withdraw_ok f /\ unbond_ok f /\ auto_balance_ok f.

Definition config_of (f : Flags) : ClientConfig :=
  mkClientConfig (guard_of f) (refresh_gas_estimates_interval f) (tx_broadcast_timeout f) (unordered_tx_timeout f)
    (tx_timeout_height_offset f).

Lemma Start_config_Ok f cfg : start f = Ok cfg <-> config_ok f /\ cfg = config_of f.
Proof.
  unfold Start_config, config_ok, config_of. rewrite go_bind_Ok. setoid_rewrite price_guard_config_Ok.
  rewrite <- timeout_config_Ok, <- withdraw_config_Ok, <- unbond_config_Ok, <- auto_balance_config_Ok. split.
  - intros (g & (Hg & ->) & H). apply go_bind_Ok in H as ([] & H1 & H). apply go_bind_Ok in H as ([] & H2 & H).
    apply go_bind_Ok in H as ([] & H3 & H). apply go_bind_Ok in H as ([] & H4 & [= <-]). done.
  - intros [(Hg & H1 & H2 & H3 & H4) ->]. exists (guard_of f). split; [done|]. by rewrite H1, H2, H3, H4.
Qed.

Lemma reject_if_no_panic b msg p : reject_if b msg <> Panic p.
Proof. unfold reject_if. by destruct b. Qed.

Lemma go_bind_no_panic {A B} (m : go A) (k : A -> go B) :
  (forall p, m <> Panic p) -> (forall a p, k a <> Panic p) -> forall p, (m ≫= k) <> Panic p.
Proof. intros Hm Hk p. destruct m as [a|e|p']; cbn; [apply Hk|done|by destruct (Hm p')]. Qed.

Lemma parse_time_no_panic s p : parseAutoBalanceExecutionTime s <> Panic p.
Proof. unfold parseAutoBalanceExecutionTime. repeat (case_match; try done). Qed.
Lemma normalize_no_panic s p : normalize s <> Panic p.
Proof. unfold normalizeAutoBalanceEthAddr. repeat (case_match; try done). Qed.

#[local] Hint Resolve reject_if_no_panic go_bind_no_panic parse_time_no_panic normalize_no_panic : core.

Lemma Start_config_no_panic f p : start f <> Panic p.
Proof.
  revert p. unfold Start_config. apply go_bind_no_panic; [|intros g].
  { unfold price_guard_config. destruct (price_guard_enabled f); repeat (apply go_bind_no_panic; [auto|intros _]); done. }
  apply go_bind_no_panic; [|intros _].
  { unfold timeout_config. repeat (apply go_bind_no_panic; [auto|intros _]). auto. }
  apply go_bind_no_panic; [unfold withdraw_config; auto|intros _].
  apply go_bind_no_panic; [|intros _].
  { unfold unbond_config. destruct (0 <? auto_unbonding_frequency f); [|done].
    repeat (apply go_bind_no_panic; [auto|intros _]). destruct (LegacyNewDecFromStr _); auto. }
  apply go_bind_no_panic; [|done].
  unfold auto_balance_config. destruct (0 <? auto_balance_to_keep f); [|done].
  apply go_bind_no_panic; [auto|intros addr]. apply go_bind_no_panic; [auto|intros _]. apply go_bind_no_panic; [auto|done].
Qed.

(** A guard with a threshold that is not a number passes every price. *)
Lemma nan_guard_passes Q R age on_blocked l :
  Forall (fun d => d.2 = true) (decisions Q R (NewPriceGuard S754_nan age true on_blocked) l).
Proof.
  assert (represents Q S754_nan age on_blocked [] (NewPriceGuard S754_nan age true on_blocked)) as Hr by (exists ∅, ∅; done).
  pose proof (decisions_spec Q R _ _ _ _ _ l Hr) as Hs.
  apply Forall_lookup. intros i [a ok] Hi. destruct ok; [done|].
  destruct (proj1 (Hs i a false Hi) eq_refl) as (_ & a0 & _ & _ & Hn). by rewrite fgt_nan in Hn.
Qed.

(** [Start] never panics on its flags, and accepts them exactly under the conditions
    [config_ok] spells out: timeouts and height offset that are not zero, a withdrawal
    threshold in (0, 1], unbonding every 1 to 21 days of a nonzero amount with a share in
    [0, 1], a bridge address and an hour of the day when a balance is to be kept, the
    flags of the price guard all set with it and none without it. The one gap: the
    threshold may be NaN, which no comparison rejects, and then the enabled guard blocks
    no report whatever. *)
Theorem Start_config_correct f :
  (forall cfg, start f = Ok cfg <-> config_ok f /\ cfg = config_of f) /\
  (forall p, start f <> Panic p) /\
  (forall cfg, start f = Ok cfg -> price_guard_enabled f = true ->
     fgt (price_guard_threshold f) fzero = true \/
     price_guard_threshold f = S754_nan /\
     forall Q R l, Forall (fun d => d.2 = true) (decisions Q R (c_PriceGuard cfg) l)).
Proof.
  split; [apply Start_config_Ok|]. split; [apply Start_config_no_panic|].
  intros cfg [(Hg & _) ->]%Start_config_Ok He. unfold guard_flags_ok in Hg. rewrite He in Hg.
  destruct Hg as (_ & [Hn|Hp] & _); [right|by left]. split; [done|]. intros Q R l. cbn. unfold guard_of. rewrite He, Hn.
  apply nan_guard_passes.
Qed.
End Accepted.

(** ** Witness: a guard without a number for a threshold *)
Definition ex_reader (s : string) : go_error + Z :=
  if bool_decide (s = "0.295") then inr (295 * 10 ^ 15) else inl (ErrNew "failed to set decimal string").
#[local] Instance ex_dec : LegacyDec Z := Units.with_reader ex_reader.

Definition ex_flags (threshold : float64) (height_offset : Z) : Flags :=
  mkFlags true threshold true (5 * Minute) true false true 0 0 "0.0" 0 (15 * Second) (30 * Second) height_offset false "" 1000000
    " 0x0000000000000000000000000000000000000001" "03:05".
Definition ex_is_address (s : string) : bool := (String.length s =? 42)%nat.

Lemma Start_config_correct_witness :
  (exists cfg, Start_config ex_is_address (fun s => s) (ex_flags S754_nan 2) = Ok cfg /\
     forall Q R l, Forall (fun d => d.2 = true) (decisions Q R (c_PriceGuard cfg) l)) /\
  Start_config ex_is_address (fun s => s) (ex_flags fzero 2) =
    Err (ErrNew "price-guard-threshold must be greater than 0, got: 0.000000").
Proof.
  split; [|reflexivity].
  destruct (Start_config_correct ex_is_address (fun s => s) (ex_flags S754_nan 2)) as (_ & _ & H).
  eexists. split; [reflexivity|].
  destruct (H _ eq_refl eq_refl) as [Hf|[_ Hn]]; [discriminate Hf|exact Hn].
Defined.
