(* ===== verification/Json.v ===== *)
(** * JSON values

    What [json.Unmarshal] stores in a value of type any, the walk along a path of
    [ExtractValueFromJSON] (rpc_reader/reader.go), and the integers and floats that
    [fmt.Sscanf] reads. The decoder itself is an argument of the definitions that use it. *)
From Stdlib Require Import Ascii.
From Stdlib.Floats Require Import SpecFloat.
From S2P Require Import Prelude Text Float64 EncodePrice BigFloat ReporterConfig.
Local Open Scope Z_scope.

(** An object is its fields, each name once. *)
Inductive json :=
  | JNull
  | JBool (b : bool)
  | JNum (x : float64)
  | JStr (s : string)
  | JArr (l : list json)
  | JObj (fields : list (string * json)).

(** The verb %T. *)
Definition type_text (v : json) : string :=
  match v with
  | JNull => "<nil>"
  | JBool _ => "bool"
  | JNum _ => "float64"
  | JStr _ => "string"
  | JArr _ => "[]interface {}"
  | JObj _ => "map[string]interface {}"
  end.

Fixpoint field {A} (key : string) (fields : list (string * A)) : option A :=
  match fields with
  | [] => None
  | (k, v) :: fields => if bool_decide (k = key) then Some v else field key fields
  end.

(** ** fmt.Sscanf

    The verbs skip blanks, but not a newline. *)
Fixpoint SkipSpace (s : string) : option string :=
  match s with
  | String a t => if Ascii.eqb a (Ascii.ascii_of_nat 10) then None else if is_space a then SkipSpace t else Some s
  | EmptyString => Some EmptyString
  end.

Fixpoint take_digits (s : string) : string * string :=
  match s with
  | String a t => match digit_value a with
                  | Some _ => let '(ds, rest) := take_digits t in (String a ds, rest)
                  | None => (EmptyString, s)
                  end
  | EmptyString => (EmptyString, EmptyString)
  end.

(** The verb %d with an int: what follows the digits is not read. *)
Definition Sscanf_d (s : string) : option Z :=
  t ← SkipSpace s;
  let '(neg, t) := strip_sign t in
  let '(ds, _) := take_digits t in
  n ← (if bool_decide (ds = EmptyString) then None else read_digits 0 ds);
  let n := if neg : bool then - n else n in
  if bool_decide (in_range int64 n) then Some n else None.

(** The token of the verb %f: [accept] reads a character of a set into the token. *)
Definition accept (set : string) (st : string * string) : bool * (string * string) :=
  match st with
  | (buf, String a t) => if contains (String a EmptyString) set then (true, (buf +:+ String a EmptyString, t)) else (false, st)
  | _ => (false, st)
  end.

Fixpoint accept_all (fuel : nat) (set : string) (st : string * string) : string * string :=
  match fuel with
  | O => st
  | S fuel => let '(ok, st) := accept set st in if ok : bool then accept_all fuel set st else st
  end.

Fixpoint accept_seq (sets : list string) (st : string * string) : bool * (string * string) :=
  match sets with
  | [] => (true, st)
  | set :: sets => let '(ok, st) := accept set st in if ok : bool then accept_seq sets st else (false, st)
  end.

Definition floatToken (s : string) : string :=
  let all := accept_all (String.length s) in
  let '(is_nan, st) := accept_seq ["nN"; "aA"; "nN"] (EmptyString, s) in
  if is_nan : bool then st.1 else
  let '(_, st) := accept "+-" st in
  let '(is_inf, st) := accept_seq ["iI"; "nN"; "fF"] st in
  if is_inf : bool then st.1 else
  let '(hex, st) := accept_seq ["0"; "xX"] st in
  let digits := if hex : bool then "0123456789aAbBcCdDeEfF_" else "0123456789_" in
  let st := all digits st in
  let '(point, st) := accept "." st in
  let st := if point : bool then all digits st else st in
  let '(exp, st) := accept (if hex then "pP" else "eEpP") st in
  if exp : bool then (all "0123456789_" (accept "+-" st).2).1 else st.1.

(** A binary exponent after a decimal mantissa is applied apart. *)
Fixpoint split_p (s : string) : option (string * string) :=
  match s with
  | String a t =>
      if Ascii.eqb a "p" then Some (EmptyString, t)
      else match split_p t with Some (l, r) => Some (String a l, r) | None => None end
  | EmptyString => None
  end.

Definition convertFloat (str : string) : go_error + float64 :=
  match split_p str with
  | Some (l, r) =>
      if contains "x" str || contains "X" str then ParseFloat str
      else match ParseFloat l with
           | inl err => inl err
           | inr f => match Atoi r with
                      | Some m => inr (SFldexp 53 1024 f m)
                      | None => inl (ErrNew ("strconv.Atoi: parsing " +:+ quoted r +:+ ": invalid syntax"))
                      end
           end
  | None => ParseFloat str
  end.

Definition Sscanf_f (s : string) : go_error + float64 :=
  match SkipSpace s with
  | None => inl (ErrNew "unexpected newline")
  | Some EmptyString => inl (ErrNew "unexpected EOF")
  | Some t => convertFloat (floatToken t)
  end.

(** ** The walk along a path *)
Fixpoint walk (i : nat) (path : list string) (current : json) : go json :=
  match path with
  | [] => Ok current
  | key :: path =>
      match current with
      | JNull => Err (ErrNew ("null value at path segment " +:+ pretty i +:+ ": " +:+ key))
      | JObj fields =>
          match field key fields with
          | None => Err (ErrNew ("key not found at path segment " +:+ pretty i +:+ ": " +:+ key))
          | Some v => walk (S i) path v
          end
      | JArr l =>
          match Sscanf_d key with
          | None => Err (ErrNew ("expected numeric index for array, got: " +:+ key))
          | Some idx =>
              if (idx <? 0) || (Z.of_nat (length l) <=? idx) then
                Err (ErrNew ("array index out of bounds: " +:+ pretty idx))
              else v ← index l (Z.to_nat idx); walk (S i) path v
          end
      | v => Err (ErrNew ("expected object or array at path segment " +:+ pretty i +:+ ": " +:+ key +:+ ", got " +:+ type_text v))
      end
  end.

Definition ExtractValueFromJSON (Unmarshal : string -> go_error + json) (data : string) (path : list string) : go json :=
  match Unmarshal data with
  | inl err => Err (wrapf "error unmarshaling JSON" err)
  | inr result => walk 0 path result
  end.

(** One step of a path, and a whole path. *)
Definition member (v : json) (key : string) : option json :=
  match v with
  | JObj fields => field key fields
  | JArr l => idx ← Sscanf_d key; if 0 <=? idx then l !! Z.to_nat idx else None
  | _ => None
  end.

Fixpoint value_at (v : json) (path : list string) : option json :=
  match path with
  | [] => Some v
  | key :: path => w ← member v key; value_at w path
  end.

Lemma walk_value_at i path v :
  match walk i path v with
  | Ok w => value_at v path = Some w
  | Err _ => value_at v path = None
  | Panic _ => False
  end.
Proof.
  revert i v. induction path as [|key path IH]; intros i v; cbn; [done|].
  destruct v as [|b|x|s|l|fields]; cbn; try done.
  - destruct (Sscanf_d key) as [idx|]; cbn; [|done]. destruct (idx <? 0) eqn:E1; cbn.
    { assert (0 <=? idx = false) as -> by lia. done. }
    assert (0 <=? idx = true) as -> by lia. destruct (Z.of_nat (length l) <=? idx) eqn:E2; cbn.
    { rewrite (proj2 (lookup_ge_None l _)) by lia. done. }
    destruct (lookup_lt_is_Some_2 l (Z.to_nat idx) ltac:(lia)) as [w Hw]. unfold index. rewrite Hw. cbn. apply IH.
  - destruct (field key fields); cbn; [apply IH|done].
Qed.

Example Sscanf_d_ex : Sscanf_d " 12abc" = Some 12 /\ Sscanf_d "-3" = Some (-3) /\ Sscanf_d "x1" = None.
Proof. repeat split; reflexivity. Qed.

Example Sscanf_f_ex :
  Sscanf_f "1.5" = ParseFloat "1.5" /\ Sscanf_f " -2e3usd" = ParseFloat "-2000" /\ Sscanf_f "0x1p4 " = ParseFloat "16" /\
  Sscanf_f "3p2" = ParseFloat "12" /\ Sscanf_f "NaN" = inr S754_nan /\ Sscanf_f "" = inl (ErrNew "unexpected EOF").
Proof. repeat split; vm_compute; reflexivity. Qed.
