(* ===== verification/ReporterKeyring.v ===== *)
(** * reporter/client: the keyring of the reporter

    [keyringReader], [validateKeyringBackendConfig], [validateKeyringAccountUnlocked]
    and [setupKeyring] of client.go, with the reader that repeats the password. The
    local keyring of the SDK is an argument; the remote one is RemoteSigner. *)
From Stdlib Require Import Ascii.
From S2P Require Import Prelude Text RemoteSigner.

(** ** The reader that repeats a password *)
Record repeatingPasswordReader := mkReader { line : list ascii; pos : nat }.

Definition newline : ascii := ascii_of_nat 10.

Definition newRepeatingPasswordReader (pass : string) : repeatingPasswordReader := mkReader (chars pass ++ [newline]) 0.

(** [Read(p)] for a [p] of [n] bytes. *)
Fixpoint Read (n : nat) (r : repeatingPasswordReader) : go (list ascii * repeatingPasswordReader) :=
  match n with
  | O => Ok ([], r)
  | S n =>
      b ← index (line r) (pos r);
      '(bs, r') ← Read n (mkReader (line r) ((pos r + 1) mod length (line r)));
      mret (b :: bs, r')
  end.

(** Reads of several sizes, with what they read together. *)
Fixpoint reads (ns : list nat) (r : repeatingPasswordReader) : go (list ascii * repeatingPasswordReader) :=
  match ns with
  | [] => Ok ([], r)
  | n :: ns =>
      '(bs, r) ← Read n r;
      '(bs', r) ← reads ns r;
      mret (bs ++ bs', r)
  end.

(** [n] bytes of a line repeated for ever, from the offset [i]. *)
Definition cycle (l : list ascii) (i n : nat) : list ascii :=
  (fun j => default newline (l !! (j mod length l))) <$> seq i n.

Lemma Read_cycle n r :
  pos r < length (line r) ->
  Read n r = Ok (cycle (line r) (pos r) n, mkReader (line r) ((pos r + n) mod length (line r))).
Proof.
  revert r. induction n as [|n IH]; intros [l i] Hi; cbn [line pos] in *.
  - cbn. rewrite Nat.add_0_r, Nat.mod_small by done. done.
  - cbn [Read line pos]. destruct (lookup_lt_is_Some_2 l i Hi) as [b Hb]. unfold index at 1. rewrite Hb. cbn [mbind go_bind].
    rewrite IH by (cbn; apply Nat.mod_upper_bound; lia). cbn [line pos].
    cbn. f_equal. f_equal.
    + unfold cycle. cbn [seq fmap list_fmap]. rewrite (Nat.mod_small i) by done. rewrite Hb. cbn. f_equal.
      rewrite <- !list_fmap_compose || idtac. apply list_eq. intros k. rewrite !list_lookup_fmap.
      destruct (decide (k < n)); [|rewrite !lookup_seq_ge by lia; done].
      rewrite !lookup_seq_lt by lia. cbn. do 2 f_equal. rewrite Nat.Div0.add_mod_idemp_l. do 2 f_equal. lia.
    + f_equal. rewrite Nat.Div0.add_mod_idemp_l. f_equal. lia.
Qed.

Lemma cycle_app l i n m : cycle l i (n + m) = cycle l i n ++ cycle l (i + n) m.
Proof. unfold cycle. by rewrite seq_app, fmap_app. Qed.

Lemma cycle_mod l i n : cycle l (i mod length l) n = cycle l i n.
Proof.
  unfold cycle. apply list_eq. intros k. rewrite !list_lookup_fmap.
  destruct (decide (k < n)); [|rewrite !lookup_seq_ge by lia; done].
  rewrite !lookup_seq_lt by lia. cbn. by rewrite Nat.Div0.add_mod_idemp_l.
Qed.

Lemma reads_cycle ns r :
  pos r < length (line r) ->
  reads ns r = Ok (cycle (line r) (pos r) (sum_list ns), mkReader (line r) ((pos r + sum_list ns) mod length (line r))).
Proof.
  revert r. induction ns as [|n ns IH]; intros [l i] Hi; cbn [line pos] in *.
  - cbn. by rewrite Nat.add_0_r, Nat.mod_small.
  - cbn [reads]. rewrite Read_cycle by done. cbn [mbind go_bind line pos].
    rewrite IH by (cbn; apply Nat.mod_upper_bound; lia). cbn [mbind go_bind mret go_ret line pos].
    change (sum_list (n :: ns)) with (n + sum_list ns). rewrite cycle_mod, cycle_app, Nat.Div0.add_mod_idemp_l.
    do 3 f_equal. f_equal. lia.
Qed.

(** A whole line, read from the start of one. *)
Lemma cycle_line l i : 0 < length l -> i mod length l = 0 -> cycle l i (length l) = l.
Proof.
  intros Hl Hi. rewrite <- cycle_mod, Hi. unfold cycle. apply list_eq. intros k. rewrite list_lookup_fmap.
  destruct (decide (k < length l)) as [Hk|Hk].
  - rewrite lookup_seq_lt by done. cbn. rewrite Nat.mod_small by done. destruct (lookup_lt_is_Some_2 l k Hk) as [b ->]. done.
  - rewrite lookup_seq_ge by lia. cbn. symmetry. apply lookup_ge_None. lia.
Qed.

(** ** The local keyring *)
Definition ErrKeyringPasswordFile : go_error := ErrSentinel KeyringPasswordFile.
Definition IsKeyringPasswordFileError (e : go_error) : bool := errors_Is e KeyringPasswordFile.

(** [fmt.Errorf("%w: text", ErrKeyringPasswordFile)], and with another [%w] at the end. *)
Definition password_error (text : string) : go_error := ErrWrap "" ErrKeyringPasswordFile (": " +:+ text).
Definition password_error_wrap (text : string) (err : go_error) : go_error :=
  ErrWrap2 "" ErrKeyringPasswordFile (": " +:+ text +:+ ": ") err.

(** Where the keyring reads its passphrases. *)
Inductive keyring_input := Stdin | Repeating (r : repeatingPasswordReader).

(** [passFile] is the environment's KEYRING_PASSWORD_FILE. *)
Definition keyringReader (passFile : string) (ReadFile : string -> go_error + string) : bool * go keyring_input :=
  if bool_decide (passFile = "") then (false, Ok Stdin)
  else
    (true,
     match ReadFile passFile with
     | inl err => Err (password_error_wrap ("could not read KEYRING_PASSWORD_FILE " +:+ quoted passFile) err)
     | inr data =>
         let pass := strings_TrimSpace data in
         if bool_decide (pass = "") then Err (password_error ("KEYRING_PASSWORD_FILE " +:+ quoted passFile +:+ " is empty"))
         else Ok (Repeating (newRepeatingPasswordReader pass))
     end).

Definition validKeyringBackends : list string := ["os"; "file"; "kwallet"; "pass"; "test"; "memory"].

Definition validateKeyringBackendConfig (backend : string) (usingPasswordFile : bool) : go unit :=
  let backend := strings_TrimSpace backend in
  if bool_decide (backend = "") then Err (ErrNew "keyring-backend is required; set KEYRING_BACKEND or --keyring-backend")
  else if negb (bool_decide (backend ∈ validKeyringBackends)) then
    Err (ErrNew ("unsupported keyring-backend " +:+ quoted backend +:+ "; valid values are os, file, kwallet, pass, test, memory"))
  else if usingPasswordFile && negb (bool_decide (backend = "file")) then
    Err (password_error ("KEYRING_PASSWORD_FILE requires KEYRING_BACKEND=file, got " +:+ quoted backend))
  else Ok tt.

(** The keyring package of the SDK: opening a keyring, its records and signatures (a
    signature has bytes and, unless it is nil, a public key). *)
Class LocalKeyring (W KR Record_ PubKey : Type) := {
  keyring_New : W -> string -> string -> keyring_input -> W * (go_error + KR);
  kr_Key : W -> KR -> string -> W * (go_error + Record_);
  GetAddress : Record_ -> go_error + list Z;
  kr_Sign : W -> KR -> string -> string -> W * (go_error + (list Z * option PubKey))
}.

Section Setup.
Context {W KR Record_ PubKey Creds Conn Rec : Type}.
Context `{!LocalKeyring W KR Record_ PubKey} `{!SignerLibs W Creds Conn Rec}.

Definition validateKeyringAccountUnlocked (kr : KR) (keyName : string) (w : W) : W * go unit :=
  match kr_Sign w kr keyName "layer-daemons keyring unlock check" with
  | (w, inl err) =>
      (w, Err (password_error_wrap ("account " +:+ quoted keyName +:+ " could not be unlocked with KEYRING_PASSWORD_FILE") err))
  | (w, inr (sig, pubKey)) =>
      if bool_decide (length sig = 0) || negb (bool_decide (is_Some pubKey)) then
        (w, Err (password_error ("account " +:+ quoted keyName +:+ " did not return a valid unlock signature")))
      else (w, Ok tt)
  end.

Inductive keyring := Local (kr : KR) | Remote (kr : remoteSignerKeyring (Conn := Conn)).

(** What the cosmos context and the client hold after it. *)
Record signer_setup := mkSetup {
  the_keyring : keyring; fromName : string; fromAddress : list Z; ChainID : string; remoteSignerConn : option Conn
}.

Record keyring_flags := mkKeyringFlags {
  k_keyName : string; k_backend : string; k_homeDir : string; k_chainId : string; k_passFile : string;
  remote_signer_addr : string; remote_ca_cert : string; remote_client_cert : string; remote_client_key : string
}.

(** The error of an operation of the local keyring: marked when a password file is used. *)
Definition local_error (usingPasswordFile : bool) (text : string) (err : go_error) : go_error :=
  if usingPasswordFile then password_error_wrap text err else wrapf text err.

Definition setup_local (f : keyring_flags) (usingPasswordFile : bool) (input : keyring_input) (w : W) :
    W * go signer_setup :=
  match keyring_New w (k_backend f) (k_homeDir f) input with
  | (w, inl err) => (w, Err (local_error usingPasswordFile ("could not initialize keyring backend " +:+ quoted (k_backend f)) err))
  | (w, inr kr) =>
      match kr_Key w kr (k_keyName f) with
      | (w, inl err) =>
          (w, Err (local_error usingPasswordFile ("account " +:+ quoted (k_keyName f) +:+
             " could not be read from keyring backend " +:+ quoted (k_backend f)) err))
      | (w, inr record) =>
          match GetAddress record with
          | inl err => (w, Err err)
          | inr addr =>
              let ready := Ok (mkSetup (Local kr) (k_keyName f) addr (k_chainId f) None) in
              if usingPasswordFile then
                match validateKeyringAccountUnlocked kr (k_keyName f) w with
                | (w, Ok _) => (w, ready)
                | (w, Err err) => (w, Err err)
                | (w, Panic p) => (w, Panic p)
                end
              else (w, ready)
          end
      end
  end.

Definition setupKeyring (ReadFile : string -> go_error + string) (f : keyring_flags) (st : @SignerSt W Conn) :
    @SignerSt W Conn * go signer_setup :=
  if negb (bool_decide (remote_signer_addr f = "")) then
    match newKeyringFromRemoteSigner (k_keyName f) (remote_signer_addr f) (remote_ca_cert f) (remote_client_cert f)
            (remote_client_key f) true st with
    | (st, Ok (kr, signerAccAddr, signerChainID, signerConn)) =>
        (st, Ok (mkSetup (Remote kr) (k_keyName f) signerAccAddr
                   (if bool_decide (signerChainID = "") then k_chainId f else signerChainID) (Some signerConn)))
    | (st, Err err) => (st, Err (wrapf "failed to initialize remote signer keyring" err))
    | (st, Panic p) => (st, Panic p)
    end
  else
    let '(usingPasswordFile, reader) := keyringReader (k_passFile f) ReadFile in
    match (input ← reader; _ ← validateKeyringBackendConfig (k_backend f) usingPasswordFile; mret input) with
    | Ok input => let '(w, r) := setup_local f usingPasswordFile input (sg_world st) in (mkSignerSt w (sg_events st), r)
    | Err err => (st, Err err)
    | Panic p => (st, Panic p)
    end.
End Setup.

(** ** Properties *)

(** The reader never ends and never fails: whatever the sizes of the reads, the bytes
    they return are the password's line over and over; a reader of whole lines gets the
    password every time, and one that has read other than whole lines gets the rest of
    a line first. *)
Theorem repeating_reader_correct pass ns :
  let l := chars pass ++ [newline] in
  exists bs r,
    reads ns (newRepeatingPasswordReader pass) = Ok (bs, r) /\ length bs = sum_list ns /\
    (forall i, i < sum_list ns -> bs !! i = l !! (i mod length l)) /\
    (sum_list ns mod length l = 0 -> exists r', Read (length l) r = Ok (l, r')) /\
    (forall i, i < length l -> sum_list ns mod length l = i -> exists r', Read (length l - i) r = Ok (drop i l, r')).
Proof.
  intros l. assert (0 < length l) as Hl by (unfold l; rewrite length_app; cbn; lia).
  assert (forall i n, cycle l (i mod length l) n = cycle l i n) as Hmod by (intros; apply cycle_mod).
  assert (length l <> 0) as Hl0 by lia.
  eexists _, _. split; [exact (reads_cycle ns (mkReader l 0) Hl)|]. cbn [line pos]. rewrite Nat.add_0_l.
  split; [unfold cycle; by rewrite length_fmap, length_seq|]. split; [|split].
  - intros i Hi. unfold cycle. rewrite list_lookup_fmap, lookup_seq_lt by done. cbn.
    destruct (lookup_lt_is_Some_2 l (i mod length l) ltac:(by apply Nat.mod_upper_bound)) as [b Hb]. by rewrite Hb.
  - intros E. eexists. rewrite Read_cycle by (cbn; by apply Nat.mod_upper_bound). cbn [line pos]. rewrite E.
    do 2 f_equal. apply cycle_line; [done|]. by rewrite Nat.Div0.mod_0_l.
  - intros i Hi E. eexists. rewrite Read_cycle by (cbn; by apply Nat.mod_upper_bound). cbn [line pos]. rewrite E.
    do 2 f_equal. apply list_eq. intros k. unfold cycle. rewrite list_lookup_fmap, lookup_drop.
    destruct (decide (k < length l - i)).
    + rewrite lookup_seq_lt by done. cbn. rewrite Nat.mod_small by lia.
      destruct (lookup_lt_is_Some_2 l (i + k) ltac:(lia)) as [b Hb]. by rewrite Hb.
    + rewrite lookup_seq_ge by lia. cbn. symmetry. apply lookup_ge_None. lia.
Qed.

Lemma repeating_reader_correct_witness :
  exists bs r, reads [3; 2] (newRepeatingPasswordReader "ab") = Ok (bs, r) /\ length bs = 5 /\
    bs = chars "ab" ++ [newline] ++ chars "ab".
Proof.
  destruct (repeating_reader_correct "ab" [3; 2]) as (bs & r & E & Hl & _).
  exists bs, r. split; [exact E|]. split; [exact Hl|]. vm_compute in E. by injection E as <- _.
Defined.

Section SetupFacts.
Context {W KR Record_ PubKey Creds Conn Rec : Type}.
Context `{!LocalKeyring W KR Record_ PubKey} `{!SignerLibs W Creds Conn Rec}.
Variable ReadFile : string -> go_error + string.

Lemma password_error_marked text : IsKeyringPasswordFileError (password_error text) = true.
Proof. reflexivity. Qed.
Lemma password_error_wrap_marked text err : IsKeyringPasswordFileError (password_error_wrap text err) = true.
Proof. reflexivity. Qed.

(** The account could be used: a signature was made with it. *)
Definition unlocked (kr : KR) (keyName : string) : Prop :=
  exists w w' sig pk, kr_Sign w kr keyName "layer-daemons keyring unlock check" = (w', inr (sig, Some pk)) /\ sig <> [].

Lemma validate_unlocked kr name w w' r :
  validateKeyringAccountUnlocked kr name w = (w', r) ->
  (r = Ok tt /\ unlocked kr name) \/ exists e, r = Err e /\ IsKeyringPasswordFileError e = true.
Proof.
  unfold validateKeyringAccountUnlocked. destruct (kr_Sign w kr name _) as [w1 [err|[sig pk]]] eqn:E; [intros; simplify_eq; right; by eexists|].
  destruct (bool_decide (length sig = 0)) eqn:Es; cbn; [intros; simplify_eq; right; by eexists|].
  destruct pk as [k|].
  - rewrite bool_decide_true by done. cbn. intros; simplify_eq. left. split; [done|]. exists w, w', sig, k. split; [done|].
    intros ->. by rewrite bool_decide_true in Es.
  - rewrite bool_decide_false by (by intros [? ?]). cbn. intros; simplify_eq. right. by eexists.
Qed.

(** An error that is not marked, though a password file is used. *)
Definition address_error (e : go_error) : Prop := exists record : Record_, GetAddress record = inl e.

Lemma setup_local_spec f usesFile input w w' (r : go (signer_setup (KR := KR) (Conn := Conn))) :
  setup_local f usesFile input w = (w', r) ->
  match r with
  | Ok s => fromName s = k_keyName f /\ ChainID s = k_chainId f /\ remoteSignerConn s = None /\
            exists kr, the_keyring s = Local kr /\ (usesFile = true -> unlocked kr (k_keyName f))
  | Err e => usesFile = true -> IsKeyringPasswordFileError e = true \/ address_error e
  | Panic _ => False
  end.
Proof.
  unfold setup_local, local_error. destruct (keyring_New w _ _ _) as [w1 [err|kr]].
  { intros; simplify_eq. intros ->. by left. }
  destruct (kr_Key w1 kr _) as [w2 [err|record]]. { intros; simplify_eq. intros ->. by left. }
  destruct (GetAddress record) as [err|addr] eqn:Ea. { intros; simplify_eq. intros _. right. by exists record. }
  destruct usesFile.
  - destruct (validateKeyringAccountUnlocked kr (k_keyName f) w2) as [w3 r'] eqn:Ev.
    destruct (validate_unlocked _ _ _ _ _ Ev) as [[-> Hu]|(e & -> & He)]; intros; simplify_eq; cbn.
    + do 3 (split; [done|]). by exists kr.
    + intros _. by left.
  - intros; simplify_eq; cbn. do 3 (split; [done|]). by exists kr.
Qed.

(** What precedes the opening of a local keyring. *)
Lemma reader_facts passFile usesFile reader :
  keyringReader passFile ReadFile = (usesFile, reader) ->
  usesFile = negb (bool_decide (passFile = "")) /\
  match reader with
  | Ok input => passFile <> "" -> exists data, ReadFile passFile = inr data /\ strings_TrimSpace data <> ""
  | Err e => IsKeyringPasswordFileError e = true
  | Panic _ => False
  end.
Proof.
  unfold keyringReader. case_bool_decide as Ep; [intros; by simplify_eq|].
  destruct (ReadFile passFile) as [err|data] eqn:Er; [intros; by simplify_eq|].
  case_bool_decide as Et; intros; simplify_eq; split; try done. intros _. by exists data.
Qed.

Lemma backend_facts backend usesFile :
  match validateKeyringBackendConfig backend usesFile with
  | Ok _ => strings_TrimSpace backend ∈ validKeyringBackends /\ (usesFile = true -> strings_TrimSpace backend = "file")
  | Err e => strings_TrimSpace backend ∈ validKeyringBackends -> IsKeyringPasswordFileError e = true
  | Panic _ => False
  end.
Proof.
  unfold validateKeyringBackendConfig. case_bool_decide as E1.
  { rewrite E1. intros He. exfalso. revert He. unfold validKeyringBackends. set_solver. }
  case_bool_decide as E2; cbn; [|done]. destruct usesFile; cbn; [|done]. by case_bool_decide.
Qed.

(** After [setupKeyring] the client either signs through the remote signer, scoped to
    SignTx, for the account of the fetched key, with the chain id of the signer if it has
    one; or with a local keyring of a supported backend that no call of a signer preceded.
    With a password file the backend is the file backend, the file had a password, and the
    account was unlocked with it: a signature was made. Then every failure is marked as one
    of the password file, but for a backend that is missing or unknown and for a record
    without an address. *)
Theorem setupKeyring_correct f st st' (r : go (signer_setup (KR := KR) (Conn := Conn))) :
  setupKeyring ReadFile f st = (st', r) ->
  match r with
  | Ok s =>
      fromName s = k_keyName f /\
      match the_keyring s with
      | Remote kr =>
          remote_signer_addr f <> "" /\ useSignTx kr = true /\ remoteSignerConn s = Some (signerConn kr) /\
          fromAddress s = pubKey_Address (rk_pubKey kr) /\ (k_chainId f <> "" -> ChainID s <> "")
      | Local kr =>
          remote_signer_addr f = "" /\ sg_events st' = sg_events st /\ remoteSignerConn s = None /\ ChainID s = k_chainId f /\
          strings_TrimSpace (k_backend f) ∈ validKeyringBackends /\
          (k_passFile f <> "" -> strings_TrimSpace (k_backend f) = "file" /\ unlocked kr (k_keyName f) /\
             exists data, ReadFile (k_passFile f) = inr data /\ strings_TrimSpace data <> "")
      end
  | Err e =>
      remote_signer_addr f = "" -> k_passFile f <> "" -> strings_TrimSpace (k_backend f) ∈ validKeyringBackends ->
      IsKeyringPasswordFileError e = true \/ address_error e
  | Panic _ => False
  end.
Proof.
  unfold setupKeyring. case_bool_decide as Ha; cbn [negb].
  - destruct (keyringReader (k_passFile f) ReadFile) as [usesFile reader] eqn:Er.
    destruct (reader_facts _ _ _ Er) as [Hu Hr]. pose proof (backend_facts (k_backend f) usesFile) as Hb.
    destruct reader as [input|err|p]; cbn [mbind go_bind]; [|by intros; simplify_eq; left|done].
    destruct (validateKeyringBackendConfig (k_backend f) usesFile) as [u|err|p]; cbn [mbind go_bind mret go_ret]; [|by intros; simplify_eq; left; auto|done].
    destruct (setup_local f usesFile input (sg_world st)) as [w r'] eqn:Es. pose proof (setup_local_spec _ _ _ _ _ _ Es) as H.
    intros; simplify_eq. assert (k_passFile f <> "" -> negb (bool_decide (k_passFile f = "")) = true) as Hp by (intros; by rewrite bool_decide_false).
    destruct r as [s|e|p]; [|by auto|done]. destruct H as (-> & Hc & Hn & kr & -> & Hk). destruct Hb as [Hb1 Hb2].
    split; [done|]. do 5 (split; [done|]). intros Hf. split; [by auto|]. split; [by auto|]. by apply Hr.
  - destruct (newKeyringFromRemoteSigner _ _ _ _ _ _ st) as [st1 r1] eqn:En. pose proof (start_events _ _ _ _ _ _ _ _ _ En) as H.
    destruct r1 as [[[[kr acc] id] c]|err|p]; intros; simplify_eq; [|done].
    destruct H as (_ & _ & <- & Hs & _ & ->). cbn. split; [done|]. do 4 (split; [done|]). by case_bool_decide.
Qed.
End SetupFacts.

(** ** Witness: a password file that unlocks the account *)
#[local] Instance ex_keyring : LocalKeyring nat string string string := {|
  keyring_New := fun w backend _ input =>
    match input with
    | Repeating r => (S w, if bool_decide (line r = chars "secret" ++ [newline]) then inr backend else inl (ErrNew "incorrect passphrase"))
    | Stdin => (S w, inr backend)
    end;
  kr_Key := fun w _ name => (S w, inr name);
  GetAddress := fun _ => inr [1%Z; 2%Z];
  kr_Sign := fun w _ name _ => (S w, inr ([7%Z], Some name)) |}.
#[local] Instance ex_signer : SignerLibs nat unit nat string := {|
  NewClientCredentials := fun _ _ _ _ => inr tt;
  grpc_NewClient := fun w _ _ => (w, inl (ErrNew "no signer"));
  conn_Close := fun w _ => w;
  rpc_GetPublicKey := fun w _ => (w, inr []);
  rpc_GetAddress := fun w _ _ => (w, inr "");
  rpc_GetChainID := fun w _ => (w, inr "");
  rpc_SignTx := fun w _ _ => (w, inr []);
  rpc_SignRaw := fun w _ _ => (w, inr []);
  sha256_Sum256 := fun bs => bs;
  pubKey_Address := fun bs => bs;
  AccAddressFromBech32 := fun _ => inr [];
  NewOfflineRecord := fun name _ => inr name |}.

Definition ex_keyring_flags : keyring_flags := mkKeyringFlags "reporter" " file " "/home" "tellor-1" "/run/pass" "" "" "" "".
Definition ex_setup := setupKeyring (fun _ => inr " secret ") ex_keyring_flags (mkSignerSt 0 []).

Lemma setupKeyring_correct_witness :
  exists s, ex_setup.2 = Ok s /\ the_keyring s = Local " file " /\ unlocked " file " "reporter".
Proof.
  eexists. split; [reflexivity|]. split; [reflexivity|].
  pose proof (setupKeyring_correct (fun _ => inr " secret ") ex_keyring_flags (mkSignerSt 0 []) _ _ (surjective_pairing ex_setup))
    as (_ & _ & _ & _ & _ & _ & H).
  destruct H as (_ & H & _); [discriminate|]. exact H.
Defined.
