(* ===== verification/ReporterTasks.v ===== *)
(** * reporter/client: startup and periodic tasks

    [StartReporterDaemonTaskLoop] and [checkReporter] of client.go, [SetGasPrice] of
    tx_handler.go, and the tasks of reporter_monitors.go that run by the clock: the
    withdrawal of tips, the unbonding of stake and the bridging of the excess of the
    wallet. Every query of a node goes through [withGRPCFallback] of Endpoints. *)
From Stdlib Require Import QArith.
From S2P Require Import Prelude Text Float64 Endpoints Queries Messages PriceMath LegacyDecimal ReporterConfig.
Local Open Scope Z_scope.

(** ** The chain

    The clients of the chain's modules (third party) over a connection, the addresses
    of the SDK and its coins with decimal amounts. *)
Record DecCoin (D : Type) := mkDecCoin { Denom : string; Amount : D }.
Arguments mkDecCoin {D}. Arguments Denom {D}. Arguments Amount {D}.

Record Selection := mkSelection { Selector : string; DelegationsTotal : Z }.

Class ChainLibs (W Client D : Type) := {
  q_MinimumGasPrices : W -> Client -> W * (go_error + list (DecCoin D));
  q_Reporter : string -> W -> Client -> W * (go_error + Z);          (** the power of the reporter *)
  q_SelectorReporter : string -> W -> Client -> W * (go_error + string);
  q_AvailableTips : string -> W -> Client -> W * (go_error + D);
  q_Pool : W -> Client -> W * (go_error + Z);                        (** the bonded tokens *)
  q_SelectionsTo : string -> W -> Client -> W * (go_error + list Selection);
  q_Balance : string -> W -> Client -> W * (go_error + Z);           (** in loya *)
  ParseDecCoins : string -> go_error + list (DecCoin D);
  DecCoin_String : DecCoin D -> string;
  bech32_DecodeAndConvert : string -> go_error + (string * list Z);
  bech32_ConvertAndEncode : string -> list Z -> go_error + string
}.

Section Tasks.
Context {W Client D : Type} `{!LegacyDec D} `{!ChainLibs W Client D}.

(** The parameters of Endpoints. *)
Variable factory : W -> string -> W * (go_error + Client).
Variable CloseConnection : W -> Client -> W.
Variable ctxDone : W -> bool.
Variable status_Code : go_error -> grpc_code.
Variable accAddr : string.
(** The constant of the chain's module of types. *)
Variable PowerReduction : Z.

Notation ask := (ask factory CloseConnection ctxDone status_Code).

(** ** The gas price *)
Definition last_positive_loya (coins : list (DecCoin D)) : D :=
  foldl (fun acc coin => if bool_decide (Denom coin = "loya") && dec_GT (Amount coin) LegacyZeroDec then Amount coin else acc)
    LegacyZeroDec coins.

Definition gasprice (local global : list (DecCoin D)) : DecCoin D :=
  mkDecCoin "loya" (LegacyMaxDec (last_positive_loya local) (last_positive_loya global)).

(** The new [minGasFee], if it is set. *)
Definition SetGasPrice (minGasFee : string) (st : @St W Client) : @St W Client * go string :=
  match ask "minimum gas prices lookup" q_MinimumGasPrices st with
  | (st, Err err) => (st, Err (wrapf "getting minimum gas price (globalfee)" err))
  | (st, Panic p) => (st, Panic p)
  | (st, Ok MinimumGasPrices) =>
      match ParseDecCoins minGasFee with
      | inl err => (st, Err (wrapf "parsing local gas price" err))
      | inr localPrice =>
          let p := gasprice MinimumGasPrices localPrice in
          if dec_IsZero (Amount p) then (st, Err (ErrNew "unable to set gas price, global and local gas prices are zero"))
          else (st, Ok (DecCoin_String p))
      end
  end.

(** ** The startup *)
Definition connection_texts : list string :=
  ["connection refused"; "connection reset"; "connection closed"; "transport: Error while dialing"; "Unavailable"].
Definition isConnectionError (err : go_error) : bool := contains_one_of connection_texts (error_text err).

(** [time.Sleep]: the world after it. *)
Variable pass : W -> Duration -> W.
Definition sleep (d : Duration) (st : @St W Client) : @St W Client := with_world (pass (world st) d) st.

(** The attempts of [checkReporter] from one on, of which [rest] follow. A panic of a
    query goes up. *)
Fixpoint check_attempts (rest : nat) (retryDelay : Duration) (st : @St W Client) : @St W Client * (go_panic + bool) :=
  let again st :=
    match rest with
    | O => (st, inr false)
    | S rest => check_attempts rest (retryDelay * 2) (sleep retryDelay st)
    end in
  let last := (rest =? 0)%nat in
  match ask "reporter lookup" (q_Reporter accAddr) st with
  | (st, Ok _) => (st, inr true)
  | (st, Panic p) => (st, inl p)
  | (st, Err err) =>
      if isConnectionError err && negb last then again st
      else
        match ask "selector reporter lookup" (q_SelectorReporter accAddr) st with
        | (st, Ok _) => (st, inr true)
        | (st, Panic p) => (st, inl p)
        | (st, Err err) =>
            if isConnectionError err && negb last then again st
            else if negb (isConnectionError err) || last then (st, inr false)
            else again st
        end
  end.

Definition maxRetries : nat := 3.
Definition checkReporter (st : @St W Client) : @St W Client * (go_panic + bool) :=
  check_attempts (maxRetries - 1) Second st.

Inductive startup_result := StartupCanceled | Ready (minGasFee : string) | Crashed (p : go_panic).

(** The loop before the tasks, with fuel for its rounds. *)
Fixpoint startup (fuel : nat) (minGasFee : string) (st : @St W Client) : option (@St W Client * startup_result) :=
  match fuel with
  | O => None
  | S fuel =>
      if ctxDone (world st) then Some (st, StartupCanceled)
      else
        match checkReporter st with
        | (st, inr true) =>
            match SetGasPrice minGasFee st with
            | (st, Ok fee) => Some (st, Ready fee)
            | (st, Err _) => startup fuel minGasFee (sleep Second st)
            | (st, Panic p) => Some (st, Crashed p)
            end
        | (st, inr false) => startup fuel minGasFee (sleep Second st)
        | (st, inl p) => Some (st, Crashed p)
        end
  end.

(** The tasks, in the order in which they start. *)
Inductive task :=
  | RestorePrimaryEndpointsPeriodically | BroadcastTxMsgToChain | MonitorCyclelistQuery | MonitorTokenBridgeReports
  | MonitorForTippedQueries | WithdrawAndStakeEarnedRewardsPeriodically | AutoUnbondStakePeriodically
  | AutoBridgeWalletExcessPeriodically | RefreshGasEstimatesPeriodically.

(** What runs after the startup: [waited] tells whether the five seconds passed before
    the context ended. The wait for a block after them only logs its error. *)
Definition tasks_started (refreshGasEstimatesInterval : Duration) (r : startup_result) (waited : bool) : list task :=
  match r with
  | Ready _ =>
      RestorePrimaryEndpointsPeriodically ::
      (if waited then
         [BroadcastTxMsgToChain; MonitorCyclelistQuery; MonitorTokenBridgeReports; MonitorForTippedQueries;
          WithdrawAndStakeEarnedRewardsPeriodically; AutoUnbondStakePeriodically; AutoBridgeWalletExcessPeriodically] ++
         (if 0 <? refreshGasEstimatesInterval then [RefreshGasEstimatesPeriodically] else [])
       else [])
  | _ => []
  end.

(** ** The validator of the reporter *)
Definition toValidatorOperator (walletAddr : string) : string :=
  if bool_decide (walletAddr = "") then ""
  else
    match bech32_DecodeAndConvert walletAddr with
    | inl _ => ""
    | inr (_, addrBytes) =>
        match bech32_ConvertAndEncode "tellorvaloper" addrBytes with inl _ => "" | inr valoperAddr => valoperAddr end
    end.

Definition reportersValidatorAddressEnv : string := "REPORTERS_VALIDATOR_ADDRESS".

(** [env]: the value of that variable. *)
Definition validatorOperatorAddress (env reporterAddr : string) : go (string * string) :=
  let configuredAddr := strings_TrimSpace env in
  if negb (bool_decide (configuredAddr = "")) then
    match bech32_DecodeAndConvert configuredAddr with
    | inl err => Err (wrapf (reportersValidatorAddressEnv +:+ " is not a valid bech32 address") err)
    | inr (prefix, _) =>
        if negb (bool_decide (prefix = "tellorvaloper")) then
          Err (ErrNew (reportersValidatorAddressEnv +:+ " must use tellorvaloper prefix, got " +:+ quoted prefix))
        else Ok (configuredAddr, reportersValidatorAddressEnv)
    end
  else
    let valAddr := toValidatorOperator reporterAddr in
    if bool_decide (valAddr = "") then Err (ErrNew "could not derive validator operator address from reporter address")
    else Ok (valAddr, "derived").

(** ** The withdrawal of tips *)
Definition projectedReporterShareExceeds (reporterPower : Z) (tips : D) (totalBonded : Z) (threshold : D) : bool :=
  let projectedStake := reporterPower * PowerReduction + TruncateInt tips in
  dec_GT (ToLegacyDec projectedStake) (dec_Mul (ToLegacyDec totalBonded) threshold).

Definition shouldWithdrawTipsToWallet (f : Flags) (st : @St W Client) : @St W Client * go bool :=
  if withdraw_to_wallet f then (st, Ok true)
  else
    match LegacyNewDecFromStr (threshold_text f) with
    | inl err => (st, Err (wrapf "invalid withdrawal power threshold" err))
    | inr threshold =>
        match ask "reporter power lookup" (q_Reporter accAddr) st with
        | (st, Ok power) =>
            match ask "available tips lookup" (q_AvailableTips accAddr) st with
            | (st, Ok tips) =>
                match ask "staking pool lookup" q_Pool st with
                | (st, Ok bonded) => (st, Ok (projectedReporterShareExceeds power tips bonded threshold))
                | (st, Err err) => (st, Err err)
                | (st, Panic p) => (st, Panic p)
                end
            | (st, Err err) => (st, Err err)
            | (st, Panic p) => (st, Panic p)
            end
        | (st, Err err) => (st, Err err)
        | (st, Panic p) => (st, Panic p)
        end
    end.

(** What a task gives to [trySend]: a message that is not of a bridge deposit has no
    retries. *)
Definition task_message (msg : sdk_Msg) (isBridge : bool) : TxChannelInfo := mkTxChannelInfo msg isBridge 0 0.

(** A round of [WithdrawAndStakeEarnedRewardsPeriodically] before its wait. *)
Definition withdraw_round (f : Flags) (env : string) (st : @St W Client) : @St W Client * go (option TxChannelInfo) :=
  match shouldWithdrawTipsToWallet f st with
  | (st, Err _) => (st, Ok None)
  | (st, Panic p) => (st, Panic p)
  | (st, Ok true) => (st, Ok (Some (task_message (WithdrawTipToBalance accAddr) false)))
  | (st, Ok false) =>
      (st, match validatorOperatorAddress env accAddr with
           | Ok (valAddr, _) => Ok (Some (task_message (WithdrawTip accAddr valAddr) false))
           | Err _ => Ok None
           | Panic p => Panic p
           end)
  end.

(** [freqVar]: the environment's WITHDRAW_FREQUENCY. *)
Definition withdraw_frequency (freqVar : string) : option Z := Atoi (if bool_decide (freqVar = "") then "43200" else freqVar).

(** [time.Duration(frequency) * time.Second] *)
Definition withdraw_wait (frequency : Z) : Duration := wrap int64 (frequency * Second).

Inductive withdraw_event := Sent (info : TxChannelInfo) | Waited (d : Duration).

(** [waitFor w d]: whether the wait came to its end before the context was canceled.
    The loop, with fuel for its rounds: what it does until it ends or the fuel does. *)
Section WithdrawLoop.
Variable waitFor : W -> Duration -> W * bool.
Fixpoint withdraw_loop (fuel : nat) (f : Flags) (env : string) (frequency : Z) (st : @St W Client) :
    @St W Client * list withdraw_event :=
  match fuel with
  | O => (st, [])
  | S fuel =>
      if ctxDone (world st) then (st, [])
      else
        match withdraw_round f env st with
        | (st, Ok info) =>
            let sent := option_list (Sent <$> info) in
            match waitFor (world st) (withdraw_wait frequency) with
            | (w, true) =>
                let '(st, l) := withdraw_loop fuel f env frequency (with_world w st) in
                (st, sent ++ Waited (withdraw_wait frequency) :: l)
            | (w, false) => (with_world w st, sent)
            end
        | (st, _) => (st, [])
        end
  end.
End WithdrawLoop.

(** ** The unbonding of stake *)
Inductive unbond_start :=
  | UnbondDisabled
  | UnbondAddressError (e : go_error)
  | UnbondTicking (every : Duration) (maxStakePercentage : D) (unbondAmount : Z) (valAddr : string).

Definition secondsInDay : Z := 86400.

(** [AutoUnbondStakePeriodically] before its loop. [NewTicker] panics for a duration
    that is not positive. *)
Definition auto_unbond_start (f : Flags) (env : string) : go unbond_start :=
  if auto_unbonding_frequency f =? 0 then Ok UnbondDisabled
  else
    let every := wrap int64 (wrap int64 (secondsInDay * auto_unbonding_frequency f) * Second) in
    if every <=? 0 then Panic (PanicMsg "non-positive interval for NewTicker")
    else
      match LegacyNewDecFromStr (auto_unbonding_max_stake_percentage f) with
      | inl err => Panic (PanicMsg (error_text err))
      | inr maxStakePercentage =>
          match validatorOperatorAddress env accAddr with
          | Ok (valAddr, _) => Ok (UnbondTicking every maxStakePercentage (auto_unbonding_amount f) valAddr)
          | Err err => Ok (UnbondAddressError err)
          | Panic p => Panic p
          end
      end.

Definition shouldSkipAutoUnbond (reporterStake maxStakePercentage : D) (unbondAmount : Z) : bool :=
  if negb (dec_GT maxStakePercentage LegacyZeroDec) then false
  else dec_LT (dec_Mul reporterStake maxStakePercentage) (ToLegacyDec unbondAmount).

(** The first selection of the reporter itself. *)
Definition own_stake (selections : list Selection) : D :=
  match list_find (fun s => Selector s = accAddr) selections with
  | Some (_, s) => ToLegacyDec (DelegationsTotal s)
  | None => LegacyZeroDec
  end.

Definition auto_unbond_tick (maxStakePercentage : D) (unbondAmount : Z) (valAddr : string) (st : @St W Client) :
    @St W Client * go (option TxChannelInfo) :=
  match ask "reporter selections lookup" (q_SelectionsTo accAddr) st with
  | (st, Err _) => (st, Ok None)
  | (st, Panic p) => (st, Panic p)
  | (st, Ok []) => (st, Ok None)
  | (st, Ok selections) =>
      if shouldSkipAutoUnbond (own_stake selections) maxStakePercentage unbondAmount then (st, Ok None)
      else (st, Ok (Some (task_message (Undelegate accAddr valAddr unbondAmount) false)))
  end.

(** ** The excess of the wallet *)
Section AutoBridge.
Variable IsHexAddress : string -> bool.
Variable HexToAddress_Hex : string -> string.

(** [AutoBridgeWalletExcessPeriodically] before its loop: nothing to do, or the address,
    the hour and the minute. *)
Definition auto_bridge_start (f : Flags) : go (option (string * Z * Z)) :=
  if auto_balance_to_keep f =? 0 then Ok None
  else
    ethAddr ← normalizeAutoBalanceEthAddr IsHexAddress HexToAddress_Hex (auto_balance_bridge_to_eth_addr f);
    '(hour, minute) ← parseAutoBalanceExecutionTime (auto_balance_execution_time f);
    mret (Some (ethAddr, hour, minute)).
End AutoBridge.

Definition Day : Duration := 24 * Hour.

(** [time.Date] of the day of [now]: times count from the start of a day, and UTC has
    no days of another length. *)
Definition next_execution (now : Time) (hour minute : Z) : Time :=
  let next := now / Day * Day + hour * Hour + minute * Minute in
  if negb (time_Before now next) then time_Add next Day else next.

Definition gasReserve : Z := 1000000.

(** The check of the balance at that time. *)
Definition auto_bridge_check (balanceToKeep : Z) (ethAddr : string) (st : @St W Client) : @St W Client * go (option TxChannelInfo) :=
  match ask "wallet balance lookup" (q_Balance accAddr) st with
  | (st, Err _) => (st, Ok None)
  | (st, Panic p) => (st, Panic p)
  | (st, Ok walletBal) =>
      let amountToBridge := walletBal - balanceToKeep - gasReserve in
      if negb (0 <? amountToBridge) then (st, Ok None)
      else (st, Ok (Some (task_message (WithdrawTokens accAddr ethAddr amountToBridge) true)))
  end.

(** ** Lemmas: the price of gas *)
Definition is_loya (coin : DecCoin D) : Prop := Denom coin = "loya".
#[local] Instance is_loya_dec coin : Decision (is_loya coin).
Proof using Type. unfold is_loya. apply _. Defined.

Definition picked (coins : list (DecCoin D)) (a : D) : Prop :=
  a = LegacyZeroDec \/ exists coin, coin ∈ coins /\ is_loya coin /\ Amount coin = a /\ (0 < dec_value a)%Q.

Lemma last_positive_picked coins : picked coins (last_positive_loya coins).
Proof using Type.
  clear. unfold last_positive_loya. induction coins as [|coin coins IH] using rev_ind; [by left|].
  rewrite foldl_app. cbn. revert IH. generalize (foldl (fun acc coin => if bool_decide (Denom coin = "loya") && dec_GT (Amount coin) LegacyZeroDec
    then Amount coin else acc) LegacyZeroDec coins) as a. intros a Ha.
  case_bool_decide as Ed; cbn; [destruct (dec_GT _ _) eqn:Eg|].
  - right. exists coin. split; [set_solver|]. split; [done|]. split; [done|]. apply dec_GT_spec in Eg. by rewrite dec_value_0 in Eg.
  - destruct Ha as [->|(c & ? & ?)]; [by left|]. right. exists c. split; [set_solver|done].
  - destruct Ha as [->|(c & ? & ?)]; [by left|]. right. exists c. split; [set_solver|done].
Qed.

Lemma picked_nonneg coins a : picked coins a -> (0 <= dec_value a)%Q.
Proof using Type. clear. intros [->|(_ & _ & _ & _ & H)]; [rewrite dec_value_0; apply Qle_refl|by apply Qlt_le_weak]. Qed.

(** Coins of the module have one amount of a denomination. *)
Definition one_loya (coins : list (DecCoin D)) : Prop := (length (filter is_loya coins) <= 1)%nat.

Lemma last_positive_other coins a :
  filter is_loya coins = [] -> foldl (fun acc coin => if bool_decide (Denom coin = "loya") && dec_GT (Amount coin) LegacyZeroDec then Amount coin else acc) a coins = a.
Proof using Type.
  clear. revert a. induction coins as [|coin coins IH]; intros a; [done|]. rewrite filter_cons. case_decide as Hd; [done|]. cbn [foldl].
  rewrite bool_decide_false by done. apply IH.
Qed.

Lemma last_positive_max coins coin :
  one_loya coins -> coin ∈ coins -> is_loya coin -> (dec_value (Amount coin) <= dec_value (last_positive_loya coins))%Q.
Proof using Type.
  clear. intros Ho (l1 & l2 & ->)%list_elem_of_split Hl. unfold one_loya in Ho.
  rewrite filter_app, filter_cons, decide_True, length_app in Ho by done. cbn in Ho.
  assert (filter is_loya l1 = [] /\ filter is_loya l2 = []) as [E1 E2] by (split; apply nil_length_inv; lia).
  unfold last_positive_loya. rewrite foldl_app, (last_positive_other _ _ E1). cbn. rewrite last_positive_other by done.
  rewrite bool_decide_true by done. cbn. destruct (dec_GT _ _) eqn:Eg; [apply Qle_refl|].
  apply dec_GT_false in Eg. exact Eg.
Qed.

(** The price is the amount of a coin of one side, and no less than that of the other. *)
Definition fair_price (global local : list (DecCoin D)) (a : D) : Prop :=
  (0 < dec_value a)%Q /\ (exists coin, coin ∈ global ++ local /\ is_loya coin /\ Amount coin = a) /\
  (one_loya global -> one_loya local -> forall coin, coin ∈ global ++ local -> is_loya coin -> (dec_value (Amount coin) <= dec_value a)%Q).

Lemma gasprice_fair global local :
  dec_IsZero (Amount (gasprice global local)) = false -> fair_price global local (Amount (gasprice global local)).
Proof using Type.
  clear. intros Hz. unfold gasprice in *. cbn in *.
  pose proof (LegacyMaxDec_value (last_positive_loya global) (last_positive_loya local)) as (H1 & H2 & H3).
  pose proof (last_positive_picked global) as Pg. pose proof (last_positive_picked local) as Pl.
  set (a := LegacyMaxDec _ _) in *.
  assert (0 < dec_value a)%Q as Hpos.
  { apply Qle_lt_or_eq in H1 as [H1|H1].
    - apply (Qle_lt_trans _ (dec_value (last_positive_loya global))); [exact (picked_nonneg _ _ Pg)|exact H1].
    - pose proof (picked_nonneg _ _ Pg) as H0. rewrite H1 in H0. apply Qle_lt_or_eq in H0 as [H0|H0]; [done|].
      assert (dec_IsZero a = true) by (apply dec_IsZero_spec; by rewrite H0). congruence. }
  split; [done|]. split.
  - assert (picked global a \/ picked local a) as [[E|(c & Hc & Hl & Ha & _)]|[E|(c & Hc & Hl & Ha & _)]]
      by (destruct H3 as [->| ->]; auto).
    + rewrite E, dec_value_0 in Hpos. by apply Qlt_irrefl in Hpos.
    + exists c. split; [set_solver|done].
    + rewrite E, dec_value_0 in Hpos. by apply Qlt_irrefl in Hpos.
    + exists c. split; [set_solver|done].
  - intros Hg Hl coin [Hc|Hc]%elem_of_app Hd.
    + eapply Qle_trans; [exact (last_positive_max global coin Hg Hc Hd)|done].
    + eapply Qle_trans; [exact (last_positive_max local coin Hl Hc Hd)|done].
Qed.

Lemma SetGasPrice_Ok fee st st' fee' :
  SetGasPrice fee st = (st', Ok fee') ->
  exists global local, answered q_MinimumGasPrices global /\ ParseDecCoins fee = inr local /\
    fee' = DecCoin_String (gasprice global local) /\ fair_price global local (Amount (gasprice global local)).
Proof using Type.
  clear. unfold SetGasPrice. destruct (ask _ _ st) as [st1 [global|e|p]] eqn:Ea; [|by intros; simplify_eq..].
  apply ask_Ok in Ea. destruct (ParseDecCoins fee) as [e|local] eqn:Ep; [by intros; simplify_eq|].
  destruct (dec_IsZero _) eqn:Ez; intros; simplify_eq. exists global, local. split; [done|]. split; [done|]. split; [done|].
  by apply gasprice_fair.
Qed.
(** ** The startup *)
Definition reporter_known : Prop :=
  (exists power, answered (q_Reporter accAddr) power) \/ exists reporter, answered (q_SelectorReporter accAddr) reporter.

Lemma check_attempts_true rest delay st st' : check_attempts rest delay st = (st', inr true) -> reporter_known.
Proof using Type.
  clear -st. revert delay st. induction rest as [|rest IH]; intros delay st; cbn [check_attempts].
  - destruct (ask _ _ st) as [st1 [power|e|p]] eqn:E1; [apply ask_Ok in E1; intros _; left; by eexists| |by intros; simplify_eq].
    rewrite andb_false_r. destruct (ask _ _ st1) as [st2 [r|e2|p]] eqn:E2; [apply ask_Ok in E2; intros _; right; by eexists| |by intros; simplify_eq].
    rewrite andb_false_r, orb_true_r. by intros; simplify_eq.
  - destruct (ask _ _ st) as [st1 [power|e|p]] eqn:E1; [apply ask_Ok in E1; intros _; left; by eexists| |by intros; simplify_eq].
    cbn [Nat.eqb negb]. rewrite andb_true_r. destruct (isConnectionError e); [apply IH|].
    destruct (ask _ _ st1) as [st2 [r|e2|p]] eqn:E2; [apply ask_Ok in E2; intros _; right; by eexists| |by intros; simplify_eq].
    rewrite andb_true_r, orb_false_r. destruct (isConnectionError e2); [apply IH|]. by intros; simplify_eq.
Qed.

(** The safety of the startup. No task starts before a node has confirmed that the account is a reporter, or has
    selected one, and before the price of gas is set: the text of a positive amount that
    the chain or the configuration names, and no less than what either asks for. A
    startup that ends in any other way starts none. *)
Lemma startup_safe fuel fee st st' r interval waited :
  startup fuel fee st = Some (st', r) ->
  match r with
  | Ready fee' =>
      reporter_known /\
      exists global local, answered q_MinimumGasPrices global /\ ParseDecCoins fee = inr local /\
        fee' = DecCoin_String (gasprice global local) /\ fair_price global local (Amount (gasprice global local)) /\
        hd_error (tasks_started interval r waited) = Some RestorePrimaryEndpointsPeriodically
  | _ => tasks_started interval r waited = []
  end.
Proof using Type.
  clear -st. revert st. induction fuel as [|fuel IH]; intros st; cbn [startup]; [done|].
  destruct (ctxDone (world st)); [by intros; simplify_eq|].
  destruct (checkReporter st) as [st1 [p|[]]] eqn:Ec; [by intros; simplify_eq| |apply IH].
  destruct (SetGasPrice fee st1) as [st2 [fee'|e|p]] eqn:Eg; [|apply IH|by intros; simplify_eq].
  intros; simplify_eq. split; [by eapply check_attempts_true|].
  destruct (SetGasPrice_Ok _ _ _ _ Eg) as (global & local & H1 & H2 & H3 & H4). by exists global, local.
Qed.

(** With a clock: no operation turns it back, a sleep moves it on, and the context ends
    at a time. *)
Section Clock.
Variable clock : W -> Z.
Notation after := (fun w w' => clock w <= clock w').
Hypothesis factory_clock : forall w e, after w (factory w e).1.
Hypothesis close_clock : forall w c, after w (CloseConnection w c).
Hypothesis prices_clock : forall w c, after w (q_MinimumGasPrices w c).1.
Hypothesis reporter_clock : forall w c, after w (q_Reporter accAddr w c).1.
Hypothesis selector_clock : forall w c, after w (q_SelectorReporter accAddr w c).1.
Hypothesis pass_clock : forall w d, 0 <= d -> clock w + d <= clock (pass w d).

#[local] Instance after_preorder : PreOrder after.
Proof using Type. clear. split; [by intros w|intros a b c; cbn; lia]. Qed.

Lemma sleep_clock d st : 0 <= d -> clock (world st) + d <= clock (world (sleep d st)).
Proof using pass_clock. intros Hd. by apply pass_clock. Qed.

Lemma ask_clock {R} operation (call : W -> Client -> W * (go_error + R)) st :
  (forall w c, after w (call w c).1) -> clock (world st) <= clock (world (ask operation call st).1).
Proof using factory_clock close_clock. intros Hk. by apply (ask_moves factory CloseConnection ctxDone status_Code after). Qed.

Lemma check_attempts_clock rest delay st :
  0 <= delay -> clock (world st) <= clock (world (check_attempts rest delay st).1).
Proof using factory_clock close_clock reporter_clock selector_clock pass_clock.
  revert delay st. induction rest as [|rest IH]; intros delay st Hd; cbn [check_attempts];
    pose proof (ask_clock "reporter lookup" _ st reporter_clock) as H1;
    destruct (ask _ _ st) as [st1 [power|e|p]]; cbn [fst Nat.eqb negb] in H1 |- *; try exact H1.
  - rewrite andb_false_r. pose proof (ask_clock "selector reporter lookup" _ st1 selector_clock) as H2.
    destruct (ask _ _ st1) as [st2 [r|e2|p]]; cbn [fst] in H2 |- *; try lia. rewrite andb_false_r, orb_true_r. cbn [fst]. lia.
  - assert (forall st', clock (world st') <= clock (world (check_attempts rest (delay * 2) (sleep delay st')).1)) as Hagain.
    { intros st'. pose proof (sleep_clock delay st' Hd). pose proof (IH (delay * 2) (sleep delay st') ltac:(lia)). lia. }
    rewrite andb_true_r. destruct (isConnectionError e); [exact (Z.le_trans _ _ _ H1 (Hagain st1))|].
    pose proof (ask_clock "selector reporter lookup" _ st1 selector_clock) as H2.
    destruct (ask _ _ st1) as [st2 [r|e2|p]]; cbn [fst] in H2 |- *; try lia.
    rewrite andb_true_r, orb_false_r.
    destruct (isConnectionError e2); cbn [negb]; [exact (Z.le_trans _ _ _ (Z.le_trans _ _ _ H1 H2) (Hagain st2))|]. cbn [fst]. lia.
Qed.

Lemma SetGasPrice_clock fee st : clock (world st) <= clock (world (SetGasPrice fee st).1).
Proof using factory_clock close_clock prices_clock.
  unfold SetGasPrice. pose proof (ask_clock "minimum gas prices lookup" _ st prices_clock) as H.
  destruct (ask _ _ st) as [st1 [global|e|p]]; cbn in *; try done.
  destruct (ParseDecCoins fee); [done|]. by destruct (dec_IsZero _).
Qed.

(** Every round that does not end the startup takes a second or more, so a startup whose
    context ends at a time ends: with a result, whatever the nodes answer. *)
Lemma startup_ends deadline fuel fee st :
  (forall w, deadline <= clock w -> ctxDone w = true) ->
  deadline <= clock (world st) + Z.of_nat fuel * Second ->
  exists st' r, startup (S fuel) fee st = Some (st', r).
Proof using factory_clock close_clock prices_clock reporter_clock selector_clock pass_clock.
  intros Hctx. revert st. induction fuel as [|fuel IH]; intros st Hd.
  - cbn [startup]. rewrite Hctx by (cbn in Hd; lia). by eexists _, _.
  - remember (S fuel) as n eqn:En. cbn [startup]. destruct (ctxDone (world st)); [by eexists _, _|].
    pose proof (check_attempts_clock 2 Second st ltac:(done)) as H1. unfold checkReporter. change (maxRetries - 1)%nat with 2%nat.
    destruct (check_attempts 2 Second st) as [st1 [p|[]]]; cbn in H1; [by eexists _, _| |].
    + pose proof (SetGasPrice_clock fee st1) as H2. destruct (SetGasPrice fee st1) as [st2 [fee'|e|p]]; cbn in H2; [by eexists _, _| |by eexists _, _].
      subst n. apply IH. pose proof (sleep_clock Second st2 ltac:(done)). unfold Second in *. lia.
    + subst n. apply IH. pose proof (sleep_clock Second st1 ltac:(done)). unfold Second in *. lia.
Qed.

(** C26: When the context ends at a time, the startup ends: within a round for every second
    that is left, whatever the nodes answer. And no task starts before a node has confirmed
    that the account is a reporter, or has selected one, and before the price of gas is
    set: the text of a positive amount that the chain or the configuration names, and no
    less than what either asks for. A startup that ends in any other way starts none. *)
Theorem startup_correct deadline fuel fee st interval waited :
  (forall w, deadline <= clock w -> ctxDone w = true) ->
  deadline <= clock (world st) + Z.of_nat fuel * Second ->
  exists st' r, startup (S fuel) fee st = Some (st', r) /\
    match r with
    | Ready fee' =>
        reporter_known /\
        exists global local, answered q_MinimumGasPrices global /\ ParseDecCoins fee = inr local /\
          fee' = DecCoin_String (gasprice global local) /\ fair_price global local (Amount (gasprice global local)) /\
          hd_error (tasks_started interval r waited) = Some RestorePrimaryEndpointsPeriodically
    | _ => tasks_started interval r waited = []
    end.
Proof using factory_clock close_clock prices_clock reporter_clock selector_clock pass_clock.
  intros Hctx Hd. destruct (startup_ends deadline fuel fee st Hctx Hd) as (st' & r & E).
  exists st', r. split; [exact E|]. exact (startup_safe _ _ _ _ _ interval waited E).
Qed.
End Clock.
(** ** The withdrawal of tips *)

(** The share that the reporter would have with its tips, against the threshold. *)
Definition exceeds (f : Flags) (answer : bool) : Prop :=
  exists threshold power tips bonded,
    LegacyNewDecFromStr (threshold_text f) = inr threshold /\ answered (q_Reporter accAddr) power /\
    answered (q_AvailableTips accAddr) tips /\ answered q_Pool bonded /\
    (answer = true <-> (inject_Z bonded * dec_value threshold < inject_Z (power * PowerReduction + Qtrunc (dec_value tips)))%Q).

(** The validator named by the environment, or the one of the account. *)
Definition validator_of (env valAddr : string) : Prop :=
  exists bytes, bech32_DecodeAndConvert valAddr = inr ("tellorvaloper", bytes) /\
    (strings_TrimSpace env = "" -> exists prefix, bech32_DecodeAndConvert accAddr = inr (prefix, bytes)) /\
    (strings_TrimSpace env <> "" -> valAddr = strings_TrimSpace env).

Definition bech32_law : Prop :=
  forall prefix bytes s, bech32_ConvertAndEncode prefix bytes = inr s -> bech32_DecodeAndConvert s = inr (prefix, bytes).

Lemma validatorOperatorAddress_Ok env valAddr source :
  bech32_law -> validatorOperatorAddress env accAddr = Ok (valAddr, source) -> validator_of env valAddr.
Proof using Type.
  clear. intros Hlaw. unfold validatorOperatorAddress. case_bool_decide as Ee; cbn [negb].
  - unfold toValidatorOperator. destruct (bool_decide (accAddr = "")); [done|].
    destruct (bech32_DecodeAndConvert accAddr) as [e|[p bytes]] eqn:Ed; [done|].
    destruct (bech32_ConvertAndEncode "tellorvaloper" bytes) as [e|v] eqn:Ev; [done|].
    case_bool_decide; intros; simplify_eq. exists bytes. split; [by apply Hlaw|]. split; [|done]. intros _. by exists p.
  - destruct (bech32_DecodeAndConvert (strings_TrimSpace env)) as [e|[p bytes]] eqn:Ed; [done|].
    case_bool_decide as Ep; cbn; intros; simplify_eq. exists bytes. done.
Qed.

Lemma shouldWithdraw_Ok f st st' b :
  shouldWithdrawTipsToWallet f st = (st', Ok b) ->
  withdraw_to_wallet f = true /\ b = true \/ withdraw_to_wallet f = false /\ exceeds f b.
Proof using Type.
  clear. unfold shouldWithdrawTipsToWallet. destruct (withdraw_to_wallet f); [intros; simplify_eq; by left|].
  destruct (LegacyNewDecFromStr _) as [e|threshold] eqn:Et; [by intros; simplify_eq|].
  destruct (ask _ _ st) as [st1 [power|e|p]] eqn:E1; [|by intros; simplify_eq..]. apply ask_Ok in E1.
  destruct (ask _ _ st1) as [st2 [tips|e|p]] eqn:E2; [|by intros; simplify_eq..]. apply ask_Ok in E2.
  destruct (ask _ _ st2) as [st3 [bonded|e|p]] eqn:E3; [|by intros; simplify_eq..]. apply ask_Ok in E3.
  intros; simplify_eq. right. split; [done|]. exists threshold, power, tips, bonded. split_and!; try done.
  unfold projectedReporterShareExceeds. rewrite dec_GT_spec, dec_Mul_integer, ToLegacyDec_value, TruncateInt_spec. done.
Qed.

(** What a message of the task says. *)
Definition withdrawal (f : Flags) (env : string) (info : TxChannelInfo) : Prop :=
  info = task_message (WithdrawTipToBalance accAddr) false /\ (withdraw_to_wallet f = true \/ exceeds f true) \/
  exists valAddr, info = task_message (WithdrawTip accAddr valAddr) false /\ withdraw_to_wallet f = false /\ exceeds f false /\
    validator_of env valAddr.

Lemma withdraw_round_Ok f env st st' info :
  bech32_law -> withdraw_round f env st = (st', Ok (Some info)) -> withdrawal f env info.
Proof using Type.
  clear. intros Hlaw. unfold withdraw_round. destruct (shouldWithdrawTipsToWallet f st) as [st1 [b|e|p]] eqn:Es; [|by intros; simplify_eq..].
  apply shouldWithdraw_Ok in Es. destruct b.
  - intros; simplify_eq. left. split; [done|]. destruct Es as [[? _]|[_ ?]]; auto.
  - destruct (validatorOperatorAddress env accAddr) as [[v source]|e|p] eqn:Ev; intros; simplify_eq.
    right. exists v. destruct Es as [[_ ?]|[? ?]]; [done|]. split; [done|]. split; [done|]. split; [done|]. by eapply validatorOperatorAddress_Ok.
Qed.

(** Two messages have a wait between them. *)
Definition spaced (d : Duration) (l : list withdraw_event) : Prop :=
  forall i j a b, l !! i = Some (Sent a) -> l !! j = Some (Sent b) -> (i < j)%nat ->
    exists k, (i < k < j)%nat /\ l !! k = Some (Waited d).

Lemma spaced_round d sent l : (length sent <= 1)%nat -> spaced d l -> spaced d ((Sent <$> sent) ++ Waited d :: l).
Proof using Type.
  clear. intros Hs Hl i j a b. destruct sent as [|x [|? ?]]; cbn in *; [| |lia].
  - destruct i as [|i], j as [|j]; cbn; try done; try lia. intros Hi Hj Hlt. destruct (Hl i j a b Hi Hj ltac:(lia)) as (k & Hk & E).
    exists (S k). split; [lia|done].
  - destruct i as [|[|i]], j as [|[|j]]; cbn; try done; try lia.
    + intros _ _ _. exists 1%nat. split; [lia|done].
    + intros Hi Hj Hlt. destruct (Hl i j a b Hi Hj ltac:(lia)) as (k & Hk & E). exists (S (S k)). split; [lia|done].
Qed.

Lemma withdraw_wait_exact frequency : 0 <= frequency <= 9223372036 -> withdraw_wait frequency = frequency * Second.
Proof using Type.
  clear. intros Hf. apply wrap_small; [done|]. unfold in_range, Second.
  change (min_int int64) with (-9223372036854775808). change (max_int int64) with 9223372036854775807. lia.
Qed.

#[local] Opaque withdraw_wait.

Lemma withdraw_loop_spec waitFor fuel f env frequency st st' l :
  bech32_law -> withdraw_loop waitFor fuel f env frequency st = (st', l) ->
  (forall info, Sent info ∈ l -> withdrawal f env info) /\ spaced (withdraw_wait frequency) l.
Proof using Type.
  clear -st. intros Hlaw El.
  revert st l El. induction fuel as [|fuel IH]; intros st l; cbn [withdraw_loop].
  { intros; simplify_eq. split; [set_solver|]. by intros ? ? ? ? ?. }
  destruct (ctxDone (world st)). { intros; simplify_eq. split; [set_solver|]. by intros ? ? ? ? ?. }
  destruct (withdraw_round f env st) as [st1 [info|e|p]] eqn:Er; [|intros; simplify_eq; split; [set_solver|by intros ? ? ? ? ?]..].
  assert (forall x, info = Some x -> withdrawal f env x) as Hi by (intros x ->; by eapply withdraw_round_Ok).
  assert (option_list (Sent <$> info) = Sent <$> option_list info) as -> by by destruct info.
  assert (forall x, Sent x ∈ Sent <$> option_list info -> withdrawal f env x) as Hi'.
  { intros x (y & [= ->] & Hy)%list_elem_of_fmap. apply Hi. destruct info; set_solver. }
  assert (length (option_list info) <= 1)%nat as Hlen by (destruct info; cbn; lia).
  destruct (waitFor (world st1) (withdraw_wait frequency)) as [w []].
  - destruct (withdraw_loop _ _ _ _ _ _) as [st2 l2] eqn:E2. intros; simplify_eq. destruct (IH _ _ E2) as [H1 H2].
    split; [|by apply spaced_round]. intros x [Hx|Hx]%elem_of_app; [by apply Hi'|]. set_solver.
  - intros; simplify_eq. split; [exact Hi'|]. intros i j a b Ha Hb Hlt. apply lookup_lt_Some in Hb. rewrite length_fmap in Hb. lia.
Qed.

(** The task withdraws to the wallet when the flag says so, or when the power of the
    reporter with its tips would be more than the threshold's share of the bonded tokens
    (exactly: the product is not rounded); else to the validator of the environment or of
    the account. Between two messages the whole wait passes, which is the frequency in
    seconds for 0 to 9223372036. *)
Theorem withdraw_correct waitFor fuel f env freqVar frequency st st' l :
  bech32_law -> withdraw_frequency freqVar = Some frequency ->
  withdraw_loop waitFor fuel f env frequency st = (st', l) ->
  (forall info, Sent info ∈ l -> withdrawal f env info) /\ spaced (withdraw_wait frequency) l /\
  (0 <= frequency <= 9223372036 -> withdraw_wait frequency = frequency * Second).
Proof using Type.
  clear -st. intros Hlaw _ El. destruct (withdraw_loop_spec _ _ _ _ _ _ _ _ Hlaw El) as [H1 H2].
  split; [exact H1|]. split; [exact H2|apply withdraw_wait_exact].
Qed.

#[local] Transparent withdraw_wait.

(** A longer frequency wraps, and the wait ends at once. *)
Example withdraw_wait_wraps : withdraw_frequency "9223372037" = Some 9223372037 /\ withdraw_wait 9223372037 < 0.
Proof. split; reflexivity. Qed.
(** ** The unbonding of stake *)
Section Accepted.
Variable IsHexAddress : string -> bool.
Variable HexToAddress_Hex : string -> string.
Notation config_ok := (config_ok IsHexAddress HexToAddress_Hex).

Lemma unbond_every frequency :
  0 < frequency <= 21 -> wrap int64 (wrap int64 (secondsInDay * frequency) * Second) = frequency * Day.
Proof using Type.
  clear. intros Hf. unfold secondsInDay, Day, Hour, Minute, Second.
  rewrite (wrap_small int64 (86400 * frequency)) by (done || (unfold in_range;
    change (min_int int64) with (-9223372036854775808); change (max_int int64) with 9223372036854775807; lia)).
  rewrite wrap_small by (done || (unfold in_range;
    change (min_int int64) with (-9223372036854775808); change (max_int int64) with 9223372036854775807; lia)).
  lia.
Qed.

Lemma validatorOperatorAddress_no_panic env addr p : validatorOperatorAddress env addr <> Panic p.
Proof using Type. clear. unfold validatorOperatorAddress. repeat (case_match; try done). Qed.

Lemma own_stake_value selections :
  exists z, own_stake selections = ToLegacyDec z /\
    match list_find (fun s => Selector s = accAddr) selections with Some (_, s) => z = DelegationsTotal s | None => z = 0 end.
Proof using Type. clear. unfold own_stake. destruct (list_find _ selections) as [[i s]|]; by eexists. Qed.

(** With the flags that [Start] accepts the unbonding task does not panic, and ticks
    every 1 to 21 days as configured; without them it is off or lacks an address. At a tick it unbonds the configured
    amount only when a node has named the selections, and never more than the configured
    share of the reporter's own stake, exactly, unless that share is zero. *)
Theorem auto_unbond_correct f env :
  bech32_law -> config_ok f -> 0 <= auto_unbonding_frequency f -> 0 <= auto_unbonding_amount f ->
  match auto_unbond_start f env with
  | Ok UnbondDisabled => auto_unbonding_frequency f = 0
  | Ok (UnbondAddressError _) => True
  | Ok (UnbondTicking every share amount valAddr) =>
      every = auto_unbonding_frequency f * Day /\ Day <= every <= 21 * Day /\ (0 <= dec_value share <= 1)%Q /\
      0 < amount /\ validator_of env valAddr /\
      forall st st' info, auto_unbond_tick share amount valAddr st = (st', Ok (Some info)) ->
        info = task_message (Undelegate accAddr valAddr amount) false /\
        exists selections, answered (q_SelectionsTo accAddr) selections /\ selections <> [] /\
          ((dec_value share <= 0)%Q \/
           exists z, own_stake selections = ToLegacyDec z /\ (inject_Z amount <= inject_Z z * dec_value share)%Q)
  | _ => False
  end.
Proof using Type.
  clear -f. intros Hlaw (_ & _ & _ & Hu & _) H0 Ha. unfold auto_unbond_start. destruct (auto_unbonding_frequency f =? 0) eqn:Ef; [lia|].
  destruct (Hu ltac:(lia)) as (Hmax & Hamount & share & Hread & Hshare). rewrite unbond_every by lia.
  destruct (auto_unbonding_frequency f * Day <=? 0) eqn:Ed; [unfold Day, Hour, Minute, Second in *; lia|].
  rewrite Hread. destruct (validatorOperatorAddress env accAddr) as [[v source]|e|p] eqn:Ev;
    [|done|by apply validatorOperatorAddress_no_panic in Ev].
  split; [done|]. split; [unfold Day, Hour, Minute, Second; lia|]. split; [done|]. split; [lia|].
  split; [by eapply validatorOperatorAddress_Ok|]. intros st st' info. unfold auto_unbond_tick.
  destruct (ask _ _ st) as [st1 [selections|e|p]] eqn:Es; [|by intros; simplify_eq..]. apply ask_Ok in Es.
  destruct selections as [|s selections]; [by intros; simplify_eq|]. destruct (shouldSkipAutoUnbond _ _ _) eqn:Ek; intros; simplify_eq.
  split; [done|]. exists (s :: selections). split; [done|]. split; [done|]. unfold shouldSkipAutoUnbond in Ek.
  destruct (dec_GT share LegacyZeroDec) eqn:Eg; cbn in Ek; [right|left].
  - destruct (own_stake_value (s :: selections)) as (z & Ez & _). exists z. split; [done|]. rewrite Ez in Ek.
    apply dec_LT_false in Ek. by rewrite dec_Mul_integer, ToLegacyDec_value in Ek.
  - apply dec_GT_false in Eg. by rewrite dec_value_0 in Eg.
Qed.

(** ** The excess of the wallet *)
Lemma next_execution_spec now hour minute :
  0 <= hour < 24 -> 0 <= minute < 60 ->
  now < next_execution now hour minute <= now + Day /\
  next_execution now hour minute mod Day = hour * Hour + minute * Minute.
Proof using Type.
  clear. intros Hh Hm. unfold next_execution, time_Before, time_Add.
  pose proof (Z.div_mod now Day ltac:(done)) as E. pose proof (Z.mod_pos_bound now Day ltac:(done)) as Hr.
  set (offset := hour * Hour + minute * Minute). assert (0 <= offset < Day) as Ho by (unfold offset, Day, Hour, Minute, Second; lia).
  replace (now / Day * Day + hour * Hour + minute * Minute) with (offset + now / Day * Day) by (unfold offset; lia).
  destruct (now <? offset + now / Day * Day) eqn:El; cbn.
  - split; [lia|]. rewrite Z_mod_plus_full. by apply Z.mod_small.
  - split; [lia|]. replace (offset + now / Day * Day + Day) with (offset + (now / Day + 1) * Day) by lia.
    rewrite Z_mod_plus_full. by apply Z.mod_small.
Qed.

(** With the flags that [Start] accepts the task is off exactly when nothing is to be
    kept, and never fails to start; it waits at most a day, for the configured hour and
    minute of UTC; and a message bridges, of a balance that a node has named, all but what
    is kept and the reserve for gas: as soon as the wallet has more than both. *)
Theorem auto_bridge_correct f :
  config_ok f -> 0 <= auto_balance_to_keep f ->
  match auto_bridge_start IsHexAddress HexToAddress_Hex f with
  | Ok None => auto_balance_to_keep f = 0
  | Ok (Some (ethAddr, hour, minute)) =>
      0 < auto_balance_to_keep f /\ ethAddr <> "" /\
      (forall now, now < next_execution now hour minute <= now + Day /\
         next_execution now hour minute mod Day = hour * Hour + minute * Minute) /\
      forall st st' info, auto_bridge_check (auto_balance_to_keep f) ethAddr st = (st', Ok info) ->
        info = None /\ (exists e, (ask "wallet balance lookup" (q_Balance accAddr) st).2 = Err e) \/
        exists balance, answered (q_Balance accAddr) balance /\
          ((balance <= auto_balance_to_keep f + gasReserve /\ info = None) \/
           exists amount, 0 < amount /\ balance - amount = auto_balance_to_keep f + gasReserve /\
             info = Some (task_message (WithdrawTokens accAddr ethAddr amount) true))
  | _ => False
  end.
Proof using Type.
  clear -f. intros (_ & _ & _ & _ & Hb) H0. unfold auto_bridge_start. destruct (auto_balance_to_keep f =? 0) eqn:Ek; [lia|].
  destruct (Hb ltac:(lia)) as [(addr & Ha & Hne) (h & m & Ht & Hh & Hm)]. rewrite Ha, Ht. cbn.
  split; [lia|]. split; [done|]. split; [intros now; by apply next_execution_spec|].
  intros st st' info. unfold auto_bridge_check. destruct (ask _ _ st) as [st1 [balance|e|p]] eqn:Es; [|intros; simplify_eq..].
  - apply ask_Ok in Es. destruct (0 <? balance - auto_balance_to_keep f - gasReserve) eqn:El; cbn; intros; simplify_eq; right; exists balance.
    + split; [done|]. right. eexists. split; [|split; [|reflexivity]]; lia.
    + split; [done|]. left. split; [lia|done].
  - left. split; [done|]. by eexists.
Qed.
End Accepted.
End Tasks.

(** ** Witnesses

    A chain with one node; the world is the time in nanoseconds. The reporter is found at
    the third second only. *)
#[local] Instance ex_chain : ChainLibs Z string Z := {|
  q_MinimumGasPrices := fun w _ => (w, inr [mkDecCoin "loya" (25 * 10 ^ 15)]);
  q_Reporter := fun _ w _ => (w, if w <? 3 * Second then inl (ErrNew "not found") else inr 40);
  q_SelectorReporter := fun _ w _ => (w, inl (ErrNew "not found"));
  q_AvailableTips := fun _ w _ => (w, inr (25 * 10 ^ 17));
  q_Pool := fun w _ => (w, inr 100000000);
  q_SelectionsTo := fun a w _ => (w, inr [mkSelection a 5000]);
  q_Balance := fun _ w _ => (w, inr 7500000);
  ParseDecCoins := fun s => if bool_decide (s = "0loya") then inr [] else inl (ErrNew "invalid decimal coin expression");
  DecCoin_String := fun c => if Amount c =? 25 * 10 ^ 15 then "0.025loya" else "another";
  bech32_DecodeAndConvert := fun s =>
    if bool_decide (s = "tellor1abc") then inr ("tellor", [1; 2])
    else if bool_decide (s = "tellorvaloper1abc") then inr ("tellorvaloper", [1; 2]) else inl (ErrNew "invalid bech32 string");
  bech32_ConvertAndEncode := fun prefix bytes =>
    if bool_decide (prefix = "tellorvaloper" /\ bytes = [1; 2]) then inr "tellorvaloper1abc" else inl (ErrNew "no encoding") |}.
Definition ex_read (s : string) : go_error + Z :=
  if bool_decide (s = "0.295") then inr (295 * 10 ^ 15) else if bool_decide (s = "0.10") then inr (10 ^ 17) else inl (ErrNew "invalid decimal").
#[local] Instance ex_decimals : LegacyDec Z := Units.with_reader ex_read.

Definition ex_node : @St Z string := mkSt 0 None (Some "node") [].
Definition ex_factory (w : Z) (endpoint : string) : Z * (go_error + string) := (w, inr endpoint).
Definition ex_close (w : Z) (_ : string) : Z := w.
Definition ex_done (w : Z) : bool := 10 * Second <=? w.
Notation ex_startup :=
  (startup ex_factory ex_close ex_done (fun _ => NotFound) "tellor1abc" (fun w d => w + d) 11 "0loya" ex_node) (only parsing).

Lemma startup_correct_witness :
  exists st', ex_startup = Some (st', Ready "0.025loya") /\ world st' = 3 * Second /\
    reporter_known (W := Z) (Client := string) (D := Z) "tellor1abc".
Proof.
  assert (exists st', ex_startup = Some (st', Ready "0.025loya") /\ world st' = 3 * Second) as (st' & E & Hw)
    by (eexists; split; [vm_compute; reflexivity|reflexivity]).
  exists st'. split; [exact E|]. split; [exact Hw|].
  destruct (startup_correct ex_factory ex_close ex_done (fun _ => NotFound) "tellor1abc" (fun w d => w + d) (fun w => w))
    with (deadline := 10 * Second) (fuel := 10%nat) (fee := "0loya") (st := ex_node) (interval := 0) (waited := true)
    as (st2 & r & E2 & H).
  1-5: intros; cbn; reflexivity.
  - intros w d Hd. reflexivity.
  - intros w Hd. unfold ex_done. lia.
  - cbn. unfold Second. lia.
  - rewrite E in E2. injection E2 as _ <-. exact (proj1 H).
Defined.

Definition ex_task_flags : Flags :=
  mkFlags false fzero false 0 false false false 7 400 "0.10" 0 (15 * Second) (30 * Second) 2 false "" 1000000
    "0x0000000000000000000000000000000000000001" "03:05".

Definition ex_is_address (s : string) : bool := (String.length s =? 42)%nat.
Lemma ex_config_ok : config_ok ex_is_address (fun s => s) ex_task_flags.
Proof. apply (Start_config_Ok ex_is_address (fun s => s) ex_task_flags (config_of ex_task_flags)). reflexivity. Qed.

Lemma ex_bech32_law : bech32_law (W := Z) (Client := string) (D := Z).
Proof.
  intros prefix bytes s. cbn. case_bool_decide as E; [|done]. destruct E as [-> ->]. by intros [= <-].
Qed.

Notation ex_withdraw_loop :=
  (withdraw_loop ex_factory ex_close ex_done (fun _ => NotFound) "tellor1abc" 1000000 (fun w d => (w + d, true)) 2 ex_task_flags "" 5
     (mkSt (3 * Second) None (Some "node") [])) (only parsing).

Lemma withdraw_correct_witness :
  ex_withdraw_loop.2 = [Sent (task_message (WithdrawTipToBalance "tellor1abc") false); Waited (5 * Second);
                        Sent (task_message (WithdrawTipToBalance "tellor1abc") false); Waited (5 * Second)] /\
  spaced (withdraw_wait 5) ex_withdraw_loop.2.
Proof.
  split; [reflexivity|].
  exact (proj1 (proj2 (withdraw_correct ex_factory ex_close ex_done (fun _ => NotFound) "tellor1abc" 1000000 (fun w d => (w + d, true)) 2
    ex_task_flags "" "5" 5 (mkSt (3 * Second) None (Some "node") []) _ _ ex_bech32_law eq_refl (surjective_pairing ex_withdraw_loop)))).
Defined.

Lemma auto_unbond_correct_witness :
  exists share, auto_unbond_start "tellor1abc" ex_task_flags "" = Ok (UnbondTicking (7 * Day) share 400 "tellorvaloper1abc") /\
    (0 <= dec_value share <= 1)%Q.
Proof.
  eexists. split; [reflexivity|].
  pose proof (auto_unbond_correct ex_factory ex_close ex_done (fun _ => NotFound) "tellor1abc" ex_is_address (fun s => s)
    ex_task_flags "" ex_bech32_law ex_config_ok ltac:(done) ltac:(done)) as (_ & _ & H & _).
  exact H.
Defined.

Lemma auto_bridge_correct_witness :
  auto_bridge_start ex_is_address (fun s => s) ex_task_flags = Ok (Some ("0000000000000000000000000000000000000001", 3, 5)) /\
  (auto_bridge_check ex_factory ex_close ex_done (fun _ => NotFound) "tellor1abc" 1000000 "ab" ex_node).2 =
    Ok (Some (task_message (WithdrawTokens "tellor1abc" "ab" 5500000) true)) /\
  next_execution 0 3 5 mod Day = 3 * Hour + 5 * Minute.
Proof.
  split; [reflexivity|]. split; [reflexivity|].
  pose proof (auto_bridge_correct ex_factory ex_close ex_done (fun _ => NotFound) "tellor1abc" ex_is_address (fun s => s)
    ex_task_flags ex_config_ok ltac:(done)) as (_ & _ & H & _).
  exact (proj2 (H 0)).
Defined.
