(* ===== verification/SpotReports.v ===== *)
(** * reporter/client: reports of spot prices

    median.go, broadcast_message.go and the monitors of cycle list queries and of
    tipped queries (reporter_monitors.go): from the price a query has now to the
    message that is put into the transaction channel, and the marks that keep a
    query from being reported twice. What a call reads (the price cache, the
    clock, the answers of nodes and of the custom queries, whether the channel took
    the message) is an argument of the call. *)
From S2P Require Import Prelude Text Hex TokenBridge Median MarketConfig ServerCache Messages Float64 EncodePrice PriceGuard.
Local Open Scope Z_scope.

(** [oracletypes.QueryMeta], as far as the reporter reads it. *)
Record QueryMeta := mkQueryMeta { qm_Id : Z; qm_QueryData : list Z; Expiration : Z }.

Section SpotReports.
Context {RO : RangeOrder}.
(** Third-party code and texts: see EncodePrice, PriceGuard and TxSender. *)
Variable shortest : Z -> string.
Variable pack_uint256 : Z -> go_error + list Z.
Variable QueryIDFromData : list Z -> list Z.
Variable reason_text : float64 -> float64 -> float64 -> float64 -> string.
(** The configuration of the reporter. *)
Variable MarketParams : list MarketParam.
Variable accAddr : string.

(** What one generation of a report reads: the cache of the server, the clock (at
    the three places where it is read), and the results of the custom queries by
    the hex text of their query id ([None] is a query without configuration). *)
Record Env := mkEnv {
  MarketToExchange : MarketToExchangePrices; env_now : Time;
  FetchPrice : string -> option (go string); env_check : Time; env_update : Time
}.

(** The encoded value and the raw price, an integral float64 that stands here as
    the integer; 0 for a custom query. *)
Definition median (env : Env) (querydata : list Z) : go (string * Z) :=
  let querydatastr := hex_EncodeToString querydata in
  match list_find (fun marketParam => strings_EqualFold (QueryData marketParam) querydatastr = true) MarketParams with
  | Some (_, marketParam) =>
      let mv := GetValidMedianPrices (MarketToExchange env) [marketParam] (env_now env) in
      match mv !! Id marketParam with
      | None => Err (ErrNew ("no median values found for query data: " +:+ querydatastr))
      | Some val =>
          match EncodePrice shortest pack_uint256 (round53 val) (mp_Exponent marketParam) with
          | Ok value => Ok (value, round53 val)
          | Err err => Err (wrapf "faild to encode price" err)
          | Panic p => Panic p
          end
      end
  | None =>
      match FetchPrice env (query_key QueryIDFromData querydata) with
      | None => Err (ErrNew ("no config found for query data: " +:+ querydatastr))
      | Some (Ok encodedValue) => Ok (encodedValue, 0)
      | Some (Err err) => Err (wrapf "failed to fetch price" err)
      | Some (Panic p) => Panic p
      end
  end.

(** What the reports of all monitors share. *)
Record spot := mkSpot { guard : PriceGuard; commitedIds : gset Z }.

Definition mark (id : Z) (st : spot) : spot := mkSpot (guard st) ({[id]} ∪ commitedIds st).
Definition unmark (id : Z) (st : spot) : spot := mkSpot (guard st) (commitedIds st ∖ {[id]}).

Definition spot_pair (qd : list Z) : string :=
  match list_find (fun marketParam => QueryData marketParam = hex_EncodeToString qd) MarketParams with
  | Some (_, marketParam) => Pair marketParam
  | None => ""
  end.

(** [GenerateAndBroadcastSpotPriceReport] up to the channel: the message to send. *)
Definition prepareReport (env : Env) (st : spot) (qd : list Z) (id : Z) : spot * go sdk_Msg :=
  match median env qd with
  | Err err => (st, Err (wrapf "error getting median from median client'" err))
  | Panic p => (st, Panic p)
  | Ok (encodedValue, rawPrice) =>
      let '(pg, (shouldSubmit, reason)) :=
        guard_report QueryIDFromData reason_text (guard st)
          (mkAttempt qd (float_of_integer rawPrice) (env_check env) (env_update env)) in
      let st := mkSpot pg (commitedIds st) in
      if shouldSubmit then (st, Ok (SubmitValue (mkMsgSubmitValue accAddr qd encodedValue)))
      else
        let st := if UpdateOnBlocked pg then mark id st else st in
        let pair := spot_pair qd in
        (st, Err (ErrNew ("price guard blocked submission for " +:+
                    (if decide (pair = "") then "queryId " +:+ query_key QueryIDFromData qd else pair) +:+
                    ": " +:+ reason)))
  end.

(** The whole of it: the query is marked after the channel took the message
    ([sent] is what [trySend] returns, [ctxErr] is [ctx.Err()]). *)
Definition GenerateAndBroadcastSpotPriceReport (env : Env) (st : spot) (qd : list Z) (id : Z)
    (sent : bool) (ctxErr : option go_error) : spot * option TxChannelInfo * go unit :=
  match prepareReport env st qd id with
  | (st, Ok msg) =>
      if sent then (mark id st, Some (mkTxChannelInfo msg false 0 id), Ok tt)
      else (st, None, match ctxErr with
                      | Some err => Err (wrapf "could not queue spot price report" err)
                      | None => Err (ErrNew "could not queue spot price report: tx channel closed")
                      end)
  | (st, Err err) => (st, None, Err err)
  | (st, Panic p) => (st, None, Panic p)
  end.

(** ** The monitor of the cycle list *)

(** [CurrentQuery]: the answer of the node and [utils.QueryBytesFromString]; a nil
    meta passes. *)
Definition CurrentQuery (QueryBytesFromString : string -> go_error + list Z)
    (response : go_error + (string * option QueryMeta)) : go_error + (list Z * option QueryMeta) :=
  match response with
  | inl err => inl (wrapf "error calling 'CurrentCyclelistQuery'" err)
  | inr (text, meta) =>
      match QueryBytesFromString text with
      | inl err => inl (wrapf "error parsing query id from response" err)
      | inr querydata => inr (querydata, meta)
      end
  end.

(** One check: what [CurrentQuery] returns, and what the generation reads. The
    report that was sent, if any, and the next [prevQueryData]. *)
Record observation := mkObservation {
  current : go_error + (list Z * option QueryMeta); obs_env : Env; obs_sent : bool; obs_ctxErr : option go_error
}.

(** The generation runs in a goroutine of its own: its errors are logged, its panic
    ends the program. *)
Definition checkCycle (o : observation) (st : spot) (prevQueryData : list Z) :
    go (spot * list Z * option TxChannelInfo) :=
  match current o with
  | inl _ | inr (_, None) => Ok (st, prevQueryData, None)
  | inr (querydata, Some querymeta) =>
      if bool_decide (querydata = prevQueryData) || bool_decide (qm_Id querymeta ∈ commitedIds st)
      then Ok (st, prevQueryData, None)
      else
        match GenerateAndBroadcastSpotPriceReport (obs_env o) st querydata (qm_Id querymeta)
                (obs_sent o) (obs_ctxErr o) with
        | (_, _, Panic p) => Panic p
        | (st, msg, _) => Ok (st, querydata, msg)
        end
  end.

Fixpoint check_cycles (os : list observation) (st : spot) (prev : list Z) :
    go (spot * list Z * list TxChannelInfo) :=
  match os with
  | [] => Ok (st, prev, [])
  | o :: os =>
      x ← checkCycle o st prev;
      let '(st, prev, msg) := x in
      y ← check_cycles os st prev;
      let '(st, prev, msgs) := y in
      Ok (st, prev, option_list msg ++ msgs)
  end.

(** The delay of a polling monitor after an answer. *)
Definition defaultRetryDelay : Duration := 200 * Millisecond.
Definition maxRetryDelay : Duration := 30 * Second.

Definition backoff (retryDelay : Duration) : Duration :=
  let retryDelay := wrap int64 (retryDelay * 2) in
  if retryDelay >? maxRetryDelay then maxRetryDelay else retryDelay.

(** A tick of [monitorCyclelistQueryPolling]. *)
Definition monitorCyclelistQueryPolling_tick (o : observation) (st : spot) (prev : list Z) (retryDelay : Duration) :
    go (spot * list Z * Duration * option TxChannelInfo) :=
  let retryDelay := match current o with
                    | inl _ | inr (_, None) => backoff retryDelay
                    | _ => defaultRetryDelay
                    end in
  x ← checkCycle o st prev;
  let '(st, prev, msg) := x in
  Ok (st, prev, retryDelay, msg).

(** ** The monitor of tipped queries *)
Record tips := mkTips { spot_state : spot; depositTipMap : gset Z; TokenBridgeTipsCache : DepositTips }.

Section Tipped.
(** [GetQueryType]. *)
Variable query_type : list Z -> string.

Definition handleTippedQuery (height : Z) (env : Env) (sent : bool) (ctxErr : option go_error) (t : tips)
    (query : QueryMeta) : go (tips * option TxChannelInfo) :=
  let queryType := query_type (qm_QueryData query) in
  let haveCommited := bool_decide (qm_Id query ∈ commitedIds (spot_state t)) in
  if (Expiration query <? height) || haveCommited
     || (negb (strings_EqualFold queryType "SpotPrice") && negb (strings_EqualFold queryType "TRBBridgeV2"))
  then Ok (t, None)
  else if strings_EqualFold queryType "TRBBridgeV2" then
    if bool_decide (qm_Id query ∈ depositTipMap t) then Ok (t, None)
    else Ok (mkTips (spot_state t) ({[qm_Id query]} ∪ depositTipMap t) 
               (AddTip (TokenBridgeTipsCache t) (qm_QueryData query)), None)
  else
    match GenerateAndBroadcastSpotPriceReport env (spot_state t) (qm_QueryData query) (qm_Id query) sent ctxErr with
    | (_, _, Panic p) => Panic p
    | (st, msg, _) => Ok (mkTips st (depositTipMap t) (TokenBridgeTipsCache t), msg)
    end.

(** What a tick of [MonitorForTippedQueries] reads: the tipped queries, the height,
    and for each query what its report reads. *)
Record tip_tick := mkTipTick {
  tipped : go_error + list QueryMeta; status_height : go_error + Z;
  report_env : nat -> Env; report_sent : nat -> bool; report_ctxErr : nat -> option go_error
}.

Fixpoint handleTippedQueries (i : nat) (height : Z) (k : tip_tick) (t : tips) (queries : list QueryMeta) :
    go (tips * list TxChannelInfo) :=
  match queries with
  | [] => Ok (t, [])
  | query :: queries =>
      x ← handleTippedQuery height (report_env k i) (report_sent k i) (report_ctxErr k i) t query;
      y ← handleTippedQueries (S i) height k x.1 queries;
      Ok (y.1, option_list x.2 ++ y.2)
  end.

Definition MonitorForTippedQueries_tick (k : tip_tick) (t : tips) (retryDelay : Duration) :
    go (tips * Duration * list TxChannelInfo) :=
  match tipped k with
  | inl _ => Ok (t, backoff retryDelay, [])
  | inr [] => Ok (t, retryDelay, [])
  | inr queries =>
      match status_height k with
      | inl _ => Ok (t, defaultRetryDelay, [])
      | inr latest =>
          x ← handleTippedQueries 0 (wrap uint64 latest) k t queries;
          Ok (x.1, defaultRetryDelay, x.2)
      end
  end.

Fixpoint tip_ticks (ks : list tip_tick) (t : tips) (retryDelay : Duration) :
    go (tips * Duration * list TxChannelInfo) :=
  match ks with
  | [] => Ok (t, retryDelay, [])
  | k :: ks =>
      x ← MonitorForTippedQueries_tick k t retryDelay;
      let '(t, retryDelay, msgs) := x in
      y ← tip_ticks ks t retryDelay;
      let '(t, retryDelay, msgs') := y in
      Ok (t, retryDelay, msgs ++ msgs')
  end.
End Tipped.

(** ** Reports

    The price of a market in the cache that serving the requests leaves. *)
Lemma round53_nonneg n : 0 <= n -> 0 <= round53 n.
Proof using Type.
  clear. intros Hn. pose proof (round53_bounds n Hn). assert (n / 2 ^ 53 <= n) by (apply Z.div_le_upper_bound; lia). lia.
Qed.

Lemma Median_nonneg l p : Forall (in_range uint64) l -> Median uint64 l = Ok p -> 0 <= p.
Proof using Type.
  clear. intros Hl Hm. assert (go_width uint64) as Hw by (unfold go_width; cbn; lia).
  destruct (Median_spec_aux uint64 l Hw Hl (Median_Ok_inv _ _ _ Hm)) as (r & Hr & Hs).
  assert (r = p) as -> by congruence.
  destruct (median_of_sorted_bounds _ _ (sort_slice_sorted l) Hs) as (i & j & x & y & Hx & _ & Hb & _).
  apply list_elem_of_lookup_2 in Hx. rewrite sort_slice_perm in Hx.
  rewrite Forall_forall in Hl. specialize (Hl x Hx). unfold in_range in Hl. cbn in Hl. lia.
Qed.

Lemma served_median age reqs env mp p :
  serve age reqs = Ok (MarketToExchange env) ->
  let prices := valid_prices (entries (concat reqs)) (Id mp) (env_now env - age) in
  GetValidMedianPrices (MarketToExchange env) [mp] (env_now env) !! Id mp = Some p <->
  MinExchanges mp <= Z.of_nat (length prices) /\ Median uint64 prices = Ok p.
Proof using Type.
  intros Hs prices. destruct (serve_Ok _ _ _ Hs) as (_ & Hage & Hl).
  rewrite GetValidMedianPrices_lookup.
  - setoid_rewrite (validMedianPrice_spec _ _ _ _ Hl). rewrite Hage. split.
    + intros (mp' & ->%list_elem_of_singleton & _ & H). exact H.
    + intros H. exists mp. split_and!; [by apply list_elem_of_singleton|done|apply H..].
  - intros mp1 mp2 ->%list_elem_of_singleton ->%list_elem_of_singleton _ q q' Hq Hq'. congruence.
Qed.

(** The report of a query: its market and the value to encode. *)
Definition market_of (qd : list Z) (mp : MarketParam) : Prop :=
  exists i, list_find (fun marketParam => strings_EqualFold (QueryData marketParam) (hex_EncodeToString qd) = true)
              MarketParams = Some (i, mp).

Lemma median_of_market age reqs env qd mp :
  serve age reqs = Ok (MarketToExchange env) -> market_of qd mp ->
  let prices := valid_prices (entries (concat reqs)) (Id mp) (env_now env - age) in
  let n := wrap int32 (18 + mp_Exponent mp) in
  Forall (in_range uint64) prices -> 1 <= n -> precision_parses n = true ->
  (exists err, median env qd = Err err) /\
    (forall p bz, ~ (MinExchanges mp <= Z.of_nat (length prices) /\ Median uint64 prices = Ok p /\
                    pack_uint256 (round53 p * 10 ^ n) = inr bz)) \/
  exists p bz, MinExchanges mp <= Z.of_nat (length prices) /\ Median uint64 prices = Ok p /\
    pack_uint256 (round53 p * 10 ^ n) = inr bz /\ median env qd = Ok (hex_EncodeToString bz, round53 p).
Proof using Type.
  intros Hs [i Hf] prices n Hprices Hn Hparse. unfold median. rewrite Hf.
  pose proof (fun p => served_median age reqs env mp p Hs) as Hmed. cbv zeta in Hmed. fold prices in Hmed.
  destruct (_ !! Id mp) as [val|] eqn:Ev; cycle 1.
  { left. split; [by eexists|]. intros p bz (H1 & H2 & _). pose proof (proj2 (Hmed p) (conj H1 H2)). congruence. }
  destruct (proj1 (Hmed val) eq_refl) as [Hlen Hm]. assert (0 <= round53 val) as H0 by (eapply round53_nonneg, Median_nonneg; done).
  rewrite (proj1 (EncodePrice_spec shortest pack_uint256 (round53 val) (mp_Exponent mp) H0) Hn Hparse).
  destruct (pack_uint256 (round53 val * 10 ^ n)) as [err|bz] eqn:Ep; fold n; rewrite Ep.
  - left. split; [by eexists|]. intros p bz (_ & H2 & H3). congruence.
  - right. by exists val, bz.
Qed.

Lemma guard_report_on_blocked pg a :
  updateOnBlocked (guard_report QueryIDFromData reason_text pg a).1 = updateOnBlocked pg.
Proof using Type.
  unfold guard_report. destruct (_ && _); [|done]. destruct (ShouldSubmit _ _ _ _ _ _) as [ok r]. cbn.
  unfold UpdateLastPrice. by repeat case_match.
Qed.

(** C16: A report of a market is sent exactly when the channel takes it, at least
    [MinExchanges] exchanges have a price that is fresh, and the guard allows their
    median; the value is then the median (as a float64) with [18 + exponent]
    decimals. Otherwise the call is an error. All this for a market whose exponent is
    above -18 and whose text [EncodePrice] reads back (it panics without that);
    then the call never panics. A sent report marks
    its query, and apart from a report blocked by a guard that updates on blocked
    nothing else marks or unmarks a query. *)
Theorem spot_report_correct age reqs env st qd id sent ctxErr mp :
  serve age reqs = Ok (MarketToExchange env) -> market_of qd mp ->
  let prices := valid_prices (entries (concat reqs)) (Id mp) (env_now env - age) in
  let n := wrap int32 (18 + mp_Exponent mp) in
  Forall (in_range uint64) prices -> 1 <= n -> precision_parses n = true ->
  let allowed p := (guard_report QueryIDFromData reason_text (guard st)
                      (mkAttempt qd (float_of_integer (round53 p)) (env_check env) (env_update env))).2.1 in
  let '(st', msg, r) := GenerateAndBroadcastSpotPriceReport env st qd id sent ctxErr in
  (forall info, msg = Some info <->
     sent = true /\ exists p bz, MinExchanges mp <= Z.of_nat (length prices) /\ Median uint64 prices = Ok p /\
       pack_uint256 (round53 p * 10 ^ n) = inr bz /\ allowed p = true /\
       info = mkTxChannelInfo (SubmitValue (mkMsgSubmitValue accAddr qd (hex_EncodeToString bz))) false 0 id) /\
  (if msg is Some _ then r = Ok tt /\ commitedIds st' = {[id]} ∪ commitedIds st
   else (exists err, r = Err err) /\
        (commitedIds st' = commitedIds st \/
         updateOnBlocked (guard st) = true /\ commitedIds st' = {[id]} ∪ commitedIds st)).
Proof using Type.
  intros Hs Hmp prices n Hprices Hn Hparse allowed. unfold GenerateAndBroadcastSpotPriceReport, prepareReport.
  destruct (median_of_market age reqs env qd mp Hs Hmp Hprices Hn Hparse)
    as [[[err Em] Hno]|(p & bz & Hlen & Hm & Hp & Em)]; rewrite Em.
  { split; [|split; [by eexists|by left]]. intros info. split; [done|].
    intros (_ & p & bz & H1 & H2 & H3 & _). by destruct (Hno p bz). }
  pose proof (guard_report_on_blocked (guard st)
    (mkAttempt qd (float_of_integer (round53 p)) (env_check env) (env_update env))) as Hg.
  assert (forall q, Median uint64 prices = Ok q -> q = p) as Hq by (intros; unfold prices in *; congruence).
  destruct (guard_report _ _ _ _) as [pg [ok reason]] eqn:Eg. cbn in Hg.
  assert (allowed p = ok) as Ha by (unfold allowed; by rewrite Eg).
  destruct ok; cycle 1.
  { split; [|split; [by eexists|]].
    - intros info. split; [done|]. intros (_ & q & bz' & _ & ->%Hq & _ & Hal & _). congruence.
    - unfold UpdateOnBlocked. rewrite Hg. destruct (updateOnBlocked (guard st)); [by right|by left]. }
  destruct sent; (split; [intros info; split|]).
  - intros [= <-]. split; [done|]. by exists p, bz.
  - intros (_ & q & bz' & _ & ->%Hq & Hp' & _ & ->). assert (bz' = bz) as -> by (unfold n in *; congruence). done.
  - done.
  - done.
  - by intros [? _].
  - split; [destruct ctxErr; by eexists|by left].
Qed.

(** ** The marks

    The calls of the monitors and the transactions they start, in steps: a monitor
    looks whether a query is marked, generates and sends a report, and marks the
    query; a transaction ends. [looked], [marking] and [inflight] hold the calls
    between the steps and the transactions under way; [reported] the queries with
    a transaction that succeeded, [refused] those the guard blocked and marked. *)
Record node := mkNode {
  shared : spot; looked : list Z; marking : list Z; inflight : list Z; reported : gset Z; refused : gset Z
}.

Inductive node_op :=
  | Look (id : Z)
  | Send (env : Env) (qd : list Z) (id : Z) (sent : bool)
  | Mark (id : Z)
  | Finish (id : Z) (success : bool).

Fixpoint remove_one (x : Z) (l : list Z) : list Z :=
  match l with
  | [] => []
  | y :: l => if decide (y = x) then l else y :: remove_one x l
  end.

Definition node_step (s : node) (op : node_op) : node :=
  match op with
  | Look id =>
      if decide (id ∈ commitedIds (shared s)) then s
      else mkNode (shared s) (id :: looked s) (marking s) (inflight s) (reported s) (refused s)
  | Send env qd id sent =>
      if decide (id ∈ looked s) then
        let looked := remove_one id (looked s) in
        match prepareReport env (shared s) qd id with
        | (st, Ok _) =>
            if sent then mkNode st looked (id :: marking s) (id :: inflight s) (reported s) (refused s)
            else mkNode st looked (marking s) (inflight s) (reported s) (refused s)
        | (st, _) =>
            mkNode st looked (marking s) (inflight s) (reported s)
              (if decide (id ∈ commitedIds st ∖ commitedIds (shared s)) then {[id]} ∪ refused s else refused s)
        end
      else s
  | Mark id =>
      if decide (id ∈ marking s) then
        mkNode (mark id (shared s)) (looked s) (remove_one id (marking s)) (inflight s) (reported s) (refused s)
      else s
  | Finish id success =>
      if decide (id ∈ inflight s) then
        let inflight := remove_one id (inflight s) in
        if success then mkNode (shared s) (looked s) (marking s) inflight ({[id]} ∪ reported s) (refused s)
        else mkNode (if id =? 0 then shared s else unmark id (shared s)) (looked s) (marking s) inflight
               (reported s) (refused s)
      else s
  end.

Definition node_run (ops : list node_op) (s : node) : node := foldl node_step s ops.

(** A report without interruption. *)
Definition whole_report (env : Env) (qd : list Z) (id : Z) (sent : bool) : list node_op :=
  [Look id; Send env qd id sent; Mark id].

(** Runs in which every report is uninterrupted; transactions end at any time. *)
Inductive uninterrupted : list node_op -> Prop :=
  | un_nil : uninterrupted []
  | un_report env qd id sent ops : uninterrupted ops -> uninterrupted (whole_report env qd id sent ++ ops)
  | un_finish id success ops : uninterrupted ops -> uninterrupted (Finish id success :: ops).

(** Between the reports: no call is under way, every transaction has a query of
    its own that was not reported, and a query is marked exactly when it has one,
    was reported or was refused (a failed transaction without query leaves the mark
    of 0). *)
Definition settled (s : node) : Prop :=
  looked s = [] /\ marking s = [] /\ NoDup (inflight s) /\
  (forall id, id ∈ inflight s -> id ∉ reported s /\ id ∉ refused s) /\
  (forall id, id <> 0 -> id ∈ commitedIds (shared s) <-> id ∈ inflight s \/ id ∈ reported s \/ id ∈ refused s) /\
  (0 ∈ inflight s \/ 0 ∈ reported s \/ 0 ∈ refused s -> 0 ∈ commitedIds (shared s)).

Lemma remove_one_elem x y l : NoDup l -> y ∈ remove_one x l <-> y ∈ l /\ y <> x.
Proof using Type.
  clear. induction 1 as [|a l Ha Hl IH]; cbn; [set_solver|]. case_decide as E; set_solver.
Qed.

Lemma remove_one_NoDup x l : NoDup l -> NoDup (remove_one x l).
Proof using Type.
  clear. induction 1 as [|a l Ha Hl IH]; cbn; [constructor|]. case_decide; [done|].
  constructor; [|done]. rewrite remove_one_elem by done. by intros [? _].
Qed.

(** What a generation does to the marks. *)
Lemma prepareReport_marks env st qd id st' r :
  prepareReport env st qd id = (st', r) ->
  match r with
  | Ok _ => commitedIds st' = commitedIds st
  | _ => commitedIds st' = commitedIds st \/ commitedIds st' = {[id]} ∪ commitedIds st
  end.
Proof using Type.
  unfold prepareReport. destruct (median env qd) as [[v p]|e|p]; try (intros [= <- <-]; by left).
  destruct (guard_report _ _ _ _) as [pg [[] reason]]; intros [= <- <-]; [done|].
  destruct (UpdateOnBlocked pg); [by right|by left].
Qed.

(** An uninterrupted report of a query, by case. *)
Lemma whole_report_run env qd id sent st fl rep ref :
  node_run (whole_report env qd id sent) (mkNode st [] [] fl rep ref) =
    if decide (id ∈ commitedIds st) then mkNode st [] [] fl rep ref
    else match prepareReport env st qd id with
         | (st', Ok _) => if sent then mkNode (mark id st') [] [] (id :: fl) rep ref else mkNode st' [] [] fl rep ref
         | (st', _) => mkNode st' [] [] fl rep
             (if decide (id ∈ commitedIds st' ∖ commitedIds st) then {[id]} ∪ ref else ref)
         end.
Proof using Type.
  unfold node_run, whole_report. cbn [foldl node_step shared].
  destruct (decide (id ∈ commitedIds st)) as [Hid|Hid].
  { cbn [looked]. rewrite (decide_False (P := id ∈ [])) by apply not_elem_of_nil. cbn [marking].
    by rewrite decide_False by apply not_elem_of_nil. }
  cbn [looked marking shared inflight reported refused remove_one]. rewrite (decide_True (P := id ∈ [id])) by (by left).
  rewrite (decide_True (P := id = id)) by done.
  destruct (prepareReport env st qd id) as [st' [msg|e|p]]; [destruct sent|..];
    cbn [marking]; rewrite ?(decide_False (P := id ∈ [])) by apply not_elem_of_nil; try done.
  rewrite decide_True by (by left). cbn. by rewrite decide_True by done.
Qed.

(** A report that the guard refused (and marked, or not). *)
Lemma refused_settled st st' fl rep ref id :
  settled (mkNode st [] [] fl rep ref) -> id ∉ commitedIds st ->
  commitedIds st' = commitedIds st \/ commitedIds st' = {[id]} ∪ commitedIds st ->
  settled (mkNode st' [] [] fl rep (if decide (id ∈ commitedIds st' ∖ commitedIds st) then {[id]} ∪ ref else ref)).
Proof using Type.
  clear. intros (_ & _ & Hnd & Hdisj & Hc & H0) Hid Hm. unfold settled. cbn in *.
  do 3 (split; [done|]). destruct Hm as [Hm|Hm].
  - rewrite decide_False by (rewrite elem_of_difference, Hm; tauto). rewrite Hm. done.
  - rewrite decide_True by (rewrite elem_of_difference, Hm; split; [by apply elem_of_union_l, elem_of_singleton|done]).
    rewrite Hm. split; [|split].
    + intros id' H. destruct (Hdisj id' H). split; [done|]. rewrite elem_of_union, elem_of_singleton. intros [->|]; [|done].
      apply Hid. destruct (decide (id = 0)) as [->|]; [apply H0; tauto|apply Hc; tauto].
    + intros id' Hne. rewrite !elem_of_union, !elem_of_singleton, Hc by done. tauto.
    + rewrite !elem_of_union, !elem_of_singleton. tauto.
Qed.

Lemma whole_report_settled env qd id sent s :
  settled s -> settled (node_run (whole_report env qd id sent) s).
Proof using Type.
  destruct s as [st lk mk fl rep ref]. intros Hs. pose proof Hs as (Hlook & Hmark & Hnd & Hdisj & Hc & H0).
  cbn in Hlook, Hmark, Hnd, Hdisj, Hc, H0. subst lk mk. rewrite whole_report_run.
  destruct (decide (id ∈ commitedIds st)) as [Hid|Hid]; [exact Hs|].
  assert (~ (id ∈ fl \/ id ∈ rep \/ id ∈ ref)) as Hnew
    by (intros H; apply Hid; destruct (decide (id = 0)) as [->|Hne]; [by apply H0|by apply Hc]).
  destruct (prepareReport env st qd id) as [st' r] eqn:Ep. pose proof (prepareReport_marks _ _ _ _ _ _ Ep) as Hm.
  assert (forall id', id' ∈ commitedIds st' -> id' = id \/ id' ∈ commitedIds st) as Hback.
  { intros id'. destruct r; [rewrite Hm; tauto|..]; destruct Hm as [->| ->]; set_unfold; tauto. }
  unfold settled. destruct r as [msg|e|p]; [destruct sent|..]; cbn [looked marking inflight reported refused shared mark commitedIds];
    (split; [done|]; split; [done|]).
  - rewrite Hm. split; [constructor; tauto|]. split; [|split].
    + intros id' [->|H]%elem_of_cons; [tauto|by apply Hdisj].
    + intros id' Hne. rewrite elem_of_union, elem_of_singleton, elem_of_cons, Hc by done. tauto.
    + rewrite elem_of_union, elem_of_singleton, elem_of_cons. tauto.
  - rewrite Hm. done.
  - by apply refused_settled.
  - by apply refused_settled.
Qed.

Lemma finish_settled id success s : settled s -> settled (node_step s (Finish id success)).
Proof using Type.
  intros Hs. pose proof Hs as (Hlook & Hmark & Hnd & Hdisj & Hc & H0). cbn [node_step].
  destruct (decide (id ∈ inflight s)) as [Hid|]; [|exact Hs]. destruct (Hdisj id Hid) as [Hrep Href].
  pose proof (fun y => remove_one_elem id y (inflight s) Hnd) as He.
  pose proof (remove_one_NoDup id _ Hnd) as Hnd'.
  destruct success; unfold settled; cbn [looked marking inflight reported refused shared];
    (split; [done|]; split; [done|]; split; [done|]).
  - split; [|split].
    + intros id' [H Hne]%He. rewrite elem_of_union, elem_of_singleton. destruct (Hdisj id' H). tauto.
    + intros id' Hne. rewrite He, elem_of_union, elem_of_singleton, Hc by done.
      destruct (decide (id' = id)) as [->|]; tauto.
    + rewrite He, elem_of_union, elem_of_singleton. intros [[H _]|[[<-|H]|H]]; apply H0; tauto.
  - split; [|split].
    + intros id' [H Hne]%He. by apply Hdisj.
    + intros id' Hne. rewrite He. destruct (Z.eqb_spec id 0) as [->|Hid0].
      * rewrite Hc by done. split; [|tauto]. intros [H|H]; [left; by split|tauto].
      * cbn [unmark commitedIds]. rewrite elem_of_difference, elem_of_singleton, Hc by done.
        destruct (decide (id' = id)) as [->|]; tauto.
    + rewrite He. destruct (Z.eqb_spec id 0) as [->|Hid0]; [tauto|].
      cbn [unmark commitedIds]. rewrite elem_of_difference, elem_of_singleton. intros H. split; [apply H0; tauto|congruence].
Qed.

Lemma uninterrupted_settled ops s : uninterrupted ops -> settled s -> settled (node_run ops s).
Proof using Type.
  intros Hu. revert s. induction Hu as [|env qd id sent ops _ IH|id success ops _ IH]; intros s Hs; [done|..].
  - unfold node_run. rewrite foldl_app. apply IH. by apply whole_report_settled.
  - apply (IH (node_step s (Finish id success))). by apply finish_settled.
Qed.

(** The steps, when they are enabled by the head of their list. *)
Lemma step_Look id st lk mk fl rep ref :
  id ∉ commitedIds st -> node_step (mkNode st lk mk fl rep ref) (Look id) = mkNode st (id :: lk) mk fl rep ref.
Proof using Type. intros H. cbn [node_step shared]. by rewrite decide_False. Qed.

Lemma step_Send env qd id st lk mk fl rep ref st' msg :
  prepareReport env st qd id = (st', Ok msg) ->
  node_step (mkNode st (id :: lk) mk fl rep ref) (Send env qd id true) = mkNode st' lk (id :: mk) (id :: fl) rep ref.
Proof using Type.
  intros H. cbn [node_step looked shared]. rewrite decide_True by (by left). rewrite H. cbn.
  by rewrite decide_True.
Qed.

Lemma step_Fail id st lk mk fl rep ref :
  id <> 0 -> node_step (mkNode st lk mk (id :: fl) rep ref) (Finish id false) = mkNode (unmark id st) lk mk fl rep ref.
Proof using Type.
  intros H. cbn [node_step inflight]. rewrite decide_True by (by left). cbn.
  by rewrite (proj2 (Z.eqb_neq id 0) H), decide_True.
Qed.

Lemma step_Mark id st lk mk fl rep ref :
  node_step (mkNode st lk (id :: mk) fl rep ref) (Mark id) = mkNode (mark id st) lk mk fl rep ref.
Proof using Type. cbn [node_step marking]. rewrite decide_True by (by left). cbn. by rewrite decide_True. Qed.

(** The two interleavings. *)
Lemma failed_before_mark env qd id sh fl rep ref st msg :
  id <> 0 -> id ∉ commitedIds sh -> prepareReport env sh qd id = (st, Ok msg) ->
  node_run [Look id; Send env qd id true; Finish id false; Mark id] (mkNode sh [] [] fl rep ref)
    = mkNode (mark id (unmark id st)) [] [] fl rep ref.
Proof using Type.
  intros Hid Hnew Hp. unfold node_run, foldl.
  by rewrite step_Look, (step_Send _ _ _ _ _ _ _ _ _ _ _ Hp), step_Fail, step_Mark.
Qed.

Lemma sent_twice env env' qd id sh fl rep ref st msg st' msg' :
  id ∉ commitedIds sh -> prepareReport env sh qd id = (st, Ok msg) -> prepareReport env' st qd id = (st', Ok msg') ->
  inflight (node_run [Look id; Look id; Send env qd id true; Send env' qd id true] (mkNode sh [] [] fl rep ref))
    = id :: id :: fl.
Proof using Type.
  intros Hnew Hp Hp'. unfold node_run, foldl.
  by rewrite !step_Look, (step_Send _ _ _ _ _ _ _ _ _ _ _ Hp), (step_Send _ _ _ _ _ _ _ _ _ _ _ Hp').
Qed.

Lemma marked_stays id looks s :
  id ∈ commitedIds (shared s) -> id ∉ looked s ->
  Forall (fun op => exists env qd sent, op = Look id \/ op = Send env qd id sent) looks -> node_run looks s = s.
Proof using Type.
  intros Hm Hl. induction 1 as [|op looks (env & qd & sent & [->| ->]) _ IH]; [done|..];
    unfold node_run in *; cbn [foldl node_step]; [by rewrite decide_True|by rewrite decide_False].
Qed.

(** C17: When reports are not interrupted, a query is marked exactly when a transaction
    for it is under way or succeeded, or the guard refused it; a query has at most
    one transaction under way and none after one succeeded. The steps of the
    program do interleave: a transaction that fails before the monitor marks the
    query leaves it marked with no transaction, and no later look lets it be
    reported; and two monitors that look before either marks send two reports. *)
Theorem marks_correct s :
  settled s ->
  (forall ops, uninterrupted ops -> settled (node_run ops s)) /\
  (forall env qd id st msg, id <> 0 -> id ∉ commitedIds (shared s) ->
     prepareReport env (shared s) qd id = (st, Ok msg) ->
     (let s' := node_run [Look id; Send env qd id true; Finish id false; Mark id] s in
      id ∈ commitedIds (shared s') /\ id ∉ inflight s' /\ id ∉ reported s' /\
      forall looks, Forall (fun op => exists env qd sent, op = Look id \/ op = Send env qd id sent) looks ->
        node_run looks s' = s') /\
     (forall env' st' msg', prepareReport env' st qd id = (st', Ok msg') ->
      inflight (node_run [Look id; Look id; Send env qd id true; Send env' qd id true] s) = id :: id :: inflight s)).
Proof using Type.
  intros Hs. split; [intros ops Hu; by apply uninterrupted_settled|].
  intros env qd id st msg Hid Hnew Hp. destruct s as [sh lk mk fl rep ref].
  destruct Hs as (Hlook & Hmark & Hnd & Hdisj & Hc & _). cbn in Hlook, Hmark, Hnd, Hdisj, Hc, Hnew, Hp. subst lk mk.
  assert (~ (id ∈ fl \/ id ∈ rep)) by (rewrite (Hc id Hid) in Hnew; tauto). split.
  - rewrite (failed_before_mark _ _ _ _ _ _ _ _ _ Hid) by first [exact Hnew|exact Hp]. cbn [shared inflight reported].
    split_and!; [by apply elem_of_union_l, elem_of_singleton|tauto..|].
    intros looks. apply marked_stays; [by apply elem_of_union_l, elem_of_singleton|by apply not_elem_of_nil].
  - intros env' st' msg' Hp'. by eapply sent_twice.
Qed.

(** ** The monitors

    How the generation of a report panics: [EncodePrice] on a market, or the
    fetch of a custom query. *)
Definition report_panics (env : Env) (qd : list Z) (p : go_panic) : Prop :=
  (exists marketParam price, marketParam ∈ MarketParams /\
     EncodePrice shortest pack_uint256 price (mp_Exponent marketParam) = Panic p) \/
  FetchPrice env (query_key QueryIDFromData qd) = Some (Panic p).

Definition attempt_panics (o : observation) (p : go_panic) : Prop :=
  exists qd m, current o = inr (qd, Some m) /\ report_panics (obs_env o) qd p.

Lemma spot_report_panics env st qd id sent ctxErr st' msg p :
  GenerateAndBroadcastSpotPriceReport env st qd id sent ctxErr = (st', msg, Panic p) -> report_panics env qd p.
Proof using Type.
  unfold GenerateAndBroadcastSpotPriceReport, prepareReport.
  destruct (median env qd) as [[v raw]|e|q] eqn:Em; [|done|].
  { destruct (guard_report _ _ _ _) as [pg [[] reason]]; [|done]. destruct sent; [done|]. by destruct ctxErr. }
  intros [= <- <- <-]. revert Em. unfold median, report_panics.
  destruct (list_find _ MarketParams) as [[i mp]|] eqn:Ef.
  - destruct (_ !! Id mp) as [val|]; [|done]. destruct (EncodePrice _ _ _ _) eqn:Ee; try done. intros [= <-]. left.
    exists mp, (round53 val). split; [|exact Ee]. apply list_find_Some in Ef as [Ef _]. by eapply list_elem_of_lookup_2.
  - destruct (FetchPrice _ _) as [[|e|q']|]; try done. intros [= <-]. by right.
Qed.

Lemma spot_report_cases env st qd id sent ctxErr :
  let '(st', msg, _) := GenerateAndBroadcastSpotPriceReport env st qd id sent ctxErr in
  (forall x, x ∈ commitedIds st -> x ∈ commitedIds st') /\
  (forall x, x ∈ commitedIds st' -> x = id \/ x ∈ commitedIds st) /\
  forall info, msg = Some info -> id ∈ commitedIds st' /\
    exists value, info = mkTxChannelInfo (SubmitValue (mkMsgSubmitValue accAddr qd value)) false 0 id.
Proof using Type.
  unfold GenerateAndBroadcastSpotPriceReport.
  destruct (prepareReport env st qd id) as [st' r] eqn:Ep. pose proof (prepareReport_marks _ _ _ _ _ _ Ep) as Hm.
  assert (forall msg, r = Ok msg -> exists value, msg = SubmitValue (mkMsgSubmitValue accAddr qd value)) as Hr.
  { intros msg ->. revert Ep. unfold prepareReport. destruct (median env qd) as [[v p]|e|p]; try done.
    destruct (guard_report _ _ _ _) as [pg [[] reason]]; [|done]. intros [= _ <-]. by exists v. }
  clear Ep. destruct r as [msg|e|p].
  - destruct (Hr msg eq_refl) as [value ->]. destruct sent; cbn [mark commitedIds]; rewrite Hm.
    + split_and!; [set_unfold; tauto..|]. intros info [= <-]. split; [by apply elem_of_union_l, elem_of_singleton|].
      by exists value.
    + split_and!; [tauto..|done].
  - split_and!; [..|done]; destruct Hm as [->| ->]; set_unfold; tauto.
  - split_and!; [..|done]; destruct Hm as [->| ->]; set_unfold; tauto.
Qed.

(** What a sequence of checks may send: reports of queries that were not marked,
    each at most once, and all of them are marked afterwards. *)
Definition fresh_reports (st st' : spot) (msgs : list TxChannelInfo) : Prop :=
  (forall x, x ∈ commitedIds st -> x ∈ commitedIds st') /\
  NoDup (QueryMetaId <$> msgs) /\
  Forall (fun info => QueryMetaId info ∉ commitedIds st /\ QueryMetaId info ∈ commitedIds st') msgs.

Lemma fresh_reports_nil st : fresh_reports st st [].
Proof using Type. split_and!; [done|constructor..]. Qed.

Lemma fresh_reports_cons st st1 st2 msg msgs id :
  id ∉ commitedIds st -> (forall x, x ∈ commitedIds st -> x ∈ commitedIds st1) ->
  (forall info, msg = Some info -> id ∈ commitedIds st1 /\ QueryMetaId info = id) ->
  fresh_reports st1 st2 msgs -> fresh_reports st st2 (option_list msg ++ msgs).
Proof using Type.
  intros Hid Hst Hmsg (Hst1 & Hnd & Hall).
  assert (Forall (fun info => QueryMetaId info ∉ commitedIds st /\ QueryMetaId info ∈ commitedIds st2) msgs) as Hall'.
  { eapply Forall_impl; [exact Hall|]. intros info [H1 H2]. split; [|done]. intros H. by apply H1, Hst. }
  destruct msg as [info|]; cbn; [|split_and!; auto].
  destruct (Hmsg info eq_refl) as [Hid1 Hi]. split_and!; [auto|..].
  - constructor; [|done]. rewrite Hi. intros (info' & E & Hin)%list_elem_of_fmap.
    rewrite Forall_forall in Hall. destruct (Hall info' Hin) as [H _]. congruence.
  - constructor; [|done]. rewrite Hi. auto.
Qed.

(** What a check does when it does not panic. *)
Definition checked (o : observation) (st : spot) (prev : list Z) (st' : spot) (prev' : list Z)
    (msg : option TxChannelInfo) : Prop :=
  match current o with
  | inr (qd, Some m) =>
      if decide (qd = prev \/ qm_Id m ∈ commitedIds st) then st' = st /\ prev' = prev /\ msg = None
      else prev' = qd /\ forall info, msg = Some info ->
             exists value, info = mkTxChannelInfo (SubmitValue (mkMsgSubmitValue accAddr qd value)) false 0 (qm_Id m)
  | _ => st' = st /\ prev' = prev /\ msg = None
  end.

Lemma checkCycle_step o st prev :
  match checkCycle o st prev with
  | Ok (st', prev', msg) => fresh_reports st st' (option_list msg) /\ checked o st prev st' prev' msg
  | Panic p => attempt_panics o p
  | Err _ => False
  end.
Proof using Type.
  unfold checkCycle, checked. destruct (current o) as [err|[qd [m|]]] eqn:Eo; try (split; [apply fresh_reports_nil|done]).
  destruct (decide (qd = prev \/ qm_Id m ∈ commitedIds st)) as [Hd|Hd]; cycle 1.
  - rewrite !bool_decide_eq_false_2 by tauto. cbn [orb].
    pose proof (spot_report_cases (obs_env o) st qd (qm_Id m) (obs_sent o) (obs_ctxErr o)) as Hg.
    destruct (GenerateAndBroadcastSpotPriceReport _ _ _ _ _ _) as [[st' msg] r] eqn:Eg. destruct Hg as (H1 & H2 & H3).
    assert (fresh_reports st st' (option_list msg) /\ (qd = qd /\ forall info, msg = Some info ->
      exists value, info = mkTxChannelInfo (SubmitValue (mkMsgSubmitValue accAddr qd value)) false 0 (qm_Id m))) as Hok;
      [|destruct r; [exact Hok|exact Hok|exists qd, m; split; [done|by eapply spot_report_panics]]].
    split; [|split; [done|]].
    + rewrite <- (app_nil_r (option_list msg)). apply (fresh_reports_cons _ st' _ _ _ (qm_Id m)); [tauto|done| |apply fresh_reports_nil].
      intros info E. destruct (H3 info E) as [Hin [v ->]]. done.
    + intros info E. by destruct (H3 info E) as [_ Hv].
  - assert (bool_decide (qd = prev) || bool_decide (qm_Id m ∈ commitedIds st) = true) as ->.
    { destruct Hd; [by rewrite bool_decide_eq_true_2|]. by rewrite orb_comm, bool_decide_eq_true_2. }
    split; [apply fresh_reports_nil|done].
Qed.

Lemma fresh_reports_trans st st1 st2 l1 l2 :
  fresh_reports st st1 l1 -> fresh_reports st1 st2 l2 -> fresh_reports st st2 (l1 ++ l2).
Proof using Type.
  intros (H1 & N1 & A1) (H2 & N2 & A2). rewrite Forall_forall in A1, A2. split_and!; [auto|..].
  - rewrite fmap_app. apply NoDup_app. split_and!; [done| |done].
    intros x (i1 & -> & Hi1)%list_elem_of_fmap (i2 & E & Hi2)%list_elem_of_fmap.
    destruct (A1 i1 Hi1), (A2 i2 Hi2). congruence.
  - apply Forall_app. split; apply Forall_forall; intros i Hi.
    + destruct (A1 i Hi). auto.
    + destruct (A2 i Hi). auto.
Qed.

Lemma check_cycles_fresh os st prev :
  match check_cycles os st prev with
  | Ok (st', _, msgs) => fresh_reports st st' msgs
  | Panic p => exists o, o ∈ os /\ attempt_panics o p
  | Err _ => False
  end.
Proof using Type.
  revert st prev. induction os as [|o os IH]; intros st prev; cbn [check_cycles]; [apply fresh_reports_nil|].
  pose proof (checkCycle_step o st prev) as Ho. destruct (checkCycle o st prev) as [[[st1 prev1] msg]| |p]; cbn [mbind go_bind]; [|done|].
  - specialize (IH st1 prev1). destruct (check_cycles os st1 prev1) as [[[st2 prev2] msgs]| |p]; cbn [mbind go_bind]; [|done|].
    + destruct Ho as [Ho _]. by eapply fresh_reports_trans.
    + destruct IH as (o' & Hin & Hp). exists o'. split; [by right|done].
  - exists o. split; [by left|done].
Qed.

(** What the node says while nothing changes: an error, no query, or the query
    data [qd]. *)
Definition still (qd : list Z) (o : observation) : Prop :=
  match current o with inr (qd', Some _) => qd' = qd | _ => True end.

Lemma check_cycles_still qd os st : Forall (still qd) os -> check_cycles os st qd = Ok (st, qd, []).
Proof using Type.
  induction 1 as [|o os Ho _ IH]; cbn [check_cycles]; [done|].
  assert (checkCycle o st qd = Ok (st, qd, None)) as ->; [|cbn [mbind go_bind]; by rewrite IH].
  unfold checkCycle. unfold still in Ho. destruct (current o) as [err|[qd' [m|]]]; [done| |done].
  by rewrite bool_decide_true by done.
Qed.

(** The monitor of the cycle list. A check makes an attempt exactly when the
    current query has other data than the last attempt and is not marked; over any
    number of checks every query is sent at most once, as a report of its data, and
    marked. An attempt counts even when it fails: until the node names other query
    data nothing more is sent, neither for the failed query nor, when the cycle
    list has only this query, for any of its later rounds. Only the generation of a
    report can panic. *)
Theorem cycle_monitor_correct o os st prev :
  match checkCycle o st prev with
  | Ok (st1, prev1, msg) => checked o st prev st1 prev1 msg /\
      (Forall (still prev1) os -> check_cycles (o :: os) st prev = Ok (st1, prev1, option_list msg))
  | Panic p => attempt_panics o p
  | Err _ => False
  end /\
  match check_cycles (o :: os) st prev with
  | Ok (st', _, msgs) => fresh_reports st st' msgs
  | Panic p => exists o', o' ∈ o :: os /\ attempt_panics o' p
  | Err _ => False
  end.
Proof using Type.
  pose proof (checkCycle_step o st prev) as Hs. split; [|exact (check_cycles_fresh (o :: os) st prev)].
  destruct (checkCycle o st prev) as [[[st1 prev1] msg]| |p] eqn:E; [|done|done]. destruct Hs as [_ Hs]. split; [exact Hs|].
  intros Ho. cbn [check_cycles]. rewrite E. cbn [mbind go_bind]. rewrite (check_cycles_still prev1 os st1 Ho).
  cbn [mbind go_bind]. by rewrite app_nil_r.
Qed.

(** *** The delays *)
Lemma backoff_spec d : 0 <= d <= maxRetryDelay -> backoff d = Z.min (2 * d) maxRetryDelay.
Proof using Type.
  clear. intros Hd. unfold backoff. rewrite wrap_small; [|unfold go_width; cbn; lia|].
  - rewrite Z.gtb_ltb. destruct (Z.ltb_spec maxRetryDelay (d * 2)); lia.
  - unfold in_range, maxRetryDelay, Second, min_int, max_int in *. cbn. lia.
Qed.

Lemma backoff_iter k :
  Nat.iter k backoff defaultRetryDelay = Z.min (defaultRetryDelay * 2 ^ Z.of_nat k) maxRetryDelay.
Proof using Type.
  clear. induction k as [|k IH]; [done|]. rewrite Nat.iter_succ, IH.
  assert (0 < 2 ^ Z.of_nat k) by (apply Z.pow_pos_nonneg; lia).
  rewrite backoff_spec by (unfold defaultRetryDelay, maxRetryDelay, Millisecond, Second; lia).
  rewrite Nat2Z.inj_succ, Z.pow_succ_r by lia. unfold defaultRetryDelay, maxRetryDelay, Millisecond, Second. lia.
Qed.

(** *** Tipped queries *)
Section TippedFacts.
Variable query_type : list Z -> string.

(** From [t] to [t'] the tips [added] were handed to the bridge daemon and the
    reports [msgs] were sent. *)
Definition tips_progress (t t' : tips) (added : list QueryMeta) (msgs : list TxChannelInfo) : Prop :=
  fresh_reports (spot_state t) (spot_state t') msgs /\
  TokenBridgeTipsCache t' = TokenBridgeTipsCache t ++ (qm_QueryData <$> added) /\
  NoDup (qm_Id <$> added) /\
  (forall x, x ∈ depositTipMap t' <-> x ∈ depositTipMap t \/ x ∈ qm_Id <$> added) /\
  Forall (fun query => qm_Id query ∉ depositTipMap t) added.

Lemma tips_progress_nil t : tips_progress t t [] [].
Proof using Type.
  clear. split_and!; [apply fresh_reports_nil|by rewrite app_nil_r|constructor|set_solver|constructor].
Qed.

Lemma tips_progress_trans t t1 t2 a1 a2 m1 m2 :
  tips_progress t t1 a1 m1 -> tips_progress t1 t2 a2 m2 -> tips_progress t t2 (a1 ++ a2) (m1 ++ m2).
Proof using Type.
  clear. intros (F1 & C1 & N1 & D1 & A1) (F2 & C2 & N2 & D2 & A2). rewrite Forall_forall in A2.
  split_and!.
  - by eapply fresh_reports_trans.
  - by rewrite C2, C1, fmap_app, <- app_assoc.
  - rewrite fmap_app. apply NoDup_app. split_and!; [done| |done].
    intros x Hx (q & -> & Hq)%list_elem_of_fmap. apply (A2 q Hq), D1. by right.
  - intros x. rewrite D2, D1, fmap_app, elem_of_app. tauto.
  - apply Forall_app. split; [done|]. apply Forall_forall. intros q Hq H. apply (A2 q Hq), D1. by left.
Qed.

(** The tipped queries that a report, or a tip for the bridge daemon, may be for. *)
Definition open_query (height : Z) (ty : string) (query : QueryMeta) : Prop :=
  height <= Expiration query /\ strings_EqualFold (query_type (qm_QueryData query)) ty = true.

Definition report_of (height : Z) (queries : list QueryMeta) (info : TxChannelInfo) : Prop :=
  exists query value, query ∈ queries /\ open_query height "SpotPrice" query /\
    info = mkTxChannelInfo (SubmitValue (mkMsgSubmitValue accAddr (qm_QueryData query) value)) false 0 (qm_Id query).

Lemma handleTippedQuery_step height env sent ctxErr t query :
  match handleTippedQuery query_type height env sent ctxErr t query with
  | Ok (t', msg) =>
      exists added, tips_progress t t' added (option_list msg) /\
        Forall (fun q => q = query /\ open_query height "TRBBridgeV2" q) added /\
        Forall (report_of height [query]) (option_list msg)
  | Panic p => report_panics env (qm_QueryData query) p
  | Err _ => False
  end.
Proof using Type.
  unfold handleTippedQuery. destruct (_ || _ || _) eqn:E.
  { exists []. split_and!; [apply tips_progress_nil|constructor..]. }
  apply orb_false_iff in E as [[Hx Hc]%orb_false_iff Ht].
  destruct (strings_EqualFold _ "TRBBridgeV2") eqn:Eb.
  - destruct (bool_decide (qm_Id query ∈ depositTipMap t)) eqn:Ed.
    { exists []. split_and!; [apply tips_progress_nil|constructor..]. }
    apply bool_decide_eq_false in Ed. exists [query]. split; [|split; [constructor; [|constructor]; split; [done|split; [lia|done]]|constructor]].
    split_and!; [apply fresh_reports_nil|done|repeat constructor; set_solver| |by repeat constructor].
    intros x. cbn. rewrite elem_of_union, elem_of_singleton, list_elem_of_singleton. tauto.
  - cbn in Ht. apply andb_false_iff in Ht as [Ht|Ht]; [|done]. apply negb_false_iff in Ht.
    pose proof (spot_report_cases env (spot_state t) (qm_QueryData query) (qm_Id query) sent ctxErr) as Hg.
    destruct (GenerateAndBroadcastSpotPriceReport _ _ _ _ _ _) as [[st' msg] r] eqn:Eg. destruct Hg as (H1 & H2 & H3).
    enough (exists added, tips_progress t (mkTips st' (depositTipMap t) (TokenBridgeTipsCache t)) added (option_list msg) /\
      Forall (fun q => q = query /\ open_query height "TRBBridgeV2" q) added /\ Forall (report_of height [query]) (option_list msg)) as Hok
      by (destruct r; [exact Hok|exact Hok|by eapply spot_report_panics]).
    exists []. split_and!; [|constructor|].
    + split_and!; [|by rewrite app_nil_r|constructor|set_solver|constructor]. cbn [spot_state].
      rewrite <- (app_nil_r (option_list msg)).
      apply (fresh_reports_cons _ st' _ _ _ (qm_Id query)); [by apply bool_decide_eq_false in Hc|done| |apply fresh_reports_nil].
      intros info Ei. destruct (H3 info Ei) as [Hin [v ->]]. done.
    + destruct msg as [info|]; [|constructor]. destruct (H3 info eq_refl) as [_ [v ->]].
      constructor; [|constructor]. exists query, v. split; [by left|]. split; [split; [lia|done]|done].
Qed.

(** Some query of the answer whose report panics. *)
Definition tip_panics (k : tip_tick) (p : go_panic) : Prop :=
  exists queries query i, tipped k = inr queries /\ query ∈ queries /\ report_panics (report_env k i) (qm_QueryData query) p.

Lemma handleTippedQueries_step i height k t queries :
  match handleTippedQueries query_type i height k t queries with
  | Ok (t', msgs) =>
      exists added, tips_progress t t' added msgs /\
        Forall (fun q => q ∈ queries /\ open_query height "TRBBridgeV2" q) added /\
        Forall (report_of height queries) msgs
  | Panic p => exists query j, query ∈ queries /\ report_panics (report_env k j) (qm_QueryData query) p
  | Err _ => False
  end.
Proof using Type.
  revert i t. induction queries as [|query queries IH]; intros i t; cbn [handleTippedQueries].
  { exists []. split_and!; [apply tips_progress_nil|constructor..]. }
  pose proof (handleTippedQuery_step height (report_env k i) (report_sent k i) (report_ctxErr k i) t query) as H1.
  destruct (handleTippedQuery _ _ _ _ _ _ _) as [[t1 msg]| |p]; cbn [mbind go_bind fst snd]; [|done|].
  2:{ exists query, i. split; [by left|done]. }
  destruct H1 as (a1 & P1 & A1 & M1).
  specialize (IH (S i) t1). destruct (handleTippedQueries _ _ _ _ _ _) as [[t2 msgs]| |p]; cbn [mbind go_bind fst snd]; [|done|].
  2:{ destruct IH as (q & j & Hq & Hp). exists q, j. split; [by right|done]. }
  destruct IH as (a2 & P2 & A2 & M2).
  exists (a1 ++ a2). split; [by eapply tips_progress_trans|]. rewrite !Forall_app. split_and!.
  - eapply Forall_impl; [exact A1|]. intros q [-> H]. split; [by left|done].
  - eapply Forall_impl; [exact A2|]. intros q [H1 H2]. split; [by right|done].
  - eapply Forall_impl; [exact M1|]. intros info (q & v & ->%list_elem_of_singleton & H). exists query, v. split; [by left|done].
  - eapply Forall_impl; [exact M2|]. intros info (q & v & H1 & H). exists q, v. split; [by right|done].
Qed.

(** A tick, and the delay after it. *)
Lemma tick_step k t d :
  match MonitorForTippedQueries_tick query_type k t d with
  | Ok (t', d', msgs) =>
      (exists added, tips_progress t t' added msgs) /\
      d' = match tipped k with inl _ => backoff d | inr [] => d | inr _ => defaultRetryDelay end /\
      (msgs <> [] \/ TokenBridgeTipsCache t' <> TokenBridgeTipsCache t -> exists queries latest,
         tipped k = inr queries /\ status_height k = inr latest /\
         Forall (report_of (wrap uint64 latest) queries) msgs)
  | Panic p => tip_panics k p
  | Err _ => False
  end.
Proof using Type.
  unfold MonitorForTippedQueries_tick, tip_panics.
  destruct (tipped k) as [err|[|query queries]]; [|..|destruct (status_height k) as [err|latest]];
    try (split; [exists []; apply tips_progress_nil|split; [done|by intros [?|?]]]).
  pose proof (handleTippedQueries_step 0 (wrap uint64 latest) k t (query :: queries)) as H.
  destruct (handleTippedQueries _ _ _ _ _ _) as [[t' msgs]| |p]; cbn [mbind go_bind fst snd]; [|done|].
  - destruct H as (added & P & A & M).
    split; [by exists added|]. split; [done|]. intros _. by exists (query :: queries), latest.
  - destruct H as (q & j & Hq & Hp). by exists (query :: queries), q, j.
Qed.

Lemma tip_ticks_progress ks t d :
  defaultRetryDelay <= d <= maxRetryDelay ->
  match tip_ticks query_type ks t d with
  | Ok (t', d', msgs) => (exists added, tips_progress t t' added msgs) /\ defaultRetryDelay <= d' <= maxRetryDelay
  | Panic p => exists k, k ∈ ks /\ tip_panics k p
  | Err _ => False
  end.
Proof using Type.
  revert t d. induction ks as [|k ks IH]; intros t d Hd; cbn [tip_ticks]; [split; [exists []; apply tips_progress_nil|exact Hd]|].
  pose proof (tick_step k t d) as Hk. destruct (MonitorForTippedQueries_tick _ _ _ _) as [[[t1 d1] m1]| |p]; cbn [mbind go_bind]; [|done|].
  2:{ exists k. split; [by left|done]. }
  destruct Hk as ([a1 P1] & Hd1 & _). assert (defaultRetryDelay <= d1 <= maxRetryDelay) as Hd1'.
  { subst d1. destruct (tipped k) as [err|[|q qs]]; [|done|done].
    unfold defaultRetryDelay, maxRetryDelay, Millisecond, Second in *.
    rewrite backoff_spec; unfold maxRetryDelay, Second; lia. }
  specialize (IH t1 d1 Hd1'). destruct (tip_ticks _ _ _ _) as [[[t2 d2] m2]| |p]; cbn [mbind go_bind]; [|done|].
  - destruct IH as [[a2 P2] Hd2]. split; [|exact Hd2]. exists (a1 ++ a2). by eapply tips_progress_trans.
  - destruct IH as (k' & Hin & Hp). exists k'. split; [by right|done].
Qed.

Lemma tip_ticks_errors ks t :
  Forall (fun k => exists err, tipped k = inl err) ks ->
  tip_ticks query_type ks t defaultRetryDelay =
    Ok (t, Z.min (defaultRetryDelay * 2 ^ Z.of_nat (length ks)) maxRetryDelay, []).
Proof using Type.
  intros Hks. rewrite <- backoff_iter. generalize defaultRetryDelay as d.
  induction Hks as [|k ks [err Hk] _ IH]; intros d; cbn [tip_ticks]; [done|].
  unfold MonitorForTippedQueries_tick. rewrite Hk. cbn [mbind go_bind]. rewrite IH. cbn [mbind go_bind length app]. by rewrite Nat.iter_succ_r.
Qed.

(** The monitor of tipped queries, over any sequence of ticks: every query is sent
    at most once while it is marked and is marked then; every bridge tip is handed
    to the bridge daemon at most once in the life of the reporter, in the order of
    the answers. A tick reports only open spot price queries of its answer. The
    delay stays between 200 ms and 30 s, doubles on every error, and goes back to
    200 ms only on an answer with queries: an answer without any keeps it. Only the
    generation of a report can panic. *)
Theorem tipped_monitor_correct ks t :
  match tip_ticks query_type ks t defaultRetryDelay with
  | Ok (t', d, msgs) => (exists added, tips_progress t t' added msgs) /\ defaultRetryDelay <= d <= maxRetryDelay
  | Panic p => exists k, k ∈ ks /\ tip_panics k p
  | Err _ => False
  end /\
  (Forall (fun k => exists err, tipped k = inl err) ks ->
   tip_ticks query_type ks t defaultRetryDelay =
     Ok (t, Z.min (defaultRetryDelay * 2 ^ Z.of_nat (length ks)) maxRetryDelay, [])) /\
  (forall k d t' d' msgs, MonitorForTippedQueries_tick query_type k t d = Ok (t', d', msgs) ->
     d' = match tipped k with inl _ => backoff d | inr [] => d | inr _ => defaultRetryDelay end /\
     (msgs <> [] -> exists queries latest, tipped k = inr queries /\ status_height k = inr latest /\
        Forall (report_of (wrap uint64 latest) queries) msgs)).
Proof using Type.
  split_and!.
  - exact (tip_ticks_progress ks t defaultRetryDelay ltac:(vm_compute; split; discriminate)).
  - apply tip_ticks_errors.
  - intros k d t' d' msgs E. pose proof (tick_step k t d) as H. rewrite E in H.
    destruct H as (_ & Hd & Hm). split; [exact Hd|]. intros Hne. apply Hm. by left.
Qed.
End TippedFacts.
End SpotReports.

(** ** Witnesses

    One market with exponent -6 and two fresh prices; its query data is [171]. *)
Definition ex_param := mkMarketParam 7 "TRB-USD" (-6) 1 1 "{}" "ab".
Definition ex_reqs := [[mkMarketPriceUpdate 7 [mkExchangePrice "a" 2000000 (Some 100); mkExchangePrice "b" 4000000 (Some 101)]]].
Definition ex_cache : MarketToExchangePrices :=
  match serve 30 ex_reqs with Ok mte => mte | _ => NewMarketToExchangePrices 30 end.
Definition ex_env := mkEnv ex_cache 110 (fun _ => None) 110 110.
Definition ex_spot := mkSpot (NewPriceGuard fzero 0 false false) ∅.
Definition ex_pack (n : Z) : go_error + list Z := inr [n mod 256].
Definition ex_generate :=
  GenerateAndBroadcastSpotPriceReport (fun _ => "") ex_pack (fun qd => qd) (fun _ _ _ _ => "") [ex_param] "tellor1"
    ex_env ex_spot [171] 9 true None.

Lemma spot_report_correct_witness :
  serve 30 ex_reqs = Ok (MarketToExchange ex_env) /\
  let '(st, msg, r) := ex_generate in
  msg = Some (mkTxChannelInfo (SubmitValue (mkMsgSubmitValue "tellor1" [171] (hex_EncodeToString [3000000 * 10 ^ 12 mod 256]))) false 0 9) /\
  r = Ok tt /\ commitedIds st = {[9]} ∪ ∅.
Proof.
  split; [vm_compute; reflexivity|].
  pose proof (spot_report_correct (fun _ => "") ex_pack (fun qd => qd) (fun _ _ _ _ => "") [ex_param] "tellor1"
    30 ex_reqs ex_env ex_spot [171] 9 true None ex_param ltac:(vm_compute; reflexivity)
    ltac:(exists 0%nat; vm_compute; reflexivity)
    ltac:(apply (bool_decide_unpack _); vm_compute; exact I) ltac:(vm_compute; discriminate) ltac:(vm_compute; reflexivity)) as H.
  unfold ex_generate. destruct (GenerateAndBroadcastSpotPriceReport _ _ _ _ _ _ _ _ _ _ _ _) as [[st msg] r].
  destruct H as [Hm Hr].
  assert (msg = Some (mkTxChannelInfo (SubmitValue (mkMsgSubmitValue "tellor1" [171] (hex_EncodeToString [3000000 * 10 ^ 12 mod 256]))) false 0 9)) as ->
    by (apply Hm; split; [reflexivity|]; exists 3000000, [3000000 * 10 ^ 12 mod 256]; vm_compute; repeat split; discriminate).
  split; [reflexivity|exact Hr].
Defined.

Definition ex_node := mkNode ex_spot [] [] [] ∅ ∅.

Lemma marks_correct_witness :
  settled ex_node /\
  let s := node_run (fun _ => "") ex_pack (fun qd => qd) (fun _ _ _ _ => "") [ex_param] "tellor1"
             [Look 9; Send ex_env [171] 9 true; Finish 9 false; Mark 9] ex_node in
  9 ∈ commitedIds (shared s) /\ 9 ∉ inflight s /\ 9 ∉ reported s.
Proof.
  assert (settled ex_node) as Hs
    by (split; [reflexivity|]; split; [reflexivity|]; split; [constructor|];
        split; [intros id H; by apply elem_of_nil in H|]; split; [intros id _; cbn; set_solver|set_solver]).
  split; [exact Hs|].
  destruct (prepareReport (fun _ => "") ex_pack (fun qd => qd) (fun _ _ _ _ => "") [ex_param] "tellor1" ex_env ex_spot [171] 9)
    as [st [msg|e|p]] eqn:E; [|by apply (f_equal snd) in E; vm_compute in E..].
  pose proof (marks_correct (fun _ => "") ex_pack (fun qd => qd) (fun _ _ _ _ => "") [ex_param] "tellor1" ex_node Hs) as [_ H].
  destruct (H ex_env [171] 9 st msg ltac:(discriminate) ltac:(apply (bool_decide_unpack _); vm_compute; exact I) E) as [(H1 & H2 & H3 & _) _].
  exact (conj H1 (conj H2 H3)).
Defined.
