(* ===== verification/BridgeReports.v ===== *)
(** * reporter/client: reports of bridge deposits

    deposits.go and the bridge part of broadcast_message.go: the reporter sends a
    report of the oldest pending deposit every ten seconds and removes the oldest
    deposit when a report completes. Sending a transaction is the business of
    TxSender: its outcome is an argument here, and so is whether the channel took
    a message. *)
From S2P Require Import Prelude Hex TokenBridge Messages.
Local Open Scope Z_scope.

Definition bridgeDepositMaxRetries : Z := 10.

Section BridgeReports.
(** [c.accAddr.String()]. *)
Variable accAddr : string.

Definition deposits (cache : DepositReports) : go (list Z * string) :=
  match GetOldestReport cache with
  | Ok oldestDeposit => Ok (QueryData oldestDeposit, hex_EncodeToString (Value oldestDeposit))
  | Err _ => Err (ErrNew "no pending deposits")
  | Panic p => Panic p
  end.

(** [sent] is what [trySend] returns, [ctxErr] is [ctx.Err()]; the message that
    went into the channel is returned. *)
Definition GenerateDepositMessages (cache : DepositReports) (sent : bool) (ctxErr : option go_error) :
    option TxChannelInfo * go unit :=
  match deposits cache with
  | Err err =>
      if decide (error_text err = "no pending deposits") then (None, Ok tt)
      else (None, Err (wrapf "error getting deposits" err))
  | Panic p => (None, Panic p)
  | Ok (depositQuerydata, value) =>
      let msg := SubmitValue (mkMsgSubmitValue accAddr depositQuerydata value) in
      if sent then (Some (mkTxChannelInfo msg true bridgeDepositMaxRetries 0), Ok tt)
      else (None, match ctxErr with
                  | Some err => Err (wrapf "could not queue bridge deposit report" err)
                  | None => Err (ErrNew "could not queue bridge deposit report: tx channel closed")
                  end)
  end.

(** [outcome] is the result of [sendTx]: the code of the transaction, or an error;
    [resent] is what [trySend] returns. *)
Definition HandleBridgeDepositTxInChannel (cache : DepositReports) (data : TxChannelInfo)
    (outcome : go_error + Z) (resent : bool) : DepositReports * option TxChannelInfo :=
  match outcome with
  | inl _ =>
      if NumRetries data =? 0 then (RemoveOldestReport cache, None)
      else
        let data := mkTxChannelInfo (Msg data) (isBridge data) (wrap (IntTy 8 false) (NumRetries data - 1))
                      (QueryMetaId data) in
        (cache, if resent then Some data else None)
  | inr _ =>
      match Msg data with
      | SubmitValue _ => (RemoveOldestReport cache, None)
      | _ => (cache, None)
      end
  end.

(** ** The reporter and the bridge client together

    The messages that are queued or being sent are in flight: the channel has no
    buffer and every message gets its own goroutine, so they complete in any
    order. *)
Record rstate := mkRstate { cache : DepositReports; flight : list TxChannelInfo }.

Inductive rop :=
  | Generate (sent : bool)
  | Complete (i : nat) (outcome : go_error + Z) (resent : bool)
  | NewReport (report : DepositReport).

Definition rstep (s : rstate) (op : rop) : rstate :=
  match op with
  | Generate sent =>
      mkRstate (cache s) (flight s ++ option_list (GenerateDepositMessages (cache s) sent None).1)
  | Complete i outcome resent =>
      match flight s !! i with
      | None => s
      | Some data =>
          let '(cache, again) := HandleBridgeDepositTxInChannel (cache s) data outcome resent in
          mkRstate cache (delete i (flight s) ++ option_list again)
      end
  | NewReport report => mkRstate (AddReport (cache s) report) (flight s)
  end.

Definition run (ops : list rop) (s : rstate) : rstate := foldl rstep s ops.

(** The reports that are removed, each with the message whose completion removed it. *)
Definition removal (s : rstate) (op : rop) : list (DepositReport * TxChannelInfo) :=
  match op with
  | Complete i _ _ =>
      match flight s !! i, cache s with
      | Some data, report :: _ =>
          if decide (cache (rstep s op) = cache s) then [] else [(report, data)]
      | _, _ => []
      end
  | _ => []
  end.

Fixpoint removals (ops : list rop) (s : rstate) : list (DepositReport * TxChannelInfo) :=
  match ops with
  | [] => []
  | op :: ops => removal s op ++ removals ops (rstep s op)
  end.

(** Every message is generated while none is in flight. *)
Fixpoint one_at_a_time (ops : list rop) (s : rstate) : Prop :=
  match ops with
  | [] => True
  | op :: ops =>
      match op with Generate _ => flight s = [] | _ => True end /\ one_at_a_time ops (rstep s op)
  end.

(** The message that reports a deposit. *)
Definition message_of (report : DepositReport) : sdk_Msg :=
  SubmitValue (mkMsgSubmitValue accAddr (QueryData report) (hex_EncodeToString (Value report))).

Definition in_step (s : rstate) : Prop :=
  flight s = [] \/ exists report reports data,
    cache s = report :: reports /\ flight s = [data] /\ Msg data = message_of report.

Lemma Generate_message s report reports :
  cache s = report :: reports ->
  (GenerateDepositMessages (cache s) true None).1 =
    Some (mkTxChannelInfo (message_of report) true bridgeDepositMaxRetries 0).
Proof. intros E. unfold GenerateDepositMessages, deposits, GetOldestReport. by rewrite E. Qed.

Lemma Generate_cases s sent :
  (GenerateDepositMessages (cache s) sent None).1 = None \/
  exists report reports, cache s = report :: reports /\
    (GenerateDepositMessages (cache s) sent None).1 =
      Some (mkTxChannelInfo (message_of report) true bridgeDepositMaxRetries 0).
Proof.
  unfold GenerateDepositMessages, deposits, GetOldestReport.
  destruct (cache s) as [|report reports]; [by left|]. destruct sent; [right|by left].
  by exists report, reports.
Qed.

Lemma Complete_cases cache data outcome resent m :
  Msg data = SubmitValue m ->
  (HandleBridgeDepositTxInChannel cache data outcome resent = (RemoveOldestReport cache, None)) \/
  exists again, HandleBridgeDepositTxInChannel cache data outcome resent = (cache, again) /\
    forall data', again = Some data' -> Msg data' = Msg data /\ NumRetries data <> 0.
Proof.
  intros Hm. unfold HandleBridgeDepositTxInChannel. destruct outcome as [err|code]; [|rewrite Hm; by left].
  destruct (Z.eqb_spec (NumRetries data) 0); [by left|]. right. eexists. split; [done|].
  intros data'. by destruct resent; intros [= <-].
Qed.

Lemma in_step_step s op :
  in_step s -> match op with Generate _ => flight s = [] | _ => True end ->
  in_step (rstep s op) /\ Forall (fun '(report, data) => Msg data = message_of report) (removal s op).
Proof.
  intros Hs Hop. destruct op as [sent|i outcome resent|report].
  - split; [|constructor]. destruct (Generate_cases s sent) as [E|(report & reports & Ec & E)];
      cbn; rewrite E, Hop; cbn; [by left|right]. by exists report, reports, (mkTxChannelInfo (message_of report) true 10 0).
  - destruct Hs as [Hf|(report & reports & data & Hc & Hf & Hm)]; cbn [rstep removal]; rewrite Hf.
    { split; [left; by rewrite lookup_nil, Hf|constructor]. }
    destruct i as [|i]; cbn [lookup list_lookup]; cycle 1.
    { split; [right; by exists report, reports, data|]. by rewrite Hc. }
    rewrite Hc. destruct (Complete_cases (report :: reports) data outcome resent _ Hm)
      as [->|(again & -> & Ha)]; cbn.
    + split; [by left|]. case_decide; repeat constructor. exact Hm.
    + split; [|case_decide; repeat constructor; exact Hm].
      destruct again as [data'|]; [right|by left]. destruct (Ha data' eq_refl) as [Hd _].
      exists report, reports, data'. by rewrite Hd.
  - split; [|constructor]. cbn. destruct Hs as [Hf|(r & rs & data & Hc & Hf & Hm)]; [by left|right].
    exists r, (rs ++ [report]), data. by rewrite Hc.
Qed.

Lemma one_at_a_time_removals ops s :
  in_step s -> one_at_a_time ops s ->
  Forall (fun '(report, data) => Msg data = message_of report) (removals ops s).
Proof.
  revert s. induction ops as [|op ops IH]; intros s Hs; cbn; [constructor|].
  intros [Hop Hrest]. destruct (in_step_step s op Hs Hop) as [Hs' Hr].
  apply Forall_app. auto.
Qed.

Lemma run_Generate n report reports flight0 :
  run (repeat (Generate true) n) (mkRstate (report :: reports) flight0) =
    mkRstate (report :: reports)
      (flight0 ++ repeat (mkTxChannelInfo (message_of report) true bridgeDepositMaxRetries 0) n).
Proof.
  revert flight0. induction n as [|n IH]; intros flight0; cbn; [by rewrite app_nil_r|].
  unfold run in IH. cbn in IH. rewrite IH. by rewrite <- app_assoc.
Qed.

Lemma removals_app ops ops' s : removals (ops ++ ops') s = removals ops s ++ removals ops' (run ops s).
Proof.
  revert s. induction ops as [|op ops IH]; intros s; cbn; [done|]. by rewrite IH, app_assoc.
Qed.

Lemma removals_Generate n s : removals (repeat (Generate true) n) s = [].
Proof. revert s. induction n as [|n IH]; intros s; cbn; [done|apply IH]. Qed.

(** Completions in flight, all with a response: each removes the oldest report. *)
Lemma complete_all codes data lost rest :
  isBridgeDepositReportMsg (Msg data) = true -> length lost = length codes ->
  let ops := (fun code => Complete 0 (inr code) true) <$> codes in
  let s := mkRstate (lost ++ rest) (repeat data (length codes)) in
  run ops s = mkRstate rest [] /\ removals ops s = (fun report => (report, data)) <$> lost.
Proof.
  intros Hm. revert lost. induction codes as [|code codes IH]; intros [|r lost] Hl; cbn in *; try done.
  destruct (Msg data) as [m| | | |] eqn:Em; [|done..]. cbn.
  destruct (IH lost ltac:(lia)) as [Hrun Hrem]. rewrite app_nil_r. split; [exact Hrun|].
  rewrite decide_False; [by rewrite Hrem|]. clear. intros E. apply (f_equal length) in E. cbn in E. lia.
Qed.

(** C14: As long as a report is only generated when none is in flight, a report is
    removed from the cache only when the message that reports exactly this deposit
    completes (or runs out of retries). But nothing makes the monitor wait, and
    when it generates [n + 1] messages before the first completes, they all report
    the same deposit and their completions, whatever their codes, remove it and
    the [n] deposits behind it, for which no message ever was generated. *)
Theorem bridge_reports_lost :
  (forall ops s, in_step s -> one_at_a_time ops s ->
     Forall (fun '(report, data) => Msg data = message_of report) (removals ops s)) /\
  (forall report lost rest codes, length codes = S (length lost) ->
     let ops := repeat (Generate true) (S (length lost)) ++
                ((fun code => Complete 0 (inr code) true) <$> codes) in
     let s := mkRstate (report :: lost ++ rest) [] in
     run ops s = mkRstate rest [] /\ (removals ops s).*1 = report :: lost /\
     Forall (fun '(_, data) => Msg data = message_of report) (removals ops s)).
Proof.
  split; [exact one_at_a_time_removals|]. intros report lost rest codes Hl ops s.
  set (data := mkTxChannelInfo (message_of report) true bridgeDepositMaxRetries 0).
  destruct (complete_all codes data (report :: lost) rest eq_refl ltac:(by rewrite Hl)) as [Hrun Hrem].
  unfold ops, s. unfold run in *. rewrite foldl_app, removals_app, removals_Generate.
  change (foldl rstep ?s (repeat (Generate true) ?n)) with (run (repeat (Generate true) n) s).
  rewrite run_Generate. cbn [app]. rewrite <- Hl. split; [exact Hrun|].
  cbn [app] in Hrem. fold data. rewrite Hrem. split.
  - rewrite <- list_fmap_compose. apply list_fmap_id.
  - by apply Forall_fmap, Forall_forall.
Qed.
End BridgeReports.

(** ** Witness *)
Definition ex_report (n : Z) : DepositReport := mkDepositReport [n] [n; n].

Lemma bridge_reports_lost_witness :
  let s := mkRstate [ex_report 1; ex_report 2; ex_report 3] [] in
  let ops := [Generate true; Generate true; Complete 0 (inr 0) true; Complete 0 (inr 5) true] in
  run "tellor1" ops s = mkRstate [ex_report 3] [] /\
  (removals "tellor1" ops s).*1 = [ex_report 1; ex_report 2] /\
  Forall (fun '(_, data) => Msg data = message_of "tellor1" (ex_report 1)) (removals "tellor1" ops s).
Proof.
  exact (proj2 (bridge_reports_lost "tellor1") (ex_report 1) [ex_report 2] [ex_report 3] [0; 5] eq_refl).
Defined.
