(* ===== verification/ResponseCache.v ===== *)
(** * custom_query/rpc/rpc_reader/cache.go: the cache of responses

    The process-wide cache of response bodies, whose misses go through
    [singleflight]. That package is third-party; its documented behaviour is in the
    steps [step_lead], [step_join] and [step_finish]: a call of [Do] for a key that
    has none in flight runs the function, any other waits and gets the same
    result. Callers interleave: the state is changed by the steps of a relation,
    one per section under a lock. *)
From stdpp Require Import relations.
From S2P Require Import Prelude.
Local Open Scope Z_scope.

Record cacheEntry := mkCacheEntry { body : string; fetchedAt : Time }.

(** What a call of [FetchJSON] is doing. A flight of a key is the call that leads it
    and when it began. *)
Record flight := mkFlight { leader : nat; began : Time }.

Inductive phase :=
  | Missed                       (** looked in the cache, will call [Do] *)
  | Leading                      (** runs the function of [Do], before it looks again *)
  | Fetching                     (** in [fetchWithRetry] *)
  | Done (result : go string)    (** its function returned, [Do] did not *)
  | Following (f : flight)       (** waits in [Do] for the call that leads [f] *)
  | Returned (via : option flight) (result : go string). (** its own result, or that of a flight *)

Record fetch_call := mkCall { key : string; started : Time; at_phase : phase }.

Record world := mkWorld {
  now : Time;
  items : gmap string cacheEntry;
  group : gmap string flight;
  calls : gmap nat fetch_call;
  stores : list (string * cacheEntry);  (** everything [set] stored, newest first *)
  misses : list (string * Time)         (** every start of [fetchWithRetry], newest first *)
}.

Section Cache.
Variable ttl : Duration.

Definition enabled : bool := 0 <? ttl.

(** [get]: a body that is not older than the TTL. *)
Definition get (k : string) (w : world) : option string :=
  e ← items w !! k;
  if ttl <? time_Sub (now w) (fetchedAt e) then None else Some (body e).

Definition set_item (k b : string) (w : world) : world :=
  let e := mkCacheEntry b (now w) in
  mkWorld (now w) (<[k := e]> (items w)) (group w) (calls w) ((k, e) :: stores w) (misses w).

Definition with_call (id : nat) (c : fetch_call) (w : world) : world :=
  mkWorld (now w) (items w) (group w) (<[id := c]> (calls w)) (stores w) (misses w).
Definition with_group (g : gmap string flight) (w : world) : world :=
  mkWorld (now w) (items w) g (calls w) (stores w) (misses w).
Definition with_miss (k : string) (w : world) : world :=
  mkWorld (now w) (items w) (group w) (calls w) (stores w) ((k, now w) :: misses w).
Definition elapse (d : Duration) (w : world) : world :=
  mkWorld (now w + d) (items w) (group w) (calls w) (stores w) (misses w).

Definition goto (p : phase) (c : fetch_call) : fetch_call := mkCall (key c) (started c) p.

(** The first look of a call into the cache. *)
Definition look (id : nat) (k : string) (w : world) : world :=
  with_call id (mkCall k (now w) (match get k w with Some b => Returned None (Ok b) | None => Missed end)) w.

(** The function given to [Do] looks again, and fetches only when that misses. *)
Definition recheck (id : nat) (c : fetch_call) (w : world) : world :=
  match get (key c) w with
  | Some b => with_call id (goto (Done (Ok b)) c) w
  | None => with_call id (goto Fetching c) (with_miss (key c) w)
  end.

(** [fetchWithRetry] answered. *)
Definition fetched (id : nat) (c : fetch_call) (result : go string) (w : world) : world :=
  let w := match result with Ok b => set_item (key c) b w | _ => w end in
  with_call id (goto (Done result) c) w.

(** A follower of the flight gets its result. *)
Definition receive (id : nat) (result : go string) (c : fetch_call) : fetch_call :=
  match at_phase c with
  | Following f => if bool_decide (leader f = id) then goto (Returned (Some f) result) c else c
  | _ => c
  end.

(** [Do] returns, to its leader and to everybody who waits for it. *)
Definition finish (id : nat) (c : fetch_call) (result : go string) (w : world) : world :=
  mkWorld (now w) (items w) (delete (key c) (group w))
    (<[id := goto (Returned None result) c]> (receive id result <$> calls w)) (stores w) (misses w).

(** The steps of the environment (time, a call of [FetchJSON]) and of the calls. *)
Inductive env_step : world -> world -> Prop :=
  | step_time d w : 0 <= d -> env_step w (elapse d w)
  | step_look id k w : calls w !! id = None -> env_step w (look id k w).

Inductive call_step : world -> world -> Prop :=
  | step_lead id c w :
      calls w !! id = Some c -> at_phase c = Missed -> group w !! key c = None ->
      call_step w (with_call id (goto Leading c) (with_group (<[key c := mkFlight id (now w)]> (group w)) w))
  | step_join id c f w :
      calls w !! id = Some c -> at_phase c = Missed -> group w !! key c = Some f ->
      call_step w (with_call id (goto (Following f) c) w)
  | step_recheck id c w :
      calls w !! id = Some c -> at_phase c = Leading -> call_step w (recheck id c w)
  | step_fetched id c result w :
      calls w !! id = Some c -> at_phase c = Fetching -> (forall p, result <> Panic p) ->
      call_step w (fetched id c result w)
  | step_finish id c result w :
      calls w !! id = Some c -> at_phase c = Done result -> call_step w (finish id c result w).

Inductive reachable : world -> Prop :=
  | reach_init t : reachable (mkWorld t ∅ ∅ ∅ [] [])
  | reach_env w w' : reachable w -> env_step w w' -> reachable w'
  | reach_call w w' : reachable w -> call_step w w' -> reachable w'.

(** ** What holds of every state *)
Definition in_do (p : phase) : Prop :=
  match p with Leading | Fetching | Done _ => True | _ => False end.

Definition attached (p : phase) : Prop :=
  match p with Missed | Returned _ _ => False | _ => True end.

(** A body that was in the cache of a key and was not older than the TTL at [t]. *)
Definition fresh_at (w : world) (k : string) (t : Time) (result : go string) : Prop :=
  forall b, result = Ok b -> exists e, (k, e) ∈ stores w /\ body e = b /\ t - ttl <= fetchedAt e.

(** The call leads the flight of its key. *)
Definition leads (w : world) (id : nat) (c : fetch_call) (f : flight) : Prop :=
  group w !! key c = Some f /\ leader f = id /\ started c <= began f <= now w.

Definition all_stale (w : world) (k : string) : Prop :=
  forall e, (k, e) ∈ stores w -> fetchedAt e + ttl < now w.

Definition call_ok (w : world) (id : nat) (c : fetch_call) : Prop :=
  started c <= now w /\
  match at_phase c with
  | Missed => True
  | Leading => exists f, leads w id c f
  | Fetching => (exists f, leads w id c f) /\ all_stale w (key c)
  | Done result => exists f, leads w id c f /\ fresh_at w (key c) (began f) result
  | Following f => group w !! key c = Some f
  | Returned None result => fresh_at w (key c) (started c) result
  | Returned (Some f) result =>
      fresh_at w (key c) (began f) result /\
      exists c', calls w !! leader f = Some c' /\ key c' = key c /\ started c' <= began f /\
                 at_phase c' = Returned None result
  end.

(** Two bodies stored for one key, the newer first. *)
Definition spaced (x y : string * cacheEntry) : Prop :=
  x.1 = y.1 -> fetchedAt y.2 + ttl < fetchedAt x.2.

Definition newest (k : string) (l : list (string * cacheEntry)) : option cacheEntry :=
  snd <$> head (filter (fun x => x.1 = k) l).

Record consistent (w : world) : Prop := {
  i_calls : forall id c, calls w !! id = Some c -> call_ok w id c;
  i_group : forall k f, group w !! k = Some f ->
    exists c, calls w !! leader f = Some c /\ key c = k /\ in_do (at_phase c);
  i_items : forall k, items w !! k = newest k (stores w);
  i_past : Forall (fun x => fetchedAt x.2 <= now w) (stores w);
  i_spaced : StronglySorted spaced (stores w);
  i_misses : forall k t, (k, t) ∈ misses w -> t <= now w /\
    forall e, (k, e) ∈ stores w -> t <= fetchedAt e \/ fetchedAt e + ttl < t
}.

(** ** The look into the cache *)
Hypothesis ttl_range : 0 < ttl < max_int int64.

Lemma newest_None k l e : newest k l = None -> (k, e) ∉ l.
Proof using ttl_range.
  unfold newest. destruct (filter _ l) as [|x l'] eqn:E; [|done]. intros _ Hin.
  apply (not_elem_of_nil (k, e)). rewrite <- E. by apply list_elem_of_filter.
Qed.

Lemma newest_Some k l e : newest k l = Some e -> (k, e) ∈ l.
Proof using ttl_range.
  unfold newest. destruct (filter _ l) as [|[k' e'] l'] eqn:E; [done|]. intros [= ->].
  assert ((k', e) ∈ filter (fun x => x.1 = k) l) as H by (rewrite E; left).
  apply list_elem_of_filter in H as [Hk H]. cbn in Hk. by subst.
Qed.

Lemma newest_max k l e e' :
  StronglySorted spaced l -> newest k l = Some e -> (k, e') ∈ l -> fetchedAt e' <= fetchedAt e.
Proof using ttl_range.
  unfold newest. induction 1 as [|[k1 e1] l Hl IH Hall]; [done|]. rewrite filter_cons. case_decide as Hk; cbn in *.
  - intros [= ->] [?|Hin]%elem_of_cons; [simplify_eq; lia|]. rewrite Forall_forall in Hall.
    pose proof (Hall _ Hin ltac:(done)). cbn in *. lia.
  - intros Hn [[= -> ->]|Hin]%elem_of_cons; [done|]. by apply IH.
Qed.

Lemma get_Some w k b : consistent w -> get k w = Some b -> fresh_at w k (now w) (Ok b).
Proof using ttl_range.
  intros Hc Hg b' [= <-]. unfold get in Hg. destruct (items w !! k) as [e|] eqn:Ei; [|done]. cbn in Hg.
  case_match eqn:El; [done|]. injection Hg as <-. rewrite (i_items w Hc) in Ei. apply newest_Some in Ei.
  exists e. split_and!; [done..|]. unfold time_Sub in El. lia.
Qed.

Lemma get_None w k : consistent w -> get k w = None -> all_stale w k.
Proof using ttl_range.
  intros Hc Hg e He. unfold get in Hg. rewrite (i_items w Hc) in Hg.
  destruct (newest k (stores w)) as [e0|] eqn:En; cbn in Hg; [|by apply (newest_None k (stores w) e) in En].
  pose proof (newest_max k (stores w) e0 e (i_spaced w Hc) En He).
  case_match eqn:El; [|done]. unfold time_Sub in El. unfold min_int in El. cbn in El. lia.
Qed.

(** ** The steps keep the state consistent *)
Lemma fresh_at_mono w w' k t t' r :
  (forall x, x ∈ stores w -> x ∈ stores w') -> t' <= t -> fresh_at w k t r -> fresh_at w' k t' r.
Proof using ttl_range. intros Hs Ht H b Hb. destruct (H b Hb) as (e & ? & ? & ?). exists e. split_and!; [by apply Hs|done|lia]. Qed.

Lemma fresh_at_grow w w' k t r :
  (forall x, x ∈ stores w -> x ∈ stores w') -> fresh_at w k t r -> fresh_at w' k t r.
Proof using ttl_range. intros Hs. apply fresh_at_mono; [done|lia]. Qed.

Lemma call_ok_mono w w' id c :
  call_ok w id c -> now w <= now w' ->
  (attached (at_phase c) -> forall f, group w !! key c = Some f -> group w' !! key c = Some f) ->
  (forall x, x ∈ stores w -> x ∈ stores w') ->
  (at_phase c = Fetching -> forall e, (key c, e) ∈ stores w' -> (key c, e) ∈ stores w) ->
  (forall id' c' r, calls w !! id' = Some c' -> at_phase c' = Returned None r -> calls w' !! id' = Some c') ->
  call_ok w' id c.
Proof using ttl_range.
  intros [Hst Hp] Hn Hg Hs Hf Hr. split; [lia|].
  assert (attached (at_phase c) -> forall f, leads w id c f -> leads w' id c f) as Hl.
  { intros Ha f (?%(Hg Ha) & ? & ?). split_and!; try done; lia. }
  destruct (at_phase c) as [| | |r|f|[f|] r]; cbn in *.
  - done.
  - naive_solver.
  - destruct Hp as [[f Hlf] Hst']. split; [naive_solver|]. intros e He%Hf; [|done]. specialize (Hst' e He). lia.
  - destruct Hp as (f & Hlf & Hfr). exists f. split; [by apply Hl|]. by eapply fresh_at_grow.
  - by apply Hg.
  - destruct Hp as (Hfr & c' & Hc' & ? & ? & Hret). split; [by eapply fresh_at_grow|]. exists c'. split_and!; try done. by eapply Hr.
  - by eapply fresh_at_grow.
Qed.

(** A flight is led by one call, which is in the function of [Do]. *)
Lemma leads_unique w id c f id' c' f' :
  leads w id c f -> leads w id' c' f' -> key c = key c' -> id = id'.
Proof using ttl_range. intros (H1 & <- & _) (H2 & <- & _) E. rewrite E in H1. by simplify_eq. Qed.

Lemma in_do_leads w id c :
  consistent w -> calls w !! id = Some c -> in_do (at_phase c) -> exists f, leads w id c f.
Proof using ttl_range.
  intros Hc Hid Hd. destruct (i_calls w Hc id c Hid) as [_ H]. destruct (at_phase c); naive_solver.
Qed.

(** Only one call changes, within the same flight or without one. *)
Lemma cache_consistent_call w id c' :
  consistent w -> call_ok w id c' ->
  (forall c, calls w !! id = Some c -> (forall r, at_phase c <> Returned None r) /\
     (in_do (at_phase c) -> in_do (at_phase c') /\ key c' = key c)) ->
  consistent (with_call id c' w).
Proof using ttl_range.
  intros Hc Hok Hold. pose proof Hc as [H1 H2 H3 H4 H5 H6].
  assert (forall id0 c0, call_ok w id0 c0 -> call_ok (with_call id c' w) id0 c0) as Hm.
  { intros id0 c0 H0. eapply call_ok_mono; try done. intros id' c1 r Hid' Hr. cbn.
    destruct (decide (id' = id)) as [->|?]; [|by rewrite lookup_insert_ne]. by destruct (Hold _ Hid') as [Hno _]; destruct (Hno r). }
  split; try done.
  - intros id0 c0. cbn. intros [[<- <-]|[? ?]]%lookup_insert_Some; apply Hm; [done|by apply H1].
  - intros k f Hf. destruct (H2 k f Hf) as (c & Hl & Hk & Hd). cbn.
    destruct (decide (leader f = id)) as [E|?]; [|rewrite lookup_insert_ne by done; by exists c].
    rewrite E in *. rewrite lookup_insert_eq. exists c'. destruct (Hold _ Hl) as [_ Hi].
    destruct (Hi Hd) as [? ->]. done.
Qed.

Lemma cache_consistent_elapse w d : consistent w -> 0 <= d -> consistent (elapse d w).
Proof using ttl_range.
  intros [H1 H2 H3 H4 H5 H6] Hd. split; try done; cbn.
  - intros id c Hid. eapply call_ok_mono; [by apply H1|cbn; try done; lia..].
  - eapply Forall_impl; [done|]. cbn. intros x Hx. lia.
  - intros k t Hk. destruct (H6 k t Hk) as [? ?]. split; [lia|done].
Qed.

Lemma cache_consistent_look w id k : consistent w -> calls w !! id = None -> consistent (look id k w).
Proof using ttl_range.
  intros Hc Hid. apply cache_consistent_call; [done| |by rewrite Hid].
  split; [cbn; lia|]. cbn. destruct (get k w) eqn:Eg; [|done]. by apply get_Some.
Qed.

Lemma cache_consistent_lead w id c :
  consistent w -> calls w !! id = Some c -> at_phase c = Missed -> group w !! key c = None ->
  consistent (with_call id (goto Leading c) (with_group (<[key c := mkFlight id (now w)]> (group w)) w)).
Proof using ttl_range.
  intros Hc Hid Hp Hg. pose proof Hc as [H1 H2 H3 H4 H5 H6].
  split; try done.
  - intros id0 c0. cbn. intros [[<- <-]|[Hne H0]]%lookup_insert_Some.
    + destruct (H1 _ _ Hid) as [? _]. split; [done|]. cbn. exists (mkFlight id (now w)).
      split_and!; cbn; try done; try lia. apply lookup_insert_eq.
    + eapply call_ok_mono; [by apply H1|cbn; try done; try lia..].
      * intros Ha f Hf. rewrite lookup_insert_ne; [done|]. congruence.
      * intros id' c1 r Hid' Hr. rewrite lookup_insert_ne; [done|]. intros ->. congruence.
  - intros k f. cbn. intros [[<- <-]|[Hne Hf]]%lookup_insert_Some; cbn.
    + rewrite lookup_insert_eq. by exists (goto Leading c).
    + destruct (H2 k f Hf) as (c0 & Hl & Hk & Hd). rewrite lookup_insert_ne; [by exists c0|].
      intros E. rewrite <- E, Hid in Hl. simplify_eq.
Qed.

Lemma cache_consistent_recheck w id c :
  consistent w -> calls w !! id = Some c -> at_phase c = Leading -> consistent (recheck id c w).
Proof using ttl_range.
  intros Hc Hid Hp. destruct (i_calls w Hc id c Hid) as [Hst Hok]. rewrite Hp in Hok. destruct Hok as [f Hl].
  unfold recheck. destruct (get (key c) w) as [b|] eqn:Eg.
  - apply cache_consistent_call; [done| |].
    + split; [done|]. cbn. exists f. split; [done|]. eapply fresh_at_mono; [done| |by apply get_Some].
      by destruct Hl as (_ & _ & _ & ?).
    + rewrite Hid. intros c0 [= <-]. rewrite Hp. done.
  - pose proof (get_None w (key c) Hc Eg) as Hs.
    apply cache_consistent_call.
    + destruct Hc as [H1 H2 H3 H4 H5 H6]. split; try done.
      cbn. intros k t [[= -> ->]|Hin]%elem_of_cons; [|by apply H6]. split; [lia|]. intros e He. right. by apply Hs.
    + split; [done|]. cbn. split; [by exists f|done].
    + cbn. rewrite Hid. intros c0 [= <-]. rewrite Hp. done.
Qed.

(** A body is stored: every other one of its key is stale. *)
Lemma cache_consistent_store w id c b :
  consistent w -> calls w !! id = Some c -> at_phase c = Fetching ->
  consistent (with_call id (goto (Done (Ok b)) c) (set_item (key c) b w)).
Proof using ttl_range.
  intros Hc Hid Hp. pose proof Hc as [H1 H2 H3 H4 H5 H6].
  destruct (H1 id c Hid) as [Hst Hok]. rewrite Hp in Hok. destruct Hok as [[f Hl] Hs].
  split; cbn.
  - intros id0 c0 [[<- <-]|[Hne H0]]%lookup_insert_Some.
    + split; [done|]. cbn. exists f. split; [done|]. intros b' [= <-]. exists (mkCacheEntry b (now w)).
      split_and!; [left|done|]. cbn. destruct Hl as (_ & _ & ?). lia.
    + eapply call_ok_mono; [by apply H1|cbn; try done; try lia..].
      * intros x Hx. by right.
      * intros Hf e [[= Hk ->]|He]%elem_of_cons; [|done]. exfalso. apply Hne.
        pose proof (H1 id0 c0 H0) as [_ Hok0]. rewrite Hf in Hok0. destruct Hok0 as [[f0 Hl0] _]. by eapply leads_unique.
      * intros id' c1 r Hid' Hr. rewrite lookup_insert_ne; [done|]. intros ->. congruence.
  - intros k f0 Hf0. destruct (H2 k f0 Hf0) as (c0 & Hc0 & Hk & Hd).
    destruct (decide (leader f0 = id)) as [E|?]; [|rewrite lookup_insert_ne by done; by exists c0].
    rewrite E in *. rewrite lookup_insert_eq. exists (goto (Done (Ok b)) c). simplify_eq. done.
  - intros k. unfold newest. rewrite filter_cons. cbn. case_decide as Hk; cbn.
    + subst. by rewrite lookup_insert_eq.
    + rewrite lookup_insert_ne by done. apply H3.
  - by constructor.
  - constructor; [done|]. rewrite Forall_forall. intros [k e] He Hk. cbn in *. subst. by apply Hs.
  - intros k t Hin. destruct (H6 k t Hin) as [Ht He]. split; [done|].
    intros e [[= -> ->]|Hin']%elem_of_cons; [left; done|by apply He].
Qed.

Lemma cache_consistent_fetched w id c result :
  consistent w -> calls w !! id = Some c -> at_phase c = Fetching -> consistent (fetched id c result w).
Proof using ttl_range.
  intros Hc Hid Hp. unfold fetched. destruct result as [b|e|p]; [by apply cache_consistent_store|..];
    (destruct (i_calls w Hc id c Hid) as [Hst Hok]; rewrite Hp in Hok; destruct Hok as [[f Hl] _];
     apply cache_consistent_call; [done|split; [done|]; cbn; by exists f|rewrite Hid; intros c0 [= <-]; by rewrite Hp]).
Qed.

Lemma receive_key id r c : key (receive id r c) = key c.
Proof using ttl_range. unfold receive. destruct (at_phase c); try done. by case_bool_decide. Qed.

Lemma receive_in_do id r c : in_do (at_phase c) -> receive id r c = c.
Proof using ttl_range. unfold receive. by destruct (at_phase c). Qed.

Lemma cache_consistent_finish w id c result :
  consistent w -> calls w !! id = Some c -> at_phase c = Done result -> consistent (finish id c result w).
Proof using ttl_range.
  intros Hc Hid Hp. pose proof Hc as [H1 H2 H3 H4 H5 H6].
  destruct (H1 id c Hid) as [Hst Hok]. rewrite Hp in Hok. destruct Hok as (f & Hl & Hfr).
  pose proof Hl as (Hg & Hlead & Hbegan).
  assert (forall id' c' r, calls w !! id' = Some c' -> at_phase c' = Returned None r ->
    calls (finish id c result w) !! id' = Some c') as Hret.
  { intros id' c' r H' Hr. cbn. rewrite lookup_insert_ne by (intros ->; congruence). rewrite lookup_fmap, H'. cbn.
    unfold receive. by rewrite Hr. }
  split; try done.
  - intros id0 c0. cbn. intros [[<- <-]|[Hne H0]]%lookup_insert_Some.
    + split; [done|]. cbn. eapply fresh_at_mono; [done| |done]. lia.
    + rewrite lookup_fmap in H0. destruct (calls w !! id0) as [c1|] eqn:E1; [|done]. injection H0 as <-.
      pose proof (H1 id0 c1 E1) as Hok1.
      assert (forall f1, group w !! key c1 = Some f1 -> leader f1 <> id -> group (finish id c result w) !! key c1 = Some f1) as Hgr.
      { intros f1 Hf1 Hn1. cbn. rewrite lookup_delete_ne; [done|]. intros E. rewrite <- E, Hg in Hf1. by simplify_eq. }
      destruct (at_phase c1) as [| | | |f1|] eqn:Ep; unfold receive; rewrite Ep.
      5: { destruct Hok1 as [Hst1 Hok1]. rewrite Ep in Hok1. case_bool_decide as El.
        - destruct (H2 _ _ Hok1) as (c2 & Hc2 & Hk2 & _). rewrite El, Hid in Hc2. injection Hc2 as <-.
          rewrite <- Hk2, Hg in Hok1. injection Hok1 as <-.
          split; [done|]. cbn. split; [by rewrite <- Hk2|]. exists (goto (Returned None result) c).
          rewrite Hlead, lookup_insert_eq. split_and!; try done; cbn; lia.
        - split; [done|]. rewrite Ep. by apply Hgr. }
      all: apply (call_ok_mono w); try done.
      all: rewrite Ep; intros Ha f1 Hf1; apply Hgr; [done|]; cbn in Ha; try done.
      all: destruct (in_do_leads w id0 c1 Hc E1 ltac:(by rewrite Ep)) as (f2 & Hg2 & <- & _); simplify_eq; done.
  - intros k f1. cbn. intros [Hk Hf1]%lookup_delete_Some. destruct (H2 k f1 Hf1) as (c1 & Hc1 & Hk1 & Hd1).
    rewrite lookup_insert_ne by (intros E; rewrite <- E in Hc1; congruence). rewrite lookup_fmap, Hc1. cbn.
    exists (receive id result c1). rewrite receive_key, receive_in_do by done. done.
Qed.

Lemma reachable_cache_consistent w : reachable w -> consistent w.
Proof using ttl_range.
  induction 1 as [t|w w' _ IH Hstep|w w' _ IH Hstep].
  - split; try done; cbn; try (intros * Hl; by rewrite lookup_empty in Hl); try by constructor.
    intros k t' Hin. by apply not_elem_of_nil in Hin.
  - destruct Hstep; [by apply cache_consistent_elapse|by apply cache_consistent_look].
  - destruct Hstep as [id c w H1 H2 H3|id c f w H1 H2 H3|id c w H1 H2|id c r w H1 H2 H3|id c r w H1 H2].
    + by apply cache_consistent_lead.
    + apply cache_consistent_call; [done| |].
      * destruct (i_calls w IH id c H1). by split.
      * rewrite H1. intros c0 [= <-]. by rewrite H2.
    + by apply cache_consistent_recheck.
    + by apply cache_consistent_fetched.
    + by apply cache_consistent_finish.
Qed.

(** ** Calls return

    The steps a call still has to take, summed up. *)
Definition rank (p : phase) : nat :=
  match p with
  | Missed => 4 | Leading => 3 | Fetching => 2 | Done _ => 1 | Following _ => 1 | Returned _ _ => 0
  end.

Definition total_rank (m : gmap nat fetch_call) : nat :=
  sum_list ((fun x => rank (at_phase x.2)) <$> map_to_list m).

Lemma sum_list_perm (l l' : list nat) : l ≡ₚ l' -> sum_list l = sum_list l'.
Proof using Type. induction 1; simpl; lia. Qed.

Lemma total_rank_insert m id c c0 :
  m !! id = Some c0 -> (total_rank (<[id := c]> m) + rank (at_phase c0) = total_rank m + rank (at_phase c))%nat.
Proof using Type.
  intros Hid. unfold total_rank.
  assert (forall c1, sum_list ((fun x => rank (at_phase x.2)) <$> map_to_list (<[id := c1]> m))
    = (rank (at_phase c1) + sum_list ((fun x => rank (at_phase x.2)) <$> map_to_list (delete id m)))%nat) as E.
  { intros c1. rewrite <- insert_delete_eq, (sum_list_perm _ _ (fmap_Permutation _ _ _ (map_to_list_insert _ _ c1 (lookup_delete_eq m id)))).
    done. }
  pose proof (E c0) as E0. rewrite insert_id in E0 by done. rewrite E, E0. lia.
Qed.

Lemma total_rank_receive m id result : (total_rank (receive id result <$> m) <= total_rank m)%nat.
Proof using Type.
  unfold total_rank. rewrite map_to_list_fmap, <- list_fmap_compose.
  generalize (map_to_list m) as l. induction l as [|[i c] l IH]; cbn; [done|].
  assert (rank (at_phase (receive id result c)) <= rank (at_phase c))%nat; [|cbn in *; lia].
  unfold receive. destruct (at_phase c) eqn:E; rewrite ?E; try done. case_bool_decide; cbn; rewrite ?E; cbn; lia.
Qed.

Lemma call_step_rank w w' : consistent w -> call_step w w' -> (total_rank (calls w') < total_rank (calls w))%nat.
Proof using ttl_range.
  intros Hc Hs. destruct Hs as [id c w H1 H2 H3|id c f w H1 H2 H3|id c w H1 H2|id c r w H1 H2 H3|id c r w H1 H2].
  - pose proof (total_rank_insert (calls w) id (goto Leading c) c H1) as E. rewrite H2 in E. cbn in *. lia.
  - pose proof (total_rank_insert (calls w) id (goto (Following f) c) c H1) as E. rewrite H2 in E. cbn in *. lia.
  - unfold recheck. destruct (get (key c) w) as [b|].
    + pose proof (total_rank_insert (calls w) id (goto (Done (Ok b)) c) c H1) as E. rewrite H2 in E. cbn in *. lia.
    + pose proof (total_rank_insert (calls w) id (goto Fetching c) c H1) as E. rewrite H2 in E. cbn in *. lia.
  - pose proof (total_rank_insert (calls w) id (goto (Done r) c) c H1) as E. rewrite H2 in E.
    destruct r; cbn in *; lia.
  - cbn. pose proof (total_rank_receive (calls w) id r).
    assert ((receive id r <$> calls w) !! id = Some c) as Hr.
    { rewrite lookup_fmap, H1. cbn. by rewrite receive_in_do by (by rewrite H2). }
    pose proof (total_rank_insert _ id (goto (Returned None r) c) c Hr) as E. rewrite H2 in E. cbn in *. lia.
Qed.

Definition all_returned (w : world) : Prop :=
  map_Forall (fun _ c => exists via r, at_phase c = Returned via r) (calls w).

Lemma in_do_steps w id c :
  calls w !! id = Some c -> in_do (at_phase c) -> exists w', call_step w w'.
Proof using Type.
  intros Hid Hd. destruct (at_phase c) as [| | |r|f|v r] eqn:E; try done; eexists.
  - by eapply step_recheck.
  - by eapply (step_fetched id c (Err (ErrNew ""))).
  - by eapply step_finish.
Qed.

Lemma not_returned_steps w : consistent w -> ~ all_returned w -> exists w', call_step w w'.
Proof using ttl_range.
  intros Hc Hno.
  assert (exists id c, calls w !! id = Some c /\ rank (at_phase c) <> 0%nat) as (id & c & Hid & Hr).
  { destruct (decide (map_Forall (fun _ c => rank (at_phase c) = 0%nat) (calls w))) as [Hall|Hex].
    - destruct Hno. intros id c Hid. specialize (Hall id c Hid). cbn in *. destruct (at_phase c) as [| | | | |v r]; try done. by exists v, r.
    - apply map_not_Forall in Hex as (id & c & ? & ?); [by exists id, c|]. intros ? ?. apply _. }
  destruct (at_phase c) as [| | |r|f|v r] eqn:E; try (apply (in_do_steps w id c Hid); by rewrite E).
  - destruct (group w !! key c) as [f|] eqn:Eg; eexists; [by eapply step_join|by eapply step_lead].
  - destruct (i_calls w Hc id c Hid) as [_ Hf]. rewrite E in Hf.
    destruct (i_group w Hc _ _ Hf) as (c' & Hc' & _ & Hd). by apply (in_do_steps w (leader f) c').
Qed.
End Cache.

(** ** The properties *)

(** C27: In every state reached by any interleaving of calls of FetchJSON, with a positive TTL: two
    bodies stored for one key are more than the TTL apart; no fetch starts while a body not older
    than the TTL is stored for its key, and at most one call at a time is fetching for a key; a call
    that answers for itself returns a body that was at most the TTL old when the call began, and one
    that waited for another returns the result of that call, whose body was at most the TTL old when
    that call took the flight. *)
Theorem response_cache_correct ttl w :
  0 < ttl < max_int int64 -> reachable ttl w ->
  StronglySorted (spaced ttl) (stores w) /\
  (forall k t e, (k, t) ∈ misses w -> (k, e) ∈ stores w -> t <= fetchedAt e \/ fetchedAt e + ttl < t) /\
  (forall id c id' c', calls w !! id = Some c -> calls w !! id' = Some c' -> in_do (at_phase c) ->
     in_do (at_phase c') -> key c = key c' -> id = id') /\
  (forall id c result, calls w !! id = Some c -> at_phase c = Returned None result ->
     fresh_at ttl w (key c) (started c) result) /\
  (forall id c f result, calls w !! id = Some c -> at_phase c = Returned (Some f) result ->
     fresh_at ttl w (key c) (began f) result /\
     exists c', calls w !! leader f = Some c' /\ key c' = key c /\ started c' <= began f /\
                at_phase c' = Returned None result).
Proof.
  intros Ht Hr. pose proof (reachable_cache_consistent ttl Ht w Hr) as Hc. split_and!.
  - apply Hc.
  - intros k t e Hm He. by apply (i_misses ttl w Hc k t Hm).
  - intros id c id' c' H1 H2 Hd1 Hd2 Hk.
    destruct (in_do_leads ttl Ht w id c Hc H1 Hd1) as [f Hf], (in_do_leads ttl Ht w id' c' Hc H2 Hd2) as [f' Hf'].
    by eapply leads_unique.
  - intros id c result Hid E. destruct (i_calls ttl w Hc id c Hid) as [_ H]. by rewrite E in H.
  - intros id c f result Hid E. destruct (i_calls ttl w Hc id c Hid) as [_ H]. by rewrite E in H.
Qed.

(** No call of FetchJSON is stuck: in every reachable state every step of a call brings the
    calls closer to their return, and as long as some call has not returned, one can step. *)
Theorem cache_calls_return ttl w :
  0 < ttl < max_int int64 -> reachable ttl w ->
  (forall w', call_step ttl w w' -> (total_rank (calls w') < total_rank (calls w))%nat) /\
  (~ all_returned w -> exists w', call_step ttl w w').
Proof.
  intros Ht Hr. pose proof (reachable_cache_consistent ttl Ht w Hr) as Hc. split.
  - intros w'. by apply call_step_rank.
  - by apply not_returned_steps.
Qed.

(** ** An example run

    Two calls of one key: the second waits for the first, whose fetch gives [result]. *)
Definition ex_ttl : Duration := 3 * Second.

Lemma two_calls result : (forall p, result <> Panic p) ->
  exists w, reachable ex_ttl w /\ stores w = match result with Ok b => [("k", mkCacheEntry b 5)] | _ => [] end /\
    calls w !! 0%nat = Some (mkCall "k" 5 (Returned None result)) /\
    calls w !! 1%nat = Some (mkCall "k" 5 (Returned (Some (mkFlight 0 5)) result)).
Proof.
  intros Hp. eexists. split; [|split; [|split]].
  - eapply reach_call; [|eapply (step_finish _ 0 (mkCall "k" 5 (Done result)) result); [|reflexivity]].
    + eapply reach_call; [|eapply (step_fetched _ 0 (mkCall "k" 5 Fetching) result); [|reflexivity|exact Hp]].
      * eapply reach_call; [|eapply (step_join _ 1 (mkCall "k" 5 Missed) (mkFlight 0 5)); [|reflexivity|]].
        -- eapply reach_call; [|eapply (step_recheck _ 0 (mkCall "k" 5 Leading)); [|reflexivity]].
           ++ eapply reach_call; [|eapply (step_lead _ 0 (mkCall "k" 5 Missed)); [|reflexivity|]].
              ** eapply reach_env; [|eapply (step_look _ 1 "k")].
                 { eapply reach_env; [apply (reach_init _ 5)|apply (step_look _ 0 "k"); reflexivity]. }
                 reflexivity.
              ** reflexivity.
              ** reflexivity.
           ++ reflexivity.
        -- reflexivity.
        -- reflexivity.
      * reflexivity.
    + destruct result; reflexivity.
  - destruct result; reflexivity.
  - destruct result; reflexivity.
  - destruct result; reflexivity.
Qed.

Lemma response_cache_correct_witness :
  exists w c1 c2, reachable ex_ttl w /\ calls w !! 0%nat = Some c1 /\ calls w !! 1%nat = Some c2 /\
    fresh_at ex_ttl w (key c1) 5 (Ok "{}") /\ fresh_at ex_ttl w (key c2) 5 (Ok "{}").
Proof.
  destruct (two_calls (Ok "{}") ltac:(done)) as (w & Hr & _ & H0 & H1).
  pose proof (response_cache_correct ex_ttl w ltac:(done) Hr) as (_ & _ & _ & Hown & Hvia).
  exists w. do 2 eexists. split_and!; [exact Hr|exact H0|exact H1| |].
  - exact (Hown _ _ _ H0 eq_refl).
  - exact (proj1 (Hvia _ _ _ _ H1 eq_refl)).
Defined.

Lemma cache_calls_return_witness :
  exists w, reachable ex_ttl w /\ ~ all_returned w /\ exists w', call_step ex_ttl w w'.
Proof.
  set (w := look ex_ttl 0 "k" (mkWorld 5 ∅ ∅ ∅ [] [])).
  assert (reachable ex_ttl w) as Hr by (eapply reach_env; [apply (reach_init _ 5)|by apply step_look]).
  assert (~ all_returned w) as Hn by (intros H; destruct (H 0%nat (mkCall "k" 5 Missed) eq_refl) as (? & ? & ?); done).
  exists w. split; [exact Hr|]. split; [exact Hn|].
  exact (proj2 (cache_calls_return ex_ttl w ltac:(done) Hr) Hn).
Defined.
