(* ===== verification/Durations.v ===== *)
(** * time.ParseDuration

    The parser of duration texts ("3s", "1.5h", "-2h45m") that the program reads from
    the environment. Its errors are only compared with nil: [None]. *)
From Stdlib Require Import Ascii.
From Stdlib.Floats Require Import SpecFloat.
From S2P Require Import Prelude Text Float64 EncodePrice BigFloat.
Local Open Scope Z_scope.

Definition is_digit (a : ascii) : bool := match digit_value a with Some _ => true | None => false end.

(** [leadingInt]: fails beyond 2^63. *)
Fixpoint leadingInt (x : Z) (s : string) : option (Z * string) :=
  match s with
  | String a t =>
      match digit_value a with
      | Some d => if (2 ^ 63 / 10 <? x) || (2 ^ 63 <? 10 * x + d) then None else leadingInt (10 * x + d) t
      | None => Some (x, s)
      end
  | EmptyString => Some (x, s)
  end.

(** [leadingFraction]: digits that no longer fit are read and dropped. *)
Fixpoint leadingFraction (x : Z) (scale : float64) (overflow : bool) (s : string) : Z * float64 * string :=
  match s with
  | String a t =>
      match digit_value a with
      | Some d =>
          if overflow || (max_int int64 / 10 <? x) || (2 ^ 63 <? 10 * x + d) then leadingFraction x scale true t
          else leadingFraction (10 * x + d) (fmul scale (float_of_integer 10)) false t
      | None => (x, scale, s)
      end
  | EmptyString => (x, scale, s)
  end.

(** The unit: everything up to a digit or a point. *)
Fixpoint unit_text (s : string) : string * string :=
  match s with
  | String a t =>
      if is_digit a || Ascii.eqb a "." then (EmptyString, s)
      else let '(u, rest) := unit_text t in (String a u, rest)
  | EmptyString => (EmptyString, s)
  end.

Definition unitMap (u : string) : option Duration :=
  if bool_decide (u = "ns") then Some Nanosecond
  else if bool_decide (u = "us") || bool_decide (u = "µs") || bool_decide (u = "μs") then Some 1000
  else if bool_decide (u = "ms") then Some Millisecond
  else if bool_decide (u = "s") then Some Second
  else if bool_decide (u = "m") then Some Minute
  else if bool_decide (u = "h") then Some Hour
  else None.

(** The conversion of a nonnegative float to uint64. *)
Definition float_trunc (x : float64) : Z :=
  match x with
  | S754_finite false m e => Z.shiftl (Z.pos m) e
  | _ => 0
  end.

(** One number with its unit: its nanoseconds and what follows. *)
Definition duration_term (s : string) : option (Z * string) :=
  '(v, s1) ← leadingInt 0 s;
  let pre := negb (String.length s1 =? String.length s)%nat in
  let '(f, scale, s2, post) :=
    match s1 with
    | String "." t => let '(f, scale, s2) := leadingFraction 0 (float_of_integer 1) false t in
                      (f, scale, s2, negb (String.length s2 =? String.length t)%nat)
    | _ => (0, float_of_integer 1, s1, false)
    end in
  if negb (pre || post) then None else
  let '(u, s3) := unit_text s2 in
  if bool_decide (u = EmptyString) then None else
  unit ← unitMap u;
  if 2 ^ 63 / unit <? v then None else
  let v := v * unit in
  if f =? 0 then Some (v, s3) else
  let v := wrap uint64 (v + float_trunc (fmul (float_of_integer (round53 f)) (fdiv (float_of_integer unit) scale))) in
  if 2 ^ 63 <? v then None else Some (v, s3).

(** Every term takes at least one byte: the length of the text is enough fuel. *)
Fixpoint duration_terms (fuel : nat) (d : Z) (s : string) : option Z :=
  match s, fuel with
  | EmptyString, _ => Some d
  | _, O => None
  | _, S fuel =>
      '(v, rest) ← duration_term s;
      let d := wrap uint64 (d + v) in
      if 2 ^ 63 <? d then None else duration_terms fuel d rest
  end.

Definition ParseDuration (s : string) : option Duration :=
  let '(neg, t) := strip_sign s in
  if bool_decide (t = "0") then Some 0
  else if bool_decide (t = EmptyString) then None
  else
    d ← duration_terms (String.length t) 0 t;
    if neg : bool then Some (- d) else if 2 ^ 63 - 1 <? d then None else Some d.

Lemma leadingInt_length x s v rest : leadingInt x s = Some (v, rest) -> (String.length rest <= String.length s)%nat.
Proof.
  revert x. induction s as [|a s IH]; intros x; cbn; [by intros [= <- <-]|].
  destruct (digit_value a); [|by intros [= <- <-]]. case_match; [done|]. intros ?%IH. lia.
Qed.

Lemma leadingFraction_length x scale o s :
  (String.length (leadingFraction x scale o s).2 <= String.length s)%nat.
Proof.
  revert x scale o. induction s as [|a s IH]; intros x scale o; cbn; [done|].
  destruct (digit_value a); [|done]. case_match; etransitivity; try apply IH; lia.
Qed.

Lemma unit_text_length s u rest :
  unit_text s = (u, rest) -> (String.length rest + String.length u = String.length s)%nat.
Proof.
  revert u rest. induction s as [|a s IH]; intros u rest; cbn; [by intros [= <- <-]|].
  case_match; [by intros [= <- <-]|]. destruct (unit_text s) as [u' r'] eqn:E. intros [= <- <-]. cbn.
  pose proof (IH _ _ eq_refl). lia.
Qed.

(** A term is shorter than the text it is read from. *)
Lemma duration_term_length s v rest : duration_term s = Some (v, rest) -> (String.length rest < String.length s)%nat.
Proof.
  unfold duration_term. destruct (leadingInt 0 s) as [[v1 s1]|] eqn:E1; [|done]. cbn.
  pose proof (leadingInt_length _ _ _ _ E1) as H1.
  set (x := match s1 with String _ _ => _ | EmptyString => _ end).
  assert (String.length x.1.2 <= String.length s1)%nat as H2.
  { unfold x. destruct s1 as [|a t]; [done|]. destruct a as [[] [] [] [] [] [] [] []]; try done.
    pose proof (leadingFraction_length 0 (float_of_integer 1) false t) as Hf.
    destruct (leadingFraction _ _ _ t) as [[f sc] r]. cbn in *. lia. }
  destruct x as [[[f scale] s2] post]. cbn in H2. case_match; [done|].
  destruct (unit_text s2) as [u s3] eqn:E3. pose proof (unit_text_length _ _ _ E3) as H3.
  case_bool_decide as Hu; [done|].
  assert (0 < String.length u)%nat by (destruct u; [done|cbn; lia]).
  destruct (unitMap u) as [unit|]; [|done]. cbn. case_match; [done|]. case_match; [intros [= _ <-]; lia|].
  case_match; [done|]. intros [= _ <-]. lia.
Qed.

(** More fuel than the length changes nothing. *)
Lemma duration_terms_fuel fuel fuel' d s :
  (String.length s <= fuel)%nat -> (String.length s <= fuel')%nat -> duration_terms fuel d s = duration_terms fuel' d s.
Proof.
  revert fuel' d s. induction fuel as [|fuel IH]; intros fuel' d s H1 H2.
  { destruct s; [by destruct fuel'|cbn in H1; lia]. }
  destruct s as [|a t]; [by destruct fuel'|]. destruct fuel' as [|fuel']; [cbn in H2; lia|].
  cbn [duration_terms]. destruct (duration_term (String a t)) as [[v rest]|] eqn:E; [|done]. cbn.
  case_match; [done|]. apply duration_term_length in E. apply IH; lia.
Qed.

Lemma ParseDuration_range s d : ParseDuration s = Some d -> - 2 ^ 63 <= d <= 2 ^ 63 - 1.
Proof.
  assert (forall fuel d0 t r, duration_terms fuel d0 t = Some r -> 0 <= d0 <= 2 ^ 63 -> 0 <= r <= 2 ^ 63) as Hr.
  { induction fuel as [|fuel IH]; intros d0 t r; destruct t as [|a t]; cbn [duration_terms]; try (intros [= <-]; done).
    destruct (duration_term (String a t)) as [[v rest]|] eqn:E; [|done]. cbn. case_match eqn:El; [done|].
    intros H Hd. apply IH in H; [done|].
    pose proof (wrap_in_range uint64 (d0 + v) ltac:(done)) as [Hw _]. unfold min_int in Hw. cbn in Hw. lia. }
  unfold ParseDuration. destruct (strip_sign s) as [neg t]. case_bool_decide; [by intros [= <-]|]. case_bool_decide; [done|].
  destruct (duration_terms _ 0 t) as [r|] eqn:E; [|done]. cbn. apply Hr in E; [|done].
  destruct neg; [intros [= <-]; lia|]. case_match eqn:El; [done|]. intros [= <-]. lia.
Qed.

Example ParseDuration_ex :
  ParseDuration "3s" = Some (3 * Second) /\ ParseDuration "500ms" = Some (500 * Millisecond) /\
  ParseDuration "-1.5h" = Some (- (90 * Minute)) /\ ParseDuration "1h2m.25s" = Some (62 * Minute + 250 * Millisecond) /\
  ParseDuration "0" = Some 0 /\ ParseDuration "3" = None /\ ParseDuration "" = None /\ ParseDuration ".s" = None /\
  ParseDuration "9223372036854775808ns" = None /\ ParseDuration "-9223372036854775808ns" = Some (- 2 ^ 63).
Proof. repeat split; vm_compute; reflexivity. Qed.
