(* ===== verification/RpcReader.v ===== *)
(** * custom_query/rpc/rpc_reader/reader.go: the reader of an RPC endpoint

    The construction of a reader, the request with its retries, and the text that
    stands for the request in the cache of responses. HTTP is third-party here: what
    a request gives, what a context says and the wait of a timer are parameters over
    an arbitrary world. *)
From Stdlib Require Import Ascii.
From S2P Require Import Prelude Text Durations.
Local Open Scope Z_scope.

Definition newline : string := String (Ascii.ascii_of_nat 10) "".

Record Reader := mkReader {
  baseURL : string; method : string; timeout : Duration; maxRetries : Z; retryDelay : Duration;
  Headers : gmap string string; ResponsePath : list string; Query : string;
  Params : option (gmap string string)   (** [None] is the nil map *)
}.

Definition cloneStringMap (m : gmap string string) : option (gmap string string) :=
  if bool_decide (m = ∅) then None else Some m.

(** Reading a parameter, of the nil map too, gives the empty text when there is none. *)
Definition param (r : Reader) (k : string) : string := default "" (default ∅ (Params r) !! k).

Definition NewReader (url method query : string) (headers : gmap string string) (responsePath : list string)
    (timeoutMs : Z) (params : gmap string string) (maxRetries : Z) : go Reader :=
  if bool_decide (url = "") then Err (ErrNew "no RPC endpoint provided") else
  let timeoutMs := if timeoutMs <=? 0 then 1000 else timeoutMs in
  let maxRetries := if maxRetries <=? 0 then 1 else maxRetries in
  Ok (mkReader url method (wrap int64 (timeoutMs * Millisecond)) maxRetries (75 * Millisecond)
        headers responsePath query (cloneStringMap params)).

(** ** The key of a request in the cache *)
Section Key.
Context {RO : RangeOrder}.

Definition sort_Strings (l : list string) : list string := merge_sort String.le l.

Definition header_lines (headers : gmap string string) : list (string * string) :=
  (fun k => (k, default "" (headers !! k))) <$> sort_Strings (range_of headers).*1.

Definition lines_text (l : list (string * string)) : string :=
  foldr (fun x rest => x.1 +:+ "=" +:+ x.2 +:+ newline +:+ rest) "" l.

Definition cacheKey (r : Reader) : string :=
  method r +:+ newline +:+ baseURL r +:+ newline +:+ Query r +:+ newline +:+ lines_text (header_lines (Headers r)).
End Key.

Definition defaultCacheTTL : Duration := 3 * Second.
Definition cacheTTLFromEnv (getenv : string -> string) : Duration :=
  let v := strings_TrimSpace (getenv "CUSTOM_QUERY_CACHE_TTL") in
  if bool_decide (v = "") then defaultCacheTTL else
  match ParseDuration v with
  | Some d => if d <? 0 then defaultCacheTTL else d
  | None => defaultCacheTTL
  end.

(** ** The request *)
Record Request := mkRequest { req_method : string; req_url : string; req_body : option string; req_headers : list (string * string) }.

Section Fetch.
Context {RO : RangeOrder} {W : Type}.
Variable NewRequest : string -> string -> option go_error.  (** method and URL: why no request can be made *)
Variable Do : Request -> Duration -> W -> (go_error + Z * (go_error + string)) * W. (** within a timeout: status and body *)
Variable ctx_Err : W -> option go_error.
Variable ctx_until : W -> option Duration.                   (** the time left until the deadline *)
Variable wait : Duration -> W -> option go_error * W.        (** the timer, or the error of the context *)
Variable net_Timeout : go_error -> bool.                     (** wraps a net.Error with Timeout() *)

Definition StatusOK : Z := 200.

Definition attemptFetch (r : Reader) (w : W) : go string * W :=
  let body := if bool_decide (method r = "POST" /\ Query r <> "") then Some (Query r) else None in
  match NewRequest (method r) (baseURL r) with
  | Some err => (Err (wrapf "failed to create request" err), w)
  | None =>
      match Do (mkRequest (method r) (baseURL r) body (range_of (Headers r))) (timeout r) w with
      | (inl err, w) => (Err (wrapf "request failed" err), w)
      | (inr (status, answer), w) =>
          if negb (status =? StatusOK) then (Err (ErrNew ("received non-OK response code: " +:+ pretty status)), w)
          else match answer with
               | inl err => (Err (wrapf "error reading response body" err), w)
               | inr body => (Ok body, w)
               end
      end
  end.

Definition isTransientRPCError (err : go_error) : bool :=
  let msg := error_text err in
  if errors_Is err DeadlineExceeded then false
  else if net_Timeout err then false
  else if contains "context deadline exceeded" msg || contains "Client.Timeout exceeded" msg || contains "timeout" msg then false
  else contains "connection reset" msg || contains "429" msg || contains "502" msg || contains "503" msg || contains "504" msg.

Definition hasRetryBudget (w : W) : bool :=
  match ctx_until w with
  | None => true
  | Some d => 900 * Millisecond <=? d
  end.

(** The delay before attempt [retry], from 1. *)
Definition retry_delay (r : Reader) (retry : Z) : Duration := wrap int64 (wrap int64 (2 ^ (retry - 1)) * retryDelay r).

Definition before_attempt (r : Reader) (retry : Z) (w : W) : option go_error * W :=
  if 0 <? retry then wait (retry_delay r retry) w else (None, w).

Definition all_failed (err : go_error) : go_error := wrapf "all RPC endpoints failed" err.

(** [more] is the number of attempts after this one: [maxRetries - retry]. *)
Fixpoint fetch_loop (r : Reader) (more : nat) (retry : Z) (w : W) : go string * W :=
  match ctx_Err w with
  | Some err => (Err err, w)
  | None =>
      match before_attempt r retry w with
      | (Some err, w) => (Err err, w)
      | (None, w) =>
          match attemptFetch r w with
          | (Ok body, w) => (Ok body, w)
          | (Panic p, w) => (Panic p, w)
          | (Err err, w) =>
              match more with
              | O => (Err (all_failed err), w)
              | S more =>
                  if negb (isTransientRPCError err) || negb (hasRetryBudget w) then (Err (all_failed err), w)
                  else fetch_loop r more (retry + 1) w
              end
          end
      end
  end.

(** With a negative number of retries the loop makes no attempt. *)
Definition fetchWithRetry (r : Reader) (w : W) : go string * W :=
  if maxRetries r <? 0 then (Err (ErrNew "all RPC endpoints failed: %!w(<nil>)"), w)
  else fetch_loop r (Z.to_nat (maxRetries r)) 0 w.

(** ** What a fetch did

    [retried r n w errs w']: from attempt [n] at [w], attempts that failed with [errs], each
    of them transient and with time left to try again, lead to the start of another at [w']. *)
Inductive retried (r : Reader) : Z -> W -> list go_error -> W -> Prop :=
  | retried_none n w : retried r n w [] w
  | retried_one n w w1 w2 err errs w' :
      ctx_Err w = None -> before_attempt r n w = (None, w1) -> attemptFetch r w1 = (Err err, w2) ->
      isTransientRPCError err = true -> hasRetryBudget w2 = true -> n < maxRetries r ->
      retried r (n + 1) w2 errs w' -> retried r n w (err :: errs) w'.

(** The last attempt and what the fetch makes of it. *)
Inductive concluded (r : Reader) (n : Z) (w : W) : go string -> W -> Prop :=
  | concluded_ctx err : ctx_Err w = Some err -> concluded r n w (Err err) w
  | concluded_wait err w1 : ctx_Err w = None -> before_attempt r n w = (Some err, w1) -> concluded r n w (Err err) w1
  | concluded_body w1 body w2 :
      ctx_Err w = None -> before_attempt r n w = (None, w1) -> attemptFetch r w1 = (Ok body, w2) ->
      concluded r n w (Ok body) w2
  | concluded_failed w1 err w2 :
      ctx_Err w = None -> before_attempt r n w = (None, w1) -> attemptFetch r w1 = (Err err, w2) ->
      n = maxRetries r \/ isTransientRPCError err = false \/ hasRetryBudget w2 = false ->
      concluded r n w (Err (all_failed err)) w2.

Lemma attemptFetch_no_panic r w p w' : attemptFetch r w <> (Panic p, w').
Proof.
  unfold attemptFetch. destruct (NewRequest _ _); [done|]. destruct (Do _ _ w) as [[e|[st [e|b]]] w1]; [done|..];
    by destruct (negb _).
Qed.

Lemma fetch_loop_spec r more n w :
  0 <= n -> n + Z.of_nat more = maxRetries r ->
  exists errs w1, retried r n w errs w1 /\ (length errs <= more)%nat /\
    concluded r (n + Z.of_nat (length errs)) w1 (fetch_loop r more n w).1 (fetch_loop r more n w).2.
Proof.
  revert n w. induction more as [|more IH]; intros n w Hn Hmax; cbn [fetch_loop];
    (destruct (ctx_Err w) as [err|] eqn:Ec;
      [exists [], w; rewrite Z.add_0_r; split_and!; [constructor|cbn; lia|by apply concluded_ctx]|]);
    (destruct (before_attempt r n w) as [[err|] w1] eqn:Eb;
      [exists [], w; rewrite Z.add_0_r; split_and!; [constructor|cbn; lia|by eapply concluded_wait]|]);
    (destruct (attemptFetch r w1) as [[b|err|p] w2] eqn:Ea;
      [exists [], w; rewrite Z.add_0_r; split_and!; [constructor|cbn; lia|by eapply concluded_body]| |by apply attemptFetch_no_panic in Ea]).
  - exists [], w. rewrite Z.add_0_r. split_and!; [constructor|cbn; lia|]. eapply concluded_failed; try done. left. lia.
  - destruct (isTransientRPCError err) eqn:Et, (hasRetryBudget w2) eqn:Eh; cbn [negb orb].
    2-4: exists [], w; rewrite Z.add_0_r; split_and!; [constructor|cbn; lia|eapply concluded_failed; try done; tauto].
    destruct (IH (n + 1) w2 ltac:(lia) ltac:(lia)) as (errs & w3 & Hr & Hl & Hc).
    exists (err :: errs), w3. split_and!; [|cbn; lia|].
    + eapply retried_one; try done. lia.
    + replace (n + Z.of_nat (length (err :: errs))) with (n + 1 + Z.of_nat (length errs)) by (cbn; lia). done.
Qed.
End Fetch.

(** ** Reading a key back *)
Fixpoint lacks (a : ascii) (s : string) : bool :=
  match s with
  | String b t => negb (Ascii.eqb a b) && lacks a t
  | EmptyString => true
  end.

Notation NL := (Ascii.ascii_of_nat 10) (only parsing).

Lemma split_at_char a s1 t1 s2 t2 :
  lacks a s1 = true -> lacks a s2 = true -> s1 +:+ String a t1 = s2 +:+ String a t2 -> s1 = s2 /\ t1 = t2.
Proof.
  revert s2. induction s1 as [|b s1 IH]; intros [|b' s2] H1 H2 E; cbn in *; simplify_eq.
  - done.
  - by rewrite Ascii.eqb_refl in H2.
  - by rewrite Ascii.eqb_refl in H1.
  - apply andb_true_iff in H1 as [_ H1], H2 as [_ H2]. by destruct (IH s2 H1 H2) as [-> ->].
Qed.

Definition plain_header (x : string * string) : Prop :=
  lacks "=" x.1 = true /\ lacks NL x.1 = true /\ lacks NL x.2 = true.

Lemma lines_text_inj l1 l2 :
  Forall plain_header l1 -> Forall plain_header l2 -> lines_text l1 = lines_text l2 -> l1 = l2.
Proof.
  intros H. revert l2. induction H as [|[k v] l1 (Hk & _ & Hv) _ IH]; intros [|[k' v'] l2] H2 E; cbn in *; try done;
    [destruct k'; done|destruct k; done|].
  apply Forall_cons in H2 as [(Hk' & _ & Hv') H2]. cbn in *.
  destruct (split_at_char _ _ _ _ _ Hk Hk' E) as [-> E1]. destruct (split_at_char _ _ _ _ _ Hv Hv' E1) as [-> E2].
  f_equal. by apply IH.
Qed.

Section HeaderLines.
Context {RO : RangeOrder}.

Lemma header_lines_perm headers : header_lines headers ≡ₚ map_to_list headers.
Proof.
  unfold header_lines, sort_Strings. rewrite merge_sort_Permutation, range_of_perm, <- list_fmap_compose.
  assert (forall l, Forall (fun x => headers !! x.1 = Some x.2) l ->
    ((fun k => (k, default "" (headers !! k))) ∘ fst) <$> l = l) as ->; [|done|].
  - induction 1 as [|[k v] l Hk _ IH]; [done|]. cbn in *. by rewrite Hk, IH.
  - apply Forall_forall. by intros [k v] Hin%elem_of_map_to_list.
Qed.

Lemma header_lines_map headers : list_to_map (header_lines headers) = headers.
Proof.
  assert (NoDup (header_lines headers).*1) as Hnd by (rewrite header_lines_perm; apply NoDup_fst_map_to_list).
  rewrite (list_to_map_proper _ _ Hnd (header_lines_perm headers)). apply list_to_map_to_list.
Qed.

Lemma header_lines_plain headers : map_Forall (fun k v => plain_header (k, v)) headers -> Forall plain_header (header_lines headers).
Proof. intros H. rewrite header_lines_perm. apply Forall_forall. intros [k v] Hin%elem_of_map_to_list. by apply H. Qed.
End HeaderLines.

(** The order in which the headers are ranged does not show. *)
Lemma header_lines_order {RO RO' : RangeOrder} headers : @header_lines RO headers = @header_lines RO' headers.
Proof.
  unfold header_lines, sort_Strings. f_equal. apply (StronglySorted_unique String.le).
  1,2: apply StronglySorted_merge_sort; apply _.
  rewrite !merge_sort_Permutation. apply fmap_Permutation. by rewrite !range_of_perm.
Qed.

(** What of a request the key is meant to tell apart. *)
Definition same_request (r r' : Reader) : Prop :=
  method r = method r' /\ baseURL r = baseURL r' /\ Query r = Query r' /\ Headers r = Headers r'.

Definition plain_request (r : Reader) : Prop :=
  lacks NL (method r) = true /\ lacks NL (baseURL r) = true /\ lacks NL (Query r) = true /\
  map_Forall (fun k v => plain_header (k, v)) (Headers r).

(** The key of a request depends on its method, URL, body and headers only, in whatever order the
    headers are ranged; and for requests without newlines in them (and without = in the name of a
    header) two requests have the same key only when all of these agree. *)
Theorem cacheKey_correct (RO RO' : RangeOrder) r r' :
  (same_request r r' -> @cacheKey RO r = @cacheKey RO' r') /\
  (plain_request r -> plain_request r' -> @cacheKey RO r = @cacheKey RO' r' -> same_request r r').
Proof.
  unfold cacheKey. rewrite (header_lines_order (RO := RO) (RO' := RO') (Headers r)). split.
  - by intros (-> & -> & -> & ->).
  - intros (Hm & Hu & Hq & Hh) (Hm' & Hu' & Hq' & Hh') E.
    destruct (split_at_char _ _ _ _ _ Hm Hm' E) as [Em E1].
    destruct (split_at_char _ _ _ _ _ Hu Hu' E1) as [Eu E2].
    destruct (split_at_char _ _ _ _ _ Hq Hq' E2) as [Eq E3]. split_and!; try done.
    apply lines_text_inj in E3; [|by apply header_lines_plain..].
    rewrite <- (header_lines_map (Headers r)), <- (header_lines_map (Headers r')). unfold newline in E3. by rewrite E3.
Qed.

(** Two different requests with one key. *)
Definition ex_reader (query : string) (headers : gmap string string) : Reader :=
  mkReader "https://api" "POST" Second 1 (75 * Millisecond) headers [] query None.

Lemma cacheKey_not_unique {RO : RangeOrder} :
  let r := ex_reader ("q" +:+ newline +:+ "k=v") ∅ in
  let r' := ex_reader "q" {["k" := "v"]} in
  ~ same_request r r' /\ cacheKey r = cacheKey r'.
Proof.
  cbv zeta. split; [by intros (_ & _ & ? & _)|].
  unfold cacheKey. rewrite !(header_lines_order (RO := RO) (RO' := canonical_range)). reflexivity.
Qed.

Lemma cacheKey_correct_witness :
  let r := ex_reader "q" {["b" := "1"; "a" := "2"]} in
  cacheKey r = cacheKey r /\ plain_request r /\ (cacheKey r = cacheKey r -> same_request r r).
Proof.
  cbv zeta. assert (plain_request (ex_reader "q" {["b" := "1"; "a" := "2"]})) as Hp.
  { split_and!; [reflexivity..|]. cbn [ex_reader Headers]. apply map_Forall_insert_2; [done|]. by apply map_Forall_singleton. }
  split; [apply (cacheKey_correct _ _ _ _); by split_and!|]. split; [exact Hp|].
  by apply (cacheKey_correct _ _ _ _).
Defined.

(** ** The retries *)
Section Retries.
Context {RO : RangeOrder} {W : Type}.
Variable NewRequest : string -> string -> option go_error.
Variable Do : Request -> Duration -> W -> (go_error + Z * (go_error + string)) * W.
Variable ctx_Err : W -> option go_error.
Variable ctx_until : W -> option Duration.
Variable wait : Duration -> W -> option go_error * W.
Variable net_Timeout : go_error -> bool.

Lemma attemptFetch_Ok r w b w' :
  attemptFetch NewRequest Do r w = (Ok b, w') ->
  NewRequest (method r) (baseURL r) = None /\
  exists body, Do (mkRequest (method r) (baseURL r) body (range_of (Headers r))) (timeout r) w = (inr (StatusOK, inr b), w').
Proof.
  unfold attemptFetch. destruct (NewRequest _ _) as [e|]; [done|].
  destruct (Do _ _ w) as [[e|[st [e|b']]] w1] eqn:E; [done|by destruct (negb _)|].
  destruct (negb (st =? StatusOK)) eqn:Es; [done|]. intros [= -> ->]. split; [done|].
  assert (st = StatusOK) as -> by lia. by eexists.
Qed.

(** C28: A fetch makes at most one attempt more than its retries: it goes on to another attempt only after
    a transient error, with time left, and when the context is alive, after its delay; it ends with the body of the
    attempt that was answered 200, with the error of its context, or with the error of the last attempt,
    which was the last allowed, not transient, or too late to repeat; and it never panics. *)
Theorem fetchWithRetry_correct r w :
  0 <= maxRetries r ->
  exists errs w1, let out := fetchWithRetry NewRequest Do ctx_Err ctx_until wait net_Timeout r w in
    retried NewRequest Do ctx_Err ctx_until wait net_Timeout r 0 w errs w1 /\ Z.of_nat (length errs) <= maxRetries r /\
    concluded NewRequest Do ctx_Err ctx_until wait net_Timeout r (Z.of_nat (length errs)) w1 out.1 out.2 /\
    (forall b, out.1 = Ok b -> exists body w2,
       Do (mkRequest (method r) (baseURL r) body (range_of (Headers r))) (timeout r) w2 = (inr (StatusOK, inr b), out.2)) /\
    (forall p, out.1 <> Panic p).
Proof.
  intros Hr. destruct (fetch_loop_spec NewRequest Do ctx_Err ctx_until wait net_Timeout r (Z.to_nat (maxRetries r)) 0 w
    ltac:(lia) ltac:(lia)) as (errs & w1 & H1 & H2 & H3).
  unfold fetchWithRetry. assert (maxRetries r <? 0 = false) as -> by lia.
  exists errs, w1. cbv zeta. split_and!; [done|lia|done|..].
  - intros b Hb. rewrite Hb in H3. inversion H3 as [| |w2 b' w3 _ _ Ha|]; subst.
    apply attemptFetch_Ok in Ha as (_ & body & Hd). by exists body, w2.
  - intros p Hp. rewrite Hp in H3. inversion H3.
Qed.
End Retries.

(** A connection that is reset once, then an answer. *)
Lemma fetchWithRetry_correct_witness :
  let r := ex_reader "q" ∅ in
  let do_request (_ : Request) (_ : Duration) (n : nat) :=
    (match n with O => inl (ErrNew "connection reset by peer") | S _ => inr (StatusOK, inr "{}") end, S n) in
  let fetch := fetchWithRetry (fun _ _ => None) do_request (fun _ => None) (fun _ => None) (fun _ n => (None, n))
                 (fun _ => false) in
  0 <= maxRetries r /\ fetch r 0%nat = (Ok "{}", 2%nat) /\ (forall p, (fetch r 0%nat).1 <> Panic p).
Proof.
  cbv zeta. split; [done|]. split; [vm_compute; reflexivity|].
  destruct (fetchWithRetry_correct (fun _ _ => None)
    (fun _ _ n => (match n with O => inl (ErrNew "connection reset by peer") | S _ => inr (StatusOK, inr "{}") end, S n))
    (fun _ => None) (fun _ => None) (fun _ n => (None, n)) (fun _ => false) (ex_reader "q" ∅) 0%nat ltac:(done))
    as (errs & w1 & _ & _ & _ & _ & H).
  exact H.
Defined.

(** The statuses that are tried again, and some that are not. *)
Example transient_statuses :
  let transient s := isTransientRPCError (fun _ => false) (ErrNew ("received non-OK response code: " +:+ s)) in
  Forall (fun s => transient s = true) ["429"; "502"; "503"; "504"] /\ Forall (fun s => transient s = false) ["400"; "401"; "404"; "500"].
Proof. cbv zeta. split; repeat constructor. Qed.
