(* ===== verification/ContractReader.v ===== *)
(** * custom_query/contracts/contract_reader/reader.go: calls of a contract

    A call through the healthy clients of a reader, with retries, and the encoding of
    the call from the text of a signature. The Ethereum client, its ABI codec, the
    hash and the addresses are third-party: parameters. A client is shared with other
    calls only through its mark, which is read once and set with a lock. *)
From Stdlib Require Import Ascii.
From S2P Require Import Prelude Text Hex EncodePrice RpcReader.
Local Open Scope Z_scope.

Notation bytes := (list Z) (only parsing).

Record ethClient := mkEthClient { url : string; healthy : bool }.
Record Reader := mkReader { clients : list ethClient; timeout : Duration; maxRetries : Z; retryDelay : Duration }.

(** The position of a text in another, as [strings.Index]. *)
Fixpoint strings_Index (s pat : string) : option nat :=
  match cut pat s with
  | Some _ => Some O
  | None => match s with EmptyString => None | String _ t => S <$> strings_Index t pat end
  end.

Definition slice (s : string) (i j : nat) : string := String.substring i (j - i) s.

(** ** The arguments of a call *)
Inductive abi_value :=
  | VInt (n : Z)
  | VAddress (a : string)
  | VBool (b : bool)
  | VBytes32 (b : bytes)
  | VBytes (b : bytes)
  | VString (s : string).

Section Arguments.
Variable IsHexAddress : string -> bool.
Variable HexToAddress : string -> string.
Variable Keccak256 : string -> bytes.
Variable NewType : string -> option go_error.      (** why a type is invalid *)
Variable Pack : list string -> list abi_value -> go_error + bytes.

(** [copy] into an array of 32 bytes. *)
Definition to_bytes32 (b : bytes) : bytes := take 32 b ++ replicate (32 - length b) 0.

Definition has_prefix (pre s : string) : bool := match cut pre s with Some _ => true | None => false end.
Definition trim_0x (s : string) : string := default s (cut "0x" s).

Definition parseArgument (arg paramType : string) : go abi_value :=
  if has_prefix "uint" paramType then
    match bigInt_SetString arg with Some n => Ok (VInt n) | None => Err (ErrNew ("invalid uint value: " +:+ arg)) end
  else if has_prefix "int" paramType then
    match bigInt_SetString arg with Some n => Ok (VInt n) | None => Err (ErrNew ("invalid int value: " +:+ arg)) end
  else if bool_decide (paramType = "address") then
    if IsHexAddress arg then Ok (VAddress (HexToAddress arg)) else Err (ErrNew ("invalid address: " +:+ arg))
  else if bool_decide (paramType = "bool") then Ok (VBool (bool_decide (arg = "true") || bool_decide (arg = "1")))
  else if bool_decide (paramType = "bytes32") then
    match hex_DecodeString (trim_0x arg) with
    | Ok b => Ok (VBytes32 (to_bytes32 b))
    | _ => Err (ErrNew ("invalid bytes32 value: " +:+ arg))
    end
  else if bool_decide (paramType = "string") then Ok (VString arg)
  else if has_prefix "bytes" paramType then VBytes <$> hex_DecodeString (trim_0x arg)
  else Err (ErrNew ("unsupported parameter type: " +:+ paramType)).

Definition check_type (t : string) : go unit :=
  match NewType t with
  | Some err => Err (wrapf ("invalid parameter type " +:+ t) err)
  | None => Ok tt
  end.

(** The values of the arguments: an argument without a parameter type is out of range. *)
Fixpoint parse_arguments (paramTypes : list string) (i : nat) (args : list string) : go (list abi_value) :=
  match args with
  | [] => Ok []
  | arg :: args =>
      t ← index paramTypes i;
      v ← (match parseArgument arg t with
           | Err err => Err (wrapf ("failed to parse argument " +:+ pretty i) err)
           | m => m
           end);
      vs ← parse_arguments paramTypes (S i) args;
      Ok (v :: vs)
  end.

Definition encodeFunctionCall (functionSig : string) (args : list string) : go (bytes * bytes) :=
  match strings_Index functionSig "(" with
  | None => Err (ErrNew ("invalid function signature: " +:+ functionSig))
  | Some parenIndex =>
      let funcPart :=
        match strings_Index functionSig " returns" with
        | Some idx => slice functionSig 0 idx
        | None => functionSig
        end in
      let methodID := take 4 (Keccak256 funcPart) in
      if bool_decide (args = []) then Ok (methodID, []) else
      match strings_Index funcPart ")" with
      | None => Ok (methodID, [])
      | Some closeParenIndex =>
          if (closeParenIndex <=? parenIndex + 1)%nat then Ok (methodID, []) else
          let paramTypes := strings_TrimSpace <$> strings_Split (slice funcPart (parenIndex + 1) closeParenIndex) "," in
          _ ← forM_go check_type paramTypes;
          values ← parse_arguments paramTypes 0 args;
          match Pack paramTypes values with
          | inl err => Err (wrapf "failed to encode arguments" err)
          | inr encodedArgs => Ok (methodID, encodedArgs)
          end
      end
  end.


Lemma parseArgument_no_panic arg t p : parseArgument arg t <> Panic p.
Proof.
  unfold parseArgument. repeat (case_match; try done). destruct (hex_DecodeString (trim_0x arg)) as [|e|q] eqn:E; try done.
  by apply hex_DecodeString_no_panic in E.
Qed.

Lemma parse_arguments_panic types i args p :
  parse_arguments types i args = Panic p -> p = IndexOutOfRange /\ (length types < i + length args)%nat.
Proof.
  revert i. induction args as [|arg args IH]; intros i; cbn [parse_arguments]; [done|].
  unfold index at 1. destruct (types !! i) as [t|] eqn:Et; cbn [mbind go_bind].
  - destruct (parseArgument arg t) as [v|e|q] eqn:E; cbn [mbind go_bind]; [|done|by apply parseArgument_no_panic in E].
    destruct (parse_arguments types (S i) args) as [vs|e|q] eqn:E2; cbn [mbind go_bind]; [done|done|].
    intros [= ->]. destruct (IH (S i) E2) as [-> ?]. split; [done|cbn; lia].
  - intros [= <-]. split; [done|]. apply lookup_ge_None in Et. cbn. lia.
Qed.

(** Only an argument beyond the parameter types of the signature can make it panic. *)
Lemma encodeFunctionCall_panic sig args p :
  encodeFunctionCall sig args = Panic p -> p = IndexOutOfRange /\ args <> [].
Proof.
  unfold encodeFunctionCall. destruct (strings_Index sig "(") as [i|]; [|done]. cbv zeta. set (f := match strings_Index sig " returns" with Some _ => _ | None => _ end).
  case_bool_decide as Ha; [done|]. destruct (strings_Index f ")") as [j|]; [|done]. case_match; [done|].
  set (types := strings_TrimSpace <$> _).
  destruct (forM_go check_type types) as [[]|e|q] eqn:E; cbn [mbind go_bind]; [|done|].
  - destruct (parse_arguments types 0 args) as [vs|e|q] eqn:E2; cbn [mbind go_bind]; [by destruct (Pack types vs)|done|].
    intros [= ->]. by destruct (parse_arguments_panic _ _ _ _ E2) as [-> _].
  - intros _. exfalso. destruct (forM_go_not_Ok check_type types _ E ltac:(done)) as (t & _ & Ht). unfold check_type in Ht. by destruct (NewType t).
Qed.
End Arguments.

(** ** A reader and its clients

    [Dial] tells why there is no connection to a URL. *)
Definition NewReader (Dial : string -> option go_error) (urls : list string) (timeoutMs maxRetries : Z) : go Reader :=
  if bool_decide (urls = []) then Err (ErrNew "no RPC endpoints provided") else
  let maxRetries := if maxRetries <=? 0 then 1 else maxRetries in
  let clients := (fun url => mkEthClient url true) <$> filter (fun url => Dial url = None) urls in
  if bool_decide (clients = []) then Err (ErrNew "failed to connect to any RPC endpoint") else
  let timeoutMs := if timeoutMs <=? 0 then 700 else timeoutMs in
  Ok (mkReader clients (wrap int64 (timeoutMs * Millisecond)) maxRetries (75 * Millisecond)).

(** The clients a call tries, by their position: the healthy ones, or all. *)
Definition is_healthy (r : Reader) (i : nat) : bool :=
  match clients r !! i with Some c => healthy c | None => false end.
Definition getHealthyClients (r : Reader) : list nat :=
  match filter (fun i => is_healthy r i = true) (seq 0 (length (clients r))) with
  | [] => seq 0 (length (clients r))
  | l => l
  end.

Definition markClientUnhealthy (i : nat) (r : Reader) : Reader :=
  mkReader (alter (fun c => mkEthClient (url c) false) i (clients r)) (timeout r) (maxRetries r) (retryDelay r).

Lemma length_mark i r : length (clients (markClientUnhealthy i r)) = length (clients r).
Proof. apply length_alter. Qed.

Lemma lookup_mark i j r c :
  clients (markClientUnhealthy i r) !! j = Some c ->
  exists c0, clients r !! j = Some c0 /\ url c = url c0 /\ (healthy c = true <-> healthy c0 = true /\ j <> i).
Proof.
  cbn. destruct (decide (i = j)) as [->|Hne].
  - rewrite list_lookup_alter_eq. destruct (clients r !! j) as [c0|]; [|done]. cbn. intros [= <-]. exists c0. cbn. naive_solver.
  - rewrite list_lookup_alter_ne by done. intros ->. exists c. naive_solver.
Qed.

Lemma getHealthyClients_spec r :
  clients r <> [] ->
  getHealthyClients r <> [] /\ NoDup (getHealthyClients r) /\
  Forall (fun i => i < length (clients r))%nat (getHealthyClients r) /\
  ((forall i, i ∈ getHealthyClients r <-> is_healthy r i = true) \/
   (forall i, is_healthy r i = false) /\ getHealthyClients r = seq 0 (length (clients r))).
Proof.
  intros Hne. unfold getHealthyClients.
  assert (forall i, is_healthy r i = true -> i < length (clients r))%nat as Hlt.
  { unfold is_healthy. intros i. destruct (clients r !! i) eqn:E; [|done]. intros _. by eapply lookup_lt_Some. }
  assert (Forall (fun i => i < length (clients r))%nat (seq 0 (length (clients r)))) as Hseq.
  { apply Forall_forall. intros i Hi%elem_of_seq. lia. }
  destruct (filter _ _) as [|i l] eqn:E.
  - split_and!.
    + destruct (clients r); [done|]. cbn. done.
    + apply NoDup_seq.
    + done.
    + right. split; [|done]. intros i. destruct (is_healthy r i) eqn:Ei; [|done].
      destruct (not_elem_of_nil i). rewrite <- E. apply list_elem_of_filter. split; [done|]. apply elem_of_seq. specialize (Hlt i Ei). lia.
  - rewrite <- E. split_and!.
    + by rewrite E.
    + apply NoDup_filter, NoDup_seq.
    + apply Forall_forall. intros j [_ Hj]%list_elem_of_filter. rewrite Forall_forall in Hseq. by apply Hseq.
    + left. intros j. rewrite list_elem_of_filter, elem_of_seq. specialize (Hlt j). intuition lia.
Qed.
(** ** A call through the clients *)
Section Calls.
Context {W : Type}.
Variable CallContract : string -> string -> bytes -> Duration -> W -> (go_error + bytes) * W. (** client, address, data *)
Variable ctx_Err : W -> option go_error.
Variable wait : Duration -> W -> option go_error * W.

(** What the attempts with one client come to: an answer, the end of the context, or
    the error of the last of them. *)
Inductive tried :=
  | Answered (result : bytes)
  | Cancelled (err : go_error)
  | Failed (lastErr : go_error).

Fixpoint try_client (r : Reader) (client address : string) (data : bytes) (more : nat) (retry : Z) (w : W) : tried * W :=
  match ctx_Err w with
  | Some err => (Cancelled err, w)
  | None =>
      match CallContract client address data (timeout r) w with
      | (inr result, w) => (Answered result, w)
      | (inl err, w) =>
          match more with
          | O => (Failed err, w)
          | S more =>
              match wait (wrap int64 (retryDelay r * (retry + 1))) w with
              | (Some err, w) => (Cancelled err, w)
              | (None, w) => try_client r client address data more (retry + 1) w
              end
          end
      end
  end.

Definition all_failed (err : go_error) : go_error := wrapf "all RPC endpoints failed" err.

(** The loop over the clients, with the error of the last one that failed. *)
Fixpoint try_clients (address : string) (empty : go_error) (data : bytes) (l : list nat) (lastErr : go_error) (r : Reader) (w : W) :
    go bytes * Reader * W :=
  match l with
  | [] => (Err (all_failed lastErr), r, w)
  | i :: l =>
      match clients r !! i with
      | None => (Panic IndexOutOfRange, r, w)
      | Some c =>
          match try_client r (url c) address data (Z.to_nat (maxRetries r)) 0 w with
          | (Cancelled err, w) => (Err err, r, w)
          | (Answered [], w) => (Err empty, r, w)
          | (Answered result, w) => (Ok result, r, w)
          | (Failed err, w) => try_clients address empty data l err (markClientUnhealthy i r) w
          end
      end
  end.

(** [lastErr] before any client was tried. *)
Definition nil_error : go_error := ErrNew "%!w(<nil>)".

Definition read_with (encode : string -> list string -> go (bytes * bytes)) (HexToAddress : string -> string) (r : Reader) (address functionSig : string) (args : list string) (w : W) : go bytes * Reader * W :=
  match encode functionSig args with
  | Err err => (Err (wrapf "failed to encode function call" err), r, w)
  | Panic p => (Panic p, r, w)
  | Ok (methodID, inputData) =>
      let empty := ErrNew ("empty contract response from " +:+ address +:+ " for " +:+ functionSig) in
      try_clients (HexToAddress address) empty (methodID ++ inputData) (getHealthyClients r) nil_error r w
  end.

(** ** What a call does

    [failed_run r l w r' w']: the clients [l], in this order, each failed all its attempts
    and were marked. *)
Inductive failed_run (address : string) (data : bytes) : Reader -> W -> list nat -> Reader -> W -> Prop :=
  | failed_nil r w : failed_run address data r w [] r w
  | failed_cons r w i c err w1 l r' w' :
      clients r !! i = Some c ->
      try_client r (url c) address data (Z.to_nat (maxRetries r)) 0 w = (Failed err, w1) ->
      failed_run address data (markClientUnhealthy i r) w1 l r' w' ->
      failed_run address data r w (i :: l) r' w'.

(** How the call ends after the clients that failed, with [rest] left to try. *)
Inductive ended (address : string) (empty : go_error) (data : bytes) (r : Reader) (w : W) : list nat -> go bytes -> W -> Prop :=
  | ended_all err : ended address empty data r w [] (Err (all_failed err)) w
  | ended_answer i c rest result w' :
      clients r !! i = Some c -> result <> [] ->
      try_client r (url c) address data (Z.to_nat (maxRetries r)) 0 w = (Answered result, w') ->
      ended address empty data r w (i :: rest) (Ok result) w'
  | ended_empty i c rest w' :
      clients r !! i = Some c ->
      try_client r (url c) address data (Z.to_nat (maxRetries r)) 0 w = (Answered [], w') ->
      ended address empty data r w (i :: rest) (Err empty) w'
  | ended_cancelled i c rest err w' :
      clients r !! i = Some c ->
      try_client r (url c) address data (Z.to_nat (maxRetries r)) 0 w = (Cancelled err, w') ->
      ended address empty data r w (i :: rest) (Err err) w'.

Lemma try_clients_spec address empty data l lastErr r w res r' w' :
  Forall (fun i => i < length (clients r))%nat l ->
  try_clients address empty data l lastErr r w = (res, r', w') ->
  exists failed rest w1, l = failed ++ rest /\ failed_run address data r w failed r' w1 /\
    ended address empty data r' w1 rest res w'.
Proof using Type.
  revert lastErr r w. induction l as [|i l IH]; intros lastErr r w Hl H; cbn in H.
  { injection H as <- <- <-. exists [], [], w. split_and!; constructor. }
  apply Forall_cons in Hl as [Hi Hl]. destruct (lookup_lt_is_Some_2 (clients r) i Hi) as [c Hc]. rewrite Hc in H.
  destruct (try_client _ _ _ _ _ _ w) as [[[|b result]|err|err] w1] eqn:Et; cycle 3.
  { destruct (IH err (markClientUnhealthy i r) w1) as (failed & rest & w2 & -> & Hf & He);
      [by rewrite length_mark|done|].
    exists (i :: failed), rest, w2. split_and!; [done|by econstructor|done]. }
  all: injection H as <- <- <-; exists [], (i :: l), w; split_and!; [done|constructor|].
  - by eapply ended_empty.
  - by eapply ended_answer.
  - by eapply ended_cancelled.
Qed.

(** Health after clients failed: those, and nobody else, are no longer healthy. *)
Lemma failed_run_health address data r w l r' w' :
  failed_run address data r w l r' w' ->
  length (clients r') = length (clients r) /\
  forall j c, clients r' !! j = Some c ->
    exists c0, clients r !! j = Some c0 /\ url c = url c0 /\ (healthy c = true <-> healthy c0 = true /\ j ∉ l).
Proof using Type.
  induction 1 as [r w|r w i c err w1 l r' w' Hc Ht _ [IHl IH]].
  - split; [done|]. intros j c Hj. exists c. split_and!; try done. split; [intros ?; split; [done|apply not_elem_of_nil]|by intros [? _]].
  - split; [by rewrite IHl, length_mark|]. intros j c' Hj. destruct (IH j c' Hj) as (c1 & H1 & E1 & Hh1).
    destruct (lookup_mark i j r c1 H1) as (c0 & H0 & E0 & Hh0). exists c0. split_and!; [done|congruence|].
    rewrite Hh1, Hh0, not_elem_of_cons. tauto.
Qed.

End Calls.

(** ** The whole call *)
Section ReadContract.
Variable IsHexAddress : string -> bool.
Variable HexToAddress : string -> string.
Variable Keccak256 : string -> bytes.
Variable NewType : string -> option go_error.
Variable Pack : list string -> list abi_value -> go_error + bytes.
Context {W : Type}.
Variable CallContract : string -> string -> bytes -> Duration -> W -> (go_error + bytes) * W.
Variable ctx_Err : W -> option go_error.
Variable wait : Duration -> W -> option go_error * W.

Notation encode := (encodeFunctionCall IsHexAddress HexToAddress Keccak256 NewType Pack).

Definition ReadContract : Reader -> string -> string -> list string -> W -> go bytes * Reader * W :=
  read_with CallContract ctx_Err wait encode HexToAddress.

(** A call of a contract that can be encoded tries the healthy clients in their order, or every client
    when none is healthy: some clients fail all their attempts and only those lose their health; then
    either nobody is left, and the error wraps that of the last one, or the next client decides the call
    with a nonempty answer, an empty answer (an error, without asking anybody else), or the end of
    the context. It never panics then; a call that cannot be encoded asks no client. *)
Theorem ReadContract_correct r address functionSig args w res r' w' :
  clients r <> [] -> ReadContract r address functionSig args w = (res, r', w') ->
  match encode functionSig args with
  | Err err => res = Err (wrapf "failed to encode function call" err) /\ r' = r /\ w' = w
  | Panic p => res = Panic p /\ r' = r /\ w' = w
  | Ok (methodID, inputData) =>
      let empty := ErrNew ("empty contract response from " +:+ address +:+ " for " +:+ functionSig) in
      exists failed rest w1,
        getHealthyClients r = failed ++ rest /\ failed ++ rest <> [] /\ NoDup (failed ++ rest) /\
        ((forall i, i ∈ failed ++ rest <-> is_healthy r i = true) \/
         (forall i, is_healthy r i = false) /\ failed ++ rest = seq 0 (length (clients r))) /\
        failed_run CallContract ctx_Err wait (HexToAddress address) (methodID ++ inputData) r w failed r' w1 /\
        ended CallContract ctx_Err wait (HexToAddress address) empty (methodID ++ inputData) r' w1 rest res w' /\
        (forall j, is_healthy r' j = true <-> is_healthy r j = true /\ j ∉ failed) /\
        (forall p, res <> Panic p)
  end.
Proof using Type.
  intros Hne. unfold ReadContract, read_with. destruct (encode functionSig args) as [[m d]|e|p].
  2,3: intros [= <- <- <-]; done.
  intros H. destruct (getHealthyClients_spec r Hne) as (H1 & H2 & H3 & H4).
  apply try_clients_spec in H as (failed & rest & w1 & E & Hf & He); [|done].
  exists failed, rest, w1. rewrite E in *. split_and!; try done.
  - intros j. destruct (failed_run_health _ _ _ _ _ _ _ _ _ _ Hf) as [Hl Hh]. unfold is_healthy.
    destruct (clients r' !! j) as [c|] eqn:Ej.
    + destruct (Hh j c Ej) as (c0 & -> & _ & Hc). exact Hc.
    + assert (clients r !! j = None) as -> by (apply lookup_ge_None; apply lookup_ge_None in Ej; lia). naive_solver.
  - intros p Hp. subst res. inversion He.
Qed.
End ReadContract.

(** ** Examples *)
Definition ex_r : Reader := mkReader [mkEthClient "a" true; mkEthClient "b" true] Second 1 (75 * Millisecond).
Notation ex_call := (fun client (_ : string) (_ : bytes) (_ : Duration) (n : nat) =>
  ((if bool_decide (client = "a") then inl (ErrNew "execution reverted") else inr [1]), S n)) (only parsing).
Notation ex_read := (ReadContract (fun _ => true) (fun s => s) (fun _ => [1; 2; 3; 4; 5]) (fun _ => None) (fun _ _ => inr [])
  ex_call (fun _ => None) (fun _ n => (None, n))) (only parsing).

(** The first client reverts twice and is not asked again, although the second answers. *)
Lemma ReadContract_correct_witness :
  exists r', clients ex_r <> [] /\ ex_read ex_r "0x0" "f() returns (uint256)" [] 0%nat = (Ok [1], r', 3%nat) /\
    getHealthyClients r' = [1%nat] /\
    exists failed rest, [0; 1]%nat = failed ++ rest /\ (forall j, is_healthy r' j = true <-> is_healthy ex_r j = true /\ j ∉ failed).
Proof.
  set (r' := mkReader [mkEthClient "a" false; mkEthClient "b" true] Second 1 (75 * Millisecond)).
  assert (ex_read ex_r "0x0" "f() returns (uint256)" [] 0%nat = (Ok [1], r', 3%nat)) as E by (vm_compute; reflexivity).
  exists r'. split; [done|]. split; [exact E|]. split; [vm_compute; reflexivity|].
  destruct (ReadContract_correct (fun _ => true) (fun s => s) (fun _ => [1; 2; 3; 4; 5]) (fun _ => None) (fun _ _ => inr [])
    ex_call (fun _ => None) (fun _ n => (None, n)) ex_r "0x0" "f() returns (uint256)" [] 0%nat (Ok [1]) r' 3%nat ltac:(done) E)
    as (failed & rest & w1 & Hg & _ & _ & _ & _ & _ & Hh & _).
  exists failed, rest. split; [exact Hg|exact Hh].
Defined.

(** An argument without a parameter type. *)
Example too_many_arguments :
  encodeFunctionCall (fun _ => true) (fun s => s) (fun _ => []) (fun _ => None) (fun _ _ => inr []) "f(uint256)" ["1"; "2"]
  = Panic IndexOutOfRange.
Proof. vm_compute. reflexivity. Qed.
