(* ===== verification/ContractHandlers.v ===== *)
(** * custom_query/contracts/contract_handlers: prices from contracts

    The handlers of the registry: an exchange rate read from a contract, with 18
    decimals, and for most of them the price of the underlying asset from the price
    cache. A handler is given the contract reader, the cache, the market parameters and what
    the clock says when it starts, when the answer is there and when it reads the cache. *)
From Stdlib Require Import QArith Qabs Lqa.
From Stdlib.Floats Require Import SpecFloat.
From S2P Require Import Prelude Text MarketConfig ServerCache Float64 BigFloat CustomNumbers ReporterConfig.
Local Open Scope Z_scope.

(** ** Numbers *)

(** [x.Float64()]: the nearest float, ties to even. *)
Definition bf_Float64 (x : bigfloat) : float64 :=
  match x with
  | BInf neg => S754_infinity neg
  | BNum _ m e => if m =? 0 then fzero else float_of_ratio (m <? 0) (Z.abs m) 1 e
  end.

(** [math.Pow10]: two tables of constants. *)
Definition pow10_const (n : Z) : float64 := float_of_ratio false (10 ^ Z.max 0 n) (10 ^ Z.max 0 (- n)) 0.
Definition math_Pow10 (n : Z) : float64 :=
  if (0 <=? n) && (n <=? 308) then fmul (pow10_const (32 * (n / 32))) (pow10_const (n mod 32))
  else if (-323 <=? n) && (n <=? 0) then fdiv (pow10_const (- (32 * ((- n) / 32)))) (pow10_const ((- n) mod 32))
  else if 0 <? n then S754_infinity false else fzero.

(** [math.Pow(10, y)] for an integer [y]: repeated squaring of the fraction of ten,
    with the binary exponent apart. *)
Definition f_one : float64 := float_of_integer 1.
Definition f_half : float64 := S754_finite false (2 ^ 52) (-53).
Fixpoint pow_loop (i : positive) (a1 x1 : float64) (ae xe : Z) : float64 * Z :=
  let next x1 xe := let x := fmul x1 x1 in
                    if SFltb x f_half then (fadd x x, 2 * xe - 1) else (x, 2 * xe) in
  if (xe <? - 2 ^ 12) || (2 ^ 12 <? xe) then (a1, ae + xe) else
  match i with
  | xH => (fmul a1 x1, ae + xe)
  | xO i => let '(x1, xe) := next x1 xe in pow_loop i a1 x1 ae xe
  | xI i => let '(x2, xe2) := next x1 xe in pow_loop i (fmul a1 x1) x2 (ae + xe) xe2
  end.
Definition math_Pow_10 (y : Z) : float64 :=
  match Z.abs y with
  | Zpos i =>
      let '(a1, ae) := pow_loop i f_one (S754_finite false (5 * 2 ^ 50) (-53)) 0 4 in
      if y <? 0 then SFldexp 53 1024 (fdiv f_one a1) (- ae) else SFldexp 53 1024 a1 ae
  | _ => f_one
  end.

(** [big.Int.SetBytes], and the quotient of two integers as floats. *)
Definition SetBytes (b : list Z) : Z := be_value b.
Definition quotient (n d : Z) : bigfloat := bf_Quo_new (bf_SetInt n) (bf_SetInt d).
Definition ten_to (n : Z) : Z := 10 ^ Z.max 0 n.

(** ** The age of data *)

(** [d.Round(m)] of a duration that is not negative. *)
Definition Duration_Round (d m : Duration) : Duration :=
  let r := Z.rem d m in
  if r + r <? m then d - r else if d + m - r <=? max_int int64 then d + m - r else max_int int64.

Definition checkDataAge (now dataTime : Time) (maxDataAge : Duration) : go unit :=
  if maxDataAge <=? 0 then Ok tt else
  let age := time_Sub now dataTime in
  if maxDataAge <? age then
    Err (ErrNew ("data age " +:+ Duration_String (Duration_Round age Second) +:+ " exceeds maximum allowed " +:+ Duration_String maxDataAge))
  else Ok tt.

(** ** The handlers *)
Record env := mkEnv {
  read : string -> string -> list string -> go (list Z);  (** [reader.ReadContract] within the call's context *)
  startTime : Time;                                       (** when the handler starts *)
  answerTime : Time;                                      (** when it checks the age *)
  readTime : Time;                                        (** when it reads the cache *)
  maxDataAge : Duration;
  StaticMarketParamsConfig : gmap MarketId MarketParam;
  priceCache : MarketToExchangePrices
}.

Definition KING_CONTRACT : string := "0x8F08B70456eb22f6109F57b8fafE862ED28E6040".
Definition RETH_CONTRACT : string := "0xae78736Cd615f374D3085123A210448E74Fc6393".
Definition SUSDS_CONTRACT : string := "0xa3931d71877C0E7a3148CB7Eb4463524FEc27fbD".
Definition WSTETH_CONTRACT : string := "0x7f39C581F595B53c5cb19bD0b3f8dA6c935E2Ca0".
Definition YIELDFI_YUSD_CONTRACT : string := "0x19Ebd191f7A24ECE672ba13A302212b5eF7F35cb".
Definition YIELDFI_VYUSD_CONTRACT : string := "0x2e3c5e514eef46727de1fe44618027a9b70d92fc".
Definition SUSDE_CONTRACT : string := "0x9D39A5DE30e57443BfF2A8307A4256c8797A3497".
Definition YIELDFI_YETH_CONTRACT : string := "0x8464f6ecae1ea58ec816c13f964030eab8ec123a".

Definition ETHUSD_ID : MarketId := 1.
Definition USDCUSD_ID : MarketId := 100.
Definition STETHUSD_ID : MarketId := 8.
Definition USDEUSD_ID : MarketId := 9.

Definition one_token : list string := ["1000000000000000000"].

(** The answer of the contract, not too old. [failed] says how an error of the call is
    wrapped, if it is. *)
Definition fresh_answer (e : env) (contract sig : string) (args : list string) (failed : option string) (label : string) : go (list Z) :=
  match read e contract sig args with
  | Err err => Err (match failed with Some msg => wrapf msg err | None => err end)
  | Panic p => Panic p
  | Ok result =>
      match checkDataAge (answerTime e) (startTime e) (maxDataAge e) with
      | Err err => Err (wrapf label err)
      | Panic p => Panic p
      | Ok _ => Ok result
      end
  end.

(** The price of a market from the cache, with the parameters of the market. *)
Definition market_price (e : env) (id : MarketId) (pair : string) : go (MarketParam * Z) :=
  match StaticMarketParamsConfig e !! id with
  | None => Err (ErrNew ("no valid " +:+ pair +:+ " market param found"))
  | Some param =>
      match GetValidMedianPrices (priceCache e) [param] (readTime e) !! id with
      | None => Err (ErrNew ("no valid " +:+ pair +:+ " price found"))
      | Some price => Ok (param, price)
      end
  end.

(** A rate with 18 decimals times a price with the decimals of its market. *)
Definition rate_in_usd (rate price exponent : Z) : float64 :=
  let totalDecimals := wrap int32 (18 + wrap int32 (- exponent)) in
  bf_Float64 (quotient (rate * price) (ten_to totalDecimals)).

Definition rate_handler (contract sig : string) (args : list string) (failed : option string) (label : string)
    (id : MarketId) (pair : string) (e : env) : go float64 :=
  result ← fresh_answer e contract sig args failed label;
  '(param, price) ← market_price e id pair;
  Ok (rate_in_usd (SetBytes result) price (mp_Exponent param)).

Definition RocketPoolETHHandler : env -> go float64 :=
  rate_handler RETH_CONTRACT "getExchangeRate() returns (uint256)" [] None "reth" ETHUSD_ID "ETH-USD".
Definition YieldFiYeth : env -> go float64 :=
  rate_handler YIELDFI_YETH_CONTRACT "exchangeRate() returns (uint256)" [] (Some "failed to call exchangeRate") "yieldfi-yeth"
    ETHUSD_ID "ETH-USD".
Definition YieldFiYusd : env -> go float64 :=
  rate_handler YIELDFI_YUSD_CONTRACT "exchangeRateScaled() returns (uint256)" [] (Some "failed to call exchangeRateScaled")
    "yieldfi-yusd" USDCUSD_ID "USDC-USD".
Definition YieldFiVyusd : env -> go float64 :=
  rate_handler YIELDFI_VYUSD_CONTRACT "exchangeRateScaled() returns (uint256)" [] (Some "failed to call exchangeRateScaled")
    "yieldfi-vyusd" USDCUSD_ID "USDC-USD".
Definition SUSDEUSD : env -> go float64 :=
  rate_handler SUSDE_CONTRACT "convertToAssets(uint256) returns (uint256)" one_token (Some "failed to call convertToAssets")
    "susde" USDEUSD_ID "USDE-USD".

(** The value is in dollars already. *)
Definition dollars (wei : Z) : float64 := bf_Float64 (quotient wei (10 ^ 18)).

Definition SUSDSHandler (e : env) : go float64 :=
  result ← fresh_answer e SUSDS_CONTRACT "convertToAssets(uint256) returns (uint256)" one_token None "susds";
  Ok (dollars (SetBytes result)).

Definition KingHandler (e : env) : go float64 :=
  result ← fresh_answer e KING_CONTRACT "fairValueOf(uint256)" one_token (Some "failed to call fairValueOf") "king";
  if (length result <? 64)%nat then
    Err (ErrNew ("unexpected result length: got " +:+ pretty (length result) +:+ " bytes, expected 64 bytes for two uint256 values"))
  else Ok (dollars (SetBytes (take 32 (drop 32 result)))).

(** Integer arithmetic, then one product of floats. *)
Definition WSTETHHandler (e : env) : go float64 :=
  result ← fresh_answer e WSTETH_CONTRACT "getStETHByWstETH(uint256) returns (uint256)" one_token None "wsteth";
  '(param, price) ← market_price e STETHUSD_ID "stETH-USD";
  let value := SetBytes result * price / 10 ^ 18 in
  Ok (fmul (float_of_integer (round53 (wrap uint64 value))) (math_Pow_10 (mp_Exponent param))).

Definition HandlerRegistry : gmap string (env -> go float64) :=
  list_to_map [("wsteth_handler", WSTETHHandler); ("susds_handler", SUSDSHandler); ("reth_handler", RocketPoolETHHandler);
    ("king_handler", KingHandler); ("yieldfi_yeth_handler", YieldFiYeth); ("yieldfi_yusd_handler", YieldFiYusd);
    ("yieldfi_vyusd_handler", YieldFiVyusd); ("susdeusd_handler", SUSDEUSD)].

Definition GetHandler (name : string) : go (env -> go float64) :=
  match HandlerRegistry !! name with
  | Some handler => Ok handler
  | None => Err (ErrNew ("unknown contract handler: " +:+ name))
  end.

Example pow10_ex :
  math_Pow_10 (-6) = math_Pow10 (-6) /\ inr (math_Pow10 (-6)) = ParseFloat "1e-6" /\ inr (math_Pow10 23) = ParseFloat "1e23" /\
  math_Pow_10 0 = f_one /\ inr (math_Pow_10 3) = ParseFloat "1000" /\ inr (math_Pow_10 (-5)) = ParseFloat "1e-5".
Proof. repeat split; vm_compute; reflexivity. Qed.

(** ** How far the quotient is from the exact one *)
Lemma inject_Z_pow2_bounds n k : 0 < n < 2 ^ k -> 0 <= k -> (1 <= inject_Z n <= pow2 k)%Q.
Proof. intros Hn Hk. rewrite pow2_Z by done. change 1%Q with (inject_Z 1). rewrite <- !Zle_Qle. lia. Qed.

Lemma quotient_close n d :
  0 < n < 2 ^ 400 -> 0 < d < 2 ^ 400 ->
  exists p m e, quotient n d = BNum p m e /\ 0 < m /\ close 1 (bf_value (quotient n d)) (inject_Z n / inject_Z d).
Proof.
  intros Hn Hd. unfold quotient, bf_Quo_new, bf_SetInt. cbn [bf_prec bf_Quo bf_neg].
  rewrite (proj2 (Z.ltb_ge n 0)), (proj2 (Z.ltb_ge d 0)), !Z.abs_eq by lia. cbn [xorb].
  set (P := Z.max _ _). assert (64 <= P) as HP by lia. clearbody P.
  pose proof (inject_Z_pow2_bounds n 400 Hn ltac:(done)) as [Hn1 Hn2].
  pose proof (inject_Z_pow2_bounds d 400 Hd ltac:(done)) as [Hd1 Hd2].
  assert (0 < inject_Z d)%Q as Hd0 by lra. assert (0 < / inject_Z d)%Q as Hi by (by apply Qinv_lt_0_compat).
  destruct (bf_round_range P false n d (0 - 0) (-400) 400) as (m & e' & E & Hm & Herr);
    [lia|lia|lia|unfold MinExp; lia|unfold MaxExp; lia|..].
  - change (pow2 (0 - 0)) with 1%Q. rewrite Qmult_1_r. apply Qle_shift_div_l; [done|].
    apply (Qle_trans _ (pow2 (-400) * pow2 400)); [|by rewrite <- pow2_plus].
    apply Qmult_le_l; [apply pow2_pos|done].
  - change (pow2 (0 - 0)) with 1%Q. rewrite Qmult_1_r. apply Qle_shift_div_r; [done|].
    rewrite <- (Qmult_1_r (inject_Z n)). apply Qmult_le_compat_nonneg; split; try done; lra.
  - exists P, m, e'. split; [exact E|]. split; [done|]. rewrite E. unfold close, bf_value.
    change (pow2 (0 - 0)) with 1%Q in Herr. rewrite Qmult_1_r in Herr.
    eapply Qle_trans; [exact Herr|]. rewrite Qmult_1_l. apply Qmult_le_compat_r; [apply pow2_le_mono; lia|].
    unfold Qdiv. apply Qlt_le_weak, Qmult_lt_0_compat; [lra|done].
Qed.

Lemma rate_quotient_close rate price x :
  0 < rate < 2 ^ 256 -> 0 < price < 2 ^ 64 -> -27 <= x <= 18 ->
  exists q, rate_in_usd rate price x = bf_Float64 q /\
    close 1 (bf_value q) (inject_Z rate * inject_Z price * pow10Q (x - 18)).
Proof.
  intros Hr Hp Hx. exists (quotient (rate * price) (10 ^ (18 - x))). unfold rate_in_usd, ten_to. cbv zeta.
  rewrite (wrap_small int32 (- x)), wrap_small, Z.max_r
    by (try done; try (unfold in_range, min_int, max_int; cbn); lia).
  split; [by replace (18 + - x) with (18 - x) by lia|].
  destruct (quotient_close (rate * price) (10 ^ (18 - x))) as (p & m & e & _ & _ & Hc).
  - assert (rate * price < 2 ^ 256 * 2 ^ 64) by nia. change (2 ^ 256 * 2 ^ 64) with (2 ^ 320) in *.
    assert (2 ^ 320 < 2 ^ 400) by done. nia.
  - split; [apply Z.pow_pos_nonneg; lia|]. apply (Z.le_lt_trans _ (10 ^ 45)); [apply Z.pow_le_mono_r; lia|done].
  - assert ((inject_Z (rate * price) / inject_Z (10 ^ (18 - x)) == inject_Z rate * inject_Z price * pow10Q (x - 18))%Q) as E.
    { replace (x - 18) with (- (18 - x)) by lia. rewrite pow10Q_opp, pow10Q_Z, inject_Z_mult by lia.
      field. apply inject_Z_ne0. apply Z.pow_pos_nonneg; lia. }
    by rewrite E in Hc.
Qed.

(** ** The properties *)
Definition fresh (e : env) : Prop :=
  maxDataAge e <= 0 \/ time_Sub (answerTime e) (startTime e) <= maxDataAge e.

Lemma checkDataAge_Ok now t age : checkDataAge now t age = Ok tt <-> age <= 0 \/ time_Sub now t <= age.
Proof. unfold checkDataAge. cbv zeta. case_match eqn:E1; [split; [lia|done]|]. case_match eqn:E2; (split; [|lia || done]); [done|lia]. Qed.

Lemma checkDataAge_no_panic now t age p : checkDataAge now t age <> Panic p.
Proof. unfold checkDataAge. by repeat case_match. Qed.

Lemma fresh_answer_spec e contract sig args failed label :
  match fresh_answer e contract sig args failed label with
  | Ok b => read e contract sig args = Ok b /\ fresh e
  | Err _ => (exists err, read e contract sig args = Err err) \/ ~ fresh e
  | Panic p => read e contract sig args = Panic p
  end.
Proof.
  unfold fresh_answer. destruct (read e contract sig args) as [b|err|p]; [|by left; exists err|done].
  pose proof (checkDataAge_Ok (answerTime e) (startTime e) (maxDataAge e)) as Ha.
  destruct (checkDataAge _ _ _) as [[]|err|p] eqn:E.
  - split; [done|]. by apply Ha.
  - right. intros Hf. apply Ha in Hf. congruence.
  - by apply checkDataAge_no_panic in E.
Qed.

Lemma market_price_spec e id pair :
  match market_price e id pair with
  | Ok (param, price) =>
      StaticMarketParamsConfig e !! id = Some param /\ GetValidMedianPrices (priceCache e) [param] (readTime e) !! id = Some price
  | Err _ =>
      forall param, StaticMarketParamsConfig e !! id = Some param ->
        GetValidMedianPrices (priceCache e) [param] (readTime e) !! id = None
  | Panic _ => False
  end.
Proof.
  unfold market_price. destruct (StaticMarketParamsConfig e !! id) as [param|]; [|done].
  destruct (GetValidMedianPrices _ _ _ !! id) as [price|] eqn:E; [by split|]. by intros ? [= ->].
Qed.

(** A handler that multiplies the rate of a contract with a cached price gives a value exactly when the contract
    answered in time and the cache has a valid median for its market; the value is then the float64 nearest
    to a quotient that differs from rate * price / 10^(18 - exponent) by at most 2^-64 of it, for rates of
    256 bits. It panics only if the reader does. *)
Theorem rate_handler_correct e contract sig args failed label id pair :
  match rate_handler contract sig args failed label id pair e with
  | Ok v =>
      exists b param price,
        read e contract sig args = Ok b /\ fresh e /\ StaticMarketParamsConfig e !! id = Some param /\
        GetValidMedianPrices (priceCache e) [param] (readTime e) !! id = Some price /\
        (0 < SetBytes b < 2 ^ 256 -> 0 < price < 2 ^ 64 -> -27 <= mp_Exponent param <= 18 ->
         exists q, v = bf_Float64 q /\
           close 1 (bf_value q) (inject_Z (SetBytes b) * inject_Z price * pow10Q (mp_Exponent param - 18)))
  | Err _ =>
      (exists err, read e contract sig args = Err err) \/ ~ fresh e \/
      forall param, StaticMarketParamsConfig e !! id = Some param ->
        GetValidMedianPrices (priceCache e) [param] (readTime e) !! id = None
  | Panic p => read e contract sig args = Panic p
  end.
Proof.
  unfold rate_handler. pose proof (fresh_answer_spec e contract sig args failed label) as H1.
  destruct (fresh_answer _ _ _ _ _ _) as [b|err|p]; cbn [mbind go_bind]; [|tauto|done].
  pose proof (market_price_spec e id pair) as H2. destruct (market_price e id pair) as [[param price]|err|p]; cbn [mbind go_bind]; [|tauto|done].
  destruct H1 as [Hr Hf], H2 as [Hp Hm]. exists b, param, price. split_and!; try done.
  intros ? ? ?. by apply rate_quotient_close.
Qed.

Lemma market_price_no_panic {A} e id pair (k : MarketParam * Z -> go A) p :
  (forall x q, k x <> Panic q) -> (market_price e id pair ≫= k) <> Panic p.
Proof.
  intros Hk. pose proof (market_price_spec e id pair) as Hm.
  destruct (market_price e id pair) as [x|err|q]; cbn [mbind go_bind]; [apply Hk|done|done].
Qed.

Definition answers_fresh (e : env) (m : go float64) : Prop :=
  exists contract sig args, match m with
  | Ok _ => exists b, read e contract sig args = Ok b /\ fresh e
  | Err _ => True
  | Panic p => read e contract sig args = Panic p
  end.

Lemma answer_then e contract sig args failed label (k : list Z -> go float64) :
  (forall b p, k b <> Panic p) -> answers_fresh e (fresh_answer e contract sig args failed label ≫= k).
Proof.
  intros Hk. exists contract, sig, args. pose proof (fresh_answer_spec e contract sig args failed label) as H1.
  destruct (fresh_answer _ _ _ _ _ _) as [b|err|p]; cbn [mbind go_bind]; try done.
  destruct (k b) eqn:E; [by exists b|done|by apply Hk in E].
Qed.

(** Every handler of the registry answers only with what its contract answered in time. *)
Lemma handlers_fresh name handler e : HandlerRegistry !! name = Some handler -> answers_fresh e (handler e).
Proof.
  unfold HandlerRegistry. intros H%elem_of_list_to_map_2.
  repeat (apply elem_of_cons in H as [[= -> ->]|H]); [..|by apply elem_of_nil in H].
  all: apply answer_then; intros b p; try done; try (apply market_price_no_panic; by intros [] ?); by case_match.
Qed.

Example rate_in_usd_ex :
  rate_in_usd (11 * 10 ^ 17) (2 * 10 ^ 9) (-6) = float_of_integer 2200 /\ dollars (10 ^ 18) = f_one.
Proof. split; vm_compute; reflexivity. Qed.
