(* ===== verification/RpcHandlers.v ===== *)
(** * custom_query/rpc/rpc_handler: prices from JSON endpoints

    data_age.go and the handlers of the registry: the generic one, pools of Osmosis, pools of
    a Uniswap subgraph and the pools of Curve. A handler is given the answer of its
    reader (or why there is none), the cache, the market parameters and what the clock says.
    Decoding of JSON into a typed structure, [time.Parse] and the further requests of
    the Curve handler are arguments. *)
From Stdlib Require Import Ascii.
From Stdlib.Floats Require Import SpecFloat.
From S2P Require Import Prelude Text MarketConfig ServerCache Messages Float64 EncodePrice BigFloat CustomNumbers ReporterConfig Json.
From S2P Require Import RpcReader ContractHandlers.
Local Open Scope Z_scope.

Record env := mkEnv {
  reader : Reader;
  response : go string;         (** [reader.FetchJSON] within the context of the call *)
  startTime : Time;             (** when the handler starts *)
  answerTime : Time;            (** when it checks the age *)
  readTime : Time;              (** when it reads the cache *)
  maxDataAge : Duration;
  StaticMarketParamsConfig : gmap MarketId MarketParam;
  priceCache : MarketToExchangePrices;
  Unmarshal : string -> go_error + json;
  time_Parse : string -> string -> go_error + Time   (** layout and text *)
}.

Definition f_is_zero (x : float64) : bool := match x with S754_zero _ => true | _ => false end.
(** [1 / x], for a value that is not zero. *)
Definition inverse (x : float64) : float64 := fdiv f_one x.

(** ** The time of the data *)

(** The conversion of a float to int64: out of its range the result is that of the
    processor (amd64), the smallest integer. *)
Definition float_to_int64 (x : float64) : Z :=
  match x with
  | S754_zero _ => 0
  | S754_finite s m e =>
      let t := Z.shiftl (Z.pos m) e in
      let t := if s : bool then - t else t in
      if bool_decide (in_range int64 t) then t else min_int int64
  | _ => min_int int64
  end.

Definition ParseInt (s : string) : option Z := Atoi s.

Definition time_Unix (secs : Z) : Time := secs * Second.

Definition parseUnixTimestamp (v : json) (divisor : Z) : go Time :=
  match v with
  | JNum x => Ok (time_Unix (Z.quot (float_to_int64 x) divisor))
  | JStr x =>
      match ParseInt (strings_TrimSpace x) with
      | Some n => Ok (time_Unix (Z.quot n divisor))
      | None => Err (wrapf ("parse unix timestamp string " +:+ quoted x) (ErrNew ("strconv.ParseInt: parsing " +:+ quoted x)))
      end
  | v => Err (ErrNew ("unexpected timestamp type " +:+ type_text v))
  end.

Definition anyToString (v : json) : go string :=
  match v with
  | JStr s => Ok (strings_TrimSpace s)
  | v => Err (ErrNew ("expected string timestamp, got " +:+ type_text v))
  end.

Definition RFC3339 : string := "2006-01-02T15:04:05Z07:00".
Definition RFC3339Nano : string := "2006-01-02T15:04:05.999999999Z07:00".

Section Times.
Variable time_Parse : string -> string -> go_error + Time.

Definition parse_RFC3339 (s : string) : go_error + Time :=
  match time_Parse RFC3339Nano s with
  | inl _ => time_Parse RFC3339 s
  | t => t
  end.

Definition parseRFC3339 (v : json) : go Time :=
  s ← anyToString v;
  match parse_RFC3339 s with
  | inl err => Err (wrapf ("parse RFC3339 timestamp " +:+ quoted s) err)
  | inr t => Ok t
  end.

Fixpoint walk_object (parts : list string) (cur : json) : go json :=
  match parts with
  | [] => Ok cur
  | p :: parts =>
      match cur with
      | JObj fields =>
          match field p fields with
          | Some v => walk_object parts v
          | None => Err (ErrNew ("key " +:+ quoted p +:+ " not found"))
          end
      | v => Err (ErrNew ("expected object at " +:+ quoted p +:+ ", got " +:+ type_text v))
      end
  end.

Definition parseTimestampParam (data : json) (dotPath format : string) : go Time :=
  if bool_decide (dotPath = "") then Err (ErrNew "timestamp_path is empty") else
  cur ← walk_object (strings_Split dotPath ".") data;
  if bool_decide (strings_ToLower format = "unix") then parseUnixTimestamp cur 1
  else if bool_decide (strings_ToLower format = "unix_ms") then parseUnixTimestamp cur 1000
  else if bool_decide (format = "") then parseRFC3339 cur
  else
    s ← anyToString cur;
    match time_Parse format s with
    | inl err => Err (wrapf ("parse timestamp " +:+ quoted s +:+ " with layout " +:+ quoted format) err)
    | inr t => Ok t
    end.
End Times.

(** Decoding into a map: null gives a nil map, anything but an object fails. *)
Definition as_object (v : json) : option json :=
  match v with
  | JObj fields => Some (JObj fields)
  | JNull => Some (JObj [])
  | _ => None
  end.

(** ** What the handlers share *)

(** The answer of the reader. *)
Definition fetch (e : env) (label : string) : go string :=
  match response e with Err err => Err (wrapf label err) | r => r end.

Definition check_age (e : env) (dataTime : Time) (label : string) : go unit :=
  match checkDataAge (answerTime e) dataTime (maxDataAge e) with Err err => Err (wrapf label err) | r => r end.

(** The price in dollars of a market in the cache. *)
Definition usd_via (e : env) (usdViaID : Z) (no_param no_price : string) : go float64 :=
  match StaticMarketParamsConfig e !! usdViaID with
  | None => Err (ErrNew no_param)
  | Some param =>
      match GetValidMedianPrices (priceCache e) [param] (readTime e) !! usdViaID with
      | None => Err (ErrNew no_price)
      | Some raw => Ok (fmul (float_of_integer (round53 raw)) (math_Pow10 (mp_Exponent param)))
      end
  end.

Definition extract (e : env) (body : string) : go json :=
  match ExtractValueFromJSON (Unmarshal e) body (ResponsePath (reader e)) with
  | Err err => Err (wrapf "failed to extract value from JSON" err)
  | r => r
  end.

Definition invert_if (invert : bool) (err : string) (value : float64) : go float64 :=
  if invert then if f_is_zero value then Err (ErrNew err) else Ok (inverse value) else Ok value.

(** ** generic_handler.go *)
Definition generic_data_time (e : env) (body : string) : Time :=
  let tsPath := param (reader e) "timestamp_path" in
  if bool_decide (tsPath = "") then startTime e else
  match Unmarshal e body with
  | inl _ => startTime e
  | inr v =>
      match as_object v with
      | None => startTime e
      | Some raw =>
          match parseTimestampParam (time_Parse e) raw tsPath (param (reader e) "timestamp_format") with
          | Ok t => t
          | _ => startTime e
          end
      end
  end.

Definition generic_number (v : json) : go float64 :=
  match v with
  | JNum x => Ok x
  | JStr s => match Sscanf_f s with inl err => Err (wrapf "error parsing string as float" err) | inr x => Ok x end
  | v => Err (ErrNew ("unsupported value type: " +:+ type_text v))
  end.

Definition GenericHandler (invert : bool) (usdViaID : Z) (e : env) : go float64 :=
  body ← fetch e "failed to fetch JSON";
  _ ← check_age e (generic_data_time e body) "generic handler";
  current ← extract e body;
  value ← generic_number current;
  value ← invert_if invert "cannot invert zero value" value;
  if usdViaID =? 0 then Ok value else
  usdPrice ← usd_via e usdViaID ("market param not found for ID " +:+ pretty usdViaID)
    ("no valid USD via price found in cache for market ID " +:+ pretty usdViaID);
  Ok (fmul value usdPrice).

(** ** osmosis_pool_price_handler.go *)
Definition STATOM_ADDRESS : string := "ibc/C140AFD542AE77BD7DCC83F13FDD8C5E5BB8C4929785E6EC2F4C636F98F17901".
Definition ATOM_ADDRESS : string := "ibc/27394FB092D2ECCD56123C74F36E4C1F926001CEADA9CA97EA622B25F41E5EB2".

Definition osmosisPairParams (r : Reader) : go (string * string) :=
  let targetToken := strings_TrimSpace (param r "target_token") in
  let quoteToken := strings_TrimSpace (param r "quote_token") in
  if bool_decide (targetToken = "") && bool_decide (quoteToken = "") then Ok (STATOM_ADDRESS, ATOM_ADDRESS)
  else if bool_decide (targetToken = "") || bool_decide (quoteToken = "") then
    Err (ErrNew "osmosis pool requires both target_token and quote_token params")
  else if strings_EqualFold targetToken quoteToken then
    Err (ErrNew "osmosis pool target_token and quote_token must differ")
  else Ok (targetToken, quoteToken).

Notation object := (list (string * json)) (only parsing).

(** [m[key].(string)]: the empty answer for a missing key too. *)
Definition string_field (data : object) (key : string) : option string :=
  match field key data with Some (JStr s) => Some s | _ => None end.

Definition sqrt_price (v : json) : go float64 :=
  match v with
  | JNum x => Ok x
  | JStr s => match ParseFloat s with inl err => Err (wrapf "failed to parse sqrt price as float" err) | inr x => Ok x end
  | v => Err (ErrNew ("unexpected type for sqrt price: " +:+ type_text v))
  end.

Definition osmosisConcentratedLiquidityPrice (data : object) (targetToken quoteToken : string) : go float64 :=
  match field "current_sqrt_price" data, string_field data "token0", string_field data "token1" with
  | None, _, _ => Err (ErrNew "current_sqrt_price not found in JSON")
  | _, None, _ => Err (ErrNew "token0 not found in JSON")
  | _, _, None => Err (ErrNew "token1 not found in JSON")
  | Some currentSqrtPrice, Some token0, Some token1 =>
      sqrtPrice ← sqrt_price currentSqrtPrice;
      let price := fmul sqrtPrice sqrtPrice in
      if strings_EqualFold token0 targetToken && strings_EqualFold token1 quoteToken then Ok price
      else if strings_EqualFold token0 quoteToken && strings_EqualFold token1 targetToken then
        if f_is_zero price then Err (ErrNew "cannot invert zero osmosis concentrated liquidity price") else Ok (inverse price)
      else Err (ErrNew ("osmosis pool tokens token0=" +:+ token0 +:+ " token1=" +:+ token1 +:+ " do not match target=" +:+ targetToken
                        +:+ " quote=" +:+ quoteToken))
  end.

Record osmosisWeightedAsset := mkAsset { amount : float64; weight : float64 }.

(** The value of a missing key is nil. *)
Definition field_or_nil (key : string) (data : object) : json := default JNull (field key data).

Definition osmosisDecimalString (value : json) : go float64 :=
  match value with
  | JNum v => Ok v
  | JStr v =>
      match bf_SetString (strings_TrimSpace v) with
      | None => Err (ErrNew ("failed to parse decimal " +:+ quoted v))
      | Some f => Ok (bf_Float64 f)
      end
  | v => Err (ErrNew ("unexpected decimal type " +:+ type_text v))
  end.

Definition wrap_err {A} (label : string) (m : go A) : go A :=
  match m with Err err => Err (wrapf label err) | m => m end.

Fixpoint osmosisWeightedPoolAsset (assets : list json) (denom : string) : go (option osmosisWeightedAsset) :=
  match assets with
  | [] => Ok None
  | JObj asset :: assets =>
      match field "token" asset with
      | Some (JObj token) =>
          match string_field token "denom" with
          | None => Err (ErrNew "pool asset token missing denom")
          | Some tokenDenom =>
              if negb (strings_EqualFold tokenDenom denom) then osmosisWeightedPoolAsset assets denom else
              amount ← wrap_err "pool asset amount" (osmosisDecimalString (field_or_nil "amount" token));
              weight ← wrap_err "pool asset weight" (osmosisDecimalString (field_or_nil "weight" asset));
              Ok (Some (mkAsset amount weight))
          end
      | _ => Err (ErrNew "pool asset missing token object")
      end
  | v :: _ => Err (ErrNew ("expected pool asset object, got " +:+ type_text v))
  end.

Definition osmosisOptionalDecimals (r : Reader) (key : string) : go Z :=
  let v := strings_TrimSpace (param r key) in
  if bool_decide (v = "") then Ok 0 else
  match Atoi v with
  | None => Err (wrapf (key +:+ " must be an integer") (ErrNew ("strconv.Atoi: parsing " +:+ quoted v)))
  | Some decimals => Ok decimals
  end.

Definition f_not_positive (x : float64) : bool := SFleb x fzero.

(** The formula of a weighted pool. *)
Definition weighted_price (target quote : osmosisWeightedAsset) (targetDecimals quoteDecimals : Z) : go float64 :=
  let targetAmount := fdiv (amount target) (math_Pow10 targetDecimals) in
  let quoteAmount := fdiv (amount quote) (math_Pow10 quoteDecimals) in
  if f_not_positive targetAmount || f_not_positive quoteAmount || f_not_positive (weight target) || f_not_positive (weight quote) then
    Err (ErrNew "osmosis weighted pool has non-positive amount or weight")
  else Ok (fdiv (fdiv quoteAmount (weight quote)) (fdiv targetAmount (weight target))).

Definition osmosisWeightedPoolPrice (data : object) (targetToken quoteToken : string) (r : Reader) : go float64 :=
  match field "pool_assets" data with
  | Some (JArr assets) =>
      target ← osmosisWeightedPoolAsset assets targetToken;
      quote ← osmosisWeightedPoolAsset assets quoteToken;
      match target, quote with
      | Some target, Some quote =>
          targetDecimals ← osmosisOptionalDecimals r "target_decimals";
          quoteDecimals ← osmosisOptionalDecimals r "quote_decimals";
          weighted_price target quote targetDecimals quoteDecimals
      | _, _ => Err (ErrNew ("osmosis weighted pool does not contain target=" +:+ targetToken +:+ " and quote=" +:+ quoteToken))
      end
  | _ => Err (ErrNew "pool_assets not found in JSON")
  end.

Definition osmosisPriceInQuote (data : object) (targetToken quoteToken : string) (r : Reader) : go float64 :=
  match field "current_sqrt_price" data, field "pool_assets" data with
  | Some _, _ => osmosisConcentratedLiquidityPrice data targetToken quoteToken
  | _, Some _ => osmosisWeightedPoolPrice data targetToken quoteToken r
  | _, _ => Err (ErrNew "unsupported osmosis pool type")
  end.

(** The last update of the pool, when the answer has one that can be read. *)
Definition osmosis_age (e : env) (data : object) : go unit :=
  match string_field data "last_liquidity_update" with
  | Some tsStr =>
      if bool_decide (tsStr = "") then Ok tt else
      match parse_RFC3339 (time_Parse e) tsStr with
      | inl _ => Ok tt
      | inr dataTime => check_age e dataTime "osmosis pool"
      end
  | None => Ok tt
  end.

Definition OsmosisPoolPriceHandler (invert : bool) (usdViaID : Z) (e : env) : go float64 :=
  body ← fetch e "failed to fetch JSON";
  value ← extract e body;
  match value with
  | JNull => Err (ErrNew ("no value found at response path [" +:+ strings_Join (ResponsePath (reader e)) " " +:+ "]"))
  | JObj data =>
      _ ← osmosis_age e data;
      '(targetToken, quoteToken) ← osmosisPairParams (reader e);
      currentPrice ← osmosisPriceInQuote data targetToken quoteToken (reader e);
      currentPrice ← invert_if invert "cannot invert zero price" currentPrice;
      usdPrice ← usd_via e usdViaID ("market param not found for ID " +:+ pretty usdViaID) "no valid USD via price found in cache";
      Ok (fmul usdPrice currentPrice)
  | value => Err (ErrNew ("expected a dictionary for value, got " +:+ type_text value))
  end.

(** ** subgraph_uniswap_pool_pair.go

    The decoded answer: the message of the first error, the pool and the time of the block. *)
Record subgraphPool := mkPool { Token0 : option string; Token1 : option string; Token0Price : string; Token1Price : string }.
Record subgraphTop := mkTop { gql_errors : list string; data_pool : option subgraphPool; block_timestamp : option Z }.

Definition parseSubgraphPrice (s : string) : go float64 :=
  let s := strings_TrimSpace s in
  if bool_decide (s = "") then Err (ErrNew "empty price string") else
  match Sscanf_f s with
  | inl err => Err (wrapf ("parse price " +:+ quoted s) err)
  | inr v => Ok v
  end.

Definition token_id (s : string) : string := strings_ToLower (strings_TrimSpace s).
Definition sub (msg : string) : string := "subgraph uniswap pool pair: " +:+ msg.

(** Which of the two prices says how much of the quote one target is worth. *)
Definition price_in_quote (p : subgraphPool) (t0 t1 target quote : string) : go float64 :=
  if bool_decide (t0 = target) && bool_decide (t1 = quote) then wrap_err "token1Price" (parseSubgraphPrice (Token1Price p))
  else if bool_decide (t0 = quote) && bool_decide (t1 = target) then wrap_err "token0Price" (parseSubgraphPrice (Token0Price p))
  else Err (ErrNew (sub ("pool tokens token0=" +:+ t0 +:+ " token1=" +:+ t1 +:+ " do not match target=" +:+ target +:+ " quote=" +:+ quote))).

Definition subgraph_age (e : env) (timestamp : option Z) : go unit :=
  match timestamp with
  | Some t => if 0 <? t then check_age e (time_Unix t) "subgraph uniswap pool pair" else Ok tt
  | None => Ok tt
  end.

Section Subgraph.
Variable decode : string -> go_error + subgraphTop.

Definition subgraph_pool (e : env) (body : string) : go (subgraphPool * option Z) :=
  match decode body with
  | inl err => Err (wrapf (sub "json") err)
  | inr top =>
      match gql_errors top, data_pool top with
      | msg :: _, _ => Err (ErrNew (sub ("graphql: " +:+ msg)))
      | [], None => Err (ErrNew (sub "empty data.pool (wrong pool id or subgraph)"))
      | [], Some p => Ok (p, block_timestamp top)
      end
  end.

Definition SubgraphUniswapPoolPairHandler (invert : bool) (usdViaID : Z) (e : env) : go float64 :=
  if usdViaID =? 0 then Err (ErrNew (sub "usd_via_id is required")) else
  if bool_decide (Params (reader e) = None) then Err (ErrNew (sub "reader params are required (target_token, quote_token)")) else
  let target := token_id (param (reader e) "target_token") in
  let quote := token_id (param (reader e) "quote_token") in
  if bool_decide (target = "") || bool_decide (quote = "") then Err (ErrNew (sub "target_token and quote_token params are required")) else
  if bool_decide (target = quote) then Err (ErrNew (sub "target_token and quote_token must differ")) else
  body ← fetch e (sub "fetch");
  '(p, timestamp) ← subgraph_pool e body;
  _ ← subgraph_age e timestamp;
  match Token0 p, Token1 p with
  | Some id0, Some id1 =>
      priceInQuote ← price_in_quote p (token_id id0) (token_id id1) target quote;
      if negb (is_positive_finite priceInQuote) then Err (ErrNew (sub "non-positive price")) else
      priceInQuote ← invert_if invert (sub "cannot invert zero price") priceInQuote;
      usdPrice ← usd_via e usdViaID ("market param not found for usd_via id " +:+ pretty usdViaID)
        ("no valid USD via price in cache for market id " +:+ pretty usdViaID);
      Ok (fmul priceInQuote usdPrice)
  | _, _ => Err (ErrNew (sub "missing token0/token1"))
  end.
End Subgraph.

(** ** curve_factory_price.go *)
Record curveCoin := mkCoin { coin_Address : string; USDPrice : float64 }.
Record curvePool := mkCurvePool { pool_Address : string; Coins : list curveCoin }.
(** A decoded answer of getPools: success, and the pools when there is data; of the v1
    price: its data. *)
Record curvePoolsEnvelope := mkEnvelope { Success : bool; PoolData : option (list curvePool) }.
Record curveV1USD := mkV1 { v1_Data : option (string * float64) }.

(** [medianFloat64] of at least one sample. *)
Definition medianFloat64 (samples : list float64) : go float64 := median_value (sort_Float64s samples).

Definition parseExcludedPoolSet (s : string) : gset string :=
  list_to_set (filter (fun p => p <> "") (token_id <$> strings_Split s ",")).

(** The first usable price of the target in a pool. *)
Definition usable (target : string) (c : curveCoin) : Prop := token_id (coin_Address c) = target /\ is_positive_finite (USDPrice c) = true.
#[export] Instance usable_dec target c : Decision (usable target c).
Proof. unfold usable. apply _. Defined.

Definition pool_price (target : string) (pool : curvePool) : option float64 := USDPrice <$> head (filter (usable target) (Coins pool)).

Definition pool_prices (target : string) (excludePools : gset string) (pools : list curvePool) : list float64 :=
  omap (pool_price target) (filter (fun pool => token_id (pool_Address pool) ∉ excludePools) pools).

Definition curve (msg : string) : string := "curve factory: " +:+ msg.

Section Curve.
Variable decode_pools : string -> go_error + curvePoolsEnvelope.
Variable decode_v1 : string -> go_error + curveV1USD.
Variable http_get : string -> go string.        (** [curveFactoryHTTPGet], within the context of the call *)

Definition collectCurveUSDPricesFromGetPoolsJSON (body target : string) (excludePools : gset string) : go (list float64) :=
  match decode_pools body with
  | inl err => Err err
  | inr env =>
      match Success env, PoolData env with
      | true, Some pools => Ok (pool_prices target excludePools pools)
      | _, _ => Err (ErrNew "success=false or missing data")
      end
  end.

Definition curveFactoryV1URL (r : Reader) (target : string) : string :=
  let u := strings_TrimSpace (param r "v1_usd_price_url") in
  if bool_decide (u = "") then "https://prices.curve.finance/v1/usd_price/ethereum/" +:+ target else u.

Definition curveFactoryPriceFromV1USD (r : Reader) (target : string) : go float64 :=
  body ← wrap_err (curve "no getPools samples and v1 usd_price fetch failed") (http_get (curveFactoryV1URL r target));
  match decode_v1 body with
  | inl err => Err (wrapf (curve "v1 json") err)
  | inr v1 =>
      match v1_Data v1 with
      | None => Err (ErrNew (curve "v1 missing data"))
      | Some (address, price) =>
          if negb (bool_decide (token_id address = target)) then Err (ErrNew (curve "v1 address mismatch"))
          else if f_not_positive price || match price with S754_nan => true | _ => false end then
            Err (ErrNew (curve "v1 invalid usd_price"))
          else Ok price
      end
  end.

(** The pools of the second list; what goes wrong there only loses them. *)
Definition merged_samples (mergeURL target : string) (exclude : gset string) : go (list float64) :=
  if bool_decide (mergeURL = "") then Ok [] else
  match http_get mergeURL with
  | Ok extra =>
      match collectCurveUSDPricesFromGetPoolsJSON extra target exclude with
      | Ok more => Ok more
      | _ => Ok []
      end
  | Err _ => Ok []
  | Panic p => Panic p
  end.

Definition CurveFactoryPriceHandler (invert : bool) (usdViaID : Z) (e : env) : go float64 :=
  if bool_decide (Params (reader e) = None) then Err (ErrNew (curve "reader params are required (target_token)")) else
  let target := token_id (param (reader e) "target_token") in
  if bool_decide (target = "") then Err (ErrNew (curve "target_token param is required")) else
  let exclude := parseExcludedPoolSet (param (reader e) "exclude_pools") in
  let mergeURL := strings_TrimSpace (param (reader e) "merge_get_pools_url") in
  body ← fetch e (curve "primary fetch");
  _ ← check_age e (startTime e) "curve factory";
  samples ← wrap_err (curve "primary json") (collectCurveUSDPricesFromGetPoolsJSON body target exclude);
  more ← merged_samples mergeURL target exclude;
  match samples ++ more with
  | [] => curveFactoryPriceFromV1USD (reader e) target
  | samples => medianFloat64 samples
  end.
End Curve.

(** ** registry.go *)
Definition HandlerRegistry (decode : string -> go_error + subgraphTop) (decode_pools : string -> go_error + curvePoolsEnvelope)
    (decode_v1 : string -> go_error + curveV1USD) (http_get : string -> go string) : gmap string (bool -> Z -> env -> go float64) :=
  let curveFactoryPriceHandler := CurveFactoryPriceHandler decode_pools decode_v1 http_get in
  list_to_map [("generic", GenericHandler); ("osmosis_pool_price_handler", OsmosisPoolPriceHandler);
    ("curve_factory_price", curveFactoryPriceHandler); ("curve_susde_factory_price", curveFactoryPriceHandler);
    ("subgraph_uniswap_pool_pair_usd", SubgraphUniswapPoolPairHandler decode)].

(** ** Panics

    [panics P m]: [m] panics only when [P] holds. *)
Definition panics {A} (P : Prop) (m : go A) : Prop := forall p, m = Panic p -> P.

Create HintDb panics discriminated.

Lemma panics_ok {A} P (a : A) : panics P (Ok a). Proof. by intros p. Qed.
Lemma panics_err {A} P err : panics P (@Err A err). Proof. by intros p. Qed.
Lemma panics_bind {A B} P (m : go A) (k : A -> go B) : panics P m -> (forall a, panics P (k a)) -> panics P (m ≫= k).
Proof. intros Hm Hk p. destruct m as [a|err|q] eqn:E; cbn [mbind go_bind]; [apply Hk|done|]. intros _. by apply (Hm q). Qed.
Lemma panics_wrap {A} P label (m : go A) : panics P m -> panics P (wrap_err label m).
Proof. intros Hm p. destruct m; cbn; try done. intros _. by eapply Hm. Qed.
#[export] Hint Resolve panics_ok panics_err panics_bind panics_wrap : panics.

(** Follows the branches of a definition. *)
Ltac no_panic := repeat first
  [ done | apply panics_ok | apply panics_err | apply panics_wrap | (apply panics_bind; [|intros]) | solve [auto with panics] | case_match ].

Section Panics.
Variable P : Prop.

Lemma walk_panics i path v : panics P (walk i path v).
Proof using Type. intros p Hp. pose proof (walk_value_at i path v) as H. by rewrite Hp in H. Qed.

Lemma extract_panics e body : panics P (extract e body).
Proof using Type.
  unfold extract, ExtractValueFromJSON. intros p. destruct (Unmarshal e body) as [err|v]; [done|].
  destruct (walk _ _ v) eqn:E; try done. intros _. by eapply walk_panics.
Qed.

Lemma check_age_panics e t label : panics P (check_age e t label).
Proof using Type. unfold check_age. intros p. destruct (checkDataAge _ _ _) eqn:E; try done. by apply checkDataAge_no_panic in E. Qed.

Lemma usd_via_panics e id a b : panics P (usd_via e id a b).
Proof using Type. unfold usd_via. no_panic. Qed.

Lemma invert_if_panics b err x : panics P (invert_if b err x).
Proof using Type. unfold invert_if. no_panic. Qed.

Lemma fetch_panics e label : ((exists p, response e = Panic p) -> P) -> panics P (fetch e label).
Proof using Type. unfold fetch. intros H p. destruct (response e) eqn:E; try done. intros _. apply H. by eexists. Qed.
Hint Resolve extract_panics check_age_panics usd_via_panics invert_if_panics fetch_panics : panics.

Lemma generic_panics e invert id : ((exists p, response e = Panic p) -> P) -> panics P (GenericHandler invert id e).
Proof using Type. intros H. unfold GenericHandler, generic_number. no_panic. Qed.

Lemma asset_panics assets denom : panics P (osmosisWeightedPoolAsset assets denom).
Proof using Type. induction assets as [|v assets IH]; cbn [osmosisWeightedPoolAsset]; unfold osmosisDecimalString; no_panic. Qed.
Hint Resolve asset_panics : panics.

Lemma osmosis_panics e invert id : ((exists p, response e = Panic p) -> P) -> panics P (OsmosisPoolPriceHandler invert id e).
Proof using Type.
  intros H. unfold OsmosisPoolPriceHandler, osmosis_age, osmosisPairParams, osmosisPriceInQuote, osmosisConcentratedLiquidityPrice,
    osmosisWeightedPoolPrice, osmosisOptionalDecimals, weighted_price, sqrt_price. no_panic.
Qed.

Lemma subgraph_panics decode e invert id :
  ((exists p, response e = Panic p) -> P) -> panics P (SubgraphUniswapPoolPairHandler decode invert id e).
Proof using Type.
  intros H. unfold SubgraphUniswapPoolPairHandler, subgraph_pool, subgraph_age, price_in_quote, parseSubgraphPrice. no_panic.
Qed.
End Panics.

(** ** The samples of Curve *)
Lemma pool_prices_positive target exclude pools : Forall positive_finite (pool_prices target exclude pools).
Proof.
  apply Forall_forall. intros x (pool & _ & Hx)%list_elem_of_omap. unfold pool_price in Hx.
  destruct (filter (usable target) (Coins pool)) as [|c l] eqn:E; [done|]. injection Hx as <-.
  assert (c ∈ filter (usable target) (Coins pool)) as Hc by (rewrite E; left).
  by apply list_elem_of_filter in Hc as [[_ ?] _].
Qed.

Lemma pool_prices_perm target exclude pools pools' :
  pools ≡ₚ pools' -> pool_prices target exclude pools ≡ₚ pool_prices target exclude pools'.
Proof. intros E. unfold pool_prices. apply omap_Permutation. by rewrite E. Qed.

Lemma medianFloat64_perm l l' : Forall positive_finite l -> l ≡ₚ l' -> medianFloat64 l = medianFloat64 l'.
Proof. intros Hl E. unfold medianFloat64. by rewrite (sort_Float64s_unique l l'). Qed.

Lemma median_value_nonempty l : l <> [] -> exists v, median_value l = Ok v.
Proof.
  intros Hl. assert (0 < length l)%nat by (destruct l; [done|cbn; lia]).
  assert (Nat.div (length l) 2 < length l)%nat as Hlt by (apply Nat.div_lt; lia).
  destruct (index_total l _ Hlt) as (x & _ & Hx). unfold median_value. cbv zeta. rewrite Hx. case_decide as Hm; [by exists x|].
  assert (0 < Nat.div (length l) 2)%nat.
  { apply Nat.div_str_pos. assert (length l <> 1)%nat by (intros E; by rewrite E in Hm). lia. }
  destruct (index_total l (Nat.div (length l) 2 - 1)) as (y & _ & Hy); [lia|]. rewrite Hy. by eexists.
Qed.

Lemma medianFloat64_total l : l <> [] -> exists v, medianFloat64 l = Ok v.
Proof.
  intros Hl. apply median_value_nonempty. intros E. apply Hl. apply Permutation_nil. rewrite <- E. by rewrite sort_Float64s_perm.
Qed.

Section CurveFacts.
Variable decode_pools : string -> go_error + curvePoolsEnvelope.
Variable decode_v1 : string -> go_error + curveV1USD.
Variable http_get : string -> go string.

Lemma merged_samples_positive url target exclude more :
  merged_samples decode_pools http_get url target exclude = Ok more -> Forall positive_finite more.
Proof using Type.
  unfold merged_samples, collectCurveUSDPricesFromGetPoolsJSON. repeat case_match; intros [= <-]; try done; simplify_eq; try constructor.
  apply pool_prices_positive.
Qed.

Lemma v1_price_positive r target v :
  curveFactoryPriceFromV1USD decode_v1 http_get r target = Ok v -> f_not_positive v = false /\ v <> S754_nan.
Proof using Type.
  unfold curveFactoryPriceFromV1USD. destruct (http_get _) as [body|err|p]; cbn [wrap_err mbind go_bind]; try done.
  destruct (decode_v1 body) as [err|[[[a price]|]]]; cbn [v1_Data]; try done. case_match; [done|].
  destruct (f_not_positive price) eqn:E; [done|]. cbn [orb]. case_match eqn:E2; [done|]. intros [= <-]. split; [done|]. by intros ->.
Qed.

Definition curve_samples (e : env) (pools : list curvePool) (more : list float64) : list float64 :=
  pool_prices (token_id (param (reader e) "target_token")) (parseExcludedPoolSet (param (reader e) "exclude_pools")) pools ++ more.

(** With its parameters, an answer in time and a list of pools, the Curve handler takes from every pool that is not
    excluded, and from those of the second list, the first positive finite price of its target token; it gives
    the median of these samples, which does not depend on the order of the pools, and asks for
    the v1 price, positive too, only when there is no sample. *)
Theorem curve_correct e invert usdViaID body pools more :
  Params (reader e) <> None -> token_id (param (reader e) "target_token") <> "" ->
  response e = Ok body -> checkDataAge (answerTime e) (startTime e) (maxDataAge e) = Ok tt ->
  decode_pools body = inr (mkEnvelope true (Some pools)) ->
  merged_samples decode_pools http_get (strings_TrimSpace (param (reader e) "merge_get_pools_url"))
    (token_id (param (reader e) "target_token")) (parseExcludedPoolSet (param (reader e) "exclude_pools")) = Ok more ->
  let samples := curve_samples e pools more in
  let result := CurveFactoryPriceHandler decode_pools decode_v1 http_get invert usdViaID e in
  Forall positive_finite samples /\
  (samples <> [] -> (exists v, result = Ok v) /\
     forall pools' more', pools' ≡ₚ pools -> more' ≡ₚ more -> result = medianFloat64 (curve_samples e pools' more')) /\
  (samples = [] -> result = curveFactoryPriceFromV1USD decode_v1 http_get (reader e) (token_id (param (reader e) "target_token")) /\
     forall v, result = Ok v -> f_not_positive v = false /\ v <> S754_nan).
Proof using Type.
  intros Hp Ht Hr Ha Hd Hm samples result.
  assert (Forall positive_finite samples) as Hpos.
  { apply Forall_app. split; [apply pool_prices_positive|by eapply merged_samples_positive]. }
  assert (result = match samples with
    | [] => curveFactoryPriceFromV1USD decode_v1 http_get (reader e) (token_id (param (reader e) "target_token"))
    | _ :: _ => medianFloat64 samples end) as E.
  { unfold result, CurveFactoryPriceHandler, fetch, check_age, collectCurveUSDPricesFromGetPoolsJSON.
    rewrite bool_decide_false, bool_decide_false, Hr, Ha by done. cbn [mbind go_bind]. rewrite Hd. cbn [wrap_err Success PoolData mbind go_bind].
    rewrite Hm. cbn [mbind go_bind]. unfold samples, curve_samples. by destruct (_ ++ more). }
  assert (forall pools' more', pools' ≡ₚ pools -> more' ≡ₚ more -> samples ≡ₚ curve_samples e pools' more') as Hperm.
  { intros pools' more' E1 E2. unfold samples, curve_samples. by rewrite E2, (pool_prices_perm _ _ _ _ E1). }
  split; [exact Hpos|]. rewrite E. clearbody samples result. split.
  - intros Hne. destruct samples as [|x l]; [done|]. split; [by apply medianFloat64_total|].
    intros pools' more' E1 E2. apply medianFloat64_perm; [done|by apply Hperm].
  - intros ->. split; [done|]. intros v. apply v1_price_positive.
Qed.
End CurveFacts.

(** ** The generic handler *)
Lemma fetch_Ok e label b : fetch e label = Ok b <-> response e = Ok b.
Proof. unfold fetch. by destruct (response e). Qed.

Lemma check_age_Ok e t label u :
  check_age e t label = Ok u <-> maxDataAge e <= 0 \/ time_Sub (answerTime e) t <= maxDataAge e.
Proof.
  destruct u. rewrite <- checkDataAge_Ok. unfold check_age. by destruct (checkDataAge _ _ _) as [[]| |].
Qed.

Lemma extract_Ok e body v :
  extract e body = Ok v <-> exists doc, Unmarshal e body = inr doc /\ value_at doc (ResponsePath (reader e)) = Some v.
Proof.
  unfold extract, ExtractValueFromJSON. destruct (Unmarshal e body) as [err|doc]; [split; [done|by intros (? & ? & _)]|].
  pose proof (walk_value_at 0 (ResponsePath (reader e)) doc) as H.
  destruct (walk 0 _ doc) as [w|err|p]; [|split; [done|intros (d & [= <-] & E); by rewrite H in E]|done].
  split; [intros [= <-]; by exists doc|]. intros (d & [= <-] & E). rewrite H in E. by injection E as ->.
Qed.

Lemma invert_if_Ok b err x y :
  invert_if b err x = Ok y <-> (b = true -> f_is_zero x = false) /\ y = (if b then inverse x else x).
Proof. unfold invert_if. destruct b; [|naive_solver]. destruct (f_is_zero x); naive_solver. Qed.

Lemma usd_via_Ok e id a b x :
  usd_via e id a b = Ok x <->
  exists param price, StaticMarketParamsConfig e !! id = Some param /\
    GetValidMedianPrices (priceCache e) [param] (readTime e) !! id = Some price /\
    x = fmul (float_of_integer (round53 price)) (math_Pow10 (mp_Exponent param)).
Proof.
  unfold usd_via. destruct (StaticMarketParamsConfig e !! id) as [param|]; [|naive_solver].
  destruct (GetValidMedianPrices _ _ _ !! id) as [price|] eqn:E; [|naive_solver].
  split; [intros [= <-]; by exists param, price|]. intros (? & ? & [= <-] & E' & ->). rewrite E in E'. by injection E' as ->.
Qed.

(** The generic handler gives a value exactly when there is an answer, its data (timed by the configured field, or by the
    start of the fetch when that cannot be read) is not too old, and the value at the configured path is a number, or
    a text that starts with one, and not zero if it is to be inverted; the value is that number, inverted if
    asked, times the price of the configured market, for which the cache must have a valid median. *)
Theorem generic_correct invert usdViaID e v :
  GenericHandler invert usdViaID e = Ok v <->
  exists body doc leaf x,
    response e = Ok body /\ Unmarshal e body = inr doc /\ value_at doc (ResponsePath (reader e)) = Some leaf /\
    (maxDataAge e <= 0 \/ time_Sub (answerTime e) (generic_data_time e body) <= maxDataAge e) /\
    generic_number leaf = Ok x /\ (invert = true -> f_is_zero x = false) /\
    let y := if invert then inverse x else x in
    (usdViaID = 0 /\ v = y \/
     usdViaID <> 0 /\ exists param price, StaticMarketParamsConfig e !! usdViaID = Some param /\
       GetValidMedianPrices (priceCache e) [param] (readTime e) !! usdViaID = Some price /\
       v = fmul y (fmul (float_of_integer (round53 price)) (math_Pow10 (mp_Exponent param)))).
Proof.
  unfold GenericHandler. rewrite go_bind_Ok. split.
  - intros (body & Hb%fetch_Ok & H). apply go_bind_Ok in H as (u & Ha%check_age_Ok & H).
    apply go_bind_Ok in H as (leaf & (doc & Hd & Hv)%extract_Ok & H).
    apply go_bind_Ok in H as (x & Hx & H). apply go_bind_Ok in H as (y & [Hi ->]%invert_if_Ok & H).
    exists body, doc, leaf, x. split_and!; try done. cbv zeta. destruct (usdViaID =? 0) eqn:E.
    + left. injection H as <-. split; [lia|done].
    + right. split; [lia|]. apply go_bind_Ok in H as (p & (param & price & ? & ? & ->)%usd_via_Ok & [= <-]). by exists param, price.
  - intros (body & doc & leaf & x & Hb & Hd & Hv & Ha & Hx & Hi & H). exists body. split; [by apply fetch_Ok|].
    apply go_bind_Ok. exists tt. split; [by apply check_age_Ok|]. apply go_bind_Ok. exists leaf. split; [apply extract_Ok; by exists doc|].
    apply go_bind_Ok. exists x. split; [done|]. apply go_bind_Ok. exists (if invert then inverse x else x). split; [by apply invert_if_Ok|].
    destruct H as [[-> ->]|(Hne & param & price & Hp & Hm & ->)]; [done|]. rewrite (proj2 (Z.eqb_neq usdViaID 0)) by done.
    apply go_bind_Ok. eexists. split; [apply usd_via_Ok; by exists param, price|done].
Qed.

(** ** The pair of a subgraph *)

(** The price is read the way the tokens of the pool stand: the price of token1 when the
    target is token0, and the other way round. *)
Lemma subgraph_orientation decode invert usdViaID e v :
  SubgraphUniswapPoolPairHandler decode invert usdViaID e = Ok v ->
  let target := token_id (param (reader e) "target_token") in
  let quote := token_id (param (reader e) "quote_token") in
  exists p id0 id1 x usd, Token0 p = Some id0 /\ Token1 p = Some id1 /\ target <> quote /\ positive_finite x /\
    (token_id id0 = target /\ token_id id1 = quote /\ parseSubgraphPrice (Token1Price p) = Ok x \/
     token_id id0 = quote /\ token_id id1 = target /\ parseSubgraphPrice (Token0Price p) = Ok x) /\
    v = fmul (if invert then inverse x else x) usd.
Proof.
  unfold SubgraphUniswapPoolPairHandler. cbv zeta. destruct (usdViaID =? 0); [done|]. destruct (bool_decide (Params _ = None)); [done|].
  destruct (_ || _); [done|]. case_bool_decide as Hne; [done|]. intros (body & _ & H')%go_bind_Ok. apply go_bind_Ok in H' as ([p ts] & _ & H').
  apply go_bind_Ok in H' as (u & _ & H'). destruct (Token0 p) as [id0|] eqn:E0; [|done]. destruct (Token1 p) as [id1|] eqn:E1; [|done].
  apply go_bind_Ok in H' as (x & Hx & H'). destruct (negb (is_positive_finite x)) eqn:Ep; [done|]. apply negb_false_iff in Ep.
  apply go_bind_Ok in H' as (y & [_ ->]%invert_if_Ok & H'). apply go_bind_Ok in H' as (usd & _ & [= <-]).
  exists p, id0, id1, x, usd. split_and!; try done. unfold price_in_quote, wrap_err in Hx.
  destruct (bool_decide (token_id id0 = _) && bool_decide (token_id id1 = _)) eqn:Ea.
  - apply andb_true_iff in Ea as [Ea%bool_decide_eq_true Eb%bool_decide_eq_true]. left. split_and!; [done|done|]. by case_match.
  - destruct (bool_decide (token_id id0 = _) && bool_decide (token_id id1 = _)) eqn:Eb in Hx; [|done].
    apply andb_true_iff in Eb as [Eb%bool_decide_eq_true Ec%bool_decide_eq_true]. right. split_and!; [done|done|]. by case_match.
Qed.

(** No handler of the registry panics by itself. *)
Lemma curve_panics decode_pools decode_v1 http_get (P : Prop) invert id e :
  ((exists p, response e = Panic p) -> P) -> (forall url p, http_get url = Panic p -> P) ->
  panics P (CurveFactoryPriceHandler decode_pools decode_v1 http_get invert id e).
Proof.
  intros Hr Hg. unfold CurveFactoryPriceHandler.
  case_match; [apply panics_err|]. case_match; [apply panics_err|].
  apply panics_bind; [by apply fetch_panics|intros body]. apply panics_bind; [apply check_age_panics|intros _].
  apply panics_bind; [unfold collectCurveUSDPricesFromGetPoolsJSON; no_panic|intros samples].
  apply panics_bind; [unfold merged_samples; intros p; repeat case_match; try done; intros _; by eapply Hg|intros more].
  destruct (samples ++ more) as [|x l].
  - unfold curveFactoryPriceFromV1USD. apply panics_bind; [|intros; no_panic]. apply panics_wrap. intros p Hp. by eapply Hg.
  - intros p Hp. destruct (medianFloat64_total (x :: l)) as [v Hv]; [done|congruence].
Qed.

Lemma handlers_panic decode decode_pools decode_v1 http_get name handler invert id e :
  HandlerRegistry decode decode_pools decode_v1 http_get !! name = Some handler ->
  panics ((exists p, response e = Panic p) \/ exists url p, http_get url = Panic p) (handler invert id e).
Proof.
  unfold HandlerRegistry. intros H%elem_of_list_to_map_2.
  repeat (apply elem_of_cons in H as [[= -> ->]|H]); [..|by apply elem_of_nil in H].
  - apply generic_panics. by left.
  - apply osmosis_panics. by left.
  - apply curve_panics; [by left|]. intros. right. by eauto.
  - apply curve_panics; [by left|]. intros. right. by eauto.
  - apply subgraph_panics. by left.
Qed.

(** ** Examples *)
Definition ex_env (params : gmap string string) (path : list string) (v : json) : env :=
  mkEnv (RpcReader.mkReader "https://api" "GET" Second 1 (75 * Millisecond) ∅ path "" (Some params)) (Ok "{}") 0 0 0 0 ∅
    (NewMarketToExchangePrices 0) (fun _ => inr v) (fun _ _ => inl (ErrNew "")).

Definition ex_pool (address coin : string) (price : float64) : curvePool := mkCurvePool address [mkCoin coin price].
Definition ex_pools : list curvePool :=
  [ex_pool "0xP1" "0xAB" (float_of_integer 3); ex_pool "0xp2" "0xab" (float_of_integer 1); ex_pool "0xP3" "0xAB" (float_of_integer 2);
   ex_pool "0xBAD" "0xAB" (float_of_integer 100); ex_pool "0xP4" "0xCD" (float_of_integer 100)].
Definition ex_curve_env : env := ex_env {["target_token" := " 0xaB "; "exclude_pools" := "0xbad, "]} [] JNull.

Lemma curve_correct_witness :
  CurveFactoryPriceHandler (fun _ => inr (mkEnvelope true (Some ex_pools))) (fun _ => inl (ErrNew "")) (fun _ => Err (ErrNew "")) false 0
    ex_curve_env = Ok (float_of_integer 2) /\
  CurveFactoryPriceHandler (fun _ => inr (mkEnvelope true (Some ex_pools))) (fun _ => inl (ErrNew "")) (fun _ => Err (ErrNew "")) false 0
    ex_curve_env = medianFloat64 (curve_samples ex_curve_env (reverse ex_pools) []).
Proof.
  split; [vm_compute; reflexivity|].
  apply (curve_correct (fun _ => inr (mkEnvelope true (Some ex_pools))) (fun _ => inl (ErrNew "")) (fun _ => Err (ErrNew ""))
    ex_curve_env false 0 "{}" ex_pools []); [done|done|done|done|done|vm_compute; reflexivity| |apply reverse_Permutation|done].
  vm_compute. done.
Defined.

Example generic_ex :
  GenericHandler true 0 (ex_env ∅ ["data"; "1"; "price"] (JObj [("data", JArr [JNull; JObj [("price", JStr "0.5")]])])) = Ok f_two.
Proof. vm_compute. reflexivity. Qed.
