(* ===== verification/CombinedHandlers.v ===== *)
(** * custom_query/combined/combined_handler: prices from several sources at once

    [ParallelFetcher], which fetches in goroutines and waits for all of them or for the end
    of the context, as a step relation; and the handlers for sFRXUSD and sUSN, which are given what
    the fetcher has when the wait ends. *)
From Stdlib Require Import Ascii.
From Stdlib.Floats Require Import SpecFloat.
From stdpp Require Import relations.
From S2P Require Import Prelude Text Float64 BigFloat CustomNumbers Json RpcReader ContractHandlers RpcHandlers.
Local Open Scope Z_scope.

Notation bytes := (list Z) (only parsing).

(** ** The fetcher

    A goroutine: fetching; its result recorded; counted as done, its message not yet sent;
    finished. *)
Inductive stage := Fetching | Recorded | Counted | Finished.
#[export] Instance stage_eq_dec : EqDecision stage.
Proof. solve_decision. Defined.

(** The waiter: it looks at its copy of [pending]; [Expired] is a return at the deadline. *)
Inductive waiter := Starting | Waiting (seen : Z) | Complete | Expired.

Record ParallelFetcher := mkFetcher {
  results : gmap string (go bytes);     (** the maps of results and of errors *)
  pending : Z;
  complete : nat;                       (** messages in the channel *)
  goroutines : gmap string stage;
  wait : waiter;
  received : nat                        (** messages the waiter took *)
}.

Definition complete_size : nat := 16.

(** The fetcher when a fetch was started for every key. *)
Definition started (keys : list string) : ParallelFetcher :=
  mkFetcher ∅ (Z.of_nat (length keys)) 0 (list_to_map ((fun k => (k, Fetching)) <$> keys)) Starting 0.

Definition record (k : string) (r : go bytes) (p : ParallelFetcher) : ParallelFetcher :=
  mkFetcher (<[k := r]> (results p)) (pending p) (complete p) (<[k := Recorded]> (goroutines p)) (wait p) (received p).
(** The two halves of [markDone]. *)
Definition count (k : string) (p : ParallelFetcher) : ParallelFetcher :=
  mkFetcher (results p) (pending p - 1) (complete p) (<[k := Counted]> (goroutines p)) (wait p) (received p).
Definition send (k : string) (p : ParallelFetcher) : ParallelFetcher :=
  mkFetcher (results p) (pending p) (S (complete p)) (<[k := Finished]> (goroutines p)) (wait p) (received p).
(** The waiter reads [pending], at first and whenever it took a message. *)
Definition look (p : ParallelFetcher) : waiter := if 0 <? pending p then Waiting (pending p) else Complete.
Definition begin_wait (p : ParallelFetcher) : ParallelFetcher :=
  mkFetcher (results p) (pending p) (complete p) (goroutines p) (look p) (received p).
Definition take_message (n : nat) (p : ParallelFetcher) : ParallelFetcher :=
  mkFetcher (results p) (pending p) n (goroutines p) (look p) (S (received p)).
Definition expire (p : ParallelFetcher) : ParallelFetcher :=
  mkFetcher (results p) (pending p) (complete p) (goroutines p) Expired (received p).

(** The steps of the program, and the end of the context. *)
Inductive prog_step : ParallelFetcher -> ParallelFetcher -> Prop :=
  | step_record k r p : goroutines p !! k = Some Fetching -> (forall q, r <> Panic q) -> prog_step p (record k r p)
  | step_count k p : goroutines p !! k = Some Recorded -> prog_step p (count k p)
  | step_send k p : goroutines p !! k = Some Counted -> (complete p < complete_size)%nat -> prog_step p (send k p)
  | step_begin p : wait p = Starting -> prog_step p (begin_wait p)
  | step_take n seen p : wait p = Waiting seen -> complete p = S n -> prog_step p (take_message n p).
Inductive env_step : ParallelFetcher -> ParallelFetcher -> Prop :=
  | step_expire seen p : wait p = Waiting seen -> env_step p (expire p).

Inductive reachable (keys : list string) : ParallelFetcher -> Prop :=
  | reach_start : reachable keys (started keys)
  | reach_prog p p' : reachable keys p -> prog_step p p' -> reachable keys p'
  | reach_env p p' : reachable keys p -> env_step p p' -> reachable keys p'.

(** [GetBytes] of what the fetcher has. *)
Definition GetBytes (results : gmap string (go bytes)) (key : string) : go bytes :=
  match results !! key with
  | Some r => r
  | None => Err (ErrNew ("no result found for key: " +:+ key))
  end.

(** ** What holds while it runs *)
Definition stage_eqb (s s' : stage) : bool :=
  match s, s' with
  | Fetching, Fetching | Recorded, Recorded | Counted, Counted | Finished, Finished => true
  | _, _ => false
  end.
Definition mem (l : list stage) (s : stage) : bool := existsb (stage_eqb s) l.
Definition in_stage (l : list stage) (p : ParallelFetcher) : nat :=
  length (filter (fun x => mem l x.2 = true) (map_to_list (goroutines p))).

Record consistent (keys : list string) (p : ParallelFetcher) : Prop := {
  i_dom : dom (goroutines p) = list_to_set keys;
  i_pending : pending p = Z.of_nat (in_stage [Fetching; Recorded] p);
  i_messages : (complete p + received p)%nat = in_stage [Finished] p;
  i_results : forall k s, goroutines p !! k = Some s -> s <> Fetching -> is_Some (results p !! k);
  i_start : wait p = Starting -> received p = 0%nat;
  i_seen : forall seen, wait p = Waiting seen -> 0 < seen /\ seen + Z.of_nat (received p) <= Z.of_nat (length keys);
  i_complete : wait p = Complete -> pending p = 0
}.

Lemma in_stage_insert m k (s0 s : stage) (l : list stage) :
  m !! k = Some s0 ->
  (length (filter (fun x => mem l x.2 = true) (map_to_list (<[k := s]> m))) + (if mem l s0 then 1 else 0) =
   length (filter (fun x : string * stage => mem l x.2 = true) (map_to_list m)) + (if mem l s then 1 else 0))%nat.
Proof.
  intros Hk.
  assert (forall s1, length (filter (fun x => mem l x.2 = true) (map_to_list (<[k := s1]> m)))
    = ((if mem l s1 then 1 else 0) + length (filter (fun x : string * stage => mem l x.2 = true) (map_to_list (delete k m))))%nat) as E.
  { intros s1. rewrite <- insert_delete_eq, (map_to_list_insert _ _ s1 (lookup_delete_eq m k)), filter_cons. cbn [snd]. by destruct (mem l s1). }
  pose proof (E s0) as E0. rewrite insert_id in E0 by done. rewrite E, E0. lia.
Qed.

Lemma in_stage_le l p : (in_stage l p <= size (goroutines p))%nat.
Proof. unfold in_stage. rewrite <- length_map_to_list. apply length_filter. Qed.

Lemma in_stage_split p : (in_stage [Fetching; Recorded] p + in_stage [Counted] p + in_stage [Finished] p = size (goroutines p))%nat.
Proof.
  unfold in_stage. rewrite <- length_map_to_list. induction (map_to_list (goroutines p)) as [|[k s] l IH]; [done|].
  rewrite !filter_cons. cbn [snd length]. rewrite <- IH.
  generalize (filter (fun x => mem [Fetching; Recorded] x.2 = true) l), (filter (fun x => mem [Counted] x.2 = true) l),
    (filter (fun x => mem [Finished] x.2 = true) l). intros l1 l2 l3. destruct s; cbn [mem existsb stage_eqb orb];
    rewrite ?(decide_True (P := true = true)), ?(decide_False (P := false = true)) by done; cbn [length]; lia.
Qed.

Lemma in_stage_some k s l p : goroutines p !! k = Some s -> mem l s = true -> (0 < in_stage l p)%nat.
Proof.
  intros Hk Hs. unfold in_stage.
  assert ((k, s) ∈ filter (fun x => mem l x.2 = true) (map_to_list (goroutines p))) as Hin.
  { apply list_elem_of_filter. split; [done|]. by apply elem_of_map_to_list. }
  destruct (filter _ _); [by apply not_elem_of_nil in Hin|cbn; lia].
Qed.

Lemma in_stage_pos l p : (0 < in_stage l p)%nat -> exists k s, goroutines p !! k = Some s /\ mem l s = true.
Proof.
  unfold in_stage. intros H. destruct (filter _ _) as [|[k s] r] eqn:E; [cbn in H; lia|].
  assert ((k, s) ∈ filter (fun x => mem l x.2 = true) (map_to_list (goroutines p))) as Hin by (rewrite E; left).
  apply list_elem_of_filter in Hin as [Hs Hin%elem_of_map_to_list]. by exists k, s.
Qed.

Lemma in_stage_none l p : in_stage l p = 0%nat -> forall k s, goroutines p !! k = Some s -> mem l s = false.
Proof. intros H k s Hk. destruct (mem l s) eqn:Hs; [|done]. pose proof (in_stage_some k s l p Hk Hs). lia. Qed.

Section Fetcher.
Variable keys : list string.
Hypothesis keys_NoDup : NoDup keys.

Lemma size_goroutines p : consistent keys p -> size (goroutines p) = length keys.
Proof using keys_NoDup.
  intros Hc. rewrite <- size_dom, (i_dom keys p Hc). by apply size_list_to_set.
Qed.

Lemma fetcher_consistent_started : consistent keys (started keys).
Proof using keys_NoDup.
  assert (dom (goroutines (started keys)) = list_to_set keys) as Hd.
  { cbn. rewrite dom_list_to_map_L, <- list_fmap_compose. f_equal. by rewrite list_fmap_id. }
  assert (forall k s, goroutines (started keys) !! k = Some s -> s = Fetching) as Hf.
  { cbn. intros k s (k' & [= -> ->] & _)%elem_of_list_to_map_2%list_elem_of_fmap. done. }
  assert (forall l, mem l Fetching = false -> in_stage l (started keys) = 0%nat) as Hn.
  { intros l Hl. destruct (in_stage l (started keys)) eqn:E; [done|]. exfalso. unfold in_stage in E.
    destruct (filter _ _) as [|[k s] r] eqn:E2; [done|].
    assert ((k, s) ∈ filter (fun x => mem l x.2 = true) (map_to_list (goroutines (started keys)))) as Hin by (rewrite E2; left).
    apply list_elem_of_filter in Hin as [Hs Hin%elem_of_map_to_list]. apply Hf in Hin. cbn in Hs. congruence. }
  split; try done.
  - pose proof (in_stage_split (started keys)) as Hs. rewrite (Hn [Counted]), (Hn [Finished]) in Hs by done.
    cbn [pending started]. rewrite <- size_dom, Hd, size_list_to_set in Hs by done. lia.
  - cbn [complete received started]. by rewrite Hn.
  - intros k s Hk%Hf Hs. done.
Qed.

Lemma dom_stage p k s0 s : goroutines p !! k = Some s0 -> dom (<[k := s]> (goroutines p)) = dom (goroutines p).
Proof using keys_NoDup. intros Hk. rewrite dom_insert_L. apply elem_of_dom_2 in Hk. set_solver +Hk. Qed.

Lemma in_stage_move p p' k s0 s l :
  goroutines p !! k = Some s0 -> goroutines p' = <[k := s]> (goroutines p) ->
  (in_stage l p' + (if mem l s0 then 1 else 0) = in_stage l p + (if mem l s then 1 else 0))%nat.
Proof using keys_NoDup. intros Hk E. unfold in_stage. rewrite E. by apply in_stage_insert. Qed.

Lemma fetcher_consistent_record k r p :
  consistent keys p -> goroutines p !! k = Some Fetching -> consistent keys (record k r p).
Proof using keys_NoDup.
  intros [H1 H2 H3 H4 H5 H6 H7] Hk. split; try done.
  - cbn. by rewrite (dom_stage p k Fetching).
  - pose proof (in_stage_move p (record k r p) k Fetching Recorded [Fetching; Recorded] Hk eq_refl) as E.
    cbn [mem existsb stage_eqb orb] in E. cbn [pending record]. lia.
  - pose proof (in_stage_move p (record k r p) k Fetching Recorded [Finished] Hk eq_refl) as E.
    cbn [mem existsb stage_eqb orb] in E. cbn [complete received record]. lia.
  - cbn. intros k' s [[<- <-]|[Hne Hk']]%lookup_insert_Some Hs; [rewrite lookup_insert_eq; by eexists|].
    rewrite lookup_insert_ne by done. by eapply H4.
Qed.

Lemma fetcher_consistent_count k p :
  consistent keys p -> goroutines p !! k = Some Recorded -> consistent keys (count k p).
Proof using keys_NoDup.
  intros [H1 H2 H3 H4 H5 H6 H7] Hk. split; try done.
  - cbn. by rewrite (dom_stage p k Recorded).
  - pose proof (in_stage_move p (count k p) k Recorded Counted [Fetching; Recorded] Hk eq_refl) as E.
    cbn [mem existsb stage_eqb orb] in E. cbn [pending count]. lia.
  - pose proof (in_stage_move p (count k p) k Recorded Counted [Finished] Hk eq_refl) as E.
    cbn [mem existsb stage_eqb orb] in E. cbn [complete received count]. lia.
  - cbn. intros k' s [[<- <-]|[Hne Hk']]%lookup_insert_Some Hs; by eapply H4.
  - cbn. intros Hw. specialize (H7 Hw). pose proof (in_stage_some k Recorded [Fetching; Recorded] p Hk eq_refl). lia.
Qed.

Lemma fetcher_consistent_send k p :
  consistent keys p -> goroutines p !! k = Some Counted -> consistent keys (send k p).
Proof using keys_NoDup.
  intros [H1 H2 H3 H4 H5 H6 H7] Hk. split; try done.
  - cbn. by rewrite (dom_stage p k Counted).
  - pose proof (in_stage_move p (send k p) k Counted Finished [Fetching; Recorded] Hk eq_refl) as E.
    cbn [mem existsb stage_eqb orb] in E. cbn [pending send]. lia.
  - pose proof (in_stage_move p (send k p) k Counted Finished [Finished] Hk eq_refl) as E.
    cbn [mem existsb stage_eqb orb] in E. cbn [complete received send]. lia.
  - cbn. intros k' s [[<- <-]|[Hne Hk']]%lookup_insert_Some Hs; by eapply H4.
Qed.

(** What the waiter sees is at most what is left. *)
Lemma fetcher_consistent_look n m p :
  consistent keys p -> (n + m)%nat = in_stage [Finished] p ->
  consistent keys (mkFetcher (results p) (pending p) n (goroutines p) (look p) m).
Proof using keys_NoDup.
  intros Hc Hm. pose proof (size_goroutines p Hc) as Hs. pose proof (in_stage_split p) as Hsplit.
  destruct Hc as [H1 H2 H3 H4 H5 H6 H7]. split; try done; cbn; unfold look; destruct (0 <? pending p) eqn:E; try done.
  - intros seen [= <-]. unfold in_stage in *. cbn in *. lia.
  - intros _. lia.
Qed.

Lemma reachable_fetcher_consistent p : reachable keys p -> consistent keys p.
Proof using keys_NoDup.
  induction 1 as [|p p' _ IH Hstep|p p' _ IH Hstep].
  - apply fetcher_consistent_started.
  - destruct Hstep as [k r p Hk _|k p Hk|k p Hk _|p Hw|n seen p Hw Hn].
    + by apply fetcher_consistent_record.
    + by apply fetcher_consistent_count.
    + by apply fetcher_consistent_send.
    + apply fetcher_consistent_look; [done|]. by apply IH.
    + apply fetcher_consistent_look; [done|]. rewrite <- (i_messages keys p IH), Hn. lia.
  - destruct Hstep as [seen p Hw]. destruct IH as [H1 H2 H3 H4 H5 H6 H7]. by split.
Qed.

(** ** The wait ends *)
Definition stage_rank (s : stage) : nat := match s with Fetching => 4 | Recorded => 3 | Counted => 2 | Finished => 0 end.
Definition steps_left (p : ParallelFetcher) : nat :=
  4 * in_stage [Fetching] p + 3 * in_stage [Recorded] p + 2 * in_stage [Counted] p + complete p + match wait p with Starting => 1 | _ => 0 end.

Lemma steps_move p p' k s0 s :
  goroutines p !! k = Some s0 -> goroutines p' = <[k := s]> (goroutines p) -> wait p' = wait p ->
  (steps_left p' + stage_rank s0 + complete p = steps_left p + stage_rank s + complete p')%nat.
Proof using keys_NoDup.
  intros Hk E Hw. unfold steps_left. rewrite Hw.
  pose proof (in_stage_move p p' k s0 s [Fetching] Hk E) as E1.
  pose proof (in_stage_move p p' k s0 s [Recorded] Hk E) as E2.
  pose proof (in_stage_move p p' k s0 s [Counted] Hk E) as E3.
  destruct s0, s; cbn [stage_rank mem existsb stage_eqb orb] in *; lia.
Qed.

Lemma prog_step_left p p' : consistent keys p -> prog_step p p' -> (steps_left p' < steps_left p)%nat.
Proof using keys_NoDup.
  intros Hc Hs. destruct Hs as [k r p Hk _|k p Hk|k p Hk _|p Hw|n seen p Hw Hn].
  - pose proof (steps_move p (record k r p) k Fetching Recorded Hk eq_refl eq_refl). cbn in *. lia.
  - pose proof (steps_move p (count k p) k Recorded Counted Hk eq_refl eq_refl). cbn in *. lia.
  - pose proof (steps_move p (send k p) k Counted Finished Hk eq_refl eq_refl). cbn in *. lia.
  - unfold steps_left, begin_wait, in_stage, look. cbn. rewrite Hw. destruct (0 <? pending p); lia.
  - unfold steps_left, take_message, in_stage, look. cbn. rewrite Hw, Hn. destruct (0 <? pending p); lia.
Qed.

(** Until the wait is over, somebody can step. *)
Lemma waiting_steps p : consistent keys p -> wait p <> Complete -> wait p <> Expired -> exists p', prog_step p p'.
Proof using keys_NoDup.
  intros Hc Hn1 Hn2. destruct (wait p) as [|seen| |] eqn:Hw; [eexists; by apply step_begin| |done|done].
  destruct (complete p) as [|n] eqn:Hm; [|eexists; by eapply step_take].
  destruct (decide (exists k s, goroutines p !! k = Some s /\ s <> Finished)) as [(k & s & Hk & Hs)|Hno].
  - destruct s; [eexists; by apply (step_record k (Err (ErrNew "")))|eexists; by apply (step_count k)| |done].
    eexists. apply (step_send k); [done|]. rewrite Hm. unfold complete_size. lia.
  - exfalso. destruct (i_seen keys p Hc seen Hw) as [H0 H1]. pose proof (size_goroutines p Hc) as Hs.
    pose proof (in_stage_split p) as Hsplit. pose proof (i_messages keys p Hc) as Hmsg.
    assert (forall l, mem l Finished = false -> in_stage l p = 0%nat) as Hz.
    { intros l Hl. destruct (in_stage l p) eqn:E; [done|]. destruct (in_stage_pos l p ltac:(lia)) as (k & s & Hk & Hs').
      destruct Hno. exists k, s. split; [done|]. by intros ->; rewrite Hl in Hs'. }
    rewrite (Hz [Fetching; Recorded]), (Hz [Counted]) in Hsplit by done. lia.
Qed.
End Fetcher.

(** C29: A wait for fetches, in any interleaving with them: when it completes before the end of the context, every fetch
    has left its result or its error; every step of the fetches or of the wait brings them closer to their end, and
    until the wait is over one of them can step, however many fetches there are. *)
Theorem parallel_fetch_correct keys p :
  NoDup keys -> reachable keys p ->
  (wait p = Complete -> forall k, k ∈ keys -> is_Some (results p !! k)) /\
  (forall p', prog_step p p' -> (steps_left p' < steps_left p)%nat) /\
  (wait p <> Complete -> wait p <> Expired -> exists p', prog_step p p').
Proof.
  intros Hk Hr. pose proof (reachable_fetcher_consistent keys Hk p Hr) as Hc. split_and!.
  - intros Hw k Hin. pose proof (i_complete keys p Hc Hw) as H0. rewrite (i_pending keys p Hc) in H0.
    assert (k ∈ dom (goroutines p)) as [s Hs]%elem_of_dom by (rewrite (i_dom keys p Hc); by apply elem_of_list_to_set).
    apply (i_results keys p Hc k s Hs). intros ->.
    pose proof (in_stage_some k Fetching [Fetching; Recorded] p Hs eq_refl). lia.
  - intros p'. by apply (prog_step_left keys Hk).
  - by apply (waiting_steps keys Hk).
Qed.

(** One fetch that is done while the wait goes on. *)
Lemma parallel_fetch_correct_witness :
  exists p, NoDup ["a"] /\ reachable ["a"] p /\ wait p = Complete /\ is_Some (results p !! "a").
Proof.
  assert (NoDup ["a"]) as Hk by (apply NoDup_singleton).
  set (p1 := begin_wait (started ["a"])). set (p2 := record "a" (Ok [1]) p1). set (p3 := count "a" p2). set (p4 := send "a" p3).
  set (p5 := take_message 0 p4).
  assert (reachable ["a"] p5) as Hr.
  { apply (reach_prog _ p4); [|by eapply (step_take 0 1)]. apply (reach_prog _ p3); [|apply step_send; [done|cbn; unfold complete_size; lia]].
    apply (reach_prog _ p2); [|by apply step_count]. apply (reach_prog _ p1); [|by apply step_record].
    apply (reach_prog _ (started ["a"])); [apply reach_start|by apply step_begin]. }
  exists p5. split; [exact Hk|]. split; [exact Hr|]. split; [reflexivity|].
  apply (parallel_fetch_correct ["a"] p5 Hk Hr); [reflexivity|left].
Defined.

(** ** What the handlers compute *)

(** [sort.Float64s] of any floats: NaN comes first. *)
Definition f_is_nan (x : float64) : bool := match x with S754_nan => true | _ => false end.
Definition nan_le (x y : float64) : Prop := f_is_nan x = true \/ f_is_nan y = false /\ SFltb y x = false.
#[export] Instance nan_le_dec : RelDecision nan_le.
Proof. intros x y. unfold nan_le. apply _. Defined.
Definition sort_floats (l : list float64) : list float64 := merge_sort nan_le l.

(** [CalculateMedian]. *)
Definition CalculateMedian (prices : list float64) : go float64 :=
  match prices with
  | [] => Ok fzero
  | [p] => Ok p
  | _ => median_value (sort_floats prices)
  end.

(** The smallest and the largest, by comparisons from the first. *)
Definition min_max (prices : list float64) : go (float64 * float64) :=
  first ← index prices 0;
  Ok (foldl (fun '(lo, hi) p => (if SFltb p lo then p else lo, if SFltb hi p then p else hi)) (first, first) prices).

Definition spread (lo hi : float64) : float64 := fmul (fdiv (fsub hi lo) lo) f_hundred.

(** The verbs %.2f and %.6f. *)
Definition Sprintf_prec (n : nat) (x : float64) : string :=
  match x with
  | S754_zero neg => with_sign neg (fixed_text 0 n)
  | S754_infinity neg => if neg then "-Inf" else "+Inf"
  | S754_nan => "NaN"
  | S754_finite neg m e =>
      with_sign neg (fixed_text (div_even (Zpos m * 2 ^ Z.max 0 e * 10 ^ Z.of_nat n) (2 ^ Z.max 0 (- e))) n)
  end.

Definition insufficient (pair : string) (got : nat) (need : Z) : go_error :=
  ErrNew ("insufficient " +:+ pair +:+ " prices: got " +:+ pretty got +:+ ", need at least " +:+ pretty need).
Definition too_wide (pair : string) (s max : float64) : go_error :=
  ErrNew (pair +:+ " price spread of " +:+ Sprintf_prec 2 s +:+ "% exceeds maximum allowed " +:+ Sprintf_prec 2 max +:+ "%").

(** What a handler is called with, and what its fetches gave when the wait ended. *)
Record env := mkEnv {
  contractReaders : gset string; rpcReaders : gmap string (list string);  (** names, and response paths *)
  minResponses : Z; maxSpreadPercent : float64; maxDataAge : Duration;
  startTime : Time; answerTime : Time;
  fetched : gmap string (go bytes)
}.

Definition check_age (e : env) (label : string) : go unit := wrap_err label (checkDataAge (answerTime e) (startTime e) (maxDataAge e)).

Definition ethereum_reader (e : env) : go unit :=
  if bool_decide ("ethereum" ∈ contractReaders e) then Ok tt else Err (ErrNew "ethereum contract reader not found").

Definition few (pair : string) (e : env) (prices : list float64) : go unit :=
  if Z.of_nat (length prices) <? minResponses e then Err (insufficient pair (length prices) (minResponses e)) else Ok tt.

(** ** sfrxusd_price_handler.go *)
Section Sfrxusd.
Variable decode_coingecko : bytes -> go_error + gmap string (gmap string float64).
Variable decode_curve : bytes -> go_error + float64.        (** data.usd_price, zero when missing *)
Variable decode_coinpaprika : bytes -> go_error + float64.  (** quotes.USD.price, zero when missing *)

Definition coingecko_price (e : env) : option float64 :=
  match GetBytes (fetched e) "frx_coingecko" with
  | Ok result =>
      match decode_coingecko result with
      | inr cgResponse => fraxData ← cgResponse !! "frax"; fraxData !! "usd"
      | inl _ => None
      end
  | _ => None
  end.

Definition positive_price (decode : bytes -> go_error + float64) (e : env) (key : string) : option float64 :=
  match GetBytes (fetched e) key with
  | Ok result =>
      match decode result with
      | inr price => if fgt price fzero then Some price else None
      | inl _ => None
      end
  | _ => None
  end.

Definition frxPrices (e : env) : list float64 :=
  option_list (coingecko_price e) ++ option_list (positive_price decode_curve e "frx_curve")
    ++ option_list (positive_price decode_coinpaprika e "frx_coinpaprika").

Definition price_per_share (e : env) : go Z :=
  b ← wrap_err "failed to get pricePerShare" (GetBytes (fetched e) "price_per_share");
  if SetBytes b =? 0 then Err (ErrNew "invalid pricePerShare: zero") else Ok (SetBytes b).

Definition SFRXUSDPriceHandler (e : env) : go float64 :=
  _ ← ethereum_reader e;
  _ ← check_age e "sfrxusd";
  pricePerShare ← price_per_share e;
  _ ← few "FRX/USD" e (frxPrices e);
  '(minPrice, maxPrice) ← min_max (frxPrices e);
  let spreadPercent := spread minPrice maxPrice in
  if fgt spreadPercent (maxSpreadPercent e) then Err (too_wide "FRX/USD" spreadPercent (maxSpreadPercent e)) else
  medianFrxUsdPrice ← CalculateMedian (frxPrices e);
  if f_not_positive medianFrxUsdPrice then Err (ErrNew ("invalid median FRX/USD price: " +:+ Sprintf_prec 6 medianFrxUsdPrice)) else
  Ok (fmul (dollars pricePerShare) medianFrxUsdPrice).
End Sfrxusd.

(** The fetches it starts. *)
Definition sfrxusd_keys (e : env) : list string :=
  "price_per_share" ::
  omap (fun '(name, key) => _ ← rpcReaders e !! name; Some key)
    [("coingecko", "frx_coingecko"); ("curve", "frx_curve"); ("coinpaprika", "frx_coinpaprika")].

(** ** susn_price_handler.go *)
Definition STAKED_USN_CONTRACT : string := "0xe24a3dc889621612422a64e6388927901608b91d".

Section Susn.
Context {RO : RangeOrder}.
Variable Unmarshal : bytes -> go_error + json.

Fixpoint walk_fields (i : nat) (path : list string) (current : json) : go json :=
  match path with
  | [] => Ok current
  | key :: path =>
      match current with
      | JObj fields =>
          match field key fields with
          | Some v => walk_fields (S i) path v
          | None => Err (ErrNew ("key not found at path segment " +:+ pretty i +:+ ": " +:+ key))
          end
      | v => Err (ErrNew ("unexpected type at key " +:+ key +:+ ": " +:+ type_text v))
      end
  end.

Definition extractPrice (data : bytes) (path : list string) : go float64 :=
  match Unmarshal data with
  | inl err => Err (wrapf "failed to unmarshal JSON" err)
  | inr result =>
      current ← walk_fields 0 path result;
      match current with
      | JNum v => Ok v
      | JStr v => match Sscanf_f v with inl err => Err (wrapf "failed to parse price string" err) | inr f => Ok f end
      | v => Err (ErrNew ("unexpected price type: " +:+ type_text v))
      end
  end.

(** The fetches it starts, and the prices of those that gave one, in the order the readers are ranged. *)
Definition susn_keys (e : env) : list string := "conversion_rate" :: ((fun x => "price_" +:+ x.1) <$> range_of (rpcReaders e)).

Definition reader_price (e : env) (x : string * list string) : option float64 :=
  match GetBytes (fetched e) ("price_" +:+ x.1) with
  | Ok priceBytes => match extractPrice priceBytes x.2 with Ok price => Some price | _ => None end
  | _ => None
  end.

Definition susn_prices (e : env) : list float64 := omap (reader_price e) (range_of (rpcReaders e)).

Definition SUSNPriceHandler (e : env) : go float64 :=
  _ ← ethereum_reader e;
  if bool_decide (rpcReaders e = ∅) then Err (ErrNew "no RPC readers found") else
  _ ← check_age e "susn";
  conversionBytes ← wrap_err "failed to get conversion rate" (GetBytes (fetched e) "conversion_rate");
  _ ← few "SUSN/USD" e (susn_prices e);
  '(minPrice, maxPrice) ← min_max (susn_prices e);
  let spreadPercent := spread minPrice maxPrice in
  if fgt minPrice fzero && fgt spreadPercent (maxSpreadPercent e) then Err (too_wide "SUSN/USD" spreadPercent (maxSpreadPercent e)) else
  medianPrice ← CalculateMedian (susn_prices e);
  Ok (fmul (dollars (SetBytes conversionBytes)) medianPrice).
End Susn.

Definition handlerRegistry {RO : RangeOrder} (cg : bytes -> go_error + gmap string (gmap string float64))
    (cu cp : bytes -> go_error + float64) (js : bytes -> go_error + json) : gmap string (env -> go float64) :=
  list_to_map [("sfrxusd_price", SFRXUSDPriceHandler cg cu cp); ("susn_price", SUSNPriceHandler js)].

(** ** Spread and median *)
Lemma f_le_refl x : positive_finite x -> f_le x x.
Proof. intros Hx. by destruct (f_le_total x x). Qed.

Lemma min_max_spec prices lo hi :
  min_max prices = Ok (lo, hi) -> Forall positive_finite prices ->
  lo ∈ prices /\ hi ∈ prices /\ Forall (fun p => f_le lo p /\ f_le p hi) prices.
Proof.
  unfold min_max, index. destruct prices as [|first l]; [done|]. cbn [lookup list_lookup mbind go_bind]. intros [= H] Hpos.
  assert (forall seen l' lo0 hi0, lo0 ∈ seen -> hi0 ∈ seen -> Forall positive_finite (seen ++ l') ->
    Forall (fun p => f_le lo0 p /\ f_le p hi0) seen ->
    foldl (fun '(lo, hi) p => (if SFltb p lo then p else lo, if SFltb hi p then p else hi)) (lo0, hi0) l' = (lo, hi) ->
    lo ∈ seen ++ l' /\ hi ∈ seen ++ l' /\ Forall (fun p => f_le lo p /\ f_le p hi) (seen ++ l')) as Hfold.
  { intros seen l'. revert seen. induction l' as [|p l' IH]; intros seen lo0 hi0 Hlo Hhi Hp Hall Hf; cbn [foldl] in Hf.
    { injection Hf as -> ->. by rewrite app_nil_r. }
    rewrite (cons_middle p seen l'), app_assoc in Hp |- *.
    pose proof Hp as [[Hps [Hpp _]%Forall_cons]%Forall_app _]%Forall_app.
    rewrite Forall_forall in Hps. rewrite Forall_forall in Hall.
    apply (IH (seen ++ [p]) (if SFltb p lo0 then p else lo0) (if SFltb hi0 p then p else hi0)); [| |done| |exact Hf].
    - apply elem_of_app. destruct (SFltb p lo0); [right; by apply list_elem_of_singleton|by left].
    - apply elem_of_app. destruct (SFltb hi0 p); [right; by apply list_elem_of_singleton|by left].
    - assert (positive_finite lo0) as Hplo by (by apply Hps). assert (positive_finite hi0) as Hphi by (by apply Hps).
      apply Forall_app. split.
      + apply Forall_forall. intros x Hx. destruct (Hall x Hx) as [H1 H2]. pose proof (Hps x Hx) as Hpx. split.
        * destruct (SFltb p lo0) eqn:E; [|done]. apply (f_le_trans p lo0 x); try done.
          destruct (f_le_total p lo0) as [?|Hle]; [done|]. unfold f_le in Hle. congruence.
        * destruct (SFltb hi0 p) eqn:E; [|done]. apply (f_le_trans x hi0 p); try done.
          destruct (f_le_total hi0 p) as [?|Hle]; [done|]. unfold f_le in Hle. congruence.
      + apply Forall_singleton. split.
        * destruct (SFltb p lo0) eqn:E; [by apply f_le_refl|exact E].
        * destruct (SFltb hi0 p) eqn:E; [by apply f_le_refl|exact E]. }
  cbn [foldl] in H.
  assert (SFltb first first = false) as Hff by (apply Forall_cons in Hpos as [Hf _]; exact (f_le_refl first Hf)).
  apply (Hfold [first] l first first); [left|left|done| |].
  - apply Forall_singleton. split; exact Hff.
  - rewrite Hff in H. exact H.
Qed.

Lemma CalculateMedian_total prices : prices <> [] -> exists m, CalculateMedian prices = Ok m.
Proof.
  intros Hp. unfold CalculateMedian. destruct prices as [|p [|p' l]]; [done|by exists p|].
  apply median_value_nonempty. intros E. pose proof (merge_sort_Permutation nan_le (p :: p' :: l)) as Hperm.
  fold (sort_floats (p :: p' :: l)) in Hperm. rewrite E in Hperm. by apply Permutation_nil_cons in Hperm.
Qed.

Lemma few_Ok pair e prices u : few pair e prices = Ok u <-> minResponses e <= Z.of_nat (length prices).
Proof. unfold few. destruct u. case_match; split; try done; lia. Qed.

Lemma min_max_panic prices p : min_max prices = Panic p -> p = IndexOutOfRange /\ prices = [].
Proof. unfold min_max, index. destruct prices; [by intros [= <-]|done]. Qed.
Lemma min_max_no_err prices err : min_max prices <> Err err.
Proof. unfold min_max, index. by destruct prices. Qed.

(** ** The handlers *)
Definition fresh (e : env) : Prop := maxDataAge e <= 0 \/ time_Sub (answerTime e) (startTime e) <= maxDataAge e.

(** No fetch panicked: a panic of a goroutine ends the program. *)
Definition fetches_returned (e : env) : Prop := map_Forall (fun _ r => forall p, r <> Panic p) (fetched e).

(** The median of prices whose spread is in bounds: all of them lie between two of them that
    are close enough. *)
Definition agreed (e : env) (prices : list float64) (m : float64) : Prop :=
  minResponses e <= Z.of_nat (length prices) /\ CalculateMedian prices = Ok m /\
  exists lo hi, min_max prices = Ok (lo, hi) /\ fgt (spread lo hi) (maxSpreadPercent e) = false /\
    (Forall positive_finite prices -> lo ∈ prices /\ hi ∈ prices /\ Forall (fun p => f_le lo p /\ f_le p hi) prices).

Lemma check_age_fresh e label u : check_age e label = Ok u -> fresh e.
Proof. unfold check_age, wrap_err. destruct (checkDataAge _ _ _) as [[]| |] eqn:E; [|done|done]. intros _. by apply checkDataAge_Ok. Qed.

Lemma check_age_no_panic e label p : check_age e label <> Panic p.
Proof. unfold check_age, wrap_err. destruct (checkDataAge _ _ _) eqn:E; try done. by apply checkDataAge_no_panic in E. Qed.

Lemma GetBytes_no_panic e key p : fetches_returned e -> GetBytes (fetched e) key <> Panic p.
Proof. intros H. unfold GetBytes. destruct (fetched e !! key) as [r|] eqn:E; [|done]. by apply (H key). Qed.

Section SfrxusdFacts.
Variable decode_coingecko : bytes -> go_error + gmap string (gmap string float64).
Variable decode_curve : bytes -> go_error + float64.
Variable decode_coinpaprika : bytes -> go_error + float64.
Notation prices := (frxPrices decode_coingecko decode_curve decode_coinpaprika).
Notation handler := (SFRXUSDPriceHandler decode_coingecko decode_curve decode_coinpaprika).

(** The price of sFRXUSD is the rate of the contract, which must have been answered, in time, and not be zero, times
    the median of the FRX prices that came, of which there are at least as many as configured and whose
    spread, from the smallest to the largest, is not above the maximum; the median is positive. The
    handler panics only when it is configured to need no price and none came. *)
Theorem sfrxusd_correct e :
  fetches_returned e ->
  (forall v, handler e = Ok v -> exists b m,
     GetBytes (fetched e) "price_per_share" = Ok b /\ SetBytes b <> 0 /\ fresh e /\ agreed e (prices e) m /\
     f_not_positive m = false /\ v = fmul (dollars (SetBytes b)) m) /\
  (forall p, handler e = Panic p -> p = IndexOutOfRange /\ prices e = [] /\ minResponses e <= 0).
Proof using Type.
  intros Hret. unfold SFRXUSDPriceHandler. split.
  - intros v (u & _ & H)%go_bind_Ok. apply go_bind_Ok in H as (u2 & Ha%check_age_fresh & H).
    apply go_bind_Ok in H as (n & Hn & H). apply go_bind_Ok in H as (u3 & Hf%few_Ok & H).
    apply go_bind_Ok in H as ([lo hi] & Hmm & H). destruct (fgt _ _) eqn:Es; [done|].
    apply go_bind_Ok in H as (m & Hm & H). destruct (f_not_positive m) eqn:Ep; [done|]. injection H as <-.
    unfold price_per_share in Hn. apply go_bind_Ok in Hn as (b & Hb & Hn). destruct (SetBytes b =? 0) eqn:Ez; [done|]. injection Hn as <-.
    exists b, m. split_and!; try done; [by destruct (GetBytes (fetched e) "price_per_share")|lia|].
    split; [done|]. split; [done|]. exists lo, hi. split_and!; [done|done|]. by apply min_max_spec.
  - intros p. destruct (ethereum_reader e) as [[]| |q] eqn:E1; cbn [mbind go_bind]; [|done|unfold ethereum_reader in E1; by case_match].
    destruct (check_age e "sfrxusd") as [[]| |q] eqn:E2; cbn [mbind go_bind]; [|done|by apply check_age_no_panic in E2].
    destruct (price_per_share e) as [n| |q] eqn:E3; cbn [mbind go_bind]; [|done|].
    2: { unfold price_per_share, wrap_err in E3. destruct (GetBytes (fetched e) "price_per_share") as [b| |q'] eqn:Eb; cbn [mbind go_bind] in E3;
      [by case_match|done|by apply GetBytes_no_panic in Eb]. }
    destruct (few _ _ _) as [[]| |q] eqn:E4; cbn [mbind go_bind]; [|done|unfold few in E4; by case_match]. apply few_Ok in E4.
    destruct (min_max (prices e)) as [[lo hi]| |q] eqn:E5; cbn [mbind go_bind]; [|by apply min_max_no_err in E5|].
    + case_match; [done|]. destruct (CalculateMedian_total (prices e)) as [m ->]; [intros E; by rewrite E in E5|].
      cbn [mbind go_bind]. by case_match.
    + intros [= <-]. apply min_max_panic in E5 as [-> E5]. rewrite E5 in *. split_and!; [done|done|]. cbn in E4. lia.
Qed.
End SfrxusdFacts.

(** The handler of sUSN: the same rate and median; the spread is checked when the smallest price is
    positive. *)
Lemma susn_spec {RO : RangeOrder} Unmarshal e v :
  SUSNPriceHandler Unmarshal e = Ok v ->
  exists b lo hi m, GetBytes (fetched e) "conversion_rate" = Ok b /\ fresh e /\
    minResponses e <= Z.of_nat (length (susn_prices Unmarshal e)) /\ min_max (susn_prices Unmarshal e) = Ok (lo, hi) /\
    (fgt lo fzero = true -> fgt (spread lo hi) (maxSpreadPercent e) = false) /\
    CalculateMedian (susn_prices Unmarshal e) = Ok m /\ v = fmul (dollars (SetBytes b)) m.
Proof.
  unfold SUSNPriceHandler. intros (u & _ & H)%go_bind_Ok. case_bool_decide; [done|].
  apply go_bind_Ok in H as (u2 & Ha%check_age_fresh & H). apply go_bind_Ok in H as (b & Hb & H).
  apply go_bind_Ok in H as (u3 & Hf%few_Ok & H). apply go_bind_Ok in H as ([lo hi] & Hmm & H).
  destruct (fgt lo fzero && _) eqn:Es; [done|]. apply go_bind_Ok in H as (m & Hm & [= <-]).
  exists b, lo, hi, m. split_and!; try done; [by destruct (GetBytes (fetched e) "conversion_rate")|].
  intros E. by rewrite E in Es.
Qed.

(** ** Examples *)
Definition one_wei : bytes := big_Bytes (10 ^ 18).
Definition ex_env (min : Z) (rpc : gmap string (list string)) (got : gmap string (go bytes)) : env :=
  mkEnv {["ethereum"]} rpc min (float_of_integer 10) 0 0 0 (<["conversion_rate" := Ok one_wei]> (<["price_per_share" := Ok one_wei]> got)).

Notation ex_handler := (SFRXUSDPriceHandler (fun _ => inr {["frax" := {["usd" := f_one]}]}) (fun _ => inr fzero) (fun _ => inl (ErrNew "")))
  (only parsing).

Lemma sfrxusd_correct_witness :
  let e := ex_env 1 ∅ {["frx_coingecko" := Ok []]} in
  ex_handler e = Ok f_one /\ fetches_returned e /\ (exists b, GetBytes (fetched e) "price_per_share" = Ok b /\ SetBytes b <> 0).
Proof.
  cbv zeta. assert (fetches_returned (ex_env 1 ∅ {["frx_coingecko" := Ok []]})) as Hr.
  { unfold fetches_returned. cbn [ex_env fetched].
    apply map_Forall_insert_2; [done|]. apply map_Forall_insert_2; [done|]. by apply map_Forall_singleton. }
  assert (ex_handler (ex_env 1 ∅ {["frx_coingecko" := Ok []]}) = Ok f_one) as E by (vm_compute; reflexivity).
  split; [exact E|]. split; [exact Hr|].
  destruct (proj1 (sfrxusd_correct (fun _ => inr {["frax" := {["usd" := f_one]}]}) (fun _ => inr fzero) (fun _ => inl (ErrNew "")) _ Hr) f_one E)
    as (b & m & Hb & Hz & _).
  exists b. split; [exact Hb|exact Hz].
Defined.

(** Without a required price the first one is read although there is none. *)
Lemma sfrxusd_panics : ex_handler (ex_env 0 ∅ ∅) = Panic IndexOutOfRange.
Proof. vm_compute. reflexivity. Qed.

(** A price that is not a number: which order the readers are ranged in decides whether the spread
    of the others is checked. *)
#[program] Definition reversed_range : RangeOrder := {| range_of := fun K V _ _ m => reverse (map_to_list m) |}.
Next Obligation. intros. apply reverse_Permutation. Qed.

Lemma susn_nan_order :
  let js b := inr (JStr (match b with [1] => "NaN" | [2] => "1" | _ => "100" end)) in
  let readers := {["a" := []; "b" := []; "d" := []]} in
  let e := ex_env 1 readers {["price_a" := Ok [1]; "price_b" := Ok [2]; "price_d" := Ok [3]]} in
  exists RO RO' : RangeOrder, is_ok (@SUSNPriceHandler RO js e) = true /\ is_ok (@SUSNPriceHandler RO' js e) = false.
Proof.
  cbv zeta. exists canonical_range, reversed_range. split; vm_compute; reflexivity.
Qed.
