(* ===== verification/QueryEndpoints.v ===== *)
(** * custom_query/config.go: from the configuration to the readers of the queries

    [BuildQueryEndpoints] with what it calls: the lists of RPC nodes, the API keys, the
    substitution of placeholders in URLs and bodies, and the reader of every endpoint. The
    TOML decoder is an argument. *)
From Stdlib Require Import Ascii.
From Stdlib.Floats Require Import SpecFloat.
From S2P Require Import ContractReader RpcHandlers.
From S2P Require Import Prelude Text TokenBridge Messages Float64 BigFloat CustomQuery RpcReader.
Local Open Scope Z_scope.

(** ** Texts *)

(** [strings.ReplaceAll] for a text to replace that is not empty. [skip] bytes belong to the
    occurrence that was replaced last. *)
Fixpoint replace_from (old new : string) (skip : nat) (s : string) : string :=
  match s with
  | EmptyString => EmptyString
  | String a t =>
      match skip with
      | S skip => replace_from old new skip t
      | O => match cut old s with
             | Some _ => new +:+ replace_from old new (String.length old - 1) t
             | None => String a (replace_from old new O t)
             end
      end
  end.
Definition strings_ReplaceAll (s old new : string) : string := replace_from old new O s.

Definition placeholder (key : string) : string := "{" +:+ key +:+ "}".

(** The name after an opening brace, when a closing one ends it. *)
Fixpoint brace_name (s : string) : option string :=
  match s with
  | EmptyString => None
  | String a t =>
      if Ascii.eqb a "}" then Some EmptyString
      else if Ascii.eqb a "{" then None
      else match brace_name t with Some n => Some (String a n) | None => None end
  end.
Definition nonempty_name (s : string) : option string :=
  match brace_name s with Some EmptyString => None | n => n end.

(** The names of all matches of the expression {([^{}]+)}. *)
Fixpoint placeholders (s : string) : list string :=
  match s with
  | EmptyString => []
  | String a t =>
      if Ascii.eqb a "{" then option_list (nonempty_name t) ++ placeholders t else placeholders t
  end.

Fixpoint substitute (params : list (string * string)) (s : string) : string :=
  match params with
  | [] => s
  | (key, value) :: params => substitute params (strings_ReplaceAll s (placeholder key) value)
  end.

(** The first match of the expression ${([^{}]+)}. *)
Fixpoint first_env (s : string) : option string :=
  match s with
  | EmptyString => None
  | String a t =>
      match (if Ascii.eqb a "$" then match t with String b u => if Ascii.eqb b "{" then nonempty_name u else None | _ => None end else None) with
      | Some name => Some name
      | None => first_env t
      end
  end.

(** ** os.ExpandEnv *)
Definition is_shell_special (a : ascii) : bool := contains (String a EmptyString) "*#$@!?-0123456789".
Definition is_alnum (a : ascii) : bool :=
  let n := nat_of_ascii a in
  (n =? 95)%nat || ((48 <=? n) && (n <=? 57))%nat || ((97 <=? n) && (n <=? 122))%nat || ((65 <=? n) && (n <=? 90))%nat.

Fixpoint take_alnum (s : string) : string :=
  match s with
  | String a t => if is_alnum a then String a (take_alnum t) else EmptyString
  | EmptyString => EmptyString
  end.

(** Up to the closing brace. *)
Fixpoint to_brace (s : string) : option string :=
  match s with
  | EmptyString => None
  | String a t => if Ascii.eqb a "}" then Some EmptyString else String a <$> to_brace t
  end.

(** The name after a dollar sign and the bytes it takes. *)
Definition getShellName (s : string) : string * nat :=
  match s with
  | EmptyString => (EmptyString, O)
  | String a t =>
      if Ascii.eqb a "{" then
        match t with
        | String b (String c _) =>
            if is_shell_special b && Ascii.eqb c "}" then (String b EmptyString, 3%nat)
            else match to_brace t with
                 | None => (EmptyString, 1%nat)
                 | Some EmptyString => (EmptyString, 2%nat)
                 | Some n => (n, S (S (String.length n)))
                 end
        | _ => match to_brace t with
               | None => (EmptyString, 1%nat)
               | Some _ => (EmptyString, 2%nat)
               end
        end
      else if is_shell_special a then (String a EmptyString, 1%nat)
      else let n := take_alnum s in (n, String.length n)
  end.

Fixpoint expand_from (getenv : string -> string) (skip : nat) (s : string) : string :=
  match s with
  | EmptyString => EmptyString
  | String a t =>
      match skip with
      | S skip => expand_from getenv skip t
      | O =>
          if Ascii.eqb a "$" && negb (bool_decide (t = EmptyString)) then
            match getShellName t with
            | (EmptyString, O) => String a (expand_from getenv O t)
            | (EmptyString, w) => expand_from getenv w t
            | (name, w) => getenv name +:+ expand_from getenv w t
            end
          else String a (expand_from getenv O t)
      end
  end.
Definition ExpandEnv (getenv : string -> string) (s : string) : string := expand_from getenv O s.

(** ** The configuration *)
Record EndpointTemplate := mkTemplate {
  URLTemplate : string; t_Query : string; t_Method : string; t_Timeout : Z; ApiKey : string; t_Headers : gmap string string; t_MaxDataAgeSecs : Z
}.

(** A value of the table of a combined endpoint. *)
Inductive toml :=
  | TInt (n : Z)
  | TFloat (x : float64)
  | TStr (s : string)
  | TBool (b : bool)
  | TArr (l : list toml)
  | TTable (fields : list (string * toml))
  | TOther.

Record EndpointConfig := mkEndpointConfig {
  EndpointType : string; e_ResponsePath : list string; e_Params : gmap string string; e_MarketId : string;
  e_Handler : string; Chain : string; e_Invert : bool; e_UsdViaID : Z; e_MaxDataAgeSecs : Z;
  CombinedSources : gmap string string; CombinedConfig : gmap string toml
}.

(** A configured query: what CustomQuery knows of it, without readers, and its endpoints. *)
Record ConfiguredQuery := mkConfigured { base : QueryConfig; endpoints : list EndpointConfig }.

Record Config := mkConfig {
  Endpoints : gmap string EndpointTemplate; RPCEndpoints : gmap string (list string);
  Queries : gmap string ConfiguredQuery; Defaults : gmap string TimeoutDefaults
}.

Record ContractHandler := mkContractHandler {
  c_Handler : string; c_Reader : ContractReader.Reader; c_MarketId : string; c_SourceId : string; c_MaxDataAge : Duration
}.
Record RpcHandler := mkRpcHandler {
  r_Handler : string; r_Reader : RpcReader.Reader; r_Invert : bool; r_UsdViaID : Z; r_Method : string; r_EndpointID : string;
  r_MarketId : string; r_SourceId : string; r_MaxDataAge : Duration
}.
Record CombinedHandler := mkCombinedHandler {
  k_Handler : string; k_ContractReaders : gmap string ContractReader.Reader; k_RpcReaders : gmap string RpcReader.Reader;
  k_Config : gmap string toml; k_MinResponses : Z; k_MaxSpreadPercent : float64; k_MaxDataAge : Duration
}.

(** A query with its readers. *)
Record BuiltQuery := mkBuilt {
  built : QueryConfig; contractReaders : list ContractHandler; rpcReaders : list RpcHandler; combinedReaders : list CombinedHandler
}.

(** [resolveMaxDataAge]. *)
Definition resolveMaxDataAge (templateSecs endpointSecs : Z) : Duration :=
  if 0 <? endpointSecs then wrap int64 (endpointSecs * Second)
  else if 0 <? templateSecs then wrap int64 (templateSecs * Second)
  else 0.

Section Environment.
Variable getenv : string -> string.

(** One chain of [processRPCEndpoints]: its URLs, when there are any. *)
Definition expanded_urls (url : string) : list string :=
  let expandedURL := ExpandEnv getenv url in
  if contains "${" expandedURL && contains "}" expandedURL then []
  else if contains "," expandedURL then
    match ParseEndpointList expandedURL with Ok endpoints => endpoints | _ => [] end
  else [expandedURL].

Definition process_chain (chain : string) (urls : list string) : option (list string) :=
  match (if bool_decide (chain = "ethereum") then ETHMainnetRPCNodesFromEnv getenv else Err (ErrNew "")) with
  | Ok urls => Some urls
  | _ => match mbind expanded_urls urls with [] => None | l => Some l end
  end.

Definition processRPCEndpoints (configured : gmap string (list string)) : gmap string (list string) :=
  map_imap process_chain configured.

Definition process_key (endpoint : EndpointTemplate) : EndpointTemplate :=
  match first_env (ApiKey endpoint) with
  | Some envVar =>
      mkTemplate (URLTemplate endpoint) (t_Query endpoint) (t_Method endpoint) (t_Timeout endpoint) (getenv envVar)
        (t_Headers endpoint) (t_MaxDataAgeSecs endpoint)
  | None => endpoint
  end.

Definition processApiKeys (endpoints : gmap string EndpointTemplate) : gmap string EndpointTemplate := process_key <$> endpoints.
End Environment.

Definition processed_headers (template : EndpointTemplate) : gmap string string :=
  (fun value => if strings_EqualFold value "api_key" then ApiKey template else value) <$> t_Headers template.

Definition reader_timeout (template : EndpointTemplate) (query : QueryConfig) : Z :=
  if 0 <? PerSourceTimeoutMs (timeouts query) then PerSourceTimeoutMs (timeouts query) else t_Timeout template.

Section Build.
Context {RO : RangeOrder}.
Variable Dial : string -> option go_error.       (** of the Ethereum client *)
Variable Sprint_value : toml -> string.          (** the verb %v of a value that is not a text *)

(** ** Endpoints of a REST API *)

(** The URL: every placeholder must be a parameter, or the API key. *)
Fixpoint check_placeholders (names : list string) (params : gmap string string) (apiKey missing_in : string) (url : string) : go string :=
  match names with
  | [] => Ok url
  | paramName :: names =>
      match params !! paramName with
      | Some _ => check_placeholders names params apiKey missing_in url
      | None =>
          if bool_decide (paramName = "api_key") then
            check_placeholders names params apiKey missing_in (strings_ReplaceAll url "{api_key}" apiKey)
          else Err (ErrNew ("missing required parameter " +:+ paramName +:+ missing_in))
      end
  end.

Definition rest_url (template : EndpointTemplate) (endpoint : EndpointConfig) (queryID : string) : go string :=
  let missing_in := " for endpoint " +:+ EndpointType endpoint +:+ " in query " +:+ queryID in
  url ← check_placeholders (placeholders (URLTemplate template)) (e_Params endpoint) (ApiKey template) missing_in (URLTemplate template);
  let url := substitute (range_of (e_Params endpoint)) url in
  if bool_decide (placeholders url = []) then Ok url
  else Err (ErrNew ("some placeholders were not replaced in URL: " +:+ url)).

Definition wrap_error {A} (label : string) (m : go A) : go A :=
  match m with Err err => Err (wrapf label err) | m => m end.

Definition rest_reader (templates : gmap string EndpointTemplate) (query : QueryConfig) (endpoint : EndpointConfig) : go RpcHandler :=
  match templates !! EndpointType endpoint with
  | None => Err (ErrNew ("endpoint template not found: " +:+ EndpointType endpoint +:+ " for query " +:+ ID query))
  | Some template =>
      url ← rest_url template endpoint (ID query);
      let processedQuery := substitute (range_of (e_Params endpoint)) (t_Query template) in
      reader ← wrap_error ("failed to create RPC reader for endpoint " +:+ EndpointType endpoint +:+ " in query " +:+ ID query)
        (RpcReader.NewReader url (t_Method template) processedQuery (processed_headers template) (e_ResponsePath endpoint)
           (reader_timeout template query) (e_Params endpoint) (maxSourceRetries query));
      Ok (mkRpcHandler (e_Handler endpoint) reader (e_Invert endpoint) (e_UsdViaID endpoint) (t_Method template) (EndpointType endpoint)
            (e_MarketId endpoint) (EndpointType endpoint) (resolveMaxDataAge (t_MaxDataAgeSecs template) (e_MaxDataAgeSecs endpoint)))
  end.

(** ** Contract endpoints *)
Definition contract_reader (rpc : gmap string (list string)) (query : QueryConfig) (endpoint : EndpointConfig) : go ContractHandler :=
  if bool_decide (e_Handler endpoint = "") || bool_decide (Chain endpoint = "") then
    Err (ErrNew ("contract endpoint missing required fields (handler, chain) for query " +:+ ID query))
  else
    match rpc !! Chain endpoint with
    | None => Err (ErrNew ("no RPC endpoints configured for chain " +:+ Chain endpoint +:+ " in query " +:+ ID query))
    | Some urls =>
        reader ← wrap_error ("failed to create contract reader for chain " +:+ Chain endpoint +:+ " in query " +:+ ID query)
          (ContractReader.NewReader Dial urls (perSourceTimeoutMs query) (maxSourceRetries query));
        Ok (mkContractHandler (e_Handler endpoint) reader (e_MarketId endpoint) (EndpointType endpoint)
              (resolveMaxDataAge 0 (e_MaxDataAgeSecs endpoint)))
    end.

(** ** Combined endpoints *)
Definition value_text (v : toml) : string := match v with TStr s => s | v => Sprint_value v end.

(** The parameters of a source, in the order its table is ranged: a value that is not a table cannot be asserted to be one. *)
Definition source_params (config : gmap string toml) (sourceName : string) : go (list (string * string)) :=
  match config !! (sourceName +:+ "_params") with
  | None => Ok []
  | Some (TTable fields) => Ok ((fun x => (x.1, value_text x.2)) <$> fields)
  | Some _ => Panic (PanicMsg "interface conversion")
  end.

Definition source_path (config : gmap string toml) (sourceName : string) : list string :=
  match config !! (sourceName +:+ "_response_path") with
  | Some (TArr l) => omap (fun v => match v with TStr s => Some s | _ => None end) l
  | _ => []
  end.

Inductive source_reader := SContract (r : ContractReader.Reader) | SRpc (r : RpcReader.Reader).

Definition strip_prefix (pre s : string) : option string := cut pre s.

(** One source; a source of neither type is left out. *)
Definition combined_source (templates : gmap string EndpointTemplate) (rpc : gmap string (list string)) (query : QueryConfig)
    (endpoint : EndpointConfig) (sourceName sourceType : string) : go (option source_reader) :=
  match strip_prefix "contract:" sourceType, strip_prefix "rpc:" sourceType with
  | Some chain, _ =>
      match rpc !! chain with
      | None => Err (ErrNew ("no RPC endpoints configured for chain " +:+ chain +:+ " in combined source " +:+ sourceName +:+ " for query " +:+ ID query))
      | Some urls =>
          reader ← wrap_error ("failed to create contract reader for combined source " +:+ sourceName +:+ " in query " +:+ ID query)
            (ContractReader.NewReader Dial urls (perSourceTimeoutMs query) (maxSourceRetries query));
          Ok (Some (SContract reader))
      end
  | None, Some endpointType =>
      match templates !! endpointType with
      | None => Err (ErrNew ("RPC endpoint template not found: " +:+ endpointType +:+ " for combined source " +:+ sourceName +:+ " in query " +:+ ID query))
      | Some template =>
          params ← source_params (CombinedConfig endpoint) sourceName;
          let url := strings_ReplaceAll (substitute params (URLTemplate template)) "{api_key}" (ApiKey template) in
          let sourceParams : gmap string string := list_to_map params in
          let processedQuery := substitute (range_of sourceParams) (t_Query template) in
          reader ← wrap_error ("failed to create RPC reader for combined source " +:+ sourceName +:+ " in query " +:+ ID query)
            (RpcReader.NewReader url (t_Method template) processedQuery (processed_headers template)
               (source_path (CombinedConfig endpoint) sourceName) (reader_timeout template query) sourceParams (maxSourceRetries query));
          Ok (Some (SRpc reader))
      end
  | None, None => Ok None
  end.

Definition add_source (templates : gmap string EndpointTemplate) (rpc : gmap string (list string)) (query : QueryConfig)
    (endpoint : EndpointConfig) (st : gmap string ContractReader.Reader * gmap string RpcReader.Reader) (source : string * string) :
    go (gmap string ContractReader.Reader * gmap string RpcReader.Reader) :=
  r ← combined_source templates rpc query endpoint source.1 source.2;
  Ok match r with
     | Some (SContract r) => (<[source.1 := r]> st.1, st.2)
     | Some (SRpc r) => (st.1, <[source.1 := r]> st.2)
     | None => st
     end.

(** [float64(n)]. *)
Definition float_of_int (n : Z) : float64 :=
  if n <? 0 then SFopp (float_of_integer (round53 (- n))) else float_of_integer (round53 n).

Definition min_responses (config : gmap string toml) : Z :=
  match config !! "min_responses" with
  | Some (TInt n) => n
  | Some (TFloat x) => RpcHandlers.float_to_int64 x
  | _ => 1
  end.
Definition max_spread_percent (config : gmap string toml) : float64 :=
  match config !! "max_spread_percent" with
  | Some (TFloat x) => x
  | Some (TInt n) => float_of_int n
  | _ => float_of_integer 100
  end.

Definition combined_reader (templates : gmap string EndpointTemplate) (rpc : gmap string (list string)) (query : QueryConfig)
    (endpoint : EndpointConfig) : go CombinedHandler :=
  if bool_decide (e_Handler endpoint = "") then Err (ErrNew ("combined endpoint missing handler for query " +:+ ID query)) else
  '(contracts, rpcs) ← foldM_go (add_source templates rpc query endpoint) (∅, ∅) (range_of (CombinedSources endpoint));
  Ok (mkCombinedHandler (e_Handler endpoint) contracts rpcs (CombinedConfig endpoint) (min_responses (CombinedConfig endpoint))
        (max_spread_percent (CombinedConfig endpoint)) (resolveMaxDataAge 0 (e_MaxDataAgeSecs endpoint))).

(** ** A query and the whole configuration *)
Inductive source := FromContract (h : ContractHandler) | FromRpc (h : RpcHandler) | FromCombined (h : CombinedHandler).

Definition build_endpoint (templates : gmap string EndpointTemplate) (rpc : gmap string (list string)) (query : QueryConfig)
    (endpoint : EndpointConfig) : go source :=
  if bool_decide (EndpointType endpoint = "combined") then FromCombined <$> combined_reader templates rpc query endpoint
  else if bool_decide (EndpointType endpoint = "contract") then FromContract <$> contract_reader rpc query endpoint
  else FromRpc <$> rest_reader templates query endpoint.

Definition contract_of (s : source) : option ContractHandler := match s with FromContract h => Some h | _ => None end.
Definition rpc_of (s : source) : option RpcHandler := match s with FromRpc h => Some h | _ => None end.
Definition combined_of (s : source) : option CombinedHandler := match s with FromCombined h => Some h | _ => None end.

(** The names by which a query calls its sources. *)
Definition with_sources (query : QueryConfig) (sources : list source) : QueryConfig :=
  mkQueryConfig (ID query) (QueryType query) (AggregationMethod query) (MinResponses query) (ResponseType query)
    (MaxSpreadPercent query) (timeouts query)
    ((fun h => mkEndpoint (c_Handler h) "" (c_MarketId h) (c_SourceId h)) <$> omap contract_of sources)
    ((fun h => mkEndpoint (r_Handler h) (r_EndpointID h) (r_MarketId h) (r_SourceId h)) <$> omap rpc_of sources)
    ((fun h => mkEndpoint (k_Handler h) "" "" "") <$> omap combined_of sources).

Definition build_query (templates : gmap string EndpointTemplate) (rpc : gmap string (list string)) (timeoutDefaults : gmap string TimeoutDefaults)
    (q : ConfiguredQuery) : go BuiltQuery :=
  let query := ResolveQueryTimeouts (base q) timeoutDefaults in
  sources ← mapM_go (build_endpoint templates rpc query) (endpoints q);
  Ok (mkBuilt (with_sources query sources) (omap contract_of sources) (omap rpc_of sources) (omap combined_of sources)).

(** The readers of all queries, or the error of the first that has one; queries with one ID
    replace each other. *)
Definition BuildQueryEndpoints (getenv : string -> string) (file : go_error + string) (decode : string -> go_error + Config) :
    go (gmap string BuiltQuery) :=
  match file with
  | inl err => Err (wrapf "error reading toml file" err)
  | inr text =>
      match decode text with
      | inl err => Err (wrapf "error unmarshalling toml file" err)
      | inr config =>
          let rpc := processRPCEndpoints getenv (RPCEndpoints config) in
          let templates := processApiKeys getenv (Endpoints config) in
          let timeoutDefaults := mergedConfigDefaults (Defaults config) in
          foldM_go (fun queryMap x =>
              b ← build_query templates rpc timeoutDefaults x.2;
              Ok (<[ID (base x.2) := b]> queryMap))
            (list_to_map ((fun x => (ID (base x.2), mkBuilt (base x.2) [] [] [])) <$> reverse (range_of (Queries config))))
            (range_of (Queries config))
      end
  end.
End Build.

(** ** Templates

    A template as its bytes and its placeholders; the reference that puts a value in the place
    of each placeholder at once. *)
Inductive segment := Lit (a : ascii) | Var (name : string).
Notation open_brace := "{"%char (only parsing).
Notation close_brace := "}"%char (only parsing).

Definition seg_text (x : segment) : string := match x with Lit a => String a EmptyString | Var n => placeholder n end.
Fixpoint render (t : list segment) : string :=
  match t with [] => EmptyString | x :: t => seg_text x +:+ render t end.

Definition plain_name (n : string) : Prop := n <> EmptyString /\ lacks open_brace n = true /\ lacks close_brace n = true.
Definition plain_segment (x : segment) : Prop :=
  match x with Lit a => Ascii.eqb open_brace a = false | Var n => plain_name n end.

Fixpoint literal (s : string) : list segment :=
  match s with EmptyString => [] | String a s => Lit a :: literal s end.

(** Placeholders of which a value is known. *)
Definition put (value : string -> option string) (t : list segment) : list segment :=
  t ≫= (fun x => match x with
                  | Lit a => [Lit a]
                  | Var n => match value n with Some v => literal v | None => [Var n] end
                  end).
Definition names (t : list segment) : list string := omap (fun x => match x with Var n => Some n | Lit _ => None end) t.

Lemma render_app t u : render (t ++ u) = render t +:+ render u.
Proof. induction t as [|x t IH]; cbn; [done|]. by rewrite IH, string_app_assoc. Qed.
Lemma render_literal s : render (literal s) = s.
Proof. induction s as [|a s IH]; cbn; [done|]. by rewrite IH. Qed.

Lemma replace_skip old new x s : replace_from old new (String.length x) (x +:+ s) = replace_from old new 0 s.
Proof. induction x as [|a x IH]; [done|]. exact IH. Qed.

Lemma replace_copy k v x s :
  lacks open_brace x = true -> replace_from (placeholder k) v 0 (x +:+ s) = x +:+ replace_from (placeholder k) v 0 s.
Proof.
  induction x as [|a x IH]; [done|]. cbn [lacks]. intros [Ha Hx]%andb_true_iff. apply negb_true_iff in Ha.
  change (String a x +:+ s) with (String a (x +:+ s)). cbn [replace_from].
  replace (cut (placeholder k) (String a (x +:+ s))) with (@None string); [by rewrite IH|].
  change (placeholder k) with (String "{" (k +:+ "}")). cbn [cut]. by rewrite Ha.
Qed.

Lemma cut_placeholder k n s :
  plain_name k -> plain_name n ->
  cut (placeholder k) (placeholder n +:+ s) = if bool_decide (n = k) then Some s else None.
Proof.
  intros (_ & _ & Hk) (_ & _ & Hn). case_bool_decide as E; [subst; apply cut_app|].
  destruct (cut _ _) as [rest|] eqn:Ec; [|done]. apply cut_Some in Ec. unfold placeholder in Ec.
  rewrite !string_app_assoc in Ec. injection Ec as Ec. by apply split_at_char in Ec as [-> _].
Qed.

Definition only (k v n : string) : option string := if bool_decide (n = k) then Some v else None.
Fixpoint assoc (params : list (string * string)) (n : string) : option string :=
  match params with
  | [] => None
  | (k, v) :: params => if bool_decide (n = k) then Some v else assoc params n
  end.

Lemma lacks_app a s t : lacks a (s +:+ t) = lacks a s && lacks a t.
Proof. induction s as [|b s IH]; [done|]. change (String b s +:+ t) with (String b (s +:+ t)). cbn [lacks]. by rewrite IH, andb_assoc. Qed.

Lemma literal_plain v : lacks open_brace v = true -> Forall plain_segment (literal v).
Proof.
  induction v as [|a v IH]; [constructor|]. cbn [lacks literal]. intros [Ha Hv]%andb_true_iff. apply negb_true_iff in Ha.
  constructor; [exact Ha|by apply IH].
Qed.

Lemma put_cons value x t : put value (x :: t) = put value [x] ++ put value t.
Proof. unfold put. cbn. by rewrite app_nil_r. Qed.

Lemma put_plain value t :
  Forall plain_segment t -> (forall n v, value n = Some v -> lacks open_brace v = true) -> Forall plain_segment (put value t).
Proof.
  intros Ht Hv. induction Ht as [|x t Hx _ IH]; [constructor|]. rewrite put_cons. apply Forall_app. split; [|done].
  destruct x as [a|n]; cbn; [by constructor|]. destruct (value n) as [v|] eqn:E; cbn; rewrite ?app_nil_r; [by eapply literal_plain, Hv|by constructor].
Qed.

Lemma replace_render k v t :
  plain_name k -> Forall plain_segment t -> strings_ReplaceAll (render t) (placeholder k) v = render (put (only k v) t).
Proof.
  intros Hk Ht. unfold strings_ReplaceAll. induction Ht as [|x t Hx _ IH]; [done|]. rewrite put_cons, render_app, <- IH. cbn [render].
  destruct x as [a|n]; cbn [seg_text].
  - rewrite replace_copy; [done|]. cbn [lacks]. by rewrite Hx.
  - pose proof Hx as (_ & Ho & _). pose proof (cut_placeholder k n (render t) Hk Hx) as Hc.
    assert (lacks open_brace (n +:+ "}") = true) as Hl by (by rewrite lacks_app, Ho).
    change (placeholder n +:+ render t) with (String "{" ((n +:+ "}") +:+ render t)) in *. cbn [replace_from].
    rewrite Hc. unfold only. cbn [put mbind list_bind app].
    case_bool_decide as E; subst; cbn [app]; rewrite ?app_nil_r.
    + rewrite render_literal. f_equal. change (String.length (placeholder k) - 1)%nat with (String.length (k +:+ "}") - 0)%nat.
      rewrite Nat.sub_0_r. apply replace_skip.
    + rewrite replace_copy by done. cbn [render seg_text]. by rewrite string_app_nil_r.
Qed.

Lemma put_put params k v t : put (assoc params) (put (only k v) t) = put (assoc ((k, v) :: params)) t.
Proof.
  induction t as [|x t IH]; [done|]. rewrite (put_cons (only k v)), (put_cons (assoc ((k, v) :: params))), <- IH.
  unfold put at 1. rewrite bind_app. f_equal. destruct x as [a|n]; cbn; [done|]. unfold only. case_bool_decide; cbn; [|done].
  rewrite !app_nil_r. clear IH. induction v as [|b v IHv]; cbn; [done|]. by rewrite IHv.
Qed.

Lemma put_none t : put (fun _ => None) t = t.
Proof. induction t as [|[a|n] t IH]; [done|..]; rewrite put_cons, IH; done. Qed.

Lemma put_ext f g t : (forall n, f n = g n) -> put f t = put g t.
Proof. intros E. induction t as [|[a|n] t IH]; [done|..]; rewrite (put_cons f), (put_cons g), IH; [done|]. unfold put. cbn. by rewrite E. Qed.

Definition plain_params (params : list (string * string)) : Prop :=
  Forall (fun x => plain_name x.1 /\ lacks open_brace x.2 = true) params.

Lemma substitute_render params t :
  plain_params params -> Forall plain_segment t -> substitute params (render t) = render (put (assoc params) t).
Proof.
  intros Hp. revert t. induction Hp as [|[k v] params [Hk Hv] _ IH]; intros t Ht; cbn [substitute].
  - by rewrite put_none.
  - rewrite replace_render, IH, put_put; try done. apply put_plain; [done|]. unfold only. intros n w. case_bool_decide; [by intros [= <-]|done].
Qed.

Lemma assoc_range {RO : RangeOrder} (m : gmap string string) n : assoc (range_of m) n = m !! n.
Proof.
  assert (forall l, NoDup l.*1 -> assoc l n = (list_to_map l : gmap string string) !! n) as E.
  { induction l as [|[k v] l IH]; [done|]. cbn. intros [Hk Hl]%NoDup_cons. case_bool_decide as En.
    - subst. by rewrite lookup_insert_eq.
    - rewrite lookup_insert_ne by done. by apply IH. }
  rewrite E by apply range_of_NoDup_keys.
  rewrite (list_to_map_proper (range_of m) (map_to_list m)); [by rewrite list_to_map_to_list|apply range_of_NoDup_keys|apply range_of_perm].
Qed.

Lemma put_ext_names f g t : (forall n, n ∈ names t -> f n = g n) -> put f t = put g t.
Proof.
  induction t as [|[a|n] t IH]; intros E; [done|..]; rewrite (put_cons f), (put_cons g), IH.
  - done.
  - intros m Hm. by apply E.
  - unfold put. cbn. rewrite (E n); [done|left].
  - intros m Hm. apply E. by right.
Qed.

Lemma brace_name_plain n s : lacks open_brace n = true -> lacks close_brace n = true -> brace_name (n +:+ String close_brace s) = Some n.
Proof.
  induction n as [|a n IH]; [done|]. cbn [lacks]. intros [Ha Hn]%andb_true_iff [Hb Hm]%andb_true_iff.
  apply negb_true_iff in Ha, Hb. change (String a n +:+ String close_brace s) with (String a (n +:+ String close_brace s)). cbn [brace_name].
  rewrite Ascii.eqb_sym, Hb, Ascii.eqb_sym, Ha, IH by done. done.
Qed.

Lemma placeholders_copy x s : lacks open_brace x = true -> placeholders (x +:+ s) = placeholders s.
Proof.
  induction x as [|a x IH]; [done|]. cbn [lacks]. intros [Ha Hx]%andb_true_iff. apply negb_true_iff in Ha.
  change (String a x +:+ s) with (String a (x +:+ s)). cbn [placeholders]. by rewrite Ascii.eqb_sym, Ha, IH.
Qed.

Lemma placeholders_render t : Forall plain_segment t -> placeholders (render t) = names t.
Proof.
  induction 1 as [|[a|n] t Hx _ IH]; [done|..]; cbn [render seg_text].
  - rewrite placeholders_copy; [done|]. cbn [lacks]. by rewrite Hx.
  - destruct Hx as (Hne & Ho & Hc). change (placeholder n +:+ render t) with (String open_brace ((n +:+ "}") +:+ render t)).
    cbn [placeholders]. rewrite placeholders_copy by (by rewrite lacks_app, Ho). rewrite IH, string_app_assoc.
    unfold nonempty_name. change ("}" +:+ render t) with (String close_brace (render t)). rewrite brace_name_plain by done.
    by destruct n.
Qed.

Section RestUrl.
Context {RO : RangeOrder}.
Variables (template : EndpointTemplate) (endpoint : EndpointConfig).

(** The value of a placeholder: a parameter, or the API key. *)
Definition url_value (n : string) : option string :=
  match e_Params endpoint !! n with
  | Some v => Some v
  | None => only "api_key" (ApiKey template) n
  end.

Definition uses_key (l : list string) : bool :=
  bool_decide ("api_key" ∈ l /\ e_Params endpoint !! "api_key" = None).

Hypothesis key_plain : lacks open_brace (ApiKey template) = true.

Lemma check_placeholders_spec l missing_in t :
  Forall plain_segment t ->
  match check_placeholders l (e_Params endpoint) (ApiKey template) missing_in (render t) with
  | Ok url => Forall (fun n => is_Some (url_value n)) l /\
      url = render (if uses_key l then put (only "api_key" (ApiKey template)) t else t)
  | Err err => exists n, n ∈ l /\ url_value n = None /\ err = ErrNew ("missing required parameter " +:+ n +:+ missing_in)
  | Panic _ => False
  end.
Proof using key_plain.
  assert (plain_name "api_key") as Hk by done.
  assert (forall t, put (only "api_key" (ApiKey template)) (put (only "api_key" (ApiKey template)) t) = put (only "api_key" (ApiKey template)) t) as Hidem.
  { intros u. change (only "api_key" (ApiKey template)) with (assoc [("api_key", ApiKey template)]) at 1. rewrite put_put.
    apply put_ext. intros n. cbn. unfold only. by case_bool_decide. }
  revert t. induction l as [|n l IH]; intros t Ht; cbn [check_placeholders]; [by split|].
  destruct (e_Params endpoint !! n) as [v|] eqn:En.
  - specialize (IH t Ht). destruct (check_placeholders _ _ _ _ _) as [url|err|p]; [|destruct IH as (n' & ? & ?); exists n'; by split; [right|]|done].
    destruct IH as [Hall ->]. split; [constructor; [unfold url_value; rewrite En; by eexists|done]|].
    unfold uses_key. f_equal. apply bool_decide_ext_if. split; intros [Hin Hno]; split; try done; [by right|].
    apply elem_of_cons in Hin as [<-|?]; [congruence|done].
  - case_bool_decide as E; [subst|exists n; split; [left|]; split; [|done]; unfold url_value, only; by rewrite En, bool_decide_false].
    change "{api_key}" with (placeholder "api_key"). rewrite replace_render by done.
    assert (Forall plain_segment (put (only "api_key" (ApiKey template)) t)) as Ht'.
    { apply put_plain; [done|]. unfold only. intros n w. case_bool_decide; [by intros [= <-]|done]. }
    specialize (IH _ Ht'). destruct (check_placeholders _ _ _ _ _) as [url|err|p]; [|destruct IH as (n' & ? & ?); exists n'; by split; [right|]|done].
    destruct IH as [Hall ->]. split.
    + constructor; [|done]. unfold url_value, only. rewrite En, bool_decide_true by done. by eexists.
    + unfold uses_key at 2. rewrite bool_decide_true by (split; [left|done]). rewrite Hidem. by destruct (uses_key l).
Qed.

Lemma rest_url_spec t queryID :
  URLTemplate template = render t -> Forall plain_segment t ->
  map_Forall (fun k v => plain_name k /\ lacks open_brace v = true) (e_Params endpoint) ->
  match rest_url template endpoint queryID with
  | Ok url => Forall (fun n => is_Some (url_value n)) (names t) /\ url = render (put url_value t) /\ placeholders url = []
  | Err err => exists n, n ∈ names t /\ url_value n = None /\
      err = ErrNew ("missing required parameter " +:+ n +:+ " for endpoint " +:+ EndpointType endpoint +:+ " in query " +:+ queryID)
  | Panic _ => False
  end.
Proof using key_plain.
  intros Et Ht Hp. unfold rest_url. cbv zeta. rewrite Et, placeholders_render by done.
  pose proof (check_placeholders_spec (names t) (" for endpoint " +:+ EndpointType endpoint +:+ " in query " +:+ queryID) t Ht) as Hc.
  destruct (check_placeholders _ _ _ _ _) as [url|err|p]; cbn [mbind go_bind]; [|exact Hc|done].
  destruct Hc as [Hall ->].
  assert (plain_params (range_of (e_Params endpoint))) as Hpp.
  { apply Forall_forall. intros [k v] Hin%elem_of_range_of. by apply Hp. }
  assert (substitute (range_of (e_Params endpoint)) (render (if uses_key (names t) then put (only "api_key" (ApiKey template)) t else t))
    = render (put url_value t)) as ->.
  { unfold uses_key. case_bool_decide as Hu.
    - rewrite substitute_render, put_put; [|done|].
      + f_equal. apply put_ext. intros n. cbn [assoc]. unfold url_value, only. case_bool_decide as E; subst.
        * destruct Hu as [_ ->]. done.
        * rewrite assoc_range. by destruct (e_Params endpoint !! n).
      + apply put_plain; [done|]. unfold only. intros n w. case_bool_decide; [by intros [= <-]|done].
    - rewrite substitute_render by done. f_equal. apply put_ext_names. intros n Hn. rewrite assoc_range. unfold url_value, only.
      destruct (e_Params endpoint !! n) eqn:En; [done|]. case_bool_decide; [subst; tauto|done]. }
  assert (placeholders (render (put url_value t)) = []) as Hnone.
  { rewrite placeholders_render.
    - clear -Hall. induction t as [|[a|n] t IH]; [done|by apply IH|]. cbn [names] in Hall. cbn in Hall. apply Forall_cons in Hall as [[v Hv] Hall].
      rewrite put_cons. unfold put at 1. cbn. rewrite Hv, app_nil_r. unfold names in *. rewrite omap_app, IH by done. rewrite app_nil_r.
      clear. induction v; cbn; done.
    - apply put_plain; [done|]. unfold url_value, only. intros n v. destruct (e_Params endpoint !! n) as [w|] eqn:En.
      + intros [= <-]. by apply (Hp n w).
      + case_bool_decide; [by intros [= <-]|done]. }
  rewrite bool_decide_true by done. done.
Qed.

(** For a URL template with proper placeholders, and parameters and an API key without opening braces, the URL of a REST endpoint
    is the template with every placeholder replaced at once by its parameter, or by the API key, in whatever
    order the parameters are ranged; a placeholder that has neither is the error, and nothing is left unreplaced. *)
Theorem rest_url_correct t queryID :
  URLTemplate template = render t -> Forall plain_segment t ->
  map_Forall (fun k v => plain_name k /\ lacks open_brace v = true) (e_Params endpoint) ->
  match rest_url template endpoint queryID with
  | Ok url => Forall (fun n => is_Some (url_value n)) (names t) /\ url = render (put url_value t) /\ placeholders url = []
  | Err err => exists n, n ∈ names t /\ url_value n = None /\
      err = ErrNew ("missing required parameter " +:+ n +:+ " for endpoint " +:+ EndpointType endpoint +:+ " in query " +:+ queryID)
  | Panic _ => False
  end.
Proof using key_plain. apply rest_url_spec. Qed.
End RestUrl.

(** ** The expansion of environment variables *)
Definition opens (s : string) : bool := match s with String b _ => Ascii.eqb open_brace b | EmptyString => false end.

Lemma contains_open_cons a s : contains "${" (String a s) = Ascii.eqb "$" a && opens s || contains "${" s.
Proof.
  unfold contains. cbn [matches]. destruct s as [|b s]; cbn [cut opens].
  - destruct (Ascii.eqb "$" a); reflexivity.
  - destruct (Ascii.eqb "$" a); [|reflexivity]. destruct (Ascii.eqb open_brace b); reflexivity.
Qed.

Lemma contains_open_app x s : lacks "$" x = true -> contains "${" s = false -> contains "${" (x +:+ s) = false.
Proof.
  intros Hx Hs. induction x as [|a x IH]; [done|]. cbn [lacks] in Hx. apply andb_true_iff in Hx as [Ha Hx]. apply negb_true_iff in Ha.
  change (String a x +:+ s) with (String a (x +:+ s)). rewrite contains_open_cons, Ha. by apply IH.
Qed.

(** A variable that is not set does not leave its name in the text: it is empty, and the check of
    [processRPCEndpoints] for names that are left never finds one. *)
Lemma ExpandEnv_no_names getenv s :
  (forall n, lacks "$" (getenv n) = true) -> contains "${" (ExpandEnv getenv s) = false.
Proof.
  intros He. unfold ExpandEnv. generalize O as skip. induction s as [|a t IH]; intros skip; [done|]. cbn [expand_from].
  destruct skip as [|skip]; [|apply IH]. destruct (Ascii.eqb a "$") eqn:Ea; cbn [andb].
  - case_bool_decide as Et; cbn [negb].
    + subst. rewrite contains_open_cons. cbn. by rewrite andb_false_r.
    + destruct (getShellName t) as [[|b n] w] eqn:Eg; [destruct w|]; try apply IH; [|by apply contains_open_app].
      rewrite contains_open_cons, IH, orb_false_r. destruct t as [|b u]; [done|]. unfold getShellName in Eg. cbn [expand_from].
      destruct (Ascii.eqb b "{") eqn:Eb.
      { exfalso. destruct u as [|c [|d u]]; [by destruct (to_brace _)..|].
        destruct (is_shell_special c && _); [done|]. by destruct (to_brace _) as [[|x y]|]. }
      destruct (is_shell_special b) eqn:Es; [done|]. destruct (Ascii.eqb b "$") eqn:Ed.
      { apply Ascii.eqb_eq in Ed as ->. done. }
      cbn [andb opens]. rewrite (Ascii.eqb_sym open_brace b), Eb. by rewrite andb_false_r.
  - rewrite contains_open_cons, IH, orb_false_r. by rewrite Ascii.eqb_sym, Ea.
Qed.

(** ** What the reader of an endpoint is

    The conditions under which an endpoint has a reader, and this reader, by the type of the
    endpoint. *)
Section Served.
Context {RO : RangeOrder}.
Variable Dial : string -> option go_error.
Variable Sprint_value : toml -> string.
Variables (templates : gmap string EndpointTemplate) (rpc : gmap string (list string)) (query : QueryConfig).

Definition contract_source (chain : string) (r : ContractReader.Reader) : Prop :=
  exists urls, rpc !! chain = Some urls /\
    ContractReader.NewReader Dial urls (perSourceTimeoutMs query) (maxSourceRetries query) = Ok r.

(** An RPC source of a combined endpoint: the template of its type with the parameters of the source. *)
Definition rpc_source (e : EndpointConfig) (sourceName endpointType : string) (r : RpcReader.Reader) : Prop :=
  exists template params, templates !! endpointType = Some template /\
    source_params Sprint_value (CombinedConfig e) sourceName = Ok params /\
    RpcReader.NewReader (strings_ReplaceAll (substitute params (URLTemplate template)) "{api_key}" (ApiKey template))
      (t_Method template) (substitute (range_of (list_to_map params : gmap string string)) (t_Query template))
      (processed_headers template) (source_path (CombinedConfig e) sourceName) (reader_timeout template query)
      (list_to_map params) (maxSourceRetries query) = Ok r.

Inductive served_by (e : EndpointConfig) : source -> Prop :=
  | served_combined contracts rpcs :
      EndpointType e = "combined" -> e_Handler e <> "" ->
      (forall name r, contracts !! name = Some r <->
         exists chain, CombinedSources e !! name = Some ("contract:" +:+ chain) /\ contract_source chain r) ->
      (forall name r, rpcs !! name = Some r <->
         exists ty, CombinedSources e !! name = Some ("rpc:" +:+ ty) /\ rpc_source e name ty r) ->
      (forall name chain, CombinedSources e !! name = Some ("contract:" +:+ chain) -> is_Some (contracts !! name)) ->
      (forall name ty, CombinedSources e !! name = Some ("rpc:" +:+ ty) -> is_Some (rpcs !! name)) ->
      served_by e (FromCombined (mkCombinedHandler (e_Handler e) contracts rpcs (CombinedConfig e)
        (min_responses (CombinedConfig e)) (max_spread_percent (CombinedConfig e)) (resolveMaxDataAge 0 (e_MaxDataAgeSecs e))))
  | served_contract reader :
      EndpointType e = "contract" -> e_Handler e <> "" -> Chain e <> "" -> contract_source (Chain e) reader ->
      served_by e (FromContract (mkContractHandler (e_Handler e) reader (e_MarketId e) "contract"
        (resolveMaxDataAge 0 (e_MaxDataAgeSecs e))))
  | served_rest template url reader :
      EndpointType e <> "combined" -> EndpointType e <> "contract" -> templates !! EndpointType e = Some template ->
      rest_url template e (ID query) = Ok url ->
      Forall (fun n => n = "api_key" \/ is_Some (e_Params e !! n)) (placeholders (URLTemplate template)) ->
      placeholders url = [] ->
      RpcReader.NewReader url (t_Method template) (substitute (range_of (e_Params e)) (t_Query template))
        (processed_headers template) (e_ResponsePath e) (reader_timeout template query) (e_Params e) (maxSourceRetries query) = Ok reader ->
      served_by e (FromRpc (mkRpcHandler (e_Handler e) reader (e_Invert e) (e_UsdViaID e) (t_Method template) (EndpointType e)
        (e_MarketId e) (EndpointType e) (resolveMaxDataAge (t_MaxDataAgeSecs template) (e_MaxDataAgeSecs e)))).

Lemma wrap_error_Ok {A} label (m : go A) a : wrap_error label m = Ok a <-> m = Ok a.
Proof using Type. by destruct m. Qed.

Lemma combined_source_contract e name chain :
  (forall o, combined_source Dial Sprint_value templates rpc query e name ("contract:" +:+ chain) = Ok o <->
     exists r, o = Some (SContract r) /\ contract_source chain r).
Proof using Type.
  intros o. unfold combined_source, strip_prefix, contract_source. rewrite cut_app. cbn [cut].
  destruct (rpc !! chain) as [urls|]; [|split; [done|by intros (? & _ & ? & ? & _)]].
  rewrite go_bind_Ok. setoid_rewrite wrap_error_Ok. split.
  - intros (r & Hr & [= <-]). exists r. split; [done|]. by exists urls.
  - intros (r & -> & urls' & [= <-] & Hr). by exists r.
Qed.

Lemma combined_source_rpc e name ty :
  (forall o, combined_source Dial Sprint_value templates rpc query e name ("rpc:" +:+ ty) = Ok o <->
     exists r, o = Some (SRpc r) /\ rpc_source e name ty r).
Proof using Type.
  intros o. unfold combined_source, strip_prefix, rpc_source. rewrite (cut_app "rpc:").
  assert (cut "contract:" ("rpc:" +:+ ty) = None) as -> by reflexivity.
  destruct (templates !! ty) as [template|]; [|split; [done|by intros (? & _ & ? & ? & ? & _)]].
  cbv zeta. rewrite go_bind_Ok. setoid_rewrite go_bind_Ok. setoid_rewrite wrap_error_Ok. split.
  - intros (params & Hp & r & Hr & [= <-]). exists r. split; [done|]. by exists template, params.
  - intros (r & -> & template' & params & [= <-] & Hp & Hr). exists params. split; [done|]. by exists r.
Qed.

Lemma combined_source_other e name s :
  (forall chain, s <> "contract:" +:+ chain) -> (forall ty, s <> "rpc:" +:+ ty) ->
  combined_source Dial Sprint_value templates rpc query e name s = Ok None.
Proof using Type.
  intros Hc Hr. unfold combined_source, strip_prefix.
  destruct (cut "contract:" s) as [chain|] eqn:E; [apply cut_Some in E; by destruct (Hc chain)|].
  destruct (cut "rpc:" s) as [ty|] eqn:E'; [apply cut_Some in E'; by destruct (Hr ty)|]. done.
Qed.

(** A source type, by its prefix. *)
Lemma source_type_cases s :
  (exists chain, s = "contract:" +:+ chain) \/ (exists ty, s = "rpc:" +:+ ty) \/
  ((forall chain, s <> "contract:" +:+ chain) /\ forall ty, s <> "rpc:" +:+ ty).
Proof using Type.
  destruct (cut "contract:" s) as [chain|] eqn:E; [left; exists chain; by apply cut_Some|right].
  destruct (cut "rpc:" s) as [ty|] eqn:E'; [left; exists ty; by apply cut_Some|right].
  split; intros x ->; rewrite cut_app in *; done.
Qed.

Abbreviation source_of e x := (combined_source Dial Sprint_value templates rpc query e x.1 x.2).

Lemma add_sources_spec e l st st' :
  NoDup l.*1 -> foldM_go (add_source Dial Sprint_value templates rpc query e) st l = Ok st' ->
  (forall name, name ∉ l.*1 -> st'.1 !! name = st.1 !! name /\ st'.2 !! name = st.2 !! name) /\
  forall x, x ∈ l -> exists o, source_of e x = Ok o /\
    st'.1 !! x.1 = (match o with Some (SContract r) => Some r | _ => st.1 !! x.1 end) /\
    st'.2 !! x.1 = (match o with Some (SRpc r) => Some r | _ => st.2 !! x.1 end).
Proof using Type.
  revert st. induction l as [|x l IH]; intros st; cbn [foldM_go].
  { intros _ [= <-]. split; [done|]. intros x Hx. by apply not_elem_of_nil in Hx. }
  rewrite fmap_cons, NoDup_cons. intros [Hx Hnd] H. apply go_bind_Ok in H as (st1 & H1 & H2).
  unfold add_source in H1. apply go_bind_Ok in H1 as (o & Ho & [= <-]). destruct (IH _ Hnd H2) as [Hrest Hall]. split.
  - intros name [Hn1 Hn2]%not_elem_of_cons. destruct (Hrest name Hn2) as [-> ->].
    destruct o as [[r|r]|]; cbn; by rewrite ?lookup_insert_ne.
  - intros y [->|Hy]%elem_of_cons.
    + exists o. split; [done|]. destruct (Hrest x.1 Hx) as [-> ->]. destruct o as [[r|r]|]; cbn; by rewrite ?lookup_insert_eq.
    + destruct (Hall y Hy) as (o' & Ho' & -> & ->). exists o'. split; [done|].
      assert (x.1 <> y.1) as Hne by (intros E; apply Hx; rewrite E; by apply list_elem_of_fmap_2).
      destruct o as [[r|r]|], o' as [[r'|r']|]; cbn; by rewrite ?lookup_insert_ne.
Qed.

Lemma all_sources_added e l st :
  (forall x, x ∈ l -> exists o, source_of e x = Ok o) ->
  exists st', foldM_go (add_source Dial Sprint_value templates rpc query e) st l = Ok st'.
Proof using Type.
  revert st. induction l as [|x l IH]; intros st Hl; cbn [foldM_go]; [by eexists|].
  destruct (Hl x) as [o Ho]; [by left|]. unfold add_source at 2. rewrite Ho. cbn [mbind go_bind].
  apply IH. intros y Hy. apply Hl. by right.
Qed.

Lemma check_placeholders_known names params apiKey missing url url' :
  check_placeholders names params apiKey missing url = Ok url' ->
  Forall (fun n => n = "api_key" \/ is_Some (params !! n)) names.
Proof using Type.
  revert url. induction names as [|n names IH]; intros url; cbn [check_placeholders]; [constructor|].
  destruct (params !! n) as [v|] eqn:E; [intros H; constructor; [right; by exists v|by eapply IH]|].
  case_bool_decide as Ek; [intros H; constructor; [by left|by eapply IH]|done].
Qed.

Lemma rest_url_checked template e id url :
  rest_url template e id = Ok url ->
  Forall (fun n => n = "api_key" \/ is_Some (e_Params e !! n)) (placeholders (URLTemplate template)) /\ placeholders url = [].
Proof using Type.
  unfold rest_url. intros (url' & H1%check_placeholders_known & H2)%go_bind_Ok. split; [exact H1|].
  case_bool_decide as E; [by injection H2 as <-|done].
Qed.

Lemma combined_reader_served e h :
  EndpointType e = "combined" -> combined_reader Dial Sprint_value templates rpc query e = Ok h -> served_by e (FromCombined h).
Proof using Type.
  intros Ht. unfold combined_reader. case_bool_decide as Eh; [done|].
  intros ([contracts rpcs] & Hf & [= <-])%go_bind_Ok.
  destruct (add_sources_spec e _ _ _ (range_of_NoDup_keys _) Hf) as [Hrest Hall]. cbn in Hrest, Hall.
  assert (forall name, CombinedSources e !! name = None -> contracts !! name = None /\ rpcs !! name = None) as Hno.
  { intros name Hn. apply Hrest. intros ([name' ty] & -> & Hin%elem_of_range_of)%list_elem_of_fmap. cbn in Hn. congruence. }
  assert (forall name s, CombinedSources e !! name = Some s -> exists o,
    combined_source Dial Sprint_value templates rpc query e name s = Ok o /\
    contracts !! name = (match o with Some (SContract r) => Some r | _ => None end) /\
    rpcs !! name = (match o with Some (SRpc r) => Some r | _ => None end)) as Hsome.
  { intros name s Hs. destruct (Hall (name, s)) as (o & Ho & H1 & H2); [by apply elem_of_range_of|]. exists o. cbn in *.
    split; [done|]. by rewrite H1, H2, !lookup_empty. }
  clear Hrest Hall Hf. constructor; [done|done| | | |].
  - intros name r. split.
    + intros Hr. destruct (CombinedSources e !! name) as [s|] eqn:Es; [|destruct (Hno name Es); congruence].
      destruct (Hsome name s Es) as (o & Ho & H1 & _). rewrite H1 in Hr.
      destruct (source_type_cases s) as [[chain ->]|[[ty ->]|[Hc Hr']]].
      * apply combined_source_contract in Ho as (r' & -> & Hc). injection Hr as ->. by exists chain.
      * by apply combined_source_rpc in Ho as (r' & -> & _).
      * rewrite combined_source_other in Ho by done. by injection Ho as <-.
    + intros (chain & Es & Hc). destruct (Hsome name _ Es) as (o & Ho & H1 & _).
      apply combined_source_contract in Ho as (r' & -> & Hc'). rewrite H1.
      destruct Hc as (urls & Hu & Hc), Hc' as (urls' & Hu' & Hc'). congruence.
  - intros name r. split.
    + intros Hr. destruct (CombinedSources e !! name) as [s|] eqn:Es; [|destruct (Hno name Es); congruence].
      destruct (Hsome name s Es) as (o & Ho & _ & H2). rewrite H2 in Hr.
      destruct (source_type_cases s) as [[chain ->]|[[ty ->]|[Hc Hr']]].
      * by apply combined_source_contract in Ho as (r' & -> & _).
      * apply combined_source_rpc in Ho as (r' & -> & Hc). injection Hr as ->. by exists ty.
      * rewrite combined_source_other in Ho by done. by injection Ho as <-.
    + intros (ty & Es & Hc). destruct (Hsome name _ Es) as (o & Ho & _ & H2).
      apply combined_source_rpc in Ho as (r' & -> & Hc'). rewrite H2.
      destruct Hc as (t1 & p1 & Ht1 & Hp1 & Hc), Hc' as (t2 & p2 & Ht2 & Hp2 & Hc'). congruence.
  - intros name chain Es. destruct (Hsome name _ Es) as (o & Ho & -> & _).
    by apply combined_source_contract in Ho as (r' & -> & _).
  - intros name ty Es. destruct (Hsome name _ Es) as (o & Ho & _ & ->).
    by apply combined_source_rpc in Ho as (r' & -> & _).
Qed.

Lemma build_endpoint_served e s :
  build_endpoint Dial Sprint_value templates rpc query e = Ok s -> served_by e s.
Proof using Type.
  unfold build_endpoint. case_bool_decide as Ec; [|case_bool_decide as Ek].
  - destruct (combined_reader _ _ _ _ _ _) as [h| |] eqn:E; [|done..]. intros [= <-]. by apply combined_reader_served.
  - unfold contract_reader. destruct (bool_decide_reflect (e_Handler e = "")) as [|Hh]; [done|].
    destruct (bool_decide_reflect (Chain e = "")) as [|Hch]; [done|]. cbn [orb].
    destruct (rpc !! Chain e) as [urls|] eqn:Eu; [|done].
    destruct (ContractReader.NewReader _ _ _ _) as [r| |] eqn:Er; [|done..]. intros [= <-]. rewrite Ek.
    constructor; try done. by exists urls.
  - unfold rest_reader. destruct (templates !! EndpointType e) as [template|] eqn:Et; [|done].
    destruct (rest_url template e (ID query)) as [url| |] eqn:Eu; [|done..]. cbn [mbind go_bind].
    destruct (RpcReader.NewReader _ _ _ _ _ _ _ _) as [r| |] eqn:Er; [|done..]. intros [= <-].
    destruct (rest_url_checked _ _ _ _ Eu) as [H1 H2]. by eapply served_rest.
Qed.

Lemma served_build_endpoint e s :
  served_by e s -> exists s', build_endpoint Dial Sprint_value templates rpc query e = Ok s'.
Proof using Type.
  unfold build_endpoint. intros Hs. destruct Hs as [contracts rpcs Et Hh Hc Hr Hc' Hr'|reader Et Hh Hch (urls & Hu & Hr)|template url reader E1 E2 Et Hu _ _ Hr].
  - rewrite bool_decide_true by done. unfold combined_reader. rewrite bool_decide_false by done.
    destruct (all_sources_added e (range_of (CombinedSources e)) (∅, ∅)) as [[x y] ->]; [|by eexists].
    intros [name s] Hin%elem_of_range_of. cbn [fst snd]. destruct (source_type_cases s) as [[chain ->]|[[ty ->]|[H1 H2]]].
    + destruct (Hc' _ _ Hin) as [r Hx]. apply Hc in Hx as (chain' & Ex & Hx). rewrite Ex in Hin. injection Hin as Hin.
      exists (Some (SContract r)). apply combined_source_contract. exists r. split; [done|]. change (chain' = chain) in Hin. congruence.
    + destruct (Hr' _ _ Hin) as [r Hx]. apply Hr in Hx as (ty' & Ex & Hx). rewrite Ex in Hin. injection Hin as Hin.
      exists (Some (SRpc r)). apply combined_source_rpc. exists r. split; [done|]. change (ty' = ty) in Hin. congruence.
    + exists None. by apply combined_source_other.
  - rewrite bool_decide_false by (by rewrite Et). rewrite bool_decide_true by done. unfold contract_reader.
    rewrite !bool_decide_false by done. cbn [orb]. rewrite Hu, Hr. by eexists.
  - rewrite !bool_decide_false by done. unfold rest_reader. rewrite Et, Hu. cbn [mbind go_bind]. rewrite Hr. by eexists.
Qed.
End Served.

(** ** The whole configuration *)
Section BuildAll.
Context {A B : Type}.
Variables (id : A -> string) (build : A -> go B).

Definition add_built (m : gmap string B) (x : A) : go (gmap string B) := b ← build x; Ok (<[id x := b]> m).

Lemma add_built_all l m0 m :
  foldM_go add_built m0 l = Ok m -> NoDup (id <$> l) ->
  Forall (fun x => exists b, build x = Ok b /\ m !! id x = Some b) l /\
  forall k, k ∉ id <$> l -> m !! k = m0 !! k.
Proof using Type.
  revert m0. induction l as [|x l IH]; intros m0; [by intros [= <-]|]. rewrite fmap_cons. cbn [foldM_go].
  unfold add_built at 1. intros H%go_bind_Ok [Hx Hnd]%NoDup_cons. destruct H as (m1 & H1 & H2).
  apply go_bind_Ok in H1 as (b & Hb & [= <-]). destruct (IH _ H2 Hnd) as [Hall Hrest]. split.
  - constructor; [|done]. exists b. split; [done|]. rewrite Hrest by done. apply lookup_insert_eq.
  - intros k [Hk1 Hk2]%not_elem_of_cons. rewrite Hrest by done. by apply lookup_insert_ne.
Qed.

Lemma add_built_ok l m0 : (exists m, foldM_go add_built m0 l = Ok m) <-> Forall (fun x => exists b, build x = Ok b) l.
Proof using Type.
  revert m0. induction l as [|x l IH]; intros m0; cbn [foldM_go]; [split; [constructor|by eexists]|].
  change (add_built m0 x) with (b ← build x; Ok (<[id x := b]> m0)). rewrite Forall_cons, <- (IH (match build x with Ok b => <[id x := b]> m0 | _ => m0 end)).
  destruct (build x) as [b|err|p]; cbn [mbind go_bind]; split.
  1: intros H; split; [by eexists|exact H].
  1: by intros [_ H].
  all: first [by intros [? ?]|by intros [[? ?] ?]].
Qed.
End BuildAll.

Lemma length_sources sources :
  (length (omap rpc_of sources) + length (omap contract_of sources) + length (omap combined_of sources))%nat = length sources.
Proof. induction sources as [|[] l IH]; cbn; lia. Qed.

Section Whole.
Context {RO : RangeOrder}.
Variable Dial : string -> option go_error.
Variable Sprint_value : toml -> string.
Variable getenv : string -> string.

Notation rpc config := (processRPCEndpoints getenv (RPCEndpoints config)).
Notation templates config := (processApiKeys getenv (Endpoints config)).
Notation resolved config q := (ResolveQueryTimeouts (base q) (mergedConfigDefaults (Defaults config))).
Notation endpoint_ok config q e := (build_endpoint Dial Sprint_value (templates config) (rpc config) (resolved config q) e).

Notation served config q := (served_by Dial Sprint_value (templates config) (rpc config) (resolved config q)).

Lemma build_query_Ok config q b :
  build_query Dial Sprint_value (templates config) (rpc config) (mergedConfigDefaults (Defaults config)) q = Ok b <->
  exists sources, Forall2 (fun e s => endpoint_ok config q e = Ok s) (endpoints q) sources /\
    b = mkBuilt (with_sources (resolved config q) sources) (omap contract_of sources) (omap rpc_of sources) (omap combined_of sources).
Proof using Type.
  unfold build_query. cbv zeta. rewrite go_bind_Ok. split.
  - intros (sources & Hs%mapM_go_Ok & [= <-]). by exists sources.
  - intros (sources & Hs & ->). exists sources. split; [by apply mapM_go_Ok|done].
Qed.

Lemma BuildQueryEndpoints_spec text decode config :
  decode text = inr config ->
  ((exists m, BuildQueryEndpoints Dial Sprint_value getenv (inr text) decode = Ok m) <->
   forall name q e, Queries config !! name = Some q -> e ∈ endpoints q -> exists s, endpoint_ok config q e = Ok s) /\
  (forall m, BuildQueryEndpoints Dial Sprint_value getenv (inr text) decode = Ok m ->
   NoDup ((fun x => ID (base x.2)) <$> range_of (Queries config)) ->
   forall name q, Queries config !! name = Some q -> exists b sources,
     m !! ID (base q) = Some b /\ Forall2 (fun e s => endpoint_ok config q e = Ok s) (endpoints q) sources /\
     contractReaders b = omap contract_of sources /\ rpcReaders b = omap rpc_of sources /\ combinedReaders b = omap combined_of sources /\
     totalEndpoints (built b) = length (endpoints q) /\ timeouts (built b) = timeouts (resolved config q)).
Proof using Type.
  intros Hd. unfold BuildQueryEndpoints. rewrite Hd. cbv zeta.
  set (m0 := list_to_map _).
  set (build := fun x : string * ConfiguredQuery =>
    build_query Dial Sprint_value (templates config) (rpc config) (mergedConfigDefaults (Defaults config)) x.2).
  change (fun queryMap x => b ← build_query Dial Sprint_value (templates config) (rpc config) (mergedConfigDefaults (Defaults config)) (snd x);
    Ok (<[ID (base (snd x)) := b]> queryMap)) with (add_built (fun x : string * ConfiguredQuery => ID (base x.2)) build).
  split.
  - rewrite add_built_ok, Forall_forall. split.
    + intros H name q e Hq He. destruct (H (name, q)) as [b Hb]; [by apply elem_of_range_of|].
      apply build_query_Ok in Hb as (sources & Hs & _). destruct (Forall2_elem_of_l _ _ _ e Hs He) as (s & _ & ?). by exists s.
    + intros H [name q] Hin%elem_of_range_of. cbn [snd] in *.
      assert (exists sources, Forall2 (fun e s => endpoint_ok config q e = Ok s) (endpoints q) sources) as [sources Hs].
      { specialize (H name q). revert H. generalize (endpoints q) as l. intros l H.
        assert (forall e, e ∈ l -> exists s, endpoint_ok config q e = Ok s) as Hl by (intros e He; by apply H). clear H.
        induction l as [|e l IH]; [exists []; constructor|].
        destruct (Hl e) as [s Hs]; [left|]. destruct IH as [ss Hss]; [intros e' He'; apply Hl; by right|]. exists (s :: ss). by constructor. }
      eexists. apply build_query_Ok. by exists sources.
  - intros m Hm Hnd name q Hq. destruct (add_built_all _ _ _ _ _ Hm Hnd) as [Hall _]. rewrite Forall_forall in Hall.
    destruct (Hall (name, q)) as (b & Hb & Hmb); [by apply elem_of_range_of|]. apply build_query_Ok in Hb as (sources & Hs & ->).
    eexists _, sources. split_and!; [exact Hmb|done|done|done|done| |done].
    unfold totalEndpoints. cbn. rewrite !length_fmap, length_sources. symmetry. by apply (Forall2_length _ _ _ Hs).
Qed.

(** C30: The configuration is accepted exactly when every endpoint of every query can be served: a combined endpoint names a
    handler, and each of its contract and RPC sources has its reader; a contract endpoint names a handler and a chain with nodes,
    on which a reader can be made; any other endpoint has a template, all placeholders of its URL are parameters or the API
    key and none is left in the URL, and an RPC reader can be made of it. With distinct IDs, every query then has, under its ID,
    exactly these readers: the combined, contract and RPC readers of its endpoints of each type, all in their order, with the
    handler, market, age limit and timeout of the endpoint, as many sources as endpoints, and its timeouts with the defaults
    filled in. *)
Theorem BuildQueryEndpoints_correct text decode config :
  decode text = inr config ->
  ((exists m, BuildQueryEndpoints Dial Sprint_value getenv (inr text) decode = Ok m) <->
   forall name q e, Queries config !! name = Some q -> e ∈ endpoints q -> exists s, served config q e s) /\
  (forall m, BuildQueryEndpoints Dial Sprint_value getenv (inr text) decode = Ok m ->
   NoDup ((fun x => ID (base x.2)) <$> range_of (Queries config)) ->
   forall name q, Queries config !! name = Some q -> exists b sources,
     m !! ID (base q) = Some b /\ Forall2 (served config q) (endpoints q) sources /\
     contractReaders b = omap contract_of sources /\ rpcReaders b = omap rpc_of sources /\ combinedReaders b = omap combined_of sources /\
     totalEndpoints (built b) = length (endpoints q) /\ timeouts (built b) = timeouts (resolved config q)).
Proof using Type.
  intros Hd. destruct (BuildQueryEndpoints_spec text decode config Hd) as [Hiff Hall]. split.
  - rewrite Hiff. split; intros H name q e Hq He; destruct (H name q e Hq He) as [s Hs].
    + exists s. by apply build_endpoint_served.
    + by eapply served_build_endpoint.
  - intros m Hm Hnd name q Hq. destruct (Hall m Hm Hnd name q Hq) as (b & sources & Hb & Hs & Hrest). exists b, sources.
    split; [exact Hb|]. split; [|exact Hrest]. eapply Forall2_impl; [exact Hs|]. intros e s. apply build_endpoint_served.
Qed.
End Whole.

(** ** Witnesses *)
Definition sample_template : EndpointTemplate :=
  mkTemplate "https://api/{coin}?key={api_key}" "" "GET" 500 "K" ∅ 60.
Definition sample_endpoint : EndpointConfig :=
  mkEndpointConfig "api" ["usd"] {[ "coin" := "trb" ]} "TRB-USD" "generic" "" false 0 0 ∅ ∅.
Definition sample_segments : list segment :=
  literal "https://api/" ++ [Var "coin"] ++ literal "?key=" ++ [Var "api_key"].
Definition sample_query : ConfiguredQuery :=
  mkConfigured (mkQueryConfig "q1" QueryTypeSpotPrice "median" 1 "uint256" (float_of_integer 10) (mkTimeoutDefaults 0 0 0 0 0) [] [] [])
    [sample_endpoint].
Definition sample_config : Config := mkConfig {[ "api" := sample_template ]} ∅ {[ "trb" := sample_query ]} ∅.

Example sample_url :
  rest_url (RO := canonical_range) sample_template sample_endpoint "q1" = Ok "https://api/trb?key=K".
Proof. vm_compute. reflexivity. Qed.

Lemma rest_url_correct_witness :
  rest_url (RO := canonical_range) sample_template sample_endpoint "q1" = Ok "https://api/trb?key=K" /\
  placeholders "https://api/trb?key=K" = [].
Proof.
  assert (lacks open_brace (ApiKey sample_template) = true) as Hk by reflexivity.
  assert (Forall plain_segment sample_segments) as Hp by (repeat constructor; discriminate).
  assert (map_Forall (fun k v => plain_name k /\ lacks open_brace v = true) (e_Params sample_endpoint)) as Hm.
  { apply map_Forall_singleton. repeat split; discriminate. }
  pose proof (rest_url_correct (RO := canonical_range) sample_template sample_endpoint Hk sample_segments "q1" eq_refl Hp Hm) as H.
  rewrite sample_url in H. destruct H as (_ & _ & H). split; [exact sample_url|exact H].
Defined.

Lemma BuildQueryEndpoints_correct_witness :
  exists m b, BuildQueryEndpoints (RO := canonical_range) (fun _ => None) (fun _ => "") (fun _ => "") (inr "text") (fun _ => inr sample_config) = Ok m /\
    m !! "q1" = Some b /\ length (rpcReaders b) = 1%nat /\ totalEndpoints (built b) = 1%nat.
Proof.
  pose proof (BuildQueryEndpoints_correct (RO := canonical_range) (fun _ => None) (fun _ => "") (fun _ => "") "text" (fun _ => inr sample_config)
    sample_config eq_refl) as [Hiff Hall].
  assert (exists m, BuildQueryEndpoints (RO := canonical_range) (fun _ => None) (fun _ => "") (fun _ => "") (inr "text") (fun _ => inr sample_config) = Ok m) as [m Hm].
  { apply Hiff. intros name q e Hq He. apply (lookup_singleton_Some "trb" name sample_query q) in Hq as [<- <-]. apply list_elem_of_singleton in He as ->.
    eexists. apply build_endpoint_served. vm_compute. reflexivity. }
  destruct (Hall m Hm) with (name := "trb") (q := sample_query) as (b & sources & Hb & Hs & _ & Hr & _ & Ht & _).
  - vm_compute. constructor; [by intros H%elem_of_nil|constructor].
  - reflexivity.
  - exists m, b. split; [exact Hm|]. split; [exact Hb|]. rewrite Hr, Ht. split; [|reflexivity].
    destruct sources as [|s [|s' sources]]; inversion Hs as [|? ? ? ? H1 H2]; subst; [|by inversion H2].
    by inversion H1 as [? ? Et|? Et|].
Defined.
