(* ===== verification/Dispute.v ===== *)
(** * reporter/dispute: the monitor of open disputes

    The configuration from the environment (config_env.go), the query of all API nodes and
    what the monitor does with the answers (dispute.go), and the two goroutines of [Run], the poll and
    the subscription to events, as a step relation in which a check that panics ends the
    process. The HTTP client, the JSON codec of the chain and the websocket client are
    arguments. *)
From Stdlib Require Import Ascii.
From S2P Require Import Prelude Text EncodePrice Durations.
Local Open Scope Z_scope.

(** ** config_env.go *)
Definition isTrue (s : string) : bool :=
  bool_decide (strings_ToLower (strings_TrimSpace s) ∈ ["1"; "true"; "yes"; "on"]).

(** [strconv.ParseUint] in base 10 with 64 bits, as far as it succeeds. *)
Definition ParseDisputeID (val : string) : option Z :=
  if bool_decide (val = "") then None
  else n ← read_digits 0 val; if n <=? max_int uint64 then Some n else None.

Record Config := mkConfig {
  Enabled : bool; LayerAPIURLs : list string; RPCEndpoints : list string; IgnoreDisputes : list Z; CheckInterval : Duration
}.

Definition defaultCheckInterval : Duration := 30 * Second.

(** The entries of a list of the environment: an empty value is no list. *)
Definition env_list (value : string) : list string :=
  if bool_decide (value = "") then [] else strings_TrimSpace <$> strings_Split value ",".

Definition LoadConfigFromEnv (Getenv : string -> string) (rpcEndpoints : list string) : Config :=
  mkConfig (isTrue (Getenv "DISPUTE_MONITOR_ENABLED"))
    (filter (fun url => url <> "") (env_list (Getenv "API_URLS")))
    rpcEndpoints
    (omap ParseDisputeID (env_list (Getenv "DISPUTE_IGNORE_IDS")))
    (let interval := Getenv "DISPUTE_CHECK_INTERVAL" in
     if bool_decide (interval = "") then 30 * Second
     else match ParseDuration interval with
          | Some d => if 0 <? d then d else 30 * Second
          | None => 30 * Second
          end).

(** [New] keeps the configuration, with an interval. *)
Definition New (cfg : Config) : Config :=
  mkConfig (Enabled cfg) (LayerAPIURLs cfg) (RPCEndpoints cfg) (IgnoreDisputes cfg)
    (if CheckInterval cfg <=? 0 then defaultCheckInterval else CheckInterval cfg).

(** ** One node *)
Definition isIgnored (ignoreList : list Z) (disputeID : Z) : bool := existsb (fun ignoreID => ignoreID =? disputeID) ignoreList.

Fixpoint trim_slashes (s : string) : string :=
  match s with
  | EmptyString => EmptyString
  | String a t =>
      match trim_slashes t with
      | EmptyString => if Ascii.eqb a "/" then EmptyString else String a EmptyString
      | t => String a t
      end
  end.

Definition disputes_url (baseURL : string) : string := trim_slashes baseURL +:+ "/tellor-io/layer/dispute/open-disputes".

Section Node.
Variable NewRequest : string -> option go_error.
Variable UnmarshalJSON : string -> go_error + option (list Z).  (** the ids of the field openDisputes, when it is there *)

(** What the node answers: an error of the client, or a status and the body. *)
Definition queryDisputesFromAPI (Do : string -> go_error + Z * (go_error + string)) (baseURL : string) : go (list Z) :=
  let url := disputes_url baseURL in
  match NewRequest url with
  | Some err => Err err
  | None =>
      match Do url with
      | inl err => Err err
      | inr (status, answer) =>
          if negb (status =? 200) then Err (ErrNew ("status " +:+ pretty status)) else
          match answer with
          | inl err => Err err
          | inr body =>
              match UnmarshalJSON body with
              | inl err => Err (wrapf "decode open-disputes response" err)
              | inr None => Err (ErrNew "unexpected open-disputes response: missing openDisputes field")
              | inr (Some ids) => Ok ids
              end
          end
      end
  end.
End Node.

(** ** All nodes

    What became of the goroutine of a node: its result in the channel, or, when the context had ended,
    dropped. *)
Notation outcome := (option (go (list Z))) (only parsing).

Definition ids_of (r : outcome) : list Z := match r with Some (Ok ids) => ids | _ => [] end.

Section Check.
Context {RO : RangeOrder}.

(** The union, in the order the map of ids is ranged; [outcomes] are in the order of the channel. *)
Definition queryAllAPINodes (outcomes : list outcome) : list Z :=
  fst <$> range_of (foldl (fun (allIDs : gmap Z unit) id => <[id := tt]> allIDs) ∅ (outcomes ≫= ids_of)).

Definition ReasonOpenDisputes : string :=
  "OPEN DISPUTES DETECTED - not safe to continue reporting. Add dispute IDs to DISPUTE_IGNORE_IDS if safe to ignore".
Definition dispute_panic (disputeID : Z) : go_panic := PanicMsg (ReasonOpenDisputes +:+ ": dispute_id=" +:+ pretty disputeID).

Definition checkDisputes (cfg : Config) (outcomes : list outcome) : go unit :=
  forM_go (fun disputeID =>
    if isIgnored (IgnoreDisputes cfg) disputeID then Ok tt else Panic (dispute_panic disputeID)) (queryAllAPINodes outcomes).

Lemma isIgnored_spec l id : isIgnored l id = true <-> id ∈ l.
Proof.
  unfold isIgnored. rewrite existsb_exists. split.
  - intros (x & Hx%list_elem_of_In & ->%Z.eqb_eq). done.
  - intros H%list_elem_of_In. exists id. by rewrite Z.eqb_refl.
Qed.

Lemma union_spec (l : list Z) (m : gmap Z unit) id :
  is_Some (foldl (fun (allIDs : gmap Z unit) id => <[id := tt]> allIDs) m l !! id) <-> id ∈ l \/ is_Some (m !! id).
Proof.
  revert m. induction l as [|x l IH]; intros m; cbn [foldl].
  - split; [by right|]. intros [H%elem_of_nil|H]; done.
  - rewrite IH, elem_of_cons. destruct (decide (x = id)) as [->|Hne].
    + rewrite lookup_insert_eq. naive_solver.
    + rewrite lookup_insert_ne by done. naive_solver.
Qed.

Lemma queryAllAPINodes_spec outcomes id :
  id ∈ queryAllAPINodes outcomes <-> exists ids, Some (Ok ids) ∈ outcomes /\ id ∈ ids.
Proof.
  unfold queryAllAPINodes. rewrite list_elem_of_fmap.
  assert ((exists y, id = y.1 /\ y ∈ range_of (foldl (fun (allIDs : gmap Z unit) id => <[id := tt]> allIDs) ∅ (outcomes ≫= ids_of)))
    <-> id ∈ outcomes ≫= ids_of) as ->.
  { transitivity (id ∈ outcomes ≫= ids_of \/ is_Some ((∅ : gmap Z unit) !! id)).
    - rewrite <- union_spec. split.
      + intros ([k []] & -> & H%elem_of_range_of). by eexists.
      + intros [[] H]. exists (id, tt). by rewrite elem_of_range_of.
    - rewrite lookup_empty. split; [by intros [H|[? [=]]]|by left]. }
  rewrite list_elem_of_bind. split.
  - intros ([[ids|err|p]|] & Hid & Hr); cbn in Hid; try by apply elem_of_nil in Hid. by exists ids.
  - intros (ids & Hr & Hid). by exists (Some (Ok ids)).
Qed.

(** Everything that the nodes reported may be ignored. *)
Definition harmless (cfg : Config) (outcomes : list outcome) : Prop :=
  forall ids id, Some (Ok ids) ∈ outcomes -> id ∈ ids -> id ∈ IgnoreDisputes cfg.

Definition open_dispute (cfg : Config) (outcomes : list outcome) (id : Z) : Prop :=
  id ∉ IgnoreDisputes cfg /\ exists ids, Some (Ok ids) ∈ outcomes /\ id ∈ ids.

Lemma checkDisputes_Ok cfg outcomes : checkDisputes cfg outcomes = Ok tt <-> harmless cfg outcomes.
Proof.
  unfold checkDisputes. rewrite forM_go_Ok, Forall_forall. split.
  - intros H ids id Hr Hid. specialize (H id ltac:(apply queryAllAPINodes_spec; by exists ids)).
    destruct (isIgnored _ _) eqn:E; [by apply isIgnored_spec|done].
  - intros H id (ids & Hr & Hid)%queryAllAPINodes_spec. by rewrite (proj2 (isIgnored_spec _ _) (H ids id Hr Hid)).
Qed.

Lemma checkDisputes_Panic cfg outcomes r :
  checkDisputes cfg outcomes = r -> r <> Ok tt -> exists id, r = Panic (dispute_panic id) /\ open_dispute cfg outcomes id.
Proof.
  intros Hr Hne. destruct (forM_go_not_Ok _ _ _ Hr Hne) as (id & Hin%queryAllAPINodes_spec & Hid). exists id.
  destruct (isIgnored _ _) eqn:E; [by subst|]. split; [done|]. split; [|done].
  intros H%isIgnored_spec. congruence.
Qed.

(** When no node answers, the check passes. *)
Lemma checkDisputes_no_answer cfg outcomes :
  Forall (fun r : outcome => ids_of r = []) outcomes -> checkDisputes cfg outcomes = Ok tt.
Proof.
  intros H. apply checkDisputes_Ok. intros ids id Hr Hid. rewrite Forall_forall in H. specialize (H _ Hr). cbn in H. subst.
  by apply elem_of_nil in Hid.
Qed.

(** ** Run

    The poll and the subscription, which share nothing but the end of the context, and the life of the process. *)
Variable cfg : Config.
Variable NewRequest : string -> option go_error.
Variable UnmarshalJSON : string -> go_error + option (list Z).

Inductive poll_phase := PChecking | PWaiting | PStopped.
Inductive sub_phase := Looping | Connecting | Sleeping | Subscribing | Listening | Checking | Unsubscribed.

Record monitor := mkMonitor {
  done : bool;                       (** the context has ended *)
  poll : poll_phase;
  events : sub_phase;
  started : nat; stopped : nat;      (** websocket clients *)
  checks : list (list outcome);      (** newest first *)
  panicked : option go_panic
}.

Definition run_start (done : bool) : monitor :=
  mkMonitor done PChecking (if bool_decide (RPCEndpoints cfg = []) then Unsubscribed else Looping) 0 0 [] None.

Definition cancel (m : monitor) : monitor := mkMonitor true (poll m) (events m) (started m) (stopped m) (checks m) (panicked m).
Definition set_poll (p : poll_phase) (m : monitor) : monitor := mkMonitor (done m) p (events m) (started m) (stopped m) (checks m) (panicked m).
Definition set_events (e : sub_phase) (m : monitor) : monitor := mkMonitor (done m) (poll m) e (started m) (stopped m) (checks m) (panicked m).
Definition start_client (m : monitor) : monitor :=
  mkMonitor (done m) (poll m) Subscribing (S (started m)) (stopped m) (checks m) (panicked m).
Definition stop_client (e : sub_phase) (m : monitor) : monitor :=
  mkMonitor (done m) (poll m) e (started m) (S (stopped m)) (checks m) (panicked m).

(** A check, and what its goroutine goes on with: a panic ends the process. *)
Definition after_check (outcomes : list outcome) (goes_on : monitor -> monitor) (m : monitor) : monitor :=
  let m' := mkMonitor (done m) (poll m) (events m) (started m) (stopped m) (outcomes :: checks m) (panicked m) in
  match checkDisputes cfg outcomes with
  | Panic p => mkMonitor (done m') (poll m') (events m') (started m') (stopped m') (checks m') (Some p)
  | _ => goes_on m'
  end.

(** What a check can have got: an answer of every node, unless the context has ended, in any order. *)
Definition answered (m : monitor) (outcomes : list outcome) : Prop :=
  exists l, outcomes ≡ₚ l /\
    Forall2 (fun url (r : outcome) =>
      match r with
      | Some a => exists Do, a = queryDisputesFromAPI NewRequest UnmarshalJSON Do url
      | None => done m = true
      end) (LayerAPIURLs cfg) l.

Inductive monitor_step : monitor -> monitor -> Prop :=
  | step_cancel m : monitor_step m (cancel m)
  | step_poll_check m outcomes :
      poll m = PChecking -> answered m outcomes -> monitor_step m (after_check outcomes (set_poll PWaiting) m)
  | step_tick m : poll m = PWaiting -> monitor_step m (set_poll PChecking m)
  | step_poll_stop m : poll m = PWaiting -> done m = true -> monitor_step m (set_poll PStopped m)
  | step_loop m : events m = Looping -> monitor_step m (set_events (if done m then Unsubscribed else Connecting) m)
  | step_no_client m : events m = Connecting -> monitor_step m (set_events Sleeping m)
  | step_client m : events m = Connecting -> monitor_step m (start_client m)
  | step_slept m : events m = Sleeping -> monitor_step m (set_events Looping m)
  | step_sleep_canceled m : events m = Sleeping -> done m = true -> monitor_step m (set_events Unsubscribed m)
  | step_no_subscription m : events m = Subscribing -> monitor_step m (stop_client Sleeping m)
  | step_subscribed m : events m = Subscribing -> monitor_step m (set_events Listening m)
  | step_event m : events m = Listening -> monitor_step m (set_events Checking m)
  | step_closed m : events m = Listening -> monitor_step m (stop_client Looping m)
  | step_listen_canceled m : events m = Listening -> done m = true -> monitor_step m (stop_client Unsubscribed m)
  | step_event_check m outcomes :
      events m = Checking -> answered m outcomes -> monitor_step m (after_check outcomes (set_events Listening) m).

Inductive runs : monitor -> Prop :=
  | run_init d : runs (run_start d)
  | run_step m m' : runs m -> panicked m = None -> monitor_step m m' -> runs m'.

Definition connected (e : sub_phase) : nat := match e with Subscribing | Listening | Checking => 1 | _ => 0 end.

Record monitor_ok (m : monitor) : Prop := {
  ok_clients : started m = (stopped m + connected (events m))%nat;
  ok_checks : match panicked m with
              | None => Forall (harmless cfg) (checks m)
              | Some p => exists outcomes earlier id, checks m = outcomes :: earlier /\ Forall (harmless cfg) earlier /\
                            open_dispute cfg outcomes id /\ p = dispute_panic id
              end;
  ok_events : RPCEndpoints cfg = [] -> events m = Unsubscribed /\ started m = 0%nat
}.

Lemma monitor_ok_start d : monitor_ok (run_start d).
Proof.
  split; cbn; [by case_bool_decide|constructor|]. intros ->. by rewrite bool_decide_true.
Qed.

Lemma monitor_ok_move m m' :
  monitor_ok m -> panicked m' = panicked m -> checks m' = checks m -> started m' = (stopped m' + connected (events m'))%nat ->
  (RPCEndpoints cfg = [] -> events m = Unsubscribed -> events m' = Unsubscribed /\ started m' = started m) -> monitor_ok m'.
Proof.
  intros [Hc Hk He] Hp Hch Hs Hu. split; [done|by rewrite Hp, Hch|]. intros Hr. destruct (He Hr) as [H1 H2].
  destruct (Hu Hr H1) as [-> ->]. done.
Qed.

Lemma monitor_ok_check m outcomes goes_on :
  monitor_ok m -> panicked m = None ->
  (forall m1, panicked (goes_on m1) = panicked m1 /\ checks (goes_on m1) = checks m1 /\ started (goes_on m1) = started m1 /\
     stopped (goes_on m1) = stopped m1) ->
  (forall m1, events m1 = events m -> connected (events (goes_on m1)) = connected (events m)) ->
  (events m = Unsubscribed -> forall m1, events m1 = Unsubscribed -> events (goes_on m1) = Unsubscribed) ->
  monitor_ok (after_check outcomes goes_on m).
Proof.
  intros [Hc Hk He] Hp Hg Hcon Hev. rewrite Hp in Hk. unfold after_check. cbv zeta.
  set (m' := mkMonitor _ _ _ _ _ _ _).
  destruct (checkDisputes cfg outcomes) as [[]|err|p] eqn:E.
  - apply checkDisputes_Ok in E. destruct (Hg m') as (Gp & Gc & Gs & Gt). split.
    + rewrite Gs, Gt, Hcon by reflexivity. exact Hc.
    + rewrite Gp, Gc. cbn. rewrite Hp. by constructor.
    + intros Hr. destruct (He Hr) as [H1 H2]. split; [by apply Hev|by rewrite Gs].
  - apply checkDisputes_Panic in E as (id & [=] & _); done.
  - apply checkDisputes_Panic in E as (id & [= ->] & Ho); [|done]. split; [done| |done]. cbn. by exists outcomes, (checks m), id.
Qed.

Lemma monitor_ok_step m m' : monitor_ok m -> panicked m = None -> monitor_step m m' -> monitor_ok m'.
Proof.
  intros Hok Hp Hstep. pose proof (ok_clients m Hok) as Hc.
  destruct Hstep as [m|m outcomes Hph Ha|m Hph|m Hph Hd|m Hph|m Hph|m Hph|m Hph|m Hph Hd|m Hph|m Hph|m Hph|m Hph|m Hph Hd|m outcomes Hph Ha];
    try (apply (monitor_ok_move m); [done|done|done| |]; cbn; rewrite ?Hph in *; cbn in *; try lia; try congruence; done).
  - apply monitor_ok_check; [done|done|done| |]; cbn; congruence.
  - apply (monitor_ok_move m); [done|done|done| |]; cbn; rewrite Hph in *; destruct (done m); cbn in *; try lia; congruence.
  - apply monitor_ok_check; [done|done|done| |]; cbn; rewrite Hph in *; [done|congruence].
Qed.

Lemma runs_ok m : runs m -> monitor_ok m.
Proof. induction 1; [apply monitor_ok_start|by eapply monitor_ok_step]. Qed.
End Check.

(** ** What the theorems say *)

(** The part of the startup that stands before all that reports (app.go): the monitor that runs, if it is enabled. *)
Definition start_monitor {RO : RangeOrder} (Getenv : string -> string) (rpcEndpoints : list string) (outcomes : list outcome) :
    go (option Config) :=
  let disputeCfg := LoadConfigFromEnv Getenv rpcEndpoints in
  if Enabled disputeCfg then
    _ ← checkDisputes (New disputeCfg) outcomes;
    Ok (Some (New disputeCfg))
  else Ok None.

Lemma env_interval_pos Getenv rpcEndpoints : 0 < CheckInterval (LoadConfigFromEnv Getenv rpcEndpoints).
Proof.
  cbn. case_bool_decide; [done|]. destruct (ParseDuration _) as [d|]; [|done]. destruct (Z.ltb_spec 0 d); done.
Qed.

Lemma New_of_env Getenv rpcEndpoints : New (LoadConfigFromEnv Getenv rpcEndpoints) = LoadConfigFromEnv Getenv rpcEndpoints.
Proof.
  pose proof (env_interval_pos Getenv rpcEndpoints) as H. unfold New. destruct (LoadConfigFromEnv _ _) as [e u r i d]. cbn in *.
  by rewrite (proj2 (Z.leb_gt d 0) H).
Qed.

(** The default that the code uses, where two comments say one second. *)
Example default_interval : CheckInterval (LoadConfigFromEnv (fun _ => "") []) = 30 * Second.
Proof. reflexivity. Qed.

Example env_ids : IgnoreDisputes (LoadConfigFromEnv (fun n => if bool_decide (n = "DISPUTE_IGNORE_IDS") then "7, x,18446744073709551616,9" else "") [])
  = [7; 9].
Proof. vm_compute. reflexivity. Qed.

(** C31: The dispute monitor, whatever its poll, its subscription to events and the nodes do: as long as the process lives, no
    check got from any node an open dispute that may not be ignored; it panics only in a check that did, and names such
    a dispute; and it has at most one websocket client that it has not stopped, none once the subscription
    has ended. *)
Theorem dispute_monitor_safe {RO : RangeOrder} cfg NewRequest UnmarshalJSON m :
  runs cfg NewRequest UnmarshalJSON m ->
  (panicked m = None -> forall outcomes ids id, outcomes ∈ checks m -> Some (Ok ids) ∈ outcomes -> id ∈ ids -> id ∈ IgnoreDisputes cfg) /\
  (forall p, panicked m = Some p -> exists outcomes earlier id ids, checks m = outcomes :: earlier /\
     Some (Ok ids) ∈ outcomes /\ id ∈ ids /\ id ∉ IgnoreDisputes cfg /\ p = dispute_panic id) /\
  (stopped m <= started m <= S (stopped m))%nat /\ (events m = Unsubscribed -> started m = stopped m).
Proof.
  intros [Hc Hk He]%runs_ok. split_and!.
  - intros Hp outcomes ids id Hin Hr Hid. rewrite Hp, Forall_forall in Hk. by apply (Hk outcomes Hin ids id).
  - intros p Hp. rewrite Hp in Hk. destruct Hk as (outcomes & earlier & id & H1 & _ & (H2 & ids & H3 & H4) & H5).
    by exists outcomes, earlier, id, ids.
  - lia.
  - rewrite Hc. destruct (events m); cbn; lia.
  - intros E. rewrite Hc, E. cbn. lia.
Qed.

(** ** An example: an ignored dispute, then another one *)
Definition ex_cfg : Config := mkConfig true ["http://node/"] ["tcp://rpc"] [7] Second.
Definition ex_decode (body : string) : go_error + option (list Z) :=
  if bool_decide (body = "seven") then inr (Some [7]) else inr (Some [7; 9]).
Definition ex_answer (body url : string) : go_error + Z * (go_error + string) :=
  if bool_decide (url = "http://node/tellor-io/layer/dispute/open-disputes") then inr (200, inr body) else inl (ErrNew "no route").

Lemma dispute_monitor_safe_witness :
  exists m, runs (RO := canonical_range) ex_cfg (fun _ => None) ex_decode m /\ length (checks m) = 2%nat /\
    exists outcomes id, head (checks m) = Some outcomes /\ id ∉ IgnoreDisputes ex_cfg /\ panicked m = Some (dispute_panic id).
Proof.
  assert (forall m body ids, (forall url, url = "http://node/" ->
      Ok ids = queryDisputesFromAPI (fun _ => None) ex_decode (ex_answer body) url) ->
      answered ex_cfg (fun _ => None) ex_decode m [Some (Ok ids)]) as Hans.
  { intros m body ids H. exists [Some (Ok ids)]. split; [done|]. constructor; [|constructor]. exists (ex_answer body). by apply H. }
  set (m1 := after_check (RO := canonical_range) ex_cfg [Some (Ok [7])] (set_poll PWaiting) (run_start ex_cfg false)).
  set (m2 := set_poll PChecking m1).
  set (m3 := after_check (RO := canonical_range) ex_cfg [Some (Ok [7; 9])] (set_poll PWaiting) m2).
  assert (runs (RO := canonical_range) ex_cfg (fun _ => None) ex_decode m3) as Hr.
  { apply run_step with m2; [apply run_step with m1; [apply run_step with (run_start ex_cfg false)|..]|..].
    - apply run_init.
    - reflexivity.
    - apply step_poll_check; [reflexivity|]. apply (Hans _ "seven"). intros url ->. vm_compute. reflexivity.
    - vm_compute. reflexivity.
    - apply step_tick. vm_compute. reflexivity.
    - vm_compute. reflexivity.
    - apply step_poll_check; [reflexivity|]. apply (Hans _ "nine"). intros url ->. vm_compute. reflexivity. }
  destruct (dispute_monitor_safe (RO := canonical_range) ex_cfg (fun _ => None) ex_decode m3 Hr) as (_ & H & _).
  exists m3. split; [exact Hr|]. split; [vm_compute; reflexivity|].
  assert (exists p, panicked m3 = Some p) as [p Hp] by (eexists; vm_compute; reflexivity).
  destruct (H p Hp) as (outcomes & earlier & id & ids & Hc & _ & _ & Hid & ->).
  exists outcomes, id. split; [rewrite Hc; reflexivity|]. split; [exact Hid|exact Hp].
Defined.
