(* ===== verification/ConfigFiles.v ===== *)
(** * configs: the files of exchanges and of market params

    The files are written when they are missing and merged with the built-in tables when they
    are there (default_pricefeed_exchange_config.go, default_market_param_config.go), and read at the
    start. The file system is a class of the calls that the code makes, with what they promise; the
    TOML decoder is an argument, the text that the templates produce is written out. *)
From Stdlib Require Import Ascii.
From S2P Require Import Prelude Text Hex MarketConfig PriceFetcher.
Local Open Scope Z_scope.

(** ** Paths, as package filepath has them on Unix *)

(** The elements that are left of a path, last first. *)
Definition clean_step (rooted : bool) (out : list string) (elem : string) : list string :=
  if bool_decide (elem = "") || bool_decide (elem = ".") then out
  else if bool_decide (elem = "..") then
    match out with
    | last :: out' => if bool_decide (last = "..") then elem :: out else out'
    | [] => if rooted then [] else [elem]
    end
  else elem :: out.
Definition Clean (path : string) : string :=
  let rooted := String.prefix "/" path in
  let text := strings_Join (rev (foldl (clean_step rooted) [] (strings_Split path "/"))) "/" in
  if rooted then "/" +:+ text else if bool_decide (text = "") then "." else text.
Fixpoint Join (elems : list string) : string :=
  match elems with
  | [] => ""
  | e :: rest => if bool_decide (e = "") then Join rest else Clean (strings_Join elems "/")
  end.
(** All before the last separator. *)
Definition Dir (path : string) : string :=
  Clean (strings_Join (removelast (strings_Split path "/") ++ [""]) "/").

Definition exchange_config_path (homeDir : string) : string := Join [homeDir; "config"; "pricefeed_exchange_config.toml"].
Definition market_params_path (homeDir : string) : string := Join [homeDir; "config"; "market_params.toml"].

(** ** The file system *)
Class FileSystem (W : Type) := {
  file : W -> string -> option string;
  ReadFile : string -> W -> (go_error + string) * W;
  WriteFile : string -> string -> W -> option go_error * W;
  Remove : string -> W -> W;
  Rename : string -> string -> W -> option go_error * W;
  Stat : string -> W -> option (go_error * bool) * W;     (** the error, and whether it says that there is no such file *)
  MkdirAll : string -> W -> option go_error * W
}.

(** What the calls promise: a call that fails may leave a file it writes in any state, and
    nothing else changes; a renaming happens as a whole or not at all. *)
Class FileSystemLaws (W : Type) `{FileSystem W} := {
  read_file : forall p w r w', ReadFile p w = (r, w') -> (forall q, file w' q = file w q) /\ (forall s, r = inr s -> file w p = Some s);
  write_file : forall p s w e w', WriteFile p s w = (e, w') ->
    (forall q, q <> p -> file w' q = file w q) /\ (e = None -> file w' p = Some s);
  remove_file : forall p w q, q <> p -> file (Remove p w) q = file w q;
  rename_file : forall p p' w e w', p <> p' -> Rename p p' w = (e, w') ->
    match e with
    | None => file w' p' = file w p /\ file w' p = None /\ forall q, q <> p -> q <> p' -> file w' q = file w q
    | Some _ => forall q, file w' q = file w q
    end;
  stat_file : forall p w e w', Stat p w = (e, w') -> (forall q, file w' q = file w q);
  mkdir_file : forall p w e w', MkdirAll p w = (e, w') -> (forall q, file w' q = file w q)
}.

(** Files that are there and can be written. *)
#[export] Instance plain_fs : FileSystem (gmap string string) := {
  file w p := w !! p;
  ReadFile p w := (match w !! p with Some s => inr s | None => inl (ErrNew "no such file or directory") end, w);
  WriteFile p s w := (None, <[p := s]> w);
  Remove p w := delete p w;
  Rename p p' w := match w !! p with
                   | Some s => (None, <[p' := s]> (delete p w))
                   | None => (Some (ErrNew "no such file or directory"), w)
                   end;
  Stat p w := (match w !! p with Some _ => None | None => Some (ErrNew "no such file or directory", true) end, w);
  MkdirAll _ w := (None, w)
}.
#[export] Instance plain_fs_laws : FileSystemLaws (gmap string string).
Proof.
  split; cbn.
  - intros p w r w' [= <- <-]. split; [done|]. intros s. by destruct (w !! p); intros [= ->].
  - intros p s w e w' [= <- <-]. split; [|intros _; apply lookup_insert_eq]. intros q Hq. by apply lookup_insert_ne.
  - intros p w q Hq. by apply lookup_delete_ne.
  - intros p p' w e w' Hne. destruct (w !! p) as [s|] eqn:E; intros [= <- <-]; [|done]. split_and!.
    + by rewrite lookup_insert_eq.
    + rewrite lookup_insert_ne by done. apply lookup_delete_eq.
    + intros q H1 H2. rewrite lookup_insert_ne by done. by apply lookup_delete_ne.
  - by intros p w e w' [= <- <-].
  - by intros p w e w' [= <- <-].
Qed.

Section Files.
Context {W : Type} `{FS : FileSystem W}.

Definition temp_of (path : string) : string := path +:+ ".tmp".

(** The end of every merge: the new text is written beside the file, read back and validated, and
    then takes the place of the file. *)
Definition replace_validated (path text : string) (validate : string -> option go_error) (w : W) : option go_error * W :=
  let tempFile := temp_of path in
  match WriteFile tempFile text w with
  | (Some err, w) => (Some (wrapf "failed to write temp file" err), w)
  | (None, w) =>
      match ReadFile tempFile w with
      | (inl err, w) => (Some (wrapf "failed to read temp file for validation" err), Remove tempFile w)
      | (inr testToml, w) =>
          match validate testToml with
          | Some err => (Some err, Remove tempFile w)
          | None =>
              match Rename tempFile path w with
              | (Some err, w) => (Some (wrapf "failed to replace config file" err), Remove tempFile w)
              | (None, w) => (None, w)
              end
          end
      end
  end.

(** Reads the file and decodes it. *)
Definition read_decoded {A} (Unmarshal : string -> go_error + A) (path : string) (w : W) : (go_error + A) * W :=
  match ReadFile path w with
  | (inl err, w) => (inl (wrapf "failed to read existing config file" err), w)
  | (inr tomlFile, w) =>
      match Unmarshal tomlFile with
      | inl err => (inl (wrapf "failed to unmarshal existing config" err), w)
      | inr v => (inr v, w)
      end
  end.

(** The frame of the three WriteDefault functions: the directory, then a first file or a merge. [only_missing] says whether
    an error of Stat other than a missing file panics. A failed first write ends the process. *)
Definition write_default (configDir path : string) (defaultText : go string) (what : string) (only_missing : bool)
    (merge : W -> go unit * W) (w : W) : go unit * W :=
  let merged w := match merge w with
                  | (Err err, w) => (Panic (PanicMsg ("failed to merge " +:+ what +:+ " config: " +:+ error_text err)), w)
                  | r => r
                  end in
  let '(made, w) := MkdirAll configDir w in
  let '(no_dir, w) := match made with
                      | None => (None, w)
                      | Some err => let '(r, w) := Stat configDir w in (match r with Some _ => Some err | None => None end, w)
                      end in
  match no_dir with
  | Some err => (Panic (PanicMsg ("failed to create config directory " +:+ configDir +:+ ": " +:+ error_text err)), w)
  | None =>
      match Stat path w with
      | (Some (err, true), w) =>
          match defaultText with
          | Ok text =>
              match WriteFile path text w with
              | (Some err, w) => (Panic (PanicMsg ("MustWriteFile failed: " +:+ error_text err)), w)
              | (None, w) => (Ok tt, w)
              end
          | Err err => (Err err, w)
          | Panic p => (Panic p, w)
          end
      | (Some (err, false), w) =>
          if only_missing then (Panic (PanicMsg ("Error checking file: " +:+ error_text err)), w) else merged w
      | (None, w) => merged w
      end
  end.

Definition error_result (m : option go_error * W) : go unit * W :=
  let '(r, w) := m in (match r with Some err => Err err | None => Ok tt end, w).

Lemma temp_of_ne path : temp_of path <> path.
Proof.
  unfold temp_of. induction path as [|a path IH]; [done|]. intros E. apply IH. exact (f_equal (fun s => match s with String _ t => t | _ => s end) E).
Qed.

Context `{FL : !FileSystemLaws W}.

(** Nothing but the file and its neighbour is touched; the file is whole, old or new, and new only with a text that was
    validated; and the neighbour is gone after a success. *)
Lemma replace_validated_spec path text validate w r w' :
  replace_validated path text validate w = (r, w') ->
  (forall q, q <> path -> q <> temp_of path -> file w' q = file w q) /\
  match r with
  | Some _ => file w' path = file w path
  | None => file w' path = Some text /\ file w' (temp_of path) = None /\ validate text = None
  end.
Proof using FL.
  pose proof (temp_of_ne path) as Hne. unfold replace_validated. cbv zeta.
  destruct (WriteFile (temp_of path) text w) as [[err|] w1] eqn:Ew.
  { intros [= <- <-]. destruct (write_file _ _ _ _ _ Ew) as [H _]. split; [|by apply H]. intros q _ Hq. by apply H. }
  destruct (write_file _ _ _ _ _ Ew) as [Hw Hs]. specialize (Hs eq_refl).
  destruct (ReadFile (temp_of path) w1) as [[err|t] w2] eqn:Er; destruct (read_file _ _ _ _ Er) as [Hr Ht].
  { intros [= <- <-]. split; [intros q H1 H2|]; rewrite remove_file, Hr by done; by apply Hw. }
  assert (t = text) as -> by (specialize (Ht t eq_refl); congruence).
  destruct (validate text) as [err|] eqn:Ev.
  { intros [= <- <-]. split; [intros q H1 H2|]; rewrite remove_file, Hr by done; by apply Hw. }
  destruct (Rename (temp_of path) path w2) as [[err|] w3] eqn:En; pose proof (rename_file _ _ _ _ _ Hne En) as Hn.
  - intros [= <- <-]. split; [intros q H1 H2|]; rewrite remove_file, Hn, Hr by done; by apply Hw.
  - intros [= <- <-]. destruct Hn as (H1 & H2 & H3). split.
    + intros q Hq1 Hq2. rewrite H3, Hr by done. by apply Hw.
    + by rewrite H1, Hr, Hs.
Qed.

Lemma read_decoded_spec {A} (Unmarshal : string -> go_error + A) path w r w' :
  read_decoded Unmarshal path w = (r, w') ->
  (forall q, file w' q = file w q) /\
  (forall v, r = inr v -> exists text, file w path = Some text /\ Unmarshal text = inr v).
Proof using FL.
  unfold read_decoded. destruct (ReadFile path w) as [[err|text] w1] eqn:Er; destruct (read_file _ _ _ _ Er) as [Hr Ht].
  - by intros [= <- <-].
  - destruct (Unmarshal text) as [err|v] eqn:Eu; intros [= <- <-]; (split; [done|]); intros v' [=]; subst.
    exists text. split; [by apply Ht|done].
Qed.
End Files.

(** ** Tables of entries by their id *)
Section Entries.
Context {K A : Type} `{Countable K}.
Variable key : A -> K.
Variable R : K -> K -> Prop.
Context `{!RelDecision R}.
Context {RO : RangeOrder}.

(** Entries with one id replace each other. *)
Definition index_by (l : list A) : gmap K A := foldl (fun m x => <[key x := x]> m) ∅ l.

Definition last_with (k : K) (l : list A) : option A := last (filter (fun x => key x = k) l).

(** The built-in entries whose id the file does not have. *)
Definition missing_entries (existing : list A) (static : gmap K A) : list A :=
  snd <$> filter (fun x => x.1 ∉ key <$> existing) (range_of static).

Definition merge_entries (existing : list A) (static : gmap K A) : option (gmap K A) :=
  match missing_entries existing static with
  | [] => None
  | missing => Some (index_by (existing ++ missing))
  end.

(** A template ranges over a map in the order of its keys. *)
Definition sorted_values (m : gmap K A) : list A := omap (fun k => m !! k) (merge_sort R (range_of m).*1).

Lemma last_with_snoc k l x : last_with k (l ++ [x]) = if bool_decide (key x = k) then Some x else last_with k l.
Proof.
  unfold last_with. rewrite filter_app, filter_cons, filter_nil. case_bool_decide as E.
  - rewrite decide_True by done. apply last_snoc.
  - rewrite decide_False by done. by rewrite app_nil_r.
Qed.

Lemma index_by_lookup l k : index_by l !! k = last_with k l.
Proof.
  unfold index_by. induction l as [|x l IH] using rev_ind; [cbn [foldl]; by rewrite lookup_empty|].
  rewrite foldl_app, last_with_snoc. cbn [foldl]. case_bool_decide as E; [subst; apply lookup_insert_eq|by rewrite lookup_insert_ne].
Qed.

Lemma last_with_none k l : k ∉ key <$> l -> last_with k l = None.
Proof.
  intros Hk. unfold last_with. apply last_None. apply filter_none. apply Forall_forall. intros x Hx E. apply Hk. apply list_elem_of_fmap.
  by exists x.
Qed.

Lemma last_with_some k l : k ∈ key <$> l -> exists x, last_with k l = Some x /\ x ∈ l /\ key x = k.
Proof.
  intros (x & -> & Hx)%list_elem_of_fmap. unfold last_with.
  destruct (last (filter (fun y => key y = key x) l)) as [y|] eqn:E.
  - exists y. split; [done|]. apply last_Some_elem_of, list_elem_of_filter in E. tauto.
  - apply last_None in E. assert (x ∈ filter (fun y => key y = key x) l) as Hin by (by apply list_elem_of_filter).
    rewrite E in Hin. by apply elem_of_nil in Hin.
Qed.

Lemma last_with_app k l1 l2 : last_with k (l1 ++ l2) = match last_with k l2 with Some x => Some x | None => last_with k l1 end.
Proof.
  induction l2 as [|x l2 IH] using rev_ind; [by rewrite app_nil_r|]. rewrite app_assoc, !last_with_snoc. by case_bool_decide.
Qed.

(** What an existing file keeps, and what is added. *)
Definition kept_or_default (existing : list A) (static : gmap K A) (k : K) : option A :=
  match last_with k existing with Some x => Some x | None => static !! k end.

Lemma missing_last existing static k :
  map_Forall (fun k x => key x = k) static ->
  last_with k (missing_entries existing static) = if bool_decide (k ∈ key <$> existing) then None else static !! k.
Proof.
  intros Hs. assert (forall x, x ∈ missing_entries existing static <-> static !! key x = Some x /\ key x ∉ key <$> existing) as Hm.
  { intros x. unfold missing_entries. rewrite list_elem_of_fmap. split.
    - intros ([k' x'] & -> & Hf). apply list_elem_of_filter in Hf as [Hk Hin%elem_of_range_of]. cbn in *. by rewrite (Hs _ _ Hin).
    - intros [Hx Hk]. exists (key x, x). split; [done|]. apply list_elem_of_filter. split; [done|]. by apply elem_of_range_of. }
  case_bool_decide as E.
  - apply last_with_none. intros (x & -> & [_ Hx]%Hm)%list_elem_of_fmap. done.
  - destruct (static !! k) as [x|] eqn:Ek.
    + destruct (last_with_some k (missing_entries existing static)) as (y & -> & [Hy _]%Hm & Hk).
      * apply list_elem_of_fmap. exists x. pose proof (Hs _ _ Ek) as Hkx. split; [done|]. apply Hm. by rewrite Hkx.
      * congruence.
    + apply last_with_none. intros (x & -> & [Hx _]%Hm)%list_elem_of_fmap. congruence.
Qed.

Lemma merge_entries_spec existing static :
  map_Forall (fun k x => key x = k) static ->
  match merge_entries existing static with
  | None => forall k x, static !! k = Some x -> k ∈ key <$> existing
  | Some m => forall k, m !! k = kept_or_default existing static k
  end.
Proof.
  intros Hs. unfold merge_entries. destruct (missing_entries existing static) as [|x0 l0] eqn:E.
  - intros k x Hk. pose proof (missing_last existing static k Hs) as Hl. rewrite E in Hl. case_bool_decide; [done|]. cbn in Hl. congruence.
  - intros k. rewrite index_by_lookup, last_with_app, <- E, missing_last by done. unfold kept_or_default. case_bool_decide as Ek.
    + destruct (last_with_some _ _ Ek) as (x & -> & _). done.
    + rewrite (last_with_none k existing) by done. by destruct (static !! k).
Qed.
End Entries.

(** The merge of a file of entries, as both files do it: [prepare] is done to every decoded entry. *)
Section MergeFile.
Context {K A W : Type} `{Countable K} `{FS : FileSystem W} {RO : RangeOrder}.
Variable key : A -> K.
Variables (Unmarshal : string -> go_error + list A) (prepare : A -> A) (complete : A -> bool).
Variables (text_of : gmap K A -> string) (context : string -> string) (invalid : A -> string).
Variable static : gmap K A.

Definition validate_entries (text testToml : string) : option go_error :=
  match Unmarshal testToml with
  | inl err => Some (ErrWrap "merged config validation failed: " err (context text))
  | inr testConfig =>
      match filter (fun x => complete x = false) testConfig with
      | [] => None
      | x :: _ => Some (ErrNew (invalid x))
      end
  end.

Definition merge_file (path : string) (w : W) : option go_error * W :=
  match read_decoded Unmarshal path w with
  | (inl err, w) => (Some err, w)
  | (inr entries, w) =>
      match merge_entries key (prepare <$> entries) static with
      | None => (None, w)
      | Some merged => let text := text_of merged in replace_validated path text (validate_entries text) w
      end
  end.

(** What a merge leaves. *)
Definition merged_file (path : string) (w : W) (r : option go_error) (w' : W) : Prop :=
  (forall q, q <> path -> q <> temp_of path -> file w' q = file w q) /\
  match r with
  | Some _ => file w' path = file w path
  | None => exists text entries, file w path = Some text /\ Unmarshal text = inr entries /\
      ((forall k x, static !! k = Some x -> k ∈ key <$> (prepare <$> entries)) /\ file w' path = Some text \/
       exists m again, file w' path = Some (text_of m) /\ file w' (temp_of path) = None /\
         (forall k, m !! k = kept_or_default key (prepare <$> entries) static k) /\
         Unmarshal (text_of m) = inr again /\ Forall (fun x => complete x = true) again)
  end.

Context `{FL : !FileSystemLaws W}.

Lemma merge_file_spec path w r w' :
  map_Forall (fun k x => key x = k) static -> merge_file path w = (r, w') -> merged_file path w r w'.
Proof using FL.
  intros Hs. unfold merge_file. destruct (read_decoded Unmarshal path w) as [[err|entries] w1] eqn:Er;
    destruct (read_decoded_spec _ _ _ _ _ Er) as [Hr Hu].
  { intros [= <- <-]. split; [by intros; apply Hr|apply Hr]. }
  destruct (Hu _ eq_refl) as (text & Hf & Ht). pose proof (merge_entries_spec key (prepare <$> entries) static Hs) as Hm.
  destruct (merge_entries key _ _) as [m|].
  - intros Hrep. apply replace_validated_spec in Hrep as [Hframe Hres]. split; [intros q H1 H2; by rewrite Hframe, Hr|].
    destruct r; [by rewrite Hres, Hr|]. destruct Hres as (H1 & H2 & H3). exists text, entries. split_and!; [done|done|]. right.
    unfold validate_entries in H3. destruct (Unmarshal (text_of m)) as [|again] eqn:Eu; [done|].
    exists m, again. split_and!; try done. apply Forall_forall. intros x Hx. destruct (complete x) eqn:Ec; [done|].
    assert (x ∈ filter (fun x => complete x = false) again) as Hin by (by apply list_elem_of_filter).
    destruct (filter _ again); [by apply elem_of_nil in Hin|done].
  - intros [= <- <-]. split; [by intros; apply Hr|]. exists text, entries. split_and!; [done|done|]. left. split; [exact Hm|by rewrite Hr].
Qed.
End MergeFile.

(** Entries read at the start: every one must be complete, and the last of an id counts. *)
Lemma read_entries_Ok {K A} `{Countable K} (key : A -> K) (complete : A -> bool) (p : A -> go_panic) l (m0 : gmap K A) r :
  foldM_go (fun (m : gmap K A) x => if complete x then Ok (<[key x := x]> m) else Panic (p x)) m0 l = r ->
  match r with
  | Ok m => Forall (fun x => complete x = true) l /\ m = foldl (fun (m : gmap K A) x => <[key x := x]> m) m0 l
  | Err _ => False
  | Panic q => exists x, x ∈ l /\ complete x = false /\ q = p x
  end.
Proof.
  revert m0. induction l as [|x l IH]; intros m0; cbn [foldM_go].
  - intros <-. split; [constructor|done].
  - destruct (complete x) eqn:Ec; cbn [mbind go_bind].
    + intros Hr. specialize (IH _ Hr). destruct r as [m|err|q]; [|done|].
      * destruct IH as [Hall ->]. split; [by constructor|done].
      * destruct IH as (y & Hy & ? & ?). exists y. split; [by right|done].
    + intros <-. exists x. split; [left|done].
Qed.

(** ** default_pricefeed_exchange_config.go *)
Definition nl : string := String (ascii_of_nat 10) "".
Definition tab : string := String (ascii_of_nat 9) "".
Definition tabbed (s : string) : string := nl +:+ tab +:+ s.

Definition exchange_header : string :=
  "# This is a TOML config file." +:+
  foldr (fun s rest => tabbed s +:+ rest) ""
    ["# StaticExchangeStartupConfig represents the mapping of exchanges to the parameters for"; "# querying from them."; "#";
     "# ExchangeId - Unique string identifying an exchange."; "#";
     "# IntervalMs - Delays between sending API requests to get exchange market prices - cannot be 0."; "#";
     "# TimeoutMs - Max time to wait on an API call to an exchange - cannot be 0."; "#";
     "# MaxQueries - Max api calls to get market prices for an exchange to make in a task-loop -";
     "# cannot be 0. For multi-market API exchanges, the behavior will default to 1."].

Definition exchange_text (x : ExchangeQueryConfig) : string :=
  tabbed "[[exchanges]]" +:+ tabbed ("ExchangeId = " +:+ quoted (eqc_ExchangeId x)) +:+
  tabbed ("IntervalMs = " +:+ pretty (IntervalMs x)) +:+ tabbed ("TimeoutMs = " +:+ pretty (TimeoutMs x)) +:+
  tabbed ("MaxQueries = " +:+ pretty (MaxQueries x)).

Definition exchange_complete (x : ExchangeQueryConfig) : bool :=
  negb ((IntervalMs x =? 0) || (TimeoutMs x =? 0) || (MaxQueries x =? 0)).

Section Exchanges.
Context {W : Type} `{FS : FileSystem W} {RO : RangeOrder}.
Variable Unmarshal : string -> go_error + list ExchangeQueryConfig.   (** the tables [[exchanges]] *)
Variable StaticExchangeQueryConfig : gmap ExchangeId ExchangeQueryConfig.

Definition exchanges_text (m : gmap ExchangeId ExchangeQueryConfig) : string :=
  exchange_header +:+ foldr (fun x rest => exchange_text x +:+ rest) "" (sorted_values String.le m) +:+ nl.

Definition GenerateDefaultExchangeTomlString : string := exchanges_text StaticExchangeQueryConfig.

Definition MergePricefeedExchangeConfig : string -> W -> option go_error * W :=
  merge_file eqc_ExchangeId Unmarshal (fun x => x) exchange_complete exchanges_text (fun _ => "")
    (fun x => "merged config has invalid exchange: " +:+ eqc_ExchangeId x) StaticExchangeQueryConfig.

Definition WriteDefaultPricefeedExchangeToml (configDir path : string) : W -> go unit * W :=
  write_default configDir path (Ok GenerateDefaultExchangeTomlString) "pricefeed exchange" false
    (fun w => error_result (MergePricefeedExchangeConfig path w)).

Definition ReadExchangeQueryConfigFile (path : string) (w : W) : go (gmap ExchangeId ExchangeQueryConfig) * W :=
  match ReadFile path w with
  | (inl err, w) => (Panic (PanicMsg (error_text err)), w)
  | (inr tomlFile, w) =>
      (match Unmarshal tomlFile with
       | inl err => Panic (PanicMsg (error_text err))
       | inr exchanges =>
           foldM_go (fun m x =>
             if exchange_complete x then Ok (<[eqc_ExchangeId x := x]> m)
             else Panic (PanicMsg ("one or more query config values are unset or are set to zero for exchange with id: '"
                    +:+ eqc_ExchangeId x +:+ "'"))) ∅ exchanges
       end, w)
  end.
End Exchanges.

(** ** strconv.Unquote of a text in double quotes

    [skip] bytes belong to the escape that was read last. *)
Definition utf8 (v : Z) : string :=
  let b n := String (ascii_of_nat (Z.to_nat n)) in
  if v <? 128 then b v ""
  else if v <? 2048 then b (192 + v / 64) (b (128 + v mod 64) "")
  else if v <? 65536 then b (224 + v / 4096) (b (128 + (v / 64) mod 64) (b (128 + v mod 64) ""))
  else b (240 + v / 262144) (b (128 + (v / 4096) mod 64) (b (128 + (v / 64) mod 64) (b (128 + v mod 64) ""))).

Definition ValidRune (v : Z) : bool := ((0 <=? v) && (v <? 55296)) || ((57343 <? v) && (v <=? 1114111)).

Fixpoint digits_in (digit : ascii -> option Z) (base : Z) (n : nat) (acc : Z) (s : string) : option Z :=
  match n, s with
  | O, _ => Some acc
  | S n, String a s => d ← digit a; digits_in digit base n (acc * base + d) s
  | S _, EmptyString => None
  end.

Definition octal_digit (a : ascii) : option Z :=
  let n := Z.of_nat (nat_of_ascii a) - 48 in if (0 <=? n) && (n <? 8) then Some n else None.

(** What follows a backslash: the bytes it stands for, and how many bytes it takes. *)
Definition escape_value (s : string) : option (string * nat) :=
  let byte n := String (ascii_of_nat (Z.to_nat n)) "" in
  let rune n t := v ← digits_in hex_digit 16 n 0 t; if ValidRune v then Some (utf8 v, S n) else None in
  match s with
  | EmptyString => None
  | String c t =>
      match c with
      | "a"%char => Some (byte 7, 1%nat) | "b"%char => Some (byte 8, 1%nat) | "f"%char => Some (byte 12, 1%nat) | "n"%char => Some (byte 10, 1%nat)
      | "r"%char => Some (byte 13, 1%nat) | "t"%char => Some (byte 9, 1%nat) | "v"%char => Some (byte 11, 1%nat)
      | "x"%char => v ← digits_in hex_digit 16 2 0 t; Some (byte v, 3%nat)
      | "u"%char => rune 4%nat t
      | "U"%char => rune 8%nat t
      | "\"%char | "034"%char => Some (String c "", 1%nat)
      | _ =>
          match octal_digit c with
          | Some _ => v ← digits_in octal_digit 8 3 0 s; if v <? 256 then Some (byte v, 3%nat) else None
          | None => None
          end
      end
  end.

Fixpoint unquote_from (skip : nat) (s : string) : option string :=
  match s with
  | EmptyString => Some EmptyString
  | String a t =>
      match skip with
      | S skip => unquote_from skip t
      | O =>
          if Ascii.eqb a (ascii_of_nat 34) || Ascii.eqb a (ascii_of_nat 10) then None
          else if Ascii.eqb a "\" then
            '(v, n) ← escape_value t; rest ← unquote_from n t; Some (v +:+ rest)
          else String a <$> unquote_from O t
      end
  end.

(** [strconv.Unquote] of the text between two double quotes. *)
Definition Unquote_inner (s : string) : option string := unquote_from O s.

(** ** default_market_param_config.go *)
Fixpoint replace_byte (old : ascii) (new s : string) : string :=
  match s with
  | EmptyString => EmptyString
  | String a t => if Ascii.eqb a old then new +:+ replace_byte old new t else String a (replace_byte old new t)
  end.

Definition escapeTomlString (s : string) : string :=
  let dq := ascii_of_nat 34 in
  replace_byte dq (String "\" (String dq "")) (replace_byte "\" "\\" s).

Fixpoint trim_quotes_left (s : string) : string :=
  match s with String a t => if Ascii.eqb a (ascii_of_nat 34) then trim_quotes_left t else s | _ => s end.
Fixpoint trim_quotes_right (s : string) : string :=
  match s with
  | EmptyString => EmptyString
  | String a t =>
      match trim_quotes_right t with
      | EmptyString => if Ascii.eqb a (ascii_of_nat 34) then EmptyString else String a EmptyString
      | t => String a t
      end
  end.
(** [strings.Trim] of double quotes. *)
Definition trim_quotes (s : string) : string := trim_quotes_right (trim_quotes_left s).

(** What is done to a decoded entry. *)
Definition unescape_param (p : MarketParam) : MarketParam :=
  let json :=
    if contains (String "\" (String (ascii_of_nat 34) "")) (ExchangeConfigJson p)
    then default (ExchangeConfigJson p) (Unquote_inner (ExchangeConfigJson p)) else ExchangeConfigJson p in
  let data := match QueryData p with
              | String a _ => if Ascii.eqb a (ascii_of_nat 34) then trim_quotes (QueryData p) else QueryData p
              | EmptyString => EmptyString
              end in
  mkMarketParam (Id p) (Pair p) (mp_Exponent p) (MinExchanges p) (MinPriceChangePpm p) json data.

Definition param_complete (p : MarketParam) : bool :=
  negb ((mp_Exponent p =? 0) || (MinExchanges p =? 0) || (MinPriceChangePpm p =? 0) || bool_decide (QueryData p = "")).

Definition market_params_header : string :=
  "# This is a TOML config file." +:+
  foldr (fun s rest => tabbed s +:+ rest) ""
    ["# StaticMarketParamStartupConfig represents the mapping of exchanges to the parameters for"; "# querying from them."; "#";
     "# market_params - Unique string identifying an exchange."; "#";
     "# Id - Delays between sending API requests to get exchange market prices - cannot be 0."; "#";
     "# MinExchanges - The minimum number of exchanges that should be reporting a live price for";
     "# a price update to be considered valid."; "#"; "# Exponent - The exponent of the price."; "#";
     "# Pair - The human-readable name of the market pair (e.g. " +:+ quoted "BTC-USD" +:+ ")."; "#";
     "# QueryData - Layer representation of the market pair."].

Definition market_param_text (p : MarketParam) : string :=
  tabbed "[[market_params]]" +:+
  tabbed ("ExchangeConfigJson = " +:+ quoted (escapeTomlString (ExchangeConfigJson p))) +:+
  tabbed ("QueryData = " +:+ quoted (escapeTomlString (QueryData p))) +:+
  tabbed ("Exponent = " +:+ pretty (mp_Exponent p)) +:+ tabbed ("Id = " +:+ pretty (Id p)) +:+
  tabbed ("MinExchanges = " +:+ pretty (MinExchanges p)) +:+ tabbed ("MinPriceChangePpm = " +:+ pretty (MinPriceChangePpm p)) +:+
  tabbed ("Pair = " +:+ quoted (escapeTomlString (Pair p))) +:+ nl.

Section Params.
Context {W : Type} `{FS : FileSystem W} {RO : RangeOrder}.
Variable Unmarshal : string -> go_error + list MarketParam.   (** the tables [[market_params]] *)
Variable StaticMarketParamsConfig : gmap MarketId MarketParam.

Definition market_params_text (m : gmap MarketId MarketParam) : string :=
  market_params_header +:+ nl +:+ foldr (fun p rest => market_param_text p +:+ rest) "" (sorted_values Z.le m) +:+ nl.

Definition GenerateDefaultMarketParamsTomlString : string := market_params_text StaticMarketParamsConfig.

(** The first lines of the text, for the error. *)
Definition first_lines (text : string) : string :=
  "First 20 lines of generated TOML:" +:+ nl +:+
  foldr (fun s rest => s +:+ rest) "" (imap (fun i line => pretty (S i) +:+ ": " +:+ line +:+ nl) (take 20 (strings_Split text (ascii_of_nat 10)))).

Definition MergeMarketParamsConfig : string -> W -> option go_error * W :=
  merge_file Id Unmarshal unescape_param param_complete market_params_text (fun text => nl +:+ first_lines text)
    (fun p => "merged config has invalid market param: " +:+ pretty (Id p)) StaticMarketParamsConfig.

Definition WriteDefaultMarketParamsToml (configDir path : string) : W -> go unit * W :=
  write_default configDir path (Ok GenerateDefaultMarketParamsTomlString) "market params" false
    (fun w => error_result (MergeMarketParamsConfig path w)).

Definition ReadMarketParamsConfigFile (path : string) (w : W) : go (list MarketParam) * W :=
  match ReadFile path w with
  | (inl err, w) => (Panic (PanicMsg (error_text err)), w)
  | (inr tomlFile, w) =>
      (match Unmarshal tomlFile with
       | inl err => Panic (PanicMsg (error_text err))
       | inr params =>
           m ← foldM_go (fun m p =>
                 if param_complete p then Ok (<[Id p := p]> m)
                 else Panic (PanicMsg ("one or more config values are unset or are set to zero for pair with id: '" +:+ pretty (Id p) +:+ "'")))
                 (∅ : gmap MarketId MarketParam) (unescape_param <$> params);
           Ok (range_of m).*2
       end, w)
  end.
End Params.

(** ** The escapes of market params *)
Lemma escape_cons a t :
  escapeTomlString (String a t) =
  (if Ascii.eqb a "\" || Ascii.eqb a (ascii_of_nat 34) then String "\" (String a (escapeTomlString t)) else String a (escapeTomlString t)).
Proof.
  unfold escapeTomlString. cbn [replace_byte]. destruct (Ascii.eqb_spec a "\") as [->|Ha]; cbn [orb].
  - reflexivity.
  - cbn [replace_byte]. destruct (Ascii.eqb_spec a (ascii_of_nat 34)) as [->|Hq]; reflexivity.
Qed.

Fixpoint one_line (s : string) : bool :=
  match s with String a t => negb (Ascii.eqb a (ascii_of_nat 10)) && one_line t | EmptyString => true end.

Lemma unquote_escape s : one_line s = true -> Unquote_inner (escapeTomlString s) = Some s.
Proof.
  unfold Unquote_inner. induction s as [|a t IH]; [done|]. cbn [one_line]. intros [Ha%negb_true_iff Ht]%andb_true_iff. specialize (IH Ht).
  rewrite escape_cons. destruct (Ascii.eqb_spec a "\") as [->|Hb]; cbn [orb].
  - cbn. by rewrite IH.
  - destruct (Ascii.eqb_spec a (ascii_of_nat 34)) as [->|Hq].
    + change (ascii_of_nat 34) with "034"%char. cbn. by rewrite IH.
    + cbn [unquote_from]. rewrite (proj2 (Ascii.eqb_neq a (ascii_of_nat 34)) Hq), Ha, (proj2 (Ascii.eqb_neq a "\") Hb). cbn [orb]. by rewrite IH.
Qed.

Lemma one_line_app s t : one_line (s +:+ t) = one_line s && one_line t.
Proof.
  induction s as [|a s IH]; [done|]. change (String a s +:+ t) with (String a (s +:+ t)). cbn [one_line]. by rewrite IH, andb_assoc.
Qed.

Lemma contains_escaped s : (exists x y, s = x +:+ String (ascii_of_nat 34) y) ->
  contains (String "\" (String (ascii_of_nat 34) "")) (escapeTomlString s) = true.
Proof.
  intros (x & y & ->). apply contains_iff.
  assert (forall u v, exists u', escapeTomlString (u +:+ v) = u' +:+ escapeTomlString v) as Happ.
  { induction u as [|a u IH]; intros v; [by exists ""|]. destruct (IH v) as [u' E].
    change (String a u +:+ v) with (String a (u +:+ v)). rewrite escape_cons, E.
    destruct (_ || _); [by exists (String "\" (String a u'))|by exists (String a u')]. }
  destruct (Happ x (String (ascii_of_nat 34) y)) as [x' ->]. exists x', (escapeTomlString y). rewrite escape_cons. reflexivity.
Qed.

(** A JSON text of one line that the decoder gives back with its escapes is the text again. *)
Lemma unescape_escaped p :
  one_line (ExchangeConfigJson p) = true -> (exists x y, ExchangeConfigJson p = x +:+ String (ascii_of_nat 34) y) ->
  ExchangeConfigJson (unescape_param (mkMarketParam (Id p) (Pair p) (mp_Exponent p) (MinExchanges p) (MinPriceChangePpm p)
    (escapeTomlString (ExchangeConfigJson p)) (QueryData p))) = ExchangeConfigJson p.
Proof.
  intros Hl Hq. unfold unescape_param. cbn [ExchangeConfigJson]. rewrite contains_escaped by done. by rewrite unquote_escape.
Qed.

(** C33: A merge of the file of market params touches no file but it and its temporary neighbour. When it fails the file is as it was. When
    it succeeds, either every built-in market was in the file, which is as it was, or the file is the text of the
    market params of the file, by id and the last of each id, with the built-in ones added for the other ids; that
    text was decoded and has no incomplete entry, and the temporary file is gone. *)
Theorem market_params_merge_correct {W} `{FS : FileSystem W} `{FL : !FileSystemLaws W} {RO : RangeOrder} Unmarshal StaticMarketParamsConfig path (w : W) r w' :
  map_Forall (fun id p => Id p = id) StaticMarketParamsConfig ->
  MergeMarketParamsConfig Unmarshal StaticMarketParamsConfig path w = (r, w') ->
  (forall q, q <> path -> q <> temp_of path -> file w' q = file w q) /\
  match r with
  | Some _ => file w' path = file w path
  | None => exists text params, file w path = Some text /\ Unmarshal text = inr params /\
      let existing := unescape_param <$> params in
      ((forall id p, StaticMarketParamsConfig !! id = Some p -> id ∈ Id <$> existing) /\ file w' path = Some text \/
       exists m again, file w' path = Some (market_params_text m) /\ file w' (temp_of path) = None /\
         (forall id, m !! id = kept_or_default Id existing StaticMarketParamsConfig id) /\
         Unmarshal (market_params_text m) = inr again /\ Forall (fun p => param_complete p = true) again)
  end.
Proof. intros Hs Hm. exact (merge_file_spec _ _ _ _ _ _ _ _ path w r w' Hs Hm). Qed.

Lemma exchange_merge_correct {W} `{FS : FileSystem W} `{FL : !FileSystemLaws W} {RO : RangeOrder} Unmarshal Static path (w : W) r w' :
  map_Forall (fun id x => eqc_ExchangeId x = id) Static -> MergePricefeedExchangeConfig Unmarshal Static path w = (r, w') ->
  merged_file eqc_ExchangeId Unmarshal (fun x => x) exchange_complete exchanges_text Static path w r w'.
Proof. intros Hs Hm. exact (merge_file_spec _ _ _ _ _ _ _ _ path w r w' Hs Hm). Qed.

(** The file that is read must be complete; every id then has one entry, the last of the file. *)
Lemma read_market_params_correct {W} `{FS : FileSystem W} {RO : RangeOrder} Unmarshal path (w w' : W) text params :
  ReadFile path w = (inr text, w') -> Unmarshal text = inr params ->
  let existing := unescape_param <$> params in
  match (ReadMarketParamsConfigFile Unmarshal path w).1 with
  | Ok l => Forall (fun p => param_complete p = true) existing /\ NoDup (Id <$> l) /\ forall p, p ∈ l <-> last_with Id (Id p) existing = Some p
  | Err _ => False
  | Panic _ => Exists (fun p => param_complete p = false) existing
  end.
Proof.
  intros Hr Hu. unfold ReadMarketParamsConfigFile. rewrite Hr, Hu. cbv zeta. cbn [fst].
  destruct (foldM_go _ _ _) as [m|err|p] eqn:E; apply read_entries_Ok in E; cbn [mbind go_bind]; [|done|].
  - destruct E as [Hall ->]. split; [done|]. fold (index_by Id (unescape_param <$> params)).
    set (m := index_by Id (unescape_param <$> params)).
    assert (forall id p, m !! id = Some p -> Id p = id) as Hid.
    { intros id p Hp. unfold m in Hp. rewrite index_by_lookup in Hp. unfold last_with in Hp.
      apply last_Some_elem_of, list_elem_of_filter in Hp. tauto. }
    split.
    + rewrite <- list_fmap_compose. assert ((Id ∘ snd) <$> range_of m = (range_of m).*1) as ->; [|apply range_of_NoDup_keys].
      apply list_fmap_ext. intros i [k p] Hi. cbn. apply Hid. apply elem_of_range_of. by eapply list_elem_of_lookup_2.
    + intros p. rewrite list_elem_of_fmap. split.
      * intros ([k p'] & -> & Hin%elem_of_range_of). cbn. rewrite (Hid _ _ Hin). by rewrite <- index_by_lookup.
      * intros Hp. exists (Id p, p). split; [done|]. apply elem_of_range_of. unfold m. by rewrite index_by_lookup.
  - destruct E as (x & Hx & Hc & _). apply Exists_exists. by exists x.
Qed.

(** ** An example: one market in the file, two built in *)
Definition ex_param (id : Z) (pair : string) : MarketParam := mkMarketParam id pair (-6) 1 1000 "{}" "data".
Definition ex_decode (text : string) : go_error + list MarketParam :=
  if bool_decide (text = "old") then inr [ex_param 1 "A-USD"]
  else inr [ex_param 1 "A-USD"; ex_param 2 "B-USD"].
Definition ex_static : gmap MarketId MarketParam := {[ 1 := ex_param 1 "NEW-USD"; 2 := ex_param 2 "B-USD" ]}.
Definition ex_files : gmap string string := {[ "config" := "old"; "other" := "kept" ]}.
Definition ex_merge := MergeMarketParamsConfig (RO := canonical_range) ex_decode ex_static "config" ex_files.

Lemma market_params_merge_correct_witness :
  ex_merge.1 = None /\ ex_merge.2 !! "other" = Some "kept" /\
  exists m, ex_merge.2 !! "config" = Some (market_params_text (RO := canonical_range) m) /\
    m !! 1 = Some (ex_param 1 "A-USD") /\ m !! 2 = Some (ex_param 2 "B-USD").
Proof.
  assert (map_Forall (fun id p => Id p = id) ex_static) as Hs.
  { intros id p Hp. unfold ex_static in Hp. apply lookup_insert_Some in Hp as [[<- <-]|[_ Hp]]; [done|].
    apply lookup_singleton_Some in Hp as [<- <-]. done. }
  assert (ex_merge.1 = None) as H1 by (vm_compute; reflexivity).
  assert (ex_merge = (None, ex_merge.2)) as E by (rewrite <- H1; apply surjective_pairing).
  destruct (market_params_merge_correct (RO := canonical_range) ex_decode ex_static "config" ex_files None ex_merge.2 Hs E)
    as (Hframe & text & params & Hf & Hu & H).
  split; [exact H1|]. split.
  { change (ex_merge.2 !! "other") with (file ex_merge.2 "other"). rewrite (Hframe "other") by discriminate. reflexivity. }
  assert (text = "old") as -> by (injection Hf as <-; reflexivity).
  assert (params = [ex_param 1 "A-USD"]) as -> by (vm_compute in Hu; injection Hu as <-; reflexivity).
  destruct H as [[Hall _]|(m & again & Hm & _ & Hlook & _)].
  - exfalso. specialize (Hall 2 (ex_param 2 "B-USD") eq_refl). apply list_elem_of_singleton in Hall. discriminate Hall.
  - exists m. split; [exact Hm|]. rewrite !Hlook. split; vm_compute; reflexivity.
Defined.
