(* ===== verification/QueryConfigFile.v ===== *)
(** * custom_query: the file of custom queries

    The comments on feeds (query_feed_comment.go), the text of the configuration as the
    template writes it, and its merge with the built-in queries at every start
    (default_custom_query_config.go). *)
From Stdlib Require Import Ascii.
From S2P Require Import QueryEndpoints.
From S2P Require Import Prelude Text TokenBridge Messages Float64 BigFloat CustomQuery.
From S2P Require Import MarketConfig PriceFetcher CombinedHandlers ConfigFiles.
From S2P Require Import QueryEndpoints.
Local Open Scope Z_scope.

(** ** query_feed_comment.go *)
Definition contractHandlerCollateral : gmap string string :=
  list_to_map [("yieldfi_yusd_handler", "USDC"); ("yieldfi_vyusd_handler", "USDC"); ("yieldfi_yeth_handler", "ETH");
    ("susdeusd_handler", "USDE"); ("reth_handler", "ETH"); ("wsteth_handler", "stETH")].
Definition contractHandlerLabel : gmap string string :=
  list_to_map [("yieldfi_yusd_handler", "yieldfi-yusd contract"); ("yieldfi_vyusd_handler", "yieldfi-vyusd contract");
    ("yieldfi_yeth_handler", "yieldfi-yeth contract"); ("susdeusd_handler", "susde contract"); ("reth_handler", "reth contract");
    ("wsteth_handler", "wsteth contract")].
Definition combinedHandlerCollateral : gmap string string := list_to_map [("susn_price", "USN"); ("sfrxusd_price", "FRX")].
Definition combinedHandlerLabel : gmap string string := list_to_map [("susn_price", "susn contract"); ("sfrxusd_price", "sfrxusd contract")].

Definition marketIDToAsset (marketID : string) : string :=
  match strings_Split marketID "-" with
  | asset :: _ :: _ => asset
  | _ => marketID
  end.

Definition inferTargetAsset (q : ConfiguredQuery) : string :=
  match filter (fun ep => e_MarketId ep <> "") (endpoints q) with
  | ep :: _ => marketIDToAsset (e_MarketId ep)
  | [] =>
      match endpoints q with
      | [ep] =>
          let handler := e_Handler ep in
          if bool_decide (handler = "yieldfi_yusd_handler" \/ handler = "yieldfi_vyusd_handler") then "yUSD"
          else if bool_decide (handler = "yieldfi_yeth_handler") then "yETH"
          else if bool_decide (handler = "susn_price") then "SUSN"
          else if bool_decide (handler = "sfrxusd_price") then "sFRXUSD"
          else ""
      | _ => ""
      end
  end.

(** The collateral of a fundamental feed; a market feed has none. *)
Definition ClassifyQueryFeed (q : ConfiguredQuery) : option string :=
  match endpoints q with
  | [ep] =>
      if bool_decide (EndpointType ep = "contract") then contractHandlerCollateral !! e_Handler ep
      else if bool_decide (EndpointType ep = "combined") then combinedHandlerCollateral !! e_Handler ep
      else None
  | _ => None
  end.

Definition countCombinedRPCSources (ep : EndpointConfig) : nat :=
  length (filter (fun x => is_Some (cut "rpc:" x.2)) (map_to_list (CombinedSources ep))).

Definition label_of (labels : gmap string string) (ep : EndpointConfig) : string :=
  match labels !! e_Handler ep with
  | Some l => if bool_decide (l = "") then e_Handler ep else l
  | None => e_Handler ep
  end.

Definition fundamentalFeedComment (ep : EndpointConfig) (pair collateral : string) : string :=
  if bool_decide (EndpointType ep = "contract") then
    pair +:+ ": (fundamental) ratio from " +:+ label_of contractHandlerLabel ep +:+ " × " +:+ collateral +:+ "/USD pricefeed cache."
  else if bool_decide (EndpointType ep = "combined") then
    pair +:+ ": (fundamental) ratio from " +:+ label_of combinedHandlerLabel ep +:+ " × median " +:+ collateral +:+ "/USD from "
      +:+ pretty (countCombinedRPCSources ep) +:+ " sources."
  else pair +:+ ": (fundamental).".

Definition GenerateFeedComment (q : ConfiguredQuery) : string :=
  let targetAsset := inferTargetAsset q in
  let pair := (if bool_decide (targetAsset = "") then "asset" else targetAsset) +:+ "/USD" in
  match ClassifyQueryFeed q, endpoints q with
  | Some collateral, ep :: _ => fundamentalFeedComment ep pair collateral
  | _, _ => pair +:+ ": (market) median of " +:+ pretty (length (endpoints q)) +:+ " sources."
  end.

(** ** The text of the configuration *)
Record CombinedConfigs := mkCombined {
  all_Endpoints : gmap string EndpointTemplate; all_RPCEndpoints : gmap string (list string); all_Queries : gmap string ConfiguredQuery
}.

Definition line (indent s : string) : string := nl +:+ indent +:+ s.
Definition four : string := "    ".
Definition eight : string := "        ".
Definition tabs : string := tab +:+ tab.
Definition when (c : bool) (s : string) : string := if c then s else "".
Definition concat_all (l : list string) : string := foldr (fun s rest => s +:+ rest) "" l.
Definition has_suffix (s suf : string) : bool := (String.length suf <=? String.length s)%nat
  && bool_decide (String.substring (String.length s - String.length suf) (String.length suf) s = suf).

Definition quoted_list (l : list string) : string := strings_Join (quoted <$> l) ", ".
Definition pairs_text (l : list (string * string)) : string := strings_Join ((fun x => x.1 +:+ " = " +:+ quoted x.2) <$> l) ", ".

Section Render.
Context {RO : RangeOrder}.
Variable Sprint_value : toml -> string.       (** the verb %v *)
Variable range_other : toml -> go string.     (** ranging over a value that is not a list *)

Definition formatParams (params : gmap string string) : string := pairs_text (range_of params).
Definition formatCombinedSources (sources : gmap string string) : string := pairs_text (range_of sources).
Definition formatMapStringString (m : toml) : string :=
  match m with
  | TTable fields => pairs_text ((fun x => (x.1, value_text Sprint_value x.2)) <$> fields)
  | _ => ""
  end.

Definition tomlValue (v : toml) : string :=
  match v with
  | TStr s => quoted s
  | TBool b => if b then "true" else "false"
  | TInt n => pretty n
  | TFloat x => Sprintf_prec 6 x
  | v => quoted (Sprint_value v)
  end.

(** The entries of a map in the order of their keys, as a template ranges over them. *)
Definition sorted_entries {A} (m : gmap string A) : list (string * A) :=
  omap (fun k => pair k <$> m !! k) (merge_sort String.le (range_of m).*1).

Definition endpoint_text (x : string * EndpointTemplate) : string :=
  let '(key, e) := x in
  line four ("[endpoints." +:+ key +:+ "]") +:+
  line four ("url_template = " +:+ quoted (URLTemplate e)) +:+
  line four ("method = " +:+ quoted (t_Method e)) +:+
  line four ("timeout = " +:+ pretty (t_Timeout e)) +:+
  line four ("max_data_age_seconds = " +:+ pretty (t_MaxDataAgeSecs e)) +:+
  when (negb (bool_decide (t_Query e = ""))) (line four ("query = '''" +:+ t_Query e +:+ "'''")) +:+
  when (negb (bool_decide (ApiKey e = ""))) (line four ("api_key = " +:+ quoted (ApiKey e))) +:+
  when (negb (bool_decide (t_Headers e = ∅))) (line four ("headers = { " +:+ formatParams (t_Headers e) +:+ " }")).

Definition rpc_text (x : string * list string) : string :=
  line four ("[rpc_endpoints." +:+ x.1 +:+ "]") +:+ line four ("urls = [" +:+ quoted_list x.2 +:+ "]").

(** One value of the table of a combined endpoint. *)
Definition combined_value_text (x : string * toml) : go string :=
  let '(k, v) := x in
  if has_suffix k "_response_path" then
    elements ← match v with TArr l => Ok (quoted_list (value_text Sprint_value <$> l)) | v => range_other v end;
    Ok (line (tabs +:+ four) (k +:+ " = [" +:+ elements +:+ "]"))
  else if has_suffix k "_params" then Ok (line (tabs +:+ four) (k +:+ " = { " +:+ formatMapStringString v +:+ " }"))
  else Ok (line (tabs +:+ four) (k +:+ " = " +:+ tomlValue v)).

Definition query_endpoint_text (key : string) (e : EndpointConfig) : go string :=
  values ← mapM_go combined_value_text (sorted_entries (CombinedConfig e));
  Ok (line eight ("[[queries." +:+ key +:+ ".endpoints]]") +:+
      line eight ("endpoint_type = " +:+ quoted (EndpointType e)) +:+
      line eight ("response_path = [" +:+ quoted_list (e_ResponsePath e) +:+ "]") +:+
      line eight ("params = { " +:+ formatParams (e_Params e) +:+ " }") +:+
      when (negb (bool_decide (e_MarketId e = ""))) (line eight ("market_id = " +:+ quoted (e_MarketId e))) +:+
      when (negb (bool_decide (e_Handler e = ""))) (line eight ("handler = " +:+ quoted (e_Handler e))) +:+
      when (negb (bool_decide (Chain e = ""))) (line tabs ("chain = " +:+ quoted (Chain e))) +:+
      when (e_Invert e) (line tabs "invert = true") +:+
      when (negb (e_UsdViaID e =? 0)) (line tabs ("usd_via_id = " +:+ pretty (e_UsdViaID e))) +:+
      when (negb (e_MaxDataAgeSecs e =? 0)) (line tabs ("max_data_age_seconds = " +:+ pretty (e_MaxDataAgeSecs e))) +:+
      when (negb (bool_decide (CombinedSources e = ∅))) (line tabs ("combined_sources = { " +:+ formatCombinedSources (CombinedSources e) +:+ " }")) +:+
      when (negb (bool_decide (CombinedConfig e = ∅))) (line tabs ("[queries." +:+ key +:+ ".endpoints.combined_config]") +:+ concat_all values)).

Definition query_text (x : string * ConfiguredQuery) : go string :=
  let '(key, q) := x in
  texts ← mapM_go (query_endpoint_text key) (endpoints q);
  Ok (line four ("# " +:+ GenerateFeedComment q) +:+
      line four ("[queries." +:+ key +:+ "]") +:+
      line four ("id = " +:+ quoted (ID (base q))) +:+
      line four ("aggregation_method = " +:+ quoted (AggregationMethod (base q))) +:+
      line tab ("max_spread_percent = " +:+ tomlValue (TFloat (MaxSpreadPercent (base q)))) +:+
      line four ("min_responses = " +:+ pretty (MinResponses (base q))) +:+
      line four ("response_type = " +:+ quoted (ResponseType (base q))) +:+
      concat_all texts).

Definition defaults_text : string :=
  "# This is a TOML config file." +:+ nl +:+ concat_all (line "" <$>
    ["[defaults.spot_price]"; "fetch_timeout_ms = 2000"; "per_source_timeout_ms = 1000"; "max_source_retries = 1";
     "post_fetch_reserve_ms = 500"; "aggregation_buffer_ms = 100"; "";
     "[defaults.bridge_deposit]"; "fetch_timeout_ms = 15000"; "per_source_timeout_ms = 5000"; "max_source_retries = 3";
     "post_fetch_reserve_ms = 10000"; "aggregation_buffer_ms = 100"; ""; "[endpoints]"]).

(** The whole text; the template fails when it cannot range over a value. *)
Definition config_text (c : CombinedConfigs) : go string :=
  queries ← mapM_go query_text (sorted_entries (all_Queries c));
  Ok (defaults_text +:+ concat_all (endpoint_text <$> sorted_entries (all_Endpoints c)) +:+
      line "" "[rpc_endpoints]" +:+ concat_all (rpc_text <$> sorted_entries (all_RPCEndpoints c)) +:+
      nl +:+ line "" "[queries]" +:+ concat_all queries +:+ nl).

(** ** The merge *)
Definition custom_query_path (homeDir localDir file : string) : string := Join [homeDir; localDir; file].

Section Merge.
Context {W : Type} `{FS : FileSystem W}.
Variable Unmarshal : string -> go_error + Config.
Variable static : CombinedConfigs.

(** [GenerateDefaultConfigTomlString]. *)
Definition GenerateDefaultConfigTomlString : go string := or_panic (config_text static).

(** What is in the file is kept, what is built in and not in the file is added. *)
Definition merged_config (existing : Config) : CombinedConfigs :=
  mkCombined (QueryEndpoints.Endpoints existing ∪ all_Endpoints static) (RPCEndpoints existing ∪ all_RPCEndpoints static)
    (Queries existing ∪ all_Queries static).

Definition validate_config (testToml : string) : option go_error :=
  match Unmarshal testToml with
  | inl err => Some (wrapf "merged config validation failed" err)
  | inr _ => None
  end.

Definition MergeCustomQueryConfig (path : string) (w : W) : go unit * W :=
  match read_decoded Unmarshal path w with
  | (inl err, w) => (Err err, w)
  | (inr existingConfig, w) =>
      match config_text (merged_config existingConfig) with
      | Err err => (Err (wrapf "failed to execute template" err), w)
      | Panic p => (Panic p, w)
      | Ok text =>
          error_result (replace_validated path text validate_config w)
      end
  end.

Definition WriteDefaultConfigToml (configDir path : string) : W -> go unit * W :=
  write_default configDir path GenerateDefaultConfigTomlString "custom query" true (MergeCustomQueryConfig path).
End Merge.
End Render.

(** ** What a merge keeps and what it forgets *)

(** A configuration without its defaults, and without the type and the timeouts of its queries. *)
Definition forget_query (q : ConfiguredQuery) : ConfiguredQuery :=
  let b := base q in
  mkConfigured (mkQueryConfig (ID b) "" (AggregationMethod b) (MinResponses b) (ResponseType b) (MaxSpreadPercent b)
    (mkTimeoutDefaults 0 0 0 0 0) [] [] []) (endpoints q).
Definition forget (c : Config) : Config := mkConfig (QueryEndpoints.Endpoints c) (RPCEndpoints c) (forget_query <$> Queries c) ∅.

Section Forget.
Context {RO : RangeOrder}.
Variables (Sprint_value : toml -> string) (range_other : toml -> go string).

Lemma query_text_forget key q :
  query_text Sprint_value range_other (key, forget_query q) = query_text Sprint_value range_other (key, q).
Proof using Type. reflexivity. Qed.

Lemma sorted_keys_dom {A B} (m : gmap string A) (m' : gmap string B) :
  dom m = dom m' -> merge_sort String.le (range_of m).*1 = merge_sort String.le (range_of m').*1.
Proof using Type.
  intros Hd. apply (StronglySorted_unique String.le).
  1,2: apply StronglySorted_merge_sort; apply _.
  rewrite !merge_sort_Permutation. apply NoDup_Permutation; [apply range_of_NoDup_keys..|]. intros k.
  assert (forall C (n : gmap string C), k ∈ (range_of n).*1 <-> k ∈ dom n) as Hk.
  { intros C n. rewrite elem_of_dom, list_elem_of_fmap. split.
    - intros ([k' x] & -> & H%elem_of_range_of). by exists x.
    - intros [x Hx]. exists (k, x). by rewrite elem_of_range_of. }
  by rewrite !Hk, Hd.
Qed.

Lemma sorted_entries_map {A} (f : A -> A) (m m' : gmap string A) :
  (forall k, f <$> m !! k = f <$> m' !! k) -> prod_map id f <$> sorted_entries m = prod_map id f <$> sorted_entries m'.
Proof using Type.
  intros Hm. unfold sorted_entries. rewrite (sorted_keys_dom m m').
  - generalize (merge_sort String.le (range_of m').*1). intros l. induction l as [|k l IH]; [done|]. cbn.
    specialize (Hm k). destruct (m !! k), (m' !! k); cbn in *; try done. injection Hm as Hm. by rewrite Hm, IH.
  - apply set_eq. intros k. rewrite !elem_of_dom. specialize (Hm k). destruct (m !! k), (m' !! k); done.
Qed.

Lemma queries_forget l :
  mapM_go (query_text Sprint_value range_other) (prod_map id forget_query <$> l) = mapM_go (query_text Sprint_value range_other) l.
Proof using Type.
  induction l as [|[key q] l IH]; [done|]. rewrite fmap_cons. cbn [mapM_go prod_map fst snd id]. by rewrite query_text_forget, IH.
Qed.

(** The text of a merge is the same without the [defaults] of the file and without the timeouts and types of its queries: a
    merge replaces them. *)
Lemma merge_forgets static c :
  config_text Sprint_value range_other (merged_config static (forget c)) = config_text Sprint_value range_other (merged_config static c).
Proof using Type.
  unfold config_text. cbn [merged_config all_Endpoints all_RPCEndpoints all_Queries forget QueryEndpoints.Endpoints RPCEndpoints Queries].
  rewrite <- (queries_forget (sorted_entries ((forget_query <$> Queries c) ∪ _))), <- (queries_forget (sorted_entries (Queries c ∪ _))).
  by rewrite (sorted_entries_map forget_query ((forget_query <$> Queries c) ∪ all_Queries static) (Queries c ∪ all_Queries static))
    by (intros k; rewrite !lookup_union, lookup_fmap; destruct (Queries c !! k), (all_Queries static !! k); done).
Qed.
End Forget.

(** A merge of the file of custom queries touches no file but it and its temporary neighbour. When it fails the file is as it was; when it
    succeeds the file is the text of every endpoint, list of nodes and query that it had, with the built-in ones
    added under the other names, a text that could be decoded; nothing of what it had is in that text of the
    defaults, and of the types and timeouts of the queries. *)
Theorem query_config_merge_correct {RO : RangeOrder} {W} `{FS : FileSystem W} `{FL : !FileSystemLaws W}
    Sprint_value range_other Unmarshal static path (w : W) r w' :
  MergeCustomQueryConfig Sprint_value range_other Unmarshal static path w = (r, w') ->
  (forall q, q <> path -> q <> temp_of path -> file w' q = file w q) /\
  match r with
  | Ok _ => exists text config text',
      file w path = Some text /\ Unmarshal text = inr config /\ file w' path = Some text' /\ file w' (temp_of path) = None /\
      (exists again, Unmarshal text' = inr again) /\
      let merged := merged_config static config in
      config_text Sprint_value range_other merged = Ok text' /\
      config_text Sprint_value range_other (merged_config static (forget config)) = Ok text' /\
      forall k, all_Queries merged !! k = match Queries config !! k with Some q => Some q | None => all_Queries static !! k end
  | _ => file w' path = file w path
  end.
Proof.
  unfold MergeCustomQueryConfig. destruct (read_decoded Unmarshal path w) as [[err|config] w1] eqn:Er;
    destruct (read_decoded_spec _ _ _ _ _ Er) as [Hr Hu].
  { intros [= <- <-]. split; [by intros; apply Hr|apply Hr]. }
  destruct (Hu _ eq_refl) as (text & Hf & Ht). destruct (config_text _ _ _) as [text'|err|p] eqn:Ec.
  2,3: intros [= <- <-]; split; [by intros; apply Hr|apply Hr].
  destruct (replace_validated path text' (validate_config Unmarshal) w1) as [res w2] eqn:E.
  apply replace_validated_spec in E as [Hframe Hres]. unfold error_result. destruct res as [err|]; intros [= <- <-].
  - split; [intros q H1 H2; by rewrite Hframe, Hr|by rewrite Hres, Hr].
  - split; [intros q H1 H2; by rewrite Hframe, Hr|]. destruct Hres as (H1 & H2 & H3).
    exists text, config, text'. split_and!; try done.
    + unfold validate_config in H3. destruct (Unmarshal text') as [|again]; [done|by exists again].
    + by rewrite merge_forgets.
    + intros k. cbn. rewrite lookup_union. by destruct (Queries config !! k), (all_Queries static !! k).
Qed.

(** ** An example *)
Definition ex_query (qid : string) (ms : Z) : ConfiguredQuery :=
  mkConfigured (mkQueryConfig qid "" "median" 1 "uint256" (float_of_integer 10) (mkTimeoutDefaults ms 0 0 0 0) [] [] [])
    [sample_endpoint].
Definition ex_config : Config := mkConfig ∅ ∅ {[ "mine" := ex_query "q1" 9000 ]} {[ "spot_price" := mkTimeoutDefaults 9000 0 0 0 0 ]}.
Definition ex_static_config : CombinedConfigs :=
  mkCombined {[ "api" := sample_template ]} {[ "ethereum" := ["https://node"] ]} {[ "builtin" := ex_query "q2" 0 ]}.
Definition ex_query_merge : go unit * gmap string string :=
  MergeCustomQueryConfig (RO := canonical_range) (fun _ => "") (fun _ => Ok "") (fun _ => inr ex_config) ex_static_config "config"
    ({[ "config" := "old" ]} : gmap string string).

Example query_text_ex :
  query_text (RO := canonical_range) (fun _ => "") (fun _ => Ok "") ("mine", ex_query "q1" 9000) =
  Ok (concat_all (line "" <$>
    ["    # TRB/USD: (market) median of 1 sources."; "    [queries.mine]"; "    id = " +:+ quoted "q1";
     "    aggregation_method = " +:+ quoted "median"; tab +:+ "max_spread_percent = 10.000000"; "    min_responses = 1";
     "    response_type = " +:+ quoted "uint256"; "        [[queries.mine.endpoints]]"; "        endpoint_type = " +:+ quoted "api";
     "        response_path = [" +:+ quoted "usd" +:+ "]"; "        params = { coin = " +:+ quoted "trb" +:+ " }";
     "        market_id = " +:+ quoted "TRB-USD"; "        handler = " +:+ quoted "generic"])).
Proof. vm_compute. reflexivity. Qed.

Lemma query_config_merge_correct_witness :
  exists text, ex_query_merge.1 = Ok tt /\ ex_query_merge.2 !! "config" = Some text /\ ex_query_merge.2 !! "config.tmp" = None /\
    config_text (RO := canonical_range) (fun _ => "") (fun _ => Ok "") (merged_config ex_static_config (forget ex_config)) = Ok text.
Proof.
  assert (ex_query_merge.1 = Ok tt) as H1 by (vm_compute; reflexivity).
  assert (ex_query_merge = (Ok tt, ex_query_merge.2)) as E by (rewrite <- H1; apply surjective_pairing).
  destruct (query_config_merge_correct (RO := canonical_range) (fun _ => "") (fun _ => Ok "") (fun _ => inr ex_config) ex_static_config "config"
    _ _ _ E) as (_ & text & config & text' & _ & Hu & Hf & Hn & _ & _ & Hforget & _).
  injection Hu as <-. exists text'. split; [exact H1|]. split; [exact Hf|]. split; [exact Hn|exact Hforget].
Defined.
