(* ===== verification/StaticQueries.v ===== *)
(** * custom_query/constants.go: the built-in endpoints, nodes and queries

    The tables that the configuration file is made of at the first start, and that every query of them can
    be built and handled. *)
From Stdlib Require Import Ascii.
From S2P Require Import ContractReader ContractHandlers RpcHandlers CombinedHandlers QueryEndpoints QueryConfigFile.
From S2P Require Import Prelude Text TokenBridge Messages Float64 BigFloat CustomQuery RpcReader QueryEndpoints.
Local Open Scope Z_scope.

(** A text whose single quotes stand for double quotes. *)
Fixpoint double_quoted (s : string) : string :=
  match s with
  | EmptyString => EmptyString
  | String a t => String (if Ascii.eqb a "'" then ascii_of_nat 34 else a) (double_quoted t)
  end.

Definition get_template (url : string) (maxAge : Z) : EndpointTemplate := mkTemplate url "" "GET" 1000 "" ∅ maxAge.
Definition json_headers : gmap string string := {[ "Content-Type" := "application/json" ]}.
Definition graph_template (url query : string) : EndpointTemplate :=
  mkTemplate url (double_quoted query) "POST" 1000 "${SUBGRAPH_API_KEY}" json_headers 600.

Definition StaticEndpointTemplateConfig : gmap string EndpointTemplate := list_to_map [
  ("coingecko", get_template "https://api.coingecko.com/api/v3/simple/price?ids={coin_id}&vs_currencies=usd" 600);
  ("coingeckoPro", mkTemplate
    "https://pro-api.coingecko.com/api/v3/simple/price?ids={coin_id}&vs_currencies=usd&x_cg_pro_api_key={api_key}" "" "GET" 1000
    "${CGPRO_API_KEY}" ∅ 600);
  ("coinpaprika", get_template "https://api.coinpaprika.com/v1/tickers/{coin_id}?quotes=USD" 600);
  ("curve", get_template "https://prices.curve.finance/v1/usd_price/ethereum/{contract_address}" 600);
  ("curveSusdeFactoryStableNg", get_template "https://api.curve.fi/api/getPools/ethereum/factory-stable-ng" 600);
  ("curveEthereumGetPools", get_template "https://api.curve.fi/api/getPools/ethereum/{registry}" 600);
  ("crypto", get_template "https://api.crypto.com/v2/public/get-ticker?instrument_name={instrument_name}" 600);
  ("coinmarketcap", mkTemplate "https://pro-api.coinmarketcap.com/v1/cryptocurrency/quotes/latest?id={id}" "" "GET" 1000
    "${CMC_PRO_API_KEY}" (list_to_map [("Accept", "application/json"); ("X-CMC_PRO_API_KEY", "api_key")]) 600);
  ("coinbase", get_template "https://api.coinbase.com/v2/prices/{currency_pair}/spot" 600);
  ("osmosis", get_template "https://lcd.osmosis.zone/osmosis/gamm/v1beta1/pools/{pool_id}" 86400);
  ("uniswapV4ethereum", graph_template
    "https://gateway.thegraph.com/api/{api_key}/subgraphs/id/DiYPVdygkfjDWhbxGSqAQxwBKmfKnkWQojqeM2rkLb3G"
    "{'query': '{ token(id: \'{token_address}\') { derivedETH } }'}");
  ("theGraphUniswapStylePool", graph_template "https://gateway.thegraph.com/api/{api_key}/subgraphs/id/{subgraph_id}"
    "{'query': '{ pool(id: \'{pool_id}\') { token0 { id } token1 { id } token0Price token1Price } _meta { block { timestamp } } }'}");
  ("uniswapV3ethereum", graph_template
    "https://gateway.thegraph.com/api/{api_key}/subgraphs/id/5zvR82QoaXYFyDEKLZ9t6v9adgnptxYpKpSbxtgVENFV"
    "{'query': '{ token(id: \'{token_address}\') { derivedETH } }'}");
  ("sushiswapKatana", get_template "https://api.sushi.com/price/v1/747474" 600)].

Definition StaticRPCEndpointTemplateConfig : gmap string (list string) :=
  {[ "ethereum" := ["https://mainnet.infura.io/v3/${INFURA_API_KEY}"; "https://eth-mainnet.alchemyapi.io/v2/${ALCHEMY_API_KEY}";
                    "https://rpc.ankr.com/eth"] ]}.

(** The three shapes of endpoints. *)
Definition rest_endpoint (type : string) (path : list string) (key value market : string) : EndpointConfig :=
  mkEndpointConfig type path {[ key := value ]} market "" "" false 0 0 ∅ ∅.
Definition contract_endpoint (handler market : string) : EndpointConfig :=
  mkEndpointConfig "contract" [] ∅ market handler "ethereum" false 0 0 ∅ ∅.
Definition static_query (id : string) (spread minResponses : Z) (l : list EndpointConfig) : string * ConfiguredQuery :=
  (id, mkConfigured (mkQueryConfig id "" "median" minResponses "ufixed256x18" (float_of_integer spread) (mkTimeoutDefaults 0 0 0 0 0) [] [] []) l).

Definition one_param (key value : string) : toml := TTable [(key, TStr value)].
Definition path_of (l : list string) : toml := TArr (TStr <$> l).

Definition sfrxusd_endpoint : EndpointConfig :=
  mkEndpointConfig "combined" [] ∅ "SFRXUSD-USD" "sfrxusd_price" "" false 0 0
    (list_to_map [("ethereum", "contract:ethereum"); ("coingecko", "rpc:coingecko"); ("curve", "rpc:curve"); ("coinpaprika", "rpc:coinpaprika")])
    (list_to_map [
      ("min_responses", TInt 2); ("max_spread_percent", TFloat (float_of_integer 50));
      ("coingecko_params", one_param "coin_id" "frax"); ("coingecko_response_path", path_of ["frax"; "usd"]);
      ("curve_params", one_param "contract_address" "0x853d955aCEf822Db058eb8505911ED77F175b99e");
      ("curve_response_path", path_of ["data"; "usd_price"]);
      ("coinpaprika_params", one_param "coin_id" "frax-frax"); ("coinpaprika_response_path", path_of ["quotes"; "USD"; "price"])]).

Definition StaticQueriesConfig : gmap string ConfiguredQuery := list_to_map [
  static_query "05cddb6b67074aa61fcbe1d2fd5924e028bb699b506267df28c88f7deac4edc6" 50 2 [
    rest_endpoint "coingecko" ["savings-dai"; "usd"] "coin_id" "savings-dai" "SDAI-USD";
    rest_endpoint "coinpaprika" ["quotes"; "USD"; "price"] "coin_id" "sdai-savings-dai" "SDAI-USD";
    rest_endpoint "curve" ["data"; "usd_price"] "contract_address" "0x83F20F44975D03b1b09e64809B757c47f942BEeA" "SDAI-USD"];
  static_query "03731257e35c49e44b267640126358e5decebdd8f18b5e8f229542ec86e318cf" 10 1 [contract_endpoint "susdeusd_handler" "SUSDE-USD"];
  static_query "76b504e33305a63a3b80686c0b7bb99e7697466927ba78e224728e80bfaaa0be" 100 2 [
    rest_endpoint "coingeckoPro" ["tbtc"; "usd"] "coin_id" "tbtc" "TBTC-USD";
    rest_endpoint "coinmarketcap" ["data"; "26133"; "quote"; "USD"; "price"] "id" "26133" "TBTC-USD";
    rest_endpoint "coinbase" ["data"; "amount"] "currency_pair" "TBTC-USD" "TBTC-USD"];
  static_query "0bc2d41117ae8779da7623ee76a109c88b84b9bf4d9b404524df04f7d0ca4ca7" 100 1 [contract_endpoint "reth_handler" "RETH-USD"];
  static_query "1962cde2f19178fe2bb2229e78a6d386e6406979edc7b9a1966d89d83b3ebf2e" 100 1 [contract_endpoint "wsteth_handler" "WSTETH-USD"];
  static_query "ab30caa3e7827a27c153063bce02c0b260b29c0c164040c003f0f9ec66002510" 10 1 [sfrxusd_endpoint]].

Definition static_combined : CombinedConfigs :=
  mkCombined StaticEndpointTemplateConfig StaticRPCEndpointTemplateConfig StaticQueriesConfig.

(** The configuration that the file made of the tables stands for. *)
Definition static_config : Config :=
  mkConfig StaticEndpointTemplateConfig StaticRPCEndpointTemplateConfig StaticQueriesConfig StaticTimeoutDefaultsByQueryType.

(** ** Every built-in query can be built *)
Section Built.
Context {RO : RangeOrder}.
Variable Dial : string -> option go_error.
Variable Sprint_value : toml -> string.
Variable getenv : string -> string.

Lemma rest_reader_ok templates query endpoint template url :
  templates !! EndpointType endpoint = Some template -> rest_url template endpoint (ID query) = Ok url -> url <> "" ->
  exists h, rest_reader templates query endpoint = Ok h /\ r_Handler h = e_Handler endpoint.
Proof using Type.
  intros Ht Hu Hne. unfold rest_reader. rewrite Ht, Hu. cbn [mbind go_bind]. unfold RpcReader.NewReader.
  rewrite bool_decide_false by done. cbv zeta. cbn [wrap_error mbind go_bind]. by eexists.
Qed.

Lemma add_sources_ok templates rpc query endpoint l st :
  Forall (fun x => exists r, combined_source Dial Sprint_value templates rpc query endpoint x.1 x.2 = Ok r) l ->
  exists st', foldM_go (add_source Dial Sprint_value templates rpc query endpoint) st l = Ok st'.
Proof using Type.
  intros H. revert st. induction H as [|x l [r Hr] _ IH]; intros st; [by eexists|]. cbn [foldM_go].
  assert (exists st1, add_source Dial Sprint_value templates rpc query endpoint st x = Ok st1) as [st1 ->]
    by (unfold add_source; rewrite Hr; by eexists).
  apply IH.
Qed.

Hypothesis dials : forall url, Dial url = None.
Hypothesis no_braces : forall n, lacks "{" (getenv n) = true.

Lemma contract_dialled urls ms retries : urls <> [] -> exists r, ContractReader.NewReader Dial urls ms retries = Ok r.
Proof using dials.
  intros Hne. unfold ContractReader.NewReader. rewrite bool_decide_false by done. cbv zeta.
  rewrite (filter_all (fun url => Dial url = None) urls) by (apply Forall_forall; intros url _; apply dials).
  rewrite bool_decide_false by (by destruct urls). by eexists.
Qed.

Notation rpc := (processRPCEndpoints getenv StaticRPCEndpointTemplateConfig).
Notation templates := (processApiKeys getenv StaticEndpointTemplateConfig).

Lemma parsed_list_not_empty value l : ParseEndpointList value = Ok l -> l <> [].
Proof using Type.
  unfold ParseEndpointList. intros H%mapM_go_Ok ->. apply Forall2_nil_inv_r in H. destruct value as [|a s]; cbn in H; [done|].
  destruct (Ascii.eqb a ","); [done|]. by destruct (strings_Split s ",").
Qed.

(** The nodes of the environment, or of the table, whose last URL needs no key. *)
Lemma ethereum_nodes : exists urls, rpc !! "ethereum" = Some urls /\ urls <> [].
Proof using Type.
  unfold processRPCEndpoints. rewrite map_lookup_imap. unfold StaticRPCEndpointTemplateConfig. rewrite lookup_singleton_eq. cbn [mbind option_bind].
  unfold process_chain. rewrite bool_decide_true by done.
  destruct (ETHMainnetRPCNodesFromEnv getenv) as [urls|err|p] eqn:E.
  { exists urls. split; [done|]. unfold ETHMainnetRPCNodesFromEnv, RPCNodesFromEnv in E. cbv zeta in E. case_decide; [done|].
    destruct (ParseEndpointList _) eqn:El; try done. injection E as <-. by eapply parsed_list_not_empty. }
  all: match goal with |- context [mbind ?f ?l] => destruct (mbind f l) as [|u us] eqn:Eu; [exfalso|by eexists] end.
  all: assert ("https://rpc.ankr.com/eth" ∈ ([] : list string)) as H; [|by apply elem_of_nil in H].
  all: rewrite <- Eu; apply list_elem_of_bind; exists "https://rpc.ankr.com/eth"; split; [vm_compute; left|]; right; right; left.
Qed.

Lemma coingeckoPro_url id :
  exists url, rest_url (process_key getenv (mkTemplate
      "https://pro-api.coingecko.com/api/v3/simple/price?ids={coin_id}&vs_currencies=usd&x_cg_pro_api_key={api_key}" "" "GET" 1000
      "${CGPRO_API_KEY}" ∅ 600))
    (rest_endpoint "coingeckoPro" ["tbtc"; "usd"] "coin_id" "tbtc" "TBTC-USD") id = Ok url /\ url <> "".
Proof using no_braces.
  match goal with |- context [rest_url ?t ?e] => set (template := t); set (endpoint := e) end.
  set (segments := literal "https://pro-api.coingecko.com/api/v3/simple/price?ids=" ++ [Var "coin_id"] ++
    literal "&vs_currencies=usd&x_cg_pro_api_key=" ++ [Var "api_key"]).
  assert (lacks "{" (ApiKey template) = true) as Hk by apply no_braces.
  assert (Forall plain_segment segments) as Hs by (repeat constructor; discriminate).
  assert (map_Forall (fun k v => plain_name k /\ lacks "{" v = true) (e_Params endpoint)) as Hp
    by (apply map_Forall_singleton; repeat split; discriminate).
  pose proof (rest_url_spec template endpoint Hk segments id eq_refl Hs Hp) as H.
  destruct (rest_url template endpoint id) as [url|err|p]; [|exfalso|done].
  - exists url. split; [done|]. destruct H as (_ & -> & _). cbn. discriminate.
  - destruct H as (n & Hn & Hv & _). cbn in Hn. apply elem_of_cons in Hn as [->|Hn]; [by cbn in Hv|].
    apply list_elem_of_singleton in Hn as ->. by cbn in Hv.
Qed.

(** A REST endpoint whose template has one placeholder. *)
Lemma plain_rest_ok query type path key value market template url :
  StaticEndpointTemplateConfig !! type = Some template -> type <> "combined" -> type <> "contract" ->
  (forall id, rest_url (process_key getenv template) (rest_endpoint type path key value market) id = Ok url) -> url <> "" ->
  exists h, build_endpoint Dial Sprint_value templates rpc query (rest_endpoint type path key value market) = Ok (FromRpc h) /\
    r_Handler h = "".
Proof using Type.
  intros Ht H1 H2 Hu Hne. unfold build_endpoint. cbn [EndpointType rest_endpoint]. rewrite !bool_decide_false by done.
  destruct (rest_reader_ok templates query (rest_endpoint type path key value market) (process_key getenv template) url) as (h & -> & Hh); try done.
  - unfold processApiKeys. cbn [EndpointType rest_endpoint]. by rewrite lookup_fmap, Ht.
  - by exists h.
Qed.

Lemma contract_ok query handler market :
  handler <> "" -> exists h,
    build_endpoint Dial Sprint_value templates rpc query (contract_endpoint handler market) = Ok (FromContract h) /\ c_Handler h = handler.
Proof using dials.
  intros Hh. unfold build_endpoint. cbn [EndpointType contract_endpoint]. rewrite bool_decide_false by done. rewrite bool_decide_true by done.
  destruct ethereum_nodes as (urls & Hu & Hne). destruct (contract_dialled urls (perSourceTimeoutMs query) (maxSourceRetries query) Hne) as [r Hr].
  eexists. unfold contract_reader. cbn [e_Handler Chain contract_endpoint]. rewrite (bool_decide_false (handler = "")) by done.
  rewrite (bool_decide_false ("ethereum" = "")) by done. cbn [orb]. rewrite Hu, Hr. cbn. split; reflexivity.
Qed.

Lemma rpc_source_ok query name type template :
  strip_prefix "contract:" ("rpc:" +:+ type) = None -> StaticEndpointTemplateConfig !! type = Some template ->
  (exists params url, source_params Sprint_value (CombinedConfig sfrxusd_endpoint) name = Ok params /\
     strings_ReplaceAll (substitute params (URLTemplate template)) "{api_key}" (ApiKey (process_key getenv template)) = url /\ url <> "") ->
  URLTemplate (process_key getenv template) = URLTemplate template ->
  exists r, combined_source Dial Sprint_value templates rpc query sfrxusd_endpoint name ("rpc:" +:+ type) = Ok r.
Proof using Type.
  intros Hc Ht (params & url & Hp & Hurl & Hne) Hu. unfold combined_source. rewrite Hc.
  assert (strip_prefix "rpc:" ("rpc:" +:+ type) = Some type) as -> by apply cut_app.
  unfold processApiKeys at 1. rewrite lookup_fmap, Ht. cbn [fmap option_fmap option_map]. rewrite Hp. cbn [mbind go_bind]. cbv zeta.
  rewrite Hu, Hurl. unfold RpcReader.NewReader. rewrite bool_decide_false by done. cbv zeta. cbn [wrap_error mbind go_bind]. by eexists.
Qed.

Lemma sfrxusd_ok query :
  exists h, build_endpoint Dial Sprint_value templates rpc query sfrxusd_endpoint = Ok (FromCombined h) /\ k_Handler h = "sfrxusd_price" /\
    k_MinResponses h = 2.
Proof using dials.
  unfold build_endpoint. cbn [EndpointType sfrxusd_endpoint]. rewrite bool_decide_true by done. unfold combined_reader.
  cbn [e_Handler sfrxusd_endpoint]. rewrite bool_decide_false by done.
  destruct (add_sources_ok templates rpc query sfrxusd_endpoint (range_of (CombinedSources sfrxusd_endpoint)) (∅, ∅)) as [[cs rs] E].
  - apply Forall_forall. intros [name type] Hin%elem_of_range_of. cbn [fst snd].
    apply elem_of_list_to_map_2 in Hin. repeat (apply elem_of_cons in Hin as [[= -> ->]|Hin]); [| | | |by apply elem_of_nil in Hin].
    + destruct ethereum_nodes as (urls & Hu & Hne). destruct (contract_dialled urls (perSourceTimeoutMs query) (maxSourceRetries query) Hne) as [r Hr].
      unfold combined_source. change (strip_prefix "contract:" "contract:ethereum") with (Some "ethereum"). cbv iota beta.
      rewrite Hu, Hr. cbn. by eexists.
    + apply (rpc_source_ok query "coingecko" "coingecko" _ eq_refl eq_refl); [|reflexivity].
      eexists _, _. split; [vm_compute; reflexivity|]. split; [reflexivity|vm_compute; discriminate].
    + apply (rpc_source_ok query "curve" "curve" _ eq_refl eq_refl); [|reflexivity].
      eexists _, _. split; [vm_compute; reflexivity|]. split; [reflexivity|vm_compute; discriminate].
    + apply (rpc_source_ok query "coinpaprika" "coinpaprika" _ eq_refl eq_refl); [|reflexivity].
      eexists _, _. split; [vm_compute; reflexivity|]. split; [reflexivity|vm_compute; discriminate].
  - rewrite E. cbn. eexists. split; [reflexivity|]. split; [reflexivity|vm_compute; reflexivity].
Qed.

(** A source of a query whose handler the program has. *)
Definition handled (s : source) : Prop :=
  match s with
  | FromContract h => is_Some (ContractHandlers.HandlerRegistry !! c_Handler h)
  | FromRpc h => r_Handler h = ""          (** the generic handler *)
  | FromCombined h => k_Handler h = "sfrxusd_price"
  end.

Lemma static_endpoint_ok query name q e :
  StaticQueriesConfig !! name = Some q -> e ∈ endpoints q ->
  exists s, build_endpoint Dial Sprint_value templates rpc query e = Ok s /\ handled s.
Proof using dials no_braces.
  intros Hq He.
  assert (forall h m, is_Some (ContractHandlers.HandlerRegistry !! h) -> h <> "" ->
    exists s, build_endpoint Dial Sprint_value templates rpc query (contract_endpoint h m) = Ok s /\ handled s) as Hcontract.
  { intros h m Hh Hne. destruct (contract_ok query h m Hne) as (c & Hc & Hn). exists (FromContract c). split; [done|]. cbn. by rewrite Hn. }
  assert (forall type path key value market template url,
    StaticEndpointTemplateConfig !! type = Some template -> type <> "combined" -> type <> "contract" ->
    (forall id, rest_url (process_key getenv template) (rest_endpoint type path key value market) id = Ok url) -> url <> "" ->
    exists s, build_endpoint Dial Sprint_value templates rpc query (rest_endpoint type path key value market) = Ok s /\ handled s) as Hrest.
  { intros type path key value market template url H1 H2 H3 H4 H5.
    destruct (plain_rest_ok query type path key value market template url H1 H2 H3 H4 H5) as (h & Hh & Hn). exists (FromRpc h). done. }
  apply elem_of_list_to_map_2 in Hq.
  repeat (apply elem_of_cons in Hq as [[= -> ->]|Hq]); [..|by apply elem_of_nil in Hq]; cbn [endpoints static_query snd] in He;
    repeat (apply elem_of_cons in He as [->|He]); try (by apply elem_of_nil in He).
  all: try match goal with |- context [contract_endpoint ?h ?m] => apply (Hcontract h m); [eexists; reflexivity|discriminate] end.
  all: try match goal with |- context [rest_endpoint ?t] =>
    match t with
    | "coingeckoPro" => fail 1
    | _ => eapply Hrest; [reflexivity|discriminate|discriminate| |];
      [intros id; unfold rest_url; cbn [e_Params rest_endpoint]; rewrite range_of_singleton; vm_compute; reflexivity|discriminate]
    end end.
  - destruct (coingeckoPro_url "") as (url & Hu & Hne). eapply Hrest; [reflexivity|discriminate|discriminate| |exact Hne].
    intros id. exact Hu.
  - destruct (sfrxusd_ok query) as (h & Hh & Hk & _). exists (FromCombined h). done.
Qed.
End Built.

Lemma static_query_facts id q :
  StaticQueriesConfig !! id = Some q -> ID (base q) = id /\ 1 <= MinResponses (base q) <= Z.of_nat (length (endpoints q)).
Proof.
  intros Hq. apply elem_of_list_to_map_2 in Hq.
  repeat (apply elem_of_cons in Hq as [[= -> ->]|Hq]); [..|by apply elem_of_nil in Hq]; (split; [reflexivity|cbn; lia]).
Qed.

Lemma static_ids {RO : RangeOrder} : NoDup ((fun x : string * ConfiguredQuery => ID (base x.2)) <$> range_of StaticQueriesConfig).
Proof.
  assert ((fun x : string * ConfiguredQuery => ID (base x.2)) <$> range_of StaticQueriesConfig = (range_of StaticQueriesConfig).*1) as ->;
    [|apply range_of_NoDup_keys].
  apply list_fmap_ext. intros i [k q] Hi. cbn. apply static_query_facts. apply elem_of_range_of. by eapply list_elem_of_lookup_2.
Qed.

(** The built-in configuration works: whatever the environment holds (without opening braces in its values), when nodes can be dialled
    the configuration is accepted, and every built-in query then has under its ID a source for each of its
    endpoints, each with a handler that the program has, and no fewer sources than the responses it needs. *)
Theorem static_queries_built {RO : RangeOrder} Dial Sprint_value getenv text decode :
  (forall url, Dial url = None) -> (forall n, lacks "{" (getenv n) = true) -> decode text = inr static_config ->
  exists m, BuildQueryEndpoints Dial Sprint_value getenv (inr text) decode = Ok m /\
    forall id q, StaticQueriesConfig !! id = Some q -> exists b sources,
      m !! id = Some b /\ Forall handled sources /\ length sources = length (endpoints q) /\
      contractReaders b = omap contract_of sources /\ rpcReaders b = omap rpc_of sources /\ combinedReaders b = omap combined_of sources /\
      1 <= MinResponses (base q) <= Z.of_nat (totalEndpoints (built b)).
Proof.
  intros Hdial Henv Hdec.
  destruct (BuildQueryEndpoints_spec Dial Sprint_value getenv text decode static_config Hdec) as [Hiff Hall].
  assert (forall query e q id, StaticQueriesConfig !! id = Some q -> e ∈ endpoints q -> exists s,
    build_endpoint Dial Sprint_value (processApiKeys getenv StaticEndpointTemplateConfig) (processRPCEndpoints getenv StaticRPCEndpointTemplateConfig)
      query e = Ok s /\ handled s) as Hok by (intros; by eapply static_endpoint_ok).
  destruct (proj2 Hiff) as [m Hm].
  { intros name q e Hq He. edestruct Hok as (s & Hs & _); [exact Hq|exact He|by exists s]. }
  exists m. split; [done|]. intros id q Hq. destruct (static_query_facts id q Hq) as [Hid Hmin].
  destruct (Hall m Hm static_ids id q Hq) as (b & sources & Hb & Hs & Hc & Hr & Hk & Ht & _). rewrite Hid in Hb.
  exists b, sources. rewrite Ht. split_and!; try done; try tauto; [|by rewrite (Forall2_length _ _ _ Hs)].
  apply Forall_forall. intros s Hin. destruct (Forall2_elem_of_r _ _ _ _ Hs Hin) as (e & He & Hes).
  destruct (Hok (ResolveQueryTimeouts (base q) (mergedConfigDefaults (Defaults static_config))) e q id Hq He) as (s' & Hs' & Hh).
  pose proof (eq_trans (eq_sym Hes) Hs') as E. by injection E as ->.
Qed.

Lemma static_queries_built_witness :
  exists m b, BuildQueryEndpoints (RO := canonical_range) (fun _ => None) (fun _ => "") (fun _ => "") (inr "text") (fun _ => inr static_config) = Ok m /\
    m !! "ab30caa3e7827a27c153063bce02c0b260b29c0c164040c003f0f9ec66002510" = Some b /\ 1 <= Z.of_nat (totalEndpoints (built b)).
Proof.
  destruct (static_queries_built (RO := canonical_range) (fun _ => None) (fun _ => "") (fun _ => "") "text" (fun _ => inr static_config)
    (fun _ => eq_refl) (fun _ => eq_refl) eq_refl) as (m & Hm & Hall).
  assert (exists q, StaticQueriesConfig !! "ab30caa3e7827a27c153063bce02c0b260b29c0c164040c003f0f9ec66002510" = Some q) as [q Hq]
    by (eexists; reflexivity).
  destruct (Hall _ q Hq) as (b & sources & Hb & _ & _ & _ & _ & _ & Hmin). exists m, b. split_and!; [exact Hm|exact Hb|lia].
Defined.
