(* ===== verification/TestMode.v ===== *)
(** * cmd/test_mode.go: the dry run of the configuration

    What the flag --test does: every market is asked of its exchanges once, a cache is filled with what they answer, and the custom
    queries are run on it. HTTP, the clock and the arrival of answers are calls on a world. *)
From Stdlib Require Import Ascii.
From S2P Require Import ContractReader RpcHandlers CombinedHandlers QueryEndpoints.
From S2P Require Import Prelude Text Median MarketConfig QueryHandler PriceEncoder PriceFetcher ServerCache.
From S2P Require Import PriceTimestamp ClientCache Float64 BigFloat CustomQuery ConfigFiles QueryEndpoints QueryConfigFile.
Local Open Scope Z_scope.

(** ** A fetch always ends

    Whatever else happens, the timer of a collection fires. *)
Lemma FetchPrice_timer query events drained : is_Some (FetchPrice query (events ++ [TimerFired]) drained).
Proof.
  unfold FetchPrice. destruct (decide _); [by eexists|].
  assert (forall evs n all, is_Some (collectLoop query n all (evs ++ [TimerFired]))) as Hloop.
  { intros evs. induction evs as [|[r| |parent] evs IH]; intros [|k] all; cbn; try by eexists.
    - destruct (decide _); [destruct (_ <=? _); [by eexists|apply IH]|apply IH].
    - destruct parent; [by eexists|apply IH]. }
  destruct (Hloop events (totalEndpoints query) []) as [[all|all] ->]; [by eexists|]. cbn zeta. destruct (_ <=? _); by eexists.
Qed.

(** ** Calls on a world that may fail *)
Section Effects.
Context {W : Type}.
Definition act (A : Type) : Type := W -> go A * W.
Definition ret {A} (a : A) : act A := fun w => (Ok a, w).
Definition lift {A} (r : go A) : act A := fun w => (r, w).
Definition bind {A B} (m : act A) (k : A -> act B) : act B := fun w =>
  match m w with
  | (Ok a, w) => k a w
  | (Err err, w) => (Err err, w)
  | (Panic p, w) => (Panic p, w)
  end.
Fixpoint each {A B} (f : A -> act B) (l : list A) : act (list B) :=
  match l with
  | [] => ret []
  | a :: l => bind (f a) (fun b => bind (each f l) (fun rest => ret (b :: rest)))
  end.

(** A failure that is only logged. *)
Definition logged {A} (m : act A) : act unit := fun w =>
  match m w with
  | (Panic p, w) => (Panic p, w)
  | (_, w) => (Ok tt, w)
  end.

Lemma bind_Ok {A B} (m : act A) (k : A -> act B) w b w' :
  bind m k w = (Ok b, w') <-> exists a w1, m w = (Ok a, w1) /\ k a w1 = (Ok b, w').
Proof.
  unfold bind. destruct (m w) as [[a|e|p] w1]; (split; [intros Hk|intros (a' & w2 & E & Hk)]); try done.
  - by exists a, w1.
  - by injection E as -> ->.
Qed.
End Effects.
Arguments act W A : clear implicits.
Notation "'do' x <- m ; k" := (bind m (fun x => k)) (at level 100, x pattern, m at next level, k at level 200, right associativity).

(** ** The test of an exchange *)
Record exchangeTestResult := mkTestResult { Success : bool; tr_Price : Z; tr_Error : string }.
Definition failed_test (error : string) : exchangeTestResult := mkTestResult false 0 error.

Section Exchange.
Context {W : Type} {RO : RangeOrder}.
Variable Now : W -> Time.
Variable Get : Duration -> string -> W -> (go_error + http_response) * W.   (** with a limit on the time *)
Variable UnmarshalExchangeConfig : string -> go_error + ExchangeConfigJsonT.
Variable details : gmap ExchangeId ExchangeQueryDetails.
Variable exchangeConfigs : gmap ExchangeId ExchangeQueryConfig.

(** The configuration of one market, of which the adjustment is left out. *)
Definition test_config (marketParam : MarketParam) (item : ExchangeMarketConfigJson) : MutableExchangeMarketConfig :=
  mkMutableExchangeMarketConfig (ExchangeName item)
    {[ Id marketParam := mkMarketConfig (emcj_Ticker item) None (emcj_Invert item) ]}.

(** The query makes one request, of the URL of the one ticker. *)
Definition queryExchangeForMarket (exchangeDetails : ExchangeQueryDetails) (exchangeConfig : ExchangeQueryConfig) (marketParam : MarketParam)
    (item : ExchangeMarketConfigJson) : act W exchangeTestResult := fun w =>
  let get url := Get (TimeoutMs exchangeConfig * Millisecond) url w in
  let w' := (get (CreateRequestUrl (Url exchangeDetails) [emcj_Ticker item])).2 in
  (match Query (fun url => (get url).1) exchangeDetails (test_config marketParam item) [Id marketParam]
           {[ Id marketParam := mp_Exponent marketParam ]} (Now w') with
   | Panic p => Panic p
   | Err err => Ok (failed_test (error_text err))
   | Ok (prices, unavailableMarkets) =>
       match unavailableMarkets !! Id marketParam with
       | Some err => Ok (failed_test ("market unavailable: " +:+ error_text err))
       | None =>
           match prices with
           | [] => Ok (failed_test "no prices returned")
           | p :: _ => Ok (mkTestResult true (mpt_Price p) "")
           end
       end
   end, w').

(** An exchange of a market that is not known, or not configured, is a failed test too. *)
Definition test_exchange (marketParam : MarketParam) (item : ExchangeMarketConfigJson) : act W exchangeTestResult :=
  match details !! ExchangeName item with
  | None => ret (failed_test "no exchange details found")
  | Some exchangeDetails =>
      match exchangeConfigs !! ExchangeName item with
      | None => ret (failed_test "exchange query config not found")
      | Some exchangeQueryConfig => queryExchangeForMarket exchangeDetails exchangeQueryConfig marketParam item
      end
  end.

(** The loop over the exchanges of a market: its prices with their exchanges, in order. *)
Definition live_prices (marketParam : MarketParam) (items : list ExchangeMarketConfigJson) : act W (list (ExchangeId * Z)) :=
  do results <- each (test_exchange marketParam) items;
  ret (omap (fun '(item, result) => if Success result then Some (ExchangeName item, tr_Price result) else None) (zip items results)).

Definition testMarketParam (marketParam : MarketParam) : act W unit :=
  match UnmarshalExchangeConfig (ExchangeConfigJson marketParam) with
  | inl err => lift (Err (wrapf "failed to parse exchange config JSON" err))
  | inr exchangeConfigJson =>
      do live <- live_prices marketParam (Exchanges exchangeConfigJson);
      let validPrices := live.*2 in
      let medianPrice :=
        if MinExchanges marketParam <=? Z.of_nat (length validPrices) then Median uint64 validPrices
        else Err (ErrNew ("insufficient valid prices: got " +:+ pretty (Z.of_nat (length validPrices)) +:+ ", need "
                            +:+ pretty (MinExchanges marketParam))) in
      lift (match medianPrice with
            | Ok _ => Ok tt
            | Err medianErr => Err (wrapf "failed to calculate median" medianErr)
            | Panic p => Panic p
            end)
  end.

(** ** The cache of the test mode *)
Definition marketPriceUpdateFromLiveExchanges (marketParam : MarketParam) : act W (option MarketPriceUpdate) :=
  match UnmarshalExchangeConfig (ExchangeConfigJson marketParam) with
  | inl _ => ret None
  | inr exchangeConfigJson => fun w =>
      let now := Now w in
      (do live <- live_prices marketParam (Exchanges exchangeConfigJson);
       let exchangePrices := (fun x => mkExchangePrice x.1 x.2 (Some now)) <$> live in
       ret (if Z.of_nat (length exchangePrices) <? MinExchanges marketParam then None
            else Some (mkMarketPriceUpdate (Id marketParam) exchangePrices))) w
  end.
End Exchange.

Section Run.
Context {W : Type} `{FS : FileSystem W} {RO : RangeOrder}.
Variable Now : W -> Time.
Variable Get : Duration -> string -> W -> (go_error + http_response) * W.
Variable UnmarshalExchangeConfig : string -> go_error + ExchangeConfigJsonT.
Variable details : gmap ExchangeId ExchangeQueryDetails.
Variable UnmarshalExchanges : string -> go_error + list ExchangeQueryConfig.
Variable UnmarshalParams : string -> go_error + list MarketParam.
Variable UnmarshalQueries : string -> go_error + Config.
Variable Dial : string -> option go_error.
Variable Sprint_value : toml -> string.
Variable Getenv : string -> string.
(** What the sources of a query answer, read on a cache: what is seen before the timer fires, and what is there when it does. *)
Variable answers : BuiltQuery -> MarketToExchangePrices -> W -> (list collect_event * list Result) * W.

Definition populateTestModePriceCacheFromExchanges (homePath : string) (cache : MarketToExchangePrices) : act W MarketToExchangePrices :=
  do marketParams <- ReadMarketParamsConfigFile UnmarshalParams (market_params_path homePath);
  do exchangeConfigs <- ReadExchangeQueryConfigFile UnmarshalExchanges (exchange_config_path homePath);
  do found <- each (marketPriceUpdateFromLiveExchanges Now Get UnmarshalExchangeConfig details exchangeConfigs) marketParams;
  let updates := omap id found in
  lift (if (0 <? length updates)%nat then MarketToExchangePrices_UpdatePrices cache updates else Ok cache).

Definition fetch_on (queryConfig : BuiltQuery) (priceCache : MarketToExchangePrices) (w : W) : outcome * W :=
  let '((events, drained), w) := answers queryConfig priceCache w in
  (is_Some_proj (FetchPrice_timer (built queryConfig) events drained), w).

Definition testCustomQuery (queryConfig : BuiltQuery) (priceCache : MarketToExchangePrices) : act W unit := fun w =>
  let '((_, err), w) := fetch_on queryConfig priceCache w in (err, w).

Definition load_queries (homePath : string) : act W (go_error + gmap string BuiltQuery) := fun w =>
  let '(file, w) := ReadFile (custom_query_path homePath "config" "custom_query_config.toml") w in
  (match BuildQueryEndpoints Dial Sprint_value Getenv file UnmarshalQueries with
   | Ok m => Ok (inr m)
   | Err err => Ok (inl err)
   | Panic p => Panic p
   end, w).

Definition isolated_test (homePath isolatedQueryID : string) : act W unit :=
  do customQueries <- load_queries homePath;
  match customQueries with
  | inl err => lift (Err (wrapf "load custom queries" err))
  | inr customQueries =>
      let id := strings_ToLower (strings_TrimSpace isolatedQueryID) in
      match customQueries !! id with
      | None => lift (Err (ErrNew ("custom query id not found in config: " +:+ id)))
      | Some qc =>
          do priceCache <- populateTestModePriceCacheFromExchanges homePath (NewMarketToExchangePrices (5 * Minute));
          fun w => match testCustomQuery qc priceCache w with
                   | (Err err, w) => (Err (wrapf "custom query test failed" err), w)
                   | r => r
                   end
      end
  end.

Definition full_test (homePath : string) : act W unit :=
  do marketParams <- ReadMarketParamsConfigFile UnmarshalParams (market_params_path homePath);
  do exchangeConfigs <- ReadExchangeQueryConfigFile UnmarshalExchanges (exchange_config_path homePath);
  do loaded <- load_queries homePath;
  let customQueries := match loaded with inl _ => ∅ | inr m => m end in
  do _ <- each (fun p => logged (testMarketParam Now Get UnmarshalExchangeConfig details exchangeConfigs p)) marketParams;
  if bool_decide (customQueries = ∅) then ret tt
  else
    do priceCache <- populateTestModePriceCacheFromExchanges homePath (NewMarketToExchangePrices (5 * Minute));
    do _ <- each (fun q : string * BuiltQuery => logged (testCustomQuery q.2 priceCache)) (range_of customQueries);
    ret tt.

Definition runTestMode (homePath isolatedQueryID : string) : act W unit :=
  if negb (bool_decide (isolatedQueryID = "")) then isolated_test homePath isolatedQueryID else full_test homePath.
End Run.

(** ** What the cache then serves *)
Lemma remove_dups_NoDup {A} `{EqDecision A} (l : list A) : NoDup l -> remove_dups l = l.
Proof.
  induction 1 as [|x l Hx _ IH]; [done|]. cbn. destruct (decide_rel elem_of x l); [done|]. by rewrite IH.
Qed.

Lemma history_of_filter m ex (h : list entry) : history_of (m, ex) h = history_of (m, ex) (filter (fun e : entry => e.1.1 = m) h).
Proof.
  unfold history_of. f_equal. induction h as [|[[m' ex'] u] h IH]; [done|]. rewrite !filter_cons. cbn [fst].
  destruct (decide (m' = m)) as [->|Hm].
  - rewrite filter_cons. cbn [fst]. destruct (decide _); by rewrite IH.
  - rewrite decide_False by congruence. exact IH.
Qed.

(** The prices of a market depend on its own updates only. *)
Lemma valid_prices_market (h : list entry) m c : valid_prices h m c = valid_prices (filter (fun e : entry => e.1.1 = m) h) m c.
Proof.
  unfold valid_prices. assert (exchanges_heard (filter (fun e : entry => e.1.1 = m) h) m = exchanges_heard h m) as ->.
  { unfold exchanges_heard. do 3 f_equal. rewrite list_filter_filter. apply list_filter_iff. tauto. }
  induction (exchanges_heard h m) as [|ex l IH]; [done|]. cbn. by rewrite history_of_filter, IH.
Qed.

Lemma entries_of_market v (e : entry) : e ∈ entries_of v -> e.1.1 = mpu_MarketId v.
Proof.
  unfold entries_of. intros (ep & He & _)%list_elem_of_bind. destruct (ep_LastUpdateTime ep); [|by apply elem_of_nil in He].
  by apply list_elem_of_singleton in He as ->.
Qed.

Lemma market_no_entries updates m : m ∉ mpu_MarketId <$> updates -> filter (fun e : entry => e.1.1 = m) (entries updates) = [].
Proof.
  intros Hm. apply filter_none, Forall_forall. unfold entries. intros e (u & He & Hu)%list_elem_of_bind <-. apply Hm.
  rewrite (entries_of_market u e He). apply list_elem_of_fmap. by exists u.
Qed.

Lemma market_entries updates u :
  NoDup (mpu_MarketId <$> updates) -> u ∈ updates ->
  filter (fun e : entry => e.1.1 = mpu_MarketId u) (entries updates) = entries_of u.
Proof.
  induction updates as [|v updates IH]; [by intros _ ?%elem_of_nil|]. cbn [fmap list_fmap]. intros [Hv Hnd]%NoDup_cons Hin.
  change (entries (v :: updates)) with (entries_of v ++ entries updates). rewrite filter_app. apply elem_of_cons in Hin as [<-|Hin].
  - rewrite filter_all by (apply Forall_forall; intros; by apply entries_of_market). by rewrite market_no_entries, app_nil_r.
  - rewrite filter_none; [by apply IH|]. apply Forall_forall. intros e He%entries_of_market E. apply Hv. rewrite <- He, E. apply list_elem_of_fmap. by exists u.
Qed.

Definition live_update (m : MarketId) (now : Time) (live : list (ExchangeId * Z)) : MarketPriceUpdate :=
  mkMarketPriceUpdate m ((fun x => mkExchangePrice x.1 x.2 (Some now)) <$> live).

Lemma live_update_entries m now live :
  entries_of (live_update m now live) = (fun x => ((m, x.1), (now, x.2))) <$> live.
Proof. unfold entries_of, live_update. cbn. induction live as [|x live IH]; [done|]. cbn. by f_equal. Qed.

Lemma history_of_absent k (h : list entry) : (forall e, e ∈ h -> e.1 <> k) -> history_of k h = [].
Proof. intros Hh. unfold history_of. by rewrite filter_none by by apply Forall_forall. Qed.

Lemma live_update_valid m now live c :
  NoDup live.*1 -> zeroTime < now ->
  valid_prices (entries_of (live_update m now live)) m c = if bool_decide (c <= now) then live.*2 else [].
Proof.
  intros Hnd Hz. rewrite live_update_entries. unfold valid_prices.
  assert (exchanges_heard ((fun x => ((m, x.1), (now, x.2))) <$> live) m = live.*1) as ->.
  { unfold exchanges_heard. rewrite filter_all by (apply Forall_forall; by intros e (x & -> & _)%list_elem_of_fmap).
    rewrite <- !list_fmap_compose. by apply remove_dups_NoDup. }
  assert (forall x, x ∈ live -> replay (history_of (m, x.1) ((fun x => ((m, x.1), (now, x.2))) <$> live)) = mkPriceTimestamp now x.2) as Hr.
  { intros x Hx. assert (history_of (m, x.1) ((fun x => ((m, x.1), (now, x.2))) <$> live) = [(now, x.2)]) as ->.
    - clear Hz. induction live as [|y live IH]; [by apply elem_of_nil in Hx|]. rewrite fmap_cons in Hnd. apply NoDup_cons in Hnd as [Hy Hnd].
      rewrite fmap_cons, <- (app_nil_l (_ <$> live)), app_comm_cons, history_of_app. apply elem_of_cons in Hx as [<-|Hx].
      + rewrite history_of_eq, history_of_absent; [done|]. intros e (z & -> & Hz)%list_elem_of_fmap. cbn. intros [= E]. apply Hy. rewrite <- E.
        apply list_elem_of_fmap. by exists z.
      + rewrite history_of_ne; [by apply IH|]. intros [= E]. apply Hy. rewrite <- E. apply list_elem_of_fmap. by exists x.
    - unfold replay. cbn. unfold bump, time_After. cbn. by rewrite (proj2 (Z.ltb_lt _ _) Hz). }
  revert Hr. generalize ((fun x : ExchangeId * Z => ((m, x.1), (now, x.2))) <$> live) as h. clear Hnd. intros h.
  induction live as [|x live IH]; intros Hr; [by case_bool_decide|]. cbn [fmap list_fmap mbind list_bind].
  rewrite Hr by left. cbn [LastUpdateTime Price]. rewrite IH by (intros; apply Hr; by right). by case_bool_decide.
Qed.

Section Populate.
Context {W : Type} `{FS : FileSystem W} {RO : RangeOrder}.
Variable Now : W -> Time.
Variable Get : Duration -> string -> W -> (go_error + http_response) * W.
Variable UnmarshalExchangeConfig : string -> go_error + ExchangeConfigJsonT.
Variable details : gmap ExchangeId ExchangeQueryDetails.

Lemma each_Ok {A B} (f : A -> act W B) l w bs w' :
  each f l w = (Ok bs, w') -> Forall2 (fun a b => exists w1 w2, f a w1 = (Ok b, w2)) l bs.
Proof.
  revert w bs. induction l as [|a l IH]; intros w bs; cbn; [intros [= <- _]; constructor|].
  intros (b & w1 & Hb & (rest & w2 & Hrest & [= <- ->])%bind_Ok)%bind_Ok. constructor; [by exists w, w1|by eapply IH].
Qed.

Lemma live_names configs p items w live w' :
  live_prices Now Get details configs p items w = (Ok live, w') -> live.*1 `sublist_of` (ExchangeName <$> items).
Proof.
  unfold live_prices. intros (results & w1 & Hr & [= <- ->])%bind_Ok. apply each_Ok in Hr. clear w.
  induction Hr as [|item result items results _ _ IH]; [constructor|]. cbn. destruct (Success result); by constructor.
Qed.

Lemma read_params_distinct Unmarshal path (w w' : W) params :
  ReadMarketParamsConfigFile Unmarshal path w = (Ok params, w') -> NoDup (Id <$> params).
Proof.
  intros Hp. destruct (ReadFile path w) as [[err|text] w1] eqn:Er; [unfold ReadMarketParamsConfigFile in Hp; by rewrite Er in Hp|].
  destruct (Unmarshal text) as [err|l] eqn:Eu; [unfold ReadMarketParamsConfigFile in Hp; by rewrite Er, Eu in Hp|].
  pose proof (read_market_params_correct Unmarshal path w w1 text l Er Eu) as H. cbv zeta in H. rewrite Hp in H. cbn in H. tauto.
Qed.

(** What a market gets into the cache. *)
Definition update_of (configs : gmap ExchangeId ExchangeQueryConfig) (p : MarketParam) (u : option MarketPriceUpdate) : Prop :=
  match UnmarshalExchangeConfig (ExchangeConfigJson p) with
  | inl _ => u = None
  | inr cfg => exists w1 live w2, live_prices Now Get details configs p (Exchanges cfg) w1 = (Ok live, w2) /\
      u = if Z.of_nat (length live) <? MinExchanges p then None else Some (live_update (Id p) (Now w1) live)
  end.

Lemma update_of_market configs p u w w' :
  marketPriceUpdateFromLiveExchanges Now Get UnmarshalExchangeConfig details configs p w = (Ok u, w') -> update_of configs p u.
Proof.
  unfold marketPriceUpdateFromLiveExchanges, update_of. destruct (UnmarshalExchangeConfig _) as [err|cfg]; [by intros [= <- _]|].
  cbv zeta. intros (live & w1 & Hl & [= <- _])%bind_Ok. exists w, live, w1. rewrite length_fmap. done.
Qed.

Lemma update_market configs p u : update_of configs p (Some u) -> mpu_MarketId u = Id p.
Proof.
  unfold update_of. destruct (UnmarshalExchangeConfig _); [done|]. intros (w1 & live & w2 & _ & E). destruct (_ <? _); [done|]. by injection E as ->.
Qed.

Lemma update_ids configs params found :
  Forall2 (update_of configs) params found -> mpu_MarketId <$> omap id found `sublist_of` (Id <$> params).
Proof.
  induction 1 as [|p u params found Hu _ IH]; [constructor|]. cbn. destruct u as [u|]; cbn; [|by constructor].
  rewrite (update_market _ _ _ Hu). by constructor.
Qed.

(** The valid prices of one of the markets. *)
Lemma market_valid configs params found p u c :
  Forall2 (update_of configs) params found -> NoDup (Id <$> params) -> (p, u) ∈ zip params found ->
  valid_prices (entries (omap id found)) (Id p) c = match u with Some u => valid_prices (entries_of u) (Id p) c | None => [] end.
Proof.
  intros Hf Hnd Hin. rewrite valid_prices_market.
  assert (NoDup (mpu_MarketId <$> omap id found)) as Hids by (eapply sublist_NoDup; [exact Hnd|by eapply update_ids]).
  apply list_elem_of_lookup in Hin as (j & Hj). apply lookup_zip_Some in Hj as [Hpj Hj].
  pose proof (Forall2_lookup_lr _ _ _ _ _ _ Hf Hpj Hj) as Hu. destruct u as [u|].
  - assert (u ∈ omap id found) as Hel by (apply list_elem_of_omap; exists (Some u); split; [by eapply list_elem_of_lookup_2|done]).
    rewrite <- (update_market _ _ _ Hu), (market_entries _ _ Hids Hel), (valid_prices_market (entries_of u)).
    by rewrite filter_all by (apply Forall_forall; intros; by apply entries_of_market).
  - rewrite market_no_entries; [done|]. intros (v & Hv & Hel)%list_elem_of_fmap. apply list_elem_of_omap in Hel as ([v'|] & Hel & [= ->]).
    apply list_elem_of_lookup in Hel as (i & Hi). destruct (Forall2_lookup_r _ _ _ _ _ Hf Hi) as (p' & Hpi & Hup).
    apply update_market in Hup. assert (i = j) as ->; [|congruence].
    apply (NoDup_lookup (Id <$> params) i j (Id p) Hnd); rewrite list_lookup_fmap.
    + rewrite Hpi. cbn. congruence.
    + by rewrite Hpj.
Qed.
End Populate.

Section Served.
Context {W : Type} `{FS : FileSystem W} {RO : RangeOrder}.
Variable Now : W -> Time.
Variable Get : Duration -> string -> W -> (go_error + http_response) * W.
Variable UnmarshalExchangeConfig : string -> go_error + ExchangeConfigJsonT.
Variable details : gmap ExchangeId ExchangeQueryDetails.
Variable UnmarshalExchanges : string -> go_error + list ExchangeQueryConfig.
Variable UnmarshalParams : string -> go_error + list MarketParam.

Notation populate := (populateTestModePriceCacheFromExchanges Now Get UnmarshalExchangeConfig details UnmarshalExchanges UnmarshalParams).

Lemma populate_Ok home cache w cache' w' :
  populate home cache w = (Ok cache', w') <->
  exists params w1 configs w2 found,
    ReadMarketParamsConfigFile UnmarshalParams (market_params_path home) w = (Ok params, w1) /\
    ReadExchangeQueryConfigFile UnmarshalExchanges (exchange_config_path home) w1 = (Ok configs, w2) /\
    each (marketPriceUpdateFromLiveExchanges Now Get UnmarshalExchangeConfig details configs) params w2 = (Ok found, w') /\
    MarketToExchangePrices_UpdatePrices cache (omap id found) = Ok cache'.
Proof using Type.
  unfold populateTestModePriceCacheFromExchanges. rewrite bind_Ok. setoid_rewrite bind_Ok. setoid_rewrite bind_Ok.
  assert (forall found w1, (lift (if (0 <? length (omap id found))%nat then MarketToExchangePrices_UpdatePrices cache (omap id found) else Ok cache) w1
     = (Ok cache', w') <-> w1 = w' /\ MarketToExchangePrices_UpdatePrices cache (omap id found) = Ok cache')) as Hl.
  { intros found w1. unfold lift. assert ((if (0 <? length (omap id found))%nat then MarketToExchangePrices_UpdatePrices cache (omap id found) else Ok cache)
      = MarketToExchangePrices_UpdatePrices cache (omap id found)) as -> by (by destruct (omap id found)).
    split; [by intros [= <- <-]|by intros [-> ->]]. }
  setoid_rewrite Hl. naive_solver.
Qed.

(** The cache that the test mode fills. When it is filled without a panic every market of the file of market params was asked of its exchanges, and a
    market whose exchanges are distinct is then served, at most five minutes after it was asked, with the median of
    the prices that its exchanges gave, exactly when these are enough and have a median; a market whose
    configuration cannot be decoded is not served. *)
Theorem test_cache_correct home w cache w' :
  populate home (NewMarketToExchangePrices (5 * Minute)) w = (Ok cache, w') ->
  exists params w1 configs w2,
    ReadMarketParamsConfigFile UnmarshalParams (market_params_path home) w = (Ok params, w1) /\
    ReadExchangeQueryConfigFile UnmarshalExchanges (exchange_config_path home) w1 = (Ok configs, w2) /\
    forall p, p ∈ params ->
      match UnmarshalExchangeConfig (ExchangeConfigJson p) with
      | inl _ => forall readTime, GetValidMedianPrices cache params readTime !! Id p = None
      | inr cfg => exists asked live w3,
          live_prices Now Get details configs p (Exchanges cfg) asked = (Ok live, w3) /\
          (NoDup (ExchangeName <$> Exchanges cfg) -> zeroTime < Now asked ->
           forall readTime x, GetValidMedianPrices cache params readTime !! Id p = Some x <->
             readTime - 5 * Minute <= Now asked /\ MinExchanges p <= Z.of_nat (length live) /\ Median uint64 live.*2 = Ok x)
      end.
Proof using Type.
  intros (params & w1 & configs & w2 & found & Hp & Hc & Hf & Hu)%populate_Ok. exists params, w1, configs, w2. split_and!; [done|done|].
  assert (NoDup (Id <$> params)) as Hnd by (by eapply read_params_distinct). apply each_Ok in Hf.
  assert (Forall2 (update_of Now Get UnmarshalExchangeConfig details configs) params found) as Hfound.
  { eapply Forall2_impl; [exact Hf|]. intros p u (w3 & w4 & H). by eapply update_of_market. }
  assert (serve (5 * Minute) [omap id found] = Ok cache) as Hserve by (unfold serve; cbn [foldM_go mbind go_bind]; by rewrite Hu).
  apply serve_Ok in Hserve as (_ & Hage & Hl). cbn [concat] in Hl. rewrite app_nil_r in Hl.
  intros p Hin. assert (forall readTime x, GetValidMedianPrices cache params readTime !! Id p = Some x <->
    validMedianPrice cache (time_Add readTime (- (5 * Minute))) p = Some x) as Hserved.
  { intros readTime x. rewrite GetValidMedianPrices_lookup, Hage.
    - split; [|by exists p]. intros (p' & Hin' & Hid & Hx). assert (p' = p) as ->; [|done].
      apply list_elem_of_lookup in Hin as (i & Hi), Hin' as (j & Hj). assert (i = j) as ->; [|congruence].
      apply (NoDup_lookup (Id <$> params) i j (Id p) Hnd); rewrite list_lookup_fmap; [by rewrite Hi|rewrite Hj; cbn; congruence].
    - intros p1 p2 H1 H2 Hid x1 x2. rewrite !(validMedianPrice_spec _ _ _ _ Hl), Hid. intros [_ E1] [_ E2]. congruence. }
  apply list_elem_of_lookup in Hin as (i & Hi). destruct (Forall2_lookup_l _ _ _ _ _ Hfound Hi) as (u & Hiu & Hup).
  assert ((p, u) ∈ zip params found) as Hzip by (eapply list_elem_of_lookup_2, lookup_zip_Some; by split).
  pose proof (fun c => market_valid Now Get UnmarshalExchangeConfig details configs params found p u c Hfound Hnd Hzip) as Hvalid.
  unfold update_of in Hup. destruct (UnmarshalExchangeConfig (ExchangeConfigJson p)) as [err|cfg].
  - intros readTime. apply eq_None_not_Some. intros [x Hx]. apply Hserved, (validMedianPrice_spec _ _ _ _ Hl) in Hx as [_ Hx].
    subst u. by rewrite Hvalid in Hx.
  - destruct Hup as (asked & live & w3 & Hlive & ->). exists asked, live, w3. split; [exact Hlive|].
    intros Hex Hz readTime x. rewrite Hserved, (validMedianPrice_spec _ _ _ _ Hl), Hvalid. unfold time_Add.
    destruct (Z.ltb_spec (Z.of_nat (length live)) (MinExchanges p)) as [Hlt|Hge]; [split; [by intros [_ [=]]|lia]|].
    rewrite live_update_valid; [|by eapply sublist_NoDup, live_names|exact Hz].
    case_bool_decide as Ht.
    + rewrite length_fmap. split; [intros [H1 H2]; split_and!; [lia|lia|done]|tauto].
    + split; [by intros [_ [=]]|]. intros [H1 _]. lia.
Qed.
End Served.

(** ** Outcomes *)

(** The one request of a test, and its price: an exchange succeeds exactly when it answers and its price function gives a
    price for the ticker and does not call it unavailable. *)
Lemma queryExchangeForMarket_Success {W} {RO : RangeOrder} (Now : W -> Time) Get d config p item w x w' :
  PriceFunctionLaw (PriceFunction d) ->
  let url := CreateRequestUrl (Url d) [emcj_Ticker item] in
  queryExchangeForMarket Now Get d config p item w = (Ok (mkTestResult true x ""), w') <->
  exists response prices unavailable,
    Get (TimeoutMs config * Millisecond) url w = (inr response, w') /\ 200 <= StatusCode response <= 299 /\
    PriceFunction d response {[ emcj_Ticker item := mp_Exponent p ]} (Median uint64) = Ok (prices, unavailable) /\
    prices !! emcj_Ticker item = Some x /\ unavailable !! emcj_Ticker item = None.
Proof.
  intros Hlaw url. unfold queryExchangeForMarket. cbv zeta. fold url.
  destruct (Get (TimeoutMs config * Millisecond) url w) as [r w1] eqn:Eg. cbn [snd].
  unfold Query. rewrite bool_decide_false by done. cbn [foldM_go]. unfold add_ticker at 1.
  cbn [test_config MarketToMarketConfig Ticker]. rewrite !lookup_singleton_eq. cbn [mbind go_bind tickers tickerToPriceExponent tickerToMarketId app Ticker].
  fold url. rewrite Eg. cbn [fst]. rewrite !insert_empty. destruct r as [err|response]; [split; [done|by intros (? & ? & ? & [=] & _)]|].
  destruct (Z.eqb_spec (StatusCode response) 429) as [E|_]; [split; [done|intros (r & ? & ? & [= <- <-] & H & _); lia]|].
  destruct (Z.ltb_spec (StatusCode response) 200); cbn [orb]; [split; [done|intros (r & ? & ? & [= <- <-] & H' & _); lia]|].
  destruct (Z.ltb_spec 299 (StatusCode response)); [split; [done|intros (r & ? & ? & [= <- <-] & H' & _); lia]|].
  destruct (PriceFunction d response _ _) as [[prices unavailable]|err|q] eqn:Ep;
    [|split; [done|intros (? & ? & ? & [= <- <-] & _ & E & _); congruence]..].
  destruct (price_function_tickers _ _ _ _ _ Ep) as [Hdp Hdu]. rewrite dom_singleton_L in Hdp, Hdu.
  assert (forall A (m : gmap string A), dom m ⊆ {[ emcj_Ticker item ]} ->
    range_of m = match m !! emcj_Ticker item with Some a => [(emcj_Ticker item, a)] | None => [] end) as Hone.
  { intros A m Hd. destruct (m !! emcj_Ticker item) as [a|] eqn:Em.
    - assert (m = {[ emcj_Ticker item := a ]}) as ->; [|apply range_of_singleton]. apply map_eq. intros k.
      destruct (decide (k = emcj_Ticker item)) as [->|Hk]; [by rewrite lookup_singleton_eq|].
      rewrite lookup_singleton_ne by done. apply not_elem_of_dom. set_solver.
    - assert (m = ∅) as ->; [|apply range_of_empty]. apply map_eq. intros k. rewrite lookup_empty.
      destruct (decide (k = emcj_Ticker item)) as [->|Hk]; [done|]. apply not_elem_of_dom. set_solver. }
  rewrite (Hone _ prices Hdp), (Hone _ unavailable Hdu).
  destruct (prices !! emcj_Ticker item) as [y|] eqn:Ey, (unavailable !! emcj_Ticker item) as [err|] eqn:Eu;
    cbn [mapM_go foldM_go]; rewrite ?lookup_singleton_eq; cbn [mbind go_bind mapM_go foldM_go]; rewrite ?lookup_singleton_eq; cbn [mbind go_bind];
    rewrite ?lookup_insert_eq, ?lookup_empty; cbn [mpt_Price].
  all: split; [try done|].
  2: { intros [= <- <-]. by exists response, prices, unavailable. }
  all: intros (r & ps & us & [= <- <-] & _ & E & Hp & Hu); rewrite Ep in E; injection E as <- <-; congruence.
Qed.

(** *** Which outcomes there are *)
Definition no_error {W A} (m : act W A) : Prop := forall w err, (m w).1 <> Err err.

Lemma no_error_bind {W A B} (m : act W A) (k : A -> act W B) : no_error m -> (forall a, no_error (k a)) -> no_error (bind m k).
Proof.
  intros Hm Hk w err. unfold bind. destruct (m w) as [[a|e|p] w1] eqn:E; [apply Hk| |done].
  specialize (Hm w e). by rewrite E in Hm.
Qed.
Lemma no_error_each {W A B} (f : A -> act W B) l : (forall a, no_error (f a)) -> no_error (each f l).
Proof. intros Hf. induction l as [|a l IH]; [done|]. apply no_error_bind; [done|]. intros b. by apply no_error_bind. Qed.
Lemma no_error_logged {W A} (m : act W A) : no_error (logged m).
Proof. intros w err. unfold logged. by destruct (m w) as [[a|e|p] w1]. Qed.

Lemma UpdatePrices_no_error mte updates err : MarketToExchangePrices_UpdatePrices mte updates <> Err err.
Proof.
  unfold MarketToExchangePrices_UpdatePrices. revert mte. induction updates as [|u updates IH]; intros mte; [done|]. cbn [foldM_go].
  assert (forall eps etp e, ExchangeToPrice_UpdatePrices etp eps <> Err e) as He.
  { unfold ExchangeToPrice_UpdatePrices. intros eps. induction eps as [|ep eps IHe]; intros etp e; [done|]. cbn [foldM_go].
    destruct (ExchangeToPrice_UpdateOne etp ep) as [etp'|e'|p] eqn:E; [apply IHe| |done].
    unfold ExchangeToPrice_UpdateOne, PriceTimestamp_UpdatePrice in E. destruct (ep_LastUpdateTime ep); [|done].
    by destruct (time_After _ _). }
  destruct (MarketToExchangePrices_UpdateOne mte u) as [mte'|e|p] eqn:E; [apply IH| |done].
  unfold MarketToExchangePrices_UpdateOne in E. cbv zeta in E. destruct (ExchangeToPrice_UpdatePrices _ _) as [etp|e'|p] eqn:E'; try done.
  by apply He in E'.
Qed.

Section Outcomes.
Context {W : Type} `{FS : FileSystem W} {RO : RangeOrder}.
Variable Now : W -> Time.
Variable Get : Duration -> string -> W -> (go_error + http_response) * W.
Variable UnmarshalExchangeConfig : string -> go_error + ExchangeConfigJsonT.
Variable details : gmap ExchangeId ExchangeQueryDetails.
Variable UnmarshalExchanges : string -> go_error + list ExchangeQueryConfig.
Variable UnmarshalParams : string -> go_error + list MarketParam.
Variable UnmarshalQueries : string -> go_error + Config.
Variable Dial : string -> option go_error.
Variable Sprint_value : toml -> string.
Variable Getenv : string -> string.
Variable answers : BuiltQuery -> MarketToExchangePrices -> W -> (list collect_event * list Result) * W.

Notation populate := (populateTestModePriceCacheFromExchanges Now Get UnmarshalExchangeConfig details UnmarshalExchanges UnmarshalParams).
Notation run := (runTestMode Now Get UnmarshalExchangeConfig details UnmarshalExchanges UnmarshalParams UnmarshalQueries Dial Sprint_value Getenv answers).

Lemma read_entries_no_error {K A} `{Countable K} (key : A -> K) (complete : A -> bool) (p : A -> go_panic) (l : list A) (m0 : gmap K A) err :
  foldM_go (fun (m : gmap K A) x => if complete x then Ok (<[key x := x]> m) else Panic (p x)) m0 l <> Err err.
Proof using Type. intros E. by apply read_entries_Ok in E. Qed.

Lemma read_params_no_error path : no_error (ReadMarketParamsConfigFile (W := W) UnmarshalParams path).
Proof using Type.
  intros w err. unfold ReadMarketParamsConfigFile. destruct (ReadFile path w) as [[e|text] w1]; [done|]. cbn [fst].
  destruct (UnmarshalParams text); [done|]. destruct (foldM_go _ _ _) eqn:E; cbn; try done. by apply read_entries_no_error in E.
Qed.
Lemma read_exchanges_no_error path : no_error (ReadExchangeQueryConfigFile (W := W) UnmarshalExchanges path).
Proof using Type.
  intros w err. unfold ReadExchangeQueryConfigFile. destruct (ReadFile path w) as [[e|text] w1]; [done|]. cbn [fst].
  destruct (UnmarshalExchanges text); [done|]. apply read_entries_no_error.
Qed.

Lemma live_prices_no_error configs p items : no_error (live_prices Now Get details configs p items).
Proof using Type.
  unfold live_prices. apply no_error_bind; [|done]. apply no_error_each. intros item. unfold test_exchange.
  destruct (details !! _) as [d|]; [|done]. destruct (configs !! _) as [c|]; [|done].
  intros w err. unfold queryExchangeForMarket. cbv zeta. cbn [fst]. destruct (Query _ _ _ _ _ _) as [[prices um]|e|q]; [|done..].
  destruct (um !! Id p); [done|]. by destruct prices.
Qed.

Lemma populate_no_error home cache : no_error (populate home cache).
Proof using Type.
  unfold populateTestModePriceCacheFromExchanges. apply no_error_bind; [apply read_params_no_error|]. intros params.
  apply no_error_bind; [apply read_exchanges_no_error|]. intros configs. apply no_error_bind.
  - apply no_error_each. intros p w err. unfold marketPriceUpdateFromLiveExchanges. destruct (UnmarshalExchangeConfig _); [done|].
    cbv zeta. apply no_error_bind; [apply live_prices_no_error|done].
  - intros found w err. unfold lift. cbn [fst]. destruct (_ <? _)%nat; [apply UpdatePrices_no_error|done].
Qed.

Lemma full_test_no_error home w err : (run home "" w).1 <> Err err.
Proof using Type.
  unfold runTestMode, full_test. rewrite bool_decide_true by done. cbn [negb].
  apply no_error_bind; [apply read_params_no_error|]. intros params. apply no_error_bind; [apply read_exchanges_no_error|]. intros configs.
  apply no_error_bind.
  { intros w1 e. unfold load_queries. destruct (ReadFile _ w1) as [r w2]. cbn [fst]. by destruct (BuildQueryEndpoints _ _ _ _ _). }
  intros loaded. apply no_error_bind; [apply no_error_each; intros p; apply no_error_logged|]. intros _.
  destruct (bool_decide _); [done|]. apply no_error_bind; [apply populate_no_error|]. intros cache.
  apply no_error_bind; [|done]. apply no_error_each. intros q. apply no_error_logged.
Qed.

(** The outcome of the test mode. Asked for one query it succeeds exactly when the custom queries can be built, the query
    is one of them by its ID (of the text given without spaces around it, in lower case), the cache can be filled,
    and the fetch of the query succeeds; asked for none it never fails, whatever the exchanges and queries answer. *)
Theorem runTestMode_correct home id w :
  (id <> "" -> forall w',
   run home id w = (Ok tt, w') <->
   exists m w1 b cache w2 res,
     load_queries UnmarshalQueries Dial Sprint_value Getenv home w = (Ok (inr m), w1) /\
     m !! strings_ToLower (strings_TrimSpace id) = Some b /\
     populate home (NewMarketToExchangePrices (5 * Minute)) w1 = (Ok cache, w2) /\
     fetch_on answers b cache w2 = ((res, Ok tt), w')) /\
  (id = "" -> forall err, (run home id w).1 <> Err err).
Proof using Type.
  split; [|intros ->; apply full_test_no_error]. intros Hid w'. unfold runTestMode. rewrite bool_decide_false by done. cbn [negb].
  unfold isolated_test. rewrite bind_Ok. split.
  - intros ([err|m] & w1 & Hload & H); [done|]. cbv zeta in H. destruct (m !! _) as [b|] eqn:Eb; [|done].
    apply bind_Ok in H as (cache & w2 & Hp & H). unfold testCustomQuery in H.
    destruct (fetch_on answers b cache w2) as [[res [[]|err|p]] w3] eqn:Ef; try done. injection H as <-.
    by exists m, w1, b, cache, w2, res.
  - intros (m & w1 & b & cache & w2 & res & Hload & Hb & Hp & Hf). exists (inr m), w1. split; [done|]. cbv zeta. rewrite Hb.
    apply bind_Ok. exists cache, w2. split; [done|]. unfold testCustomQuery. by rewrite Hf.
Qed.
End Outcomes.

(** ** An example: one market with one exchange that answers and one that is not known *)
Definition ex_test_param : MarketParam := mkMarketParam 7 "BTC-USD" (-5) 1 1000 "json" "data".
Definition ex_test_config : ExchangeConfigJsonT :=
  mkExchangeConfigJson [mkExchangeMarketConfigJson "Unknown" "X" "" false; mkExchangeMarketConfigJson "Binance" "BTCUSDT" "" false].
(** A world of which every file holds its path, and nothing can be written. *)
#[local] Instance ex_read_only : FileSystem unit := {
  file _ p := Some p;
  ReadFile p w := (inr p, w);
  WriteFile _ _ w := (Some (ErrNew "read-only"), w);
  Remove _ w := w;
  Rename _ _ w := (Some (ErrNew "read-only"), w);
  Stat _ w := (None, w);
  MkdirAll _ w := (None, w)
}.
Definition ex_get (_ : Duration) (_ : string) (w : unit) : (go_error + http_response) * unit :=
  (inr (mkHttpResponse 200 "ok"), w).
Definition ex_populate : unit -> go MarketToExchangePrices * unit :=
  populateTestModePriceCacheFromExchanges (RO := canonical_range) (fun _ => 1000) ex_get
    (fun _ => inr ex_test_config) {[ "Binance" := ex_details ]} (fun _ => inr [mkExchangeQueryConfig "Binance" 1000 1000 1])
    (fun _ => inr [ex_test_param]) "/home" (NewMarketToExchangePrices (5 * Minute)).
Definition value_of {A} (d : A) (r : go A) : A := match r with Ok a => a | _ => d end.
Lemma value_of_eq {A B} (d : A) (r : go A * B) a b : r = (Ok a, b) -> a = value_of d r.1.
Proof. by intros ->. Qed.
Definition ex_cache : MarketToExchangePrices := value_of (NewMarketToExchangePrices 0) (ex_populate tt).1.

Lemma test_cache_correct_witness :
  ex_populate tt = (Ok ex_cache, tt) /\
  forall t, t <= 300000001000 -> GetValidMedianPrices (H := canonical_range) ex_cache [ex_test_param] t !! 7 = Some 6500000.
Proof.
  assert (ex_populate tt = (Ok ex_cache, tt)) as E
    by (vm_cast_no_check (@eq_refl (go MarketToExchangePrices * unit) (Ok ex_cache, tt))).
  split; [exact E|].
  destruct (test_cache_correct (RO := canonical_range) _ _ _ _ _ _ _ _ _ _ E) as (params & w1 & configs & w2 & Hp & Hc & Hall).
  vm_compute in Hp. injection Hp as <- <-. apply (value_of_eq ∅) in Hc as ->.
  destruct (Hall ex_test_param ltac:(left)) as (asked & live & w3 & Hl & Hserved).
  destruct asked, w2. vm_compute in Hl. injection Hl as <- _.
  intros t Ht. apply Hserved.
  - apply (bool_decide_unpack _). vm_compute. exact I.
  - reflexivity.
  - split; [change (t - 300000000000 <= 1000); clear -Ht; lia|]. split; [vm_compute; discriminate|vm_compute; reflexivity].
Defined.

(** The same with a query whose one source answers. *)
Definition ex_load : unit -> go (go_error + gmap string BuiltQuery) * unit :=
  load_queries (RO := canonical_range) (fun _ => inr sample_config) (fun _ => None) (fun _ => "") (fun _ => "") "/home".
Definition ex_answers (_ : BuiltQuery) (_ : MarketToExchangePrices) (w : unit) :
    (list collect_event * list Result) * unit :=
  (([Arrive (mkResult (float_of_integer 5) None "" "" "")], []), w).
Definition ex_run : go unit * unit :=
  runTestMode (RO := canonical_range) (fun _ => 1000) ex_get (fun _ => inr ex_test_config) {[ "Binance" := ex_details ]}
    (fun _ => inr [mkExchangeQueryConfig "Binance" 1000 1000 1]) (fun _ => inr [ex_test_param]) (fun _ => inr sample_config)
    (fun _ => None) (fun _ => "") (fun _ => "") ex_answers "/home" " Q1 " tt.
Definition ex_built : gmap string BuiltQuery := match (ex_load tt).1 with Ok (inr m) => m | _ => ∅ end.

Lemma runTestMode_correct_witness : ex_run = (Ok tt, tt).
Proof.
  unfold ex_run. destruct (ex_built !! "q1") as [b|] eqn:Eb; [|vm_compute in Eb; discriminate Eb].
  apply runTestMode_correct; [discriminate|].
  exists ex_built, tt, b, (value_of (NewMarketToExchangePrices 0) (ex_populate tt).1), tt,
    (fetch_on ex_answers b ex_cache tt).1.1.
  split; [vm_cast_no_check (@eq_refl (go (go_error + gmap string BuiltQuery) * unit) (Ok (inr ex_built), tt))|].
  split; [exact Eb|].
  split; [vm_cast_no_check (@eq_refl (go MarketToExchangePrices * unit)
    (Ok (value_of (NewMarketToExchangePrices 0) (ex_populate tt).1), tt))|].
  vm_compute in Eb. injection Eb as <-. vm_compute. reflexivity.
Defined.
