(* ===== verification/Startup.v ===== *)
(** * cmd: which nodes the reporter starts with

    The lists of endpoints (endpoints.go), the chain ID that they report (chain_id.go), and
    what the command does with its flags before the daemons start (main.go). The clients of
    the nodes are arguments over an arbitrary world with files, whose configuration it writes first. *)
From Stdlib Require Import Ascii.
From S2P Require Import RpcHandlers CombinedHandlers QueryEndpoints.
From S2P Require Import Prelude Text MarketConfig QueryHandler PriceFetcher ServerCache Sources CustomQuery.
From S2P Require Import ConfigFiles Json QueryEndpoints QueryConfigFile StaticQueries TestMode.
Local Open Scope Z_scope.

(** ** endpoints.go *)
Record endpointListConfig := mkEndpointList { cfg_Endpoints : list string; Source : string }.

Definition parseEndpointValues (value : string) : go (list string) :=
  mapM_go (fun part =>
    let endpoint := strings_TrimSpace part in
    if bool_decide (endpoint = "") then Err (ErrNew "endpoint list contains an empty entry") else Ok endpoint)
    (strings_Split value ",").

Definition parsed_from (value source : string) : go endpointListConfig :=
  match parseEndpointValues value with
  | Ok endpoints => Ok (mkEndpointList endpoints source)
  | Err err => Err (wrapf source err)
  | Panic p => Panic p
  end.

Definition endpointsFromEnvOrFlag (LookupEnv : string -> option string) (envName flagName flagValue : string) : go endpointListConfig :=
  match LookupEnv envName with
  | Some envValue => parsed_from envValue envName
  | None => parsed_from flagValue ("--" +:+ flagName)
  end.

Definition grpcEndpointsFromEnvOrFlag LookupEnv : string -> go endpointListConfig := endpointsFromEnvOrFlag LookupEnv "GRPC_NODES" "grpc".
Definition rpcEndpointsFromEnvOrFlag LookupEnv : string -> go endpointListConfig := endpointsFromEnvOrFlag LookupEnv "RPC_NODES" "node".

(** The first occurrence goes to the front, those before it move one place back. *)
Definition moveEndpointToFront (endpoints : list string) (selected : string) : list string :=
  match list_find (fun endpoint => endpoint = selected) endpoints with
  | Some (i, _) => selected :: take i endpoints ++ drop (S i) endpoints
  | None => endpoints
  end.

(** ** chain_id.go *)
Record detectedEndpointChainID := mkDetected { endpoint : string; chainID : string }.

Section ChainId.
Context {W : Type}.

Section Detector.
Variable detector : string -> W -> go string * W.

(** The answers of the endpoints, asked one after the other. *)
Fixpoint ask_endpoints (endpoints : list string) (w : W) : go (list (string * (go_error + string))) * W :=
  match endpoints with
  | [] => (Ok [], w)
  | e :: endpoints =>
      let continue a w :=
        let '(rest, w) := ask_endpoints endpoints w in
        (match rest with Ok l => Ok ((e, a) :: l) | r => r end, w) in
      match detector e w with
      | (Ok id, w) => continue (inr id) w
      | (Err err, w) => continue (inl err) w
      | (Panic p, w) => (Panic p, w)
      end
  end.

Definition detected_of (answers : list (string * (go_error + string))) : list detectedEndpointChainID :=
  omap (fun x => match x.2 with inr id => Some (mkDetected x.1 id) | inl _ => None end) answers.
Definition errs_of (answers : list (string * (go_error + string))) : list string :=
  omap (fun x => match x.2 with inl err => Some (x.1 +:+ ": " +:+ error_text err) | inr _ => None end) answers.

Definition detectEndpointChainIDs (endpointType : string) (endpoints : list string) (w : W) : go (list detectedEndpointChainID) * W :=
  let '(answers, w) := ask_endpoints endpoints w in
  (answers ← answers;
   match detected_of answers with
   | [] => Err (ErrNew ("failed to detect chain ID via any " +:+ endpointType +:+ " endpoint: " +:+ strings_Join (errs_of answers) "; "))
   | l => Ok l
   end, w).
End Detector.

Definition validateReachableChainIDs (endpointType : string) (detected : list detectedEndpointChainID) : go unit :=
  first ← index detected 0;
  match filter (fun item => chainID item <> chainID first) (drop 1 detected) with
  | [] => Ok tt
  | item :: _ => Err (ErrNew (endpointType +:+ " endpoints disagree on chain ID: " +:+ endpoint first +:+ " returned " +:+ quoted (chainID first)
      +:+ ", " +:+ endpoint item +:+ " returned " +:+ quoted (chainID item)))
  end.

Variables (fromGRPC fromRPC : string -> W -> go string * W).

Definition detectChainIDFromEndpoints (grpcAddrs nodeRPCAddrs : list string) (w : W) : go (string * string * string) * W :=
  let '(grpcChainIDs, w) := detectEndpointChainIDs fromGRPC "gRPC" grpcAddrs w in
  match grpcChainIDs with
  | Err err => (Err err, w)
  | Panic p => (Panic p, w)
  | Ok grpcChainIDs =>
      let '(rpcChainIDs, w) := detectEndpointChainIDs fromRPC "node RPC" nodeRPCAddrs w in
      (rpcChainIDs ← rpcChainIDs;
       _ ← validateReachableChainIDs "gRPC" grpcChainIDs;
       _ ← validateReachableChainIDs "node RPC" rpcChainIDs;
       g ← index grpcChainIDs 0;
       r ← index rpcChainIDs 0;
       if bool_decide (chainID g = chainID r) then Ok (chainID g, endpoint g, endpoint r)
       else Err (ErrNew ("chain ID mismatch: gRPC returned " +:+ quoted (chainID g) +:+ ", node RPC returned " +:+ quoted (chainID r))), w)
  end.
End ChainId.

(** The detectors: dialling and asking for the network of a node. The answer of a gRPC node may leave out its
    information, which is then read through a nil pointer. *)
Definition chainIDFromGRPC {W} (Dial : string -> W -> option go_error * W) (GetNodeInfo : string -> W -> (go_error + option string) * W)
    (grpcAddr : string) (w : W) : go string * W :=
  match Dial grpcAddr w with
  | (Some err, w) => (Err (wrapf "dial" err), w)
  | (None, w) =>
      match GetNodeInfo grpcAddr w with
      | (inl err, w) => (Err (wrapf "GetNodeInfo" err), w)
      | (inr (Some Network), w) => (Ok Network, w)
      | (inr None, w) => (Panic NilDereference, w)
      end
  end.

Definition chainIDFromRPC {W} (New : string -> option go_error) (Status : string -> W -> (go_error + string) * W)
    (nodeRPCAddr : string) (w : W) : go string * W :=
  match New nodeRPCAddr with
  | Some err => (Err (wrapf "create client" err), w)
  | None =>
      match Status nodeRPCAddr w with
      | (inl err, w) => (Err (wrapf "status" err), w)
      | (inr Network, w) => (Ok Network, w)
      end
  end.

(** ** main.go

    The flags, as viper gives them. *)
Record flags := mkFlags {
  f_home : string; f_test : bool; f_test_query_id : string; f_log_level : string; f_grpc : string; f_from : string; f_node : string
}.

(** How the command ends, or what it starts the daemons with. *)
Inductive outcome :=
  | Exit (code : Z) (message : option string)
  | Daemons (chainId : string) (grpcEndpoints rpcEndpoints : list string) (homePath : string).

Section Run.
Context {W : Type} `{FS : FileSystem W} {RO : RangeOrder} `{V : Validator} `{JD : JsonDecoders}.
(** The decoder of TOML at the types of the three files, and the built-in exchanges and markets. *)
Variable UnmarshalExchanges : string -> go_error + list ExchangeQueryConfig.
Variable StaticExchangeQueryConfig : gmap ExchangeId ExchangeQueryConfig.
Variable UnmarshalParams : string -> go_error + list MarketParam.
Variable StaticMarketParamsConfig : gmap MarketId MarketParam.
Variable Sprint_value : toml -> string.
Variable range_other : toml -> go string.
Variable UnmarshalQueries : string -> go_error + Config.

(** The three calls; none of them returns a value, what one cannot do it panics with. *)
Definition write_configs (homePath : string) (w : W) : option go_panic * W :=
  let exchanges := exchange_config_path homePath in
  match WriteDefaultPricefeedExchangeToml UnmarshalExchanges StaticExchangeQueryConfig (Dir exchanges) exchanges w with
  | (Panic p, w) => (Some p, w)
  | (_, w) =>
      let params := market_params_path homePath in
      match WriteDefaultMarketParamsToml UnmarshalParams StaticMarketParamsConfig (Dir params) params w with
      | (Panic p, w) => (Some p, w)
      | (_, w) =>
          let queries := custom_query_path homePath "config" "custom_query_config.toml" in
          match WriteDefaultConfigToml Sprint_value range_other UnmarshalQueries static_combined (Dir queries) queries w with
          | (Panic p, w) => (Some p, w)
          | (_, w) => (None, w)
          end
      end
  end.

Variable Getenv : string -> string.
Variable LookupEnv : string -> option string.
(** What the test mode uses: the clock and HTTP, the decoder of the exchanges of a market, what the test exchange is computed from,
    the Ethereum client and the answers to a query. *)
Variable Now : W -> Time.
Variable Get : Duration -> string -> W -> (go_error + http_response) * W.
Variable UnmarshalExchangeConfig : string -> go_error + ExchangeConfigJsonT.
Variable unix_now : Z.
Variable math_Cos : Float64.float64 -> Float64.float64.
Variable Dial : string -> option go_error.
Variable answers : BuiltQuery -> MarketToExchangePrices -> W -> (list collect_event * list Result) * W.
Variable ParseLevel : string -> option go_error.
Variables (fromGRPC fromRPC : string -> W -> go string * W).

Definition fail_with (message : string) : go outcome := Ok (Exit 1 (Some message)).

Definition reporter_mode (fl : flags) (homePath : string) (w : W) : go outcome * W :=
  match grpcEndpointsFromEnvOrFlag LookupEnv (f_grpc fl), rpcEndpointsFromEnvOrFlag LookupEnv (f_node fl) with
  | Ok grpcCfg, Ok rpcCfg =>
      if bool_decide (homePath = "") then (fail_with "Error: --home (or LAYER_HOME env var) is required", w)
      else if bool_decide (cfg_Endpoints grpcCfg = []) then (fail_with "Error: GRPC_NODES or --grpc is required in reporter mode", w)
      else if bool_decide (f_from fl = "") then (fail_with "Error: --from is required in reporter mode", w)
      else if bool_decide (cfg_Endpoints rpcCfg = []) then (fail_with "Error: RPC_NODES or --node is required in reporter mode", w)
      else
        let '(detected, w) := detectChainIDFromEndpoints fromGRPC fromRPC (cfg_Endpoints grpcCfg) (cfg_Endpoints rpcCfg) w in
        match detected with
        | Err err => (fail_with ("Error: could not detect chain ID: " +:+ error_text err), w)
        | Panic p => (Panic p, w)
        | Ok (chainId, grpcAddr, selectedRPCNode) =>
            (Ok (Daemons chainId (moveEndpointToFront (cfg_Endpoints grpcCfg) grpcAddr)
                   (moveEndpointToFront (cfg_Endpoints rpcCfg) selectedRPCNode) homePath), w)
        end
  | Err err, _ | Ok _, Err err => (fail_with ("Error: " +:+ error_text err), w)
  | Panic p, _ | Ok _, Panic p => (Panic p, w)
  end.

Definition home_path (fl : flags) : string :=
  let homePath := Getenv "LAYER_HOME" in if bool_decide (homePath = "") then f_home fl else homePath.

Definition Run (fl : flags) (w : W) : go outcome * W :=
  let homePath := home_path fl in
  match write_configs homePath w with
  | (Some p, w) => (Panic p, w)
  | (None, w) =>
      match ParseLevel (f_log_level fl) with
      | Some err => (fail_with ("Error parsing log level: " +:+ error_text err), w)
      | None =>
          if f_test fl then
            match runTestMode Now Get UnmarshalExchangeConfig (StaticExchangeDetails unix_now math_Cos) UnmarshalExchanges UnmarshalParams
                    UnmarshalQueries Dial Sprint_value Getenv answers homePath (f_test_query_id fl) w with
            | (Err err, w) => (fail_with ("Test mode failed: " +:+ error_text err), w)
            | (Ok _, w) => (Ok (Exit 0 None), w)
            | (Panic p, w) => (Panic p, w)
            end
          else if negb (bool_decide (f_test_query_id fl = "")) then (fail_with "Error: --test-query-id requires --test", w)
          else reporter_mode fl homePath w
      end
  end.
End Run.

(** ** What the lists hold *)
Lemma strings_Split_not_nil s sep : strings_Split s sep <> [].
Proof. destruct s as [|a s]; cbn; [done|]. destruct (Ascii.eqb a sep); [done|]. by destruct (strings_Split s sep). Qed.

Lemma parseEndpointValues_Ok value l : parseEndpointValues value = Ok l -> l <> [] /\ "" ∉ l.
Proof.
  unfold parseEndpointValues. rewrite mapM_go_Ok. intros H. split.
  - intros ->. apply Forall2_nil_inv_r in H. by apply strings_Split_not_nil in H.
  - intros Hin. destruct (Forall2_elem_of_r _ _ _ _ H Hin) as (part & _ & Hp). cbv zeta in Hp. case_bool_decide; [done|]. by injection Hp.
Qed.

Lemma parseEndpointValues_no_panic value p : parseEndpointValues value <> Panic p.
Proof.
  unfold parseEndpointValues. induction (strings_Split value ",") as [|part l IH]; [done|]. cbn [mapM_go]. cbv zeta.
  case_bool_decide; cbn [mbind go_bind]; [done|]. destruct (mapM_go _ l); done.
Qed.

(** A list with the first occurrence of an element moved to its front. *)
Definition fronted (l : list string) (e : string) (l' : list string) : Prop :=
  exists l1 l2, l = l1 ++ e :: l2 /\ e ∉ l1 /\ l' = e :: l1 ++ l2.

Lemma move_fronted l e l' : e ∈ l -> moveEndpointToFront l e = l' <-> fronted l e l'.
Proof.
  intros Hin. unfold moveEndpointToFront. destruct (list_find_elem_of (fun x => x = e) l e Hin eq_refl) as [[i x] Hf].
  rewrite Hf. apply list_find_Some in Hf as (Hi & -> & Hbefore).
  pose proof (take_drop_middle l i e Hi) as Hl.
  assert (e ∉ take i l) as Hno.
  { intros (j & Hj)%list_elem_of_lookup. apply lookup_take_Some in Hj as [Hj Hlt]. by apply (Hbefore j e Hj Hlt). }
  split.
  - intros <-. exists (take i l), (drop (S i) l). by rewrite Hl.
  - intros (l1 & l2 & El & Hno' & ->). rewrite <- Hl in El at 1. clear -El Hno Hno'.
    revert l1 El Hno'. generalize (drop (S i) l) as r. induction (take i l) as [|a t IH]; intros r [|b l1] El Hno'; cbn in *.
    + by injection El as ->.
    + injection El as <- _. set_solver.
    + injection El as -> _. set_solver.
    + injection El as -> El. f_equal. assert (e :: t ++ r = e :: l1 ++ l2) as [= ->]; [|done].
      apply IH; [set_solver|done|set_solver].
Qed.

Lemma fronted_perm l e l' : fronted l e l' -> l' ≡ₚ l.
Proof. intros (l1 & l2 & -> & _ & ->). apply Permutation_middle. Qed.

(** ** What the endpoints answer *)
Notation answer := (string * (go_error + string))%type (only parsing).

(** The first that answers is the endpoint, with the chain ID that every answer names. *)
Definition unanimous (answers : list answer) (id e : string) : Prop :=
  (exists before after, answers = before ++ (e, inr id) :: after /\ Forall (fun x : answer => exists err, x.2 = inl err) before) /\
  forall e' id', (e', inr id') ∈ answers -> id' = id.

Lemma detected_unanimous answers id e :
  (exists rest, detected_of answers = mkDetected e id :: rest /\ Forall (fun d => chainID d = id) rest) <-> unanimous answers id e.
Proof.
  induction answers as [|[e0 [err|id0]] l IH].
  - split; [by intros (rest & [=] & _)|]. intros [([|] & after & [=] & _) _].
  - cbn. rewrite IH. split.
    + intros [(before & after & -> & Hb) Hall]. split; [exists ((e0, inl err) :: before), after; split; [done|constructor; [by eexists|done]]|].
      intros e' id' [[=]|Hin]%elem_of_cons. by apply (Hall e').
    + intros [([|x before] & after & E & Hb) Hall]; [done|]. injection E as <- ->. apply Forall_cons in Hb as [_ Hb].
      split; [by exists before, after|]. intros e' id' Hin. apply (Hall e'). by right.
  - cbn. split.
    + intros (rest & [= <- <- <-] & Hr). split; [by exists [], l|]. intros e' id' [[= -> ->]|Hin]%elem_of_cons; [done|].
      rewrite Forall_forall in Hr. apply (Hr (mkDetected e' id')). apply list_elem_of_omap. exists (e', inr id'). done.
    + intros [([|x before] & after & E & Hb) Hall].
      * injection E as -> -> ->. eexists. split; [done|]. apply Forall_forall. intros d Hd%list_elem_of_omap.
        destruct Hd as ([e' [err|id']] & Hin & [= <-]). apply (Hall e'). by right.
      * injection E as <- _. apply Forall_cons in Hb as [[err [=]] _].
Qed.

Section Spec.
Context {W : Type}.

Lemma ask_endpoints_fst (detector : string -> W -> go string * W) endpoints w answers w' :
  ask_endpoints detector endpoints w = (Ok answers, w') -> answers.*1 = endpoints.
Proof.
  revert w answers. induction endpoints as [|e endpoints IH]; intros w answers; cbn [ask_endpoints]; [by intros [= <- _]|].
  destruct (detector e w) as [[id|err|p] w1]; [..|done]; destruct (ask_endpoints detector endpoints w1) as [[l|err'|p'] w2] eqn:E;
    intros [= <- <-]; cbn; f_equal; by apply (IH w1).
Qed.

Lemma unanimous_elem answers id e : unanimous answers id e -> e ∈ answers.*1.
Proof. intros [(before & after & -> & _) _]. apply list_elem_of_fmap. exists (e, inr id). split; [done|]. apply elem_of_app. right. left. Qed.

Lemma detectEndpointChainIDs_Ok detector kind endpoints (w w' : W) l :
  detectEndpointChainIDs detector kind endpoints w = (Ok l, w') <->
  exists answers, ask_endpoints detector endpoints w = (Ok answers, w') /\ l = detected_of answers /\ l <> [].
Proof.
  unfold detectEndpointChainIDs. destruct (ask_endpoints detector endpoints w) as [[answers|err|p] w1]; cbn [mbind go_bind].
  - split.
    + intros H. destruct (detected_of answers) eqn:E; [done|]. injection H as <- <-. exists answers. by rewrite E.
    + intros (answers' & [= <- ->] & -> & Hne). by destruct (detected_of answers).
  - split; [done|]. by intros (? & [=] & _).
  - split; [done|]. by intros (? & [=] & _).
Qed.

Lemma validateReachableChainIDs_Ok kind d rest :
  validateReachableChainIDs kind (d :: rest) = Ok tt <-> Forall (fun x => chainID x = chainID d) rest.
Proof.
  unfold validateReachableChainIDs. cbn [index lookup list_lookup mbind go_bind drop].
  change (index (d :: rest) 0) with (Ok (A := detectedEndpointChainID) d). cbn [mbind go_bind drop]. rewrite drop_0.
  destruct (filter (fun item => chainID item <> chainID d) rest) as [|x r] eqn:E.
  - split; [intros _|done]. apply Forall_forall. intros x Hx. destruct (decide (chainID x = chainID d)) as [|Hne]; [done|].
    assert (x ∈ filter (fun item => chainID item <> chainID d) rest) as Hin by (by apply list_elem_of_filter).
    rewrite E in Hin. by apply elem_of_nil in Hin.
  - split; [done|]. intros H. rewrite Forall_forall in H.
    assert (x ∈ filter (fun item => chainID item <> chainID d) rest) as [Hne Hin]%list_elem_of_filter by (rewrite E; left).
    by specialize (H x Hin).
Qed.

Variables (fromGRPC fromRPC : string -> W -> go string * W).

Lemma detectChainID_Ok gl rl w id g r w' :
  detectChainIDFromEndpoints fromGRPC fromRPC gl rl w = (Ok (id, g, r), w') <->
  exists ganswers w1 ranswers,
    ask_endpoints fromGRPC gl w = (Ok ganswers, w1) /\ ask_endpoints fromRPC rl w1 = (Ok ranswers, w') /\
    unanimous ganswers id g /\ unanimous ranswers id r.
Proof.
  unfold detectChainIDFromEndpoints. setoid_rewrite <- detected_unanimous.
  destruct (detectEndpointChainIDs fromGRPC "gRPC" gl w) as [[gd|err|p] w1] eqn:Eg.
  2,3: split; [done|]; intros (ga & w2 & ra & Hg & _ & (rest & Hd & _) & _);
    assert (detectEndpointChainIDs fromGRPC "gRPC" gl w = (Ok (detected_of ga), w2)) as E
      by (apply detectEndpointChainIDs_Ok; exists ga; rewrite Hd; done); congruence.
  apply detectEndpointChainIDs_Ok in Eg as (ga & Hga & -> & Hgn).
  destruct (detectEndpointChainIDs fromRPC "node RPC" rl w1) as [[rd|err|p] w2] eqn:Er; cbn [mbind go_bind].
  2,3: split; [done|]; intros (ga' & w2' & ra & Hg & Hr & _ & (rest & Hd & _));
    rewrite Hga in Hg; injection Hg as <- <-;
    assert (detectEndpointChainIDs fromRPC "node RPC" rl w1 = (Ok (detected_of ra), w')) as E
      by (apply detectEndpointChainIDs_Ok; exists ra; rewrite Hd; done); congruence.
  apply detectEndpointChainIDs_Ok in Er as (ra & Hra & -> & Hrn).
  assert ((exists ga' w1' ra', ask_endpoints fromGRPC gl w = (Ok ga', w1') /\ ask_endpoints fromRPC rl w1' = (Ok ra', w') /\
      (exists rest, detected_of ga' = mkDetected g id :: rest /\ Forall (fun d => chainID d = id) rest) /\
      (exists rest, detected_of ra' = mkDetected r id :: rest /\ Forall (fun d => chainID d = id) rest)) <->
    w2 = w' /\ (exists rest, detected_of ga = mkDetected g id :: rest /\ Forall (fun d => chainID d = id) rest) /\
      (exists rest, detected_of ra = mkDetected r id :: rest /\ Forall (fun d => chainID d = id) rest)) as ->.
  { split.
    - intros (ga' & w1' & ra' & Hg & Hr & H1 & H2). rewrite Hga in Hg. injection Hg as <- <-. rewrite Hra in Hr. by injection Hr as <- <-.
    - intros (<- & H1 & H2). by exists ga, w1, ra. }
  destruct (detected_of ga) as [|[ge gid] gr]; [done|]. destruct (detected_of ra) as [|[re rid] rr]; [done|].
  destruct (validateReachableChainIDs "gRPC" (mkDetected ge gid :: gr)) as [[]|err|p] eqn:Vg; cbn [mbind go_bind].
  2,3: split; [done|]; intros (_ & (rest & [= <- <- <-] & Hall) & _);
    apply (proj2 (validateReachableChainIDs_Ok "gRPC" (mkDetected ge gid) gr)) in Hall; congruence.
  destruct (validateReachableChainIDs "node RPC" (mkDetected re rid :: rr)) as [[]|err|p] eqn:Vr; cbn [mbind go_bind].
  2,3: split; [done|]; intros (_ & _ & (rest & [= <- <- <-] & Hall));
    apply (proj2 (validateReachableChainIDs_Ok "node RPC" (mkDetected re rid) rr)) in Hall; congruence.
  apply validateReachableChainIDs_Ok in Vg, Vr. cbn in *. case_bool_decide as E.
  - subst. split.
    + intros [= <- <- <- <-]. split_and!; [done|by exists gr|by exists rr].
    + intros (-> & (rest & [= <- <- <-] & _) & (rest' & [= <- <-] & _)). done.
  - split; [done|]. intros (_ & (rest & [= <- <- <-] & _) & (rest' & [= <- <- _] & _)). done.
Qed.
End Spec.

Lemma endpoints_Ok LookupEnv envName flagName flagValue cfg :
  endpointsFromEnvOrFlag LookupEnv envName flagName flagValue = Ok cfg ->
  parseEndpointValues (default flagValue (LookupEnv envName)) = Ok (cfg_Endpoints cfg).
Proof.
  unfold endpointsFromEnvOrFlag, parsed_from. destruct (LookupEnv envName) as [v|]; cbn [default from_option id];
    destruct (parseEndpointValues _); by intros [= <-].
Qed.

Lemma endpoints_parsed LookupEnv envName flagName flagValue l :
  parseEndpointValues (default flagValue (LookupEnv envName)) = Ok l ->
  exists source, endpointsFromEnvOrFlag LookupEnv envName flagName flagValue = Ok (mkEndpointList l source).
Proof.
  unfold endpointsFromEnvOrFlag, parsed_from. destruct (LookupEnv envName) as [v|]; cbn [default from_option id]; intros ->; by eexists.
Qed.

Section RunSpec.
Context {W : Type} `{FS : FileSystem W} {RO : RangeOrder} `{V : Validator} `{JD : JsonDecoders}.
Variable UnmarshalExchanges : string -> go_error + list ExchangeQueryConfig.
Variable StaticExchangeQueryConfig : gmap ExchangeId ExchangeQueryConfig.
Variable UnmarshalParams : string -> go_error + list MarketParam.
Variable StaticMarketParamsConfig : gmap MarketId MarketParam.
Variable Sprint_value : toml -> string.
Variable range_other : toml -> go string.
Variable UnmarshalQueries : string -> go_error + Config.
Variable Getenv : string -> string.
Variable LookupEnv : string -> option string.
Variable Now : W -> Time.
Variable Get : Duration -> string -> W -> (go_error + http_response) * W.
Variable UnmarshalExchangeConfig : string -> go_error + ExchangeConfigJsonT.
Variable unix_now : Z.
Variable math_Cos : Float64.float64 -> Float64.float64.
Variable Dial : string -> option go_error.
Variable answers : BuiltQuery -> MarketToExchangePrices -> W -> (list collect_event * list Result) * W.
Variable ParseLevel : string -> option go_error.
Variables (fromGRPC fromRPC : string -> W -> go string * W).

Notation write home := (write_configs UnmarshalExchanges StaticExchangeQueryConfig UnmarshalParams StaticMarketParamsConfig
  Sprint_value range_other UnmarshalQueries home).
Notation grpc_text fl := (default (f_grpc fl) (LookupEnv "GRPC_NODES")).
Notation rpc_text fl := (default (f_node fl) (LookupEnv "RPC_NODES")).

Lemma reporter_mode_Ok fl home (w w' : W) id g r home' :
  reporter_mode LookupEnv fromGRPC fromRPC fl home w = (Ok (Daemons id g r home'), w') <->
  home' = home /\ home <> "" /\ f_from fl <> "" /\
  exists gl rl ge re, parseEndpointValues (grpc_text fl) = Ok gl /\ parseEndpointValues (rpc_text fl) = Ok rl /\
    detectChainIDFromEndpoints fromGRPC fromRPC gl rl w = (Ok (id, ge, re), w') /\
    g = moveEndpointToFront gl ge /\ r = moveEndpointToFront rl re.
Proof using Type.
  unfold reporter_mode, grpcEndpointsFromEnvOrFlag, rpcEndpointsFromEnvOrFlag. split.
  - destruct (endpointsFromEnvOrFlag LookupEnv "GRPC_NODES" "grpc" (f_grpc fl)) as [gc|err|p] eqn:Eg;
      destruct (endpointsFromEnvOrFlag LookupEnv "RPC_NODES" "node" (f_node fl)) as [rc|err'|p'] eqn:Er; try done.
    apply endpoints_Ok in Eg, Er. case_bool_decide as Hh; [done|]. case_bool_decide; [done|]. case_bool_decide; [done|].
    case_bool_decide; [done|]. destruct (detectChainIDFromEndpoints _ _ _ _ w) as [[[[id' ge] re]|err|p] w1] eqn:Ed; [|done..].
    intros [= <- <- <- <- <-]. split_and!; [done..|]. by exists (cfg_Endpoints gc), (cfg_Endpoints rc), ge, re.
  - intros (-> & Hh & Hf & gl & rl & ge & re & Hg & Hr & Hd & -> & ->).
    destruct (endpoints_parsed LookupEnv "GRPC_NODES" "grpc" _ _ Hg) as [gs ->].
    destruct (endpoints_parsed LookupEnv "RPC_NODES" "node" _ _ Hr) as [rs ->]. cbn [cfg_Endpoints].
    apply parseEndpointValues_Ok in Hg as [Hg _], Hr as [Hr _]. rewrite !bool_decide_false by done. by rewrite Hd.
Qed.

(** C32: The command starts the daemons exactly when it has written its configuration files, it has a home and an account, its level can be parsed, it is not in test mode,
    both lists of nodes can be parsed, and at least one node of each list answers and all that answer, of both
    lists, name one chain; it starts them with that chain and with both lists complete, in each the first
    node that answered moved to the front and the others in their order. *)
Theorem Run_starts_correct fl w id g r home w' :
  Run UnmarshalExchanges StaticExchangeQueryConfig UnmarshalParams StaticMarketParamsConfig Sprint_value range_other UnmarshalQueries
    Getenv LookupEnv Now Get UnmarshalExchangeConfig unix_now math_Cos Dial answers ParseLevel fromGRPC fromRPC fl w = (Ok (Daemons id g r home), w') <->
  home = home_path Getenv fl /\ home <> "" /\ f_from fl <> "" /\ ParseLevel (f_log_level fl) = None /\
  f_test fl = false /\ f_test_query_id fl = "" /\
  exists w0 gl rl ganswers w1 ranswers ge re,
    write home w = (None, w0) /\ parseEndpointValues (grpc_text fl) = Ok gl /\ parseEndpointValues (rpc_text fl) = Ok rl /\
    ask_endpoints fromGRPC gl w0 = (Ok ganswers, w1) /\ ask_endpoints fromRPC rl w1 = (Ok ranswers, w') /\
    unanimous ganswers id ge /\ unanimous ranswers id re /\ fronted gl ge g /\ fronted rl re r.
Proof using Type.
  unfold Run. cbv zeta. split.
  - destruct (write (home_path Getenv fl) w) as [[p|] w0] eqn:Ew; [done|].
    destruct (ParseLevel _) eqn:El; [done|]. destruct (f_test fl) eqn:Et.
    { destruct (runTestMode _ _ _ _ _ _ _ _ _ _ _ _ _ _) as [[u|err|p] w1]; done. }
    case_bool_decide as Eq; cbn [negb]; [|done].
    intros (-> & Hh & Hf & gl & rl & ge & re & Hg & Hr & Hd & -> & ->)%reporter_mode_Ok.
    apply detectChainID_Ok in Hd as (ga & w1 & ra & Hga & Hra & Hug & Hur). split_and!; try done.
    exists w0, gl, rl, ga, w1, ra, ge, re. split_and!; try done; apply move_fronted; try done.
    + rewrite <- (ask_endpoints_fst _ _ _ _ _ Hga). by eapply unanimous_elem.
    + rewrite <- (ask_endpoints_fst _ _ _ _ _ Hra). by eapply unanimous_elem.
  - intros (-> & Hh & Hf & -> & -> & -> & w0 & gl & rl & ga & w1 & ra & ge & re & -> & Hg & Hr & Hga & Hra & Hug & Hur & Hfg & Hfr).
    rewrite bool_decide_true by done. cbn [negb]. apply reporter_mode_Ok. split_and!; try done.
    exists gl, rl, ge, re. split_and!; try done.
    + apply detectChainID_Ok. by exists ga, w1, ra.
    + symmetry. apply move_fronted; [|done]. rewrite <- (ask_endpoints_fst _ _ _ _ _ Hga). by eapply unanimous_elem.
    + symmetry. apply move_fronted; [|done]. rewrite <- (ask_endpoints_fst _ _ _ _ _ Hra). by eapply unanimous_elem.
Qed.

(** The checks for empty lists never say anything: a list that is empty cannot be parsed. *)
Lemma empty_list_unparsed fl home (w : W) :
  grpc_text fl = "" -> exists message, reporter_mode LookupEnv fromGRPC fromRPC fl home w = (fail_with message, w) /\
    contains "endpoint list contains an empty entry" message = true.
Proof using Type.
  intros Hg. unfold reporter_mode, grpcEndpointsFromEnvOrFlag, endpointsFromEnvOrFlag, parsed_from.
  destruct (LookupEnv "GRPC_NODES") as [v|]; cbn in Hg; rewrite Hg; eexists; (split; [reflexivity|vm_compute; reflexivity]).
Qed.
End RunSpec.

(** ** Examples *)
Example move_ex : moveEndpointToFront ["a"; "b"; "c"; "b"] "b" = ["b"; "a"; "c"; "b"].
Proof. reflexivity. Qed.

Example path_ex :
  market_params_path "/home/me/./.layer//" = "/home/me/.layer/config/market_params.toml" /\
  Dir (market_params_path "a/../..") = "../config" /\ Dir (market_params_path "") = "config" /\ Dir "x" = ".".
Proof. vm_compute. done. Qed.

Definition ex_run : go outcome * gmap string string :=
  Run (RO := canonical_range) (V := ex_validator) (JD := ex_decoders) (fun _ => inr []) ∅ (fun _ => inr []) ∅ (fun _ => "") (fun _ => Ok "") (fun _ => inr static_config)
    (fun _ => "") (fun n => if bool_decide (n = "RPC_NODES") then Some " r1, r2" else None)
    (fun _ => 0) (fun _ _ w => (inl (ErrNew "down"), w)) (fun _ => inr (mkExchangeConfigJson [])) 0 (fun x => x) (fun _ => None)
    (fun _ _ w => (([], []), w)) (fun _ => None)
    (fun e w => (if bool_decide (e = "g1") then Err (ErrNew "down") else Ok "layer-1", w)) (fun _ w => (Ok "layer-1", w))
    (mkFlags "/home" false "" "info" "g1,g2" "me" "") (∅ : gmap string string).

Example run_ex :
  ex_run.1 = Ok (Daemons "layer-1" ["g2"; "g1"] ["r1"; "r2"] "/home") /\
  merge_sort String.le (range_of (RangeOrder := canonical_range) ex_run.2).*1
  = ["/home/config/custom_query_config.toml"; "/home/config/market_params.toml"; "/home/config/pricefeed_exchange_config.toml"].
Proof. vm_compute. done. Qed.
