(* ===== verification/StaticMarkets.v ===== *)
(** * constants: the built-in markets and exchanges

    The tables that the files of the price daemon are made of at the first start (static_market_params_config.go,
    static_exchange_query_config.go): what their texts say, and that the daemon accepts what it reads back from them. *)
From Stdlib Require Import Ascii.
From S2P Require Import Prelude Text Hex MarketConfig QueryHandler PriceFetcher MutableConfigs Daemon Sources ConfigFiles.
From S2P Require Import StaticQueries.
Local Open Scope Z_scope.

(** ** The markets *)
Definition static_market (id : MarketId) (pair : string) (exponent : Exponent) (minExchanges ppm : Z) (config queryData : string) :
    MarketId * MarketParam :=
  (id, mkMarketParam id (double_quoted pair) exponent minExchanges ppm (double_quoted config) (double_quoted queryData)).

Definition StaticMarketParamsConfig : gmap MarketId MarketParam := list_to_map [
  (* BTCUSD_ID *)
  static_market 0 "'BTC-USD'" (-5) 3 1000
     ("{\'exchanges\':[{\'exchangeName\':\'Binance\',\'ticker\':\'\\\'BTCUSDT\\\'\'},{\'exchangeName\':\'BinanceUS\',\'ticker\':\'\\\'BTC" +:+
      "USD\\\'\'},{\'exchangeName\':\'Bitfinex\',\'ticker\':\'tBTCUSD\'},{\'exchangeName\':\'Bitstamp\',\'ticker\':\'BTC/USD\'},{\'exchan" +:+
      "geName\':\'CryptoCom\',\'ticker\':\'BTC_USD\'},{\'exchangeName\':\'Kraken\',\'ticker\':\'XXBTZUSD\'},{\'exchangeName\':\'Okx\',\'t" +:+
      "icker\':\'BTC-USDT\'}]}")
     ("'000000000000000000000000000000000000000000000000000000000000004000000000000000000000000000000000000000000000000000000000000000800" +:+
      "00000000000000000000000000000000000000000000000000000000000000953706F7450726963650000000000000000000000000000000000000000000000000" +:+
      "00000000000000000000000000000000000000000000000000000000000C0000000000000000000000000000000000000000000000000000000000000004000000" +:+
      "0000000000000000000000000000000000000000000000000000000008000000000000000000000000000000000000000000000000000000000000000036274630" +:+
      "0000000000000000000000000000000000000000000000000000000000000000000000000000000000000000000000000000000000000000000000003757364000" +:+
      "0000000000000000000000000000000000000000000000000000000'");
  (* ETHUSD_ID *)
  static_market 1 "'ETH-USD'" (-6) 3 1000
     ("{\'exchanges\':[{\'exchangeName\':\'Binance\',\'ticker\':\'\\\'ETHUSDT\\\'\'},{\'exchangeName\':\'BinanceUS\',\'ticker\':\'\\\'ETH" +:+
      "USD\\\'\'},{\'exchangeName\':\'Bitfinex\',\'ticker\':\'tETHUSD\'},{\'exchangeName\':\'Bitstamp\',\'ticker\':\'ETH/USD\'},{\'exchan" +:+
      "geName\':\'CryptoCom\',\'ticker\':\'ETH_USD\'},{\'exchangeName\':\'Kraken\',\'ticker\':\'XETHZUSD\'},{\'exchangeName\':\'Okx\',\'t" +:+
      "icker\':\'ETH-USDT\'}]}")
     ("'000000000000000000000000000000000000000000000000000000000000004000000000000000000000000000000000000000000000000000000000000000800" +:+
      "00000000000000000000000000000000000000000000000000000000000000953706F7450726963650000000000000000000000000000000000000000000000000" +:+
      "00000000000000000000000000000000000000000000000000000000000C0000000000000000000000000000000000000000000000000000000000000004000000" +:+
      "0000000000000000000000000000000000000000000000000000000008000000000000000000000000000000000000000000000000000000000000000036574680" +:+
      "0000000000000000000000000000000000000000000000000000000000000000000000000000000000000000000000000000000000000000000000003757364000" +:+
      "0000000000000000000000000000000000000000000000000000000'");
  (* TRBUSD_ID *)
  static_market 69 "'TRB-USD'" (-6) 3 1000
     ("{\'exchanges\':[{\'exchangeName\':\'Binance\',\'ticker\':\'\\\'TRBUSDT\\\'\'},{\'exchangeName\':\'CryptoCom\',\'ticker\':\'TRB_USD" +:+
      "\'},{\'exchangeName\':\'Okx\',\'ticker\':\'TRB-USDT\'},{\'exchangeName\':\'CoinbaseRates\',\'ticker\':\'TRB-USD\'}]}")
     ("'000000000000000000000000000000000000000000000000000000000000004000000000000000000000000000000000000000000000000000000000000000800" +:+
      "00000000000000000000000000000000000000000000000000000000000000953706F7450726963650000000000000000000000000000000000000000000000000" +:+
      "00000000000000000000000000000000000000000000000000000000000C0000000000000000000000000000000000000000000000000000000000000004000000" +:+
      "0000000000000000000000000000000000000000000000000000000008000000000000000000000000000000000000000000000000000000000000000037472620" +:+
      "0000000000000000000000000000000000000000000000000000000000000000000000000000000000000000000000000000000000000000000000003757364000" +:+
      "0000000000000000000000000000000000000000000000000000000'");
  (* USDCUSD_ID *)
  static_market 100 "'USDC-USD'" (-6) 2 1000
     ("{\'exchanges\':[{\'exchangeName\':\'Binance\',\'ticker\':\'\\\'USDCUSDT\\\'\'},{\'exchangeName\':\'Okx\',\'ticker\':\'USDC-USDT\'}" +:+
      ",{\'exchangeName\':\'Huobi\',\'ticker\':\'usdcusdt\'},{\'exchangeName\':\'Bitstamp\',\'ticker\':\'USDC/USD\'},{\'exchangeName\':\'" +:+
      "Gate\',\'ticker\':\'USDC_USDT\'},{\'exchangeName\':\'Kraken\',\'ticker\':\'USDCUSD\'},{\'exchangeName\':\'Kucoin\',\'ticker\':\'US" +:+
      "DC-USDT\'},{\'exchangeName\':\'Mexc\',\'ticker\':\'USDCUSDT\'}]}")
     ("'000000000000000000000000000000000000000000000000000000000000004000000000000000000000000000000000000000000000000000000000000000800" +:+
      "00000000000000000000000000000000000000000000000000000000000000953706f7450726963650000000000000000000000000000000000000000000000000" +:+
      "00000000000000000000000000000000000000000000000000000000000c0000000000000000000000000000000000000000000000000000000000000004000000" +:+
      "0000000000000000000000000000000000000000000000000000000008000000000000000000000000000000000000000000000000000000000000000047573646" +:+
      "3000000000000000000000000000000000000000000000000000000000000000000000000000000000000000000000000000000000000000000000003757364000" +:+
      "0000000000000000000000000000000000000000000000000000000'");
  (* USDTUSD_ID *)
  static_market 5 "'USDT-USD'" (-6) 2 1000
     ("{\'exchanges\':[{\'exchangeName\':\'BinanceUS\',\'ticker\':\'\\\'USDTUSD\\\'\'},{\'exchangeName\':\'Bitstamp\',\'ticker\':\'USDT/U" +:+
      "SD\'},{\'exchangeName\':\'CryptoCom\',\'ticker\':\'USDT_USD\'},{\'exchangeName\':\'Kraken\',\'ticker\':\'USDTZUSD\'},{\'exchangeNa" +:+
      "me\':\'Okx\',\'ticker\':\'USDT-USD\'}]}")
     ("'000000000000000000000000000000000000000000000000000000000000004000000000000000000000000000000000000000000000000000000000000000800" +:+
      "00000000000000000000000000000000000000000000000000000000000000953706f7450726963650000000000000000000000000000000000000000000000000" +:+
      "00000000000000000000000000000000000000000000000000000000000c0000000000000000000000000000000000000000000000000000000000000004000000" +:+
      "0000000000000000000000000000000000000000000000000000000008000000000000000000000000000000000000000000000000000000000000000047573647" +:+
      "4000000000000000000000000000000000000000000000000000000000000000000000000000000000000000000000000000000000000000000000003757364000" +:+
      "0000000000000000000000000000000000000000000000000000000'");
  (* ATOMUSD_ID *)
  static_market 7 "'ATOM-USD'" (-6) 3 1000
     ("{\'exchanges\':[{\'exchangeName\':\'BinanceUS\',\'ticker\':\'\\\'ATOMUSD\\\'\'},{\'exchangeName\':\'Kraken\',\'ticker\':\'ATOMUSD\" +:+
      "'},{\'exchangeName\':\'CryptoCom\',\'ticker\':\'ATOM_USD\'},{\'exchangeName\':\'Okx\',\'ticker\':\'ATOM-USD\'},{\'exchangeName\':\" +:+
      "'CoinbaseRates\',\'ticker\':\'ATOM-USD\'}]}")
     ("'000000000000000000000000000000000000000000000000000000000000004000000000000000000000000000000000000000000000000000000000000000800" +:+
      "00000000000000000000000000000000000000000000000000000000000000953706f7450726963650000000000000000000000000000000000000000000000000" +:+
      "00000000000000000000000000000000000000000000000000000000000c0000000000000000000000000000000000000000000000000000000000000004000000" +:+
      "00000000000000000000000000000000000000000000000000000000080000000000000000000000000000000000000000000000000000000000000000461746f6" +:+
      "d000000000000000000000000000000000000000000000000000000000000000000000000000000000000000000000000000000000000000000000003757364000" +:+
      "0000000000000000000000000000000000000000000000000000000'");
  (* STETHUSD_ID *)
  static_market 8 "'STETH-USD'" (-6) 1 1000
     ("{\'exchanges\':[{\'exchangeName\':\'Huobi\',\'ticker\':\'stethusdt\'},{\'exchangeName\':\'Okx\',\'ticker\':\'STETH-USD\'},{\'excha" +:+
      "ngeName\':\'Gate\',\'ticker\':\'STETH_USDT\'}]}")
     ("'000000000000000000000000000000000000000000000000000000000000004000000000000000000000000000000000000000000000000000000000000000800" +:+
      "00000000000000000000000000000000000000000000000000000000000000953706f7450726963650000000000000000000000000000000000000000000000000" +:+
      "00000000000000000000000000000000000000000000000000000000000c0000000000000000000000000000000000000000000000000000000000000004000000" +:+
      "0000000000000000000000000000000000000000000000000000000008000000000000000000000000000000000000000000000000000000000000000057374657" +:+
      "4680000000000000000000000000000000000000000000000000000000000000000000000000000000000000000000000000000000000000000000003757364000" +:+
      "0000000000000000000000000000000000000000000000000000000'");
  (* USDEUSD_ID *)
  static_market 9 "'USDE-USD'" (-6) 1 1000
     ("{\'exchanges\':[{\'exchangeName\':\'Kraken\',\'ticker\':\'USDEUSDT\'},{\'exchangeName\':\'Gate\',\'ticker\':\'USDE_USDT\'},{\'exch" +:+
      "angeName\':\'Kucoin\',\'ticker\':\'USDE-USDT\'},{\'exchangeName\':\'Binance\',\'ticker\':\'USDEUSDT\'}]}")
     ("'000000000000000000000000000000000000000000000000000000000000004000000000000000000000000000000000000000000000000000000000000000800" +:+
      "00000000000000000000000000000000000000000000000000000000000000953706f7450726963650000000000000000000000000000000000000000000000000" +:+
      "00000000000000000000000000000000000000000000000000000000000c0000000000000000000000000000000000000000000000000000000000000004000000" +:+
      "0000000000000000000000000000000000000000000000000000000008000000000000000000000000000000000000000000000000000000000000000047573646" +:+
      "5000000000000000000000000000000000000000000000000000000000000000000000000000000000000000000000000000000000000000000000003757364000" +:+
      "0000000000000000000000000000000000000000000000000000000'")].

(** ** The exchanges *)
Definition defaultIntervalMs : Z := 2000.
Definition binanceIntervalMs : Z := 2500.
Definition bitfinexIntervalMs : Z := 2500.
Definition defaultTimeoutMs : Z := 3000.
Definition defaultMaxQueries : Z := 3.
Definition defaultMultiMarketMaxQueries : Z := 1.

Definition static_exchange (id : ExchangeId) (intervalMs timeoutMs maxQueries : Z) : ExchangeId * ExchangeQueryConfig :=
  (id, mkExchangeQueryConfig id intervalMs timeoutMs maxQueries).

Definition StaticExchangeQueryConfig : gmap ExchangeId ExchangeQueryConfig := list_to_map [
  static_exchange "Binance" binanceIntervalMs defaultTimeoutMs defaultMultiMarketMaxQueries;
  static_exchange "BinanceUS" binanceIntervalMs defaultTimeoutMs defaultMultiMarketMaxQueries;
  static_exchange "Bitfinex" bitfinexIntervalMs defaultTimeoutMs defaultMultiMarketMaxQueries;
  static_exchange "Kraken" defaultIntervalMs defaultTimeoutMs defaultMultiMarketMaxQueries;
  static_exchange "Gate" defaultIntervalMs defaultTimeoutMs defaultMultiMarketMaxQueries;
  static_exchange "Bitstamp" defaultIntervalMs defaultTimeoutMs defaultMultiMarketMaxQueries;
  static_exchange "CryptoCom" defaultIntervalMs defaultTimeoutMs defaultMultiMarketMaxQueries;
  static_exchange "Huobi" defaultIntervalMs defaultTimeoutMs defaultMultiMarketMaxQueries;
  static_exchange "Kucoin" defaultIntervalMs defaultTimeoutMs defaultMultiMarketMaxQueries;
  static_exchange "Okx" defaultIntervalMs defaultTimeoutMs defaultMultiMarketMaxQueries;
  static_exchange "Mexc" defaultIntervalMs defaultTimeoutMs defaultMultiMarketMaxQueries;
  static_exchange "CoinbaseRates" defaultIntervalMs defaultTimeoutMs defaultMultiMarketMaxQueries;
  static_exchange "TestVolatileExchange" defaultIntervalMs defaultTimeoutMs defaultMaxQueries;
  static_exchange "TestFixedPriceExchange" defaultIntervalMs defaultTimeoutMs defaultMaxQueries].

(** ** What the texts of the table say

    The asset and the listings of every market. *)
Definition static_listings : list (MarketId * (string * list (ExchangeId * string))) := [
  (0, ("btc", [("Binance", "'BTCUSDT'"); ("BinanceUS", "'BTCUSD'"); ("Bitfinex", "tBTCUSD"); ("Bitstamp", "BTC/USD"); ("CryptoCom", "BTC_USD"); ("Kraken", "XXBTZUSD"); ("Okx", "BTC-USDT")]));
  (1, ("eth", [("Binance", "'ETHUSDT'"); ("BinanceUS", "'ETHUSD'"); ("Bitfinex", "tETHUSD"); ("Bitstamp", "ETH/USD"); ("CryptoCom", "ETH_USD"); ("Kraken", "XETHZUSD"); ("Okx", "ETH-USDT")]));
  (69, ("trb", [("Binance", "'TRBUSDT'"); ("CryptoCom", "TRB_USD"); ("Okx", "TRB-USDT"); ("CoinbaseRates", "TRB-USD")]));
  (100, ("usdc", [("Binance", "'USDCUSDT'"); ("Okx", "USDC-USDT"); ("Huobi", "usdcusdt"); ("Bitstamp", "USDC/USD"); ("Gate", "USDC_USDT"); ("Kraken", "USDCUSD"); ("Kucoin", "USDC-USDT"); ("Mexc", "USDCUSDT")]));
  (5, ("usdt", [("BinanceUS", "'USDTUSD'"); ("Bitstamp", "USDT/USD"); ("CryptoCom", "USDT_USD"); ("Kraken", "USDTZUSD"); ("Okx", "USDT-USD")]));
  (7, ("atom", [("BinanceUS", "'ATOMUSD'"); ("Kraken", "ATOMUSD"); ("CryptoCom", "ATOM_USD"); ("Okx", "ATOM-USD"); ("CoinbaseRates", "ATOM-USD")]));
  (8, ("steth", [("Huobi", "stethusdt"); ("Okx", "STETH-USD"); ("Gate", "STETH_USDT")]));
  (9, ("usde", [("Kraken", "USDEUSDT"); ("Gate", "USDE_USDT"); ("Kucoin", "USDE-USDT"); ("Binance", "USDEUSDT")]))].
Definition listing_config (l : list (ExchangeId * string)) : ExchangeConfigJsonT :=
  mkExchangeConfigJson ((fun x => mkExchangeMarketConfigJson x.1 (double_quoted x.2) "" false) <$> l).

(** The compact text of a configuration, as [json.Marshal] prints it: the fields that are empty are left out. *)
Definition json_text (s : string) : string := quoted (escapeTomlString s).
Definition entry_json (e : ExchangeMarketConfigJson) : string :=
  "{" +:+ json_text "exchangeName" +:+ ":" +:+ json_text (ExchangeName e) +:+ "," +:+ json_text "ticker" +:+ ":" +:+ json_text (emcj_Ticker e) +:+
  (if bool_decide (emcj_AdjustByMarket e = "") then "" else "," +:+ json_text "adjustByMarket" +:+ ":" +:+ json_text (emcj_AdjustByMarket e)) +:+
  (if emcj_Invert e then "," +:+ json_text "invert" +:+ ":true" else "") +:+ "}".
Definition config_json (c : ExchangeConfigJsonT) : string :=
  "{" +:+ json_text "exchanges" +:+ ":[" +:+ strings_Join (entry_json <$> Exchanges c) "," +:+ "]}".

(** The query data of a spot price: the ABI encoding of (string, bytes), the bytes that of (string, string), for texts of at
    most 32 bytes. *)
Definition abi_word (n : Z) : list Z := replicate 31 0 ++ [n].
Definition abi_string (s : string) : list Z :=
  let bytes := (fun a => Z.of_nat (nat_of_ascii a)) <$> chars s in
  abi_word (Z.of_nat (length bytes)) ++ bytes ++ replicate (32 - length bytes) 0.
Definition spot_price_query (asset currency : string) : list Z :=
  abi_word 64 ++ abi_word 128 ++ abi_string "SpotPrice" ++
  abi_word 192 ++ abi_word 64 ++ abi_word 128 ++ abi_string asset ++ abi_string currency.

(** What holds of a market as it is read from the file. *)
Record market_sound (p : MarketParam) (asset : string) (cfg : ExchangeConfigJsonT) : Prop := {
  sound_complete : param_complete p = true;
  sound_config : ExchangeConfigJson p = config_json cfg;
  sound_pair : strings_ToLower (Pair p) = quoted (asset +:+ "-usd");
  sound_query : hex_DecodeString (QueryData p) = Ok (spot_price_query asset "usd");
  sound_exchanges : NoDup (ExchangeName <$> Exchanges cfg);
  sound_listed : Forall (fun e => emcj_Ticker e <> "" /\ emcj_AdjustByMarket e = "" /\
    is_Some (StaticExchangeQueryConfig !! ExchangeName e)) (Exchanges cfg);
  sound_enough : 1 <= MinExchanges p <= Z.of_nat (length (Exchanges cfg));
  sound_ppm : 0 < MinPriceChangePpm p < MaxPriceChangePpm
}.

Lemma static_market_read :
  Forall (fun x : MarketId * (string * list (ExchangeId * string)) =>
    exists p, StaticMarketParamsConfig !! x.1 = Some p /\ Id p = x.1 /\
      market_sound (unescape_param p) x.2.1 (listing_config x.2.2)) static_listings.
Proof.
  repeat apply Forall_cons_2; [..|apply Forall_nil_2].
  all: eexists; split; [vm_compute; reflexivity|]; split; [vm_compute; reflexivity|].
  all: split; [vm_compute; reflexivity..| | | |].
  all: try (apply (bool_decide_unpack _); vm_compute; exact I).
  all: vm_compute; split; congruence.
Qed.

(** ** Reading back what was written *)
Section ReadBack.
Context {K A : Type} `{Countable K} {RO : RangeOrder}.
Variable key : A -> K.
Variable R : K -> K -> Prop.
Context `{!RelDecision R}.
Variable m : gmap K A.
Hypothesis keyed : map_Forall (fun k x => key x = k) m.

Lemma sorted_values_elem x : x ∈ sorted_values R m <-> m !! key x = Some x.
Proof using keyed.
  unfold sorted_values. rewrite list_elem_of_omap. split.
  - intros (k & _ & Hk). by rewrite (keyed k x Hk).
  - intros Hx. exists (key x). split; [|done]. rewrite merge_sort_Permutation. apply list_elem_of_fmap. exists (key x, x). split; [done|].
    by apply elem_of_range_of.
Qed.

Lemma sorted_values_keys : NoDup (key <$> sorted_values R m).
Proof using keyed.
  unfold sorted_values. assert (NoDup (merge_sort R (range_of m).*1)) as Hnd by (rewrite merge_sort_Permutation; apply range_of_NoDup_keys).
  induction Hnd as [|k ks Hk Hnd IH]; cbn; [constructor|]. destruct (m !! k) as [x|] eqn:Ex; [|exact IH]. cbn. constructor; [|exact IH].
  rewrite (keyed k x Ex). intros (y & Hy & Hin)%list_elem_of_fmap. apply list_elem_of_omap in Hin as (k' & Hk' & Hy').
  apply keyed in Hy'. congruence.
Qed.

Lemma index_by_sorted (f : A -> A) :
  (forall x, key (f x) = key x) -> index_by key (f <$> sorted_values R m) = f <$> m.
Proof using keyed.
  intros Hf. assert (forall (l : list A) x, NoDup (key <$> l) -> x ∈ l -> last_with key (key x) (f <$> l) = Some (f x)) as Hlast.
  { intros l x. induction l as [|y l IH] using rev_ind; intros Hnd Hx; [by apply elem_of_nil in Hx|].
    rewrite fmap_app in Hnd. apply NoDup_app in Hnd as (Hnd & Hy & _). rewrite fmap_app. cbn [fmap list_fmap]. rewrite last_with_snoc, Hf.
    apply elem_of_app in Hx as [Hx|Hx].
    - rewrite bool_decide_false; [by apply IH|]. intros E. apply (Hy (key x)); [by apply list_elem_of_fmap_2|rewrite <- E; left].
    - apply list_elem_of_singleton in Hx as ->. by rewrite bool_decide_true. }
  apply map_eq. intros k. rewrite index_by_lookup, lookup_fmap. destruct (m !! k) as [x|] eqn:Ex.
  - pose proof (keyed k x Ex) as <-. apply Hlast; [apply sorted_values_keys|by apply sorted_values_elem].
  - cbn. unfold last_with. rewrite filter_none; [done|]. apply Forall_forall. intros y (x & -> & Hx)%list_elem_of_fmap. rewrite Hf. intros <-.
    apply sorted_values_elem in Hx. congruence.
Qed.
End ReadBack.

Lemma static_params_keyed : map_Forall (fun id p => Id p = id) StaticMarketParamsConfig.
Proof. apply (bool_decide_unpack _). vm_compute. exact I. Qed.
Lemma static_exchanges_keyed : map_Forall (fun id c => eqc_ExchangeId c = id) StaticExchangeQueryConfig.
Proof. apply (bool_decide_unpack _). vm_compute. exact I. Qed.
Lemma static_exchanges_complete : map_Forall (fun _ c => exchange_complete c = true) StaticExchangeQueryConfig.
Proof. apply (bool_decide_unpack _). vm_compute. exact I. Qed.

Lemma static_exchanges_some : StaticExchangeQueryConfig <> ∅.
Proof.
  assert (is_Some (StaticExchangeQueryConfig !! "Okx")) as [c Hc] by (eexists; reflexivity).
  intros E. rewrite E, lookup_empty in Hc. discriminate Hc.
Qed.

Lemma static_market_sound id p :
  StaticMarketParamsConfig !! id = Some p ->
  exists asset l, (id, (asset, l)) ∈ static_listings /\ market_sound (unescape_param p) asset (listing_config l).
Proof.
  intros Hp. assert (id ∈ static_listings.*1) as ([i [asset l]] & -> & Hin)%list_elem_of_fmap.
  { assert (map_Forall (fun i _ => i ∈ static_listings.*1) StaticMarketParamsConfig) as Hall
      by (apply (bool_decide_unpack _); vm_compute; exact I). exact (Hall id p Hp). }
  exists asset, l. split; [done|]. pose proof static_market_read as Hall. rewrite Forall_forall in Hall.
  destruct (Hall _ Hin) as (p' & Hp' & _ & Hs). cbn in *. congruence.
Qed.

Lemma market_sound_valid unmarshal_object p asset cfg :
  market_sound p asset cfg -> unmarshal_object (config_json cfg) = None -> valid_MarketParam unmarshal_object p.
Proof.
  intros [Hc Hj Hp Hq He Hl Hm Hppm] Hu.
  assert (QueryData p <> "") as Hqd by (intros E; rewrite E in Hq; discriminate Hq).
  split_and!; [|lia|lia|lia|by rewrite Hj|done|apply hex_DecodeString_valid; by rewrite Hq].
  intros E. rewrite E in Hp. discriminate Hp.
Qed.

(** All entries complete, the index is read. *)
Lemma read_complete {K A} `{Countable K} (key : A -> K) (complete : A -> bool) (q : A -> go_panic) (l : list A) :
  Forall (fun x => complete x = true) l ->
  foldM_go (fun (m : gmap K A) x => if complete x then Ok (<[key x := x]> m) else Panic (q x)) ∅ l = Ok (index_by key l).
Proof.
  intros Hl. destruct (foldM_go _ _ _) as [m|err|p] eqn:E; apply read_entries_Ok in E.
  - by destruct E as [_ ->].
  - done.
  - destruct E as (x & Hx & Hc & _). rewrite Forall_forall in Hl. rewrite (Hl x Hx) in Hc. discriminate Hc.
Qed.

Section FirstStart.
Context {W : Type} `{FS : FileSystem W} {RO : RangeOrder} `{V : Validator} `{JD : JsonDecoders}.
Variables (unix_now : Z) (math_Cos : Float64.float64 -> Float64.float64).
Variable unmarshal_object : string -> option go_error.
Variable UnmarshalParams : string -> go_error + list MarketParam.
Variable UnmarshalExchanges : string -> go_error + list ExchangeQueryConfig.
Notation details := (StaticExchangeDetails unix_now math_Cos).

Lemma static_exchanges_known : dom StaticExchangeQueryConfig ⊆ dom details.
Proof using Type.
  intros ex [c Hc]%elem_of_dom. apply elem_of_dom. apply elem_of_list_to_map_2 in Hc.
  repeat (apply elem_of_cons in Hc as [[= -> ->]|Hc]); [..|by apply elem_of_nil in Hc]; by eexists.
Qed.

(** C34: Out of the box the daemon is configured: when the texts that a first start writes to the two files are read back and decode to
    the entries they were made of, and encoding/json reads the texts of the built-in markets as objects, the exchanges read are the built-in ones, the market params read are the built-in
    ones with the escapes taken off, and the validation of the daemon accepts them. Every market then has a
    configuration that is the JSON text of its exchanges, all of them known, distinct, and at least as many as it
    needs, and a query data that encodes the spot price of its pair in USD. *)
Theorem first_start_configured ppath epath (w w1 w2 : W) :
  ReadFile ppath w = (inr (GenerateDefaultMarketParamsTomlString StaticMarketParamsConfig), w1) ->
  UnmarshalParams (GenerateDefaultMarketParamsTomlString StaticMarketParamsConfig) = inr (sorted_values Z.le StaticMarketParamsConfig) ->
  ReadFile epath w1 = (inr (GenerateDefaultExchangeTomlString StaticExchangeQueryConfig), w2) ->
  UnmarshalExchanges (GenerateDefaultExchangeTomlString StaticExchangeQueryConfig) = inr (sorted_values String.le StaticExchangeQueryConfig) ->
  Forall (fun x : MarketId * (string * list (ExchangeId * string)) => unmarshal_object (config_json (listing_config x.2.2)) = None) static_listings ->
  exists params,
    ReadMarketParamsConfigFile UnmarshalParams ppath w = (Ok params, w1) /\
    ReadExchangeQueryConfigFile UnmarshalExchanges epath w1 = (Ok StaticExchangeQueryConfig, w2) /\
    validateDaemonConfiguration unmarshal_object params StaticExchangeQueryConfig details = Ok tt /\
    (forall p, p ∈ params <-> exists q, StaticMarketParamsConfig !! Id p = Some q /\ p = unescape_param q) /\
    forall p, p ∈ params -> exists asset cfg, market_sound p asset cfg /\
      ExchangeConfigJson_Validate cfg (range_of StaticExchangeQueryConfig).*1 ∅ = Ok tt.
Proof using Type.
  intros Hrp Hup Hre Hue Hobj.
  set (params := (range_of (unescape_param <$> StaticMarketParamsConfig)).*2).
  assert (forall p, p ∈ params <-> exists q, StaticMarketParamsConfig !! Id p = Some q /\ p = unescape_param q) as Hparams.
  { intros p. unfold params. rewrite list_elem_of_fmap. split.
    - intros ([id p'] & -> & Hin%elem_of_range_of). rewrite lookup_fmap in Hin. destruct (StaticMarketParamsConfig !! id) as [q|] eqn:Eq; [|done].
      injection Hin as <-. exists q. split; [|done]. cbn. by rewrite (static_params_keyed id q Eq).
    - intros (q & Hq & Ep). exists (Id p, p). split; [done|]. apply elem_of_range_of. by rewrite lookup_fmap, Hq, Ep. }
  assert (forall p, p ∈ params -> exists asset l,
    market_sound p asset (listing_config l) /\ unmarshal_object (config_json (listing_config l)) = None) as Hsound.
  { intros p (q & Hq & ->)%Hparams. destruct (static_market_sound _ _ Hq) as (asset & l & Hin & Hs). exists asset, l.
    split; [exact Hs|]. rewrite Forall_forall in Hobj. exact (Hobj _ Hin). }
  exists params. split_and!.
  - unfold ReadMarketParamsConfigFile. rewrite Hrp, Hup. rewrite read_complete.
    + by rewrite (index_by_sorted Id Z.le StaticMarketParamsConfig static_params_keyed unescape_param).
    + apply Forall_forall. intros p (q & -> & Hq)%list_elem_of_fmap. apply (sorted_values_elem Id Z.le _ static_params_keyed) in Hq.
      destruct (static_market_sound _ _ Hq) as (asset & l & _ & Hs). apply Hs.
  - unfold ReadExchangeQueryConfigFile. rewrite Hre, Hue. rewrite read_complete.
    + pose proof (index_by_sorted eqc_ExchangeId String.le StaticExchangeQueryConfig static_exchanges_keyed (fun x => x) (fun _ => eq_refl)) as E.
      rewrite list_fmap_id, map_fmap_id in E. by rewrite E.
    + apply Forall_forall. intros c Hc. apply (sorted_values_elem eqc_ExchangeId String.le _ static_exchanges_keyed) in Hc.
      exact (static_exchanges_complete _ _ Hc).
  - apply validateDaemonConfiguration_correct. split_and!; [exact static_exchanges_some|apply static_exchanges_known|].
    apply Forall_forall. intros p Hp. destruct (Hsound p Hp) as (asset & l & Hs & Hu). exact (market_sound_valid _ _ _ _ Hs Hu).
  - exact Hparams.
  - intros p Hp. destruct (Hsound p Hp) as (asset & l & Hs & _). exists asset, (listing_config l). split; [done|].
    rewrite (ExchangeConfigJson_Validate_Ok unmarshal_object (fun _ => inr (listing_config l))). split; [pose proof (sound_enough _ _ _ Hs) as Hn; intros E; rewrite E in Hn; cbn in Hn; lia|].
    eapply Forall_impl; [exact (sound_listed _ _ _ Hs)|]. intros e (Ht & Ha & [c Hc]). unfold entry_ok, valid_ExchangeMarketConfigJson. split_and!; [|apply list_elem_of_fmap|done|done].
    + intros E. rewrite E in Hc. vm_compute in Hc. discriminate Hc.
    + exists (ExchangeName e, c). split; [done|]. by apply elem_of_range_of.
Qed.
End FirstStart.

(** The listings of the two Binance exchanges are in quotes, all but one, while the price function compares with the symbols as the
    exchange lists them: without quotes these markets never get a price there. *)
Lemma static_binance_quoted :
  Forall (fun x : MarketId * (string * list (ExchangeId * string)) =>
    Forall (fun e => e.1 ∈ ["Binance"; "BinanceUS"] -> e.2 = "USDEUSDT" \/ String.prefix "'" e.2 = true) x.2.2) static_listings.
Proof. apply (bool_decide_unpack _). vm_compute. exact I. Qed.

Lemma binance_quoted_unpriced `{RangeOrder} `{Validator} `{JsonDecoders} response tickerToExponent resolver tickers prices unavailable t :
  Decode_Binance (Body response) = inr tickers -> Forall (fun x => GetPair x <> t) tickers ->
  BinancePriceFunction response tickerToExponent resolver = Ok (prices, unavailable) -> prices !! t = None.
Proof.
  intros Hd Hn. unfold BinancePriceFunction. rewrite Hd. cbn [decoded mbind go_bind]. intros E.
  pose proof (GetMedianPrices_lookup _ _ _ _ _ E t) as Hl. destruct (tickerToExponent !! t) as [x|]; [|tauto].
  destruct Hl as [-> _]. unfold outcomes. by rewrite filter_none.
Qed.

(** ** A world that holds the two texts *)
#[local] Instance ex_first_files : FileSystem unit := {
  file _ p := Some p;
  ReadFile p w := (inr (if bool_decide (p = "params") then GenerateDefaultMarketParamsTomlString (RO := canonical_range) StaticMarketParamsConfig
                        else GenerateDefaultExchangeTomlString (RO := canonical_range) StaticExchangeQueryConfig), w);
  WriteFile _ _ w := (Some (ErrNew "read-only"), w);
  Remove _ w := w;
  Rename _ _ w := (Some (ErrNew "read-only"), w);
  Stat _ w := (None, w);
  MkdirAll _ w := (None, w)
}.

(** Whether a text is bracketed as a JSON object: strings closed and without control bytes, brackets matched. *)
Fixpoint json_scan (stack : list ascii) (in_string : bool) (s : string) : bool :=
  match s with
  | EmptyString => negb in_string && bool_decide (stack = [])
  | String a t =>
      if in_string then
        if Ascii.eqb a (ascii_of_nat 34) then json_scan stack false t
        else if Ascii.eqb a (ascii_of_nat 92) then match t with String _ u => json_scan stack true u | EmptyString => false end
        else (32 <=? nat_of_ascii a)%nat && json_scan stack true t
      else if Ascii.eqb a "{" then json_scan ("}"%char :: stack) false t
      else if Ascii.eqb a "[" then json_scan ("]"%char :: stack) false t
      else match stack with
           | [] => false
           | b :: stack' =>
               if Ascii.eqb a b then json_scan stack' false t
               else if Ascii.eqb a (ascii_of_nat 34) then json_scan stack true t
               else (Ascii.eqb a ":" || Ascii.eqb a ",") && json_scan stack false t
           end
  end.
Definition ex_unmarshal (s : string) : option go_error :=
  if String.prefix "{" s && json_scan [] false s then None else Some (ErrNew "invalid character").

Example unmarshal_ex : ex_unmarshal "{" <> None /\ ex_unmarshal "[1]" <> None /\ ex_unmarshal "{}" = None.
Proof. by vm_compute. Qed.

Lemma listings_unmarshal :
  Forall (fun x : MarketId * (string * list (ExchangeId * string)) => ex_unmarshal (config_json (listing_config x.2.2)) = None) static_listings.
Proof. apply (bool_decide_unpack _). vm_compute. exact I. Qed.

Lemma first_start_configured_witness :
  exists params p, ReadMarketParamsConfigFile (RO := canonical_range) (fun _ => inr (sorted_values (RO := canonical_range) Z.le StaticMarketParamsConfig))
      "params" tt = (Ok params, tt) /\
    validateDaemonConfiguration (H := canonical_range) ex_unmarshal params StaticExchangeQueryConfig
      (StaticExchangeDetails (H := canonical_range) (H0 := ex_validator) (H1 := ex_decoders) 0 (fun x => x)) = Ok tt /\
    p ∈ params /\ Id p = 69 /\
    ExchangeConfigJson p = double_quoted
      ("{'exchanges':[{'exchangeName':'Binance','ticker':'\'TRBUSDT\''},{'exchangeName':'CryptoCom','ticker':'TRB_USD'}," +:+
       "{'exchangeName':'Okx','ticker':'TRB-USDT'},{'exchangeName':'CoinbaseRates','ticker':'TRB-USD'}]}").
Proof.
  assert (ReadFile (FileSystem := ex_first_files) "params" tt =
    (inr (GenerateDefaultMarketParamsTomlString (RO := canonical_range) StaticMarketParamsConfig), tt)) as Hparams by reflexivity.
  assert (ReadFile (FileSystem := ex_first_files) "exchanges" tt =
    (inr (GenerateDefaultExchangeTomlString (RO := canonical_range) StaticExchangeQueryConfig), tt)) as Hexchanges by reflexivity.
  destruct (first_start_configured (RO := canonical_range) (V := ex_validator) (JD := ex_decoders) 0 (fun x => x) ex_unmarshal
    (fun _ => inr (sorted_values (RO := canonical_range) Z.le StaticMarketParamsConfig))
    (fun _ => inr (sorted_values (RO := canonical_range) String.le StaticExchangeQueryConfig)) "params" "exchanges" tt tt tt
    Hparams eq_refl Hexchanges eq_refl listings_unmarshal) as (params & Hp & _ & Hv & Hall & _).
  pose proof static_market_read as Hread. rewrite Forall_forall in Hread.
  assert (exists l, (69, ("trb", l)) ∈ static_listings /\ config_json (listing_config l) = double_quoted
      ("{'exchanges':[{'exchangeName':'Binance','ticker':'\'TRBUSDT\''},{'exchangeName':'CryptoCom','ticker':'TRB_USD'}," +:+
       "{'exchangeName':'Okx','ticker':'TRB-USDT'},{'exchangeName':'CoinbaseRates','ticker':'TRB-USD'}]}")) as (l & Hl & El)
    by (eexists; split; [by do 2 right; left|vm_compute; reflexivity]).
  destruct (Hread _ Hl) as (q & Hq & Hid & Hs). cbn [fst snd] in Hq, Hid, Hs. change (Id (unescape_param q) = 69) in Hid.
  exists params, (unescape_param q). split_and!; [exact Hp|exact Hv| |exact Hid|].
  - apply Hall. exists q. split; [rewrite Hid; exact Hq|reflexivity].
  - by rewrite (sound_config _ _ _ Hs).
Defined.
