(* ===== verification/ExchangeConfigs.v ===== *)
(** * constants: exchange configurations of the testnets

    The names, the ids and the listings that static_exchange_market_config.go generates the exchange configurations of the market params
    from (testutil/daemons/pricefeed/exchange_config), the generator, and that the configuration service reads back
    from its texts what they were made of. *)
From Stdlib Require Import Ascii.
From S2P Require Import Prelude Text Hex MarketConfig MutableConfigs ConfigFiles StaticMarkets.
Local Open Scope Z_scope.

(** ** Ids and names *)
Definition MARKET_BTC_USD : MarketId := 0.
Definition MARKET_ETH_USD : MarketId := 1.
Definition MARKET_LINK_USD : MarketId := 2.
Definition MARKET_MATIC_USD : MarketId := 3.
Definition MARKET_CRV_USD : MarketId := 4.
Definition MARKET_SOL_USD : MarketId := 5.
Definition MARKET_ADA_USD : MarketId := 6.
Definition MARKET_AVAX_USD : MarketId := 7.
Definition MARKET_FIL_USD : MarketId := 8.
Definition MARKET_LTC_USD : MarketId := 9.
Definition MARKET_DOGE_USD : MarketId := 10.
Definition MARKET_ATOM_USD : MarketId := 11.
Definition MARKET_DOT_USD : MarketId := 12.
Definition MARKET_UNI_USD : MarketId := 13.
Definition MARKET_BCH_USD : MarketId := 14.
Definition MARKET_TRX_USD : MarketId := 15.
Definition MARKET_NEAR_USD : MarketId := 16.
Definition MARKET_MKR_USD : MarketId := 17.
Definition MARKET_XLM_USD : MarketId := 18.
Definition MARKET_ETC_USD : MarketId := 19.
Definition MARKET_COMP_USD : MarketId := 20.
Definition MARKET_WLD_USD : MarketId := 21.
Definition MARKET_APE_USD : MarketId := 22.
Definition MARKET_APT_USD : MarketId := 23.
Definition MARKET_ARB_USD : MarketId := 24.
Definition MARKET_BLUR_USD : MarketId := 25.
Definition MARKET_LDO_USD : MarketId := 26.
Definition MARKET_OP_USD : MarketId := 27.
Definition MARKET_PEPE_USD : MarketId := 28.
Definition MARKET_SEI_USD : MarketId := 29.
Definition MARKET_SHIB_USD : MarketId := 30.
Definition MARKET_SUI_USD : MarketId := 31.
Definition MARKET_XRP_USD : MarketId := 32.
Definition MARKET_TRB_USD : MarketId := 69.
Definition MARKET_TEST_USD : MarketId := 33.
Definition MARKET_USDT_USD : MarketId := 1000000.
Definition MARKET_DYDX_USD : MarketId := 1000001.

Definition StaticMarketNames : gmap MarketId string := list_to_map [
  (MARKET_BTC_USD, "BTC-USD"); (MARKET_ETH_USD, "ETH-USD"); (MARKET_LINK_USD, "LINK-USD"); (MARKET_MATIC_USD, "MATIC-USD"); (MARKET_CRV_USD, "CRV-USD");
  (MARKET_SOL_USD, "SOL-USD"); (MARKET_ADA_USD, "ADA-USD"); (MARKET_AVAX_USD, "AVAX-USD"); (MARKET_FIL_USD, "FIL-USD"); (MARKET_LTC_USD, "LTC-USD");
  (MARKET_DOGE_USD, "DOGE-USD"); (MARKET_ATOM_USD, "ATOM-USD"); (MARKET_DOT_USD, "DOT-USD"); (MARKET_UNI_USD, "UNI-USD"); (MARKET_BCH_USD, "BCH-USD");
  (MARKET_TRX_USD, "TRX-USD"); (MARKET_NEAR_USD, "NEAR-USD"); (MARKET_MKR_USD, "MKR-USD"); (MARKET_XLM_USD, "XLM-USD"); (MARKET_ETC_USD, "ETC-USD");
  (MARKET_COMP_USD, "COMP-USD"); (MARKET_WLD_USD, "WLD-USD"); (MARKET_APE_USD, "APE-USD"); (MARKET_APT_USD, "APT-USD"); (MARKET_ARB_USD, "ARB-USD");
  (MARKET_BLUR_USD, "BLUR-USD"); (MARKET_LDO_USD, "LDO-USD"); (MARKET_OP_USD, "OP-USD"); (MARKET_PEPE_USD, "PEPE-USD"); (MARKET_SEI_USD, "SEI-USD");
  (MARKET_SHIB_USD, "SHIB-USD"); (MARKET_SUI_USD, "SUI-USD"); (MARKET_XRP_USD, "XRP-USD"); (MARKET_TRB_USD, "TRB-USD"); (MARKET_USDT_USD, "USDT-USD")].

(** ** The listings of the exchanges *)
Definition newMarketIdWithValue (id : MarketId) : option MarketId := Some id.
Definition listed (market : MarketId) (ticker : string) (adjustByMarket : option MarketId) (invert : bool) : MarketId * MarketConfig :=
  (market, mkMarketConfig ticker adjustByMarket invert).

Definition testnet_Binance : MutableExchangeMarketConfig := mkMutableExchangeMarketConfig "Binance" (list_to_map [
    listed MARKET_DYDX_USD "DYDXUSDT" (newMarketIdWithValue MARKET_USDT_USD) false;
    listed MARKET_BTC_USD "BTCUSDT" (newMarketIdWithValue MARKET_USDT_USD) false;
    listed MARKET_ETH_USD "ETHUSDT" (newMarketIdWithValue MARKET_USDT_USD) false;
    listed MARKET_LINK_USD "LINKUSDT" (newMarketIdWithValue MARKET_USDT_USD) false;
    listed MARKET_MATIC_USD "MATICUSDT" (newMarketIdWithValue MARKET_USDT_USD) false;
    listed MARKET_CRV_USD "CRVUSDT" (newMarketIdWithValue MARKET_USDT_USD) false;
    listed MARKET_SOL_USD "SOLUSDT" (newMarketIdWithValue MARKET_USDT_USD) false;
    listed MARKET_ADA_USD "ADAUSDT" (newMarketIdWithValue MARKET_USDT_USD) false;
    listed MARKET_AVAX_USD "AVAXUSDT" (newMarketIdWithValue MARKET_USDT_USD) false;
    listed MARKET_FIL_USD "FILUSDT" (newMarketIdWithValue MARKET_USDT_USD) false;
    listed MARKET_LTC_USD "LTCUSDT" (newMarketIdWithValue MARKET_USDT_USD) false;
    listed MARKET_DOGE_USD "DOGEUSDT" (newMarketIdWithValue MARKET_USDT_USD) false;
    listed MARKET_ATOM_USD "ATOMUSDT" (newMarketIdWithValue MARKET_USDT_USD) false;
    listed MARKET_DOT_USD "DOTUSDT" (newMarketIdWithValue MARKET_USDT_USD) false;
    listed MARKET_UNI_USD "UNIUSDT" (newMarketIdWithValue MARKET_USDT_USD) false;
    listed MARKET_BCH_USD "BCHUSDT" (newMarketIdWithValue MARKET_USDT_USD) false;
    listed MARKET_TRX_USD "TRXUSDT" (newMarketIdWithValue MARKET_USDT_USD) false;
    listed MARKET_NEAR_USD "NEARUSDT" (newMarketIdWithValue MARKET_USDT_USD) false;
    listed MARKET_MKR_USD "MKRUSDT" (newMarketIdWithValue MARKET_USDT_USD) false;
    listed MARKET_XLM_USD "XLMUSDT" (newMarketIdWithValue MARKET_USDT_USD) false;
    listed MARKET_ETC_USD "ETCUSDT" (newMarketIdWithValue MARKET_USDT_USD) false;
    listed MARKET_COMP_USD "COMPUSDT" (newMarketIdWithValue MARKET_USDT_USD) false;
    listed MARKET_APE_USD "APEUSDT" (newMarketIdWithValue MARKET_USDT_USD) false;
    listed MARKET_APT_USD "APTUSDT" (newMarketIdWithValue MARKET_USDT_USD) false;
    listed MARKET_ARB_USD "ARBUSDT" (newMarketIdWithValue MARKET_USDT_USD) false;
    listed MARKET_LDO_USD "LDOUSDT" (newMarketIdWithValue MARKET_USDT_USD) false;
    listed MARKET_OP_USD "OPUSDT" (newMarketIdWithValue MARKET_USDT_USD) false;
    listed MARKET_PEPE_USD "PEPEUSDT" (newMarketIdWithValue MARKET_USDT_USD) false;
    listed MARKET_SEI_USD "SEIUSDT" (newMarketIdWithValue MARKET_USDT_USD) false;
    listed MARKET_SHIB_USD "SHIBUSDT" (newMarketIdWithValue MARKET_USDT_USD) false;
    listed MARKET_SUI_USD "SUIUSDT" (newMarketIdWithValue MARKET_USDT_USD) false;
    listed MARKET_WLD_USD "WLDUSDT" (newMarketIdWithValue MARKET_USDT_USD) false;
    listed MARKET_XRP_USD "XRPUSDT" (newMarketIdWithValue MARKET_USDT_USD) false;
    listed MARKET_TRB_USD "TRBUSDT" (newMarketIdWithValue MARKET_USDT_USD) false;
    listed MARKET_USDT_USD "USDCUSDT" None true]).
Definition testnet_Kraken : MutableExchangeMarketConfig := mkMutableExchangeMarketConfig "Kraken" (list_to_map [
    listed MARKET_BTC_USD "XXBTZUSD" None false;
    listed MARKET_ETH_USD "XETHZUSD" None false;
    listed MARKET_LINK_USD "LINKUSD" None false;
    listed MARKET_SOL_USD "SOLUSD" None false;
    listed MARKET_ADA_USD "ADAUSD" None false;
    listed MARKET_FIL_USD "FILUSD" None false;
    listed MARKET_LTC_USD "XLTCZUSD" None false;
    listed MARKET_ATOM_USD "ATOMUSD" None false;
    listed MARKET_DOT_USD "DOTUSD" None false;
    listed MARKET_BCH_USD "BCHUSD" None false;
    listed MARKET_XLM_USD "XXLMZUSD" None false;
    listed MARKET_APE_USD "APEUSD" None false;
    listed MARKET_BLUR_USD "BLURUSD" None false;
    listed MARKET_PEPE_USD "PEPEUSD" None false;
    listed MARKET_SHIB_USD "SHIBUSD" None false;
    listed MARKET_XRP_USD "XXRPZUSD" None false;
    listed MARKET_UNI_USD "UNIUSD" None false;
    listed MARKET_CRV_USD "CRVUSD" None false;
    listed MARKET_COMP_USD "COMPUSD" None false;
    listed MARKET_AVAX_USD "AVAXUSD" None false;
    listed MARKET_DOGE_USD "XDGUSD" None false;
    listed MARKET_LDO_USD "LDOUSD" None false;
    listed MARKET_USDT_USD "USDTZUSD" None false;
    listed MARKET_MATIC_USD "MATICUSD" None false;
    listed MARKET_MKR_USD "MKRUSD" None false;
    listed MARKET_TRX_USD "TRXUSD" None false]).
Definition testnet_Gate : MutableExchangeMarketConfig := mkMutableExchangeMarketConfig "Gate" (list_to_map [
    listed MARKET_DYDX_USD "DYDX_USDT" (newMarketIdWithValue MARKET_USDT_USD) false;
    listed MARKET_MATIC_USD "MATIC_USDT" (newMarketIdWithValue MARKET_USDT_USD) false;
    listed MARKET_CRV_USD "CRV_USDT" (newMarketIdWithValue MARKET_USDT_USD) false;
    listed MARKET_TRB_USD "TRB_USDT" (newMarketIdWithValue MARKET_USDT_USD) false;
    listed MARKET_ADA_USD "ADA_USDT" (newMarketIdWithValue MARKET_USDT_USD) false;
    listed MARKET_DOGE_USD "DOGE_USDT" (newMarketIdWithValue MARKET_USDT_USD) false;
    listed MARKET_DOT_USD "DOT_USDT" (newMarketIdWithValue MARKET_USDT_USD) false;
    listed MARKET_UNI_USD "UNI_USDT" (newMarketIdWithValue MARKET_USDT_USD) false;
    listed MARKET_BCH_USD "BCH_USDT" (newMarketIdWithValue MARKET_USDT_USD) false;
    listed MARKET_TRX_USD "TRX_USDT" (newMarketIdWithValue MARKET_USDT_USD) false;
    listed MARKET_NEAR_USD "NEAR_USDT" (newMarketIdWithValue MARKET_USDT_USD) false;
    listed MARKET_ETC_USD "ETC_USDT" (newMarketIdWithValue MARKET_USDT_USD) false;
    listed MARKET_APE_USD "APE_USDT" (newMarketIdWithValue MARKET_USDT_USD) false;
    listed MARKET_APT_USD "APT_USDT" (newMarketIdWithValue MARKET_USDT_USD) false;
    listed MARKET_ARB_USD "ARB_USDT" (newMarketIdWithValue MARKET_USDT_USD) false;
    listed MARKET_BLUR_USD "BLUR_USDT" (newMarketIdWithValue MARKET_USDT_USD) false;
    listed MARKET_FIL_USD "FIL_USDT" (newMarketIdWithValue MARKET_USDT_USD) false;
    listed MARKET_OP_USD "OP_USDT" (newMarketIdWithValue MARKET_USDT_USD) false;
    listed MARKET_PEPE_USD "PEPE_USDT" (newMarketIdWithValue MARKET_USDT_USD) false;
    listed MARKET_SEI_USD "SEI_USDT" (newMarketIdWithValue MARKET_USDT_USD) false;
    listed MARKET_SHIB_USD "SHIB_USDT" (newMarketIdWithValue MARKET_USDT_USD) false;
    listed MARKET_SUI_USD "SUI_USDT" (newMarketIdWithValue MARKET_USDT_USD) false;
    listed MARKET_WLD_USD "WLD_USDT" (newMarketIdWithValue MARKET_USDT_USD) false;
    listed MARKET_XRP_USD "XRP_USDT" (newMarketIdWithValue MARKET_USDT_USD) false;
    listed MARKET_AVAX_USD "AVAX_USDT" (newMarketIdWithValue MARKET_USDT_USD) false;
    listed MARKET_ATOM_USD "ATOM_USDT" (newMarketIdWithValue MARKET_USDT_USD) false;
    listed MARKET_COMP_USD "COMP_USDT" (newMarketIdWithValue MARKET_USDT_USD) false]).
Definition testnet_Bitstamp : MutableExchangeMarketConfig := mkMutableExchangeMarketConfig "Bitstamp" ∅.
Definition testnet_Bybit : MutableExchangeMarketConfig := mkMutableExchangeMarketConfig "Bybit" (list_to_map [
    listed MARKET_DYDX_USD "DYDXUSDT" (newMarketIdWithValue MARKET_USDT_USD) false;
    listed MARKET_BTC_USD "BTCUSDT" (newMarketIdWithValue MARKET_USDT_USD) false;
    listed MARKET_ETH_USD "ETHUSDT" (newMarketIdWithValue MARKET_USDT_USD) false;
    listed MARKET_XRP_USD "XRPUSDT" (newMarketIdWithValue MARKET_USDT_USD) false;
    listed MARKET_LTC_USD "LTCUSDT" (newMarketIdWithValue MARKET_USDT_USD) false;
    listed MARKET_ATOM_USD "ATOMUSDT" (newMarketIdWithValue MARKET_USDT_USD) false;
    listed MARKET_TRB_USD "TRBUSDT" (newMarketIdWithValue MARKET_USDT_USD) false;
    listed MARKET_UNI_USD "UNIUSDT" (newMarketIdWithValue MARKET_USDT_USD) false;
    listed MARKET_WLD_USD "WLDUSDT" (newMarketIdWithValue MARKET_USDT_USD) false;
    listed MARKET_APT_USD "APTUSDT" (newMarketIdWithValue MARKET_USDT_USD) false;
    listed MARKET_SOL_USD "SOLUSDT" (newMarketIdWithValue MARKET_USDT_USD) false;
    listed MARKET_DOGE_USD "DOGEUSDT" (newMarketIdWithValue MARKET_USDT_USD) false;
    listed MARKET_ADA_USD "ADAUSDT" (newMarketIdWithValue MARKET_USDT_USD) false;
    listed MARKET_XLM_USD "XLMUSDT" (newMarketIdWithValue MARKET_USDT_USD) false;
    listed MARKET_SHIB_USD "SHIBUSDT" (newMarketIdWithValue MARKET_USDT_USD) false;
    listed MARKET_LINK_USD "LINKUSDT" (newMarketIdWithValue MARKET_USDT_USD) false;
    listed MARKET_ARB_USD "ARBUSDT" (newMarketIdWithValue MARKET_USDT_USD) false;
    listed MARKET_SUI_USD "SUIUSDT" (newMarketIdWithValue MARKET_USDT_USD) false;
    listed MARKET_TRX_USD "TRXUSDT" (newMarketIdWithValue MARKET_USDT_USD) false;
    listed MARKET_SEI_USD "SEIUSDT" (newMarketIdWithValue MARKET_USDT_USD) false;
    listed MARKET_PEPE_USD "PEPEUSDT" (newMarketIdWithValue MARKET_USDT_USD) false;
    listed MARKET_AVAX_USD "AVAXUSDT" (newMarketIdWithValue MARKET_USDT_USD) false;
    listed MARKET_BCH_USD "BCHUSDT" (newMarketIdWithValue MARKET_USDT_USD) false;
    listed MARKET_DOT_USD "DOTUSDT" (newMarketIdWithValue MARKET_USDT_USD) false;
    listed MARKET_MATIC_USD "MATICUSDT" (newMarketIdWithValue MARKET_USDT_USD) false;
    listed MARKET_USDT_USD "USDCUSDT" None true]).
Definition testnet_CryptoCom : MutableExchangeMarketConfig := mkMutableExchangeMarketConfig "CryptoCom" ∅.
Definition testnet_Huobi : MutableExchangeMarketConfig := mkMutableExchangeMarketConfig "Huobi" (list_to_map [
    listed MARKET_MATIC_USD "maticusdt" (newMarketIdWithValue MARKET_USDT_USD) false;
    listed MARKET_SOL_USD "solusdt" (newMarketIdWithValue MARKET_USDT_USD) false;
    listed MARKET_ADA_USD "adausdt" (newMarketIdWithValue MARKET_USDT_USD) false;
    listed MARKET_FIL_USD "filusdt" (newMarketIdWithValue MARKET_USDT_USD) false;
    listed MARKET_LTC_USD "ltcusdt" (newMarketIdWithValue MARKET_USDT_USD) false;
    listed MARKET_DOGE_USD "dogeusdt" (newMarketIdWithValue MARKET_USDT_USD) false;
    listed MARKET_BCH_USD "bchusdt" (newMarketIdWithValue MARKET_USDT_USD) false;
    listed MARKET_TRX_USD "trxusdt" (newMarketIdWithValue MARKET_USDT_USD) false;
    listed MARKET_APT_USD "aptusdt" (newMarketIdWithValue MARKET_USDT_USD) false;
    listed MARKET_ARB_USD "arbusdt" (newMarketIdWithValue MARKET_USDT_USD) false;
    listed MARKET_SEI_USD "seiusdt" (newMarketIdWithValue MARKET_USDT_USD) false;
    listed MARKET_SUI_USD "suiusdt" (newMarketIdWithValue MARKET_USDT_USD) false;
    listed MARKET_WLD_USD "wldusdt" (newMarketIdWithValue MARKET_USDT_USD) false;
    listed MARKET_XRP_USD "xrpusdt" (newMarketIdWithValue MARKET_USDT_USD) false;
    listed MARKET_AVAX_USD "avaxusdt" (newMarketIdWithValue MARKET_USDT_USD) false;
    listed MARKET_NEAR_USD "nearusdt" (newMarketIdWithValue MARKET_USDT_USD) false;
    listed MARKET_ETC_USD "etcusdt" (newMarketIdWithValue MARKET_USDT_USD) false;
    listed MARKET_BTC_USD "btcusdt" (newMarketIdWithValue MARKET_USDT_USD) false;
    listed MARKET_ETH_USD "ethusdt" (newMarketIdWithValue MARKET_USDT_USD) false;
    listed MARKET_USDT_USD "ethusdt" (newMarketIdWithValue MARKET_ETH_USD) true]).
Definition testnet_Kucoin : MutableExchangeMarketConfig := mkMutableExchangeMarketConfig "Kucoin" (list_to_map [
    listed MARKET_DYDX_USD "DYDX-USDT" (newMarketIdWithValue MARKET_USDT_USD) false;
    listed MARKET_LINK_USD "LINK-USDT" (newMarketIdWithValue MARKET_USDT_USD) false;
    listed MARKET_TRB_USD "TRB-USDT" (newMarketIdWithValue MARKET_USDT_USD) false;
    listed MARKET_MATIC_USD "MATIC-USDT" (newMarketIdWithValue MARKET_USDT_USD) false;
    listed MARKET_CRV_USD "CRV-USDT" (newMarketIdWithValue MARKET_USDT_USD) false;
    listed MARKET_SOL_USD "SOL-USDT" (newMarketIdWithValue MARKET_USDT_USD) false;
    listed MARKET_ADA_USD "ADA-USDT" (newMarketIdWithValue MARKET_USDT_USD) false;
    listed MARKET_AVAX_USD "AVAX-USDT" (newMarketIdWithValue MARKET_USDT_USD) false;
    listed MARKET_LTC_USD "LTC-USDT" (newMarketIdWithValue MARKET_USDT_USD) false;
    listed MARKET_DOGE_USD "DOGE-USDT" (newMarketIdWithValue MARKET_USDT_USD) false;
    listed MARKET_ATOM_USD "ATOM-USDT" (newMarketIdWithValue MARKET_USDT_USD) false;
    listed MARKET_DOT_USD "DOT-USDT" (newMarketIdWithValue MARKET_USDT_USD) false;
    listed MARKET_XLM_USD "XLM-USDT" (newMarketIdWithValue MARKET_USDT_USD) false;
    listed MARKET_BCH_USD "BCH-USDT" (newMarketIdWithValue MARKET_USDT_USD) false;
    listed MARKET_TRX_USD "TRX-USDT" (newMarketIdWithValue MARKET_USDT_USD) false;
    listed MARKET_ARB_USD "ARB-USDT" (newMarketIdWithValue MARKET_USDT_USD) false;
    listed MARKET_BLUR_USD "BLUR-USDT" (newMarketIdWithValue MARKET_USDT_USD) false;
    listed MARKET_LDO_USD "LDO-USDT" (newMarketIdWithValue MARKET_USDT_USD) false;
    listed MARKET_OP_USD "OP-USDT" (newMarketIdWithValue MARKET_USDT_USD) false;
    listed MARKET_PEPE_USD "PEPE-USDT" (newMarketIdWithValue MARKET_USDT_USD) false;
    listed MARKET_SEI_USD "SEI-USDT" (newMarketIdWithValue MARKET_USDT_USD) false;
    listed MARKET_SHIB_USD "SHIB-USDT" (newMarketIdWithValue MARKET_USDT_USD) false;
    listed MARKET_SUI_USD "SUI-USDT" (newMarketIdWithValue MARKET_USDT_USD) false;
    listed MARKET_WLD_USD "WLD-USDT" (newMarketIdWithValue MARKET_USDT_USD) false;
    listed MARKET_XRP_USD "XRP-USDT" (newMarketIdWithValue MARKET_USDT_USD) false;
    listed MARKET_MKR_USD "MKR-USDT" (newMarketIdWithValue MARKET_USDT_USD) false;
    listed MARKET_NEAR_USD "NEAR-USDT" (newMarketIdWithValue MARKET_USDT_USD) false;
    listed MARKET_APE_USD "APE-USDT" (newMarketIdWithValue MARKET_USDT_USD) false;
    listed MARKET_APT_USD "APT-USDT" (newMarketIdWithValue MARKET_USDT_USD) false;
    listed MARKET_USDT_USD "BTC-USDT" (newMarketIdWithValue MARKET_BTC_USD) true;
    listed MARKET_BTC_USD "BTC-USDT" (newMarketIdWithValue MARKET_USDT_USD) false;
    listed MARKET_ETC_USD "ETC-USDT" (newMarketIdWithValue MARKET_USDT_USD) false;
    listed MARKET_ETH_USD "ETH-USDT" (newMarketIdWithValue MARKET_USDT_USD) false;
    listed MARKET_UNI_USD "UNI-USDT" (newMarketIdWithValue MARKET_USDT_USD) false]).
Definition testnet_Okx : MutableExchangeMarketConfig := mkMutableExchangeMarketConfig "Okx" (list_to_map [
    listed MARKET_DYDX_USD "DYDX-USDT" (newMarketIdWithValue MARKET_USDT_USD) false;
    listed MARKET_BTC_USD "BTC-USDT" (newMarketIdWithValue MARKET_USDT_USD) false;
    listed MARKET_TRB_USD "TRB-USDT" (newMarketIdWithValue MARKET_USDT_USD) false;
    listed MARKET_ETH_USD "ETH-USDT" (newMarketIdWithValue MARKET_USDT_USD) false;
    listed MARKET_LINK_USD "LINK-USDT" (newMarketIdWithValue MARKET_USDT_USD) false;
    listed MARKET_MATIC_USD "MATIC-USDT" (newMarketIdWithValue MARKET_USDT_USD) false;
    listed MARKET_CRV_USD "CRV-USDT" (newMarketIdWithValue MARKET_USDT_USD) false;
    listed MARKET_SOL_USD "SOL-USDT" (newMarketIdWithValue MARKET_USDT_USD) false;
    listed MARKET_AVAX_USD "AVAX-USDT" (newMarketIdWithValue MARKET_USDT_USD) false;
    listed MARKET_FIL_USD "FIL-USDT" (newMarketIdWithValue MARKET_USDT_USD) false;
    listed MARKET_LTC_USD "LTC-USDT" (newMarketIdWithValue MARKET_USDT_USD) false;
    listed MARKET_DOGE_USD "DOGE-USDT" (newMarketIdWithValue MARKET_USDT_USD) false;
    listed MARKET_DOT_USD "DOT-USDT" (newMarketIdWithValue MARKET_USDT_USD) false;
    listed MARKET_UNI_USD "UNI-USDT" (newMarketIdWithValue MARKET_USDT_USD) false;
    listed MARKET_BCH_USD "BCH-USDT" (newMarketIdWithValue MARKET_USDT_USD) false;
    listed MARKET_TRX_USD "TRX-USDT" (newMarketIdWithValue MARKET_USDT_USD) false;
    listed MARKET_ETC_USD "ETC-USDT" (newMarketIdWithValue MARKET_USDT_USD) false;
    listed MARKET_APE_USD "APE-USDT" (newMarketIdWithValue MARKET_USDT_USD) false;
    listed MARKET_ARB_USD "ARB-USDT" (newMarketIdWithValue MARKET_USDT_USD) false;
    listed MARKET_BLUR_USD "BLUR-USDT" (newMarketIdWithValue MARKET_USDT_USD) false;
    listed MARKET_OP_USD "OP-USDT" (newMarketIdWithValue MARKET_USDT_USD) false;
    listed MARKET_PEPE_USD "PEPE-USDT" (newMarketIdWithValue MARKET_USDT_USD) false;
    listed MARKET_SHIB_USD "SHIB-USDT" (newMarketIdWithValue MARKET_USDT_USD) false;
    listed MARKET_SUI_USD "SUI-USDT" (newMarketIdWithValue MARKET_USDT_USD) false;
    listed MARKET_WLD_USD "WLD-USDT" (newMarketIdWithValue MARKET_USDT_USD) false;
    listed MARKET_XRP_USD "XRP-USDT" (newMarketIdWithValue MARKET_USDT_USD) false;
    listed MARKET_COMP_USD "COMP-USDT" (newMarketIdWithValue MARKET_USDT_USD) false;
    listed MARKET_MKR_USD "MKR-USDT" (newMarketIdWithValue MARKET_USDT_USD) false;
    listed MARKET_APT_USD "APT-USDT" (newMarketIdWithValue MARKET_USDT_USD) false;
    listed MARKET_ATOM_USD "ATOM-USDT" (newMarketIdWithValue MARKET_USDT_USD) false;
    listed MARKET_ADA_USD "ADA-USDT" (newMarketIdWithValue MARKET_USDT_USD) false;
    listed MARKET_LDO_USD "LDO-USDT" (newMarketIdWithValue MARKET_USDT_USD) false;
    listed MARKET_USDT_USD "USDT-USD" None false;
    listed MARKET_XLM_USD "XLM-USDT" (newMarketIdWithValue MARKET_USDT_USD) false;
    listed MARKET_NEAR_USD "NEAR-USDT" (newMarketIdWithValue MARKET_USDT_USD) false]).
Definition testnet_Mexc : MutableExchangeMarketConfig := mkMutableExchangeMarketConfig "" (list_to_map [
    listed MARKET_DYDX_USD "DYDX_USDT" (newMarketIdWithValue MARKET_USDT_USD) false;
    listed MARKET_BTC_USD "BTC_USDT" (newMarketIdWithValue MARKET_USDT_USD) false;
    listed MARKET_SOL_USD "SOL_USDT" (newMarketIdWithValue MARKET_USDT_USD) false;
    listed MARKET_LTC_USD "LTC_USDT" (newMarketIdWithValue MARKET_USDT_USD) false;
    listed MARKET_APE_USD "APE_USDT" (newMarketIdWithValue MARKET_USDT_USD) false;
    listed MARKET_APT_USD "APT_USDT" (newMarketIdWithValue MARKET_USDT_USD) false;
    listed MARKET_ARB_USD "ARB_USDT" (newMarketIdWithValue MARKET_USDT_USD) false;
    listed MARKET_BLUR_USD "BLUR_USDT" (newMarketIdWithValue MARKET_USDT_USD) false;
    listed MARKET_FIL_USD "FIL_USDT" (newMarketIdWithValue MARKET_USDT_USD) false;
    listed MARKET_LDO_USD "LDO_USDT" (newMarketIdWithValue MARKET_USDT_USD) false;
    listed MARKET_OP_USD "OP_USDT" (newMarketIdWithValue MARKET_USDT_USD) false;
    listed MARKET_PEPE_USD "PEPE_USDT" (newMarketIdWithValue MARKET_USDT_USD) false;
    listed MARKET_SEI_USD "SEI_USDT" (newMarketIdWithValue MARKET_USDT_USD) false;
    listed MARKET_SHIB_USD "SHIB_USDT" (newMarketIdWithValue MARKET_USDT_USD) false;
    listed MARKET_SUI_USD "SUI_USDT" (newMarketIdWithValue MARKET_USDT_USD) false;
    listed MARKET_WLD_USD "WLD_USDT" (newMarketIdWithValue MARKET_USDT_USD) false;
    listed MARKET_XLM_USD "XLM_USDT" (newMarketIdWithValue MARKET_USDT_USD) false;
    listed MARKET_XRP_USD "XRP_USDT" (newMarketIdWithValue MARKET_USDT_USD) false;
    listed MARKET_ETH_USD "ETH_USDT" (newMarketIdWithValue MARKET_USDT_USD) false;
    listed MARKET_ADA_USD "ADA_USDT" (newMarketIdWithValue MARKET_USDT_USD) false;
    listed MARKET_LINK_USD "LINK_USDT" (newMarketIdWithValue MARKET_USDT_USD) false;
    listed MARKET_TRX_USD "TRX_USDT" (newMarketIdWithValue MARKET_USDT_USD) false;
    listed MARKET_DOGE_USD "DOGE_USDT" (newMarketIdWithValue MARKET_USDT_USD) false;
    listed MARKET_MKR_USD "MKR_USDT" (newMarketIdWithValue MARKET_USDT_USD) false;
    listed MARKET_NEAR_USD "NEAR_USDT" (newMarketIdWithValue MARKET_USDT_USD) false;
    listed MARKET_ATOM_USD "ATOM_USDT" (newMarketIdWithValue MARKET_USDT_USD) false;
    listed MARKET_BCH_USD "BCH_USDT" (newMarketIdWithValue MARKET_USDT_USD) false;
    listed MARKET_COMP_USD "COMP_USDT" (newMarketIdWithValue MARKET_USDT_USD) false;
    listed MARKET_CRV_USD "CRV_USDT" (newMarketIdWithValue MARKET_USDT_USD) false;
    listed MARKET_DOT_USD "DOT_USDT" (newMarketIdWithValue MARKET_USDT_USD) false;
    listed MARKET_ETC_USD "ETC_USDT" (newMarketIdWithValue MARKET_USDT_USD) false;
    listed MARKET_MATIC_USD "MATIC_USDT" (newMarketIdWithValue MARKET_USDT_USD) false]).
Definition testnet_CoinbasePro : MutableExchangeMarketConfig := mkMutableExchangeMarketConfig "CoinbasePro" (list_to_map [
    listed MARKET_BTC_USD "BTC-USD" None false;
    listed MARKET_ETH_USD "ETH-USD" None false;
    listed MARKET_TRB_USD "TRB-USD" None false;
    listed MARKET_LINK_USD "LINK-USD" None false;
    listed MARKET_MATIC_USD "MATIC-USD" None false;
    listed MARKET_CRV_USD "CRV-USD" None false;
    listed MARKET_SOL_USD "SOL-USD" None false;
    listed MARKET_ADA_USD "ADA-USD" None false;
    listed MARKET_FIL_USD "FIL-USD" None false;
    listed MARKET_LTC_USD "LTC-USD" None false;
    listed MARKET_ATOM_USD "ATOM-USD" None false;
    listed MARKET_UNI_USD "UNI-USD" None false;
    listed MARKET_BCH_USD "BCH-USD" None false;
    listed MARKET_NEAR_USD "NEAR-USD" None false;
    listed MARKET_MKR_USD "MKR-USD" None false;
    listed MARKET_XLM_USD "XLM-USD" None false;
    listed MARKET_ETC_USD "ETC-USD" None false;
    listed MARKET_COMP_USD "COMP-USD" None false;
    listed MARKET_APE_USD "APE-USD" None false;
    listed MARKET_APT_USD "APT-USD" None false;
    listed MARKET_ARB_USD "ARB-USD" None false;
    listed MARKET_BLUR_USD "BLUR-USD" None false;
    listed MARKET_LDO_USD "LDO-USD" None false;
    listed MARKET_OP_USD "OP-USD" None false;
    listed MARKET_SEI_USD "SEI-USD" None false;
    listed MARKET_SHIB_USD "SHIB-USD" None false;
    listed MARKET_SUI_USD "SUI-USD" None false;
    listed MARKET_XRP_USD "XRP-USD" None false;
    listed MARKET_AVAX_USD "AVAX-USD" None false;
    listed MARKET_DOGE_USD "DOGE-USD" None false;
    listed MARKET_DOT_USD "DOT-USD" None false;
    listed MARKET_USDT_USD "USDT-USD" None false]).
Definition testnet_TestExchange : MutableExchangeMarketConfig := mkMutableExchangeMarketConfig "TestExchange" (list_to_map [
    listed MARKET_BTC_USD "BTC-USD" None false;
    listed MARKET_ETH_USD "ETH-USD" None false;
    listed MARKET_LINK_USD "LINK-USD" None false;
    listed MARKET_USDT_USD "USDT-USD" None false]).
Definition testnet_TestVolatileExchange : MutableExchangeMarketConfig := mkMutableExchangeMarketConfig "TestVolatileExchange" (list_to_map [
    listed MARKET_TEST_USD "TEST-USD" None false]).
Definition testnet_TestFixedPriceExchange : MutableExchangeMarketConfig := mkMutableExchangeMarketConfig "TestFixedPriceExchange" (list_to_map [
    listed MARKET_BTC_USD "BTC-USD" None false;
    listed MARKET_ETH_USD "ETH-USD" None false;
    listed MARKET_SOL_USD "SOL-USD" None false]).

Definition TestnetExchangeMarketConfig : gmap ExchangeId MutableExchangeMarketConfig := list_to_map [
  ("Binance", testnet_Binance); ("Kraken", testnet_Kraken); ("Gate", testnet_Gate);
  ("Bitstamp", testnet_Bitstamp); ("Bybit", testnet_Bybit); ("CryptoCom", testnet_CryptoCom);
  ("Huobi", testnet_Huobi); ("Kucoin", testnet_Kucoin); ("Okx", testnet_Okx);
  ("Mexc", testnet_Mexc); ("CoinbasePro", testnet_CoinbasePro); ("TestExchange", testnet_TestExchange);
  ("TestVolatileExchange", testnet_TestVolatileExchange); ("TestFixedPriceExchange", testnet_TestFixedPriceExchange)].

(** ** GenerateExchangeConfigJson *)
Definition MinimumRequiredExchangesPerMarket : Z := 6.
Definition EXCHANGE_ID_TEST_EXCHANGE : ExchangeId := "TestExchange".
Definition EXCHANGE_ID_TEST_FIXED_PRICE_EXCHANGE : ExchangeId := "TestFixedPriceExchange".

Definition skipped (id : ExchangeId) : bool :=
  bool_decide (id = EXCHANGE_ID_TEST_EXCHANGE) || bool_decide (id = EXCHANGE_ID_TEST_FIXED_PRICE_EXCHANGE).

(** The rows under construction: market, exchange, entry. *)
Notation rows := (gmap MarketId (gmap ExchangeId ExchangeMarketConfigJson)) (only parsing).

Definition market_entry (id : ExchangeId) (config : MarketConfig) : go ExchangeMarketConfigJson :=
  adjustByMarket ←
    match AdjustByMarket config with
    | None => Ok ""
    | Some adjust =>
        match StaticMarketNames !! adjust with
        | Some adjustByMarketName => Ok adjustByMarketName
        | None => Panic (PanicMsg ("no name for adjust-by market " +:+ pretty adjust))
        end
    end;
  Ok (mkExchangeMarketConfigJson id (Ticker config) adjustByMarket (Invert config)).

Section Generator.
Context `{RangeOrder}.

Definition add_entry (id : ExchangeId) (m : rows) (x : MarketId * MarketConfig) : go rows :=
  let '(marketId, config) := x in
  let marketExchangeConfigs : gmap ExchangeId ExchangeMarketConfigJson := default ∅ (m !! marketId) in
  exchangeMarketConfigJson ← market_entry id config;
  Ok (<[marketId := <[id := exchangeMarketConfigJson]> marketExchangeConfigs]> m).

Definition add_exchange (m : rows) (x : ExchangeId * MutableExchangeMarketConfig) : go rows :=
  let '(id, exchangeConfig) := x in
  if skipped id then Ok m
  else foldM_go (add_entry id) m (range_of (MarketToMarketConfig exchangeConfig)).

(** The entries of a market in the order of the names of the exchanges. *)
Definition sorted_config (exchangeToConfigs : gmap ExchangeId ExchangeMarketConfigJson) : ExchangeConfigJsonT :=
  mkExchangeConfigJson (sorted_values String.le exchangeToConfigs).

Variable MarshalIndent : ExchangeConfigJsonT -> go_error + string.

Definition add_text (texts : gmap MarketId string) (x : MarketId * gmap ExchangeId ExchangeMarketConfigJson) : go (gmap MarketId string) :=
  let '(marketId, exchangeToConfigs) := x in
  match MarshalIndent (sorted_config exchangeToConfigs) with
  | inl err => Panic (PanicMsg (error_text err))
  | inr bytes => Ok (<[marketId := bytes]> texts)
  end.

Definition GenerateExchangeConfigJson (exchangeToExchangeConfig : gmap ExchangeId MutableExchangeMarketConfig)
    : go (gmap MarketId string) :=
  marketToExchangeMarketConfigs ← foldM_go add_exchange ∅ (range_of exchangeToExchangeConfig);
  foldM_go add_text ∅ (range_of marketToExchangeMarketConfigs).
End Generator.

(** ** The rows

    The entry of a listing, when the market it is adjusted by has a name. *)
Definition adjust_named (config : MarketConfig) : bool :=
  match AdjustByMarket config with Some adjust => bool_decide (is_Some (StaticMarketNames !! adjust)) | None => true end.
Definition entry_of (id : ExchangeId) (config : MarketConfig) : ExchangeMarketConfigJson :=
  mkExchangeMarketConfigJson id (Ticker config) (default "" (AdjustByMarket config ≫= fun a => StaticMarketNames !! a)) (Invert config).
Definition entry_at (m : rows) (market : MarketId) (ex : ExchangeId) : option ExchangeMarketConfigJson :=
  m !! market ≫= fun row => row !! ex.
(** Every listing that is not skipped is adjusted by a market with a name. *)
Definition all_named (configs : gmap ExchangeId MutableExchangeMarketConfig) : Prop :=
  map_Forall (fun id ec => skipped id = false -> map_Forall (fun _ c => adjust_named c = true) (MarketToMarketConfig ec)) configs.

#[export] Instance all_named_dec configs : Decision (all_named configs).
Proof. unfold all_named. apply _. Defined.

Lemma market_entry_Ok id c : adjust_named c = true -> market_entry id c = Ok (entry_of id c).
Proof.
  unfold adjust_named, market_entry, entry_of. destruct (AdjustByMarket c) as [a|]; [|done]. rewrite bool_decide_eq_true. intros [n E]. cbn [mbind option_bind]. rewrite E. reflexivity.
Qed.

Lemma market_entry_panics id c : adjust_named c = false -> exists msg, market_entry id c = Panic (PanicMsg msg).
Proof.
  unfold adjust_named, market_entry. destruct (AdjustByMarket c) as [a|]; [|done]. rewrite bool_decide_eq_false.
  destruct (StaticMarketNames !! a) as [n|]; [intros []; by exists n|intros _; by eexists].
Qed.

(** A loop over the entries of a map whose body cannot return an error panics when the body does so at some entry. *)
Lemma foldM_go_panics {S A} (f : S -> A -> go S) (bad : A -> Prop) s l :
  (forall s x, bad x -> exists msg, f s x = Panic (PanicMsg msg)) ->
  (forall s x, (exists s', f s x = Ok s') \/ (exists msg, f s x = Panic (PanicMsg msg))) ->
  Exists bad l -> exists msg, foldM_go f s l = Panic (PanicMsg msg).
Proof.
  intros Hbad Hf Hl. revert s. induction Hl as [x l Hx|x l Hl IH]; intros s; cbn.
  - destruct (Hbad s x Hx) as [msg ->]. by exists msg.
  - destruct (Hf s x) as [[s' ->]|[msg ->]]; cbn; [apply IH|by exists msg].
Qed.

Section GeneratorLemmas.
Context `{RangeOrder}.

Lemma add_entry_cases id (m : rows) k c :
  (adjust_named c = true /\ add_entry id m (k, c) = Ok (<[k := <[id := entry_of id c]> (default ∅ (m !! k))]> m)) \/
  (adjust_named c = false /\ exists msg, add_entry id m (k, c) = Panic (PanicMsg msg)).
Proof using Type.
  unfold add_entry. destruct (adjust_named c) eqn:E; [left|right]; split; try done.
  - by rewrite market_entry_Ok.
  - destruct (market_entry_panics id c E) as [msg ->]. by exists msg.
Qed.

Lemma add_exchange_cases (m : rows) id ec :
  (exists m', add_exchange m (id, ec) = Ok m') \/ (exists msg, add_exchange m (id, ec) = Panic (PanicMsg msg)).
Proof using Type.
  unfold add_exchange. destruct (skipped id); [by left; eexists|]. generalize (range_of (MarketToMarketConfig ec)). intros l. revert m.
  induction l as [|[k c] l IH]; intros m; cbn [foldM_go]; [by left; eexists|].
  destruct (add_entry_cases id m k c) as [(_ & ->)|(_ & msg & ->)]; [apply IH|by right; exists msg].
Qed.

(** A listing that is not named makes the generator panic, whatever the order of the maps. *)
Lemma unnamed_panics configs : ~ all_named configs -> exists msg, foldM_go add_exchange ∅ (range_of configs) = Panic (PanicMsg msg).
Proof using Type.
  intros Hn. apply (foldM_go_panics _ (fun x => skipped x.1 = false /\ ~ map_Forall (fun _ c => adjust_named c = true) (MarketToMarketConfig x.2))).
  - intros m [id ec] [Hs Hx]. unfold add_exchange. cbn [fst snd] in *. rewrite Hs.
    apply (foldM_go_panics _ (fun y => adjust_named y.2 = false)).
    + intros m' [k c] Hc. destruct (add_entry_cases id m' k c) as [(Ht & _)|(_ & Hp)]; [cbn in Hc; congruence|exact Hp].
    + intros m' [k c]. destruct (add_entry_cases id m' k c) as [(_ & ->)|(_ & Hp)]; [by left; eexists|by right].
    + apply map_not_Forall in Hx as (k & c & Hc & Hb); [|apply _]. apply Exists_exists. exists (k, c). split; [by apply elem_of_range_of|].
      by apply not_true_is_false.
  - intros m [id ec]. apply add_exchange_cases.
  - apply map_not_Forall in Hn as (id & ec & He & Hb); [|apply _]. apply Exists_exists. exists (id, ec). split; [by apply elem_of_range_of|].
    cbn. destruct (skipped id); [by destruct Hb|]. split; [done|]. intros Ha. by apply Hb.
Qed.

(** The rows that the loops build: the entry of every listing, and no row is empty. *)
Record rows_of (m : rows) (at_ : MarketId -> ExchangeId -> option ExchangeMarketConfigJson) : Prop := {
  rows_at : forall k ex, entry_at m k ex = at_ k ex;
  rows_some : map_Forall (fun _ row => row <> ∅) m
}.

Lemma entry_at_insert id c k (m : rows) k' ex :
  entry_at (<[k := <[id := c]> (default ∅ (m !! k))]> m) k' ex =
    if bool_decide (k' = k /\ ex = id) then Some c else entry_at m k' ex.
Proof using Type.
  unfold entry_at. destruct (decide (k' = k)) as [->|Hk].
  - rewrite lookup_insert_eq. cbn. destruct (decide (ex = id)) as [->|Hex].
    + by rewrite lookup_insert_eq, bool_decide_true.
    + rewrite lookup_insert_ne, bool_decide_false by naive_solver. by destruct (m !! k); cbn; rewrite ?lookup_empty.
  - rewrite lookup_insert_ne, bool_decide_false by naive_solver. done.
Qed.

Lemma add_entries_rows id (l : list (MarketId * MarketConfig)) (m : rows) at_ :
  Forall (fun x => adjust_named x.2 = true) l -> NoDup l.*1 -> rows_of m at_ ->
  exists m', foldM_go (add_entry id) m l = Ok m' /\
    rows_of m' (fun k ex => if bool_decide (ex = id) then match list_to_map (M := gmap _ _) l !! k with Some c => Some (entry_of id c) | None => at_ k ex end
                            else at_ k ex).
Proof using Type.
  revert m at_. induction l as [|[k c] l IH]; intros m at_ Hl Hnd Hm.
  - exists m. split; [done|]. split; [|apply Hm]. intros k ex. rewrite (rows_at _ _ Hm). cbn. rewrite lookup_empty. by case_bool_decide.
  - apply Forall_cons in Hl as [Hc Hl]. apply NoDup_cons in Hnd as [Hk Hnd]. cbn [foldM_go].
    destruct (add_entry_cases id m k c) as [(_ & ->)|(Hc' & _)]; [|cbn in Hc; congruence]. cbn [mbind go_bind].
    destruct (IH (<[k := <[id := entry_of id c]> (default ∅ (m !! k))]> m)
      (fun k' ex => if bool_decide (k' = k /\ ex = id) then Some (entry_of id c) else at_ k' ex) Hl Hnd) as (m' & E & Hm').
    + split.
      * intros k' ex. by rewrite entry_at_insert, (rows_at _ _ Hm).
      * apply map_Forall_insert_2; [apply insert_non_empty|apply Hm].
    + exists m'. split; [exact E|]. split; [|apply Hm']. intros k' ex. rewrite (rows_at _ _ Hm'). cbn [list_to_map].
      destruct (decide (ex = id)) as [->|Hex]; [|by rewrite !(bool_decide_false (ex = id)), bool_decide_false by naive_solver].
      rewrite !(bool_decide_true (id = id)) by done. destruct (decide (k' = k)) as [->|Hne].
      * cbn. rewrite lookup_insert_eq, bool_decide_true by done. by rewrite (not_elem_of_list_to_map_1 _ _ Hk).
      * cbn. rewrite lookup_insert_ne, bool_decide_false by naive_solver. done.
Qed.

Lemma list_to_map_range_of {K A} `{Countable K} (m : gmap K A) : list_to_map (range_of m) = m.
Proof using Type.
  rewrite <- (list_to_map_to_list m) at 2. apply list_to_map_proper; [apply range_of_NoDup_keys|apply range_of_perm].
Qed.

Lemma add_exchanges_rows (l : list (ExchangeId * MutableExchangeMarketConfig)) (m : rows) at_ :
  Forall (fun x => skipped x.1 = false -> map_Forall (fun _ c => adjust_named c = true) (MarketToMarketConfig x.2)) l -> NoDup l.*1 -> rows_of m at_ ->
  exists m', foldM_go add_exchange m l = Ok m' /\
    rows_of m' (fun k ex => if skipped ex then at_ k ex
      else match list_to_map (M := gmap _ _) l !! ex ≫= fun ec => MarketToMarketConfig ec !! k with Some c => Some (entry_of ex c) | None => at_ k ex end).
Proof using Type.
  revert m at_. induction l as [|[id ec] l IH]; intros m at_ Hl Hnd Hm.
  - exists m. split; [done|]. split; [|apply Hm]. intros k ex. rewrite (rows_at _ _ Hm). cbn. rewrite lookup_empty. by destruct (skipped ex).
  - apply Forall_cons in Hl as [Hc Hl]. apply NoDup_cons in Hnd as [Hid Hnd]. cbn [foldM_go fst snd] in Hc, Hid |- *.
  assert (add_exchange m (id, ec) = if skipped id then Ok m else foldM_go (add_entry id) m (range_of (MarketToMarketConfig ec))) as Ea by done.
  rewrite Ea. clear Ea.
    assert (list_to_map (M := gmap _ _) l !! id = None) as Hnone by by apply not_elem_of_list_to_map_1.
    destruct (skipped id) eqn:Hs.
    + destruct (IH m at_ Hl Hnd Hm) as (m' & E & Hm'). exists m'. split; [exact E|]. split; [|apply Hm'].
      intros k ex. rewrite (rows_at _ _ Hm'). destruct (skipped ex) eqn:Hex; [done|]. cbn [list_to_map].
      cbn. rewrite lookup_insert_ne; [done|congruence].
    + destruct (add_entries_rows id (range_of (MarketToMarketConfig ec)) m at_) as (m1 & E1 & Hm1); [|apply range_of_NoDup_keys|exact Hm|].
      { apply Forall_forall. intros [k c] Hin%elem_of_range_of. exact (Hc eq_refl k c Hin). }
      destruct (IH m1 _ Hl Hnd Hm1) as (m' & E & Hm'). exists m'. rewrite E1. split; [exact E|]. split; [|apply Hm'].
      intros k ex. rewrite (rows_at _ _ Hm'), list_to_map_range_of. destruct (skipped ex) eqn:Hex; [rewrite bool_decide_false; [done|congruence]|].
      cbn. destruct (decide (ex = id)) as [->|Hne].
      * rewrite Hnone, lookup_insert_eq, bool_decide_true by done. done.
      * rewrite lookup_insert_ne, bool_decide_false by congruence. done.
Qed.

Lemma generate_rows configs :
  all_named configs ->
  exists m, foldM_go add_exchange ∅ (range_of configs) = Ok m /\
    rows_of m (fun k ex => if skipped ex then None else entry_of ex <$> config_at configs ex k).
Proof using Type.
  intros Hn. destruct (add_exchanges_rows (range_of configs) ∅ (fun _ _ => None)) as (m & E & Hm).
  - apply Forall_forall. intros [id ec] Hin%elem_of_range_of. exact (Hn id ec Hin).
  - apply range_of_NoDup_keys.
  - split; [done|apply map_Forall_empty].
  - exists m. split; [exact E|]. split; [|apply Hm]. intros k ex. rewrite (rows_at _ _ Hm), list_to_map_range_of. unfold config_at.
    destruct (skipped ex); [done|]. by destruct (configs !! ex ≫= _).
Qed.

Lemma row_elem m at_ k row e :
  rows_of m at_ -> m !! k = Some row -> (forall ex x, at_ k ex = Some x -> ExchangeName x = ex) ->
  e ∈ Exchanges (sorted_config row) <-> at_ k (ExchangeName e) = Some e.
Proof using Type.
  intros Hm Hk Hname. cbn [sorted_config Exchanges].
  assert (forall ex, row !! ex = at_ k ex) as Hrow by (intros ex; rewrite <- (rows_at _ _ Hm); unfold entry_at; by rewrite Hk).
  rewrite (sorted_values_elem ExchangeName).
  - by rewrite Hrow.
  - intros ex x Hx. apply Hname with (ex := ex). by rewrite <- Hrow.
Qed.
End GeneratorLemmas.

(** ** The generator and the configuration service *)
Definition plain (s : string) : bool := forallb (fun a => (32 <=? Z.of_nat (nat_of_ascii a)) && (Z.of_nat (nat_of_ascii a) <=? 126)) (chars s).
Definition plain_entry (e : ExchangeMarketConfigJson) : bool := plain (ExchangeName e) && plain (emcj_Ticker e) && plain (emcj_AdjustByMarket e).

Lemma static_names_distinct : map_Forall (fun k n => n <> "" /\ plain n = true /\ map_Forall (fun k' n' => n = n' -> k = k') StaticMarketNames) StaticMarketNames.
Proof. apply (bool_decide_unpack _). vm_compute. exact I. Qed.

(** A listing in plain texts. *)
Definition plain_listing (ex : ExchangeId) (c : MarketConfig) : Prop := plain ex = true /\ plain (Ticker c) = true.

Lemma plain_entry_of ex c : plain_listing ex c -> plain_entry (entry_of ex c) = true.
Proof.
  intros [He Ht]. unfold plain_entry, entry_of. cbn [ExchangeName emcj_Ticker emcj_AdjustByMarket]. rewrite He, Ht.
  destruct (AdjustByMarket c) as [a|]; [|done]. cbn [mbind option_bind]. destruct (StaticMarketNames !! a) as [n|] eqn:En; [|done].
  by destruct (static_names_distinct _ _ En) as (_ & Hn & _).
Qed.

Lemma marketNameToId_lookup (params : list MarketParam) n :
  match marketNameToId params !! n with
  | Some a => exists p, p ∈ params /\ Pair p = n /\ Id p = a
  | None => n ∉ Pair <$> params
  end.
Proof.
  unfold marketNameToId. induction params as [|p params IH] using rev_ind; [cbn; rewrite lookup_empty; apply not_elem_of_nil|].
  rewrite foldl_app. cbn [foldl]. destruct (decide (Pair p = n)) as [<-|Hne].
  - rewrite lookup_insert_eq. exists p. set_solver.
  - rewrite lookup_insert_ne by done. destruct (_ !! n) as [a|]; [destruct IH as (q & Hq & E); exists q; set_solver|].
    rewrite fmap_app. cbn. set_solver.
Qed.

(** Each exchange once, the last entry is the entry. *)
Lemma market_on_distinct names (l : list ExchangeMarketConfigJson) ex mc :
  NoDup (ExchangeName <$> l) ->
  market_on names l ex = Some mc <-> exists e, e ∈ l /\ ExchangeName e = ex /\ entry_config names e = mc.
Proof.
  induction l as [|e l IH] using rev_ind; intros Hnd; [cbn; set_solver|].
  rewrite fmap_app in Hnd. apply NoDup_app in Hnd as (Hnd & He & _). rewrite market_on_snoc. case_bool_decide as E.
  - split; [intros [= <-]; exists e; set_solver|]. intros (e' & Hin & Hn & <-). f_equal. f_equal.
    apply elem_of_app in Hin as [Hin|Hin]; [|set_solver]. destruct (He (ExchangeName e')); [by apply list_elem_of_fmap_2|]. cbn. set_solver.
  - rewrite IH by done. split; [intros (e' & Hin & Hx); exists e'; set_solver|]. intros (e' & Hin & <- & Hx). exists e'. split; [|done].
    apply elem_of_app in Hin as [Hin|Hin]; [done|]. apply list_elem_of_singleton in Hin as ->. by destruct E.
Qed.

Section RoundTrip.
Context `{RangeOrder} {Updater : Type}.
Variable unmarshal_object : string -> option go_error.
Variable unmarshal_config : string -> go_error + ExchangeConfigJsonT.
Variable MarshalIndent : ExchangeConfigJsonT -> go_error + string.

(** What [json.MarshalIndent] prints of plain texts, [json.Unmarshal] reads. *)
Hypothesis json_reads : forall cfg, Forall (fun e => plain_entry e = true) (Exchanges cfg) ->
  exists text, MarshalIndent cfg = inr text /\ unmarshal_config text = inr cfg /\ unmarshal_object text = None.

Lemma generate_texts (m : rows) at_ :
  rows_of m at_ -> (forall k ex e, at_ k ex = Some e -> ExchangeName e = ex /\ plain_entry e = true) ->
  exists texts, foldM_go (add_text MarshalIndent) ∅ (range_of m) = Ok texts /\
    forall k text, texts !! k = Some text <->
      exists row, m !! k = Some row /\ MarshalIndent (sorted_config row) = inr text.
Proof using json_reads.
  intros Hm Hat.
  assert (Forall (fun x => exists text, MarshalIndent (sorted_config x.2) = inr text) (range_of m)) as Hall.
  { apply Forall_forall. intros [k row] Hin%elem_of_range_of. destruct (json_reads (sorted_config row)) as (text & Ht & _); [|by exists text].
    apply Forall_forall. intros e He. apply (row_elem _ _ _ _ _ Hm Hin) in He; [exact (proj2 (Hat _ _ _ He))|]. intros ex x Hx. exact (proj1 (Hat _ _ _ Hx)). }
  assert (forall (l : list (MarketId * gmap ExchangeId ExchangeMarketConfigJson)) texts0,
    Forall (fun x => exists text, MarshalIndent (sorted_config x.2) = inr text) l -> NoDup l.*1 ->
    exists texts, foldM_go (add_text MarshalIndent) texts0 l = Ok texts /\
      forall k, match list_to_map (M := gmap _ _) l !! k with
                | Some row => exists text, texts !! k = Some text /\ MarshalIndent (sorted_config row) = inr text
                | None => texts !! k = texts0 !! k end) as Hfold.
  { intros l. induction l as [|[k row] l IH]; intros texts0 Hl Hnd; [exists texts0; split; [done|]; intros k; cbn; by rewrite lookup_empty|].
    apply Forall_cons in Hl as [[text Ht] Hl]. apply NoDup_cons in Hnd as [Hk Hnd]. cbn [foldM_go add_text]. cbn [snd] in Ht. rewrite Ht. cbn [mbind go_bind].
    destruct (IH (<[k := text]> texts0) Hl Hnd) as (texts & E & Hx). exists texts. split; [exact E|]. intros k'. specialize (Hx k'). cbn.
    destruct (decide (k' = k)) as [->|Hne]; [|rewrite (lookup_insert_ne (list_to_map l)) by congruence; rewrite (lookup_insert_ne texts0) in Hx by congruence; exact Hx].
    rewrite lookup_insert_eq. rewrite (not_elem_of_list_to_map_1 _ _ Hk), lookup_insert_eq in Hx. by exists text. }
  destruct (Hfold (range_of m) ∅ Hall (range_of_NoDup_keys m)) as (texts & E & Hx). exists texts. split; [exact E|].
  intros k text. specialize (Hx k). rewrite list_to_map_range_of in Hx. destruct (m !! k) as [row|].
  - destruct Hx as (text' & -> & Ht). split; [intros [= <-]; by exists row|intros (row' & [= <-] & Ht'); congruence].
  - rewrite Hx, lookup_empty. split; [done|by intros (row & ? & _)].
Qed.

(** What the market params and the listings of their markets have to be. *)
Definition generated_param (texts : gmap MarketId string) (p : MarketParam) : Prop :=
  StaticMarketNames !! Id p = Some (Pair p) /\ texts !! Id p = Some (ExchangeConfigJson p) /\
  MinExchanges p <> 0 /\ MinPriceChangePpm p <> 0 /\ MinPriceChangePpm p < MaxPriceChangePpm /\ QueryData p <> "" /\ valid_hex (QueryData p).
Definition listing_ok (exs : list ExchangeId) (ids : list MarketId) (ex : ExchangeId) (c : MarketConfig) : Prop :=
  ex <> "" /\ ex ∈ exs /\ Ticker c <> "" /\ forall a, AdjustByMarket c = Some a -> a ∈ ids.

Section Params.
Variables (configs : gmap ExchangeId MutableExchangeMarketConfig) (params : list MarketParam) (exs : list ExchangeId) (texts : gmap MarketId string).
Hypothesis named : all_named configs.
Hypothesis pairs : Forall (generated_param texts) params.
Hypothesis listings : forall ex m c, skipped ex = false -> m ∈ Id <$> params -> config_at configs ex m = Some c ->
  listing_ok exs (Id <$> params) ex c.

Lemma param_named p : p ∈ params -> marketNameToId params !! Pair p = Some (Id p).
Proof using pairs.
  intros Hp. pose proof (proj1 (Forall_forall _ _) pairs) as Hpairs. pose proof (marketNameToId_lookup params (Pair p)) as Hl. destruct (_ !! Pair p) as [a|].
  - destruct Hl as (q & Hq & En & <-). f_equal. destruct (Hpairs p Hp) as [Hn _], (Hpairs q Hq) as [Hn' _].
    destruct (static_names_distinct _ _ Hn') as (_ & _ & Hd). exact (Hd _ _ Hn En).
  - destruct Hl. by apply list_elem_of_fmap_2.
Qed.

(** An entry reads back as the listing that it was made of. *)
Lemma entry_config_of ex m c :
  skipped ex = false -> m ∈ Id <$> params -> config_at configs ex m = Some c ->
  entry_config (marketNameToId params) (entry_of ex c) = c /\ entry_ok exs (marketNameToId params) (entry_of ex c).
Proof using pairs listings.
  intros Hs Hm Hc. destruct (listings ex m c Hs Hm Hc) as (He & Hin & Ht & Ha). destruct c as [ticker [a|] invert]; cbn in *.
  - pose proof (Ha a eq_refl) as (p & -> & Hp)%list_elem_of_fmap. pose proof (proj1 (Forall_forall _ _) pairs) as Hpairs. destruct (Hpairs p Hp) as [Hn _].
    destruct (static_names_distinct _ _ Hn) as (Hne & _ & _). unfold entry_of, entry_config, entry_ok, valid_ExchangeMarketConfigJson.
    cbn [AdjustByMarket Ticker Invert mbind option_bind emcj_AdjustByMarket emcj_Ticker emcj_Invert ExchangeName]. rewrite Hn. cbn [default].
    rewrite bool_decide_false by done. change (id (Pair p)) with (Pair p). rewrite (param_named p Hp). split; [done|]. split_and!; try done.
  - split; [done|]. split_and!; done.
Qed.

Lemma generated_accepted m p :
  rows_of m (fun k ex => if skipped ex then None else entry_of ex <$> config_at configs ex k) ->
  (forall k ex c, skipped ex = false -> config_at configs ex k = Some c -> plain_entry (entry_of ex c) = true) ->
  (forall k text, texts !! k = Some text <-> exists row, m !! k = Some row /\ MarshalIndent (sorted_config row) = inr text) ->
  p ∈ params ->
  exists cfg, accepts unmarshal_object unmarshal_config exs (marketNameToId params) p = Some cfg /\
    forall ex c, market_on (marketNameToId params) (Exchanges cfg) ex = Some c <-> skipped ex = false /\ config_at configs ex (Id p) = Some c.
Proof using json_reads pairs listings.
  intros Hm Hplain Htexts Hp. pose proof (proj1 (Forall_forall _ _) pairs p Hp) as (Hn & Ht & Hmin & Hppm & Hmax & Hq & Hhex).
  assert (Id p ∈ Id <$> params) as Hid by by apply list_elem_of_fmap_2.
  apply Htexts in Ht as (row & Hrow & Ht). set (cfg := sorted_config row) in *.
  assert (forall e, e ∈ Exchanges cfg <-> skipped (ExchangeName e) = false /\ exists c, config_at configs (ExchangeName e) (Id p) = Some c /\ e = entry_of (ExchangeName e) c) as Helem.
  { intros e. unfold cfg. rewrite (row_elem _ _ _ _ _ Hm Hrow).
    - destruct (skipped (ExchangeName e)); [naive_solver|]. destruct (config_at _ _ _) as [c|]; cbn; [|naive_solver].
      split; [intros [= E]; split; [done|]; exists c; by rewrite E|intros (_ & c' & [= <-] & <-); done].
    - intros ex x. destruct (skipped ex); [done|]. destruct (config_at _ _ _); cbn; [|done]. by intros [= <-]. }
  assert (Forall (entry_ok exs (marketNameToId params)) (Exchanges cfg)) as Hok.
  { apply Forall_forall. intros e (Hs & c & Hc & ->)%Helem. exact (proj2 (entry_config_of _ _ _ Hs Hid Hc)). }
  assert (Exchanges cfg <> []) as Hsome.
  { pose proof (rows_some _ _ Hm _ _ Hrow) as Hne. apply map_choose in Hne as (ex & e & He). intros E.
    assert (e ∈ Exchanges cfg) as Hin; [|by rewrite E in Hin; apply elem_of_nil in Hin].
    pose proof (rows_at _ _ Hm (Id p) ex) as Hat. unfold entry_at in Hat. rewrite Hrow in Hat. cbn in Hat. rewrite He in Hat.
    destruct (skipped ex) eqn:Es; [done|]. destruct (config_at configs ex (Id p)) as [c|] eqn:Ec; [|done]. injection Hat as ->.
    apply Helem. cbn [entry_of ExchangeName]. split; [done|]. by exists c. }
  destruct (json_reads cfg) as (text & Ht' & Hu & Ho).
  { apply Forall_forall. intros e (Hs & c & Hc & ->)%Helem. exact (Hplain _ _ _ Hs Hc). }
  assert (text = ExchangeConfigJson p) as -> by congruence.
  exists cfg. unfold accepts. rewrite (proj2 (MarketParam_Validate_Ok unmarshal_object p)), Hu.
  - rewrite (proj2 (ExchangeConfigJson_Validate_Ok unmarshal_object unmarshal_config cfg exs (marketNameToId params))) by done. split; [done|]. intros ex c.
    rewrite market_on_distinct.
    + split.
      * intros (e & (Hs & c' & Hc' & E)%Helem & <- & <-). rewrite E. cbn [entry_of ExchangeName]. by rewrite (proj1 (entry_config_of _ _ _ Hs Hid Hc')).
      * intros [Hs Hc]. exists (entry_of ex c). split_and!; [|done|exact (proj1 (entry_config_of _ _ _ Hs Hid Hc))].
        apply Helem. cbn [entry_of ExchangeName]. split; [done|]. by exists c.
    + unfold cfg. cbn [sorted_config Exchanges]. apply (sorted_values_keys ExchangeName). clear ex c. intros ex e He.
      pose proof (rows_at _ _ Hm (Id p) ex) as Hat. unfold entry_at in Hat. rewrite Hrow in Hat. cbn in Hat. rewrite He in Hat.
      destruct (skipped ex); [done|]. destruct (config_at _ _ _); [|done]. by injection Hat as ->.
  - split_and!; try done. intros E. destruct (static_names_distinct _ _ Hn) as (Hne & _). done.
Qed.
End Params.

Lemma text_iff_listed configs (m : rows) (texts : gmap MarketId string) :
  rows_of m (fun k ex => if skipped ex then None else entry_of ex <$> config_at configs ex k) ->
  (forall k ex c, skipped ex = false -> config_at configs ex k = Some c -> plain_entry (entry_of ex c) = true) ->
  (forall k text, texts !! k = Some text <-> exists row, m !! k = Some row /\ MarshalIndent (sorted_config row) = inr text) ->
  forall k, is_Some (texts !! k) <-> exists ex c, skipped ex = false /\ config_at configs ex k = Some c.
Proof using json_reads.
  intros Hm Hplain Htexts k. pose proof (rows_at _ _ Hm k) as Hat. unfold entry_at in Hat. split.
  - intros [text (row & Hrow & _)%Htexts]. rewrite Hrow in Hat. cbn in Hat.
    pose proof (rows_some _ _ Hm _ _ Hrow) as Hne. apply map_choose in Hne as (ex & e & He). specialize (Hat ex). rewrite He in Hat.
    exists ex. destruct (skipped ex); [done|]. destruct (config_at configs ex k) as [c|]; [by exists c|done].
  - intros (ex & c & Hs & Hc). specialize (Hat ex) as Hex. rewrite Hs, Hc in Hex. destruct (m !! k) as [row|] eqn:Hrow; [|done].
    destruct (json_reads (sorted_config row)) as (text & Ht & _); [|exists text; apply Htexts; by exists row].
    apply Forall_forall. intros e He. apply (row_elem _ _ _ _ _ Hm Hrow) in He.
    + destruct (skipped (ExchangeName e)) eqn:Es; [done|]. destruct (config_at configs (ExchangeName e) k) as [c'|] eqn:Ec; [|done].
      injection He as He. rewrite <- He. exact (Hplain _ _ _ Es Ec).
    + intros ex' x. destruct (skipped ex'); [done|]. destruct (config_at configs ex' k); cbn; [|done]. by intros [= <-].
Qed.
End RoundTrip.

(** Params whose ids are distinct repeat none. *)
Lemma ValidateAndTransformParams_correct_cases `{RangeOrder} {Updater : Type} unmarshal_object unmarshal_config
    (pfmmc : PricefeedMutableMarketConfigsImpl Updater) params :
  NoDup (Id <$> params) ->
  exists t, ValidateAndTransformParams unmarshal_object unmarshal_config pfmmc (Some params) = Ok t /\
    transforms unmarshal_object unmarshal_config (range_of (mutableExchangeToConfigs pfmmc)).*1 (marketNameToId params) params t.
Proof.
  intros Hnd. unfold ValidateAndTransformParams.
  destruct (transform_params unmarshal_object unmarshal_config _ (marketNameToId params) _ params
    (initial_transforms unmarshal_object unmarshal_config pfmmc (marketNameToId params)))
    as [((l1 & p & l2 & q & -> & _ & Hq & _ & Eid) & _)|(_ & t & E & Htr)]; [|by exists t].
  rewrite fmap_app in Hnd. apply NoDup_app in Hnd as (_ & Hd & _). destruct (Hd (Id q)); [by apply list_elem_of_fmap_2|]. rewrite Eid. left.
Qed.

Section Properties.
Context `{RangeOrder} {Updater : Type}.
Variable unmarshal_object : string -> option go_error.
Variable unmarshal_config : string -> go_error + ExchangeConfigJsonT.
Variable MarshalIndent : ExchangeConfigJsonT -> go_error + string.

(** C35: The exchange configurations that are generated are those the configuration service reads back. The generator panics when a
    listing is adjusted by a market without a name. Otherwise it gives a text for every market, and when market params
    with these texts, each once, are transformed (their pairs the names of the markets, their listings on exchanges of
    the service, adjusted by markets among them), none of them is rejected and every exchange has, for these markets,
    exactly the listings that the texts were generated from; the two test exchanges have none. *)
Theorem generated_configs_read_back (configs : gmap ExchangeId MutableExchangeMarketConfig) :
  (forall cfg, Forall (fun e => plain_entry e = true) (Exchanges cfg) ->
    exists text, MarshalIndent cfg = inr text /\ unmarshal_config text = inr cfg /\ unmarshal_object text = None) ->
  (forall ex m c, config_at configs ex m = Some c -> plain_listing ex c) ->
  if bool_decide (all_named configs) then
    exists texts, GenerateExchangeConfigJson MarshalIndent configs = Ok texts /\
      (forall m, is_Some (texts !! m) <-> exists ex c, skipped ex = false /\ config_at configs ex m = Some c) /\
      forall (pfmmc : PricefeedMutableMarketConfigsImpl Updater) params,
        let exs := (range_of (mutableExchangeToConfigs pfmmc)).*1 in
        NoDup (Id <$> params) -> Forall (generated_param texts) params ->
        (forall ex m c, skipped ex = false -> m ∈ Id <$> params -> config_at configs ex m = Some c -> listing_ok exs (Id <$> params) ex c) ->
        exists t, ValidateAndTransformParams unmarshal_object unmarshal_config pfmmc (Some params) = Ok t /\ marketParamErrors t = ∅ /\
          forall ex m, m ∈ Id <$> params ->
            config_at (exchangeConfigs t) ex m = if skipped ex then None else config_at configs ex m
  else exists msg, GenerateExchangeConfigJson MarshalIndent configs = Panic (PanicMsg msg).
Proof using Type.
  intros Hjson Hplain. case_bool_decide as Hn.
  2: { destruct (unnamed_panics configs Hn) as [msg E]. exists msg. unfold GenerateExchangeConfigJson. by rewrite E. }
  destruct (generate_rows configs Hn) as (m & Em & Hm).
  assert (forall k ex c, skipped ex = false -> config_at configs ex k = Some c -> plain_entry (entry_of ex c) = true) as Hpe
    by (intros k ex c _ Hc; exact (plain_entry_of ex c (Hplain ex k c Hc))).
  destruct (generate_texts unmarshal_object unmarshal_config MarshalIndent Hjson m _ Hm) as (texts & Et & Htexts).
  { intros k ex e. destruct (skipped ex) eqn:Es; [done|]. destruct (config_at configs ex k) as [c|] eqn:Ec; [|done]. intros [= <-].
    split; [done|exact (Hpe k ex c Es Ec)]. }
  exists texts. unfold GenerateExchangeConfigJson. rewrite Em. split_and!; [exact Et|exact (text_iff_listed _ _ _ Hjson _ _ _ Hm Hpe Htexts)|].
  intros pfmmc params Hnd Hpairs Hl. set (exs := (range_of (mutableExchangeToConfigs pfmmc)).*1) in *.
  assert (forall p, p ∈ params -> exists cfg, accepts unmarshal_object unmarshal_config exs (marketNameToId params) p = Some cfg /\
    forall ex c, market_on (marketNameToId params) (Exchanges cfg) ex = Some c <-> skipped ex = false /\ config_at configs ex (Id p) = Some c) as Hacc.
  { intros p Hp. exact (generated_accepted _ _ MarshalIndent Hjson configs params exs texts Hpairs Hl m p Hm Hpe Htexts Hp). }
  pose proof (ValidateAndTransformParams_correct_cases unmarshal_object unmarshal_config pfmmc params Hnd) as (t & Ht & Htr).
  exists t. split; [exact Ht|split].
  - apply map_empty. intros k. apply eq_None_not_Some. intros (p & Hp & _ & Hno)%(transforms_errors _ _ _ _ _ _ Htr).
    destruct (Hacc p Hp) as (cfg & E & _). fold exs in Hno. congruence.
  - intros ex k (p & -> & Hp)%list_elem_of_fmap. apply option_eq. intros c. rewrite (transforms_exchange _ _ _ _ _ _ Htr). split.
    + intros (q & Hq & Eid & cfg & E & Hon). destruct (Hacc q Hq) as (cfg' & E' & Hx). fold exs in E. assert (cfg' = cfg) as -> by congruence.
      apply Hx in Hon as [-> Hc]. by rewrite <- Eid.
    + destruct (skipped ex) eqn:Es; [done|]. intros Hc. destruct (Hacc p Hp) as (cfg & E & Hx). exists p. split_and!; [done..|].
      exists cfg. split; [exact E|]. by apply Hx.
Qed.
End Properties.

(** ** The testnets *)
Lemma testnet_named : all_named TestnetExchangeMarketConfig.
Proof. apply (bool_decide_unpack _). vm_compute. exact I. Qed.

Lemma config_at_Forall (P : ExchangeId -> MarketId -> MarketConfig -> Prop) configs :
  map_Forall (fun ex ec => map_Forall (P ex) (MarketToMarketConfig ec)) configs ->
  forall ex m c, config_at configs ex m = Some c -> P ex m c.
Proof.
  intros Hall ex m c. unfold config_at. destruct (configs !! ex) as [ec|] eqn:E; [|done]. intros Hc. exact (Hall ex ec E m c Hc).
Qed.

Lemma testnet_plain ex m c : config_at TestnetExchangeMarketConfig ex m = Some c -> plain_listing ex c.
Proof.
  apply (config_at_Forall (fun ex _ c => plain_listing ex c)). unfold plain_listing. apply (bool_decide_unpack _). vm_compute. exact I.
Qed.

(** The exchanges that list a market, and are not skipped. *)
Definition exchanges_of (market : MarketId) : list ExchangeId :=
  filter (fun ex => skipped ex = false /\ is_Some (config_at TestnetExchangeMarketConfig ex market)) (map_to_list TestnetExchangeMarketConfig).*1.
Lemma testnet_enough : map_Forall (fun market _ => MinimumRequiredExchangesPerMarket <= Z.of_nat (length (exchanges_of market))) StaticMarketNames.
Proof. apply (bool_decide_unpack _). vm_compute. exact I. Qed.

(** A coder for plain texts: a line for each field. *)
Definition line_end : Ascii.ascii := Ascii.ascii_of_nat 10.
Fixpoint put_lines (fields : list string) : string :=
  match fields with [] => "" | f :: fields => f +:+ String line_end (put_lines fields) end.
Fixpoint get_lines (acc : string) (s : string) : list string :=
  match s with
  | EmptyString => []
  | String a s => if Ascii.eqb a line_end then acc :: get_lines "" s else get_lines (acc +:+ String a "") s
  end.
Fixpoint entries (fields : list string) : list ExchangeMarketConfigJson :=
  match fields with
  | name :: ticker :: adjust :: invert :: fields => mkExchangeMarketConfigJson name ticker adjust (bool_decide (invert = "true")) :: entries fields
  | _ => []
  end.
Definition fields_of (e : ExchangeMarketConfigJson) : list string :=
  [ExchangeName e; emcj_Ticker e; emcj_AdjustByMarket e; if emcj_Invert e then "true" else "false"].
Definition ex_marshal (cfg : ExchangeConfigJsonT) : go_error + string := inr (put_lines (Exchanges cfg ≫= fields_of)).
Definition ex_unmarshal (s : string) : go_error + ExchangeConfigJsonT := inr (mkExchangeConfigJson (entries (get_lines "" s))).

Lemma get_lines_put acc f s : plain f = true -> get_lines acc (f +:+ String line_end s) = (acc +:+ f) :: get_lines "" s.
Proof.
  revert acc. induction f as [|a f IH]; intros acc Hf; [by rewrite string_app_nil_r|].
  apply andb_true_iff in Hf as [Ha Hf]. change (get_lines acc (String a (f +:+ String line_end s)) = (acc +:+ String a f) :: get_lines "" s). cbn [get_lines].
  destruct (Ascii.eqb_spec a line_end) as [->|_]; [done|]. rewrite (IH _ Hf). f_equal. by rewrite string_app_assoc.
Qed.

Lemma ex_json_reads cfg :
  Forall (fun e => plain_entry e = true) (Exchanges cfg) ->
  exists text, ex_marshal cfg = inr text /\ ex_unmarshal text = inr cfg /\ ex_unmarshal_object text = None.
Proof.
  intros Hl. eexists. split_and!; [done| |done]. unfold ex_unmarshal. f_equal. destruct cfg as [l]. f_equal. cbn [Exchanges] in *.
  induction Hl as [|e l He Hl IH]; [done|]. apply andb_true_iff in He as [He Ha]. apply andb_true_iff in He as [Hn Ht].
  cbn. rewrite !get_lines_put by (done || by destruct (emcj_Invert e)). cbn. rewrite IH. f_equal. destruct e as [? ? ? []]; done.
Qed.

Definition ex_testnet_service : PricefeedMutableMarketConfigsImpl ex_updater :=
  NewPriceFeedMutableMarketConfigs ["Binance"; "Kraken"; "Gate"; "Bybit"; "Huobi"; "Kucoin"; "Okx"; "Mexc"; "CoinbasePro"].
Definition ex_testnet_param (id : MarketId) (pair text : string) : MarketParam := mkMarketParam id pair (-5) 6 1000 text "00ff".

Lemma ex_testnet_param_generated texts id pair text :
  StaticMarketNames !! id = Some pair -> texts !! id = Some text -> generated_param texts (ex_testnet_param id pair text).
Proof. intros Hn Ht. split_and!; try done. by apply hex_DecodeString_valid. Qed.

Lemma testnet_listings ex m c :
  skipped ex = false -> m ∈ [MARKET_BTC_USD; MARKET_ETH_USD; MARKET_USDT_USD] -> config_at TestnetExchangeMarketConfig ex m = Some c ->
  listing_ok (range_of (RangeOrder := canonical_range) (mutableExchangeToConfigs ex_testnet_service)).*1 [MARKET_BTC_USD; MARKET_ETH_USD; MARKET_USDT_USD] ex c.
Proof.
  intros Hs Hm Hc. revert ex m c Hc Hs Hm.
  assert (forall ex m c, config_at TestnetExchangeMarketConfig ex m = Some c -> skipped ex = false -> m ∈ [MARKET_BTC_USD; MARKET_ETH_USD; MARKET_USDT_USD] ->
    ex <> "" /\ ex ∈ (range_of (RangeOrder := canonical_range) (mutableExchangeToConfigs ex_testnet_service)).*1 /\ Ticker c <> "" /\
    Forall (fun a => a ∈ [MARKET_BTC_USD; MARKET_ETH_USD; MARKET_USDT_USD]) (option_list (AdjustByMarket c))) as Hall.
  { apply (config_at_Forall (fun ex m c => skipped ex = false -> m ∈ [MARKET_BTC_USD; MARKET_ETH_USD; MARKET_USDT_USD] ->
      ex <> "" /\ ex ∈ (range_of (RangeOrder := canonical_range) (mutableExchangeToConfigs ex_testnet_service)).*1 /\ Ticker c <> "" /\
      Forall (fun a => a ∈ [MARKET_BTC_USD; MARKET_ETH_USD; MARKET_USDT_USD]) (option_list (AdjustByMarket c)))). apply (bool_decide_unpack _). vm_compute. exact I. }
  intros ex m c Hc Hs Hm. destruct (Hall ex m c Hc Hs Hm) as (He & Hin & Ht & Ha). split_and!; try done. intros a Ea. rewrite Ea in Ha.
  by apply Forall_cons in Ha as [Ha _].
Qed.

Lemma generated_configs_read_back_witness :
  exists texts btc eth usdt t, GenerateExchangeConfigJson (H := canonical_range) ex_marshal TestnetExchangeMarketConfig = Ok texts /\
    texts !! MARKET_BTC_USD = Some btc /\ texts !! MARKET_ETH_USD = Some eth /\ texts !! MARKET_USDT_USD = Some usdt /\
    ValidateAndTransformParams (H := canonical_range) ex_unmarshal_object ex_unmarshal ex_testnet_service
      (Some [ex_testnet_param MARKET_BTC_USD "BTC-USD" btc; ex_testnet_param MARKET_ETH_USD "ETH-USD" eth; ex_testnet_param MARKET_USDT_USD "USDT-USD" usdt]) = Ok t /\
    config_at (exchangeConfigs t) "Binance" MARKET_BTC_USD = Some (mkMarketConfig "BTCUSDT" (Some MARKET_USDT_USD) false) /\
    config_at (exchangeConfigs t) "TestExchange" MARKET_BTC_USD = None.
Proof.
  pose proof (generated_configs_read_back (H := canonical_range) (Updater := ex_updater) ex_unmarshal_object ex_unmarshal ex_marshal
    TestnetExchangeMarketConfig ex_json_reads testnet_plain) as Hg.
  rewrite (bool_decide_true _ testnet_named) in Hg. destruct Hg as (texts & E & Htexts & Hg).
  assert (is_Some (texts !! MARKET_BTC_USD)) as [btc Hbtc]
    by (apply Htexts; exists "Binance", (mkMarketConfig "BTCUSDT" (Some MARKET_USDT_USD) false); split; vm_compute; reflexivity).
  assert (is_Some (texts !! MARKET_ETH_USD)) as [eth Heth]
    by (apply Htexts; exists "Binance", (mkMarketConfig "ETHUSDT" (Some MARKET_USDT_USD) false); split; vm_compute; reflexivity).
  assert (is_Some (texts !! MARKET_USDT_USD)) as [usdt Husdt]
    by (apply Htexts; exists "Okx"; eexists; split; [reflexivity|vm_compute; reflexivity]).
  destruct (Hg ex_testnet_service [ex_testnet_param MARKET_BTC_USD "BTC-USD" btc; ex_testnet_param MARKET_ETH_USD "ETH-USD" eth; ex_testnet_param MARKET_USDT_USD "USDT-USD" usdt]) as (t & Et & _ & Ht).
  - apply (bool_decide_unpack _). vm_compute. exact I.
  - repeat apply Forall_cons_2; [..|apply Forall_nil_2]; apply ex_testnet_param_generated; [|exact Hbtc| |exact Heth| |exact Husdt]; vm_compute; reflexivity.
  - exact testnet_listings.
  - exists texts, btc, eth, usdt, t. split_and!; [exact E|exact Hbtc|exact Heth|exact Husdt|exact Et| |].
    + rewrite Ht by (cbn; left). vm_compute. reflexivity.
    + rewrite Ht by (cbn; left). vm_compute. reflexivity.
Defined.
