(* ===== verification/DaemonLife.v ===== *)
(** * pricefeed/client/client.go and subtask_runner.go: the life of the pricefeed daemon

    [StartNewClient], [start], [newTickerWithStop] and [Stop] of the client, and the goroutines that it waits for: a
    fetcher and an encoder for every exchange, with the channel between them, and the price updater. What a run of a
    fetcher writes and what the encoder does with it are in PriceFetcher and PriceEncoder, what the goroutines do when
    they start, and the outcome of [UpdateMarkets], in Daemon; here they wait, run and end. Goroutines interleave: the state
    is changed by the steps of a relation. Its arguments are the results of the connections to the nodes, of the goroutines'
    registration and of [UpdateMarkets], each of which can be a panic, and the panics of the tasks. *)
From stdpp Require Import relations.
From S2P Require Import Prelude MarketConfig ClientCache QueryHandler PriceFetcher MutableConfigs Daemon.
Local Open Scope Z_scope.

Definition FixedBufferSize : nat := 1024 * 5.
#[local] Arguments FixedBufferSize : simpl never.

(** A ticker runs until it is stopped; its channel holds one tick. *)
Record ticker := mkTicker { t_running : bool; t_pending : bool }.

(** Where the goroutines of an exchange are. A run of the fetcher has responses that it did not write yet. *)
Inductive fetcher_state := FetcherStarting | FetcherWaiting | FetcherRunning (unsent : nat) | FetcherDone.
Inductive encoder_state := EncoderStarting | EncoderReading | EncoderDone.

(** The two goroutines of an exchange and their buffered channel. *)
Record worker := mkWorker {
  w_exchange : ExchangeId;
  w_fetcher : fetcher_state;
  w_encoder : encoder_state;
  w_buffer : nat;
  w_closed : bool
}.

(** Where [start] is. *)
Inductive start_pc :=
  | DialingQuery | DialingDaemon | Validating
  | Launching (exchangeIds : list ExchangeId)
  | UpdatingMarkets
  | UpdaterWaiting | UpdaterRunning   (** in the loop of [StartPriceUpdater] *)
  | Returned.

(** Where the function is that [Stop] runs once. *)
Inductive stop_state := NotStopped | WaitStartup | WaitSubtasks | DaemonStopped.
#[export] Instance stop_state_eq_dec : EqDecision stop_state.
Proof. solve_decision. Defined.

(** The client. A closed stop channel is [true]; the i-th ticker and stop channel are those of the i-th exchange, the
    last those of the updater. A panic ends the program. *)
Record Client := mkClient {
  daemonStartup : Z;
  runningSubtasksWaitGroup : Z;
  tickers : list ticker;
  stops : list bool;
  stopDaemon : stop_state;
  pc : start_pc;
  workers : list worker;
  crashed : option go_panic
}.

Definition newClient : Client := mkClient 1 0 [] [] NotStopped DialingQuery [] None.

(** ** Effects *)
Definition with_pc (p : start_pc) (c : Client) : Client :=
  mkClient (daemonStartup c) (runningSubtasksWaitGroup c) (tickers c) (stops c) (stopDaemon c) p (workers c) (crashed c).
Definition with_workers (l : list worker) (c : Client) : Client :=
  mkClient (daemonStartup c) (runningSubtasksWaitGroup c) (tickers c) (stops c) (stopDaemon c) (pc c) l (crashed c).
Definition with_tickers (l : list ticker) (c : Client) : Client :=
  mkClient (daemonStartup c) (runningSubtasksWaitGroup c) l (stops c) (stopDaemon c) (pc c) (workers c) (crashed c).
Definition with_stop (s : stop_state) (c : Client) : Client :=
  mkClient (daemonStartup c) (runningSubtasksWaitGroup c) (tickers c) (stops c) s (pc c) (workers c) (crashed c).
Definition with_counters (startup subtasks : Z) (c : Client) : Client :=
  mkClient startup subtasks (tickers c) (stops c) (stopDaemon c) (pc c) (workers c) (crashed c).
Definition crash (p : go_panic) (c : Client) : Client :=
  mkClient (daemonStartup c) (runningSubtasksWaitGroup c) (tickers c) (stops c) (stopDaemon c) (pc c) (workers c) (Some p).

(** [Add] and [Done] of the two wait groups. *)
Definition negative_counter : go_panic := PanicMsg "sync: negative WaitGroup counter".
Definition startup_done (c : Client) : Client :=
  if daemonStartup c <=? 0 then crash negative_counter c
  else with_counters (daemonStartup c - 1) (runningSubtasksWaitGroup c) c.
Definition subtasks_add (n : Z) (c : Client) : Client :=
  with_counters (daemonStartup c) (runningSubtasksWaitGroup c + n) c.
Definition subtask_done (c : Client) : Client :=
  if runningSubtasksWaitGroup c <=? 0 then crash negative_counter c
  else with_counters (daemonStartup c) (runningSubtasksWaitGroup c - 1) c.

Definition track_ticker (c : Client) : Client :=
  mkClient (daemonStartup c) (runningSubtasksWaitGroup c) (tickers c ++ [mkTicker true false]) (stops c ++ [false])
    (stopDaemon c) (pc c) (workers c) (crashed c).

(** [time.NewTicker] panics when the interval is not positive. *)
Definition newTickerWithStop (intervalMs : Z) (c : Client) : Client :=
  match newTicker intervalMs with
  | Panic p => crash p c
  | _ => track_ticker c
  end.

(** What follows, unless a panic ended the program. *)
Definition proceed (f : Client -> Client) (c : Client) : Client :=
  match crashed c with Some _ => c | None => f c end.

Definition StartNewClient : Client := subtasks_add 1 newClient.

(** The goroutines of an exchange, and the ticker and the stop channel of its fetcher. *)
Definition launch (exchangeId : ExchangeId) (intervalMs : Z) (c : Client) : Client :=
  newTickerWithStop intervalMs (subtasks_add 2
    (with_workers (workers c ++ [mkWorker exchangeId FetcherStarting EncoderStarting 0 false]) c)).

(** The part of [Stop] after startup: every stop channel closed, every ticker stopped. *)
Definition close_stops (c : Client) : Client :=
  let c' := mkClient (daemonStartup c) (runningSubtasksWaitGroup c) ((fun t => mkTicker false (t_pending t)) <$> tickers c)
              ((fun _ => true) <$> stops c) WaitSubtasks (pc c) (workers c) (crashed c) in
  if existsb id (stops c) then crash (PanicMsg "close of closed channel") c' else c'.

(** Goroutines that did not register yet: [UpdateMarkets] waits for them. *)
Definition registered_worker (w : worker) : bool :=
  match w_fetcher w, w_encoder w with
  | FetcherStarting, _ | _, EncoderStarting => false
  | _, _ => true
  end.

Section Life.
Context `{RangeOrder}.
Variable unmarshal_object : string -> option go_error.
Variables (marketParams : list MarketParam) (exchangeIdToQueryConfig : gmap ExchangeId ExchangeQueryConfig)
  (exchangeIdToExchangeDetails : gmap ExchangeId ExchangeQueryDetails).
Variable loopDelayMs : Z.
(** The results of the connections: dialed, and closed; that of [UpdateMarkets]; and whether the start of the fetcher
    ([true]) or the encoder of an exchange panics. *)
Variables (queryDial daemonDial queryClose daemonClose : option go_error) (updated : go unit).
Variable start_panic : ExchangeId -> bool -> option go_panic.
(** The panics of the tasks that the goroutines run, and a bound on the responses of a run of a fetcher. *)
Variable task_panic : go_panic -> Prop.
Variable maxResponses : nat.

Definition or_else (e e' : option go_error) : option go_error := match e with Some _ => e | None => e' end.

(** [start] returns: its deferred functions run, the last one first, with as many connections open, and then the
    goroutine of [StartNewClient] ends, in a panic when there is an error. *)
Definition return_start (startupCompleted : bool) (connections : nat) (err : option go_error) (c : Client) : Client :=
  let err := match connections with S (S _) => or_else daemonClose err | _ => err end in
  let err := match connections with S _ => or_else queryClose err | _ => err end in
  let c := if startupCompleted then c else startup_done c in
  let c := subtask_done (with_pc Returned c) in
  match err with
  | Some e => crash (PanicMsg (error_text e)) c
  | None => c
  end.

(** The next step of [start], when it does not wait. *)
Definition start_step (c : Client) : option Client :=
  match pc c with
  | DialingQuery =>
      Some match queryDial with
           | Some err => return_start false 0 (Some err) c
           | None => with_pc DialingDaemon c
           end
  | DialingDaemon =>
      Some match daemonDial with
           | Some err => return_start false 1 (Some err) c
           | None => with_pc Validating c
           end
  | Validating =>
      Some match _ ← validateDaemonConfiguration unmarshal_object marketParams exchangeIdToQueryConfig exchangeIdToExchangeDetails;
                 NewExchangeToMarketPrices (range_of exchangeIdToQueryConfig).*1 with
           | Ok _ => with_pc (Launching (range_of exchangeIdToQueryConfig).*1) c
           | Err err => return_start false 2 (Some err) c
           | Panic p => crash p c
           end
  | Launching [] => Some (with_pc UpdatingMarkets c)
  | Launching (exchangeId :: exchangeIds) =>
      Some match exchangeIdToExchangeDetails !! exchangeId with
           | None => return_start false 2 (Some (ErrNew ("no exchange details exists for exchangeId: " +:+ exchangeId))) c
           | Some _ =>
               match exchangeIdToQueryConfig !! exchangeId with
               | None => crash NilDereference c
               | Some exchangeConfig =>
                   proceed (with_pc (Launching exchangeIds)) (launch exchangeId (IntervalMs exchangeConfig) c)
               end
           end
  | UpdatingMarkets =>
      if forallb registered_worker (workers c) then
        Some match updated with
             | Panic p => crash p c
             | Err err => crash (PanicMsg (error_text err)) c
             | Ok _ =>
                 proceed (fun c => with_pc UpdaterWaiting (startup_done c)) (newTickerWithStop loopDelayMs c)
             end
      else None
  | UpdaterWaiting | UpdaterRunning | Returned => None
  end.

(** ** The goroutines of an exchange *)
Definition set_fetcher (s : fetcher_state) (w : worker) : worker := mkWorker (w_exchange w) s (w_encoder w) (w_buffer w) (w_closed w).
Definition set_encoder (s : encoder_state) (w : worker) : worker := mkWorker (w_exchange w) (w_fetcher w) s (w_buffer w) (w_closed w).
Definition set_buffer (n : nat) (w : worker) : worker := mkWorker (w_exchange w) (w_fetcher w) (w_encoder w) n (w_closed w).
Definition close_buffer (w : worker) : worker := mkWorker (w_exchange w) (w_fetcher w) (w_encoder w) (w_buffer w) true.

Definition set_worker (i : nat) (w : worker) (c : Client) : Client := with_workers (<[i := w]> (workers c)) c.
Definition take_tick (i : nat) (c : Client) : Client :=
  with_tickers (alter (fun t => mkTicker (t_running t) false) i (tickers c)) c.

(** A task of the run writes a response. *)
Definition write_response (i : nat) (unsent : nat) (w : worker) (c : Client) : Client :=
  if w_closed w then crash (PanicMsg "send on closed channel") c
  else set_worker i (set_fetcher (FetcherRunning unsent) (set_buffer (S (w_buffer w)) w)) c.

(** The fetcher is told to stop: it closes the channel and its goroutine ends. *)
Definition stop_fetcher (i : nat) (w : worker) (c : Client) : Client :=
  if w_closed w then crash (PanicMsg "close of closed channel") c
  else subtask_done (set_worker i (set_fetcher FetcherDone (close_buffer w)) c).

(** A goroutine registers, or panics before it does. *)
Definition register (isPriceFetcher : bool) (i : nat) (w w' : worker) (c : Client) : Client :=
  match start_panic (w_exchange w) isPriceFetcher with
  | Some p => crash p c
  | None => set_worker i w' c
  end.

(** Some goroutine runs a task: the updater's, a query of a fetcher, or the processing of a response. *)
Definition task_runs (c : Client) : Prop :=
  pc c = UpdaterRunning \/
  exists i w, workers c !! i = Some w /\
    ((exists n, w_fetcher w = FetcherRunning n) \/ (w_encoder w = EncoderReading /\ w_buffer w <> 0%nat)).

Inductive prog_rule : Client -> Client -> Prop :=
  | rule_start c c' : start_step c = Some c' -> prog_rule c c'
  | rule_updater_tick t c :
      pc c = UpdaterWaiting -> tickers c !! length (workers c) = Some t -> t_pending t = true ->
      prog_rule c (with_pc UpdaterRunning (take_tick (length (workers c)) c))
  | rule_updater_ran c : pc c = UpdaterRunning -> prog_rule c (with_pc UpdaterWaiting c)
  | rule_updater_stop c :
      pc c = UpdaterWaiting -> stops c !! length (workers c) = Some true -> prog_rule c (return_start true 2 None c)
  | rule_fetcher_registers i w c :
      workers c !! i = Some w -> w_fetcher w = FetcherStarting -> prog_rule c (register true i w (set_fetcher FetcherWaiting w) c)
  | rule_fetcher_tick i w t n c :
      workers c !! i = Some w -> w_fetcher w = FetcherWaiting -> tickers c !! i = Some t -> t_pending t = true -> (n <= maxResponses)%nat ->
      prog_rule c (take_tick i (set_worker i (set_fetcher (FetcherRunning n) w) c))
  | rule_fetcher_writes i w n c :
      workers c !! i = Some w -> w_fetcher w = FetcherRunning (S n) -> w_closed w = true \/ (w_buffer w < FixedBufferSize)%nat ->
      prog_rule c (write_response i n w c)
  | rule_fetcher_ran i w c :
      workers c !! i = Some w -> w_fetcher w = FetcherRunning 0 -> prog_rule c (set_worker i (set_fetcher FetcherWaiting w) c)
  | rule_fetcher_stop i w c :
      workers c !! i = Some w -> w_fetcher w = FetcherWaiting -> stops c !! i = Some true -> prog_rule c (stop_fetcher i w c)
  | rule_encoder_registers i w c :
      workers c !! i = Some w -> w_encoder w = EncoderStarting -> prog_rule c (register false i w (set_encoder EncoderReading w) c)
  | rule_encoder_reads i w n c :
      workers c !! i = Some w -> w_encoder w = EncoderReading -> w_buffer w = S n -> prog_rule c (set_worker i (set_buffer n w) c)
  | rule_encoder_ends i w c :
      workers c !! i = Some w -> w_encoder w = EncoderReading -> w_buffer w = 0%nat -> w_closed w = true ->
      prog_rule c (subtask_done (set_worker i (set_encoder EncoderDone w) c))
  | rule_stop_closes c : stopDaemon c = WaitStartup -> daemonStartup c = 0 -> prog_rule c (close_stops c)
  | rule_stop_ends c : stopDaemon c = WaitSubtasks -> runningSubtasksWaitGroup c = 0 -> prog_rule c (with_stop DaemonStopped c)
  | rule_task_panics p c : task_runs c -> task_panic p -> prog_rule c (crash p c).

(** What the program does, while it was not ended by a panic, and what time and the callers do. *)
Definition prog_step (c c' : Client) : Prop := crashed c = None /\ prog_rule c c'.
Inductive env_step : Client -> Client -> Prop :=
  | env_tick i t c :
      crashed c = None -> tickers c !! i = Some t -> t_running t = true ->
      env_step c (with_tickers (<[i := mkTicker true true]> (tickers c)) c)
  | env_stop c : crashed c = None -> stopDaemon c = NotStopped -> env_step c (with_stop WaitStartup c).

Inductive reachable : Client -> Prop :=
  | reach_start : reachable StartNewClient
  | reach_env c c' : reachable c -> env_step c c' -> reachable c'
  | reach_prog c c' : reachable c -> prog_step c c' -> reachable c'.
End Life.

(** ** Invariants *)
Definition serving (p : start_pc) : bool := match p with UpdaterWaiting | UpdaterRunning | Returned => true | _ => false end.
Definition stops_closed (s : stop_state) : bool := match s with WaitSubtasks | DaemonStopped => true | _ => false end.

(** The goroutines that did not end. *)
Definition live_worker (w : worker) : nat :=
  ((if w_fetcher w is FetcherDone then 0 else 1) + (if w_encoder w is EncoderDone then 0 else 1))%nat.
Definition live (c : Client) : nat := (sum_list_with live_worker (workers c) + (if pc c is Returned then 0 else 1))%nat.

Record worker_ok (w : worker) : Prop := {
  w_room : (w_buffer w <= FixedBufferSize)%nat;
  w_closing : w_closed w = true <-> w_fetcher w = FetcherDone;
  w_drained : w_encoder w = EncoderDone -> w_closed w = true /\ w_buffer w = 0%nat
}.

Record sound (c : Client) : Prop := {
  s_startup : daemonStartup c = if serving (pc c) then 0 else 1;
  s_subtasks : runningSubtasksWaitGroup c = Z.of_nat (live c);
  s_tickers : length (tickers c) = length (stops c);
  s_stops : length (stops c) = (length (workers c) + if serving (pc c) then 1 else 0)%nat;
  s_closed : Forall (fun b => b = stops_closed (stopDaemon c)) (stops c);
  s_stopped_tickers : stops_closed (stopDaemon c) = true -> serving (pc c) = true /\ Forall (fun t => t_running t = false) (tickers c);
  s_returned : pc c = Returned -> stops_closed (stopDaemon c) = true;
  s_workers : Forall worker_ok (workers c);
  s_end : stopDaemon c = DaemonStopped -> live c = 0%nat
}.

#[local] Arguments live : simpl never.

Lemma sum_insert {A} (f : A -> nat) (l : list A) i x y :
  l !! i = Some x -> (sum_list_with f (<[i := y]> l) + f x = sum_list_with f l + f y)%nat.
Proof.
  revert i. induction l as [|z l IH]; intros [|i] E; try done; simpl in *; [injection E as ->; lia|]. specialize (IH i E). lia.
Qed.

Lemma sum_snoc {A} (f : A -> nat) (l : list A) x : (sum_list_with f (l ++ [x]) = sum_list_with f l + f x)%nat.
Proof. rewrite sum_list_with_app. cbn. lia. Qed.

Lemma serving_Returned p : serving p = false -> p <> Returned.
Proof. by destruct p. Qed.

Lemma live_set_worker i w w' c :
  workers c !! i = Some w -> (live (set_worker i w' c) + live_worker w = live c + live_worker w')%nat.
Proof. intros E. pose proof (sum_insert live_worker (workers c) i w w' E). unfold live. cbn. lia. Qed.

Lemma sound_not_stopped c : sound c -> (0 < live c)%nat -> stopDaemon c <> DaemonStopped.
Proof. intros Hs Hl E. pose proof (s_end _ Hs E). lia. Qed.

(** A worker moves on. *)
Lemma sound_set_worker i w w' c :
  sound c -> workers c !! i = Some w -> worker_ok w' -> live_worker w' = live_worker w -> sound (set_worker i w' c).
Proof.
  intros [H1 H2 H3 H4 H5 H6 H7 H8 H9] E Hw Hl.
  pose proof (live_set_worker i w w' c E) as Hlive. assert (live (set_worker i w' c) = live c) as El by lia.
  split; try done; cbn.
  - by rewrite El.
  - by rewrite length_insert.
  - by apply Forall_insert.
  - rewrite El. exact H9.
Qed.

(** One of its goroutines ends. *)
Lemma sound_worker_ends i w w' c :
  sound c -> workers c !! i = Some w -> worker_ok w' -> live_worker w = S (live_worker w') ->
  sound (subtask_done (set_worker i w' c)) /\ crashed (subtask_done (set_worker i w' c)) = crashed c.
Proof.
  intros [H1 H2 H3 H4 H5 H6 H7 H8 H9] E Hw Hl.
  pose proof (live_set_worker i w w' c E) as Hlive. unfold subtask_done. cbn [runningSubtasksWaitGroup set_worker with_workers].
  destruct (Z.leb_spec (runningSubtasksWaitGroup c) 0) as [Hz|Hz]; [lia|]. split; [|done]. split; try done; cbn.
  - enough (live (with_counters (daemonStartup c) (runningSubtasksWaitGroup c - 1) (set_worker i w' c)) = live (set_worker i w' c)) as -> by lia.
    done.
  - by rewrite length_insert.
  - by apply Forall_insert.
  - intros Hd. specialize (H9 Hd). lia.
Qed.

Lemma NewExchangeToMarketPrices_keys `{RangeOrder} {A} (m : gmap ExchangeId A) :
  m <> ∅ -> exists etm, NewExchangeToMarketPrices (range_of m).*1 = Ok etm.
Proof.
  intros Hne. exists (mkExchangeToMarketPrices (gset_to_gmap NewMarketToPrice (list_to_set (range_of m).*1))).
  apply NewExchangeToMarketPrices_Ok. split_and!; [|apply range_of_NoDup_keys|done].
  intros E. apply Hne, map_empty. intros ex. destruct (m !! ex) as [x|] eqn:Ex; [|done].
  assert (ex ∈ (range_of m).*1) as Hin by (apply list_elem_of_fmap; exists (ex, x); by rewrite elem_of_range_of).
  rewrite E in Hin. by apply not_elem_of_nil in Hin.
Qed.

Lemma newTickerWithStop_cases ms c :
  (newTicker ms = Ok tt /\ newTickerWithStop ms c = track_ticker c) \/
  (newTicker ms <> Ok tt /\ newTickerWithStop ms c = crash non_positive_interval c).
Proof. unfold newTickerWithStop. destruct (newTicker_cases ms) as [-> | ->]; [left|right]; by split. Qed.

Lemma sound_launch id c :
  sound c -> serving (pc c) = false -> crashed c = None -> forall p, serving p = false ->
  sound (with_pc p (track_ticker (subtasks_add 2 (with_workers (workers c ++ [mkWorker id FetcherStarting EncoderStarting 0 false]) c)))).
Proof.
  intros [H1 H2 H3 H4 H5 H6 H7 H8 H9] Hp Hc p Hp'. pose proof (serving_Returned _ Hp) as Hr. pose proof (serving_Returned _ Hp') as Hr'. rewrite Hp in *.
  assert (stops_closed (stopDaemon c) = false) as Hs by (destruct (stops_closed (stopDaemon c)) eqn:E; [by destruct (H6 eq_refl)|done]).
  split; cbn; rewrite ?Hp'; try done.
  - rewrite H2. unfold live. cbn [pc workers with_pc track_ticker subtasks_add with_counters with_workers].
    rewrite sum_snoc. cbn. destruct (pc c); destruct p; try done; lia.
  - rewrite !length_app. cbn. lia.
  - rewrite !length_app. cbn. lia.
  - apply Forall_app. split; [exact H5|]. by repeat constructor.
  - by rewrite Hs.
  - apply Forall_app. split; [exact H8|]. apply Forall_singleton. split; cbn; [apply Nat.le_0_l|done|done].
  - intros E. by rewrite E in Hs.
Qed.

(** Only [start] moves on, before it serves. *)
Lemma sound_with_pc p c : sound c -> serving (pc c) = serving p -> p <> Returned -> pc c <> Returned -> sound (with_pc p c).
Proof.
  intros [H1 H2 H3 H4 H5 H6 H7 H8 H9] Hp Hr Hr'.
  assert (live (with_pc p c) = live c) as El by (unfold live; cbn; destruct p, (pc c); try done).
  split; cbn; rewrite <- ?Hp, ?El; try done. 
Qed.

Lemma sound_serves c :
  sound c -> pc c = UpdatingMarkets -> crashed c = None ->
  sound (with_pc UpdaterWaiting (startup_done (track_ticker c))) /\
  crashed (with_pc UpdaterWaiting (startup_done (track_ticker c))) = None.
Proof.
  intros [H1 H2 H3 H4 H5 H6 H7 H8 H9] Hp Hc. rewrite Hp in *. cbn in *.
  assert (stops_closed (stopDaemon c) = false) as Hs by (destruct (stops_closed (stopDaemon c)) eqn:E; [by destruct (H6 eq_refl)|done]).
  unfold startup_done. cbn [daemonStartup track_ticker]. rewrite H1. cbn. split; [|done].
  split; cbn; try done.
  - rewrite H2. unfold live. cbn. by rewrite Hp.
  - rewrite !length_app. cbn. lia.
  - rewrite !length_app. cbn. lia.
  - apply Forall_app. split; [exact H5|]. by repeat constructor.
  - by rewrite Hs.
  - intros E. by rewrite E in Hs.
Qed.

Lemma sound_with_tickers l c :
  sound c -> length l = length (tickers c) ->
  (stops_closed (stopDaemon c) = true -> Forall (fun t => t_running t = false) l) -> sound (with_tickers l c).
Proof.
  intros [H1 H2 H3 H4 H5 H6 H7 H8 H9] Hl Hr. split; try done; cbn; [by rewrite Hl|]. intros Hs. destruct (H6 Hs). split; [done|by apply Hr].
Qed.

Lemma sound_take_tick i c : sound c -> sound (take_tick i c).
Proof.
  intros Hs. apply sound_with_tickers; [done|by rewrite length_alter|]. intros Hc. destruct (s_stopped_tickers _ Hs Hc) as [_ Ht].
  by apply Forall_alter.
Qed.

Lemma sound_close_stops c :
  sound c -> stopDaemon c = WaitStartup -> daemonStartup c = 0 -> sound (close_stops c) /\ crashed (close_stops c) = crashed c.
Proof.
  intros [H1 H2 H3 H4 H5 H6 H7 H8 H9] Hst H0. unfold close_stops.
  assert (existsb id (stops c) = false) as ->.
  { rewrite Hst in H5. clear -H5. by induction H5 as [|b l -> _ IH]. }
  split; [|done]. split; try done; cbn.
  - by rewrite !length_fmap.
  - by rewrite length_fmap.
  - apply Forall_fmap, Forall_true. done.
  - intros _. destruct (serving (pc c)) eqn:E; [|by rewrite H0 in H1]. split; [done|]. by apply Forall_fmap, Forall_true.
Qed.

Section Invariants.
Context `{RangeOrder}.
Variable unmarshal_object : string -> option go_error.
Variables (marketParams : list MarketParam) (exchangeIdToQueryConfig : gmap ExchangeId ExchangeQueryConfig)
  (exchangeIdToExchangeDetails : gmap ExchangeId ExchangeQueryDetails).
Variable loopDelayMs : Z.
Variables (queryDial daemonDial queryClose daemonClose : option go_error) (updated : go unit).
Variable start_panic : ExchangeId -> bool -> option go_panic.
Variable task_panic : go_panic -> Prop.
Variable maxResponses : nat.
Abbreviation start_step := (start_step unmarshal_object marketParams exchangeIdToQueryConfig exchangeIdToExchangeDetails
  loopDelayMs queryDial daemonDial queryClose daemonClose updated).
Abbreviation return_start := (return_start queryClose daemonClose).
Abbreviation prog_rule := (prog_rule unmarshal_object marketParams exchangeIdToQueryConfig exchangeIdToExchangeDetails
  loopDelayMs queryDial daemonDial queryClose daemonClose updated start_panic task_panic maxResponses).
Abbreviation prog_step := (prog_step unmarshal_object marketParams exchangeIdToQueryConfig exchangeIdToExchangeDetails
  loopDelayMs queryDial daemonDial queryClose daemonClose updated start_panic task_panic maxResponses).
Abbreviation reachable := (reachable unmarshal_object marketParams exchangeIdToQueryConfig exchangeIdToExchangeDetails
  loopDelayMs queryDial daemonDial queryClose daemonClose updated start_panic task_panic maxResponses).
Abbreviation config_error := (fun err => validateDaemonConfiguration unmarshal_object marketParams exchangeIdToQueryConfig exchangeIdToExchangeDetails = Err err).

(** The errors that [start] can return or panic with, and all the panics of the daemon. *)
Definition failure (err : go_error) : Prop :=
  queryDial = Some err \/ daemonDial = Some err \/ config_error err \/ updated = Err err \/ queryClose = Some err \/ daemonClose = Some err.
Definition start_failure (p : go_panic) : Prop :=
  (exists err, p = PanicMsg (error_text err) /\ failure err) \/ updated = Panic p \/
  (exists exchangeId isPriceFetcher, start_panic exchangeId isPriceFetcher = Some p) \/ task_panic p \/
  (p = non_positive_interval /\ ~ all_tick exchangeIdToQueryConfig loopDelayMs).
Definition launching_ok (p : start_pc) : Prop :=
  match p with Launching ids => Forall (fun id => is_Some (exchangeIdToExchangeDetails !! id) /\ is_Some (exchangeIdToQueryConfig !! id)) ids | _ => True end.
Definition ok (c : Client) : Prop :=
  match crashed c with Some p => start_failure p | None => sound c /\ launching_ok (pc c) end.

Lemma return_start_error b n err c : failure err -> ok (return_start b n (Some err) c).
Proof using All.
  intros Hf. unfold return_start, ok, or_else.
  repeat case_match; simplify_eq/=; left; eexists; (split; [reflexivity|]); unfold failure in *; tauto.
Qed.

Lemma ok_start c c' : ok c -> crashed c = None -> start_step c = Some c' -> ok c'.
Proof using All.
  unfold ok at 1. intros Hok Hc. rewrite Hc in Hok. destruct Hok as [Hs Hl]. unfold start_step.
  assert (forall p, serving (pc c) = serving p -> p <> Returned -> pc c <> Returned -> launching_ok p -> ok (with_pc p c)) as Hmove.
  { intros p ? ? ? ?. unfold ok. cbn [crashed with_pc]. rewrite Hc. split; [by apply sound_with_pc|done]. }
  destruct (pc c) as [| | |ids| | | |] eqn:Hp; try done.
  - intros [= <-]. destruct queryDial as [err|] eqn:E; [apply return_start_error; by left|by apply Hmove].
  - intros [= <-]. destruct daemonDial as [err|] eqn:E; [apply return_start_error; right; by left|by apply Hmove].
  - intros [= <-]. destruct (validateDaemonConfiguration _ _ _ _) as [[]|err|p] eqn:E; cbn [mbind go_bind].
    + destruct (validateDaemonConfiguration_inv _ _ _ _ E) as [Hne Hdom].
      destruct (NewExchangeToMarketPrices_keys exchangeIdToQueryConfig Hne) as [etm ->]. apply Hmove; try done.
      apply Forall_forall. intros id Hid. apply list_elem_of_fmap in Hid as ([id' q] & -> & Hq). apply elem_of_range_of in Hq.
      split; [apply elem_of_dom, Hdom, elem_of_dom|]; by exists q.
    + apply return_start_error. do 2 right. by left.
    + exfalso. exact (proj1 (validateDaemonConfiguration_correct _ _ _ _) p E).
  - destruct ids as [|id ids]; intros [= <-]; [by apply Hmove|]. cbn [launching_ok] in Hl. apply Forall_cons in Hl as [[[d Hd] [q Hq]] Hl].
    rewrite Hd, Hq. unfold launch.
    destruct (newTickerWithStop_cases (IntervalMs q) (subtasks_add 2 (with_workers (workers c ++ [mkWorker id FetcherStarting EncoderStarting 0 false]) c)))
      as [[_ ->]|[Hn ->]]; unfold proceed.
    + cbn [crashed track_ticker subtasks_add with_counters with_workers]. rewrite Hc. unfold ok.
      cbn [crashed with_pc track_ticker subtasks_add with_counters with_workers]. rewrite Hc.
      split; [apply sound_launch; try done; by rewrite Hp|done].
    + cbn [crashed crash]. unfold ok. cbn [crashed crash]. do 4 right. split; [done|]. intros [Hall _]. by apply Hn, (Hall id).
  - destruct (forallb registered_worker (workers c)); [|done]. intros [= <-]. destruct updated as [[]|err|p] eqn:E.
    + destruct (newTickerWithStop_cases loopDelayMs c) as [[_ ->]|[Hn ->]]; unfold proceed; cbn [crashed crash track_ticker].
      * rewrite Hc. destruct (sound_serves c Hs Hp Hc) as [Hs' Hc']. unfold ok. rewrite Hc'. by split.
      * unfold ok. cbn [crashed crash]. do 4 right. split; [done|]. by intros [_ Hall].
    + unfold ok. cbn [crashed crash]. left. eexists. split; [reflexivity|]. unfold failure. rewrite E. tauto.
    + unfold ok. cbn [crashed crash]. right. by left.
Qed.

Lemma ok_sound c c' : crashed c' = crashed c -> crashed c = None -> sound c' -> launching_ok (pc c') -> ok c'.
Proof using All. intros E Hc Hs Hl. unfold ok. by rewrite E, Hc. Qed.

Lemma ok_worker i w w' c :
  ok c -> crashed c = None -> workers c !! i = Some w -> worker_ok w' -> live_worker w' = live_worker w -> ok (set_worker i w' c).
Proof using All.
  intros Hok Hc E Hw Hl. unfold ok in Hok. rewrite Hc in Hok. destruct Hok as [Hs Hpc].
  apply (ok_sound c); try done. by apply (sound_set_worker i w w' c).
Qed.

Lemma ok_worker_ends i w w' c :
  ok c -> crashed c = None -> workers c !! i = Some w -> worker_ok w' -> live_worker w = S (live_worker w') -> ok (subtask_done (set_worker i w' c)).
Proof using All.
  intros Hok Hc E Hw Hl. unfold ok in Hok. rewrite Hc in Hok. destruct Hok as [Hs Hpc].
  destruct (sound_worker_ends i w w' c Hs E Hw Hl) as [Hs' Hc']. apply (ok_sound c); try done. unfold subtask_done. by case_match.
Qed.

(** The updater returns when it is told to stop: only a connection that does not close ends in a panic. *)
Lemma ok_updater_stop c :
  ok c -> crashed c = None -> pc c = UpdaterWaiting -> stops c !! length (workers c) = Some true -> ok (return_start true 2 None c).
Proof using All.
  intros Hok Hc Hp Ht. unfold ok in Hok. rewrite Hc in Hok. destruct Hok as [[H1 H2 H3 H4 H5 H6 H7 H8 H9] _].
  assert (stops_closed (stopDaemon c) = true) as Hst by (symmetry; exact (proj1 (Forall_lookup _ _) H5 _ _ Ht)).
  unfold return_start. destruct daemonClose as [e|] eqn:Ed, queryClose as [e'|] eqn:Eq; cbn [or_else];
    try (unfold ok; cbn [crashed crash]; left; eexists; split; [reflexivity|unfold failure; tauto]).
  assert (live c = S (live (with_pc Returned c))) as El by (unfold live; cbn [pc workers with_pc]; rewrite Hp; lia).
  unfold subtask_done. cbn [runningSubtasksWaitGroup with_pc]. destruct (Z.leb_spec (runningSubtasksWaitGroup c) 0) as [Hz|Hz]; [lia|].
  apply (ok_sound c); try done. rewrite Hp in *. split; try done; cbn.
  - change (live (with_counters (daemonStartup c) (runningSubtasksWaitGroup c - 1) (with_pc Returned c))) with (live (with_pc Returned c)). lia.
  - intros E. specialize (H9 E). lia.
Qed.

Lemma worker_at i w c : ok c -> crashed c = None -> workers c !! i = Some w -> worker_ok w.
Proof using All.
  intros Hok Hc E. unfold ok in Hok. rewrite Hc in Hok. exact (proj1 (Forall_lookup _ _) (s_workers _ (proj1 Hok)) i w E).
Qed.

Lemma not_done_open w : worker_ok w -> w_fetcher w <> FetcherDone -> w_closed w = false.
Proof using All. intros Hw Hd. destruct (w_closed w) eqn:E; [|done]. destruct Hd. by apply (w_closing w Hw). Qed.

(** A fetcher that runs changes what it does; the encoder cannot have ended. *)
Lemma worker_ok_fetcher s n w :
  worker_ok w -> w_fetcher w <> FetcherDone -> s <> FetcherDone -> (n <= FixedBufferSize)%nat ->
  worker_ok (set_fetcher s (set_buffer n w)) /\ live_worker (set_fetcher s (set_buffer n w)) = live_worker w.
Proof using All.
  intros Hw Hd Hs Hn. pose proof (not_done_open w Hw Hd) as Ho. split.
  - split; cbn; [done|split; [by rewrite Ho|done]|]. intros E. destruct (w_drained w Hw E) as [Hc _]. congruence.
  - unfold live_worker. cbn. destruct (w_fetcher w); destruct s; done.
Qed.

Lemma set_buffer_same w : set_buffer (w_buffer w) w = w.
Proof using All. by destruct w. Qed.

Lemma ok_fetcher i s n w c :
  ok c -> crashed c = None -> workers c !! i = Some w -> w_fetcher w <> FetcherDone -> s <> FetcherDone -> (n <= FixedBufferSize)%nat ->
  ok (set_worker i (set_fetcher s (set_buffer n w)) c).
Proof using All.
  intros Hok Hc E Hd Hs Hn. destruct (worker_ok_fetcher s n w (worker_at i w c Hok Hc E) Hd Hs Hn) as [Hw Hl]. by apply (ok_worker i w).
Qed.

Lemma ok_fetcher_same i s w c :
  ok c -> crashed c = None -> workers c !! i = Some w -> w_fetcher w <> FetcherDone -> s <> FetcherDone ->
  ok (set_worker i (set_fetcher s w) c).
Proof using All.
  intros Hok Hc E Hd Hs. pose proof (ok_fetcher i s (w_buffer w) w c Hok Hc E Hd Hs (w_room w (worker_at i w c Hok Hc E))) as Hx.
  by rewrite set_buffer_same in Hx.
Qed.

Lemma ok_take_tick i c : ok c -> crashed c = None -> ok (take_tick i c).
Proof using All.
  intros Hok Hc. unfold ok in Hok. rewrite Hc in Hok. destruct Hok as [Hs Hl]. apply (ok_sound c); try done. by apply sound_take_tick.
Qed.

Lemma ok_moves p c : ok c -> crashed c = None -> serving (pc c) = serving p -> p <> Returned -> pc c <> Returned -> launching_ok p -> ok (with_pc p c).
Proof using All.
  intros Hok Hc Hp Hr Hr' Hl. unfold ok in Hok. rewrite Hc in Hok. destruct Hok as [Hs _]. apply (ok_sound c); try done. by apply sound_with_pc.
Qed.

Lemma ok_register b i w w' c : crashed c = None -> ok (set_worker i w' c) -> ok (register start_panic b i w w' c).
Proof using All.
  intros Hc Hok. unfold register. destruct (start_panic (w_exchange w) b) as [p|] eqn:E; [|done].
  unfold ok. cbn [crashed crash]. right; right; left. by exists (w_exchange w), b.
Qed.

Lemma ok_rule c c' : ok c -> crashed c = None -> prog_rule c c' -> ok c'.
Proof using All.
  intros Hok Hc Hr. destruct Hr as [c c' E|t c Hp Et Hpend|c Hp|c Hp Et|i w c E Hf|i w t n c E Hf Et Hpend Hn|i w n c E Hf Hroom|i w c E Hf
    |i w c E Hf Et|i w c E He|i w n c E He Hb|i w c E He Hb Hcl|c Hst H0|c Hst H0|p c Ht Hp].
  - by apply (ok_start c).
  - apply ok_moves; try done; [by apply ok_take_tick|by cbn; rewrite Hp..].
  - by apply ok_moves; try done; rewrite Hp.
  - by apply ok_updater_stop.
  - apply ok_register; [done|]. apply ok_fetcher_same; try done. by rewrite Hf.
  - apply ok_take_tick; [|done]. apply ok_fetcher_same; try done. by rewrite Hf.
  - assert (w_fetcher w <> FetcherDone) as Hd by by rewrite Hf.
    pose proof (not_done_open w (worker_at i w c Hok Hc E) Hd) as Ho. unfold write_response. rewrite Ho in *.
    destruct Hroom as [?|Hroom]; [done|]. apply ok_fetcher; (done || lia).
  - apply ok_fetcher_same; try done. by rewrite Hf.
  - pose proof (worker_at i w c Hok Hc E) as Hw. assert (w_fetcher w <> FetcherDone) as Hd by by rewrite Hf.
    pose proof (not_done_open w Hw Hd) as Ho. unfold stop_fetcher. rewrite Ho. apply (ok_worker_ends i w); try done.
    + split; cbn; [apply (w_room w Hw)|done|]. intros Ee. destruct (w_drained w Hw Ee) as [? ?]. congruence.
    + unfold live_worker. cbn. rewrite Hf. by destruct (w_encoder w).
  - apply ok_register; [done|]. pose proof (worker_at i w c Hok Hc E) as [H1 H2 H3]. apply (ok_worker i w); try done. unfold live_worker. cbn. by rewrite He.
  - pose proof (worker_at i w c Hok Hc E) as [H1 H2 H3]. apply (ok_worker i w); try done. split; cbn; [lia|done|congruence].
  - pose proof (worker_at i w c Hok Hc E) as [H1 H2 H3]. apply (ok_worker_ends i w); try done. unfold live_worker. cbn. rewrite He.
    destruct (w_fetcher w); lia.
  - unfold ok in Hok. rewrite Hc in Hok. destruct Hok as [Hs Hl]. destruct (sound_close_stops c Hs Hst H0) as [Hs' Hc'].
    apply (ok_sound c); try done. unfold close_stops. by case_match.
  - unfold ok in Hok. rewrite Hc in Hok. destruct Hok as [[H1 H2 H3 H4 H5 H6 H7 H8 H9] Hl]. apply (ok_sound c); try done.
    rewrite Hst in *. split; try done. cbn. intros _. change (live (with_stop DaemonStopped c)) with (live c). lia.
  - unfold ok. cbn [crashed crash]. do 3 right. by left.
Qed.

Lemma ok_env c c' : ok c -> env_step c c' -> ok c'.
Proof using All.
  intros Hok Hr. destruct Hr as [i t c0 Hc E Hr|c0 Hc Hst]; unfold ok in Hok; rewrite Hc in Hok; destruct Hok as [Hs Hl]; apply (ok_sound c0); try done.
  - apply sound_with_tickers; [done|by rewrite length_insert|]. intros Hcl. destruct (s_stopped_tickers _ Hs Hcl) as [_ Ht].
    rewrite (proj1 (Forall_lookup _ _) Ht i t E) in Hr. done.
  - destruct Hs as [H1 H2 H3 H4 H5 H6 H7 H8 H9]. rewrite Hst in *. by split.
Qed.

Lemma reachable_ok c : reachable c -> ok c.
Proof using All.
  intros Hr. induction Hr as [|c c' _ IH Hs|c c' _ IH [Hc Hs]].
  - split; [|done]. by split.
  - by eapply ok_env.
  - by eapply ok_rule.
Qed.

(** ** Termination

    A tick is worth a run with all its responses, a response its way through the channel. *)
Definition tick_cost : nat := 2 * maxResponses + 3.
Definition fetcher_cost (s : fetcher_state) : nat :=
  match s with FetcherStarting => 2 | FetcherWaiting => 1 | FetcherRunning n => 2 * n + 2 | FetcherDone => 0 end.
Definition encoder_cost (s : encoder_state) : nat := match s with EncoderStarting => 2 | EncoderReading => 1 | EncoderDone => 0 end.
Definition worker_cost (w : worker) : nat := (fetcher_cost (w_fetcher w) + encoder_cost (w_encoder w) + w_buffer w)%nat.
Definition pc_cost (p : start_pc) : nat :=
  match p with
  | DialingQuery => 5 * length (range_of exchangeIdToQueryConfig) + 7
  | DialingDaemon => 5 * length (range_of exchangeIdToQueryConfig) + 6
  | Validating => 5 * length (range_of exchangeIdToQueryConfig) + 5
  | Launching ids => 5 * length ids + 4
  | UpdatingMarkets => 3
  | UpdaterRunning => 2
  | UpdaterWaiting => 1
  | Returned => 0
  end.
Definition stop_cost (s : stop_state) : nat := match s with NotStopped | WaitStartup => 2 | WaitSubtasks => 1 | DaemonStopped => 0 end.
Definition ticker_cost (t : ticker) : nat := if t_pending t then tick_cost else 0.
Definition measure (c : Client) : nat :=
  match crashed c with
  | Some _ => 0
  | None => S (sum_list_with worker_cost (workers c) + sum_list_with ticker_cost (tickers c) + pc_cost (pc c) + stop_cost (stopDaemon c))
  end.

Lemma measure_running c : crashed c = None ->
  measure c = S (sum_list_with worker_cost (workers c) + sum_list_with ticker_cost (tickers c) + pc_cost (pc c) + stop_cost (stopDaemon c)).
Proof using All. intros E. unfold measure. by rewrite E. Qed.

Lemma measure_le c : (measure c <=
  S (sum_list_with worker_cost (workers c) + sum_list_with ticker_cost (tickers c) + pc_cost (pc c) + stop_cost (stopDaemon c)))%nat.
Proof using All. unfold measure. case_match; lia. Qed.

(** An effect that only counts. *)
Lemma measure_subtask_done c : (measure (subtask_done c) <= measure c)%nat.
Proof using All. unfold subtask_done. case_match; unfold measure; cbn; [|done]. case_match; lia. Qed.
Lemma measure_startup_done c : (measure (startup_done c) <= measure c)%nat.
Proof using All. unfold startup_done. case_match; unfold measure; cbn; [|done]. case_match; lia. Qed.

Lemma measure_set_worker i w w' c :
  crashed c = None -> workers c !! i = Some w -> (measure (set_worker i w' c) + worker_cost w = measure c + worker_cost w')%nat.
Proof using All.
  intros Hc E. pose proof (sum_insert worker_cost (workers c) i w w' E). rewrite !measure_running by exact Hc. cbn. lia.
Qed.

Lemma measure_take_tick i t c :
  crashed c = None -> tickers c !! i = Some t -> t_pending t = true -> (measure (take_tick i c) + tick_cost = measure c)%nat.
Proof using All.
  intros Hc E Hp. rewrite !measure_running by exact Hc. unfold take_tick. cbn [workers tickers pc stopDaemon with_tickers].
  assert (alter (fun t => mkTicker (t_running t) false) i (tickers c) = <[i := mkTicker (t_running t) false]> (tickers c)) as ->.
  { apply list_eq. intros j. destruct (decide (i = j)) as [<-|Hne].
    - rewrite list_lookup_alter_eq, list_lookup_insert_eq by (by eapply lookup_lt_Some). by rewrite E.
    - by rewrite list_lookup_alter_ne, list_lookup_insert_ne. }
  pose proof (sum_insert ticker_cost (tickers c) i t (mkTicker (t_running t) false) E) as Hs.
  assert (ticker_cost t = tick_cost) as Et by (unfold ticker_cost; by rewrite Hp).
  assert (ticker_cost (mkTicker (t_running t) false) = 0%nat) as E0 by done. lia.
Qed.

Lemma measure_with_pc p c : crashed c = None -> (measure (with_pc p c) + pc_cost (pc c) = measure c + pc_cost p)%nat.
Proof using All. intros Hc. rewrite !measure_running by exact Hc. cbn. lia. Qed.

Lemma measure_crash p c : measure (crash p c) = 0%nat.
Proof using All. done. Qed.

Lemma measure_positive c : crashed c = None -> (0 < measure c)%nat.
Proof using All. intros Hc. rewrite measure_running by done. lia. Qed.

Lemma measure_return_start b n err c : crashed c = None -> (0 < pc_cost (pc c))%nat -> (measure (return_start b n err c) < measure c)%nat.
Proof using All.
  intros Hc Hp. unfold return_start. pose proof (measure_positive c Hc).
  assert (measure (subtask_done (with_pc Returned (if b then c else startup_done c))) < measure c)%nat as Hlt.
  { eapply Nat.le_lt_trans; [apply measure_subtask_done|]. destruct b.
    - pose proof (measure_with_pc Returned c Hc). cbn in *. lia.
    - unfold startup_done. case_match; [unfold measure at 1; cbn; lia|].
      eapply Nat.le_lt_trans; [apply measure_le|]. rewrite (measure_running c Hc). cbn. lia. }
  by repeat case_match; rewrite ?measure_crash.
Qed.

Lemma measure_close_stops c : crashed c = None -> stopDaemon c = WaitStartup -> (measure (close_stops c) < measure c)%nat.
Proof using All.
  intros Hc Hs. unfold close_stops. pose proof (measure_positive c Hc). case_match; [by rewrite measure_crash|].
  rewrite !measure_running by exact Hc. cbn. rewrite Hs.
  assert (sum_list_with ticker_cost ((fun t => mkTicker false (t_pending t)) <$> tickers c) = sum_list_with ticker_cost (tickers c)) as ->.
  { induction (tickers c) as [|t l IH]; [done|]. cbn. by rewrite IH. }
  cbn. lia.
Qed.

Lemma measure_start c c' : crashed c = None -> start_step c = Some c' -> (measure c' < measure c)%nat.
Proof using All.
  intros Hc. unfold start_step. pose proof (measure_positive c Hc) as Hpos.
  assert (forall p, (pc_cost p < pc_cost (pc c))%nat -> (measure (with_pc p c) < measure c)%nat) as Hmove
    by (intros p Hp; pose proof (measure_with_pc p c Hc); lia).
  pose proof (measure_return_start false) as Hret.
  destruct (pc c) as [| | |ids| | | |] eqn:Hp; try done; cbn [pc_cost] in Hmove.
  - intros [= <-]. case_match; [apply Hret; rewrite ?Hp; cbn; (done || lia)|apply Hmove; cbn; lia].
  - intros [= <-]. case_match; [apply Hret; rewrite ?Hp; cbn; (done || lia)|apply Hmove; cbn; lia].
  - intros [= <-]. case_match; [apply Hmove; cbn; rewrite length_fmap; lia|apply Hret; rewrite ?Hp; cbn; (done || lia)|by rewrite measure_crash].
  - destruct ids as [|id ids]; intros [= <-]; [apply Hmove; cbn; lia|]. case_match; [|apply Hret; rewrite ?Hp; cbn; (done || lia)].
    case_match; [|by rewrite measure_crash]. unfold launch.
    destruct (newTickerWithStop_cases (IntervalMs e0) (subtasks_add 2 (with_workers (workers c ++ [mkWorker id FetcherStarting EncoderStarting 0 false]) c)))
      as [[_ ->]|[_ ->]]; unfold proceed; [|cbn [crashed crash]; by rewrite measure_crash].
    cbn [crashed track_ticker subtasks_add with_counters with_workers]. rewrite Hc.
    rewrite !measure_running by exact Hc. cbn. rewrite Hp, !sum_snoc. cbn. lia.
  - case_match; [|done]. intros [= <-]. destruct updated as [[]| |]; [|by rewrite measure_crash..].
    destruct (newTickerWithStop_cases loopDelayMs c) as [[_ ->]|[_ ->]]; unfold proceed; [|cbn [crashed crash]; by rewrite measure_crash].
    cbn [crashed track_ticker]. rewrite Hc.
    rewrite (measure_running c Hc). eapply Nat.le_lt_trans; [apply measure_le|]. unfold startup_done. rewrite Hp.
    case_match; cbn; rewrite sum_snoc; cbn; lia.
Qed.

Lemma measure_register b i w w' c :
  crashed c = None -> (measure (set_worker i w' c) < measure c)%nat -> (measure (register start_panic b i w w' c) < measure c)%nat.
Proof using All.
  intros Hc Hm. unfold register. case_match; [|done]. rewrite measure_crash. by apply measure_positive.
Qed.

Lemma rule_measure c c' : crashed c = None -> prog_rule c c' -> (measure c' < measure c)%nat.
Proof using All.
  intros Hc Hr. pose proof (measure_positive c Hc) as Hpos.
  destruct Hr as [c c' E|t c Hp Et Hpend|c Hp|c Hp Et|i w c E Hf|i w t n c E Hf Et Hpend Hn|i w n c E Hf Hroom|i w c E Hf
    |i w c E Hf Et|i w c E He|i w n c E He Hb|i w c E He Hb Hcl|c Hst H0|c Hst H0|p c Ht Hp].
  - by apply measure_start.
  - pose proof (measure_take_tick _ t c Hc Et Hpend) as Ht. pose proof (measure_with_pc UpdaterRunning (take_tick (length (workers c)) c) Hc) as Hm.
    cbn [take_tick with_tickers pc] in Hm. rewrite Hp in Hm. unfold tick_cost in *. cbn in Hm. lia.
  - pose proof (measure_with_pc UpdaterWaiting c Hc) as Hm. rewrite Hp in Hm. cbn in Hm. lia.
  - apply measure_return_start; [done|]. rewrite Hp. cbn. lia.
  - apply measure_register; [done|]. pose proof (measure_set_worker i w (set_fetcher FetcherWaiting w) c Hc E) as Hm. unfold worker_cost in Hm. cbn in Hm. rewrite Hf in Hm. cbn in Hm. lia.
  - pose proof (measure_set_worker i w (set_fetcher (FetcherRunning n) w) c Hc E) as Hm. unfold worker_cost in Hm. cbn in Hm. rewrite Hf in Hm. cbn in Hm.
    pose proof (measure_take_tick i t (set_worker i (set_fetcher (FetcherRunning n) w) c) Hc Et Hpend) as Ht. unfold tick_cost in *. lia.
  - unfold write_response. case_match; [by rewrite measure_crash|].
    pose proof (measure_set_worker i w (set_fetcher (FetcherRunning n) (set_buffer (S (w_buffer w)) w)) c Hc E) as Hm.
    unfold worker_cost in Hm. cbn in Hm. rewrite Hf in Hm. cbn in Hm. lia.
  - pose proof (measure_set_worker i w (set_fetcher FetcherWaiting w) c Hc E) as Hm. unfold worker_cost in Hm. cbn in Hm. rewrite Hf in Hm. cbn in Hm. lia.
  - unfold stop_fetcher. case_match; [by rewrite measure_crash|]. eapply Nat.le_lt_trans; [apply measure_subtask_done|].
    pose proof (measure_set_worker i w (set_fetcher FetcherDone (close_buffer w)) c Hc E) as Hm. unfold worker_cost in Hm. cbn in Hm. rewrite Hf in Hm. cbn in Hm. lia.
  - apply measure_register; [done|]. pose proof (measure_set_worker i w (set_encoder EncoderReading w) c Hc E) as Hm. unfold worker_cost in Hm. cbn in Hm. rewrite He in Hm. cbn in Hm. lia.
  - pose proof (measure_set_worker i w (set_buffer n w) c Hc E) as Hm. unfold worker_cost in Hm. cbn in Hm. rewrite Hb in Hm. lia.
  - eapply Nat.le_lt_trans; [apply measure_subtask_done|].
    pose proof (measure_set_worker i w (set_encoder EncoderDone w) c Hc E) as Hm. unfold worker_cost in Hm. cbn in Hm. rewrite He in Hm. cbn in Hm. lia.
  - by apply measure_close_stops.
  - rewrite !measure_running by exact Hc. cbn. rewrite Hst. cbn. lia.
  - by rewrite measure_crash.
Qed.

Lemma steps_bounded n c c' : nsteps prog_step n c c' -> (n + measure c' <= measure c)%nat.
Proof using All.
  induction 1 as [c|n c c1 c' [Hc Hr] _ IH]; [done|]. pose proof (rule_measure c c1 Hc Hr). lia.
Qed.

(** ** Progress *)
Lemma red_rule c c' : crashed c = None -> prog_rule c c' -> red prog_step c.
Proof using All. intros Hc Hr. exists c'. by split. Qed.

(** A goroutine that starts can register. *)
Lemma starting_moves w i c : crashed c = None -> workers c !! i = Some w -> registered_worker w = false -> red prog_step c.
Proof using All.
  intros Hc E. unfold registered_worker. destruct (w_fetcher w) eqn:Hf; [intros _; by eapply red_rule, rule_fetcher_registers| ..];
    destruct (w_encoder w) eqn:He; try done; intros _; by eapply red_rule, rule_encoder_registers.
Qed.

(** Once the stop channels are closed, a worker that did not end can move. *)
Lemma live_moves w i c :
  ok c -> crashed c = None -> workers c !! i = Some w -> stops c !! i = Some true -> live_worker w <> 0%nat -> red prog_step c.
Proof using All.
  intros Hok Hc E Es Hl. pose proof (worker_at i w c Hok Hc E) as [Hroom Hcl Hdr].
  assert ((0 < w_buffer w)%nat -> w_encoder w = EncoderReading -> red prog_step c) as Hread.
  { intros Hb He. destruct (w_buffer w) as [|n] eqn:Eb; [lia|]. by eapply red_rule, rule_encoder_reads. }
  destruct (w_fetcher w) as [| |n|] eqn:Hf.
  - by eapply red_rule, rule_fetcher_registers.
  - by eapply red_rule, rule_fetcher_stop.
  - destruct n as [|n]; [by eapply red_rule, rule_fetcher_ran|].
    destruct (decide (w_buffer w < FixedBufferSize)%nat) as [Hb|Hb]; [by eapply red_rule, rule_fetcher_writes; [..|right]|].
    destruct (w_encoder w) eqn:He; [by eapply red_rule, rule_encoder_registers| |].
    + apply Hread; [unfold FixedBufferSize in *; lia|done].
    + destruct (Hdr eq_refl) as [Hw _]. by apply Hcl in Hw.
  - destruct (w_encoder w) eqn:He; [by eapply red_rule, rule_encoder_registers| |unfold live_worker in Hl; by rewrite Hf, He in Hl].
    destruct (w_buffer w) as [|n] eqn:Eb; [|by apply Hread; [lia|]]. eapply red_rule, rule_encoder_ends; try done. by apply Hcl.
Qed.

Lemma some_live (l : list worker) : sum_list_with live_worker l <> 0%nat -> exists i w, l !! i = Some w /\ live_worker w <> 0%nat.
Proof using All.
  induction l as [|w l IH]; cbn; [done|]. destruct (decide (live_worker w = 0%nat)) as [E|E].
  - rewrite E. intros (i & w' & Hi & Hw)%IH. by exists (S i), w'.
  - intros _. by exists 0%nat, w.
Qed.

Lemma life_stopping_moves c :
  ok c -> crashed c = None -> stopDaemon c <> NotStopped -> stopDaemon c <> DaemonStopped -> red prog_step c.
Proof using All.
  intros Hok Hc Hn Hd. pose proof Hok as Hs. unfold ok in Hs. rewrite Hc in Hs. destruct Hs as [[H1 H2 H3 H4 H5 H6 H7 H8 H9] Hl].
  destruct (stopDaemon c) eqn:Hst; try done.
  - destruct (serving (pc c)) eqn:Hp; [by eapply red_rule, rule_stop_closes|].
    assert (forall c', start_step c = Some c' -> red prog_step c) as Hstart by (intros c' E; by eapply red_rule, rule_start).
    unfold start_step in Hstart. destruct (pc c) as [| | |[|id ids]| | | |] eqn:Epc; try done; try (eapply Hstart; reflexivity).
    destruct (forallb registered_worker (workers c)) eqn:Ereg; [eapply Hstart; reflexivity|].
    assert (exists i w, workers c !! i = Some w /\ registered_worker w = false) as (i & w & E & Hw).
    { clear -Ereg. induction (workers c) as [|w l IH]; [done|]. cbn in Ereg. destruct (registered_worker w) eqn:Ew.
      - destruct (IH Ereg) as (i & w' & Hi & Hw). by exists (S i), w'.
      - by exists 0%nat, w. }
    by eapply starting_moves.
  - destruct (H6 eq_refl) as [Hp _]. rewrite Hp in H4.
    assert (forall i, (i <= length (workers c))%nat -> stops c !! i = Some true) as Hstop.
    { intros i Hi. destruct (lookup_lt_is_Some_2 (stops c) i) as [b Hb]; [lia|]. rewrite Hb. by rewrite (proj1 (Forall_lookup _ _) H5 i b Hb). }
    destruct (pc c) eqn:Epc; try done.
    + eapply red_rule, rule_updater_stop; [done..|]. by apply Hstop.
    + by eapply red_rule, rule_updater_ran.
    + destruct (decide (sum_list_with live_worker (workers c) = 0%nat)) as [E|E].
      * eapply red_rule, rule_stop_ends; [done..|]. rewrite H2. unfold live. by rewrite E, Epc.
      * destruct (some_live _ E) as (i & w & Ew & Hw). eapply live_moves; try done. apply Hstop. apply lookup_lt_Some in Ew. lia.
Qed.

Lemma step_stop c c' : prog_step c c' -> stopDaemon c <> NotStopped -> stopDaemon c' <> NotStopped.
Proof using All.
  intros [_ Hr] Hn. destruct Hr as [c c' E| | | | | |i w n c E Hf Hroom| |i w c E Hf Et| | | |c Hst H0|c Hst H0|];
    unfold return_start, write_response, stop_fetcher, register, subtask_done, close_stops; repeat (case_match; cbn); try done; cbn; try done.
  revert E. unfold start_step, return_start, proceed, launch, newTickerWithStop, startup_done, subtask_done. repeat (case_match; cbn; try done); intros [= <-]; done.
Qed.

(** ** Properties *)

(** What is left when the daemon was stopped: nothing runs and nothing is open. *)
Definition all_ended (c : Client) : Prop :=
  pc c = Returned /\ runningSubtasksWaitGroup c = 0 /\ Forall (fun b => b = true) (stops c) /\ Forall (fun t => t_running t = false) (tickers c) /\
  Forall (fun w => w_fetcher w = FetcherDone /\ w_encoder w = EncoderDone /\ w_closed w = true /\ w_buffer w = 0%nat) (workers c).

(** C36: Whatever the interleaving of startup, runs, ticks and [Stop]: the only panics of the daemon are those of
    [StartNewClient] and [start] with an error of a connection, of the validation or of [UpdateMarkets]; a panic of
    [UpdateMarkets] itself, of the start of a goroutine or of a task that a goroutine runs; and that of [NewTicker] when some
    interval is not positive. So no channel is closed twice or written to after it was closed, and no wait group goes below
    zero. The stop channels are closed only after startup, so that no goroutine is launched that they do not reach; and
    when [Stop] returns every goroutine has ended and has handed over what it wrote, and nothing moves any more. *)
Theorem pricefeed_life_safe c :
  reachable c ->
  match crashed c with
  | Some p => start_failure p
  | None =>
      0 <= daemonStartup c /\ runningSubtasksWaitGroup c = Z.of_nat (live c) /\
      Forall (fun w => (w_buffer w <= FixedBufferSize)%nat) (workers c) /\
      (Exists (fun b => b = true) (stops c) -> serving (pc c) = true /\ length (stops c) = S (length (workers c))) /\
      (stopDaemon c = DaemonStopped -> all_ended c /\ nf prog_step c /\ nf env_step c)
  end.
Proof using All.
  intros Hr%reachable_ok. pose proof Hr as Hok. unfold ok in Hr. destruct (crashed c) eqn:Hc; [done|]. destruct Hr as [[H1 H2 H3 H4 H5 H6 H7 H8 H9] Hl].
  split_and!; [rewrite H1; by case_match|done| | |].
  - eapply Forall_impl; [exact H8|]. intros w Hw. apply Hw.
  - intros (b & Hb & ->)%Exists_exists. assert (stops_closed (stopDaemon c) = true) as Hs by (symmetry; exact (proj1 (Forall_forall _ _) H5 _ Hb)).
    destruct (H6 Hs) as [Hp _]. split; [done|]. rewrite Hp in H4. lia.
  - intros Hs. rewrite Hs in *. specialize (H9 eq_refl). destruct (H6 eq_refl) as [Hp Ht].
    assert (pc c = Returned) as Epc by (unfold live in H9; destruct (pc c); (done || lia)).
    assert (Forall (fun w => w_fetcher w = FetcherDone /\ w_encoder w = EncoderDone /\ w_closed w = true /\ w_buffer w = 0%nat) (workers c)) as Hall.
    { assert (sum_list_with live_worker (workers c) = 0%nat) as E by (unfold live in H9; lia). clear -H8 E.
      induction H8 as [|w l Hw Hl IH]; [constructor|]. cbn in E. constructor; [|apply IH; lia].
      assert (live_worker w = 0%nat) as E0 by lia. unfold live_worker in E0.
      destruct (w_fetcher w) eqn:Hf; try (destruct (w_encoder w); discriminate E0). destruct (w_encoder w) eqn:He; try discriminate E0.
      destruct (w_drained w Hw He). done. }
    split; [split_and!; try done; rewrite H2, H9; done|]. split.
    + intros [c' [_ Hrule]].
      assert (forall i w, workers c !! i = Some w -> w_fetcher w = FetcherDone /\ w_encoder w = EncoderDone) as Hdone.
      { intros i w E. destruct (proj1 (Forall_lookup _ _) Hall i w E) as (? & ? & _). done. }
      destruct Hrule; try congruence; try (match goal with E : workers _ !! _ = Some _ |- _ => destruct (Hdone _ _ E); congruence end).
      * match goal with E : start_step _ = Some _ |- _ => unfold start_step in E; rewrite Epc in E; discriminate E end.
      * match goal with Hb : task_runs _ |- _ => destruct Hb as [E|(i & w & E & Hrun)] end; [congruence|].
        destruct (Hdone _ _ E) as [Hf He]. destruct Hrun as [[n Hn]|[Hn _]]; congruence.
    + intros [c' Hstep]. destruct Hstep as [i t c _ E Hrun|c _ E]; [|congruence].
      rewrite (proj1 (Forall_lookup _ _) Ht i t E) in Hrun. discriminate Hrun.
Qed.

(** [Stop] returned, or a panic ended the program. *)
Definition ended (c : Client) : Prop :=
  match crashed c with Some p => start_failure p | None => stopDaemon c = DaemonStopped end.

Lemma ended_or_moves c : ok c -> stopDaemon c <> NotStopped -> ended c \/ crashed c = None /\ red prog_step c.
Proof using All.
  intros Hok Hn. unfold ended. pose proof Hok as Hs. unfold ok in Hs. destruct (crashed c) eqn:Hc; [by left|].
  destruct (decide (stopDaemon c = DaemonStopped)); [by left|right]. split; [done|]. by apply life_stopping_moves.
Qed.

(** C37: The daemon always comes to its end when it is stopped. From every state the program takes boundedly many steps by
    itself (between two ticks); and after [Stop] was called, as long as it has not returned and no panic ended the program,
    some step is possible: so every run comes to the end of [Stop], or to one of the panics above: with an error of the
    startup or of a connection that does not close, of [UpdateMarkets], of a goroutine's start or task, or of [NewTicker]. *)
Theorem pricefeed_stop_terminates c :
  reachable c ->
  (forall n c', nsteps prog_step n c c' -> (n <= measure c)%nat) /\
  (stopDaemon c <> NotStopped ->
   (forall c', rtc prog_step c c' -> nf prog_step c' -> ended c') /\ exists c', rtc prog_step c c' /\ ended c').
Proof using All.
  intros Hr%reachable_ok. split; [intros n c' Hn%steps_bounded; lia|]. intros Hn. split.
  - intros c' Hrtc Hnf. assert (ok c' /\ stopDaemon c' <> NotStopped) as [Hok' Hn'].
    { clear Hnf. induction Hrtc as [c|c c1 c' Hstep _ IH]; [done|]. apply IH; [|by eapply step_stop]. destruct Hstep as [Hc Hrule]. by eapply ok_rule. }
    destruct (ended_or_moves c' Hok' Hn') as [?|[_ Hm]]; [done|by destruct Hnf].
  - remember (measure c) as m eqn:Em. revert c Hr Hn Em. induction (lt_wf m) as [m _ IH]. intros c Hr Hn ->.
    destruct (ended_or_moves c Hr Hn) as [He|[Hc [c1 [_ Hrule]]]]; [by exists c|].
    destruct (IH _ (rule_measure c c1 Hc Hrule) c1) as (c' & Hrtc & He); [by eapply ok_rule|by eapply step_stop; [split|]|done|].
    exists c'. split; [|done]. eapply rtc_l; [by split|done].
Qed.
End Invariants.

(** ** Concrete instances: two exchanges, and no errors *)
Notation ex_step := (start_step (H := canonical_range) (fun _ => None) ex_params ex_qcfgs ex_all_details 1000 None None None None (Ok tt)).
Notation ex_reachable := (reachable (H := canonical_range) (fun _ => None) ex_params ex_qcfgs ex_all_details 1000 None None None None (Ok tt)
  (fun _ _ => None) (fun _ => False) 8).
Definition ex_next (c : Client) : Client := default c (ex_step c).

Lemma ex_next_reachable c : ex_reachable c -> crashed c = None -> is_Some (ex_step c) -> ex_reachable (ex_next c).
Proof.
  intros Hr Hc [c' E]. unfold ex_next. rewrite E. eapply reach_prog; [exact Hr|]. split; [done|]. by apply rule_start.
Qed.

(** The goroutines of the first exchange were started, those of the second were not. *)
Definition ex_launched : Client := ex_next (ex_next (ex_next (ex_next StartNewClient))).
Lemma ex_launched_reachable : ex_reachable ex_launched.
Proof.
  unfold ex_launched. repeat (apply ex_next_reachable; [|vm_compute; reflexivity|apply (bool_decide_unpack _); vm_compute; exact I]).
  apply reach_start.
Qed.

Lemma pricefeed_life_safe_witness :
  ex_reachable ex_launched /\ length (workers ex_launched) = 1%nat /\ daemonStartup ex_launched = 1 /\
  runningSubtasksWaitGroup ex_launched = Z.of_nat (live ex_launched).
Proof.
  split; [exact ex_launched_reachable|]. split; [vm_compute; reflexivity|]. split; [vm_compute; reflexivity|].
  pose proof (pricefeed_life_safe _ _ _ _ _ _ _ _ _ _ _ _ _ ex_launched ex_launched_reachable) as Hs.
  assert (crashed ex_launched = None) as E by (vm_compute; reflexivity). rewrite E in Hs. exact (proj1 (proj2 Hs)).
Defined.

(** [Stop] is called while the daemon starts: it comes to its end. *)
Definition ex_stopping : Client := with_stop WaitStartup ex_launched.
Lemma ex_life_stopping_reachable : ex_reachable ex_stopping.
Proof. eapply reach_env; [exact ex_launched_reachable|]. apply env_stop; vm_compute; reflexivity. Qed.

Lemma ex_stopping_waits : stopDaemon ex_stopping <> NotStopped.
Proof. unfold ex_stopping. cbn [stopDaemon with_stop]. discriminate. Qed.
Lemma ex_all_tick : all_tick ex_qcfgs 1000.
Proof.
  split; [|reflexivity]. assert (map_Forall (fun _ c => newTicker (IntervalMs c) = Ok tt) ex_qcfgs) as Hall
    by (apply (bool_decide_unpack _); vm_compute; exact I). exact Hall.
Qed.
Lemma ex_no_failure p :
  start_failure (H := canonical_range) (fun _ => None) ex_params ex_qcfgs ex_all_details 1000 None None None None (Ok tt)
    (fun _ _ => None) (fun _ => False) p -> False.
Proof.
  intros [(err & _ & Hf)|[Hf|[(ex & b & Hf)|[Hf|[_ Hf]]]]]; [|discriminate Hf|discriminate Hf|exact Hf|exact (Hf ex_all_tick)].
  destruct Hf as [Hf|[Hf|[Hf|[Hf|[Hf|Hf]]]]]; [discriminate Hf|discriminate Hf| |discriminate Hf|discriminate Hf|discriminate Hf].
  vm_compute in Hf. discriminate Hf.
Qed.

Lemma pricefeed_stop_terminates_witness :
  ex_reachable ex_stopping /\ stopDaemon ex_stopping <> NotStopped /\
  exists c', rtc (prog_step (H := canonical_range) (fun _ => None) ex_params ex_qcfgs ex_all_details 1000 None None None None (Ok tt)
    (fun _ _ => None) (fun _ => False) 8) ex_stopping c' /\
    stopDaemon c' = DaemonStopped.
Proof.
  split; [exact ex_life_stopping_reachable|]. split; [exact ex_stopping_waits|].
  pose proof (proj2 (pricefeed_stop_terminates _ _ _ _ _ _ _ _ _ _ _ _ _ ex_stopping ex_life_stopping_reachable) ex_stopping_waits) as [_ (c' & Hrtc & He)].
  exists c'. split; [exact Hrtc|]. unfold ended in He. destruct (crashed c') as [p|]; [destruct (ex_no_failure p He)|exact He].
Defined.
