(* ===== verification/BlockMonitor.v ===== *)
(** * reporter/client/reporter_monitors.go: block subscriptions

    [subscribeNewBlocks] on the endpoints of the reporter, and the whole of [MonitorCyclelistQuery]: driven by the blocks
    of a subscription, by a timer when no block comes, by a new subscription when the channel is closed, and by polling
    when there is none. The checks are those of SpotReports; nodes are parameters over the world. *)
From S2P Require Import TokenBridge.
From S2P Require Import Prelude Text Endpoints SpotReports.
Local Open Scope nat_scope.

Lemma nth_after_next m j : wf m -> nth_after (mkManager (endpoints m) (nth_after m j)) 1 = nth_after m (S j).
Proof.
  intros Hwf. unfold nth_after. cbn. rewrite Nat.Div0.add_mod_idemp_l. f_equal. lia.
Qed.

Section Subscriptions.
Context {W Client : Type}.
(** [rpchttp.New]; the type of a client, whether it runs, its start, its subscriptions; the clock. *)
Variable factory : W -> string -> W * (go_error + Client).
Variable isHTTP : Client -> bool.
Variable IsRunning : W -> Client -> bool.
Variable StartClient : W -> Client -> W * option go_error.
Variable Subscribe : W -> Client -> string -> W * option go_error.
Variable Unsubscribe : W -> Client -> string -> W.
Variable UnixNano : W -> Z.

Abbreviation St := (St (W := W) (Client := Client)).

(** A subscription, and what is done with subscriptions, in order. *)
Record subscription := mkSubscription { sub_client : Client; subscriber : string }.
Inductive sub_event := Subscribed (s : subscription) | Unsubscribed (s : subscription).
Record subs := mkSubs { ends : St; sub_log : list sub_event }.

Definition with_world (w : W) (st : St) : St := mkSt w (manager st) (client st) (events st).

Definition subscribeNewBlocksWithClient (c : Client) (endpoint : string) (s : subs) : subs * (go_error + subscription) :=
  if negb (isHTTP c) then
    (s, inl (ErrNew ("RPC client for " +:+ endpoint +:+ " does not support WebSocket subscriptions")))
  else
    match start_client IsRunning StartClient c (ends s) with
    | (st, Some err) => (mkSubs st (sub_log s), inl (wrapf "starting rpc client for WebSocket" err))
    | (st, None) =>
        let subscriber := "reporter-cycle-monitor-" +:+ pretty (UnixNano (world st)) in
        match Subscribe (world st) c subscriber with
        | (w, Some err) => (mkSubs (with_world w st) (sub_log s), inl (wrapf "subscribing to NewBlock events" err))
        | (w, None) =>
            let sub := mkSubscription c subscriber in
            (mkSubs (with_world w st) (sub_log s ++ [Subscribed sub]), inr sub)
        end
    end.

Definition setRPCClient (c : Client) (s : subs) : subs := mkSubs (setClient c (ends s)) (sub_log s).

Definition no_subscription (errs : list string) : go_error :=
  ErrNew ("subscribing to NewBlock events on RPC endpoints: " +:+ strings_Join errs "; ").

(** The loop over the other endpoints, with as many attempts left. *)
Fixpoint subscribe_next (attempts : nat) (errs : list string) (s : subs) : subs * go subscription :=
  match attempts with
  | O => (s, Err (no_subscription errs))
  | S attempts =>
      match nextClient factory (ends s) with
      | (st, Panic p) => (mkSubs st (sub_log s), Panic p)
      | (st, Err err) => (mkSubs st (sub_log s), Err (no_subscription (errs ++ [error_text err])))
      | (st, Ok (endpoint, c)) =>
          match subscribeNewBlocksWithClient c endpoint (mkSubs st (sub_log s)) with
          | (s, inr sub) => (setRPCClient c s, Ok sub)
          | (s, inl err) => subscribe_next attempts (errs ++ [endpoint +:+ ": " +:+ error_text err]) s
          end
      end
  end.

Definition subscribeNewBlocks (s : subs) : subs * go subscription :=
  match manager (ends s) with
  | None =>
      match client (ends s) with
      | None => (s, Err (ErrNew "rpc client not initialized"))
      | Some c => match subscribeNewBlocksWithClient c "current" s with
                  | (s, inr sub) => (s, Ok sub)
                  | (s, inl err) => (s, Err err)
                  end
      end
  | Some m =>
      match currentClient factory (ends s) with
      | (st, Panic p) => (mkSubs st (sub_log s), Panic p)
      | (st, Err err) => subscribe_next (endpointCount m - 1) [": " +:+ error_text err] (mkSubs st (sub_log s))
      | (st, Ok (endpoint, inl err)) =>
          subscribe_next (endpointCount m - 1) [endpoint +:+ ": " +:+ error_text err] (mkSubs st (sub_log s))
      | (st, Ok (endpoint, inr c)) =>
          match subscribeNewBlocksWithClient c endpoint (mkSubs st (sub_log s)) with
          | (s, inr sub) => (setRPCClient c s, Ok sub)
          | (s, inl err) => subscribe_next (endpointCount m - 1) [endpoint +:+ ": " +:+ error_text err] s
          end
      end
  end.

Definition unsubscribe (sub : subscription) (s : subs) : subs :=
  mkSubs (with_world (Unsubscribe (world (ends s)) (sub_client sub) (subscriber sub)) (ends s)) (sub_log s ++ [Unsubscribed sub]).


(** ** Subscriptions *)
Definition subscribed (l : list sub_event) : list subscription := omap (fun e => match e with Subscribed s => Some s | _ => None end) l.
Definition unsubscribed (l : list sub_event) : list subscription := omap (fun e => match e with Unsubscribed s => Some s | _ => None end) l.
Definition result_log (r : go subscription) : list sub_event := match r with Ok sub => [Subscribed sub] | _ => [] end.

(** A manager, if there is one, is at one of its endpoints. *)
Definition fine (st : St) : Prop := forall m, manager st = Some m -> wf m.
Definition created (m : endpointManager) (o : nat) (e : event (Client := Client)) : Prop :=
  exists endpoint c, endpoints m !! nth_after m o = Some endpoint /\ e = Created endpoint c.

Lemma with_client_spec c endpoint s s' r :
  subscribeNewBlocksWithClient c endpoint s = (s', r) ->
  manager (ends s') = manager (ends s) /\ events (ends s') = events (ends s) /\
  match r with
  | inr sub => sub_client sub = c /\ sub_log s' = sub_log s ++ [Subscribed sub]
  | inl _ => sub_log s' = sub_log s
  end.
Proof using All.
  unfold subscribeNewBlocksWithClient, start_client. destruct (negb (isHTTP c)); [by intros [= <- <-]|].
  destruct (IsRunning _ _); [|destruct (StartClient _ _) as [w [err|]]; [by intros [= <- <-]|]];
    destruct (Subscribe _ _ _) as [w' [err|]]; intros [= <- <-]; done.
Qed.

(** One switch to the next endpoint, when clients can always be created. *)
Lemma next_created m j st st' r :
  always_creates factory -> wf m -> 1 < length (endpoints m) ->
  manager st = Some (mkManager (endpoints m) (nth_after m j)) -> nextClient factory st = (st', r) ->
  exists endpoint c, r = Ok (endpoint, c) /\ manager st' = Some (mkManager (endpoints m) (nth_after m (S j))) /\
    endpoints m !! nth_after m (S j) = Some endpoint /\ events st' = events st ++ [Created endpoint c].
Proof using All.
  intros Ha Hwf Hlen Hm Hr. set (m' := mkManager (endpoints m) (nth_after m j)) in *.
  assert (wf m') as Hwf' by exact (nth_after_lt m j Hwf).
  destruct (next_spec factory rpc_texts m' st st' r Hm Hwf' Hr) as (_ & nc & Hnc & _ & Hcase). rewrite (Hnc Ha) in *.
  destruct Hcase as [(o & endpoint & c & Ho & Hep & -> & Hm' & He & Hf)|(err & _ & _ & _ & Hf)].
  - apply Forall2_nil_inv_r in Hf. assert (o = 1) as -> by (destruct o as [|[|o]]; [lia|done|discriminate Hf]).
    unfold m' in Hep, Hm'. cbn [endpoints] in Hep, Hm'. rewrite (nth_after_next m j Hwf) in Hep, Hm'. exists endpoint, c. by rewrite He.
  - apply Forall2_nil_inv_r in Hf. apply (f_equal length) in Hf. rewrite length_seq in Hf. cbn in Hf. lia.
Qed.

Lemma next_fine st st' r : manager st <> None -> fine st -> nextClient factory st = (st', r) ->
  manager st' <> None /\ fine st' /\ forall p, r <> Panic p.
Proof using All.
  intros Hs Hf Hr. destruct (manager st) as [m|] eqn:Hm; [|done].
  destruct (next_spec factory rpc_texts m st st' r Hm (Hf m Hm) Hr) as (_ & nc & _ & _ & Hcase).
  destruct Hcase as [(o & endpoint & c & Ho & Hep & -> & Hm' & He & _)|(err & -> & Hm' & _)]; (split; [by rewrite Hm'|]); (split; [|done]); unfold fine; rewrite Hm'; intros m' [= <-].
  - exact (nth_after_lt m o (Hf m Hm)).
  - by apply Hf.
Qed.

Lemma subscribe_next_safe n errs s s' r :
  manager (ends s) <> None -> fine (ends s) -> subscribe_next n errs s = (s', r) ->
  fine (ends s') /\ (forall p, r <> Panic p) /\ sub_log s' = sub_log s ++ result_log r.
Proof using All.
  revert errs s. induction n as [|n IH]; intros errs s Hs Hf; cbn [subscribe_next]; [intros [= <- <-]; by rewrite app_nil_r|].
  destruct (nextClient factory (ends s)) as [st r1] eqn:En. destruct (next_fine _ _ _ Hs Hf En) as (Hs1 & Hf1 & Hp).
  destruct r1 as [[endpoint c]|err|p]; [|intros [= <- <-]; by rewrite app_nil_r|by destruct (Hp p)].
  destruct (subscribeNewBlocksWithClient c endpoint _) as [s1 [err|sub]] eqn:E1; apply with_client_spec in E1 as (Em & _ & E1); cbn in Em, E1.
  - intros Hr. destruct (IH _ s1 ltac:(by rewrite Em) ltac:(unfold fine; by rewrite Em) Hr) as (? & ? & El). by rewrite El, E1.
  - destruct E1 as [_ E1]. intros [= <- <-]. cbn. split; [unfold fine; cbn; by rewrite Em|]. by rewrite E1.
Qed.

Lemma subscribeNewBlocks_safe s s' r :
  fine (ends s) -> subscribeNewBlocks s = (s', r) ->
  fine (ends s') /\ (forall p, r <> Panic p) /\ sub_log s' = sub_log s ++ result_log r.
Proof using All.
  intros Hf. unfold subscribeNewBlocks. destruct (manager (ends s)) as [m|] eqn:Hm.
  - pose proof (Hf m Hm) as Hwf. unfold currentClient, clientOf, currentEndpoint, index. rewrite Hm.
    destruct (lookup_lt_is_Some_2 (endpoints m) (Endpoints.current m) Hwf) as [endpoint Ep]. rewrite Ep. unfold create.
    destruct (factory (world (ends s)) endpoint) as [w [err|c]].
    + intros Hr. apply subscribe_next_safe in Hr; cbn in *; [exact Hr|by rewrite Hm|exact Hf].
    + destruct (subscribeNewBlocksWithClient c endpoint _) as [s1 [err|sub]] eqn:E1; apply with_client_spec in E1 as (Em & _ & E1); cbn in Em, E1.
      * intros Hr. apply subscribe_next_safe in Hr as (? & ? & El); [by rewrite El, E1|by rewrite Em, Hm|unfold fine; by rewrite Em].
      * destruct E1 as [_ E1]. intros [= <- <-]. cbn. split; [unfold fine; cbn; by rewrite Em|]. by rewrite E1.
  - destruct (client (ends s)) as [c|]; [|intros [= <- <-]; by rewrite app_nil_r].
    destruct (subscribeNewBlocksWithClient c "current" s) as [s1 [err|sub]] eqn:E1; apply with_client_spec in E1 as (Em & _ & E1).
    + intros [= <- <-]. split; [unfold fine; by rewrite Em|]. by rewrite app_nil_r.
    + destruct E1 as [_ E1]. intros [= <- <-]. split; [unfold fine; by rewrite Em|]. by rewrite E1.
Qed.

(** The endpoints that are tried: each once, in their cyclic order from the current one on, up to the first that subscribes. *)
Lemma subscribe_next_order n j m errs s s' r :
  always_creates factory -> wf m -> n + 1 <= length (endpoints m) ->
  manager (ends s) = Some (mkManager (endpoints m) (nth_after m j)) -> subscribe_next n errs s = (s', r) ->
  exists k evs, k <= n /\ manager (ends s') = Some (mkManager (endpoints m) (nth_after m (j + k))) /\ Forall2 (created m) (seq (S j) k) evs /\
    match r with
    | Ok sub => 0 < k /\ events (ends s') = events (ends s) ++ evs ++ [Installed (sub_client sub)] /\
                exists endpoint, last evs = Some (Created endpoint (sub_client sub))
    | Err _ => k = n /\ events (ends s') = events (ends s) ++ evs
    | Panic _ => False
    end.
Proof using All.
  intros Ha Hwf. revert j errs s. induction n as [|n IH]; intros j errs s Hn Hm; cbn [subscribe_next].
  { intros [= <- <-]. exists 0, []. rewrite Nat.add_0_r, app_nil_r. by split_and!. }
  destruct (nextClient factory (ends s)) as [st r1] eqn:En.
  destruct (next_created m j _ _ _ Ha Hwf ltac:(lia) Hm En) as (endpoint & c & -> & Hm1 & Hep & He1).
  destruct (subscribeNewBlocksWithClient c endpoint _) as [s1 [err|sub]] eqn:E1; apply with_client_spec in E1 as (Em & Ee & E1); cbn in Em, Ee, E1.
  - intros Hr. destruct (IH (S j) _ s1 ltac:(lia) ltac:(by rewrite Em, Hm1) Hr) as (k & evs & Hk & Hm' & Hf & Hc).
    exists (S k), (Created endpoint c :: evs). split_and!; [lia|by rewrite Nat.add_succ_r|cbn; constructor; [by exists endpoint, c|exact Hf]|].
    destruct r as [sub|err'|p]; [|destruct Hc as (-> & ->); split; [done|]; by rewrite Ee, He1, <- app_assoc|done].
    destruct Hc as (H0 & -> & ep' & Hl). split_and!; [lia|by rewrite Ee, He1, <- !app_assoc|]. exists ep'. destruct evs; [done|exact Hl].
  - destruct E1 as [Esub _]. intros [= <- <-]. exists 1, [Created endpoint c]. split_and!; try lia.
    + cbn. rewrite Em, Hm1. do 2 f_equal. f_equal. lia.
    + repeat constructor. by exists endpoint, c.
    + cbn. rewrite Ee, He1, Esub. by rewrite <- app_assoc.
    + exists endpoint. by rewrite Esub.
Qed.

(** The endpoints are tried at most once each, from the current one on, in their cyclic order, until one of them
    accepts the subscription, whose client is then installed; the subscription fails only when all of them refused. *)
Theorem subscribeNewBlocks_order m s s' r :
  always_creates factory -> manager (ends s) = Some m -> wf m -> subscribeNewBlocks s = (s', r) ->
  exists k evs, k < length (endpoints m) /\ Forall2 (created m) (seq 0 (S k)) evs /\
    manager (ends s') = Some (mkManager (endpoints m) (nth_after m k)) /\
    match r with
    | Ok sub => events (ends s') = events (ends s) ++ evs ++ [Installed (sub_client sub)] /\
                exists endpoint, last evs = Some (Created endpoint (sub_client sub))
    | Err _ => S k = length (endpoints m) /\ events (ends s') = events (ends s) ++ evs
    | Panic _ => False
    end.
Proof using All.
  intros Ha Hm Hwf. unfold subscribeNewBlocks, currentClient, clientOf, currentEndpoint, index. rewrite Hm.
  destruct (lookup_lt_is_Some_2 (endpoints m) (Endpoints.current m) Hwf) as [endpoint Ep]. rewrite Ep. unfold create.
  assert (nth_after m 0 = Endpoints.current m) as H0 by (unfold nth_after; rewrite Nat.add_0_r; by apply Nat.mod_small).
  assert (mkManager (endpoints m) (nth_after m 0) = m) as Em0 by (rewrite H0; by destruct m).
  destruct (Ha (world (ends s)) endpoint) as (w & c & ->).
  assert (created m 0 (Created endpoint c)) as Hcr by (exists endpoint, c; by rewrite H0).
  destruct (subscribeNewBlocksWithClient c endpoint _) as [s1 [err|sub]] eqn:E1; apply with_client_spec in E1 as (Em & Ee & E1); cbn in Em, Ee, E1.
  - intros Hr. apply (subscribe_next_order _ 0 m) in Hr as (k & evs & Hk & Hm' & Hf & Hc); try done; unfold endpointCount in *;
      [|unfold wf in Hwf; lia|by rewrite Em, Hm, Em0].
    exists k, (Created endpoint c :: evs). split_and!; [unfold wf in Hwf; lia|cbn; by constructor|done|].
    destruct r as [sub|err'|p]; [|destruct Hc as (-> & ->); split; [unfold wf in Hwf; lia|by rewrite Ee, <- app_assoc]|done].
    destruct Hc as (Hpos & -> & ep' & Hl). split; [by rewrite Ee, <- !app_assoc|]. exists ep'. destruct evs; [done|exact Hl].
  - destruct E1 as [Esub _]. intros [= <- <-]. exists 0, [Created endpoint c]. split_and!; [unfold wf in Hwf; lia|by repeat constructor| | |].
    + cbn. by rewrite Em, Hm, Em0.
    + cbn. by rewrite Ee, Esub, <- app_assoc.
    + exists endpoint. by rewrite Esub.
Qed.
End Subscriptions.

(** ** MonitorCyclelistQuery *)
Section BlockMonitor.
Context {W Client : Type}.
Variable factory : W -> string -> W * (go_error + Client).
Variable isHTTP : Client -> bool.
Variable IsRunning : W -> Client -> bool.
Variable StartClient : W -> Client -> W * option go_error.
Variable Subscribe : W -> Client -> string -> W * option go_error.
Variable Unsubscribe : W -> Client -> string -> W.
Variable UnixNano : W -> Z.
Abbreviation subs := (subs (W := W) (Client := Client)).
Abbreviation subscription := (subscription (Client := Client)).
Abbreviation subscribeNewBlocks := (subscribeNewBlocks factory isHTTP IsRunning StartClient Subscribe UnixNano).
Abbreviation unsubscribe := (unsubscribe Unsubscribe).
Context {RO : RangeOrder}.
Variable shortest : Z -> string.
Variable pack_uint256 : Z -> go_error + list Z.
Variable QueryIDFromData : list Z -> list Z.
Variable reason_text : Float64.float64 -> Float64.float64 -> Float64.float64 -> Float64.float64 -> string.
Variable MarketParams : list MarketConfig.MarketParam.
Variable accAddr : string.
Abbreviation check := (checkCycle shortest pack_uint256 QueryIDFromData reason_text MarketParams accAddr).
Abbreviation poll := (monitorCyclelistQueryPolling_tick shortest pack_uint256 QueryIDFromData reason_text MarketParams accAddr).

(** The subscription that [defer] names is the first one: it was evaluated when the statement ran. *)
Inductive mode :=
  | EventDriven (deferred current_sub : subscription)
  | Polling (deferred : option subscription) (retryDelay : Duration)
  | Ended.

Record monitor := mkMonitor { m_spot : spot; m_prev : list Z; m_mode : mode; m_subs : subs }.

(** What wakes the monitor: the end of its context, a block, the timer when there was no block for two seconds, the end of
    the channel of blocks, a tick of the polling. *)
Inductive wake :=
  | CtxDone
  | NewBlock (o : observation)
  | NoBlock (o : observation)
  | BlocksClosed
  | PollTick (o : observation).

Definition start_monitor (sp : spot) (s : subs) : go monitor :=
  match subscribeNewBlocks s with
  | (s, Ok sub) => Ok (mkMonitor sp [] (EventDriven sub sub) s)
  | (s, Err _) => Ok (mkMonitor sp [] (Polling None defaultRetryDelay) s)
  | (_, Panic p) => Panic p
  end.

Definition deferred_unsubscribe (deferred : option subscription) (s : subs) : subs :=
  match deferred with Some sub => unsubscribe sub s | None => s end.

(** A round of the loop. A mode does not wait for the wakes of the other. *)
Definition monitor_step (m : monitor) (w : wake) : go (monitor * option Messages.TxChannelInfo) :=
  match m_mode m, w with
  | EventDriven deferred _, CtxDone =>
      Ok (mkMonitor (m_spot m) (m_prev m) Ended (unsubscribe deferred (m_subs m)), None)
  | EventDriven _ _, NewBlock o | EventDriven _ _, NoBlock o =>
      x ← check o (m_spot m) (m_prev m);
      let '(sp, prev, msg) := x in
      Ok (mkMonitor sp prev (m_mode m) (m_subs m), msg)
  | EventDriven deferred sub, BlocksClosed =>
      match subscribeNewBlocks (unsubscribe sub (m_subs m)) with
      | (s, Ok sub) => Ok (mkMonitor (m_spot m) (m_prev m) (EventDriven deferred sub) s, None)
      | (s, Err _) => Ok (mkMonitor (m_spot m) [] (Polling (Some deferred) defaultRetryDelay) s, None)
      | (_, Panic p) => Panic p
      end
  | Polling deferred _, CtxDone =>
      Ok (mkMonitor (m_spot m) (m_prev m) Ended (deferred_unsubscribe deferred (m_subs m)), None)
  | Polling deferred retryDelay, PollTick o =>
      x ← poll o (m_spot m) (m_prev m) retryDelay;
      let '(sp, prev, delay, msg) := x in
      Ok (mkMonitor sp prev (Polling deferred delay) (m_subs m), msg)
  | _, _ => Ok (m, None)
  end.

Fixpoint run_monitor (l : list wake) (m : monitor) : go (monitor * list Messages.TxChannelInfo) :=
  match l with
  | [] => Ok (m, [])
  | w :: l =>
      x ← monitor_step m w;
      y ← run_monitor l x.1;
      Ok (y.1, option_list x.2 ++ y.2)
  end.

Definition MonitorCyclelistQuery (sp : spot) (s : subs) (l : list wake) : go (monitor * list Messages.TxChannelInfo) :=
  m ← start_monitor sp s; run_monitor l m.

(** ** The books of the subscriptions

    In each mode: every subscription but the one in use was ended, in order; what [defer] will end is the first one. *)
Definition ledger (mo : mode) (log : list sub_event) : Prop :=
  match mo with
  | EventDriven deferred sub =>
      exists l, subscribed log = l ++ [sub] /\ unsubscribed log = l /\ head (subscribed log) = Some deferred
  | Polling deferred _ => unsubscribed log = subscribed log /\ head (subscribed log) = deferred
  | Ended =>
      (exists l sub, subscribed log = l ++ [sub] /\ unsubscribed log = l ++ option_list (head (subscribed log))) \/
      unsubscribed log = subscribed log ++ option_list (head (subscribed log))
  end.

Lemma subscribed_app l1 l2 : subscribed (Client := Client) (l1 ++ l2) = subscribed l1 ++ subscribed l2.
Proof using Type. apply omap_app. Qed.
Lemma unsubscribed_app l1 l2 : unsubscribed (Client := Client) (l1 ++ l2) = unsubscribed l1 ++ unsubscribed l2.
Proof using Type. apply omap_app. Qed.

Lemma head_app_some {A} (l : list A) x l' : head l = Some x -> head (l ++ l') = Some x.
Proof using Type. by destruct l. Qed.

Lemma sub_log_unsubscribe sub (s : subs) : sub_log (unsubscribe sub s) = sub_log s ++ [Unsubscribed sub].
Proof using Type. done. Qed.


Definition monitor_ok (m : monitor) : Prop := fine (ends (m_subs m)) /\ ledger (m_mode m) (sub_log (m_subs m)).

(** The observation of a wake, if it comes with one. *)
Definition observed (w : wake) : option observation :=
  match w with NewBlock o | NoBlock o | PollTick o => Some o | CtxDone | BlocksClosed => None end.

(** A wake at which the report that is attempted panics. *)
Abbreviation attempt_panics := (attempt_panics shortest pack_uint256 QueryIDFromData MarketParams).
Definition wake_panics (w : wake) (p : go_panic) : Prop := exists o, observed w = Some o /\ attempt_panics o p.

Lemma monitor_step_spec m w :
  monitor_ok m ->
  match monitor_step m w with
  | Ok (m', msg) => monitor_ok m' /\ fresh_reports (m_spot m) (m_spot m') (option_list msg)
  | Panic p => wake_panics w p
  | Err _ => False
  end.
Proof using Type.
  intros [Hf Hl].
  assert (monitor_ok m /\ fresh_reports (m_spot m) (m_spot m) []) as Hsame by (split; [done|apply fresh_reports_nil]).
  assert (forall o mo, ledger mo (sub_log (m_subs m)) ->
    match check o (m_spot m) (m_prev m) with
    | Ok (sp, prev, msg) => monitor_ok (mkMonitor sp prev mo (m_subs m)) /\ fresh_reports (m_spot m) sp (option_list msg)
    | Panic p => attempt_panics o p
    | Err _ => False
    end) as Hcheck.
  { intros o mo Hmo. pose proof (checkCycle_step shortest pack_uint256 QueryIDFromData reason_text MarketParams accAddr o (m_spot m) (m_prev m)) as Hs.
    destruct (checkCycle _ _ _ _ _ _ _ _ _) as [[[sp prev] msg]| |p]; [|done|exact Hs]. split; [by split|apply Hs]. }
  unfold monitor_step. destruct (m_mode m) as [d sub|d delay|] eqn:Hmo; destruct w as [|o|o| |o]; try exact Hsame;
    try (specialize (Hcheck o (EventDriven d sub) Hl);
         destruct (checkCycle _ _ _ _ _ _ _ _ _) as [[[sp prev] msg]| |p]; cbn [mbind go_bind]; [exact Hcheck|done|by exists o]).
  - split; [|apply fresh_reports_nil]. split; [exact Hf|]. cbn [m_mode m_subs]. rewrite sub_log_unsubscribe.
    destruct Hl as (l & E1 & E2 & E3). left. exists l, sub. rewrite subscribed_app, unsubscribed_app. cbn. by rewrite app_nil_r, E3, E1, E2.
  - destruct (subscribeNewBlocks (unsubscribe sub (m_subs m))) as [s r] eqn:Es.
    apply (subscribeNewBlocks_safe _ _ _ _ _ Unsubscribe) in Es as (Hf' & Hp & El); [|exact Hf]. rewrite sub_log_unsubscribe in El. destruct Hl as (l & E1 & E2 & E3).
    destruct r as [sub'|err|p]; [| |by destruct (Hp p)]; (split; [|apply fresh_reports_nil]);
      (split; [exact Hf'|]); cbn [m_mode m_subs ledger]; rewrite El, !subscribed_app, !unsubscribed_app; cbn [subscribed unsubscribed omap list_omap result_log];
      rewrite ?app_nil_r, E2.
    + exists (l ++ [sub]). rewrite E1. split_and!; try done. rewrite <- E1. by apply head_app_some.
    + rewrite E1. split; [done|]. by rewrite <- E1.
  - split; [|apply fresh_reports_nil]. destruct Hl as [E1 E2]. destruct d as [d|]; cbn [deferred_unsubscribe].
    + split; [exact Hf|]. cbn [m_mode m_subs]. rewrite sub_log_unsubscribe. right. rewrite subscribed_app, unsubscribed_app. cbn. by rewrite app_nil_r, E2, E1.
    + split; [exact Hf|]. cbn [m_mode m_subs]. right. by rewrite E2, app_nil_r.
  - unfold monitorCyclelistQueryPolling_tick. specialize (Hcheck o (Polling d delay) Hl).
    destruct (checkCycle _ _ _ _ _ _ _ _ _) as [[[sp prev] msg]| |p]; cbn [mbind go_bind]; [|done|by exists o].
    destruct Hcheck as [[Hok Hled] Hfr]. split; [by split|exact Hfr].
Qed.

Lemma run_monitor_spec l m :
  monitor_ok m ->
  match run_monitor l m with
  | Ok (m', msgs) => monitor_ok m' /\ fresh_reports (m_spot m) (m_spot m') msgs
  | Panic p => exists w, w ∈ l /\ wake_panics w p
  | Err _ => False
  end.
Proof using Type.
  revert m. induction l as [|w l IH]; intros m Hm; cbn [run_monitor]; [split; [done|apply fresh_reports_nil]|].
  pose proof (monitor_step_spec m w Hm) as Hstep. destruct (monitor_step m w) as [[m1 msg]| |p]; cbn [mbind go_bind fst snd]; [|done|].
  2:{ exists w. split; [by left|done]. }
  destruct Hstep as [Hm1 Hf1]. specialize (IH m1 Hm1). destruct (run_monitor l m1) as [[m2 msgs]| |p]; cbn [mbind go_bind fst snd]; [|done|].
  - destruct IH as [Hm2 Hf2]. split; [done|]. by eapply fresh_reports_trans.
  - destruct IH as (w' & Hin & Hp). exists w'. split; [by right|done].
Qed.

End BlockMonitor.

(** ** A concrete monitor: two nodes, the channel of the first is closed *)
Definition ex_factory (w : Z) (endpoint : string) : Z * (go_error + string) := (w, inr endpoint).
Definition ex_subscribe (w : Z) (_ _ : string) : Z * option go_error := ((w + 1)%Z, None).
Definition ex_nodes : subs (W := Z) (Client := string) :=
  mkSubs (mkSt 0%Z (Some (mkManager ["node1"; "node2"] 0)) None []) [].
Definition ex_monitor (l : list wake) :=
  MonitorCyclelistQuery ex_factory (fun _ => true) (fun _ _ => true) (fun w _ => (w, None)) ex_subscribe (fun w _ _ => w) (fun w => w)
    (fun _ => "") ex_pack (fun qd => qd) (fun _ _ _ _ => "") [ex_param] "tellor1" ex_spot ex_nodes l.
Definition ex_round : observation := mkObservation (inr ([171%Z], Some (mkQueryMeta 9 [171%Z] 200))) ex_env true None.
Definition ex_wakes : list wake := [NewBlock ex_round; NewBlock ex_round; BlocksClosed; NoBlock ex_round; CtxDone].

Lemma ex_nodes_fine : fine (ends ex_nodes).
Proof. intros m [= <-]. unfold wf. cbn. lia. Qed.


Lemma subscribeNewBlocks_order_witness :
  exists k evs, k < 2 /\ Forall2 (created (Client := string) (mkManager ["node1"; "node2"] 0)) (seq 0 (S k)) evs.
Proof.
  destruct (subscribeNewBlocks ex_factory (fun _ => true) (fun _ _ => true) (fun w _ => (w, None)) ex_subscribe (fun w => w) ex_nodes) as [s' r] eqn:E.
  destruct (subscribeNewBlocks_order ex_factory (fun _ => true) (fun _ _ => true) (fun w _ => (w, None)) ex_subscribe (fun w _ _ => w) (fun w => w)
    (mkManager ["node1"; "node2"] 0) ex_nodes s' r) as (k & evs & Hk & Hf & _).
  - intros w endpoint. by exists w, endpoint.
  - reflexivity.
  - unfold wf. cbn. lia.
  - exact E.
  - by exists k, evs.
Defined.
