(* ===== verification/App.v ===== *)
(** * app.go, flags/flags.go and telemetry.go: what the daemon starts, and in which order

    The flags of the daemon as the options of the application give them, the registration of telemetry, [NewApp], which
    reads the files of the home directory and starts the parts of the daemon, and [Shutdown]. What a part does once it
    is started is in the other files; here the start of a goroutine is recorded with what it is given. *)
From Stdlib Require Import Ascii.
From S2P Require Import Dispute Health.
From S2P Require Import Prelude Text MarketConfig PriceEncoder PriceFetcher ServerCache Float64 CustomQuery ConfigFiles QueryEndpoints TestMode.
Local Open Scope Z_scope.

(** ** flags/flags.go *)
Definition FlagUnixSocketAddress : string := "unix-socket-address".
Definition FlagPanicOnDaemonFailureEnabled : string := "panic-on-daemon-failure-enabled".
Definition FlagMaxDaemonUnhealthySeconds : string := "max-daemon-unhealthy-seconds".
Definition FlagPriceDaemonLoopDelayMs : string := "price-daemon-loop-delay-ms".

Record SharedFlags := mkSharedFlags {
  SocketAddress : string;
  PanicOnDaemonFailureEnabled : bool;
  MaxDaemonUnhealthySeconds : Z
}.
Record PriceFlags := mkPriceFlags { pf_Enabled : bool; LoopDelayMs : Z }.
Record DaemonFlags := mkDaemonFlags { Shared : SharedFlags; Price : PriceFlags }.

Definition GetDefaultDaemonFlags : DaemonFlags :=
  mkDaemonFlags (mkSharedFlags "/tmp/daemons.sock" true (5 * 60)) (mkPriceFlags true 3000).

(** The flags of a command with their defaults, in the order in which they are added. *)
Inductive flag_value := FString (s : string) | FBool (b : bool) | FUint32 (n : Z).

Definition AddDaemonFlagsToCmd (cmd : list (string * flag_value)) : list (string * flag_value) :=
  let df := GetDefaultDaemonFlags in
  cmd ++ [(FlagUnixSocketAddress, FString (SocketAddress (Shared df)));
          (FlagPanicOnDaemonFailureEnabled, FBool (PanicOnDaemonFailureEnabled (Shared df)));
          (FlagMaxDaemonUnhealthySeconds, FUint32 (MaxDaemonUnhealthySeconds (Shared df)));
          (FlagPriceDaemonLoopDelayMs, FUint32 (LoopDelayMs (Price df)))].

(** Options of an application: what [Get] answers, [None] for nil. *)
Class Casts (V : Type) := {
  ToStringE : V -> go_error + string;
  ToBoolE : V -> go_error + bool;
  ToUint32E : V -> go_error + Z;
  ToString : option V -> string
}.

Section Flags.
Context {V : Type} `{Casts V}.

(** An option that is there and can be cast, else the default. *)
Definition option_or {A} (cast : V -> go_error + A) (option : option V) (default : A) : A :=
  match option with
  | Some v => match cast v with inr a => a | inl _ => default end
  | None => default
  end.

Definition GetDaemonFlagValuesFromOptions (Get : string -> option V) : DaemonFlags :=
  let result := GetDefaultDaemonFlags in
  mkDaemonFlags
    (mkSharedFlags (option_or ToStringE (Get FlagUnixSocketAddress) (SocketAddress (Shared result)))
       (option_or ToBoolE (Get FlagPanicOnDaemonFailureEnabled) (PanicOnDaemonFailureEnabled (Shared result)))
       (option_or ToUint32E (Get FlagMaxDaemonUnhealthySeconds) (MaxDaemonUnhealthySeconds (Shared result))))
    (mkPriceFlags (pf_Enabled (Price result)) (option_or ToUint32E (Get FlagPriceDaemonLoopDelayMs) (LoopDelayMs (Price result)))).
End Flags.

(** ** What is started *)
Inductive task :=
  | PrometheusServer (port : Z)
  | DaemonServer (socketAddress : string)
  | DisputeMonitor (cfg : Dispute.Config)
  | PriceFeed (flags : DaemonFlags) (grpcEndpoint : string) (markets : list MarketParam) (exchanges : gmap ExchangeId ExchangeQueryConfig)
  | Reporter (flags : DaemonFlags) (minGasPrices : string) (grpcEndpoints : list string) (markets : list MarketParam)
      (queries : gmap string BuiltQuery) (chainId : string) (rpcEndpoints : list string)
  | TokenBridgeFeed (chainId : string)
  | MetricsDaemon.

(** The handles of the parts that [Shutdown] uses; a directory that was not made has the empty name. *)
Record App := mkApp {
  app_PriceFeedClient : bool;
  app_ReporterClient : bool;
  app_DaemonHealthMonitor : option HealthMonitor;
  app_TokenBridgeClient : bool;
  app_tempDir : string
}.

Definition DaemonStartupGracePeriod : Duration := 60 * Second.
Definition PricefeedDaemonModuleName : string := "pricefeed-daemon".

(** The section of app.toml that is used. *)
Record TelemetryConfig := mkTelemetry { tel_Enabled : bool; PrometheusRetentionTime : Z }.

Section App.
Context {W V : Type} `{FS : FileSystem W} {RO : RangeOrder} `{CV : Casts V}.
(** Steps on the world and the tasks that were started. *)
Notation app_act := (act (W * list task)).
Definition on_world {A} (m : act W A) : app_act A := fun '(w, l) => let '(r, w) := m w in (r, (w, l)).
Definition go_start (t : task) : app_act unit := fun '(w, l) => (Ok tt, (w, l ++ [t])).

(** TOML at the types of the files, the error of a file that is not there, and the SDK's telemetry. *)
Variable UnmarshalExchanges : string -> go_error + list ExchangeQueryConfig.
Variable UnmarshalParams : string -> go_error + list MarketParam.
Variable UnmarshalQueries : string -> go_error + QueryEndpoints.Config.
Variable IsNotExist : go_error -> bool.
Variable LoadBytes : string -> go_error + toml.
Variable has_telemetry : toml -> bool.
Variable UnmarshalTelemetry : string -> go_error + TelemetryConfig.
Variable telemetry_New : TelemetryConfig -> option go_error.
(** The temporary directory, the options that hold a home directory, the Ethereum client and the nodes that are asked for disputes. *)
Variable MkdirTemp : W -> (go_error + string) * W.
Variable DefaultNodeHome : string.
Variable NewAppOptionsWithFlagHome : string -> string -> option V.
Variable Dial : string -> option go_error.
Variable Sprint_value : toml -> string.
Variable Getenv : string -> string.
Variable ask_nodes : W -> list (option (go (list Z))) * W.
Variable show_duration : Duration -> string.

Definition panic_with {A} (message : string) : go A := Panic (PanicMsg message).

(** ** telemetry.go *)
Definition RegisterTelemetryIfEnabled (homePath : string) (prometheusPort : Z) : app_act unit :=
  do file <- on_world (fun w => let '(r, w) := ReadFile (Join [homePath; "config"; "app.toml"]) w in (Ok r, w));
  match file with
  | inl err => lift (if IsNotExist err then Ok tt else panic_with ("failed to read app.toml for telemetry: " +:+ error_text err))
  | inr file =>
      match LoadBytes file with
      | inl err => lift (panic_with ("failed to parse app.toml for telemetry: " +:+ error_text err))
      | inr tomlTree =>
          if has_telemetry tomlTree then
            match UnmarshalTelemetry file with
            | inl err => lift (panic_with ("failed to unmarshal telemetry config: " +:+ error_text err))
            | inr telemetryConfig =>
                if tel_Enabled telemetryConfig then
                  match telemetry_New telemetryConfig with
                  | Some err => lift (panic_with ("failed to initialize telemetry: " +:+ error_text err))
                  | None =>
                      if 0 <? PrometheusRetentionTime telemetryConfig
                      then go_start (PrometheusServer (if prometheusPort =? 0 then 26661 else prometheusPort))
                      else ret tt
                  end
                else ret tt
            end
          else ret tt
      end
  end.

(** ** app.go *)

(** The monitor with the daemon; an error is a panic. *)
Definition RegisterDaemonWithHealthMonitor (daemonHealthMonitor : HealthMonitor) (ServiceName : string) (maxDaemonUnhealthyDuration : Duration) :
    go HealthMonitor :=
  match RegisterServiceWithCallback show_duration daemonHealthMonitor ServiceName maxDaemonUnhealthyDuration with
  | (_, Some err, _) => panic_with (error_text err)
  | (hm, None, _) => Ok hm
  end.

(** The nodes are asked only if the monitor is enabled. *)
Definition dispute_check (rpcEndpoints : list string) : app_act unit :=
  do outcomes <- on_world (fun w =>
       if Enabled (LoadConfigFromEnv Getenv rpcEndpoints) then let '(r, w) := ask_nodes w in (Ok r, w) else (Ok [], w));
  do monitor <- lift (start_monitor Getenv rpcEndpoints outcomes);
  match monitor with
  | Some cfg => go_start (DisputeMonitor cfg)
  | None => ret tt
  end.

Definition NewApp (chainId : string) (grpcEndpoints rpcEndpoints : list string) (homePath : string) (prometheusPort : Z) : app_act App :=
  do _ <- RegisterTelemetryIfEnabled homePath prometheusPort;
  do made <- on_world (fun w => let '(r, w) := MkdirTemp w in (Ok r, w));
  let '(tempDir, toRemove) := match made with inl _ => (DefaultNodeHome, "") | inr dir => (dir, dir) end in
  let appOpts := NewAppOptionsWithFlagHome tempDir in
  let daemonFlags := GetDaemonFlagValuesFromOptions appOpts in
  do loaded <- on_world (load_queries UnmarshalQueries Dial Sprint_value Getenv homePath);
  match loaded with
  | inl err => lift (panic_with (error_text err))
  | inr queries =>
      let daemonHealthMonitor := NewHealthMonitor DaemonStartupGracePeriod HealthCheckPollFrequency
                                   (PanicOnDaemonFailureEnabled (Shared daemonFlags)) in
      let maxDaemonUnhealthyDuration := MaxDaemonUnhealthySeconds (Shared daemonFlags) * Second in
      do _ <- go_start (DaemonServer (SocketAddress (Shared daemonFlags)));
      do exchangeQueryConfig <- on_world (ReadExchangeQueryConfigFile UnmarshalExchanges (exchange_config_path homePath));
      do marketParamsConfig <- on_world (ReadMarketParamsConfigFile UnmarshalParams (market_params_path homePath));
      do _ <- dispute_check rpcEndpoints;
      do grpcEndpoint <- lift (match grpcEndpoints with
                               | e :: _ => Ok e
                               | [] => panic_with "runtime error: index out of range [0] with length 0"
                               end);
      do _ <- go_start (PriceFeed daemonFlags grpcEndpoint marketParamsConfig exchangeQueryConfig);
      do daemonHealthMonitor <- lift (RegisterDaemonWithHealthMonitor daemonHealthMonitor PricefeedDaemonModuleName maxDaemonUnhealthyDuration);
      do _ <- go_start (Reporter daemonFlags (ToString (appOpts "minimum-gas-prices")) grpcEndpoints marketParamsConfig queries
                          chainId rpcEndpoints);
      do _ <- go_start (TokenBridgeFeed chainId);
      do _ <- go_start MetricsDaemon;
      ret (mkApp true true (Some daemonHealthMonitor) true toRemove)
  end.

(** What [Shutdown] does, in order. *)
Inductive shutdown_action :=
  | StopPriceFeed | StopTokenBridge | StopReporter | StopHealthMonitor
  | WaitGoroutines (limit : Duration) | RemoveAll (path : string).

Definition Shutdown (a : App) : list shutdown_action :=
  (if app_PriceFeedClient a then [StopPriceFeed] else []) ++
  (if app_TokenBridgeClient a then [StopTokenBridge] else []) ++
  (if app_ReporterClient a then [StopReporter] else []) ++
  (match app_DaemonHealthMonitor a with Some _ => [StopHealthMonitor] | None => [] end) ++
  [WaitGoroutines (45 * Second)] ++
  (if negb (bool_decide (app_tempDir a = "")) && negb (bool_decide (app_tempDir a = DefaultNodeHome)) then [RemoveAll (app_tempDir a)] else []).

(** ** Reasoning on the steps *)
Lemma on_world_Ok {A} (m : act W A) s a s' :
  on_world m s = (Ok a, s') <-> m s.1 = (Ok a, s'.1) /\ s'.2 = s.2.
Proof.
  destruct s as [w l], s' as [w' l']. cbn. destruct (m w) as [r w1]. cbn. split; [intros E; by simplify_eq|intros [E ->]; by simplify_eq].
Qed.

Lemma go_start_Ok t s u s' : go_start t s = (Ok u, s') <-> s' = (s.1, s.2 ++ [t]).
Proof. destruct s as [w l], u. cbn. split; [intros E; by simplify_eq|by intros ->]. Qed.

Lemma lift_Ok {A} (r : go A) (s : W * list task) a s' : lift r s = (Ok a, s') <-> r = Ok a /\ s' = s.
Proof. unfold lift. split; [intros E; by simplify_eq|by intros [-> ->]]. Qed.

(** The tasks of the parts that send prices or reports. *)
Definition reports_prices (t : task) : bool :=
  match t with PriceFeed _ _ _ _ | Reporter _ _ _ _ _ _ _ | TokenBridgeFeed _ => true | _ => false end.
Definition quiet (l : list task) : Prop := Forall (fun t => reports_prices t = false) l.

(** A step that starts nothing that reports, and fails only by a panic. *)
Definition silent {A} (m : app_act A) : Prop := forall s r s', m s = (r, s') -> quiet s.2 -> quiet s'.2 /\ forall e, r <> Err e.
(** A step that either succeeds or ends in a panic with nothing started that reports. *)
Definition guarded {A} (m : app_act A) : Prop :=
  forall s r s', m s = (r, s') -> quiet s.2 -> (exists a, r = Ok a) \/ (exists p, r = Panic p) /\ quiet s'.2.

Lemma guarded_bind {A B} (m : app_act A) (k : A -> app_act B) : silent m -> (forall a, guarded (k a)) -> guarded (bind m k).
Proof.
  intros Hm Hk s r s' E Hq. unfold bind in E. destruct (m s) as [[a|e|p] s1] eqn:Em; apply Hm in Em as [Hq1 He]; try done.
  - by eapply Hk.
  - by destruct (He e).
  - injection E as <- <-. right. split; [by eexists|done].
Qed.

Lemma silent_bind {A B} (m : app_act A) (k : A -> app_act B) : silent m -> (forall a, silent (k a)) -> silent (bind m k).
Proof.
  intros Hm Hk s r s' E Hq. unfold bind in E. destruct (m s) as [[a|e|p] s1] eqn:Em; apply Hm in Em as [Hq1 He]; try done.
  - by eapply Hk.
  - by destruct (He e).
  - by injection E as <- <-.
Qed.

Lemma silent_on_world {A} (m : act W A) : (forall w e, (m w).1 <> Err e) -> silent (on_world m).
Proof.
  intros Hm [w l] r s' E Hq. cbn in E. pose proof (Hm w) as He. destruct (m w) as [r1 w1]. injection E as <- <-. done.
Qed.

Lemma silent_lift {A} (r : go A) : (forall e, r <> Err e) -> silent (lift r).
Proof. intros Hr s r' s' E Hq. unfold lift in E. injection E as <- <-. done. Qed.

Lemma silent_go t : reports_prices t = false -> silent (go_start t).
Proof.
  intros Ht [w l] r s' E Hq. cbn in E. injection E as <- <-. split; [|done]. cbn. apply Forall_app. split; [done|].
  by apply Forall_singleton.
Qed.

Lemma silent_ret {A} (a : A) : silent (ret a).
Proof. intros s r s' E Hq. unfold ret in E. injection E as <- <-. done. Qed.

Lemma guarded_lift {A} (r : go A) : (forall e, r <> Err e) -> guarded (lift r).
Proof.
  intros Hr s r' s' E Hq. unfold lift in E. injection E as <- <-. destruct r as [a|e|p]; [left; by eexists|by destruct (Hr e)|].
  right. split; [by eexists|done].
Qed.

Lemma telemetry_silent home port : silent (RegisterTelemetryIfEnabled home port).
Proof using Type.
  unfold RegisterTelemetryIfEnabled. apply silent_bind.
  { apply silent_on_world. intros w e. by destruct (ReadFile _ w). }
  intros [err|file]; [apply silent_lift; by destruct (IsNotExist err)|].
  destruct (LoadBytes file) as [err|tree]; [by apply silent_lift|]. destruct (has_telemetry tree); [|apply silent_ret].
  destruct (UnmarshalTelemetry file) as [err|cfg]; [by apply silent_lift|]. destruct (tel_Enabled cfg); [|apply silent_ret].
  destruct (telemetry_New cfg); [by apply silent_lift|]. destruct (0 <? _); [by apply silent_go|apply silent_ret].
Qed.

Lemma dispute_silent rpcEndpoints : silent (dispute_check rpcEndpoints).
Proof using Type.
  unfold dispute_check. apply silent_bind.
  { apply silent_on_world. intros w e. destruct (Enabled _); [|done]. by destruct (ask_nodes w). }
  intros outcomes. apply silent_bind.
  - apply silent_lift. intros e. unfold start_monitor. cbv zeta. destruct (Enabled _); [|done].
    destruct (checkDisputes _ _) as [[]|err|p] eqn:Ec; [done| |done].
    apply checkDisputes_Panic in Ec as (id & Hid & _); done.
  - intros [cfg|]; [by apply silent_go|apply silent_ret].
Qed.

(** What the SDK documents of these options: they hold nothing but the home directory. The cast of nil is the empty text. *)
Hypothesis options_home : forall home key, key <> "home" -> NewAppOptionsWithFlagHome home key = None.
Hypothesis cast_nil : ToString (V := V) None = "".

Lemma daemon_flags_default home : GetDaemonFlagValuesFromOptions (NewAppOptionsWithFlagHome home) = GetDefaultDaemonFlags.
Proof using options_home. unfold GetDaemonFlagValuesFromOptions, option_or. by rewrite !options_home. Qed.

(** The monitor of the health of the price feed: the grace period of a minute, a check every five seconds, five minutes without
    success, and then a panic. *)
Definition app_monitor : HealthMonitor :=
  with_checkers (NewHealthMonitor (60 * Second) (5 * Second) true)
    {[ "pricefeed-daemon" := mkRunning (StartNewHealthChecker (5 * Second) (300 * Second) (60 * Second)) Waiting ]} false false.

Lemma registered :
  RegisterDaemonWithHealthMonitor (NewHealthMonitor DaemonStartupGracePeriod HealthCheckPollFrequency true) PricefeedDaemonModuleName (300 * Second)
  = Ok app_monitor.
Proof using Type.
  unfold RegisterDaemonWithHealthMonitor, RegisterServiceWithCallback, RegisterHealthChecker.
  cbn [NewHealthMonitor mon_disabled mon_stopped serviceToHealthChecker]. rewrite lookup_empty. reflexivity.
Qed.

Lemma NewApp_guarded chainId grpcEndpoints rpcEndpoints home port : guarded (NewApp chainId grpcEndpoints rpcEndpoints home port).
Proof using options_home.
  unfold NewApp. apply guarded_bind; [apply telemetry_silent|]. intros _.
  apply guarded_bind; [apply silent_on_world; intros w e; by destruct (MkdirTemp w)|]. intros made.
  destruct (match made with inl _ => _ | inr dir => (dir, dir) end) as [tempDir toRemove]. cbv zeta. rewrite daemon_flags_default.
  apply guarded_bind.
  { apply silent_on_world. intros w e. unfold load_queries. destruct (ReadFile _ w). by destruct (BuildQueryEndpoints _ _ _ _ _). }
  intros [err|queries]; [by apply guarded_lift|].
  apply guarded_bind; [by apply silent_go|]. intros _.
  apply guarded_bind; [apply silent_on_world; apply read_exchanges_no_error|]. intros exchanges.
  apply guarded_bind; [apply silent_on_world; apply read_params_no_error|]. intros markets.
  apply guarded_bind; [apply dispute_silent|]. intros _.
  apply guarded_bind; [apply silent_lift; by destruct grpcEndpoints|]. intros e [w l] r s' E _.
  cbn [GetDefaultDaemonFlags Shared PanicOnDaemonFailureEnabled MaxDaemonUnhealthySeconds] in E.
  change (5 * 60 * Second) with (300 * Second) in E. rewrite registered in E. cbv [bind lift go_start ret] in E. injection E as <- _. left. by eexists.
Qed.

(** The disputes that are found while the daemon starts. *)
Definition start_disputes (rpcEndpoints : list string) (w : W) : list (option (go (list Z))) * W :=
  if Enabled (LoadConfigFromEnv Getenv rpcEndpoints) then ask_nodes w else ([], w).
Definition dispute_tasks (rpcEndpoints : list string) : list task :=
  let cfg := LoadConfigFromEnv Getenv rpcEndpoints in if Enabled cfg then [DisputeMonitor cfg] else [].

Lemma dispute_check_Ok rpcEndpoints w l u w' l' :
  dispute_check rpcEndpoints (w, l) = (Ok u, (w', l')) <->
  l' = l ++ dispute_tasks rpcEndpoints /\ w' = (start_disputes rpcEndpoints w).2 /\
  (Enabled (LoadConfigFromEnv Getenv rpcEndpoints) = true -> harmless (LoadConfigFromEnv Getenv rpcEndpoints) (start_disputes rpcEndpoints w).1).
Proof using Type.
  unfold dispute_check, start_disputes, dispute_tasks, start_monitor. cbv zeta. rewrite New_of_env. destruct u.
  set (cfg := LoadConfigFromEnv Getenv rpcEndpoints). unfold bind at 1, on_world. destruct (Enabled cfg).
  - destruct (ask_nodes w) as [outcomes w1]. cbn [fst snd]. unfold bind, lift.
    destruct (checkDisputes cfg outcomes) as [[]|e|p] eqn:Ec; cbn.
    + split; [intros E; injection E as <- <-|intros (-> & -> & _); done]. split_and!; [done..|]. intros _. by apply checkDisputes_Ok.
    + split; [done|]. intros (_ & _ & Hh). pose proof (proj2 (checkDisputes_Ok cfg outcomes) (Hh eq_refl)). congruence.
    + split; [done|]. intros (_ & _ & Hh). pose proof (proj2 (checkDisputes_Ok cfg outcomes) (Hh eq_refl)). congruence.
  - cbn. rewrite app_nil_r. split; [intros E; injection E as <- <-; done|by intros (-> & -> & _)].
Qed.

Lemma cleanup_spec a path :
  RemoveAll path ∈ (if negb (bool_decide (app_tempDir a = "")) && negb (bool_decide (app_tempDir a = DefaultNodeHome))
                    then [RemoveAll (app_tempDir a)] else []) <->
  path = app_tempDir a /\ path <> "" /\ path <> DefaultNodeHome.
Proof using Type.
  destruct (decide (app_tempDir a = "")) as [E|E]; [rewrite bool_decide_true by done|rewrite bool_decide_false by done; cbn [negb andb]].
  { split; [by intros ?%elem_of_nil|]. intros (-> & H & _). done. }
  destruct (decide (app_tempDir a = DefaultNodeHome)) as [D|D];
    [rewrite bool_decide_true by done|rewrite bool_decide_false by done]; cbn [negb].
  { split; [by intros ?%elem_of_nil|]. intros (-> & _ & H). done. }
  rewrite list_elem_of_singleton. split; [by intros [= ->]|by intros (-> & _)].
Qed.

(** The steps of a successful start. *)
Lemma NewApp_Ok chainId grpcEndpoints rpcEndpoints home port w a w' l :
    NewApp chainId grpcEndpoints rpcEndpoints home port (w, []) = (Ok a, (w', l)) <->
    exists w0 telemetry made w1 queries w2 exchanges w3 markets w4 e others,
      RegisterTelemetryIfEnabled home port (w, []) = (Ok tt, (w0, telemetry)) /\
      MkdirTemp w0 = (made, w1) /\
      load_queries UnmarshalQueries Dial Sprint_value Getenv home w1 = (Ok (inr queries), w2) /\
      ReadExchangeQueryConfigFile UnmarshalExchanges (exchange_config_path home) w2 = (Ok exchanges, w3) /\
      ReadMarketParamsConfigFile UnmarshalParams (market_params_path home) w3 = (Ok markets, w4) /\
      (Enabled (LoadConfigFromEnv Getenv rpcEndpoints) = true ->
        harmless (LoadConfigFromEnv Getenv rpcEndpoints) (start_disputes rpcEndpoints w4).1) /\
      w' = (start_disputes rpcEndpoints w4).2 /\
      grpcEndpoints = e :: others /\
      l = telemetry ++ [DaemonServer "/tmp/daemons.sock"] ++ dispute_tasks rpcEndpoints ++
          [PriceFeed GetDefaultDaemonFlags e markets exchanges;
           Reporter GetDefaultDaemonFlags "" grpcEndpoints markets queries chainId rpcEndpoints; TokenBridgeFeed chainId; MetricsDaemon] /\
      a = mkApp true true (Some app_monitor) true (match made with inl _ => "" | inr dir => dir end).
Proof using All.
  unfold NewApp. split.
  - intros H. apply bind_Ok in H as ([] & [w0 telemetry] & Htel & H).
    apply bind_Ok in H as (made & [w1 l1] & [Hm Hl1]%on_world_Ok & H). cbn in Hm, Hl1. subst l1.
    destruct (MkdirTemp w0) as [made' w1'] eqn:Emk. injection Hm as -> ->.
    destruct (match made with inl _ => _ | inr dir => (dir, dir) end) as [tempDir toRemove] eqn:Edir. cbv zeta in H.
    rewrite daemon_flags_default, options_home, cast_nil in H by done.
    apply bind_Ok in H as ([err|queries] & [w2 l2] & [Hq Hl2]%on_world_Ok & H); [done|]. cbn in Hq, Hl2. subst l2.
    apply bind_Ok in H as ([] & [w2' l3] & E%go_start_Ok & H). injection E as -> ->.
    apply bind_Ok in H as (exchanges & [w3 l4] & [Hx Hl4]%on_world_Ok & H). cbn in Hx, Hl4. subst l4.
    apply bind_Ok in H as (markets & [w4 l5] & [Hp Hl5]%on_world_Ok & H). cbn in Hp, Hl5. subst l5.
    apply bind_Ok in H as (u & [w5 l6] & (-> & -> & Hd)%dispute_check_Ok & H).
    apply bind_Ok in H as (e & s7 & [He ->]%lift_Ok & H). destruct grpcEndpoints as [|e' others]; [done|]. injection He as ->.
    cbn [GetDefaultDaemonFlags Shared PanicOnDaemonFailureEnabled MaxDaemonUnhealthySeconds SocketAddress] in H.
    change (5 * 60 * Second) with (300 * Second) in H. rewrite registered in H. cbv [bind lift go_start ret] in H.
    injection H as <- <- <-. exists w0, telemetry, made, w1, queries, w2, exchanges, w3, markets, w4, e, others.
    split_and!; try done.
    + by rewrite <- !app_assoc.
    + destruct made; by injection Edir as <- <-.
  - intros (w0 & telemetry & made & w1 & queries & w2 & exchanges & w3 & markets & w4 & e & others & Htel & Hmk & Hq & Hx & Hp & Hd & -> & -> & -> & ->).
    apply bind_Ok. exists tt, (w0, telemetry). split; [done|].
    apply bind_Ok. exists made, (w1, telemetry). split; [apply on_world_Ok; cbn; by rewrite Hmk|].
    destruct (match made with inl _ => _ | inr dir => (dir, dir) end) as [tempDir toRemove] eqn:Edir. cbv zeta.
    rewrite daemon_flags_default, options_home, cast_nil by done.
    apply bind_Ok. exists (inr queries), (w2, telemetry). split; [by apply on_world_Ok|].
    apply bind_Ok. eexists tt, _. split; [by apply go_start_Ok|]. cbn [fst snd].
    apply bind_Ok. eexists exchanges, (w3, _). split; [by apply on_world_Ok|].
    apply bind_Ok. eexists markets, (w4, _). split; [by apply on_world_Ok|].
    apply bind_Ok. eexists tt, (_, _). split; [by apply dispute_check_Ok|].
    apply bind_Ok. eexists e, _. split; [by apply lift_Ok|].
    cbn [GetDefaultDaemonFlags Shared PanicOnDaemonFailureEnabled MaxDaemonUnhealthySeconds SocketAddress].
    change (5 * 60 * Second) with (300 * Second). rewrite registered. cbv [bind lift go_start ret].
    cbn [fst snd]. rewrite <- !app_assoc. destruct made; injection Edir as <- <-; reflexivity.
Qed.

(** C38: The start of the daemon. It succeeds exactly when telemetry can be registered, the custom queries can be built, the two
    files of the configuration can be read, a gRPC endpoint is given and, where the dispute monitor is enabled, no
    node reports an open dispute that may not be ignored. It then has started, in this order: the server of the
    daemons, the dispute monitor, the price feed (of the first endpoint), the reporter, the token bridge and the metrics, the first and
    the others with the default flags whatever the command was given, no minimum gas price, and the health monitor that panics
    when the price feed is not well for five minutes; these are what the shutdown stops, before it waits and removes the temporary directory.
    If it does not succeed it panics, and nothing was started that sends prices or reports. *)
Theorem NewApp_correct chainId grpcEndpoints rpcEndpoints home port w :
  (forall a w' l,
    NewApp chainId grpcEndpoints rpcEndpoints home port (w, []) = (Ok a, (w', l)) <->
    exists w0 telemetry made w1 queries w2 exchanges w3 markets w4 e others,
      RegisterTelemetryIfEnabled home port (w, []) = (Ok tt, (w0, telemetry)) /\
      MkdirTemp w0 = (made, w1) /\
      load_queries UnmarshalQueries Dial Sprint_value Getenv home w1 = (Ok (inr queries), w2) /\
      ReadExchangeQueryConfigFile UnmarshalExchanges (exchange_config_path home) w2 = (Ok exchanges, w3) /\
      ReadMarketParamsConfigFile UnmarshalParams (market_params_path home) w3 = (Ok markets, w4) /\
      (Enabled (LoadConfigFromEnv Getenv rpcEndpoints) = true ->
        harmless (LoadConfigFromEnv Getenv rpcEndpoints) (start_disputes rpcEndpoints w4).1) /\
      w' = (start_disputes rpcEndpoints w4).2 /\
      grpcEndpoints = e :: others /\
      l = telemetry ++ [DaemonServer "/tmp/daemons.sock"] ++ dispute_tasks rpcEndpoints ++
          [PriceFeed GetDefaultDaemonFlags e markets exchanges;
           Reporter GetDefaultDaemonFlags "" grpcEndpoints markets queries chainId rpcEndpoints; TokenBridgeFeed chainId; MetricsDaemon] /\
      a = mkApp true true (Some app_monitor) true (match made with inl _ => "" | inr dir => dir end)) /\
  (forall a w' l, NewApp chainId grpcEndpoints rpcEndpoints home port (w, []) = (Ok a, (w', l)) ->
    exists cleanup, Shutdown a = [StopPriceFeed; StopTokenBridge; StopReporter; StopHealthMonitor; WaitGoroutines (45 * Second)] ++ cleanup /\
      (forall path, RemoveAll path ∈ cleanup <-> path = app_tempDir a /\ path <> "" /\ path <> DefaultNodeHome)) /\
  (forall r w' l, NewApp chainId grpcEndpoints rpcEndpoints home port (w, []) = (r, (w', l)) ->
    (exists a, r = Ok a) \/ (exists p, r = Panic p) /\ Forall (fun t => reports_prices t = false) l).
Proof using All.
  split; [intros a w' l; apply NewApp_Ok|]. split.
  - intros a w' l (w0 & telemetry & made & w1 & queries & w2 & exchanges & w3 & markets & w4 & e & others & H)%NewApp_Ok.
    destruct_and! H. subst a. eexists. split; [cbv [Shutdown app_PriceFeedClient app_TokenBridgeClient app_ReporterClient
      app_DaemonHealthMonitor app]; reflexivity|]. intros path. apply cleanup_spec.
  - intros r w' l E. by apply (NewApp_guarded _ _ _ _ _ _ _ _ E (Forall_nil_2 _)).
Qed.
End App.

(** ** An example

    A home directory with the three files and without app.toml; the dispute monitor is enabled and the node reports a dispute that
    may be ignored. *)
#[local] Instance ex_casts : Casts string := {
  ToStringE v := inr v;
  ToBoolE v := inr (bool_decide (v = "true"));
  ToUint32E v := inl (ErrNew "unable to cast");
  ToString v := default "" v
}.
Definition ex_home_options (home key : string) : option string := if bool_decide (key = "home") then Some home else None.
Lemma ex_options_home home key : key <> "home" -> ex_home_options home key = None.
Proof. intros H. unfold ex_home_options. by rewrite bool_decide_false. Qed.

#[local] Instance ex_home_fs : FileSystem unit := {
  file _ p := Some p;
  ReadFile p w := (if bool_decide (p = "/home/config/app.toml") then inl (ErrNew "missing") else inr p, w);
  WriteFile _ _ w := (Some (ErrNew "read-only"), w);
  Remove _ w := w;
  Rename _ _ w := (Some (ErrNew "read-only"), w);
  Stat _ w := (None, w);
  MkdirAll _ w := (None, w)
}.
Definition ex_env (name : string) : string :=
  if bool_decide (name = "DISPUTE_MONITOR_ENABLED") then "true" else if bool_decide (name = "DISPUTE_IGNORE_IDS") then "7" else "".
Definition ex_ask (ids : list Z) (w : unit) : list (option (go (list Z))) * unit := ([Some (Ok ids); Some (Err (ErrNew "down"))], w).

Definition ex_start (ids : list Z) : go App * (unit * list task) :=
  NewApp (V := string) (RO := canonical_range) (fun _ => inr [mkExchangeQueryConfig "Binance" 1000 1000 1]) (fun _ => inr [])
    (fun _ => inr sample_config) (fun _ => true) (fun _ => inl (ErrNew "unused")) (fun _ => false) (fun _ => inl (ErrNew "unused"))
    (fun _ => None) (fun w => (inr "/tmp/tellorapp1", w)) "/root/.layer" ex_home_options (fun _ => None) (fun _ => "") ex_env (ex_ask ids)
    (fun _ => "") "layer-1" ["g1"; "g2"] ["r1"] "/home" 0 (tt, []).

Definition starts (l : list task) : list string :=
  (fun t => match t with
            | PrometheusServer _ => "prometheus" | DaemonServer s => "server " +:+ s | DisputeMonitor _ => "disputes"
            | PriceFeed _ e _ _ => "prices " +:+ e | Reporter _ _ _ _ _ c _ => "reporter " +:+ c
            | TokenBridgeFeed _ => "bridge" | MetricsDaemon => "metrics"
            end) <$> l.

Definition is_panic (r : go App) : bool := match r with Panic _ => true | _ => false end.
Definition app_dir (r : go App) : option string := match r with Ok a => Some (app_tempDir a) | _ => None end.

Example ex_started : starts (ex_start [7]).2.2 = ["server /tmp/daemons.sock"; "disputes"; "prices g1"; "reporter layer-1"; "bridge"; "metrics"].
Proof. vm_compute. reflexivity. Qed.

(** With a dispute that may not be ignored the daemon panics, and nothing was started that reports; without one it runs, and
    its shutdown removes the directory that was made. *)
Lemma NewApp_correct_witness :
  ((exists p, (ex_start [7; 9]).1 = Panic p) /\ Forall (fun t => reports_prices t = false) (ex_start [7; 9]).2.2) /\
  exists a, (ex_start [7]).1 = Ok a /\ RemoveAll "/tmp/tellorapp1" ∈ Shutdown "/root/.layer" a.
Proof.
  pose proof (fun ask => NewApp_correct (V := string) (RO := canonical_range) (fun _ => inr [mkExchangeQueryConfig "Binance" 1000 1000 1])
    (fun _ => inr []) (fun _ => inr sample_config) (fun _ => true) (fun _ => inl (ErrNew "unused")) (fun _ => false)
    (fun _ => inl (ErrNew "unused")) (fun _ => None) (fun w => (inr "/tmp/tellorapp1", w)) "/root/.layer" ex_home_options
    (fun _ => None) (fun _ => "") ex_env ask (fun _ => "") ex_options_home eq_refl "layer-1" ["g1"; "g2"] ["r1"] "/home" 0 tt) as H.
  split.
  - destruct (H (ex_ask [7; 9])) as (_ & _ & H3). destruct (ex_start [7; 9]) as [r [w l]] eqn:E.
    destruct (H3 _ _ _ E) as [[a ->]|Hp]; [|exact Hp]. apply (f_equal (fun x => is_panic x.1)) in E. vm_compute in E. discriminate E.
  - destruct (H (ex_ask [7])) as (_ & H2 & _). destruct (ex_start [7]) as [r [w l]] eqn:E.
    pose proof (f_equal (fun x => app_dir x.1) E) as Ed. vm_compute in Ed. destruct r as [a|err|p]; [|discriminate Ed..].
    exists a. split; [reflexivity|]. destruct (H2 _ _ _ E) as (cleanup & -> & Hc). apply elem_of_app. right. apply Hc.
    change (Some "/tmp/tellorapp1" = Some (app_tempDir a)) in Ed. injection Ed as Ed. rewrite <- Ed. split; [reflexivity|]. split; discriminate.
Defined.
