(* ===== verification/ReporterStart.v ===== *)
(** * reporter/client/client.go: [Start]

    The start of the reporter as a whole: the gRPC connection (Endpoints), the flags (ReporterConfig), the RPC client, the
    keyring (ReporterKeyring), and then the tasks (ReporterTasks). The two kinds of clients, the keyring and the signer are on one world. *)
From S2P Require Import TokenBridge.
From S2P Require Import Prelude Text Hex LegacyDecimal PriceGuard RemoteSigner ReporterConfig ReporterKeyring Endpoints.
Local Open Scope Z_scope.

Section Start.
Context {W GConn RClient KR Record_ PubKey Creds SConn Rec D : Type}.
Context `{!LocalKeyring W KR Record_ PubKey} `{!SignerLibs W Creds SConn Rec} `{!LegacyDec D}.
(** A gRPC connection and an RPC client of an endpoint, checksummed addresses, and the file of the password. *)
Variable NewTcpConnection : W -> string -> W * (go_error + GConn).
Variable rpchttp_New : W -> string -> W * (go_error + RClient).
Variable IsHexAddress : string -> bool.
Variable HexToAddress_Hex : string -> string.
Variable ReadFile : string -> go_error + string.

(** What the client holds when the tasks start. *)
Record started_client := mkStarted {
  s_grpc : St (W := W) (Client := GConn);
  s_rpc : St (W := W) (Client := RClient);
  s_config : ClientConfig;
  s_signer : signer_setup (KR := KR) (Conn := SConn)
}.

Definition with_chainId (chainId : string) (k : keyring_flags) : keyring_flags :=
  mkKeyringFlags (k_keyName k) (k_backend k) (k_homeDir k) chainId (k_passFile k) (remote_signer_addr k) (remote_ca_cert k)
    (remote_client_cert k) (remote_client_key k).

(** The RPC manager with the client of its first endpoint. *)
Definition start_rpc (rpcEndpoints : list string) (w : W) : W * go (St (W := W) (Client := RClient)) :=
  match newRPCEndpointManagerWithFactory rpcEndpoints with
  | Err err => (w, Err (wrapf "failed to initialize RPC endpoint manager" err))
  | Panic p => (w, Panic p)
  | Ok rpcManager =>
      match currentClient rpchttp_New (mkSt w (Some rpcManager) None []) with
      | (st, Ok (_, inr rpcClientVal)) => (world st, Ok (setClient rpcClientVal st))
      | (st, Ok (_, inl err)) | (st, Err err) => (world st, Err (wrapf "failed to create RPC client" err))
      | (st, Panic p) => (world st, Panic p)
      end
  end.

(** What is done after the connection to [g]. *)
Definition start_connected (f : Flags) (k : keyring_flags) (chainId : string) (rpcEndpoints : list string)
    (g : St (W := W) (Client := GConn)) : W * go started_client :=
  match Start_config IsHexAddress HexToAddress_Hex f with
  | Err err => (world g, Err err)
  | Panic p => (world g, Panic p)
  | Ok config =>
      match start_rpc rpcEndpoints (world g) with
      | (w, Err err) => (w, Err err)
      | (w, Panic p) => (w, Panic p)
      | (w, Ok rpc) =>
          match setupKeyring ReadFile (with_chainId chainId k) (mkSignerSt w []) with
          | (st, Ok signer) => (sg_world st, Ok (mkStarted g rpc config signer))
          | (st, Err err) => (sg_world st, Err err)
          | (st, Panic p) => (sg_world st, Panic p)
          end
      end
  end.

(** [Start] up to the tasks; with the gRPC state, which is kept when a later step fails. *)
Definition Start (f : Flags) (k : keyring_flags) (chainId : string) (grpcEndpoints rpcEndpoints : list string) (w : W) :
    option (St (W := W) (Client := GConn)) * (W * go started_client) :=
  match newGRPCEndpointManagerWithFactory grpcEndpoints with
  | Err err => (None, (w, Err (wrapf "failed to initialize gRPC endpoint manager" err)))
  | Panic p => (None, (w, Panic p))
  | Ok grpcManager =>
      match connectInitialGRPCEndpoint NewTcpConnection (mkSt w (Some grpcManager) None []) with
      | (g, Err err) => (Some g, (world g, Err err))
      | (g, Panic p) => (Some g, (world g, Panic p))
      | (g, Ok _) => (Some g, start_connected f k chainId rpcEndpoints g)
      end
  end.

(** ** Its parts *)
Lemma start_rpc_spec rpcEndpoints w w' (r : go (St (W := W) (Client := RClient))) :
  start_rpc rpcEndpoints w = (w', r) ->
  match r with
  | Ok rpc => exists e others c, rpcEndpoints = e :: others /\ rpchttp_New w e = (w', inr c) /\ manager rpc = Some (mkManager rpcEndpoints 0) /\ client rpc = Some c
  | Err _ => rpcEndpoints = [] \/ exists e others err, rpcEndpoints = e :: others /\ rpchttp_New w e = (w', inl err)
  | Panic _ => False
  end.
Proof using Type.
  unfold start_rpc, newRPCEndpointManagerWithFactory, newEndpointManager. destruct rpcEndpoints as [|e others]; [intros; simplify_eq; by left|].
  unfold currentClient, clientOf, currentEndpoint, index, create. cbn. destruct (rpchttp_New w e) as [w1 [err|c]] eqn:E; intros; simplify_eq; cbn.
  - right. by exists e, others, err.
  - by exists e, others, c.
Qed.

Lemma start_connected_Ok f k chainId rpcEndpoints g w' x :
  start_connected f k chainId rpcEndpoints g = (w', Ok x) <->
  exists w1 rpc st signer,
    config_ok IsHexAddress HexToAddress_Hex f /\ start_rpc rpcEndpoints (world g) = (w1, Ok rpc) /\
    setupKeyring ReadFile (with_chainId chainId k) (mkSignerSt w1 []) = (st, Ok signer) /\
    w' = sg_world st /\ x = mkStarted g rpc (config_of f) signer.
Proof using Type.
  unfold start_connected. split.
  - destruct (Start_config _ _ f) as [config|err|p] eqn:Ec; [|done..]. apply Start_config_Ok in Ec as [Hc ->].
    destruct (start_rpc _ _) as [w1 [rpc|err|p]]; [|done..].
    destruct (setupKeyring _ _ _) as [st [signer|err|p]] eqn:Es; [|done..]. intros [= <- <-]. by exists w1, rpc, st, signer.
  - intros (w1 & rpc & st & signer & Hc & -> & Es & -> & ->).
    assert (Start_config IsHexAddress HexToAddress_Hex f = Ok (config_of f)) as -> by (by apply Start_config_Ok). by rewrite Es.
Qed.

Lemma start_connected_no_panic f k chainId rpcEndpoints g w' p : start_connected f k chainId rpcEndpoints g <> (w', Panic p).
Proof using Type.
  unfold start_connected. destruct (Start_config _ _ f) as [config|err|q] eqn:Ec; [|done|by apply Start_config_no_panic in Ec].
  destruct (start_rpc _ _) as [w1 r] eqn:Er. pose proof (start_rpc_spec _ _ _ _ Er) as Hr. destruct r as [rpc|err|q]; [|done..].
  destruct (setupKeyring _ _ _) as [st s] eqn:Es. pose proof (setupKeyring_correct _ _ _ _ _ Es) as Hs. by destruct s.
Qed.

(** The connection that [Start] makes, by what Endpoints shows of connections. *)
Lemma connected grpcEndpoints m w g r :
  newGRPCEndpointManagerWithFactory grpcEndpoints = Ok m ->
  connectInitialGRPCEndpoint NewTcpConnection (mkSt w (Some m) None []) = (g, r) ->
  match r with
  | Ok _ => exists conn, client g = Some conn /\ omap created_of (events g) ≡ₚ omap closed_of (events g) ++ [conn]
  | Err _ => omap created_of (events g) ≡ₚ omap closed_of (events g)
  | Panic _ => False
  end.
Proof using Type.
  intros Hm E. pose proof (grpc_connections_accounted NewTcpConnection (fun w _ => w) (fun _ => false) (fun _ => Unknown)
    (fun w _ => (w, inr "")) "" grpcEndpoints w m g r Hm E) as H. destruct r as [u|err|p]; [|done..]. by apply (H [] g []).
Qed.

(** ** The start of the reporter

    It never panics. It succeeds exactly when a gRPC connection can be made, the flags are acceptable, the first RPC endpoint has a client and
    the keyring can be set up, in this order; the tasks then have the connection, the only one that is open, the RPC client
    of the first endpoint, the configuration of the flags and the account of the key. A start that
    fails leaves at most one connection open: none if it could not connect. *)
Theorem Start_correct f k chainId grpcEndpoints rpcEndpoints w g w' (r : go started_client) :
  Start f k chainId grpcEndpoints rpcEndpoints w = (g, (w', r)) ->
  match r with
  | Ok x =>
      g = Some (s_grpc x) /\ config_ok IsHexAddress HexToAddress_Hex f /\ s_config x = config_of f /\
      (exists conn, client (s_grpc x) = Some conn /\
        omap created_of (events (s_grpc x)) ≡ₚ omap closed_of (events (s_grpc x)) ++ [conn]) /\
      (exists e others c, rpcEndpoints = e :: others /\ client (s_rpc x) = Some c /\ manager (s_rpc x) = Some (mkManager rpcEndpoints 0)) /\
      fromName (s_signer x) = k_keyName k /\
      match the_keyring (s_signer x) with
      | Remote kr => remote_signer_addr k <> "" /\ useSignTx kr = true /\ (chainId <> "" -> ChainID (s_signer x) <> "")
      | Local _ => remote_signer_addr k = "" /\ ChainID (s_signer x) = chainId
      end
  | Err err =>
      match g with
      | None => grpcEndpoints = []
      | Some g => omap created_of (events g) ≡ₚ omap closed_of (events g) \/
          exists conn, client g = Some conn /\ omap created_of (events g) ≡ₚ omap closed_of (events g) ++ [conn]
      end
  | Panic _ => False
  end.
Proof using Type.
  unfold Start. destruct (newGRPCEndpointManagerWithFactory grpcEndpoints) as [m|err|p] eqn:Hm; [|by destruct grpcEndpoints; intros; simplify_eq..].
  destruct (connectInitialGRPCEndpoint _ _) as [g0 r0] eqn:Eg. pose proof (connected _ _ _ _ _ Hm Eg) as Hc.
  destruct r0 as [u|err|p]; [|intros; simplify_eq; by left|done]. intros [= <- E]. destruct r as [x|err|p]; [|by right|by apply start_connected_no_panic in E].
  apply start_connected_Ok in E as (w1 & rpc & st & signer & Hf & Hr & Hs & -> & ->). cbn.
  pose proof (start_rpc_spec _ _ _ _ Hr) as (e & others & c & He & _ & Hmr & Hcr).
  pose proof (setupKeyring_correct _ _ _ _ _ Hs) as [Hn Hk]. split_and!; try done; [by exists e, others, c|].
  destruct (the_keyring signer); [by destruct Hk as (? & _ & _ & ? & _)|]. by destruct Hk as (? & ? & _ & _ & ?).
Qed.
End Start.

(** ** An example: the first gRPC endpoint does not answer, a password file unlocks the account *)
#[local] Existing Instance ReporterKeyring.ex_keyring.
#[local] Existing Instance ReporterKeyring.ex_signer.
#[local] Existing Instance ReporterConfig.ex_dec.

Definition ex_dial (w : nat) (endpoint : string) : nat * (go_error + string) :=
  (S w, if bool_decide (endpoint = "g1") then inl (ErrNew "down") else inr endpoint).
Definition ex_reporter (height_offset : Z) :=
  Start ex_dial ex_dial ex_is_address (fun s => s) (fun _ => inr " secret ")
    (ex_flags (SpecFloat.S754_finite false 1 0) height_offset) ex_keyring_flags "layer-1" ["g1"; "g2"] ["r1"] 0%nat.

Example ex_reporter_starts :
  match ex_reporter 2 with
  | (Some g, (_, Ok x)) => client g = Some "g2" /\ client (s_rpc x) = Some "r1" /\ ChainID (s_signer x) = "layer-1"
  | _ => False
  end /\
  (ex_reporter 0).2.2 = Err (ErrNew "tx-timeout-height-offset must be greater than 0, got: 0").
Proof. vm_compute. repeat split. Qed.
