(* ===== verification/OperatorCommands.v ===== *)
(** * cmd/create-reporter, create-validator, edit-validator and unjail

    Four commands of an operator. Each makes one message, signs it through the remote signer and broadcasts it, unless it is a dry run;
    what cannot be done ends the process. The SDK and the node are arguments, on the world of the signer; broadcasts are recorded with
    the answers of the node. *)
From S2P Require Import TokenBridge.
From S2P Require Import Prelude Text LegacyDecimal RemoteSigner TestMode.
Local Open Scope Z_scope.

(** The flags that the commands share. *)
Record tx_flags := mkTxFlags {
  fl_signerAddr : string; fl_ca : string; fl_cert : string; fl_key : string;
  fl_node : string; fl_chainID : string; fl_gasPrices : string; fl_gas : Z; fl_dryRun : bool
}.

(** The messages. *)
Record description := mkDescription { d_Moniker : string; d_Identity : string; d_Website : string; d_SecurityContact : string; d_Details : string }.
Inductive operator_msg (D : Type) :=
  | MsgCreateReporter (ReporterAddress : string) (CommissionRate : D) (MinTokensRequired : Z) (Moniker : string)
  | MsgCreateValidator (ValidatorAddress : string) (Pubkey : list Z) (Value : Z) (desc : description) (Rate MaxRate MaxChangeRate : D) (MinSelfDelegation : Z)
  | MsgEditValidator (ValidatorAddress : string) (desc : description) (CommissionRate : D) (MinSelfDelegation : option Z)
  | MsgUnjail (ValidatorAddr : string).
Arguments MsgCreateReporter {D}.
Arguments MsgCreateValidator {D}.
Arguments MsgEditValidator {D}.
Arguments MsgUnjail {D}.

Record broadcast_response := mkResponse { res_Code : Z; res_TxHash : string; res_RawLog : string }.

(** What a transaction is made with: see [factory_of]. *)
Record tx_settings := mkSettings {
  set_chainID : string; set_gas : Z; set_gasPrices : string; set_sequence : Z; set_unordered : bool; set_timeout : Duration
}.

Section Commands.
Context {W Creds Conn Rec D Factory Builder : Type} `{!SignerLibs W Creds Conn Rec} `{!LegacyDec D}.
Variable rpchttp_New : string -> option go_error.
Variables AccAddress_String ValAddress_String : list Z -> string.
Variable base64_Decode : string -> go_error + list Z.
Variable NewIntFromString : string -> option Z.
(** [stakingtypes.NewMsgCreateValidator] may refuse its message. *)
Variable NewMsgCreateValidator : operator_msg D -> go_error + operator_msg D.
(** The factory prepared for an account at a node, the transaction it builds, the bytes to sign of it, and the bytes with the signature. *)
Variable Prepare : tx_settings -> string -> list Z -> W -> W * (go_error + Factory).
Variable BuildUnsignedTx : Factory -> operator_msg D -> go_error + Builder.
Variable SignBytes : Factory -> Builder -> go_error + list Z.
Variable TxEncoder : Builder -> list Z * list Z -> go_error + list Z.
Variable BroadcastTx : string -> list Z -> W -> W * (go_error + broadcast_response).

Record cmd_st := mkCmd { cmd_signer : SignerSt (W := W) (Conn := Conn); cmd_broadcasts : list (list Z * (go_error + broadcast_response)) }.
Notation cmd := (act cmd_st).

(** [must]: an error ends the process with the code 1. *)
Definition must {A} (what : string) (r : go_error + A) : cmd A :=
  lift (match r with inr a => Ok a | inl err => Err (ErrWrap ("ERROR (" +:+ what +:+ "): ") err "") end).
Definition must_be (b : bool) (what : string) (err : string) : cmd unit := must what (if b then inr tt else inl (ErrNew err)).

Definition on_signer {A} (f : SignerSt -> SignerSt * go A) : cmd A := fun st =>
  let '(s, r) := f (cmd_signer st) in (r, mkCmd s (cmd_broadcasts st)).
Definition on_node {A} (f : W -> W * A) : cmd A := fun st =>
  let '(w, a) := f (sg_world (cmd_signer st)) in (Ok a, mkCmd (mkSignerSt w (sg_events (cmd_signer st))) (cmd_broadcasts st)).
Definition failing {A} (what : string) (m : cmd A) : cmd A := fun st =>
  match m st with (Err err, st) => (Err (ErrWrap ("ERROR (" +:+ what +:+ "): ") err ""), st) | r => r end.

Definition factory_of (fl : tx_flags) : tx_settings := mkSettings (fl_chainID fl) (fl_gas fl) (fl_gasPrices fl) 0 true (60 * Second).

Definition send (fl : tx_flags) (txBytes : list Z) : cmd broadcast_response :=
  do res <- (fun st => let '(w, r) := BroadcastTx (fl_node fl) txBytes (sg_world (cmd_signer st)) in
               (Ok r, mkCmd (mkSignerSt w (sg_events (cmd_signer st))) (cmd_broadcasts st ++ [(txBytes, r)])));
  must "broadcast tx" res.

(** [defer conn.Close()]: the connection is closed when the function returns and when it panics, not when [must] exits. *)
Definition deferred_close {A} (conn : Conn) (m : cmd A) : cmd A := fun st =>
  match m st with
  | (Err err, st) => (Err err, st)
  | (r, st) => (r, mkCmd (close_conn conn (cmd_signer st)) (cmd_broadcasts st))
  end.

(** The body that the commands share, around the message. *)
Definition run_command (fl : tx_flags) (message : list Z -> cmd (operator_msg D)) : cmd Z :=
  do (kr, fromAddr, conn) <- failing "dial remote signer"
       (on_signer (NewRemoteSignerKeyringTx "reporter" (fl_signerAddr fl) (fl_ca fl) (fl_cert fl) (fl_key fl)));
  deferred_close conn (
    do _ <- must "create rpc client" (match rpchttp_New (fl_node fl) with Some err => inl err | None => inr tt end);
    do msg <- message fromAddr;
    do prepared <- on_node (Prepare (factory_of fl) (fl_node fl) fromAddr);
    do txf <- must "prepare tx factory" prepared;
    do txb <- must "build unsigned tx" (BuildUnsignedTx txf msg);
    do doc <- must "sign tx" (SignBytes txf txb);
    do signature <- failing "sign tx" (on_signer (Sign kr "reporter" doc));
    do txBytes <- must "encode tx" (TxEncoder txb signature);
    if fl_dryRun fl then ret 0
    else do res <- send fl txBytes; ret (if negb (res_Code res =? 0) then 2 else 0)).

Definition LegacyMustNewDecFromStr (s : string) : cmd D :=
  lift (match LegacyNewDecFromStr s with inr d => Ok d | inl err => Panic (PanicMsg (error_text err)) end).

Definition int_flag (what text : string) (s : string) : cmd Z :=
  must what (match NewIntFromString s with Some n => inr n | None => inl (ErrNew (text +:+ quoted s)) end).

(** *** The commands *)
Definition create_reporter (fl : tx_flags) (commRate minTokens moniker : string) : cmd Z :=
  run_command fl (fun fromAddr =>
    do minTok <- int_flag "parse min-tokens-required" "invalid " minTokens;
    do rate <- LegacyMustNewDecFromStr commRate;
    ret (MsgCreateReporter (AccAddress_String fromAddr) rate minTok moniker)).

Definition create_validator (fl : tx_flags) (moniker pubkeyB64 amount commRate commMax commMaxChange minSelf : string) : cmd Z :=
  run_command fl (fun fromAddr =>
    do pkBytes <- must "decode consensus pubkey" (base64_Decode pubkeyB64);
    do _ <- must_be (Z.of_nat (length pkBytes) =? 32) "consensus pubkey length" ("expected 32 bytes, got " +:+ pretty (Z.of_nat (length pkBytes)));
    do amt <- int_flag "parse amount" "invalid amount " amount;
    do _ <- (if amt <? 0 then lift (Panic (PanicMsg "negative coin amount")) else ret tt);
    do minSelfInt <- int_flag "parse min-self-delegation" "invalid " minSelf;
    do rate <- LegacyMustNewDecFromStr commRate;
    do maxRate <- LegacyMustNewDecFromStr commMax;
    do maxChange <- LegacyMustNewDecFromStr commMaxChange;
    must "build MsgCreateValidator" (NewMsgCreateValidator
      (MsgCreateValidator (ValAddress_String fromAddr) pkBytes amt (mkDescription moniker "" "" "" "") rate maxRate maxChange minSelfInt))).

Definition DoNotModifyDesc : string := "[do-not-modify]".
Definition edit_validator (fl : tx_flags) (commRate : string) : cmd Z :=
  run_command fl (fun fromAddr =>
    do newRate <- LegacyMustNewDecFromStr commRate;
    ret (MsgEditValidator (ValAddress_String fromAddr)
           (mkDescription DoNotModifyDesc DoNotModifyDesc DoNotModifyDesc DoNotModifyDesc DoNotModifyDesc) newRate None)).

Definition unjail (fl : tx_flags) : cmd Z := run_command fl (fun fromAddr => ret (MsgUnjail (ValAddress_String fromAddr))).

(** The code of the process: a panic of Go ends it with 2, as a transaction that is not accepted. *)
Definition exit_code (r : go Z) : Z := match r with Ok code => code | Err _ => 1 | Panic _ => 2 end.

(** ** What the commands do *)

(** A message is made without the signer, the node or a broadcast. *)
Definition pure_step {A} (m : cmd A) : Prop := forall st, (m st).2 = st.

Lemma pure_lift {A} (r : go A) : pure_step (lift r).
Proof using Type. done. Qed.
Lemma pure_bind {A B} (m : cmd A) (k : A -> cmd B) : pure_step m -> (forall a, pure_step (k a)) -> pure_step (bind m k).
Proof using Type.
  intros Hm Hk st. unfold bind. specialize (Hm st). destruct (m st) as [[a|e|p] st']; cbn in *; subst; [apply Hk|done..].
Qed.

Definition signed_docs (l : list (signer_event (Conn := Conn))) : list (list Z) :=
  omap (fun e => match e with CalledSignTx _ doc => Some doc | _ => None end) l.
Definition raw_signatures (l : list (signer_event (Conn := Conn))) : list (list Z) :=
  omap (fun e => match e with CalledSignRaw _ m => Some m | _ => None end) l.

Lemma docs_app (l1 l2 : list (signer_event (Conn := Conn))) : signed_docs (l1 ++ l2) = signed_docs l1 ++ signed_docs l2.
Proof using Type. apply omap_app. Qed.
Lemma raw_app (l1 l2 : list (signer_event (Conn := Conn))) : raw_signatures (l1 ++ l2) = raw_signatures l1 ++ raw_signatures l2.
Proof using Type. apply omap_app. Qed.

(** A step with what it adds: the documents signed, none of them blindly, and the transactions broadcast, with the answers. *)
Definition does {A} (m : cmd A) (P : go A -> list (list Z) -> list (list Z * (go_error + broadcast_response)) -> Prop) : Prop :=
  forall st r st', m st = (r, st') ->
  exists docs txs, signed_docs (sg_events (cmd_signer st')) = signed_docs (sg_events (cmd_signer st)) ++ docs /\
    raw_signatures (sg_events (cmd_signer st')) = raw_signatures (sg_events (cmd_signer st)) /\
    cmd_broadcasts st' = cmd_broadcasts st ++ txs /\ P r docs txs.

Lemma does_bind {A B} (m : cmd A) (k : A -> cmd B) P Q :
  does m P ->
  (forall a docs txs, P (Ok a) docs txs -> does (k a) (fun r d t => Q r (docs ++ d) (txs ++ t))) ->
  (forall e docs txs, P (Err e) docs txs -> Q (Err e) docs txs) -> (forall p docs txs, P (Panic p) docs txs -> Q (Panic p) docs txs) ->
  does (bind m k) Q.
Proof using Type.
  intros Hm Hk He Hp st r st' E. unfold bind in E. destruct (m st) as [r1 st1] eqn:Em. destruct (Hm _ _ _ Em) as (docs & txs & E1 & E2 & E3 & HP).
  destruct r1 as [a|e|p]; [|injection E as <- <-; exists docs, txs; auto..].
  destruct (Hk a docs txs HP _ _ _ E) as (d & t & F1 & F2 & F3 & HQ). exists (docs ++ d), (txs ++ t).
  rewrite F1, F2, F3, E1, E2, E3, !app_assoc. done.
Qed.

(** Steps that sign and broadcast nothing. *)
Definition nothing {A} (ok : A -> Prop) (r : go A) (docs : list (list Z)) (txs : list (list Z * (go_error + broadcast_response))) : Prop := docs = [] /\ txs = [] /\ forall a, r = Ok a -> ok a.

Lemma does_nothing {A} (m : cmd A) (ok : A -> Prop) :
  (forall st r st', m st = (r, st') -> signed_docs (sg_events (cmd_signer st')) = signed_docs (sg_events (cmd_signer st)) /\
     raw_signatures (sg_events (cmd_signer st')) = raw_signatures (sg_events (cmd_signer st)) /\ cmd_broadcasts st' = cmd_broadcasts st /\
     forall a, r = Ok a -> ok a) -> does m (nothing ok).
Proof using Type.
  intros H st r st' E. destruct (H _ _ _ E) as (E1 & E2 & E3 & Hok). exists [], []. rewrite !app_nil_r. done.
Qed.

(** The rule for such a step before the rest of a command, of which [Q] holds whenever it ends early. *)
Lemma nothing_bind {A B} (m : cmd A) (k : A -> cmd B) (ok : A -> Prop) Q :
  does m (nothing ok) -> (forall a, ok a -> does (k a) Q) -> (forall e, Q (Err e) [] []) -> (forall p, Q (Panic p) [] []) -> does (bind m k) Q.
Proof using Type.
  intros Hm Hk He Hp. eapply does_bind; [exact Hm|..].
  - intros a docs txs (-> & -> & H). apply Hk. by apply H.
  - intros e docs txs (-> & -> & _). apply He.
  - intros p docs txs (-> & -> & _). apply Hp.
Qed.

Lemma pure_nothing {A} (m : cmd A) : pure_step m -> does m (nothing (fun _ => True)).
Proof using Type. intros Hm. apply does_nothing. intros st r st' E. specialize (Hm st). rewrite E in Hm. cbn in Hm. by subst. Qed.

Lemma node_nothing {A} (f : W -> W * A) : does (on_node f) (nothing (fun _ => True)).
Proof using Type. apply does_nothing. intros st r st' E. unfold on_node in E. destruct (f _) as [w a]. by injection E as <- <-. Qed.

(** The deferred close signs and broadcasts nothing. *)
Lemma deferred_does {A} conn (m : cmd A) Q : does m Q -> does (deferred_close conn m) Q.
Proof using Type.
  intros Hm st r st' E. unfold deferred_close in E. destruct (m st) as [r1 st1] eqn:Em. destruct (Hm _ _ _ Em) as (docs & txs & E1 & E2 & E3 & HQ).
  exists docs, txs. destruct r1; injection E as <- <-; [|done|]; cbn; rewrite docs_app, raw_app, E1, E2; cbn; rewrite !app_nil_r; done.
Qed.

Lemma start_silent c l k : start_calls c = l ++ k -> signed_docs l = [] /\ raw_signatures l = [].
Proof using Type.
  intros E. assert (signed_docs (start_calls (Conn := Conn) c) = [] /\ raw_signatures (start_calls (Conn := Conn) c) = []) as [H1 H2] by done.
  rewrite E in H1, H2. unfold signed_docs, raw_signatures in *. rewrite omap_app in H1, H2.
  by apply app_eq_nil in H1 as [-> _]; apply app_eq_nil in H2 as [-> _].
Qed.

(** The dial leaves no signature, and its keyring is one of SignTx. *)
Lemma dial_spec addr ca cert key st st' (r : go (remoteSignerKeyring * list Z * Conn)) :
  NewRemoteSignerKeyringTx "reporter" addr ca cert key st = (st', r) ->
  signed_docs (sg_events st') = signed_docs (sg_events st) /\ raw_signatures (sg_events st') = raw_signatures (sg_events st) /\
  (forall p, r <> Panic p) /\
  forall kr acc c, r = Ok (kr, acc, c) -> keyName kr = "reporter" /\ signerConn kr = c /\ useSignTx kr = true /\ acc = pubKey_Address (rk_pubKey kr).
Proof using Type.
  unfold NewRemoteSignerKeyringTx. destruct (newKeyringFromRemoteSigner _ _ _ _ _ _ st) as [st1 r1] eqn:E. apply start_events in E.
  destruct r1 as [[[[kr acc] id] c]|err|p]; cbn [mbind go_bind mret go_ret]; intros; simplify_eq; [|split_and!; try done|done].
  - destruct E as (-> & Hn & Hc & Hs & _ & Ha). rewrite docs_app, raw_app. split_and!; try (cbn; apply app_nil_r); [done|].
    intros kr2 acc2 c2 Ek. injection Ek as <- <- <-. split_and!; assumption.
  - destruct E as [->|(c & l & -> & k & Hk)]; [done|]. apply start_silent in Hk as [H1 _]. rewrite docs_app. change (Dialed c :: l ++ [ClosedConn c]) with ([Dialed c] ++ l ++ [ClosedConn c]).
    rewrite !docs_app, H1. apply app_nil_r.
  - destruct E as [->|(c & l & -> & k & Hk)]; [done|]. apply start_silent in Hk as [_ H1]. rewrite raw_app. change (Dialed c :: l ++ [ClosedConn c]) with ([Dialed c] ++ l ++ [ClosedConn c]).
    rewrite !raw_app, H1. apply app_nil_r.
Qed.

Lemma dial_nothing what addr ca cert key :
  does (failing what (on_signer (NewRemoteSignerKeyringTx "reporter" addr ca cert key)))
    (nothing (fun x => keyName x.1.1 = "reporter" /\ useSignTx x.1.1 = true /\ x.1.2 = pubKey_Address (rk_pubKey x.1.1))).
Proof using All.
  apply does_nothing. intros st r st' E. unfold failing, on_signer in E.
  destruct (NewRemoteSignerKeyringTx _ _ _ _ _ (cmd_signer st)) as [s1 r1] eqn:Ed. apply dial_spec in Ed as (E1 & E2 & _ & Hok).
  destruct r1 as [[[kr acc] c]|err|p]; injection E as <- <-; cbn; split_and!; try done.
  intros a [= <-]. destruct (Hok kr acc c eq_refl) as (H1 & _ & H2 & H3). done.
Qed.

(** A signature of the keyring is one document for SignTx, whether or not the signer answers. *)
Lemma sign_one what (kr : remoteSignerKeyring) doc :
  keyName kr = "reporter" -> useSignTx kr = true ->
  does (failing what (on_signer (Sign kr "reporter" doc))) (fun _ docs txs => docs = [doc] /\ txs = []).
Proof using All.
  intros Hn Hs st r st' E. unfold failing, on_signer in E. rewrite <- Hn in E. pose proof (Sign_own kr doc (cmd_signer st)) as Hev.
  destruct (Sign kr (keyName kr) doc (cmd_signer st)) as [s1 r1]. cbn in Hev. unfold sign_event in Hev. rewrite Hs in Hev.
  exists [doc], []. assert (st' = mkCmd s1 (cmd_broadcasts st)) as -> by (destruct r1; by injection E as <- <-).
  cbn. rewrite Hev, docs_app, raw_app, !app_nil_r. done.
Qed.

(** A broadcast, with its answer: an error ends the process. *)
Lemma send_one fl txBytes :
  does (send fl txBytes) (fun r docs txs => docs = [] /\ exists answer, txs = [(txBytes, answer)] /\
    match answer with inr res => r = Ok res | inl _ => exists err, r = Err err end).
Proof using All.
  intros st r st' E. unfold send, bind in E. destruct (BroadcastTx _ _ _) as [w answer]. unfold must, lift in E.
  exists [], [(txBytes, answer)]. rewrite app_nil_r. injection E as <- <-. split_and!; [done..|]. exists answer. split; [done|].
  destruct answer; [by eexists|done].
Qed.

(** How a command ends. *)
Definition command_end (fl : tx_flags) (r : go Z) (docs : list (list Z)) (txs : list (list Z * (go_error + broadcast_response))) : Prop :=
  (length txs <= length docs <= 1)%nat /\ (fl_dryRun fl = true -> txs = []) /\
  (forall code, r = Ok code -> length docs = 1%nat /\ if fl_dryRun fl then code = 0 else length txs = 1%nat) /\
  forall tx answer, (tx, answer) ∈ txs ->
    match answer with inr res => r = Ok (if res_Code res =? 0 then 0 else 2) | inl _ => exists err, r = Err err end.

Lemma end_early fl r docs : (length docs <= 1)%nat -> (forall code, r <> Ok code) -> command_end fl r docs [].
Proof using All.
  intros Hd H. unfold command_end. cbn [length]. split_and!; [lia|lia|done| |].
  - intros code Hc. by destruct (H code).
  - intros tx answer Hin. by apply not_elem_of_nil in Hin.
Qed.

Lemma finish_end fl txBytes doc :
  does (if fl_dryRun fl then ret 0 else do res <- send fl txBytes; ret (if negb (res_Code res =? 0) then 2 else 0))
    (fun r d t => command_end fl r (doc :: d) t).
Proof using All.
  unfold command_end. destruct (fl_dryRun fl).
  - intros st r st' E. injection E as <- <-. exists [], []. rewrite !app_nil_r. split_and!; cbn; try done; [lia..| |].
    + by intros code [= <-].
    + intros tx answer Hin. by apply not_elem_of_nil in Hin.
  - intros st r st' E. unfold bind in E. destruct (send fl txBytes st) as [r1 st1] eqn:Es.
    destruct (send_one _ _ _ _ _ Es) as (docs & txs & E1 & E2 & E3 & -> & answer & -> & Ha). exists [], [(txBytes, answer)].
    assert (st' = st1 /\ match answer with inr res => r = Ok (if res_Code res =? 0 then 0 else 2) | inl _ => exists err, r = Err err end) as [-> Hr].
    { destruct answer as [e|res]; [destruct Ha as [err ->]; injection E as <- <-; split; [done|by exists err]|].
      subst r1. unfold ret in E. injection E as <- <-. split; [done|]. by destruct (res_Code res =? 0). }
    split; [exact E1|]. split; [exact E2|]. split; [exact E3|]. cbn [length]. split_and!; [lia|lia|done|done|].
    intros tx ans Hin. apply list_elem_of_singleton in Hin. injection Hin as -> ->. exact Hr.
Qed.

Lemma run_command_end fl message : (forall a, pure_step (message a)) -> does (run_command fl message) (command_end fl).
Proof using All.
  intros Hpure. unfold run_command.
  eapply nothing_bind; [apply dial_nothing| |by intros; apply end_early; cbn; [lia|]..]. intros [[kr acc] conn] (Hn & Hs & _). cbn in Hn, Hs.
  apply deferred_does.
  eapply nothing_bind; [apply pure_nothing, pure_lift| |by intros; apply end_early; cbn; [lia|]..]. intros _ _.
  eapply nothing_bind; [apply pure_nothing, Hpure| |by intros; apply end_early; cbn; [lia|]..]. intros msg _.
  eapply nothing_bind; [apply node_nothing| |by intros; apply end_early; cbn; [lia|]..]. intros prepared _.
  eapply nothing_bind; [apply pure_nothing, pure_lift| |by intros; apply end_early; cbn; [lia|]..]. intros txf _.
  eapply nothing_bind; [apply pure_nothing, pure_lift| |by intros; apply end_early; cbn; [lia|]..]. intros txb _.
  eapply nothing_bind; [apply pure_nothing, pure_lift| |by intros; apply end_early; cbn; [lia|]..]. intros doc _.
  eapply does_bind; [by apply sign_one| |by intros e docs txs [-> ->]; apply end_early; cbn; [lia|]..]. intros signature docs txs [-> ->]. cbn [app].
  eapply nothing_bind; [apply pure_nothing, pure_lift| |by intros; apply end_early; cbn; [lia|]..]. intros txBytes _. apply finish_end.
Qed.

(** The messages of the four commands are made of the flags and the account alone. *)
Ltac pure := repeat (first [apply pure_bind; [|intros ?] | case_match | apply pure_lift | done]).

(** C40: The operator commands. Whatever the signer and the node answer, a command asks the signer for one signature at most, always
    by SignTx and never blindly, and broadcasts one transaction at most: none before it is signed, none in a dry run. A command that
    returns has signed one document; in a dry run it exits with 0, and else it has broadcast. When the node answers a broadcast, the
    command returns and exits with 0 if the code of the answer is 0, with 2 if it is not; when the broadcast fails, the command ends
    with an error. *)
Theorem operator_commands_correct fl :
  (forall commRate minTokens moniker, does (create_reporter fl commRate minTokens moniker) (command_end fl)) /\
  (forall moniker pubkey amount rate maxRate maxChange minSelf,
    does (create_validator fl moniker pubkey amount rate maxRate maxChange minSelf) (command_end fl)) /\
  (forall commRate, does (edit_validator fl commRate) (command_end fl)) /\
  does (unjail fl) (command_end fl).
Proof using All.
  split_and!; intros; apply run_command_end; intros acc; unfold int_flag, LegacyMustNewDecFromStr, must_be, must; pure.
Qed.
End Commands.

(** ** An example: a validator is unjailed, in a dry run and then for good; a commission that is no decimal is a panic before anything is signed *)
#[local] Existing Instance RemoteSigner.ex_libs.
Definition ex_decimal (s : string) : go_error + Z := if bool_decide (s = "0.09") then inr (9 * 10 ^ 16) else inl (ErrNew "failed to set decimal string").
#[local] Instance ex_decimals : LegacyDec Z := Units.with_reader ex_decimal.

Definition ex_tx_flags (dryRun : bool) : tx_flags := mkTxFlags "127.0.0.1:9191" "" "" "" "tcp://127.0.0.1:26657" "tellor-1" "0.000025loya" 400000 dryRun.
Definition ex_run (node_code : Z) (fl : tx_flags) (commission : option string) : go Z * cmd_st :=
  let prepare (_ : tx_settings) (_ : string) (_ : list Z) (w : nat) : nat * (go_error + unit) := (w, inr tt) in
  let run := match commission with
             | Some rate => edit_validator (fun _ => None) (fun _ => "tellorvaloper1") prepare (fun _ _ => inr tt) (fun _ _ => inr [1; 2])
                              (fun _ sig => inr sig.1) (fun _ _ w => (w, inr (mkResponse node_code "AB" ""))) fl rate
             | None => unjail (D := Z) (fun _ => None) (fun _ => "tellorvaloper1") prepare (fun _ _ => inr tt) (fun _ _ => inr [1; 2])
                         (fun _ sig => inr sig.1) (fun _ _ w => (w, inr (mkResponse node_code "AB" ""))) fl
             end in
  run (mkCmd (mkSignerSt 0%nat []) []).
Definition ex_commands (node_code : Z) (fl : tx_flags) (commission : option string) : go Z * (list (list Z) * list (list Z)) :=
  let '(r, st) := ex_run node_code fl commission in (r, (signed_docs (sg_events (cmd_signer st)), (cmd_broadcasts st).*1)).

(** A panic closes the connection, as a return does. *)
Example panic_closes :
  (exists conn, last (sg_events (cmd_signer (ex_run 0 (ex_tx_flags false) (Some "9%")).2)) = Some (ClosedConn conn)) /\
  exists conn, last (sg_events (cmd_signer (ex_run 5 (ex_tx_flags false) None).2)) = Some (ClosedConn conn).
Proof. vm_compute. split; by eexists. Qed.

Example unjail_ex :
  ex_commands 0 (ex_tx_flags true) None = (Ok 0, ([[1; 2]], [])) /\
  ex_commands 0 (ex_tx_flags false) None = (Ok 0, ([[1; 2]], [[1; 2; 1; 2]])) /\
  ex_commands 5 (ex_tx_flags false) (Some "0.09") = (Ok 2, ([[1; 2]], [[1; 2; 1; 2]])) /\
  exit_code (ex_commands 0 (ex_tx_flags false) (Some "9%")).1 = 2 /\ (ex_commands 0 (ex_tx_flags false) (Some "9%")).2 = ([], []).
Proof. vm_compute. repeat split. Qed.
