(* ===== verification/ServerLife.v ===== *)
(** * server/server.go: the life of the server of the daemons

    [Start] and [Stop] with the goroutine of app.go that calls them: it runs [Start] in a goroutine of its own and stops the server
    when the context ends. Of package grpc it is used what it documents: [Serve] returns nil when [Stop] is called while it
    serves, and [ErrServerStopped] when it is called after [Stop]. *)
From stdpp Require Import relations.
From S2P Require Import Prelude.
Local Open Scope Z_scope.

(** Where [Start] is. *)
Inductive start_phase := ClearSocket | ListenSocket | RegisterServices | CallServe | Serving | StartReturned.
(** Where the goroutine of app.go is: in its select, in [Stop], waiting for [Start]. *)
Inductive supervisor := Selecting | CallStop | WaitDone | SupervisorDone.
#[export] Instance supervisor_eq_dec : EqDecision supervisor.
Proof. solve_decision. Defined.

Definition ErrServerStopped : go_error := ErrNew "grpc: the server has been stopped".

Record server_life := mkLife {
  at_start : start_phase;
  at_supervisor : supervisor;
  ctx_done : bool;
  server_stopped : bool;
  server_panic : option go_panic
}.

Definition server_started : server_life := mkLife ClearSocket Selecting false false None.

Definition with_phase (p : start_phase) (s : server_life) : server_life :=
  mkLife p (at_supervisor s) (ctx_done s) (server_stopped s) (server_panic s).
Definition with_supervisor (p : supervisor) (s : server_life) : server_life :=
  mkLife (at_start s) p (ctx_done s) (server_stopped s) (server_panic s).
Definition panic_server (err : go_error) (s : server_life) : server_life :=
  mkLife (at_start s) (at_supervisor s) (ctx_done s) (server_stopped s) (Some (PanicMsg (error_text err))).

(** A call of [Start]: an error is a panic. *)
Definition called (err : option go_error) (next : start_phase) (s : server_life) : server_life :=
  match err with Some err => panic_server err s | None => with_phase next s end.

(** [server.Stop]. *)
Definition stop_server (s : server_life) : server_life := mkLife (at_start s) WaitDone (ctx_done s) true (server_panic s).
Definition cancel_ctx (s : server_life) : server_life :=
  mkLife (at_start s) (at_supervisor s) true (server_stopped s) (server_panic s).

(** What the two goroutines do by themselves, with the results of the calls they make. *)
Inductive server_step : server_life -> server_life -> Prop :=
  | step_clear s err : server_panic s = None -> at_start s = ClearSocket -> server_step s (called err ListenSocket s)
  | step_listen s err : server_panic s = None -> at_start s = ListenSocket -> server_step s (called err RegisterServices s)
  | step_register s : server_panic s = None -> at_start s = RegisterServices -> server_step s (with_phase CallServe s)
  | step_serve s : server_panic s = None -> at_start s = CallServe ->
      server_step s (if server_stopped s then panic_server ErrServerStopped s else with_phase Serving s)
  | step_serve_ends s : server_panic s = None -> at_start s = Serving -> server_stopped s = true -> server_step s (with_phase StartReturned s)
  | step_select_ctx s : server_panic s = None -> at_supervisor s = Selecting -> ctx_done s = true -> server_step s (with_supervisor CallStop s)
  | step_select_done s : server_panic s = None -> at_supervisor s = Selecting -> at_start s = StartReturned -> server_step s (with_supervisor SupervisorDone s)
  | step_stop s : server_panic s = None -> at_supervisor s = CallStop -> server_step s (stop_server s)
  | step_done s : server_panic s = None -> at_supervisor s = WaitDone -> at_start s = StartReturned -> server_step s (with_supervisor SupervisorDone s).

(** What comes from outside: the end of the context, and an error of the listener while it serves. *)
Inductive server_env : server_life -> server_life -> Prop :=
  | env_cancel s : server_panic s = None -> server_env s (cancel_ctx s)
  | env_accept s err : server_panic s = None -> at_start s = Serving -> server_env s (panic_server err s).

Inductive server_runs : server_life -> Prop :=
  | server_runs_start : server_runs server_started
  | server_runs_step s s' : server_runs s -> server_step s s' -> server_runs s'
  | server_runs_env s s' : server_runs s -> server_env s s' -> server_runs s'.

(** ** The invariant *)
Definition before_serving (p : start_phase) : Prop := match p with Serving | StartReturned => False | _ => True end.

Record server_ok (s : server_life) : Prop := {
  ok_stopped : server_stopped s = true -> ctx_done s = true /\ (at_supervisor s = WaitDone \/ at_supervisor s = SupervisorDone);
  ok_waiting : at_supervisor s = WaitDone -> server_stopped s = true;
  ok_calling : at_supervisor s = CallStop -> ctx_done s = true;
  ok_returned : at_start s = StartReturned -> server_stopped s = true;
  ok_done : at_supervisor s = SupervisorDone -> at_start s = StartReturned
}.

Lemma server_ok_start : server_ok server_started.
Proof. by split. Qed.

#[local] Ltac life := split; cbn in *; intros; simplify_eq; rewrite ?bool_decide_true in * by done; try done; try tauto; intuition (try congruence).

Lemma server_ok_step s s' : server_ok s -> server_step s s' -> server_ok s'.
Proof.
  intros Hok Hs. revert Hok. destruct Hs as [s err Hp Ha|s err Hp Ha|s Hp Ha|s Hp Ha|s Hp Ha Hst|s Hp Ha Hd|s Hp Ha Hr|s Hp Ha|s Hp Ha Hr];
    intros [H1 H2 H3 H4 H5]; try destruct err; try (destruct (server_stopped s) eqn:Est); unfold called; life.
Qed.

Lemma server_ok_env s s' : server_ok s -> server_env s s' -> server_ok s'.
Proof. intros Hok Hs. revert Hok. destruct Hs as [s0 Hp|s0 err Hp Ha]; intros [H1 H2 H3 H4 H5]; life. Qed.

Lemma server_runs_ok s : server_runs s -> server_ok s.
Proof. induction 1; [apply server_ok_start|by eapply server_ok_step|by eapply server_ok_env]. Qed.

(** ** Its end *)
Definition phase_rank (p : start_phase) : nat :=
  match p with ClearSocket => 5 | ListenSocket => 4 | RegisterServices => 3 | CallServe => 2 | Serving => 1 | StartReturned => 0 end.
Definition supervisor_rank (p : supervisor) : nat := match p with Selecting => 3 | CallStop => 2 | WaitDone => 1 | SupervisorDone => 0 end.
Definition server_measure (s : server_life) : nat :=
  phase_rank (at_start s) + supervisor_rank (at_supervisor s) + match server_panic s with None => 1 | Some _ => 0 end.

Lemma server_step_measure s s' : server_step s s' -> (server_measure s' < server_measure s)%nat.
Proof.
  intros Hs. destruct Hs as [s err Hp Ha|s err Hp Ha|s Hp Ha|s Hp Ha|s Hp Ha Hst|s Hp Ha Hd|s Hp Ha Hr|s Hp Ha|s Hp Ha Hr];
    unfold server_measure, called; try destruct err; try destruct (server_stopped s); cbn; rewrite ?Hp, ?Ha; cbn; lia.
Qed.

(** After the context has ended nothing waits for ever: a server with nothing left to do has returned, or the program has panicked. *)
Lemma server_stuck s : server_ok s -> ctx_done s = true -> (forall s', ~ server_step s s') -> at_supervisor s = SupervisorDone \/ server_panic s <> None.
Proof.
  intros Hok Hd Hn. destruct (server_panic s) as [p|] eqn:Hp; [by right|]. left.
  destruct (at_supervisor s) eqn:Hsup; [by destruct (Hn _ (step_select_ctx s Hp Hsup Hd))|by destruct (Hn _ (step_stop s Hp Hsup))| |done].
  pose proof (ok_waiting s Hok Hsup) as Hst. destruct (at_start s) eqn:Ha.
  - by destruct (Hn _ (step_clear s None Hp Ha)).
  - by destruct (Hn _ (step_listen s None Hp Ha)).
  - by destruct (Hn _ (step_register s Hp Ha)).
  - by destruct (Hn _ (step_serve s Hp Ha)).
  - by destruct (Hn _ (step_serve_ends s Hp Ha Hst)).
  - by destruct (Hn _ (step_done s Hp Hsup Ha)).
Qed.

(** The server in every interleaving of its start with the end of the context: it takes nine steps at most by itself; once the context has ended
    and nothing is left to do, the goroutine that app.go waits for has returned, or the program has panicked; it
    is stopped only after the context has ended. *)
Theorem server_life_correct s :
  server_runs s ->
  (forall n s', nsteps server_step n s s' -> (n <= 9)%nat) /\
  (ctx_done s = true -> (forall s', ~ server_step s s') -> at_supervisor s = SupervisorDone \/ server_panic s <> None) /\
  (server_stopped s = true -> ctx_done s = true).
Proof.
  intros Hok%server_runs_ok. split_and!.
  - assert (forall n s0 s', nsteps server_step n s0 s' -> (n + server_measure s' <= server_measure s0)%nat) as Hn.
    { induction 1 as [x|n x y z Hxy _ IH]; [lia|]. apply server_step_measure in Hxy. lia. }
    intros n s' Hs. apply Hn in Hs. unfold server_measure in Hs at 2.
    destruct (at_start s), (at_supervisor s), (server_panic s); cbn in Hs; lia.
  - by apply server_stuck.
  - intros Hst. by apply Hok.
Qed.

(** A stop that comes before [Serve]: the program panics with the error of [Serve], though nothing failed. *)
Example early_stop_panics : exists s, server_runs s /\ ctx_done s = true /\ server_panic s = Some (PanicMsg "grpc: the server has been stopped").
Proof.
  set (s1 := cancel_ctx server_started). set (s2 := with_supervisor CallStop s1). set (s3 := stop_server s2).
  set (s4 := called None ListenSocket s3). set (s5 := called None RegisterServices s4). set (s6 := with_phase CallServe s5).
  exists (panic_server ErrServerStopped s6). split; [|split; reflexivity].
  apply (server_runs_step s6); [|exact (step_serve s6 eq_refl eq_refl)].
  apply (server_runs_step s5); [|exact (step_register s5 eq_refl eq_refl)].
  apply (server_runs_step s4); [|exact (step_listen s4 None eq_refl eq_refl)].
  apply (server_runs_step s3); [|exact (step_clear s3 None eq_refl eq_refl)].
  apply (server_runs_step s2); [|exact (step_stop s2 eq_refl eq_refl)].
  apply (server_runs_step s1); [|exact (step_select_ctx s1 eq_refl eq_refl eq_refl)].
  apply (server_runs_env server_started); [apply server_runs_start|exact (env_cancel server_started eq_refl)].
Qed.
