(* ===== verification/BridgeLife.v ===== *)
(** * token_bridge_feed/client/client.go: the life of the token bridge client

    [StartNewClient], [start] and [Stop]: the goroutine of the client and the goroutine that stops it, with the wait groups they
    share, in any interleaving. What the steps of [start] do to the caches is in TokenBridge; here only how they end counts,
    and whether the Ethereum clients are open. *)
From stdpp Require Import relations.
From S2P Require Import Prelude.
Local Open Scope Z_scope.

(** Where [start] is. *)
Inductive bridge_phase := Connecting | AwaitingContract | InitializingDeposits | WaitingTick | Ticking | BridgeReturned.
(** Where [Stop] is. *)
Inductive bridge_stop := NotCalled | AwaitingStartup | AwaitingSubtasks | StopReturned.

Record bridge_life := mkBridgeLife {
  at_bridge : bridge_phase;
  at_stop : bridge_stop;
  ctx_ended : bool;
  daemonStartup : Z;
  runningSubtasks : Z;
  clients_open : bool
}.

(** [newClient] and the [Add] of [StartNewClient]. *)
Definition bridge_started : bridge_life := mkBridgeLife Connecting NotCalled false 1 1 false.

Definition to_phase (p : bridge_phase) (s : bridge_life) : bridge_life :=
  mkBridgeLife p (at_stop s) (ctx_ended s) (daemonStartup s) (runningSubtasks s) (clients_open s).
Definition set_clients (open : bool) (s : bridge_life) : bridge_life :=
  mkBridgeLife (at_bridge s) (at_stop s) (ctx_ended s) (daemonStartup s) (runningSubtasks s) open.
(** [daemonStartup.Done] after the initialization. *)
Definition startup_complete (s : bridge_life) : bridge_life :=
  mkBridgeLife (at_bridge s) (at_stop s) (ctx_ended s) (daemonStartup s - 1) (runningSubtasks s) (clients_open s).
(** A return of [start] with its deferred calls; [startupSignaled] holds after the initialization. *)
Definition return_bridge (startupSignaled : bool) (s : bridge_life) : bridge_life :=
  mkBridgeLife BridgeReturned (at_stop s) (ctx_ended s) (daemonStartup s - (if startupSignaled then 0 else 1)) (runningSubtasks s - 1) (clients_open s).
Definition to_stop (p : bridge_stop) (s : bridge_life) : bridge_life :=
  mkBridgeLife (at_bridge s) p (ctx_ended s) (daemonStartup s) (runningSubtasks s) (clients_open s).

(** What the goroutine of the client does. [ok] is the outcome of a call; a failed dial leaves no client open. *)
Inductive client_step : bridge_life -> bridge_life -> Prop :=
  | connect_step s (ok : bool) : at_bridge s = Connecting ->
      client_step s (if ok then to_phase AwaitingContract (set_clients true s) else return_bridge false s)
  | contract_step s (ok : bool) : at_bridge s = AwaitingContract -> (ctx_ended s = false -> ok = true) ->
      client_step s (if ok then to_phase InitializingDeposits s else return_bridge false s)
  | deposits_step s (ok : bool) : at_bridge s = InitializingDeposits ->
      client_step s (if ok then startup_complete (to_phase WaitingTick s) else return_bridge false s)
  | ctx_step s : at_bridge s = WaitingTick -> ctx_ended s = true -> client_step s (return_bridge true s).

(** A tick: it may connect again, which closes the clients that are open and opens others. *)
Inductive tick_step : bridge_life -> bridge_life -> Prop :=
  | tick_begins s : at_bridge s = WaitingTick -> tick_step s (to_phase Ticking s)
  | tick_reconnects s (ok : bool) : at_bridge s = Ticking -> tick_step s (set_clients ok s)
  | tick_ends s : at_bridge s = Ticking -> tick_step s (to_phase WaitingTick s).

(** [Stop]: the stop channels of the client are none, its ticker is stopped by [start] as well. *)
Inductive stop_step : bridge_life -> bridge_life -> Prop :=
  | stop_after_startup s : at_stop s = AwaitingStartup -> daemonStartup s = 0 ->
      stop_step s (to_stop AwaitingSubtasks (set_clients false s))
  | stop_after_subtasks s : at_stop s = AwaitingSubtasks -> runningSubtasks s = 0 -> stop_step s (to_stop StopReturned s).

(** The end of the context, and the call of [Stop]. *)
Inductive outside_step : bridge_life -> bridge_life -> Prop :=
  | ctx_ends s : outside_step s (mkBridgeLife (at_bridge s) (at_stop s) true (daemonStartup s) (runningSubtasks s) (clients_open s))
  | stop_called s : at_stop s = NotCalled -> outside_step s (to_stop AwaitingStartup s).

Inductive life_step (s s' : bridge_life) : Prop :=
  | life_start : client_step s s' -> life_step s s'
  | life_tick : tick_step s s' -> life_step s s'
  | life_stop : stop_step s s' -> life_step s s'
  | life_outside : outside_step s s' -> life_step s s'.

Inductive bridge_runs : bridge_life -> Prop :=
  | bridge_runs_start : bridge_runs bridge_started
  | bridge_runs_step s s' : bridge_runs s -> life_step s s' -> bridge_runs s'.

(** ** The invariant: what the counters count *)
Definition starting (p : bridge_phase) : bool := match p with Connecting | AwaitingContract | InitializingDeposits => true | _ => false end.
Definition returned_phase (p : bridge_phase) : bool := match p with BridgeReturned => true | _ => false end.

Record bridge_ok (s : bridge_life) : Prop := {
  ok_startup : daemonStartup s = if starting (at_bridge s) then 1 else 0;
  ok_subtasks : runningSubtasks s = if returned_phase (at_bridge s) then 0 else 1;
  ok_closing : at_stop s = AwaitingSubtasks \/ at_stop s = StopReturned -> starting (at_bridge s) = false;
  ok_stopped : at_stop s = StopReturned -> at_bridge s = BridgeReturned
}.

Lemma bridge_ok_step s s' : bridge_ok s -> life_step s s' -> bridge_ok s'.
Proof.
  intros Hok Hs. revert Hok. destruct Hs as [Hs|Hs|Hs|Hs]; destruct Hs; intros [H1 H2 H3 H4];
    repeat match goal with ok : bool |- _ => destruct ok end; split; cbn in *;
    repeat match goal with E : at_bridge _ = _ |- _ => rewrite E in * end; cbn in *; try lia; intros; try tauto; try congruence.
  all: try (exfalso; intuition congruence).
  rewrite H2 in *. destruct (at_bridge s); cbn in *; congruence || lia.
Qed.

Lemma bridge_runs_ok s : bridge_runs s -> bridge_ok s.
Proof. induction 1; [by split; cbn; try (intros [|])|by eapply bridge_ok_step]. Qed.

(** ** The end of a stop *)
Definition bridge_rank (s : bridge_life) : nat :=
  (match at_bridge s with Connecting => 5 | AwaitingContract => 4 | InitializingDeposits => 3 | Ticking => 2 | WaitingTick => 1 | BridgeReturned => 0 end +
   match at_stop s with NotCalled => 3 | AwaitingStartup => 2 | AwaitingSubtasks => 1 | StopReturned => 0 end)%nat.

(** What the two goroutines can do once the context has ended. *)
Definition moves_on (s s' : bridge_life) : Prop := client_step s s' \/ stop_step s s' \/ (at_bridge s = Ticking /\ s' = to_phase WaitingTick s).

Lemma moves_on_rank s s' : moves_on s s' -> (bridge_rank s' < bridge_rank s)%nat.
Proof.
  intros [Hs|[Hs|[Ha ->]]]; [destruct Hs as [s [] Ha|s [] Ha Ho|s [] Ha|s Ha Hc]|destruct Hs as [s Ha Hd|s Ha Hd]|];
    unfold bridge_rank; cbn; rewrite Ha; cbn; lia.
Qed.

Lemma moves_on_exists s : bridge_ok s -> ctx_ended s = true -> at_stop s <> NotCalled -> at_stop s <> StopReturned -> exists s', moves_on s s'.
Proof.
  intros [H1 H2 H3 H4] Hc Hn Hr. destruct (at_bridge s) eqn:Ha.
  - eexists. left. exact (connect_step s true Ha).
  - eexists. left. exact (contract_step s true Ha (fun _ => eq_refl)).
  - eexists. left. exact (deposits_step s true Ha).
  - eexists. left. exact (ctx_step s Ha Hc).
  - eexists. right. right. by split.
  - cbn in *. destruct (at_stop s) eqn:Es; [done| | |done].
    + eexists. right. left. by apply stop_after_startup.
    + eexists. right. left. by apply stop_after_subtasks.
Qed.

(** The token bridge client in every interleaving of its startup, its ticks, the end of the context and [Stop]: no wait group goes below
    zero; [Stop] gets past its first wait only when the startup has ended, and returns only when [start] has; once the context has ended
    it gets there, unless ticks begin for ever. Without the end of the context a client that waits for its next tick never returns,
    so that [Stop] does not end it. *)
Theorem bridge_life_correct s :
  bridge_runs s ->
  (0 <= daemonStartup s <= 1 /\ 0 <= runningSubtasks s <= 1) /\
  (at_stop s = AwaitingSubtasks \/ at_stop s = StopReturned -> starting (at_bridge s) = false) /\
  (at_stop s = StopReturned -> at_bridge s = BridgeReturned) /\
  (ctx_ended s = true -> at_stop s <> NotCalled -> (forall s', ~ moves_on s s') -> at_stop s = StopReturned) /\
  (forall n s', nsteps moves_on n s s' -> (n <= 8)%nat) /\
  (ctx_ended s = false -> at_bridge s = WaitingTick \/ at_bridge s = Ticking ->
    forall s', client_step s s' \/ tick_step s s' \/ stop_step s s' -> at_bridge s' <> BridgeReturned).
Proof.
  intros Hok%bridge_runs_ok. split_and!.
  1-4: destruct Hok as [H1 H2 H3 H4]; destruct (starting _), (returned_phase _); lia.
  - by apply Hok.
  - by apply Hok.
  - intros Hc Hn Hstuck. destruct (at_stop s) eqn:Es; [done| | |done];
      (destruct (moves_on_exists s Hok Hc) as [s' Hs']; [by rewrite Es..|by destruct (Hstuck s')]).
  - assert (forall n s0 s', nsteps moves_on n s0 s' -> (n + bridge_rank s' <= bridge_rank s0)%nat) as Hn.
    { induction 1 as [x|n x y z Hxy _ IH]; [lia|]. apply moves_on_rank in Hxy. lia. }
    intros n s' Hs. apply Hn in Hs. unfold bridge_rank in Hs at 2. destruct (at_bridge s), (at_stop s); lia.
  - intros Hc Ha s' [Hs|[Hs|Hs]]; destruct Hs; cbn in *; try congruence; destruct Ha; try congruence; destruct ok; cbn; congruence.
Qed.

(** A tick that connects again after [Stop] has closed the clients: they stay open when it returns. *)
Example stop_leaves_clients_open : exists s, bridge_runs s /\ at_stop s = StopReturned /\ clients_open s = true.
Proof.
  set (s1 := to_phase AwaitingContract (set_clients true bridge_started)). set (s2 := to_phase InitializingDeposits s1).
  set (s3 := startup_complete (to_phase WaitingTick s2)). set (s4 := to_phase Ticking s3). set (s5 := to_stop AwaitingStartup s4).
  set (s6 := to_stop AwaitingSubtasks (set_clients false s5)). set (s7 := set_clients true s6). set (s8 := to_phase WaitingTick s7).
  set (s9 := mkBridgeLife (at_bridge s8) (at_stop s8) true (daemonStartup s8) (runningSubtasks s8) (clients_open s8)).
  set (s10 := return_bridge true s9).
  exists (to_stop StopReturned s10). split; [|split; reflexivity].
  apply (bridge_runs_step s10); [|apply life_stop; exact (stop_after_subtasks s10 eq_refl eq_refl)].
  apply (bridge_runs_step s9); [|apply life_start; exact (ctx_step s9 eq_refl eq_refl)].
  apply (bridge_runs_step s8); [|apply life_outside; exact (ctx_ends s8)].
  apply (bridge_runs_step s7); [|apply life_tick; exact (tick_ends s7 eq_refl)].
  apply (bridge_runs_step s6); [|apply life_tick; exact (tick_reconnects s6 true eq_refl)].
  apply (bridge_runs_step s5); [|apply life_stop; exact (stop_after_startup s5 eq_refl eq_refl)].
  apply (bridge_runs_step s4); [|apply life_outside; exact (stop_called s4 eq_refl)].
  apply (bridge_runs_step s3); [|apply life_tick; exact (tick_begins s3 eq_refl)].
  apply (bridge_runs_step s2); [|apply life_start; exact (deposits_step s2 true eq_refl)].
  apply (bridge_runs_step s1); [|apply life_start; exact (contract_step s1 true eq_refl (fun _ => eq_refl))].
  apply (bridge_runs_step bridge_started); [|apply life_start; exact (connect_step bridge_started true eq_refl)].
  apply bridge_runs_start.
Qed.
